(* ===== verification/_CoqProject ===== *)
-Q . S2P
Prelude.v
PyStr.v
PyVal.v
Codecs.v
Locator.v
ControlPlane.v
ControlStore.v
ControlReads.v
Schema.v
Packet.v
Queue.v
Prekeys.v
Ahub.v
AhubStore.v
AhubRun.v
AhubLaws.v
AhubSamples.v
AhubService.v
AhubHttp.v
AhubHttpLaws.v
AhubHttpSamples.v
AhubRate.v
AhubClient.v
AhubClientLaws.v
AhubClientSamples.v
AhubRelay.v
AhubRelayLaws.v
AhubRelaySamples.v
RelationData.v
RelationBook.v
RelationLaws.v
RelationRun.v
RelationJudge.v
RelationLineage.v
RelationFile.v
RelationHistory.v
RelationGuarantees.v
RelationTyped.v
RelationSamples.v
Advisor.v
AdvisorLaws.v
AdvisorSamples.v
RelationActivity.v
RelationActivityLaws.v
RelationActivitySamples.v
RelationClaims.v
RelationClaimBook.v
RelationClaimLaws.v
RelationClaimSamples.v
Consumers.v
AgentProtocol.v
A2A.v
Gateway.v
Companion.v
CompanionMessages.v
CompanionLaws.v
Tasks.v
Approvals.v
Devices.v
Maintenance.v
Routing.v
Lifecycle.v
GatewayRun.v
