(* ===== verification/Prelude.v ===== *)
(** Anet in Rocq: the durable state, the protocols and the authority of an Anet node

    Anet (src/src/anet) is a store-and-forward network of agents: nodes exchange sealed
    packets, keep them and what they decide in one SQLite database, run typed tasks for
    each other, let a human's device approve sensitive effects, offer the tasks to the
    public A2A protocol through a gateway, leave packets for absent peers at a hub, and
    keep a private book of who they met and how far they trust them.  This development
    models that core as executable functions and proves what its documents promise.

    ** Files and what they model

    - Prelude (this file): results with Python exceptions, the state monad [ST] whose
      [transaction] rolls back, weakest preconditions, SQL statements over finite maps
      ([select_where], [update_where], [count_where], [upsert], [order_by]), progress
      relations on tables ([table_progress], [steps], [keeps]) and their tactics.
    - PyStr, PyVal: Python strings, bytes and the values msgpack and JSON carry;
      encoding.py (canonical form, packing, the wire limit) and the type classes of the
      libraries the source calls ([Platform]).
    - Codecs: base64 and base32 text, [json.dumps] and [json.loads].
    - Schema: the tables of store.py [_init_schema], one record type per table, and [db].
    - Packet: packet.py, the outer packet, its validation, its authenticated fields and
      its padding.
    - Queue, Prekeys, Consumers, Tasks, Approvals, Gateway, Maintenance: the methods of
      [PacketStore] in store.py, by subject: packets and deliveries; one-time keys; leases
      of inbox messages; executions of agent tasks; companion approvals; the A2A gateway;
      opening repairs, revocation, purge, metrics.
    - AgentProtocol, Companion, A2A: the message formats of agent_protocol.py, of the
      approval part of companion_protocol.py and of a2a_v1.py.  CompanionMessages: the other
      kinds of companion_protocol.py and the binding of a message to its packet;
      CompanionLaws: what an accepted message is.
    - Locator: locator.py, the addresses of a node.
    - ControlPlane, ControlStore, ControlReads: control_plane.py, the signed objects of
      nodes and human devices, the revision tracker, the durable control store and what
      it guarantees.
    - Devices: approvals with the control store behind them.
    - Lifecycle, GatewayRun: all writing operations of [PacketStore] as one step relation
      [store_step], and the guarantees that hold along its runs.
    - Routing: routing.py and scheduling.py, the choice of paths and of traffic classes.
    - Ahub, AhubStore: ahub.py, the signed requests of the hub and [AhubStore], its mailbox,
      claims, settlements, nonces and relay reservations; AhubRun, AhubLaws, AhubSamples:
      its histories, its guarantees and a concrete run.
    - AhubService, AhubHttp: [AhubService] of ahub.py over the control store and the hub
      store, and the server of ahub_http.py: bodies, routes, answers, errors; AhubHttpLaws
      and AhubHttpSamples: its guarantees.  AhubRate: the token buckets of the same file.
    - AhubClient, AhubClientLaws, AhubClientSamples: [AhubHTTPClient] of ahub_http.py.
    - AhubRelay, AhubRelayLaws, AhubRelaySamples: ahub_relay.py, the relay of frames between
      two WebSockets.
    - RelationData: the records of relations.py with the checks of their constructors and
      their JSON forms, actors.py, the card of identity.py.  RelationBook:
      [RelationshipBook] of relations.py, its file, its validation, all its operations.
    - RelationLaws, RelationRun, RelationJudge, RelationLineage, RelationFile,
      RelationHistory: consistency of a book, what each operation does (observations and
      interactions; judgements; revisions of subjects; saving and loading), and the calls
      as one step relation [book_step].  RelationGuarantees, RelationTyped,
      RelationSamples: the guarantees and a concrete story.
    - Advisor: relation_advisor.py and relation_decisions.py, the suggestions about
      relationships and the manager that decides one; AdvisorLaws, AdvisorSamples: what they
      may change.
    - RelationActivity: relation_activity.py, the feed of events of a book;
      RelationActivityLaws, RelationActivitySamples: a client that follows it.
    - RelationClaims: relationship_claims.py, proposals, claims and withdrawals with their
      signatures, and the JSON form of a card (identity.py); RelationClaimBook:
      [RelationshipClaimBook] of the same file; RelationClaimLaws, RelationClaimSamples: what
      it keeps.

    ** How the parts interact

    A received packet goes through [inspect_packet] (Packet) and becomes, decrypted, an
    [OpenedMessage]; [add_inbox] or [commit_local_message] store it.  A consumer group
    claims inbox rows under a token (Consumers); [begin_agent_task] (Tasks) turns a claimed
    request into an execution, [activate_companion_approval] (Approvals) a claimed decision
    into an authorization.  Approvals reach the control plane through the class
    [ApprovalGrants], which [Devices.control_grants] implements with the reads of the
    control store.  The gateway translates an outside message with [inbound_message_to_task]
    (A2A), registers it, and its dispatch queue produces packets that sealing addresses
    with prekeys of the same database.  The theorems of Lifecycle and GatewayRun quantify
    over every interleaving of these calls, returning or raising.

    At the hub a request of [AhubHTTPClient] (AhubClient) passes the limiter (AhubRate,
    [front_call]) and the routes (AhubHttp) to the service (AhubService), which asks the
    control store who the caller is and the hub store for the rest; [remote_claim] is stated
    without the limiter in between.  A WebSocket is authorized by the same service and then
    handled by the relay (AhubRelay), whose tasks interleave at every [await].

    The relationship book keeps its state in memory and writes the whole of it to one JSON
    file at the end of every call that changes it; a restart reads the file.  A call that
    raises midway keeps what it already did in memory: the state monad has no rollback
    there, and that nothing is left behind is a theorem.  The advisor and the feed read a
    snapshot of the book; the decision manager computes the advice again and records the
    decision of a person with [decide_suggestion], the only way a suggestion changes a
    relationship.  The claim book keeps the signed claims, in memory and in a file of its own;
    what the relationship book records of one is [confirm_mutual_relationship].

    A companion message is validated before it is sent and bound to the sender and the
    destination of its packet when it is received (CompanionMessages); approvals go on to the
    store as described above.

    ** The theorems

    - The node, over runs: consumed keys are gone for ever, reservations are exclusive,
      bundles do not roll back, cancelled tasks do not run, finished tasks do not change,
      leases are exclusive, approvals stay within their uses, revoked devices never approve,
      gateway history is permanent; [store_invariants] and [gateway_consistent] hold in
      every reachable database.
    - Single operations on every branch, errors included; most also say that an error
      leaves the database as it was.
    - The hub: requests are served once, accepted packets stay until they are settled with a
      proof or expire, claims are exclusive and settlements fenced by their token, every
      packet only moves along its life cycle ([custody_refines_life]), the tables stay
      consistent and within the quotas, the oldest packet is handed out and can be settled
      in time.  Its server answers for a node only to a request that node signed, a refused
      request changes nothing, and the two stores only see histories of their own
      operations.  A claim through the client is the claim of the service.  The limiter
      behaves as one bucket per key and bounds the requests of any stretch of time.  The
      relay delivers a bounded prefix of what was sent, in order, and all its handlers can
      finish and give everything back.
    - The relationship book: it stays consistent; the file gives the same book back; records
      read from any file are well formed; an operation that raises changes nothing; history
      is permanent; evidence never changes a judgement; a suggestion is decided once;
      confirmations never lower a circle; merging and splitting keep every actor.  The advisor
      moves a relationship only as far as recorded interactions bear it out, and its
      suggestions can be decided and do not come back.  A stored claim carries the signatures
      of both participants, its file gives it back, and a withdrawal is final.  A client of
      the feed reads every event once and in order while the book goes on.
    - Companion messages: what validation returns holds no forbidden data at any depth and
      validates to itself; observations are accepted only with the consent their type asks
      for.
    - Refinement and equivalence: the durable control store answers like the in-memory
      tracker; [custody_refines_life], [service_refines_stores], [remote_claim],
      [rate_limiter_ideal].
    - Formats: validators are idempotent, decisions bind to their requests, padding and JSON
      objects round-trip, accepted packets respect the documented bounds.
    - Termination: reading the event log of a gateway task page by page ends and is complete;
      so is the feed of a relationship book ([feed_complete]); the relay drains.
    - Some theorems show behaviour the documents do not promise.  A task request without an
      id runs twice ([Tasks.anonymous_request_runs_twice]); a row id that SQLite reuses hides
      a message from a group ([Lifecycle.reused_rowid_hides_message]); a misspelled approval
      request can never be decided ([Companion.misspelled_request_never_approved]); an owner
      whose first send fails blocks its relay reservation
      ([AhubRelayLaws.lost_owner_blocks]); an owner comes to more relay connections than the
      limit ([AhubRelaySamples.owner_over_limit]); an observation of a padded actor id raises
      and stays in memory ([RelationSamples.padded_observation_left_behind]); a claim book of
      version 1, which the source means to accept, can never be loaded
      ([RelationClaimLaws.version_1_never_loads]).

    ** How the code is read

    - A method that the source runs under its lock is one state transformer; a [BEGIN] to
      [COMMIT] block is [transaction], which restores the database when the block raises;
      statements outside a block take effect one by one (autocommit).  A value built after
      COMMIT that raises makes the ROLLBACK itself raise [OperationalError].
    - Clock readings and random tokens are arguments, one for each reading or draw, so the
      theorems hold for any clock, also one that goes back.
    - A primary key is the key of a finite map.  UNIQUE indexes and CHECKs that can fail
      raise [IntegrityError]; foreign keys are not enforced in store.py, whose connection
      does not turn them on, and are enforced in the control store, which does.  SQLite's
      implicit row id is the largest one plus one.  Rows with equal ORDER BY keys come in an
      order no theorem depends on.
    - Integers are unbounded, as Python's; where SQLite binds one to 64 bits the
      [OverflowError] is modelled, and json's limit of 4300 digits too.  Seconds given as
      floats are exact rationals.  Text is a sequence of code points 0-255; JSON escapes of
      others are refused, and the one character beyond that the source writes itself, the
      ellipsis of a cut objective, is a parameter.
    - msgpack, hashes, the text of floats, Ed25519, base URL parsing are parameters
      ([Platform], [Digests], [Signatures], [Urllib]); the witnesses instantiate them with
      concrete functions.
    - Activation of an approval reads its request twice, before and inside the transaction,
      as the source does.
    - The hub turns foreign keys on: [member] checks them.  Its server decodes a body of code
      points up to 255; answers are read by the client as they were written.
    - Timeouts and lost connections of the relay are events of the environment, which may
      come at any [await] that the source guards against them; a handler is not cancelled
      from outside.
    - The relationship file is the JSON value [save] writes and [reload] reads; that
      [atomic_json] writes all of it or nothing is taken for granted.  The dictionaries of
      the book are finite maps; where the source iterates over one without sorting, only
      the choice among several errors depends on the order.  Tokens of [secrets] are fresh
      ([fresh]); the digest that names a decision has no collisions in the book at hand
      ([collision_free]).
    - The advisor divides and rounds floats; here the quotients are exact and rounded to even,
      which gives the same for every number of interactions a float can tell apart.  That
      suggestion ids, bases and feed cursors are made of hexadecimal digits is a hypothesis on
      the digests where it is needed.  Details of events have texts as keys.
    - Verifying a claim or a withdrawal reads the clock once; loading a claim book reads it
      once for every entry ([clock n]).
    - Sets of observation types are walked in the order of the batch; the source's order only
      shows in which of several errors is raised.

    ** Fuel

    Every operation is structurally recursive, a fold or a loop over selected rows; no
    operation of the store takes fuel.  JSON parsing and [read_pages] do, and are proved
    to need no more than the length of the text and the number of events plus one.  The
    search for cycles among the transitions of a relationship book ([visit]) may go as deep
    as there are superseded subjects, plus two, which is proved to be enough for every
    consistent book; the source stops at the recursion limit of the interpreter, about a
    thousand subjects that supersede one another.

    ** Not modelled

    - Encryption itself (libsodium in packet.py, identity.py, prekeys.py), files and
      processes (config.py, peers.py, remote_control.py, supervisor_health.py,
      continuity.py), sockets and carriers (transport.py, carriers/), the Discord bridge,
      the command line and the MCP server: input and output around the modelled operations.
    - node.py, the threads that call them, beyond the interleavings of [store_step].
    - Of the hub: migrations, file permissions, PRAGMAs, checkpoints and health counters of
      ahub.py; ASGI messages, logging and the WebSocket client of ahub_http.py; TLS and
      polling (ahub_transport.py, carriers/ahub.py).
    - What else reads and feeds the relationship book (relation_projection.py, social.py,
      friendship.py) and the disclosures about it (relationship_disclosure*.py,
      reported_relationship_views.py).
    - The agent card of a2a_v1.py, and the displays [prekey_status] and [delivery_paths] of
      store.py.
    - The earlier package amesh, the Kotlin applications, scripts, skills and pages. *)
From Stdlib Require Export ZArith Lia String Ascii.
From stdpp Require Export base tactics option list sorting gmap strings fin_maps.

#[global] Open Scope Z_scope.
#[global] Set Default Goal Selector "!".

Declare Scope anet_scope.
Delimit Scope anet_scope with anet.
#[global] Open Scope anet_scope.

(** ** Python exceptions and results *)

(** The exception classes the modelled code raises, with their message.
    [IntegrityError] is [sqlite3.IntegrityError], raised by a UNIQUE index;
    [OperationalError] is the error of a ROLLBACK outside a transaction and
    [InvalidSignature] that of [cryptography]. *)
Inductive exn :=
  | ValueError (msg : string)
  | PermissionError (msg : string)
  | KeyError (msg : string)
  | LookupError (msg : string)
  | RuntimeError (msg : string)
  | TypeError (msg : string)
  | OverflowError (msg : string)
  | InvalidSignature
  | IntegrityError
  | OperationalError.

#[global] Instance exn_eq_dec : EqDecision exn.
Proof. solve_decision. Defined.
(** What SQLite's binding raises for an integer beyond 64 bits *)
Definition int_too_large : exn := OverflowError "Python int too large to convert to SQLite INTEGER".

Inductive res (A : Type) :=
  | Ok (a : A)
  | Err (e : exn).
Arguments Ok {A} a.
Arguments Err {A} e.

#[global] Instance res_ret : MRet res := @Ok.
#[global] Instance res_bind : MBind res := λ A B f m,
  match m with Ok a => f a | Err e => Err e end.
#[global] Instance res_throw : MThrow exn res := λ A e, Err e.
#[global] Instance res_fmap : FMap res := λ A B f m,
  match m with Ok a => Ok (f a) | Err e => Err e end.

(** [if b: raise e] *)
Definition raise_if (b : bool) (e : exn) : res unit :=
  if b then Err e else Ok tt.

Definition of_option {A} (e : exn) (o : option A) : res A :=
  match o with Some a => Ok a | None => Err e end.

(** [m] returned. *)
Definition is_Ok {A} (m : res A) : Prop := ∃ a, m = Ok a.

Lemma raise_if_ok b e u : raise_if b e = Ok u → b = false.
Proof. by destruct b. Qed.

Lemma res_bind_ok {A B} (m : res A) (f : A → res B) b :
  m ≫= f = Ok b ↔ ∃ a, m = Ok a ∧ f a = Ok b.
Proof.
  destruct m as [a|e]; simpl; split.
  - intros H. exists a. auto.
  - by intros (a' & [= <-] & H).
  - discriminate.
  - by intros (a' & ? & _).
Qed.

Lemma Ok_inj {A} (a b : A) : Ok a = Ok b → a = b.
Proof. congruence. Qed.
Lemma of_option_ok {A} e (o : option A) a : of_option e o = Ok a ↔ o = Some a.
Proof. destruct o; simpl; naive_solver. Qed.

(** Takes a successful run of a validation function apart. *)
Ltac res_inv :=
  repeat match goal with
  | H : mbind _ _ = Ok _ |- _ =>
      apply res_bind_ok in H; let x := fresh "x" in let E := fresh "E" in destruct H as (x & E & H)
  | H : raise_if _ _ = Ok ?u |- _ => apply raise_if_ok in H; try clear u
  | H : of_option _ _ = Ok _ |- _ => apply of_option_ok in H
  | H : mret _ = Ok _ |- _ => apply Ok_inj in H
  | H : Ok _ = Ok _ |- _ => apply Ok_inj in H
  | H : Err _ = Ok _ |- _ => discriminate H
  end.

(** Boolean guards as propositions over [Z]. *)
Ltac bool_prop :=
  repeat match goal with
  | H : _ && _ = true |- _ => apply andb_true_iff in H as [? ?]
  | H : _ || _ = false |- _ => apply orb_false_iff in H as [? ?]
  | H : negb _ = false |- _ => apply negb_false_iff in H
  | H : negb _ = true |- _ => apply negb_true_iff in H
  | H : (_ <=? _)%Z = true |- _ => apply Z.leb_le in H
  | H : (_ <=? _)%Z = false |- _ => apply Z.leb_gt in H
  | H : (_ <? _)%Z = true |- _ => apply Z.ltb_lt in H
  | H : (_ <? _)%Z = false |- _ => apply Z.ltb_ge in H
  | H : (_ =? _)%Z = true |- _ => apply Z.eqb_eq in H
  | H : (_ =? _)%Z = false |- _ => apply Z.eqb_neq in H
  | H : String.eqb _ _ = true |- _ => apply String.eqb_eq in H
  | H : String.eqb _ _ = false |- _ => apply String.eqb_neq in H
  | H : bool_decide _ = true |- _ => apply bool_decide_eq_true in H
  | H : bool_decide _ = false |- _ => apply bool_decide_eq_false in H
  end.

(** ** State and errors: the connection to one database *)

(** A statement or a handler runs against the state, and either returns or
    raises.  The state after an exception is explicit because SQLite commits
    each statement outside a transaction. *)
Definition ST (S A : Type) : Type := S → res A * S.

Section state_monad.
Context {S : Type}.

Definition lift {A} (r : res A) : ST S A := λ s, (r, s).
Definition gets {A} (f : S → A) : ST S A := λ s, (Ok (f s), s).
Definition modify (f : S → S) : ST S unit := λ s, (Ok tt, f s).

  (** [BEGIN IMMEDIATE ... COMMIT] with [ROLLBACK; raise] on an exception. *)
Definition transaction {A} (m : ST S A) : ST S A := λ s,
    match m s with
    | (Ok a, s') => (Ok a, s')
    | (Err e, _) => (Err e, s)
    end.

  (** [try: m except sqlite3.IntegrityError: raise e] around one statement. *)
Definition on_integrity_error {A} (e : exn) (m : ST S A) : ST S A := λ s,
    match m s with
    | (Err IntegrityError, s') => (Err e, s')
    | r => r
    end.
End state_monad.

#[global] Instance ST_ret {S} : MRet (ST S) := λ A a s, (Ok a, s).
#[global] Instance ST_bind {S} : MBind (ST S) := λ A B f m s,
  match m s with
  | (Ok a, s') => f a s'
  | (Err e, s') => (Err e, s')
  end.
#[global] Instance ST_throw {S} : MThrow exn (ST S) := λ A e s, (Err e, s).

(** [for x in xs: body(x)] *)
Fixpoint for_each {S A} (body : A → ST S unit) (xs : list A) : ST S unit :=
  match xs with
  | [] => mret tt
  | x :: xs' => body x ;; for_each body xs'
  end.

(** *** Weakest preconditions *)

(** [wp m Q s]: running [m] from [s] ends with a result and a state in [Q]. *)
Definition wp {S A} (m : ST S A) (Q : res A → S → Prop) (s : S) : Prop :=
  Q (m s).1 (m s).2.

Section wp_rules.
Context {S : Type}.
Implicit Types s : S.

Lemma wp_ret {A} (a : A) Q s : Q (Ok a) s → wp (mret a) Q s.
  Proof. done. Qed.
Lemma wp_throw {A} e (Q : res A → S → Prop) s : Q (Err e) s → wp (mthrow e) Q s.
  Proof. done. Qed.
Lemma wp_lift_ok {A} (a : A) Q s : Q (Ok a) s → wp (lift (Ok a)) Q s.
  Proof. done. Qed.
Lemma wp_lift_err {A} e (Q : res A → S → Prop) s : Q (Err e) s → wp (lift (Err e)) Q s.
  Proof. done. Qed.
Lemma wp_lift_raise_if b e (Q : res unit → S → Prop) s :
  (b = true → Q (Err e) s) → (b = false → Q (Ok tt) s) → wp (lift (raise_if b e)) Q s.
Proof. destruct b; intros Ht Hf; [by apply Ht|by apply Hf]. Qed.
Lemma wp_lift {A} (r : res A) Q s :
  (∀ a, r = Ok a → Q (Ok a) s) → (∀ e, r = Err e → Q (Err e) s) → wp (lift r) Q s.
Proof. destruct r; intros Ha He; [by apply Ha|by apply He]. Qed.
Lemma wp_gets {A} (f : S → A) Q s : Q (Ok (f s)) s → wp (gets f) Q s.
  Proof. done. Qed.
Lemma wp_modify f Q s : Q (Ok tt) (f s) → wp (modify f) Q s.
  Proof. done. Qed.

Lemma wp_bind {A B} (m : ST S A) (f : A → ST S B) Q s :
    wp m (λ r s', match r with
                  | Ok a => wp (f a) Q s'
                  | Err e => Q (Err e) s'
                  end) s → wp (m ≫= f) Q s.
  Proof. unfold wp, mbind, ST_bind. destruct (m s) as [[a|e] s']; done. Qed.

Lemma wp_transaction {A} (m : ST S A) Q s :
    wp m (λ r s', match r with Ok _ => Q r s' | Err _ => Q r s end) s →
    wp (transaction m) Q s.
  Proof. unfold wp, transaction. destruct (m s) as [[a|e] s']; done. Qed.

Lemma wp_on_integrity_error {A} e (m : ST S A) Q s :
    wp m (λ r s', match r with
                  | Err IntegrityError => Q (Err e) s'
                  | _ => Q r s'
                  end) s → wp (on_integrity_error e m) Q s.
  Proof. unfold wp, on_integrity_error. destruct (m s) as [[a|[]] s']; done. Qed.

Lemma wp_mono {A} (m : ST S A) (P Q : res A → S → Prop) s :
    wp m P s → (∀ r s', P r s' → Q r s') → wp m Q s.
  Proof. unfold wp. auto. Qed.

Lemma wp_run {A} (m : ST S A) Q s r s' : wp m Q s → m s = (r, s') → Q r s'.
  Proof. unfold wp. intros H E. by rewrite E in H. Qed.
End wp_rules.

(** Taking a successful run apart, statement by statement. *)
Lemma st_bind_ok {S A B} (m : ST S A) (f : A → ST S B) s b s' :
  (m ≫= f) s = (Ok b, s') → ∃ a s1, m s = (Ok a, s1) ∧ f a s1 = (Ok b, s').
Proof.
  unfold mbind, ST_bind. destruct (m s) as [[a|e] s1]; [eauto|discriminate].
Qed.
Lemma st_lift_ok {S A} (r : res A) (s : S) a s' :
  lift r s = (Ok a, s') → r = Ok a ∧ s' = s.
Proof. unfold lift. by intros [= -> ->]. Qed.
Ltac st_inv :=
  repeat match goal with
  | H : mbind _ _ _ = (Ok _, _) |- _ =>
      apply st_bind_ok in H; let a := fresh "a" in let s1 := fresh "s1" in let E := fresh "E" in
      destruct H as (a & s1 & E & H)
  | H : lift _ _ = (Ok _, ?s1) |- _ => apply st_lift_ok in H; destruct H as [H ->]
  | H : mret _ _ = (Ok _, _) |- _ => injection H as H; subst
  end.

(** [wp_step] runs the next statement of the program in the goal; [wp_run_all]
    goes on to the next data-dependent branch. *)
Ltac wp_step :=
  lazymatch goal with
  | |- wp (mbind _ _) _ _ => apply wp_bind
  | |- wp (mret _) _ _ => apply wp_ret
  | |- wp (mthrow _) _ _ => apply wp_throw
  | |- wp (gets _) _ _ => apply wp_gets
  | |- wp (modify _) _ _ => apply wp_modify
  | |- wp (transaction _) _ _ => apply wp_transaction
  | |- wp (on_integrity_error _ _) _ _ => apply wp_on_integrity_error
  | |- wp (lift (Ok _)) _ _ => apply wp_lift_ok
  | |- wp (lift (Err _)) _ _ => apply wp_lift_err
  | |- wp (if decide ?P then _ else _) _ _ => destruct (decide P)
  | |- wp (if ?b then _ else _) _ _ => destruct b eqn:?
  | |- wp (lift (raise_if ?b _)) _ _ => apply wp_lift_raise_if; intros ?
  | |- wp (lift _) _ _ => apply wp_lift; intros ? ?
  | |- wp (match ?x with _ => _ end) _ _ => destruct x eqn:?
  | |- wp (let '(_, _) := ?x in _) _ _ => destruct x eqn:?
  end; cbv beta iota.
Ltac wp_all := repeat wp_step.

(** ** Tables *)

(** WHERE clauses written as functions are decided after beta reduction. *)
#[export] Hint Extern 1 (Decision _) => progress cbv beta : typeclass_instances.

(** A condition on a joined or optional value that a missing value satisfies. *)
Definition if_some {A} (P : A → Prop) (o : option A) : Prop :=
  match o with None => True | Some a => P a end.
#[global] Instance if_some_dec {A} (P : A → Prop) `{!∀ a, Decision (P a)} o :
  Decision (if_some P o).
Proof. destruct o; simpl; apply _. Defined.

(** A table is a finite map from its primary key to the other columns; a WHERE
    clause is a decidable predicate on a row. *)
Section tables.
Context {K V : Type} `{Countable K}.
Implicit Types t : gmap K V.

Section where_clause.
Context (P : K → V → Prop) `{!∀ k v, Decision (P k v)}.

    (** [UPDATE t SET f WHERE P] *)
Definition update_where (f : V → V) (t : gmap K V) : gmap K V :=
      map_imap (λ k v, Some (if decide (P k v) then f v else v)) t.
    (** [DELETE FROM t WHERE P] *)
Definition delete_where (t : gmap K V) : gmap K V :=
      filter (λ kv, ¬ P kv.1 kv.2) t.
    (** [SELECT * FROM t WHERE P], in no particular order *)
Definition select_where (t : gmap K V) : list (K * V) :=
      filter (λ kv, P kv.1 kv.2) (map_to_list t).
    (** [SELECT COUNT( * ) FROM t WHERE P], and the [rowcount] of an UPDATE or
        DELETE with that WHERE clause *)
Definition count_where (t : gmap K V) : Z := Z.of_nat (length (select_where t)).

Lemma lookup_update_where f t k :
      update_where f t !! k = (λ v, if decide (P k v) then f v else v) <$> t !! k.
    Proof. unfold update_where. rewrite map_lookup_imap. by destruct (t !! k). Qed.

Lemma lookup_update_where_Some f t k v' :
      update_where f t !! k = Some v' ↔
      ∃ v, t !! k = Some v ∧ v' = (if decide (P k v) then f v else v).
    Proof. rewrite lookup_update_where, fmap_Some. naive_solver. Qed.

Lemma lookup_delete_where_Some t k v :
      delete_where t !! k = Some v ↔ t !! k = Some v ∧ ¬ P k v.
    Proof. unfold delete_where. by rewrite map_lookup_filter_Some. Qed.

Lemma elem_of_select_where t k v :
      (k, v) ∈ select_where t ↔ t !! k = Some v ∧ P k v.
    Proof.
      unfold select_where.
      rewrite list_elem_of_filter, elem_of_map_to_list. simpl. tauto.
    Qed.

Lemma NoDup_select_where t : NoDup (select_where t).*1.
    Proof.
      unfold select_where. pose proof (NoDup_fst_map_to_list t) as Hnd.
      induction (map_to_list t) as [|[k v] l IH]; [constructor|].
      simpl in Hnd. apply NoDup_cons in Hnd as [Hk Hnd].
      rewrite filter_cons. case_decide; [|by apply IH].
      simpl. constructor; [|by apply IH].
      intros ([k' v'] & -> & Hin)%list_elem_of_fmap.
      apply list_elem_of_filter in Hin as [_ Hin].
      apply Hk, list_elem_of_fmap. by exists (k', v').
    Qed.

Lemma count_where_nonneg t : 0 ≤ count_where t.
    Proof. unfold count_where. lia. Qed.

Lemma count_where_zero t :
      count_where t = 0 ↔ ∀ k v, t !! k = Some v → ¬ P k v.
    Proof.
      unfold count_where. split.
      - intros Hz k v Hk HP.
        assert ((k, v) ∈ select_where t) as Hin by (by apply elem_of_select_where).
        destruct (select_where t); [by apply elem_of_nil in Hin|simpl in Hz; lia].
      - intros Hno. destruct (select_where t) as [|[k v] l] eqn:E; [done|].
        assert ((k, v) ∈ select_where t) as Hin by (rewrite E; by left).
        apply elem_of_select_where in Hin as [Hk HP]. by destruct (Hno k v Hk).
    Qed.

Lemma count_where_pos t : count_where t ≠ 0 → ∃ k v, t !! k = Some v ∧ P k v.
Proof.
  unfold count_where. destruct (select_where t) as [|[k v] l] eqn:E; [done|]. intros _.
  exists k, v. apply elem_of_select_where. rewrite E. by left.
Qed.
End where_clause.

  (** [INSERT ... ON CONFLICT(k) DO UPDATE SET merge] *)
Definition upsert (k : K) (new : V) (merge : V → V) (t : gmap K V) : gmap K V :=
    <[k := match t !! k with Some old => merge old | None => new end]> t.

  (** [SELECT COALESCE(MAX(f), d) FROM t WHERE P] for columns above [d] *)
Definition max_where (P : K → V → Prop) `{!∀ k v, Decision (P k v)}
      (f : V → Z) (d : Z) (t : gmap K V) : Z :=
    foldr (λ kv m, Z.max (f kv.2) m) d (select_where P t).

Lemma lookup_upsert_eq k new merge t :
    upsert k new merge t !! k =
      Some (match t !! k with Some old => merge old | None => new end).
  Proof. apply lookup_insert_eq. Qed.
Lemma lookup_upsert_ne k k' new merge t :
    k ≠ k' → upsert k new merge t !! k' = t !! k'.
  Proof. apply lookup_insert_ne. Qed.

Lemma max_where_ge P `{!∀ k v, Decision (P k v)} f d t k v :
    t !! k = Some v → P k v → f v ≤ max_where P f d t.
  Proof.
    intros Hk HP. assert ((k, v) ∈ select_where P t) as Hin
      by (by apply elem_of_select_where).
    unfold max_where. induction (select_where P t) as [|kv l IH]; simpl.
    - by apply elem_of_nil in Hin.
    - apply elem_of_cons in Hin as [<-|Hin]; simpl; [lia|]. specialize (IH Hin). lia.
  Qed.
Lemma max_where_ge_default P `{!∀ k v, Decision (P k v)} f d t :
    d ≤ max_where P f d t.
  Proof. unfold max_where. induction (select_where P t); simpl; lia. Qed.
Lemma max_where_le P `{!∀ k v, Decision (P k v)} f d t m :
    d ≤ m → (∀ k v, t !! k = Some v → P k v → f v ≤ m) → max_where P f d t ≤ m.
  Proof.
    intros Hd Hm. unfold max_where.
    assert (∀ kv, kv ∈ select_where P t → f kv.2 ≤ m) as Hall.
    { intros [k v] [Hk HP]%elem_of_select_where. by apply (Hm k). }
    induction (select_where P t) as [|kv l IH]; simpl; [done|].
    pose proof (Hall kv (list_elem_of_here _ _)).
    assert (foldr (λ kv m, Z.max (f kv.2) m) d l ≤ m); [|lia].
    apply IH. intros kv' Hin. apply Hall. by right.
  Qed.
End tables.

(** *** Tables that only grow *)

(** Every row of [t] is still in [t'] and made progress. *)
Definition table_progress {K V} `{Countable K} (P : relation V) (t t' : gmap K V) : Prop :=
  ∀ k v, t !! k = Some v → ∃ v', t' !! k = Some v' ∧ P v v'.

#[global] Instance table_progress_preorder {K V} `{Countable K} (P : relation V) `{!PreOrder P} :
  PreOrder (table_progress (K:=K) P).
Proof.
  split; [intros t k v Hk; exists v; split; [done|reflexivity]|].
  intros t1 t2 t3 H12 H23 k v Hk. destruct (H12 k v Hk) as (v2 & Hk2 & P12).
  destruct (H23 k v2 Hk2) as (v3 & Hk3 & P23). exists v3. split; [done|by etrans].
Qed.
Lemma table_progress_upsert {K V} `{Countable K} (P : relation V) `{!PreOrder P} k new merge
    (t : gmap K V) : (∀ v, P v (merge v)) → table_progress P t (upsert k new merge t).
Proof.
  intros Hm k' v Hk'. destruct (decide (k = k')) as [->|Hne].
  - rewrite lookup_upsert_eq, Hk'. eauto.
  - rewrite lookup_upsert_ne by done. exists v. split; [done|reflexivity].
Qed.
Lemma table_progress_alter {K V} `{Countable K} (P : relation V) `{!PreOrder P} k f
    (t : gmap K V) : (∀ v, P v (f v)) → table_progress P t (alter f k t).
Proof.
  intros Hf k' v Hk'. rewrite lookup_alter. case_decide; subst.
  - rewrite Hk'. simpl. eauto.
  - exists v. split; [done|reflexivity].
Qed.
Lemma table_progress_insert_new {K V} `{Countable K} (P : relation V) `{!PreOrder P} k v
    (t : gmap K V) : t !! k = None → table_progress P t (<[k := v]> t).
Proof.
  intros Hn k' v' Hk'. exists v'. split; [|reflexivity].
  rewrite lookup_insert_ne by congruence. done.
Qed.

Lemma table_progress_update_where {K V} `{Countable K} (P : relation V) `{!PreOrder P}
    (Q : K → V → Prop) `{!∀ k v, Decision (Q k v)} f (t : gmap K V) :
  (∀ k v, Q k v → P v (f v)) → table_progress P t (update_where Q f t).
Proof.
  intros Hf k v Hk. rewrite lookup_update_where, Hk. simpl.
  eexists. split; [done|]. case_decide; [eauto|reflexivity].
Qed.

(** Inserting a row changes a count by that row. *)
Lemma count_where_insert {K V} `{Countable K} (P : K → V → Prop) `{!∀ k v, Decision (P k v)}
    k v (t : gmap K V) :
  count_where P (<[k := v]> t) +
    match t !! k with Some old => if decide (P k old) then 1 else 0 | None => 0 end =
  count_where P t + if decide (P k v) then 1 else 0.
Proof.
  assert (∀ (u : gmap K V) w, u !! k = None →
    count_where P (<[k := w]> u) = count_where P u + if decide (P k w) then 1 else 0) as Hnew.
  { intros u w Hu. unfold count_where, select_where.
    rewrite (map_to_list_insert u k w Hu), filter_cons. simpl. case_decide; simpl; lia. }
  destruct (t !! k) as [old|] eqn:Hk; [|rewrite Hnew by done; lia].
  rewrite <- (insert_delete_id t k old Hk) at 2. rewrite <- insert_delete_eq.
  rewrite !Hnew by apply lookup_delete_eq. lia.
Qed.

(** WHERE clauses that select at most one row *)
Section keyed.
Context {K V : Type} `{Countable K} (P : K → V → Prop) `{!∀ k v, Decision (P k v)}.
Context (k0 : K) (t : gmap K V) (HP : ∀ k v, t !! k = Some v → P k v → k = k0).

Lemma count_where_key :
  count_where P t =
    match t !! k0 with Some v => if decide (P k0 v) then 1 else 0 | None => 0 end.
Proof using HP.
  destruct (t !! k0) as [v|] eqn:Hk; [case_decide as HPv|].
  - unfold count_where. pose proof (NoDup_select_where P t) as Hnd.
    assert ((k0, v) ∈ select_where P t) as Hin by (by apply elem_of_select_where).
    destruct (select_where P t) as [|[k1 v1] [|[k2 v2] l]] eqn:E; [by apply elem_of_nil in Hin|done|].
    assert ((k1, v1) ∈ select_where P t ∧ (k2, v2) ∈ select_where P t) as [H1 H2].
    { rewrite E. set_solver. }
    apply elem_of_select_where in H1 as [Hl1 H1], H2 as [Hl2 H2].
    rewrite (HP _ _ Hl1 H1), (HP _ _ Hl2 H2) in Hnd. simpl in Hnd.
    apply NoDup_cons in Hnd as [Hn _]. set_solver.
  - apply count_where_zero. intros k v' Hk' HP'. pose proof (HP _ _ Hk' HP') as ->. congruence.
  - apply count_where_zero. intros k v' Hk' HP'. pose proof (HP _ _ Hk' HP') as ->. congruence.
Qed.

Lemma update_where_key f :
  update_where P f t =
    match t !! k0 with
    | Some v => if decide (P k0 v) then <[k0 := f v]> t else t
    | None => t
    end.
Proof using HP.
  apply map_eq. intros k. rewrite lookup_update_where.
  assert (∀ v, t !! k = Some v → k ≠ k0 → ¬ P k v) as Hno
    by (intros v Hv Hne HPv; by apply Hne, (HP _ v)).
  destruct (decide (k = k0)) as [->|Hne].
  - destruct (t !! k0) as [v|] eqn:Hk0; simpl; [|by rewrite Hk0].
    case_decide; [by rewrite lookup_insert_eq|by rewrite Hk0].
  - assert ((λ v, if decide (P k v) then f v else v) <$> t !! k = t !! k) as ->.
    { destruct (t !! k) as [v|]; simpl; [|done]. by rewrite decide_False by auto. }
    destruct (t !! k0); [case_decide|]; by rewrite ?lookup_insert_ne.
Qed.
End keyed.

(** *** ORDER BY *)

(** Lexicographic order on the list of (integer) sort keys of a row. *)
Fixpoint zlex (a b : list Z) : bool :=
  match a, b with
  | [], _ => true
  | _ :: _, [] => false
  | x :: a', y :: b' => (x <? y) || ((x =? y) && zlex a' b')
  end.

Lemma zlex_total a b : zlex a b = true ∨ zlex b a = true.
Proof.
  revert b. induction a as [|x a IH]; intros [|y b]; simpl; auto.
  destruct (Z.lt_trichotomy x y) as [?|[->|?]].
  - left. by rewrite (proj2 (Z.ltb_lt x y)).
  - rewrite Z.ltb_irrefl, Z.eqb_refl. simpl. apply IH.
  - right. by rewrite (proj2 (Z.ltb_lt y x)).
Qed.

Lemma zlex_trans a b c : zlex a b = true → zlex b c = true → zlex a c = true.
Proof.
  revert b c. induction a as [|x a IH]; intros [|y b] [|z c]; simpl; try done.
  rewrite !orb_true_iff, !andb_true_iff, !Z.ltb_lt, !Z.eqb_eq.
  intros [?|[-> Hab]] [?|[-> Hbc]]; [left; lia..|]. right. eauto.
Qed.

Lemma zlex_antisymm a b : zlex a b = true → zlex b a = true → a = b.
Proof.
  revert b. induction a as [|x a IH]; intros [|y b]; simpl; try done.
  rewrite !orb_true_iff, !andb_true_iff, !Z.ltb_lt, !Z.eqb_eq.
  intros [?|[-> Hab]] [?|[? Hba]]; try lia. f_equal. eauto.
Qed.

Section order_by.
Context {A : Type} (key : A → list Z).
Definition key_le (a b : A) : Prop := zlex (key a) (key b) = true.
#[global] Instance key_le_dec : RelDecision key_le.
  Proof. intros a b. unfold key_le. apply _. Defined.
#[global] Instance key_le_total : Total key_le.
  Proof. intros a b. apply zlex_total. Qed.
#[global] Instance key_le_trans : Transitive key_le.
  Proof. intros a b c. apply zlex_trans. Qed.

  (** [ORDER BY key]; the order of rows with equal keys is SQLite's choice and
      no theorem depends on it. *)
Definition order_by (l : list A) : list A := merge_sort key_le l.

Lemma order_by_Permutation l : order_by l ≡ₚ l.
  Proof. apply merge_sort_Permutation. Qed.
Lemma order_by_sorted l : StronglySorted key_le (order_by l).
  Proof. apply StronglySorted_merge_sort; apply _. Qed.
Lemma elem_of_order_by l x : x ∈ order_by l ↔ x ∈ l.
  Proof. by rewrite order_by_Permutation. Qed.
End order_by.

Lemma StronglySorted_take {A} (R : relation A) n l :
  StronglySorted R l → StronglySorted R (take n l).
Proof.
  intros Hs. revert n. induction Hs as [|x l Hs IH Hall]; intros [|n]; simpl; constructor.
  - apply IH.
  - by apply Forall_take.
Qed.

Lemma elem_of_take_elem {A} n (l : list A) x : x ∈ take n l → x ∈ l.
Proof. intros Hx. rewrite <- (take_drop n l). apply elem_of_app. by left. Qed.

Lemma NoDup_take_order {A B} (f : A → B) key n l :
  NoDup (f <$> l) → NoDup (f <$> take n (order_by key l)).
Proof.
  intros Hnd. rewrite <- (order_by_Permutation key l) in Hnd.
  rewrite <- (take_drop n (order_by key l)), fmap_app in Hnd.
  by apply NoDup_app in Hnd as [? _].
Qed.

Lemma elem_of_take_order {A} (R : relation A) n l x y :
  StronglySorted R l → x ∈ take n l → y ∈ l → y ∉ take n l → R x y.
Proof.
  intros Hs Hx Hy Hn. rewrite <- (take_drop n l) in Hs, Hy.
  apply elem_of_app in Hy as [Hy|Hy]; [done|].
  revert Hs Hx Hy. generalize (take n l), (drop n l). clear.
  intros l1 l2 Hs Hx Hy. induction l1 as [|z l1 IH]; [by apply elem_of_nil in Hx|].
  inversion Hs as [|? ? Hs' Hall]; subst.
  apply elem_of_cons in Hx as [->|Hx]; [|by apply IH].
  rewrite Forall_forall in Hall. apply Hall, elem_of_app. by right.
Qed.

(** ** Programs that only move along a preorder *)

(** [steps R m]: whatever [m] does, and however it ends, the state it leaves is
    [R]-above the state it started from.  With [R s s' := I s → I s'] this is the
    preservation of an invariant. *)
Definition steps {S A} (R : relation S) (m : ST S A) : Prop :=
  ∀ s, wp m (λ _ s', R s s') s.

Section steps_rules.
Context {S : Type} (R : relation S) `{!PreOrder R}.

Lemma steps_pure {A} (m : ST S A) : (∀ s, (m s).2 = s) → steps R m.
Proof. intros Hm s. unfold wp. by rewrite Hm. Qed.
Lemma steps_ret {A} (a : A) : steps R (mret a).
Proof. by apply steps_pure. Qed.
Lemma steps_throw {A} (e : exn) : steps R (mthrow e : ST S A).
Proof. by apply steps_pure. Qed.
Lemma steps_lift {A} (r : res A) : steps R (lift r).
Proof. by apply steps_pure. Qed.
Lemma steps_gets {A} (f : S → A) : steps R (gets f).
Proof. by apply steps_pure. Qed.
Lemma steps_modify f : (∀ s, R s (f s)) → steps R (modify f).
Proof. intros Hf s. apply Hf. Qed.
Lemma steps_bind {A B} (m : ST S A) (f : A → ST S B) :
  steps R m → (∀ a, steps R (f a)) → steps R (m ≫= f).
Proof.
  intros Hm Hf s. apply wp_bind. eapply wp_mono; [apply Hm|].
  intros [a|e] s' Hs; [|done]. eapply wp_mono; [apply Hf|]. intros r s''. by etrans.
Qed.
Lemma steps_bind_lift {A B} (r : res A) (f : A → ST S B) :
  (∀ a, r = Ok a → steps R (f a)) → steps R (lift r ≫= f).
Proof. intros Hf s. apply wp_bind. destruct r as [a|e]; [by apply Hf|]. by wp_step. Qed.
Lemma steps_bind_gets {A B} (g : S → A) (f : A → ST S B) :
  (∀ s, steps R (f (g s))) → steps R (gets g ≫= f).
Proof. intros Hf s. apply wp_bind, wp_gets. apply Hf. Qed.
Lemma steps_transaction {A} (m : ST S A) : steps R m → steps R (transaction m).
Proof.
  intros Hm s. apply wp_transaction. eapply wp_mono; [apply Hm|]. by intros [a|e] s' Hs.
Qed.
Lemma steps_on_integrity_error {A} e (m : ST S A) : steps R m → steps R (on_integrity_error e m).
Proof.
  intros Hm s. apply wp_on_integrity_error. eapply wp_mono; [apply Hm|]. by intros [a|[]] s' Hs.
Qed.
Lemma steps_for_each {A} (body : A → ST S unit) xs :
  (∀ x, steps R (body x)) → steps R (for_each body xs).
Proof.
  intros Hb. induction xs as [|x xs IH]; simpl; [apply steps_ret|].
  apply steps_bind; [apply Hb|]. done.
Qed.
End steps_rules.

(** A part of the state that the program leaves alone. *)
Definition keeps {S B} (f : S → B) : relation S := λ s s', f s' = f s.
#[global] Instance keeps_preorder {S B} (f : S → B) : PreOrder (keeps f).
Proof. split; [done|]. intros a b c Hab Hbc. unfold keeps in *. congruence. Qed.
(** An invariant that the program preserves. *)
Definition preserves {S} (I : S → Prop) : relation S := λ s s', I s → I s'.
#[global] Instance preserves_preorder {S} (I : S → Prop) : PreOrder (preserves I).
Proof. split; [by intros ? ?|]. intros a b c Hab Hbc Ha. by apply Hbc, Hab. Qed.
Lemma steps_and {S A} (R R' : relation S) (m : ST S A) s :
  steps R m → steps R' m → wp m (λ _ s', R s s' ∧ R' s s') s.
Proof. intros Hm Hm'. split; [apply Hm|apply Hm']. Qed.

Create HintDb steps.
#[export] Hint Resolve steps_ret steps_throw steps_lift steps_gets steps_bind
  steps_transaction steps_on_integrity_error steps_for_each : steps.

(** Splits a program into its statements; the goals left are the updates. *)
Ltac steps_step :=
  lazymatch goal with
  | |- steps _ (mbind _ (lift (raise_if _ _))) =>
      apply steps_bind_lift; [apply _|intros ? ?%raise_if_ok]
  | |- steps _ (mbind _ (gets _)) => apply steps_bind_gets; intros ?
  | |- steps _ (mbind _ (lift _)) => apply steps_bind_lift; [apply _|intros ? ?]
  | |- steps _ (mbind _ _) => apply steps_bind; [apply _| |intros ?]
  | |- steps _ (mret _) => apply steps_ret; apply _
  | |- steps _ (mthrow _) => apply steps_throw; apply _
  | |- steps _ (lift _) => apply steps_lift; apply _
  | |- steps _ (gets _) => apply steps_gets; apply _
  | |- steps _ (transaction _) => apply steps_transaction; [apply _|]
  | |- steps _ (on_integrity_error _ _) => apply steps_on_integrity_error
  | |- steps _ (for_each _ _) => apply steps_for_each; [apply _|intros ?]
  | |- steps _ (if decide ?P then _ else _) => destruct (decide P)
  | |- steps _ (match ?x with _ => _ end) => destruct x
  | |- steps _ (match ?x with _ => _ end _) => destruct x
  end; cbv beta iota.
Ltac steps_all := repeat steps_step.

(** Reachability: an invariant or a preorder of every step holds along any run. *)
Lemma rtc_preorder {S} (step R : relation S) `{!PreOrder R} s s' :
  (∀ x y, step x y → R x y) → rtc step s s' → R s s'.
Proof. intros Hstep. induction 1 as [|x y z Hxy _ IH]; [done|]. etrans; eauto. Qed.
