(* ===== verification/PyStr.v ===== *)
(** Python [str] and [bytes] operations used by the source, on Standard Library
    strings read as sequences of code points 0-255.  On that range [is_space],
    [lower_char] and [printable] are the tables of Python's [str.isspace],
    [str.lower] and [str.isprintable].  [bytes] are strings too. *)
From Stdlib Require Import DecimalString.
From S2P Require Import Prelude.

Abbreviation bytes := string (only parsing).

Definition code (a : ascii) : Z := Z.of_N (N_of_ascii a).
Definition in_range (lo hi : Z) (a : ascii) : bool := (lo <=? code a) && (code a <=? hi).

Definition is_space (a : ascii) : bool :=
  in_range 9 13 a || in_range 28 32 a || (code a =? 133) || (code a =? 160).
Definition lower_char (a : ascii) : ascii :=
  if in_range 65 90 a || in_range 192 214 a || in_range 216 222 a
  then ascii_of_N (N_of_ascii a + 32) else a.

Definition is_digit : ascii → bool := in_range 48 57.
Definition is_lower_az : ascii → bool := in_range 97 122.
Definition is_upper_az : ascii → bool := in_range 65 90.
(** [[0-9a-f]] *)
Definition is_hex_lower (a : ascii) : bool := is_digit a || in_range 97 102 a.
(** [[A-Za-z0-9]] *)
Definition is_alnum (a : ascii) : bool := is_lower_az a || is_upper_az a || is_digit a.
(** [[<chars>]] for listed characters *)
Fixpoint one_of (chars : string) (a : ascii) : bool :=
  match chars with
  | EmptyString => false
  | String c rest => Ascii.eqb a c || one_of rest a
  end.

Fixpoint str_forall (f : ascii → bool) (s : string) : bool :=
  match s with
  | EmptyString => true
  | String a s' => f a && str_forall f s'
  end.

Fixpoint str_map (f : ascii → ascii) (s : string) : string :=
  match s with
  | EmptyString => EmptyString
  | String a s' => String (f a) (str_map f s')
  end.

Definition len (s : string) : Z := Z.of_nat (String.length s).
(** [s[:n]] for [n >= 0] *)
Definition slice (n : nat) (s : string) : string := substring 0 n s.
Definition startswith (p s : string) : bool := String.prefix p s.

Fixpoint lstrip (s : string) : string :=
  match s with
  | EmptyString => EmptyString
  | String a s' => if is_space a then lstrip s' else s
  end.
Fixpoint rstrip (s : string) : string :=
  match s with
  | EmptyString => EmptyString
  | String a s' =>
      match rstrip s' with
      | EmptyString => if is_space a then EmptyString else String a EmptyString
      | r => String a r
      end
  end.
(** [s.strip()] and [s.lower()] *)
Definition strip (s : string) : string := rstrip (lstrip s).
Definition lower (s : string) : string := str_map lower_char s.

(** [fullmatch] of [first rest{lo,hi}] for two character classes. *)
Definition fullmatch (first rest : ascii → bool) (lo hi : nat) (s : string) : bool :=
  match s with
  | EmptyString => false
  | String a s' =>
      first a && str_forall rest s' &&
      (lo <=? String.length s')%nat && (String.length s' <=? hi)%nat
  end.
(** [fullmatch] of [[0-9a-f]{n}] *)
Definition fullmatch_hex (n : nat) (s : string) : bool :=
  (String.length s =? n)%nat && str_forall is_hex_lower s.

(** [re.match] of an anchored pattern ending in [$], which also accepts one
    newline before the end. *)
Definition match_dollar (p : string → bool) (s : string) : bool :=
  p s || match String.length s with
         | O => false
         | S n => String.eqb (substring n 1 s) (String (ascii_of_N 10) EmptyString)
                  && p (substring 0 n s)
         end.

Definition endswith (p s : string) : bool :=
  (String.length p <=? String.length s)%nat &&
  String.eqb (substring (String.length s - String.length p) (String.length p) s) p.

Fixpoint join (sep : string) (l : list string) : string :=
  match l with
  | [] => EmptyString
  | [s] => s
  | s :: l' => s +:+ sep +:+ join sep l'
  end.

(** *** Order of strings: by code points *)

Definition codes (s : string) : list Z := code <$> list_ascii_of_string s.
Lemma codes_inj s t : codes s = codes t → s = t.
Proof.
  assert (Inj (=) (=) code) as Hinj.
  { intros a b Hab. unfold code in Hab. rewrite <- (ascii_N_embedding a), <- (ascii_N_embedding b).
    f_equal. lia. }
  unfold codes. intros H%(inj _).
  by rewrite <- (string_of_list_ascii_of_string s), H, string_of_list_ascii_of_string.
Qed.
(** [sorted(l)] of strings *)
Definition sorted (l : list string) : list string := order_by codes l.
Lemma elem_of_sorted l x : x ∈ sorted l ↔ x ∈ l.
Proof. apply elem_of_order_by. Qed.
Lemma sorted_idemp l : sorted (sorted l) = sorted l.
Proof.
  apply (StronglySorted_unique_strong (key_le codes));
    [|apply order_by_sorted..|apply order_by_Permutation].
  intros a b _ _ Hab Hba. by apply codes_inj, zlex_antisymm.
Qed.

(** ** [repr] and [int] *)

Definition hex_digit (n : N) : ascii :=
  ascii_of_N (if (n <? 10)%N then 48 + n else 87 + n).
Definition hex_byte (a : ascii) : string :=
  String (hex_digit (N_of_ascii a / 16)) (String (hex_digit (N_of_ascii a mod 16)) EmptyString).
(** [raw.hex()] *)
Fixpoint hex (s : bytes) : string :=
  match s with EmptyString => EmptyString | String a s' => hex_byte a +:+ hex s' end.

Definition printable (a : ascii) : bool :=
  negb ((code a <? 32) || in_range 127 160 a || (code a =? 173)).
Definition byte_printable (a : ascii) : bool := in_range 32 126 a.

Definition quote_for (s : string) : ascii :=
  if negb (str_forall (λ a, negb (code a =? 39)) s) &&
     str_forall (λ a, negb (code a =? 34)) s
  then ascii_of_N 34 else ascii_of_N 39.

Fixpoint escape (ok : ascii → bool) (quote : ascii) (s : string) : string :=
  match s with
  | EmptyString => EmptyString
  | String a s' =>
      (if Ascii.eqb a quote || (code a =? 92) then String (ascii_of_N 92) (String a EmptyString)
       else if code a =? 9 then "\t"
       else if code a =? 10 then "\n"
       else if code a =? 13 then "\r"
       else if ok a then String a EmptyString
       else "\x" +:+ hex_byte a) +:+ escape ok quote s'
  end.
Definition quoted (ok : ascii → bool) (s : string) : string :=
  let q := quote_for s in
  String q (escape ok q s) +:+ String q EmptyString.
(** [repr(s)] and [repr(b)] *)
Definition repr_str (s : string) : string := quoted printable s.
Definition repr_bytes (b : bytes) : string := "b" +:+ quoted byte_printable b.

(** [str(n)] *)
Definition str_of_Z (n : Z) : string := NilZero.string_of_int (Z.to_int n).

(** The digits of [int(s)]: single underscores may separate digits, and more
    than 4300 digits are refused. [after_digit] tells whether an underscore or
    the end may come next. *)
Fixpoint int_digits (after_digit : bool) (count acc : Z) (s : string) : option Z :=
  match s with
  | EmptyString => if after_digit && (count <=? 4300) then Some acc else None
  | String a s' =>
      if is_digit a then int_digits true (count + 1) (10 * acc + (code a - 48)) s'
      else if (code a =? 95) && after_digit then int_digits false count acc s'
      else None
  end.
(** [int(s)] for a string, [None] for its ValueError *)
Definition int_of_str (s : string) : option Z :=
  match strip s with
  | EmptyString => None
  | String a s' =>
      if code a =? 45 then Z.opp <$> int_digits false 0 0 s'
      else if code a =? 43 then int_digits false 0 0 s'
      else int_digits false 0 0 (String a s')
  end.

(** ** Lemmas *)

Lemma str_forall_impl f g s :
  (∀ a, f a = true → g a = true) → str_forall f s = true → str_forall g s = true.
Proof.
  intros Hfg. induction s as [|a s IH]; simpl; [done|].
  rewrite !andb_true_iff. naive_solver.
Qed.

Lemma rstrip_nonspace s :
  str_forall (λ a, negb (is_space a)) s = true → rstrip s = s.
Proof.
  induction s as [|a s IH]; simpl; [done|].
  rewrite andb_true_iff, negb_true_iff. intros [Ha Hs]. rewrite (IH Hs), Ha. by destruct s.
Qed.

Lemma strip_nonspace s :
  str_forall (λ a, negb (is_space a)) s = true → strip s = s.
Proof.
  intros Hs. unfold strip. rewrite <- (rstrip_nonspace s Hs) at 2. f_equal.
  destruct s as [|a s]; [done|]. simpl in *.
  apply andb_true_iff in Hs as [Ha%negb_true_iff _]. by rewrite Ha.
Qed.

Lemma str_map_id f s : str_forall (λ a, Ascii.eqb (f a) a) s = true → str_map f s = s.
Proof.
  induction s as [|a s IH]; simpl; [done|].
  rewrite andb_true_iff, Ascii.eqb_eq. intros [-> Hs]. by rewrite IH.
Qed.

(** Characters that [strip().lower()] leaves alone. *)
Definition stable_char (a : ascii) : bool := negb (is_space a) && Ascii.eqb (lower_char a) a.

Lemma strip_stable s : str_forall stable_char s = true → strip s = s.
Proof.
  intros Hs. apply strip_nonspace. revert Hs. apply str_forall_impl.
  intros a. unfold stable_char. rewrite andb_true_iff. tauto.
Qed.
Lemma lower_stable s : str_forall stable_char s = true → lower s = s.
Proof.
  intros Hs. apply str_map_id. revert Hs. apply str_forall_impl.
  intros a. unfold stable_char. rewrite andb_true_iff. tauto.
Qed.

(** A decidable statement about all 256 characters. *)
Definition all_chars (f : ascii → bool) : bool :=
  forallb (λ n, f (ascii_of_nat n)) (seq 0 256).
Lemma all_chars_sound f : all_chars f = true → ∀ a, f a = true.
Proof.
  unfold all_chars. rewrite forallb_forall. intros Hall a.
  rewrite <- (ascii_nat_embedding a). apply Hall, in_seq.
  pose proof (nat_ascii_bounded a). lia.
Qed.

Lemma hex_lower_stable a : is_hex_lower a = true → stable_char a = true.
Proof.
  apply implb_true_iff.
  exact (all_chars_sound (λ a, implb (is_hex_lower a) (stable_char a)) eq_refl a).
Qed.

Lemma fullmatch_hex_stable n s : fullmatch_hex n s = true → str_forall stable_char s = true.
Proof.
  unfold fullmatch_hex. rewrite andb_true_iff. intros [_ Hs].
  revert Hs. apply str_forall_impl, hex_lower_stable.
Qed.

Lemma fullmatch_hex_nonempty n s : fullmatch_hex (S n) s = true → s ≠ "".
Proof. by intros H ->. Qed.

(** *** Normal forms: [strip] and [lower] are idempotent *)

Lemma lstrip_head s : lstrip s = "" ∨ ∃ a s', lstrip s = String a s' ∧ is_space a = false.
Proof.
  induction s as [|a s IH]; simpl; [by left|].
  destruct (is_space a) eqn:Ha; [done|]. right. eauto.
Qed.
Lemma rstrip_cons a s : is_space a = false → rstrip (String a s) = String a (rstrip s).
Proof. intros Ha. simpl. rewrite Ha. by destruct (rstrip s). Qed.
Lemma rstrip_idemp s : rstrip (rstrip s) = rstrip s.
Proof.
  induction s as [|a s IH]; [done|]. simpl.
  destruct (rstrip s) as [|b r] eqn:E.
  - destruct (is_space a) eqn:Ha; [done|]. simpl. by rewrite Ha.
  - change (rstrip (String a (String b r))) with
      (match rstrip (String b r) with
       | EmptyString => if is_space a then EmptyString else String a EmptyString
       | x => String a x end). by rewrite IH.
Qed.
Lemma strip_idemp s : strip (strip s) = strip s.
Proof.
  unfold strip. destruct (lstrip_head s) as [->|(a & s' & -> & Ha)]; [done|].
  rewrite rstrip_cons by done. cbn [lstrip]. rewrite Ha, rstrip_cons by done.
  by rewrite rstrip_idemp.
Qed.

Lemma lower_char_idemp a : lower_char (lower_char a) = lower_char a.
Proof.
  apply Ascii.eqb_eq, (all_chars_sound
    (λ a, Ascii.eqb (lower_char (lower_char a)) (lower_char a))). by vm_compute.
Qed.
Lemma lower_idemp s : lower (lower s) = lower s.
Proof. unfold lower. induction s as [|a s IH]; simpl; [done|]. by rewrite lower_char_idemp, IH. Qed.
Lemma is_space_lower a : is_space (lower_char a) = is_space a.
Proof.
  apply eqb_prop, (all_chars_sound (λ a, eqb (is_space (lower_char a)) (is_space a))).
  by vm_compute.
Qed.
Lemma lstrip_lower s : lstrip (lower s) = lower (lstrip s).
Proof.
  unfold lower. induction s as [|a s IH]; simpl; [done|]. rewrite is_space_lower.
  by destruct (is_space a).
Qed.
Lemma rstrip_lower s : rstrip (lower s) = lower (rstrip s).
Proof.
  unfold lower. induction s as [|a s IH]; simpl; [done|]. rewrite IH, is_space_lower.
  destruct (rstrip s); [by destruct (is_space a)|done].
Qed.
(** [str(x).strip().lower()] is a normal form. *)
Lemma lower_strip_idemp s : lower (strip (lower (strip s))) = lower (strip s).
Proof.
  unfold strip. rewrite lstrip_lower, rstrip_lower. fold (strip s).
  change (rstrip (lstrip (strip s))) with (strip (strip s)). by rewrite strip_idemp, lower_idemp.
Qed.

Lemma substring_all s : substring 0 (String.length s) s = s.
Proof. induction s as [|a s IH]; simpl; [done|]. by rewrite IH. Qed.
Lemma substring_split n s :
  (n ≤ String.length s)%nat →
  substring 0 n s +:+ substring n (String.length s - n) s = s.
Proof.
  revert n. induction s as [|a s IH]; intros [|n] Hn; simpl in *; [done|lia| |].
  - by rewrite substring_all.
  - change (String a (substring 0 n s +:+ substring n (String.length s - n) s) = String a s).
    f_equal. apply IH. lia.
Qed.
Lemma endswith_split p s :
  endswith p s = true → s = substring 0 (String.length s - String.length p) s +:+ p.
Proof.
  unfold endswith. rewrite andb_true_iff, Nat.leb_le, String.eqb_eq. intros [Hle Heq].
  set (k := (String.length s - String.length p)%nat) in *.
  pose proof (substring_split k s ltac:(lia)) as Hsplit.
  replace (String.length s - k)%nat with (String.length p) in Hsplit by lia.
  rewrite Heq in Hsplit. done.
Qed.
Lemma length_append s t : String.length (s +:+ t) = (String.length s + String.length t)%nat.
Proof. induction s as [|a s IH]; simpl; [done|]. by rewrite IH. Qed.
Lemma substring_prefix s t : substring 0 (String.length s) (s +:+ t) = s.
Proof. induction s as [|a s IH]; simpl; [by destruct t|]. by rewrite IH. Qed.
Lemma substring_suffix s t n :
  substring (String.length s) n (s +:+ t) = substring 0 n t.
Proof. induction s as [|a s IH]; simpl; done. Qed.
Lemma endswith_app s p : endswith p (s +:+ p) = true.
Proof.
  unfold endswith. rewrite length_append.
  replace (String.length s + String.length p - String.length p)%nat with (String.length s) by lia.
  rewrite substring_suffix, substring_all, String.eqb_refl, andb_true_r. apply Nat.leb_le. lia.
Qed.
Lemma startswith_spec p s : startswith p s = true ↔ ∃ t, s = p +:+ t.
Proof.
  unfold startswith. split.
  - revert s. induction p as [|a p IH]; intros s; [by exists s|].
    destruct s as [|b s]; simpl; [done|]. destruct (ascii_dec a b) as [->|]; [|done].
    intros [t ->]%IH. by exists t.
  - intros [t ->]. induction p as [|a p IH]; simpl; [by destruct t|].
    by destruct (ascii_dec a a).
Qed.

Create HintDb pystr.
#[export] Hint Resolve fullmatch_hex_stable fullmatch_hex_nonempty : pystr.

(** *** Appending *)

Lemma append_cons a s t : String a s +:+ t = String a (s +:+ t).
Proof. reflexivity. Qed.
Lemma append_nil_l s : "" +:+ s = s.
Proof. reflexivity. Qed.
Lemma append_assoc s t u : (s +:+ t) +:+ u = s +:+ t +:+ u.
Proof. induction s as [|a s IH]; [done|]. by rewrite !append_cons, IH. Qed.
Lemma str_forall_app f s t : str_forall f (s +:+ t) = str_forall f s && str_forall f t.
Proof.
  induction s as [|a s IH]; [done|]. change (String a s +:+ t) with (String a (s +:+ t)).
  simpl. by rewrite IH, andb_assoc.
Qed.
Lemma substring_ge s n : (String.length s ≤ n)%nat → substring 0 n s = s.
Proof.
  revert n. induction s as [|a s IH]; intros [|n] Hn; try done; simpl in *; [lia|].
  f_equal. apply IH. lia.
Qed.
Lemma startswith_app s t : startswith s (s +:+ t) = true.
Proof. apply startswith_spec. by exists t. Qed.
