(* ===== verification/PyVal.v ===== *)
(** Python values that cross the wire (what [msgpack.unpackb] returns), the
    built-in conversions the source applies to them, and [src/anet/encoding.py]:
    canonical form, packing and the wire size limit.

    The msgpack library, the hash functions and the text form of floats are
    parameters (type classes): the source calls them as black boxes. *)
From Stdlib Require Export QArith Qminmax.
From S2P Require Import Prelude PyStr.
Open Scope Z_scope.

(** A float is the rational it denotes; NaN and the infinities are left out. *)
Inductive value :=
  | VNone
  | VBool (b : bool)
  | VInt (z : Z)
  | VFloat (q : Q)
  | VStr (s : string)
  | VBytes (b : bytes)
  | VList (l : list value)
  | VMap (kvs : list (value * value)).

Abbreviation dict := (list (value * value)).

(** Text form of floats: the built-in [repr] and [float(str)]. *)
Class PyFloat := {
  float_repr : Q → string;
  float_parse : string → option Q;
}.
(** [msgpack.packb(value, use_bin_type=True)] and [msgpack.unpackb(raw, raw=False)]. *)
Class Msgpack := {
  packb : value → res bytes;
  unpackb : bytes → res value;
}.
(** [hashlib.sha256(raw).hexdigest()] and
    [hashlib.blake2s(raw, digest_size=n, person=p).hexdigest()]. *)
Class Hashing := {
  sha256_hexdigest : bytes → string;
  blake2s_hexdigest : Z → bytes → bytes → string;
}.
Class Platform := {
  #[global] platform_float :: PyFloat;
  #[global] platform_msgpack :: Msgpack;
  #[global] platform_hashing :: Hashing;
}.

Section conversions.
Context {PF : PyFloat}.

  (** [repr(v)] and [str(v)] *)
Fixpoint py_repr (v : value) : string :=
    match v with
    | VNone => "None"
    | VBool b => if b then "True" else "False"
    | VInt z => str_of_Z z
    | VFloat q => float_repr q
    | VStr s => repr_str s
    | VBytes b => repr_bytes b
    | VList l => "[" +:+ join ", " (List.map py_repr l) +:+ "]"
    | VMap kvs =>
        "{" +:+ join ", "
          (List.map (λ kv, match kv with (k, w) => py_repr k +:+ ": " +:+ py_repr w end) kvs)
        +:+ "}"
    end.
Definition py_str (v : value) : string :=
    match v with VStr s => s | _ => py_repr v end.

Definition not_int : exn := TypeError "int() argument must be a string or a number".
Definition bad_int : exn := ValueError "invalid literal for int() with base 10".

  (** [int(v)]; for bytes only ASCII white space is stripped. *)
Definition py_int (v : value) : res Z :=
    match v with
    | VBool b => Ok (Z.b2z b)
    | VInt z => Ok z
    | VFloat q => Ok (Z.quot (Qnum q) (Zpos (Qden q)))
    | VStr s => of_option bad_int (int_of_str s)
    | VBytes b =>
        if str_forall (λ a, negb (is_space a) || in_range 9 13 a || (code a =? 32)) b
        then of_option bad_int (int_of_str b) else Err bad_int
    | _ => Err not_int
    end.

  (** [float(v)] *)
Definition py_float (v : value) : res Q :=
    match v with
    | VBool b => Ok (inject_Z (Z.b2z b))
    | VInt z => Ok (inject_Z z)
    | VFloat q => Ok q
    | VStr s => of_option (ValueError "could not convert string to float") (float_parse s)
    | VBytes b => of_option (ValueError "could not convert string to float") (float_parse b)
    | _ => Err (TypeError "float() argument must be a string or a real number")
    end.

  (** [bool(v)] *)
Definition truthy (v : value) : bool :=
    match v with
    | VNone => false
    | VBool b => b
    | VInt z => negb (z =? 0)
    | VFloat q => negb (Qeq_bool q 0)
    | VStr s => negb (String.eqb s EmptyString)
    | VBytes b => negb (String.eqb b EmptyString)
    | VList l => match l with [] => false | _ => true end
    | VMap kvs => match kvs with [] => false | _ => true end
    end.

Fixpoint byte_of_item (l : list value) : res bytes :=
    match l with
    | [] => Ok EmptyString
    | v :: l' =>
        n ← match v with
            | VInt z => Ok z
            | VBool b => Ok (Z.b2z b)
            | _ => Err (TypeError "object cannot be interpreted as an integer")
            end;
        if (0 <=? n) && (n <=? 255)
        then rest ← byte_of_item l'; mret (String (ascii_of_N (Z.to_N n)) rest)
        else Err (ValueError "bytes must be in range(0, 256)")
    end.

Fixpoint zeros (n : nat) : bytes :=
    match n with O => EmptyString | S n' => String Ascii.zero (zeros n') end.

  (** [bytes(v)]: an integer argument gives that many zero bytes. *)
Definition py_bytes (v : value) : res bytes :=
    match v with
    | VBytes b => Ok b
    | VInt n => if n <? 0 then Err (ValueError "negative count") else Ok (zeros (Z.to_nat n))
    | VBool b => Ok (zeros (Z.to_nat (Z.b2z b)))
    | VList l => byte_of_item l
    | VMap kvs => byte_of_item kvs.*1
    | VStr _ => Err (TypeError "string argument without an encoding")
    | VNone | VFloat _ => Err (TypeError "cannot convert object to bytes")
    end.

  (** [iter(v)] *)
Definition py_iter (v : value) : res (list value) :=
    match v with
    | VList l => Ok l
    | VMap kvs => Ok kvs.*1
    | VStr s => Ok ((λ a, VStr (String a EmptyString)) <$> list_ascii_of_string s)
    | VBytes b => Ok ((λ a, VInt (code a)) <$> list_ascii_of_string b)
    | _ => Err (TypeError "object is not iterable")
    end.

  (** Equality of dictionary keys: [1], [True] and [1.0] are the same key. *)
Definition as_number (v : value) : option Q :=
    match v with
    | VBool b => Some (inject_Z (Z.b2z b))
    | VInt z => Some (inject_Z z)
    | VFloat q => Some q
    | _ => None
    end.
Definition key_eqb (a b : value) : bool :=
    match as_number a, as_number b with
    | Some x, Some y => Qeq_bool x y
    | None, None =>
        match a, b with
        | VNone, VNone => true
        | VStr s, VStr t => String.eqb s t
        | VBytes s, VBytes t => String.eqb s t
        | _, _ => false
        end
    | _, _ => false
    end.

  (** [d[k] = v]: a new key goes to the end. *)
Fixpoint dict_set (d : dict) (k v : value) : dict :=
    match d with
    | [] => [(k, v)]
    | (k', v') :: d' => if key_eqb k k' then (k', v) :: d' else (k', v') :: dict_set d' k v
    end.
  (** [d.get(k, default)] for a string key *)
Fixpoint dict_get_or (default : value) (k : string) (d : dict) : value :=
    match d with
    | [] => default
    | (k', v) :: d' => if key_eqb (VStr k) k' then v else dict_get_or default k d'
    end.
Definition dict_get : string → dict → value := dict_get_or VNone.
  (** [d[k]] for a string key *)
Fixpoint dict_item (k : string) (d : dict) : res value :=
    match d with
    | [] => Err (KeyError k)
    | (k', v) :: d' => if key_eqb (VStr k) k' then Ok v else dict_item k d'
    end.

Lemma dict_item_get k d v dflt : dict_item k d = Ok v → dict_get_or dflt k d = v.
  Proof.
    induction d as [|[k' v'] d IH]; simpl; [discriminate|].
    destruct (key_eqb (VStr k) k'); [congruence|done].
  Qed.

  (** [dict(v)]: a mapping, or an iterable of pairs with hashable keys. *)
Fixpoint dict_of_pairs (acc : dict) (l : list value) : res dict :=
    match l with
    | [] => Ok acc
    | e :: l' =>
        match py_iter e with
        | Ok [VList _; _] | Ok [VMap _; _] => Err (TypeError "unhashable type")
        | Ok [k; v] => dict_of_pairs (dict_set acc k v) l'
        | Ok _ => Err (ValueError "dictionary update sequence element has the wrong length")
        | Err _ => Err (TypeError "cannot convert dictionary update sequence element to a sequence")
        end
    end.
Definition py_dict (v : value) : res dict :=
    match v with
    | VMap kvs => Ok kvs
    | _ => l ← py_iter v; dict_of_pairs [] l
    end.

(** A field of a dictionary literal *)
Definition field (k : string) (v : value) : value * value := (VStr k, v).
(** [str(body.get(k, ""))] *)
Definition get_text (k : string) (body : dict) : string := py_str (dict_get_or (VStr "") k body).
(** [body.get(k) != text] *)
Definition is_text (v : value) (text : string) : bool :=
  match v with VStr s => String.eqb s text | _ => false end.

(** [k in d] for a string key *)
Definition dict_has (k : string) (d : dict) : bool := existsb (λ kv, key_eqb (VStr k) kv.1) d.
(** [d == e] for dictionaries of scalars *)
Definition dict_eqb (d e : dict) : bool :=
  (length d =? length e)%nat &&
  forallb (λ kv, existsb (λ kv', key_eqb kv.1 kv'.1 && key_eqb kv.2 kv'.2) e) d.
(** [v is not a bool and isinstance(v, int)] *)
Definition as_int (v : value) : option Z := match v with VInt z => Some z | _ => None end.
End conversions.

(** ** Dictionaries with string keys *)

Lemma key_eqb_str k v : key_eqb (VStr k) v = true ↔ v = VStr k.
Proof.
  destruct v; try (split; discriminate). cbn [key_eqb as_number].
  rewrite String.eqb_eq. split; congruence.
Qed.
Lemma dict_get_set dflt k k' v d :
  dict_get_or dflt k (dict_set d (VStr k') v) =
    if String.eqb k k' then v else dict_get_or dflt k d.
Proof.
  assert (∀ a b, key_eqb (VStr a) (VStr b) = String.eqb a b) as Hkey by done.
  induction d as [|[x w] d IH]; [by simpl dict_set; cbn [dict_get_or]; rewrite Hkey|].
  cbn [dict_set]. destruct (key_eqb (VStr k') x) eqn:Hx; cbn [dict_get_or].
  - apply key_eqb_str in Hx as ->. rewrite Hkey. by destruct (String.eqb k k').
  - rewrite IH. destruct (key_eqb (VStr k) x) eqn:Hk; [|done].
    apply key_eqb_str in Hk as ->. destruct (String.eqb_spec k k') as [->|]; [|done].
    by rewrite Hkey, String.eqb_refl in Hx.
Qed.
Lemma dict_has_set k v d : dict_has k d = true → (dict_set d (VStr k) v).*1 = d.*1.
Proof.
  unfold dict_has. induction d as [|[x w] d IH]; [done|]. cbn [existsb fst dict_set].
  destruct (key_eqb (VStr k) x); csimpl; [done|]. intros H. by rewrite IH.
Qed.
Lemma dict_has_keys k d e : d.*1 = e.*1 → dict_has k d = dict_has k e.
Proof.
  unfold dict_has. revert e.
  induction d as [|[x w] d IH]; intros [|[y u] e] H; simplify_eq/=; [done|].
  by rewrite (IH e).
Qed.

(** ** encoding.py *)

Definition MAX_WIRE_BYTES : Z := 16 * 1024 * 1024.

Section encoding.
Context {PL : Platform}.

Definition str_key (kv : value * value) : list Z := codes (py_str kv.1).

  (** [_canonical]: mappings get their [str] keys in sorted order. *)
Fixpoint canonical (v : value) : value :=
    match v with
    | VMap kvs =>
        VMap (foldl (λ d kv, dict_set d (VStr (py_str kv.1)) kv.2) []
                (order_by str_key
                   (List.map (λ kv, match kv with (k, w) => (k, canonical w) end) kvs)))
    | VList l => VList (List.map canonical l)
    | _ => v
    end.

Definition pack (v : value) : res bytes := packb v.
Definition canonical_pack (v : value) : res bytes := packb (canonical v).
Definition unpack (raw : bytes) : res value :=
    raise_if (MAX_WIRE_BYTES <? len raw) (ValueError "wire object exceeds size limit");;
    unpackb raw.
End encoding.

(** A concrete platform for the witnesses: packing prints the value, unpacking
    looks the bytes up in a table, and hashes prefix their input. *)
Definition sample_float : PyFloat :=
  {| float_repr := λ q, str_of_Z (Qnum q) +:+ "/" +:+ str_of_Z (Zpos (Qden q));
     float_parse := λ _, None |}.
Definition sample_platform (table : list (bytes * value)) : Platform :=
  {| platform_float := sample_float;
     platform_msgpack :=
       {| packb := λ v, Ok (@py_repr sample_float v);
          unpackb := λ raw,
            match List.find (λ e, String.eqb (fst e) raw) table with
            | Some e => Ok (snd e)
            | None => Err (ValueError "unpack failed")
            end |};
     platform_hashing :=
       {| sha256_hexdigest := λ d, "sha256:" +:+ d;
          blake2s_hexdigest := λ _ p d, p +:+ ":" +:+ d |} |}.
