(* ===== verification/Codecs.v ===== *)
(** Text forms of bytes and objects: [b64e] and [b64d] of src/anet/encoding.py over
    the standard library's [base64], its [b32encode] as the node and human ids use
    it, and [json] as the control plane stores its objects. *)
From Stdlib Require Import DecimalString DecimalPos DecimalFacts.
From S2P Require Import Prelude PyStr PyVal.

(** ** base64 *)

Definition chr (n : Z) : ascii := ascii_of_N (Z.to_N n).
(** The URL-safe alphabet, and what decoding accepts: that one and the standard one. *)
Definition b64_char (n : Z) : ascii :=
  if n <? 26 then chr (65 + n) else if n <? 52 then chr (71 + n)
  else if n <? 62 then chr (n - 4) else if n =? 62 then chr 45 else chr 95.
Definition b64_value (a : ascii) : option Z :=
  if is_upper_az a then Some (code a - 65) else if is_lower_az a then Some (code a - 71)
  else if is_digit a then Some (code a + 4)
  else if one_of "-+" a then Some 62 else if one_of "_/" a then Some 63 else None.

(** [base64.urlsafe_b64encode(raw).rstrip("=")]: three bytes are four characters. *)
Fixpoint b64e (raw : bytes) : string :=
  match raw with
  | EmptyString => EmptyString
  | String a EmptyString =>
      String (b64_char (code a / 4)) (String (b64_char (code a mod 4 * 16)) EmptyString)
  | String a (String b EmptyString) =>
      String (b64_char (code a / 4))
        (String (b64_char (code a mod 4 * 16 + code b / 16))
          (String (b64_char (code b mod 16 * 4)) EmptyString))
  | String a (String b (String c rest)) =>
      String (b64_char (code a / 4))
        (String (b64_char (code a mod 4 * 16 + code b / 16))
          (String (b64_char (code b mod 16 * 4 + code c / 64))
            (String (b64_char (code c mod 64)) (b64e rest))))
  end.

(** [binascii.a2b_base64] without strict mode: [quad] characters of a group are read
    and [left] holds their unused bits; characters outside the alphabet are skipped,
    and a full padding ends the input. *)
Fixpoint a2b_base64 (quad left pads : Z) (s : string) : res bytes :=
  match s with
  | EmptyString => raise_if (negb (quad =? 0)) (ValueError "Incorrect padding");; mret EmptyString
  | String c s' =>
      if code c =? 61 then
        if quad <? 2 then a2b_base64 quad left pads s'
        else if 4 <=? quad + (pads + 1) then mret EmptyString
        else a2b_base64 quad left (pads + 1) s'
      else
        match b64_value c with
        | None => a2b_base64 quad left pads s'
        | Some v =>
            if quad =? 0 then a2b_base64 1 v 0 s'
            else if quad =? 1 then
              rest ← a2b_base64 2 (v mod 16) 0 s'; mret (String (chr (left * 4 + v / 16)) rest)
            else if quad =? 2 then
              rest ← a2b_base64 3 (v mod 4) 0 s'; mret (String (chr (left * 16 + v / 4)) rest)
            else rest ← a2b_base64 0 0 0 s'; mret (String (chr (left * 64 + v)) rest)
        end
  end.
Definition is_ascii (a : ascii) : bool := code a <? 128.
Definition b64d (text : string) : res bytes :=
  let value := strip text in
  let padded := value +:+ String.concat "" (repeat "=" (Z.to_nat (- len value mod 4))) in
  raise_if (negb (str_forall is_ascii padded))
    (ValueError "string argument should contain only ASCII characters");;
  a2b_base64 0 0 0 padded.

(** ** base32: [b32encode(raw).decode("ascii").rstrip("=").lower()] *)

Definition b32_char (n : Z) : ascii := if n <? 26 then chr (97 + n) else chr (n + 24).
(** The [k] leading characters of the eight that stand for a 40-bit number *)
Fixpoint b32_digits (k : nat) (n : Z) (at_bit : Z) : string :=
  match k with
  | O => EmptyString
  | S k' => String (b32_char (n / 2 ^ at_bit mod 32)) (b32_digits k' n (at_bit - 5))
  end.
Definition b32_group (k : nat) (a b c d e : Z) : string :=
  b32_digits k ((((a * 256 + b) * 256 + c) * 256 + d) * 256 + e) 35.
Fixpoint b32_token (raw : bytes) : string :=
  match raw with
  | EmptyString => EmptyString
  | String a EmptyString => b32_group 2 (code a) 0 0 0 0
  | String a (String b EmptyString) => b32_group 4 (code a) (code b) 0 0 0
  | String a (String b (String c EmptyString)) => b32_group 5 (code a) (code b) (code c) 0 0
  | String a (String b (String c (String d EmptyString))) =>
      b32_group 7 (code a) (code b) (code c) (code d) 0
  | String a (String b (String c (String d (String e rest)))) =>
      b32_group 8 (code a) (code b) (code c) (code d) (code e) +:+ b32_token rest
  end.

(** ** Round trip *)

Lemma code_bounds a : 0 ≤ code a < 256.
Proof.
  unfold code. pose proof (N_ascii_bounded a). lia.
Qed.
Lemma chr_code a : chr (code a) = a.
Proof. unfold chr, code. by rewrite N2Z.id, ascii_N_embedding. Qed.

Lemma b64_value_char n : 0 ≤ n < 64 → b64_value (b64_char n) = Some n.
Proof.
  intros Hn.
  assert (forallb (λ k, bool_decide (b64_value (b64_char (Z.of_nat k)) = Some (Z.of_nat k)))
    (seq 0 64) = true) as Hall by (vm_compute; reflexivity).
  rewrite forallb_forall in Hall. specialize (Hall (Z.to_nat n)).
  rewrite Z2Nat.id in Hall by lia.
  specialize (Hall ltac:(apply in_seq; lia)). by apply bool_decide_eq_true in Hall.
Qed.
(** The alphabet is plain ASCII text without padding. *)
Definition b64_text (a : ascii) : bool :=
  is_ascii a && negb (is_space a) && negb (code a =? 61).
Lemma b64_char_text n : 0 ≤ n < 64 → b64_text (b64_char n) = true.
Proof.
  intros Hn.
  assert (forallb (λ k, b64_text (b64_char (Z.of_nat k))) (seq 0 64) = true) as Hall
    by (vm_compute; reflexivity).
  rewrite forallb_forall in Hall. specialize (Hall (Z.to_nat n)).
  rewrite Z2Nat.id in Hall by lia. apply Hall, in_seq. lia.
Qed.

Lemma bytes_ind3 (P : string → Prop) :
  P "" → (∀ a, P (String a "")) → (∀ a b, P (String a (String b ""))) →
  (∀ a b c s, P s → P (String a (String b (String c s)))) → ∀ s, P s.
Proof.
  intros H0 H1 H2 H3. fix IH 1. intros [|a [|b [|c s]]]; [done|apply H1|apply H2|].
  apply H3, IH.
Qed.


Ltac code_bounds :=
  repeat match goal with a : ascii |- _ =>
    lazymatch goal with H : 0 ≤ code a < 256 |- _ => fail | _ => pose proof (code_bounds a) end end.
Ltac div_lia := code_bounds; Z.to_euclidean_division_equations; lia.

Lemma b64e_text s : str_forall b64_text (b64e s) = true.
Proof.
  induction s as [|a|a b|a b c s IH] using bytes_ind3; cbn [b64e str_forall]; [done|..];
    rewrite !b64_char_text by div_lia; [done..|exact IH].
Qed.
Lemma chr_eq n a : n = code a → chr n = a.
Proof. intros ->. apply chr_code. Qed.


Lemma a2b_char quad left pads n s :
  0 ≤ n < 64 →
  a2b_base64 quad left pads (String (b64_char n) s) =
    if quad =? 0 then a2b_base64 1 n 0 s
    else if quad =? 1 then
      rest ← a2b_base64 2 (n mod 16) 0 s; mret (String (chr (left * 4 + n / 16)) rest)
    else if quad =? 2 then
      rest ← a2b_base64 3 (n mod 4) 0 s; mret (String (chr (left * 16 + n / 4)) rest)
    else rest ← a2b_base64 0 0 0 s; mret (String (chr (left * 64 + n)) rest).
Proof.
  intros Hn. cbn [a2b_base64].
  pose proof (b64_char_text n Hn) as Ht. unfold b64_text in Ht. bool_prop.
  match goal with H : code _ ≠ 61 |- _ => apply Z.eqb_neq in H; rewrite H end.
  by rewrite b64_value_char.
Qed.
Lemma a2b_group s a b c rest :
  a2b_base64 0 0 0 s = Ok rest →
  a2b_base64 0 0 0 (b64e (String a (String b (String c ""))) +:+ s) =
    Ok (String a (String b (String c rest))).
Proof.
  intros Hs. cbn [b64e]. rewrite ?append_cons, append_nil_l. do 4 (rewrite a2b_char by div_lia; cbn [Z.eqb Pos.eqb]).
  rewrite Hs. cbn [mbind res_bind mret res_ret].
  do 2 f_equal; [apply chr_eq; div_lia|]. f_equal; [apply chr_eq; div_lia|].
  f_equal. apply chr_eq. div_lia.
Qed.

(** The padding [b64d] puts back *)
Definition b64_pad (s : string) : string :=
  String.concat "" (repeat "=" (Z.to_nat (- len s mod 4))).
Lemma b64_pad_group a b c d s :
  b64_pad (String a (String b (String c (String d s)))) = b64_pad s.
Proof. unfold b64_pad, len. cbn [String.length]. do 3 f_equal. div_lia. Qed.
Lemma a2b_b64e s : a2b_base64 0 0 0 (b64e s +:+ b64_pad (b64e s)) = Ok s.
Proof.
  induction s as [|a|a b|a b c s IH] using bytes_ind3; [done|..].
  - cbn [b64e]. change (b64_pad _) with "==". rewrite ?append_cons, append_nil_l.
    do 2 (rewrite a2b_char by div_lia; cbn [Z.eqb Pos.eqb]).
    change (a2b_base64 2 _ 0 "==") with (Ok (A := bytes) ""). cbn [mbind res_bind mret res_ret].
    do 2 f_equal. apply chr_eq. div_lia.
  - cbn [b64e]. change (b64_pad _) with "=". rewrite ?append_cons, append_nil_l.
    do 3 (rewrite a2b_char by div_lia; cbn [Z.eqb Pos.eqb]).
    change (a2b_base64 3 _ 0 "=") with (Ok (A := bytes) ""). cbn [mbind res_bind mret res_ret].
    do 2 f_equal; [apply chr_eq; div_lia|]. f_equal. apply chr_eq. div_lia.
  - apply (a2b_group _ a b c) in IH. revert IH. cbn [b64e].
    by rewrite b64_pad_group, !append_cons, append_nil_l.
Qed.

(** Decoding gives back the bytes that were encoded. *)
Lemma b64d_b64e raw : b64d (b64e raw) = Ok raw.
Proof.
  unfold b64d. fold (b64_pad (strip (b64e raw))).
  assert (strip (b64e raw) = b64e raw) as ->.
  { apply strip_nonspace. eapply str_forall_impl; [|apply b64e_text].
    intros a Ha. unfold b64_text in Ha. bool_prop. by apply negb_true_iff. }
  rewrite a2b_b64e.
  assert (str_forall is_ascii (b64e raw +:+ b64_pad (b64e raw)) = true) as ->; [|done].
  rewrite str_forall_app, (str_forall_impl b64_text is_ascii (b64e raw)); [|intros a Ha|apply b64e_text].
  - unfold b64_pad. pose proof (Z.mod_pos_bound (- len (b64e raw)) 4 ltac:(lia)).
    generalize dependent (- len (b64e raw) mod 4). intros n Hn. simpl.
    induction (Z.to_nat n) as [|[|k] IH]; done.
  - unfold b64_text in Ha. by bool_prop.
Qed.

(** ** JSON *)

(** [json.dumps(s, ensure_ascii=False)] of a string *)
Definition json_escape (a : ascii) : string :=
  let n := code a in
  let escaped c := String (chr 92) (String c EmptyString) in
  if (n =? 34) || (n =? 92) then escaped a
  else if n =? 8 then escaped (chr 98) else if n =? 9 then escaped (chr 116)
  else if n =? 10 then escaped (chr 110) else if n =? 12 then escaped (chr 102)
  else if n =? 13 then escaped (chr 114)
  else if n <? 32 then escaped (chr 117) +:+ "00" +:+ hex_byte a
  else String a EmptyString.
Fixpoint json_chars (s : string) : string :=
  match s with EmptyString => EmptyString | String a s' => json_escape a +:+ json_chars s' end.
Definition quote : ascii := chr 34.
Definition json_str (s : string) : string :=
  String quote (json_chars s +:+ String quote EmptyString).

Definition map_res {A B} (f : A → res B) : list A → res (list B) :=
  fix go l := match l with
              | [] => mret []
              | x :: l' => y ← f x; ys ← go l'; mret (y :: ys)
              end.

Definition whitespace (a : ascii) : bool := one_of " " a || (code a =? 9) || (code a =? 10) || (code a =? 13).
Fixpoint skip_ws (s : string) : string :=
  match s with
  | String a s' => if whitespace a then skip_ws s' else s
  | EmptyString => EmptyString
  end.
Definition bad_json : exn := ValueError "invalid JSON".

Definition hex_value (a : ascii) : option Z :=
  if is_digit a then Some (code a - 48)
  else if in_range 97 102 a then Some (code a - 87)
  else if in_range 65 70 a then Some (code a - 55) else None.
Definition hex4 (a b c d : ascii) : option Z :=
  a ← hex_value a; b ← hex_value b; c ← hex_value c; d ← hex_value d;
  Some (((a * 16 + b) * 16 + c) * 16 + d).
Definition json_unescape (a : ascii) : option ascii :=
  let n := code a in
  if (n =? 34) || (n =? 92) || (n =? 47) then Some a
  else if n =? 98 then Some (chr 8) else if n =? 116 then Some (chr 9)
  else if n =? 110 then Some (chr 10) else if n =? 102 then Some (chr 12)
  else if n =? 114 then Some (chr 13) else None.

(** A string after its opening quote, with what follows the closing one.  An escape
    beyond the code points of this model is refused. *)
Fixpoint scan_string (s : string) : res (string * string) :=
  match s with
  | EmptyString => Err bad_json
  | String c r =>
      if code c =? 34 then mret (EmptyString, r)
      else if code c =? 92 then
        match r with
        | EmptyString => Err bad_json
        | String e r1 =>
            if code e =? 117 then
              match r1 with
              | String x (String y (String z (String w r2))) =>
                  n ← of_option bad_json (hex4 x y z w);
                  p ← scan_string r2;
                  raise_if (255 <? n) bad_json;;
                  mret (String (chr n) p.1, p.2)
              | _ => Err bad_json
              end
            else
              a ← of_option bad_json (json_unescape e);
              p ← scan_string r1;
              mret (String a p.1, p.2)
        end
      else if code c <? 32 then Err bad_json
      else p ← scan_string r; mret (String c p.1, p.2)
  end.

(** The digits at the head *)
Fixpoint span_digits (s : string) : string * string :=
  match s with
  | String a s' => if is_digit a then let p := span_digits s' in (String a p.1, p.2) else ("", s)
  | EmptyString => ("", "")
  end.
Definition head_is (f : ascii → bool) (s : string) : bool :=
  match s with String a _ => f a | EmptyString => false end.
Definition tail (s : string) : string := match s with String _ s' => s' | EmptyString => "" end.

Section json.
Context {PF : PyFloat}.

(** [json.dumps(v, ensure_ascii=False, separators=(",", ":"), sort_keys=True)]; the
    source only dumps dictionaries with string keys. *)
Fixpoint json_dumps (v : value) : res string :=
  match v with
  | VNone => mret "null"
  | VBool b => mret (if b then "true" else "false")
  | VInt z =>
      raise_if (4300 <? len (str_of_Z (Z.abs z)))
        (ValueError "Exceeds the limit for integer string conversion");;
      mret (str_of_Z z)
  | VFloat q => mret (float_repr q)
  | VStr s => mret (json_str s)
  | VBytes _ => Err (TypeError "Object of type bytes is not JSON serializable")
  | VList l => items ← map_res json_dumps l; mret ("[" +:+ join "," items +:+ "]")
  | VMap kvs =>
      pairs ← map_res (λ kv, match kv with
                             | (VStr k, w) => t ← json_dumps w; mret (k, t)
                             | _ => Err (TypeError "keys must be str")
                             end) kvs;
      mret ("{" +:+ join "," (List.map (λ p, json_str p.1 +:+ ":" +:+ p.2)
                                (order_by (λ p, codes p.1) pairs)) +:+ "}")
  end.

(** A number: a sign, digits without a leading zero, a fraction and an exponent, as
    far as they go.  NaN and the infinities, which have no [value], are refused. *)
Definition scan_number (s : string) : res (value * string) :=
  let negative := head_is (Ascii.eqb (chr 45)) s in
  let r := if negative then tail s else s in
  let '(whole, r1) := if head_is (Ascii.eqb (chr 48)) r then ("0", tail r) else span_digits r in
  raise_if (String.eqb whole "") bad_json;;
  let '(fraction, r2) :=
    if head_is (Ascii.eqb (chr 46)) r1 && head_is is_digit (tail r1)
    then let p := span_digits (tail r1) in ("." +:+ p.1, p.2) else ("", r1) in
  let after_e := tail r2 in
  let signed := head_is (one_of "+-") after_e in
  let digits := if signed then tail after_e else after_e in
  let '(exponent, r3) :=
    if head_is (one_of "eE") r2 && head_is is_digit digits
    then let p := span_digits digits in
         (slice 1 r2 +:+ (if signed then slice 1 after_e else "") +:+ p.1, p.2)
    else ("", r2) in
  if String.eqb fraction "" && String.eqb exponent "" then
    n ← of_option (ValueError "Exceeds the limit for integer string conversion")
          (int_digits false 0 0 whole);
    mret (VInt (if negative then - n else n), r3)
  else
    q ← of_option bad_json
          (float_parse ((if negative then "-" else "") +:+ whole +:+ fraction +:+ exponent));
    mret (VFloat q, r3).

(** A value, the elements of a list after the first bracket, and the members of an
    object after the first brace; every step of recursion passes a character. *)
Fixpoint parse_value (fuel : nat) (s : string) : res (value * string) :=
  match fuel with
  | O => Err bad_json
  | S n =>
      if startswith "null" s then mret (VNone, substring 4 (String.length s) s)
      else if startswith "true" s then mret (VBool true, substring 4 (String.length s) s)
      else if startswith "false" s then mret (VBool false, substring 5 (String.length s) s)
      else match s with
      | EmptyString => Err bad_json
      | String c r =>
          if code c =? 34 then p ← scan_string r; mret (VStr p.1, p.2)
          else if code c =? 91 then
            let r := skip_ws r in
            if head_is (Ascii.eqb (chr 93)) r then mret (VList [], tail r)
            else parse_elements n [] r
          else if code c =? 123 then
            let r := skip_ws r in
            if head_is (Ascii.eqb (chr 125)) r then mret (VMap [], tail r)
            else parse_members n [] r
          else scan_number s
      end
  end
with parse_elements (fuel : nat) (done : list value) (s : string) : res (value * string) :=
  match fuel with
  | O => Err bad_json
  | S n =>
      p ← parse_value n s;
      let r := skip_ws p.2 in
      if head_is (Ascii.eqb (chr 44)) r then parse_elements n (done ++ [p.1]) (skip_ws (tail r))
      else if head_is (Ascii.eqb (chr 93)) r then mret (VList (done ++ [p.1]), tail r)
      else Err bad_json
  end
with parse_members (fuel : nat) (done : dict) (s : string) : res (value * string) :=
  match fuel with
  | O => Err bad_json
  | S n =>
      raise_if (negb (head_is (Ascii.eqb quote) s)) bad_json;;
      k ← scan_string (tail s);
      let r := skip_ws k.2 in
      raise_if (negb (head_is (Ascii.eqb (chr 58)) r)) bad_json;;
      p ← parse_value n (skip_ws (tail r));
      let members := dict_set done (VStr k.1) p.1 in
      let r := skip_ws p.2 in
      if head_is (Ascii.eqb (chr 44)) r then parse_members n members (skip_ws (tail r))
      else if head_is (Ascii.eqb (chr 125)) r then mret (VMap members, tail r)
      else Err bad_json
  end.
(** [json.loads(text)] *)
Definition json_loads (text : string) : res value :=
  p ← parse_value (S (String.length text)) (skip_ws text);
  raise_if (negb (String.eqb (skip_ws p.2) "")) bad_json;;
  mret p.1.
End json.

(** ** What [json.loads] reads back *)

Lemma value_ind' (P : value → Prop) :
  P VNone → (∀ b, P (VBool b)) → (∀ z, P (VInt z)) → (∀ q, P (VFloat q)) → (∀ s, P (VStr s)) →
  (∀ b, P (VBytes b)) → (∀ l, Forall P l → P (VList l)) →
  (∀ kvs, Forall (λ kv, P kv.2) kvs → P (VMap kvs)) → ∀ v, P v.
Proof.
  intros H0 H1 H2 H3 H4 H5 HL HM. fix IH 1. intros v.
  destruct v as [|b|z|q|s|b|l|kvs];
    [exact H0|exact (H1 b)|exact (H2 z)|exact (H3 q)|exact (H4 s)|exact (H5 b)|apply HL|apply HM].
  - induction l as [|x l IHl]; constructor; [apply IH|exact IHl].
  - induction kvs as [|[k w] kvs IHkvs]; constructor; [apply IH|exact IHkvs].
Qed.

Lemma map_res_Forall2 {A B} (f : A → res B) l l' :
  map_res f l = Ok l' ↔ Forall2 (λ x y, f x = Ok y) l l'.
Proof.
  split.
  - revert l'. induction l as [|x l IH]; intros l' H; simpl in H; res_inv; subst; constructor; auto.
  - induction 1 as [|x y l l' Hx _ IH]; [done|]. cbn. by rewrite Hx, IH.
Qed.

(** *** Strings *)


Lemma scan_escape a r :
  scan_string (json_escape a +:+ r) = p ← scan_string r; mret (String a p.1, p.2).
Proof. destruct a as [[] [] [] [] [] [] [] []]; reflexivity. Qed.
Lemma scan_json_chars s r : scan_string (json_chars s +:+ String quote r) = Ok (s, r).
Proof.
  induction s as [|a s IH]; [reflexivity|]. cbn [json_chars].
  by rewrite append_assoc, scan_escape, IH.
Qed.

(** *** Numbers *)

(** The value of decimal digits after a number read so far *)
Fixpoint digits_value (acc : Z) (d : Decimal.uint) : Z :=
  match d with
  | Decimal.Nil => acc
  | Decimal.D0 d => digits_value (10 * acc) d | Decimal.D1 d => digits_value (10 * acc + 1) d
  | Decimal.D2 d => digits_value (10 * acc + 2) d | Decimal.D3 d => digits_value (10 * acc + 3) d
  | Decimal.D4 d => digits_value (10 * acc + 4) d | Decimal.D5 d => digits_value (10 * acc + 5) d
  | Decimal.D6 d => digits_value (10 * acc + 6) d | Decimal.D7 d => digits_value (10 * acc + 7) d
  | Decimal.D8 d => digits_value (10 * acc + 8) d | Decimal.D9 d => digits_value (10 * acc + 9) d
  end.
Lemma digits_value_acc d p : digits_value (Zpos p) d = Zpos (Pos.of_uint_acc d p).
Proof. revert p. induction d; intros p; cbn [digits_value Pos.of_uint_acc]; try rewrite <- IHd; f_equal; lia. Qed.
Lemma digits_value_of d : digits_value 0 d = Z.of_N (Pos.of_uint d).
Proof. induction d; cbn [digits_value Pos.of_uint]; simpl (10 * 0 + _); try apply digits_value_acc; [done|exact IHd]. Qed.

Lemma int_digits_uint d after count acc :
  (after = true ∨ d ≠ Decimal.Nil) →
  count + len (NilEmpty.string_of_uint d) ≤ 4300 →
  int_digits after count acc (NilEmpty.string_of_uint d) = Some (digits_value acc d).
Proof.
  unfold len. revert after count acc.
  induction d; intros after count acc Hd Hlen; cbn [NilEmpty.string_of_uint String.length] in *.
  1: { destruct Hd as [->|]; [|done]. cbn [int_digits digits_value].
       destruct (count <=? 4300) eqn:E; [done|]. bool_prop. lia. }
  all: cbn [int_digits]; change (is_digit _) with true; cbn [digits_value];
    rewrite IHd by (auto || lia); f_equal; f_equal; unfold code; simpl; lia.
Qed.

Lemma to_uint_head p d : Pos.to_uint p ≠ Decimal.D0 d.
Proof.
  intros E. pose proof (DecimalPos.Unsigned.to_of (Pos.to_uint p)) as H.
  rewrite DecimalPos.Unsigned.of_to in H. cbn [N.to_uint] in H. rewrite E in H.
  unfold Decimal.unorm in H. destruct (Decimal.nzhead (Decimal.D0 d)) eqn:Hnz.
  1: { apply (DecimalPos.Unsigned.to_uint_nonzero p). by rewrite E, H. }
  all: first [discriminate H | by apply (DecimalFacts.nzhead_nonzero (Decimal.D0 d) _ Hnz)].
Qed.

(** What may follow a number *)
Definition number_end (s : string) : Prop :=
  head_is is_digit s = false ∧ head_is (Ascii.eqb (chr 46)) s = false ∧
  head_is (one_of "eE") s = false.
Lemma span_digits_uint d rest :
  head_is is_digit rest = false →
  span_digits (NilEmpty.string_of_uint d +:+ rest) = (NilEmpty.string_of_uint d, rest).
Proof.
  intros Hend. induction d; cbn [NilEmpty.string_of_uint]; rewrite ?append_cons.
  1: { rewrite append_nil_l. destruct rest as [|a rest]; [done|]. simpl in *. by rewrite Hend. }
  all: cbn [span_digits]; change (is_digit _) with true; cbn beta iota zeta; by rewrite IHd.
Qed.
(** The digits of a positive number start with no zero. *)
Lemma scan_whole p rest :
  number_end rest →
  let text := NilEmpty.string_of_uint (Pos.to_uint p) in
  (if head_is (Ascii.eqb (chr 48)) (text +:+ rest) then ("0", tail (text +:+ rest))
   else span_digits (text +:+ rest)) = (text, rest) ∧
  String.eqb text "" = false ∧ head_is (Ascii.eqb (chr 45)) (text +:+ rest) = false.
Proof.
  intros (Hd & _) text. split_and!.
  - replace (head_is _ (text +:+ rest)) with false; [by apply span_digits_uint|].
    unfold text. pose proof (to_uint_head p) as Hne.
    pose proof (DecimalPos.Unsigned.to_uint_nonnil p) as Hnil.
    by destruct (Pos.to_uint p); try reflexivity; try congruence; specialize (Hne u).
  - unfold text. pose proof (DecimalPos.Unsigned.to_uint_nonnil p) as Hnil.
    by destruct (Pos.to_uint p).
  - unfold text. pose proof (DecimalPos.Unsigned.to_uint_nonnil p) as Hnil.
    by destruct (Pos.to_uint p).
Qed.
Lemma str_of_pos p : str_of_Z (Zpos p) = NilEmpty.string_of_uint (Pos.to_uint p).
Proof.
  unfold str_of_Z. simpl. unfold NilZero.string_of_uint.
  pose proof (DecimalPos.Unsigned.to_uint_nonnil p). by destruct (Pos.to_uint p).
Qed.
Lemma str_of_neg p : str_of_Z (Zneg p) = "-" +:+ NilEmpty.string_of_uint (Pos.to_uint p).
Proof.
  unfold str_of_Z. simpl. unfold NilZero.string_of_uint.
  pose proof (DecimalPos.Unsigned.to_uint_nonnil p). by destruct (Pos.to_uint p).
Qed.
Lemma int_digits_pos p :
  len (str_of_Z (Zpos p)) ≤ 4300 →
  int_digits false 0 0 (NilEmpty.string_of_uint (Pos.to_uint p)) = Some (Zpos p).
Proof.
  rewrite str_of_pos. intros Hlen. rewrite int_digits_uint;
    [|right; apply DecimalPos.Unsigned.to_uint_nonnil|lia].
  by rewrite digits_value_of, DecimalPos.Unsigned.of_to.
Qed.

(** A number of 64 bits is short. *)
Lemma digits_value_ge d acc :
  acc * 10 ^ len (NilEmpty.string_of_uint d) ≤ digits_value acc d.
Proof.
  revert acc. unfold len.
  induction d; intros acc; cbn [NilEmpty.string_of_uint digits_value String.length]; [simpl; lia|..];
    rewrite Nat2Z.inj_succ, Z.pow_succ_r by lia; (etrans; [|apply IHd]);
    rewrite (Z.mul_assoc acc 10); apply Z.mul_le_mono_nonneg_r; lia.
Qed.
Lemma number_length n z : 0 ≤ n → Z.abs z < 10 ^ n → len (str_of_Z (Z.abs z)) ≤ n + 1.
Proof.
  intros Hn. destruct (Z.abs z) as [|p|p] eqn:Hz; [|intros Hlt|lia].
  { intros _. change (len (str_of_Z 0)) with 1. lia. }
  rewrite str_of_pos.
  pose proof (digits_value_of (Pos.to_uint p)) as Hval. rewrite DecimalPos.Unsigned.of_to in Hval.
  simpl in Hval. pose proof (to_uint_head p) as Hhead.
  pose proof (DecimalPos.Unsigned.to_uint_nonnil p) as Hnil.
  assert (∃ d, 10 ^ len (NilEmpty.string_of_uint d) ≤ Zpos p ∧
    len (NilEmpty.string_of_uint (Pos.to_uint p)) = 1 + len (NilEmpty.string_of_uint d))
    as (d & Hd & ->).
  { rewrite <- Hval. destruct (Pos.to_uint p) as [|d|d|d|d|d|d|d|d|d|d]; [done|by destruct (Hhead d)|..];
      exists d; (split; [|unfold len; cbn [NilEmpty.string_of_uint String.length]; lia]);
      cbn [digits_value]; (etrans; [|apply digits_value_ge]); lia. }
  assert (len (NilEmpty.string_of_uint d) < n ∨ n ≤ len (NilEmpty.string_of_uint d)) as [?|Hge]
    by lia; [lia|].
  assert (10 ^ n ≤ 10 ^ len (NilEmpty.string_of_uint d)) by (apply Z.pow_le_mono_r; lia). lia.
Qed.
Lemma short_number z : Z.abs z < 10 ^ 4299 → len (str_of_Z (Z.abs z)) ≤ 4300.
Proof. apply (number_length 4299). done. Qed.

Section round_trip.
Context {PF : PyFloat}.

Lemma scan_number_int z rest :
  len (str_of_Z (Z.abs z)) ≤ 4300 → number_end rest →
  scan_number (str_of_Z z +:+ rest) = Ok (VInt z, rest).
Proof.
  intros Hlen Hend. pose proof Hend as (Hd & Hdot & He).
  assert (∀ (negative : bool) (whole text : string) n,
    (if head_is (Ascii.eqb (chr 48)) text then ("0", tail text) else span_digits text) =
      (whole : string, rest) → String.eqb whole "" = false → int_digits false 0 0 whole = Some n →
    head_is (Ascii.eqb (chr 45)) text = false →
    scan_number (if negative then "-" +:+ text else text) =
      Ok (VInt (if negative : bool then - n else n), rest)) as Hscan.
  { clear Hlen. intros negative whole text n Htext Hwhole Hn Hhead. unfold scan_number.
    replace (head_is (Ascii.eqb (chr 45)) (if negative then "-" +:+ text else text)) with negative
      by (by destruct negative).
    replace (if negative then tail (if negative then "-" +:+ text else text)
      else if negative then "-" +:+ text else text) with text by (by destruct negative).
    cbv zeta. rewrite Htext, Hwhole. cbn [mbind res_bind raise_if]. rewrite Hdot. cbn [andb].
    rewrite He. cbn [andb String.eqb]. by rewrite Hn. }
  destruct z as [|p|p].
  - exact (Hscan false "0" ("0" +:+ rest) 0 eq_refl eq_refl eq_refl eq_refl).
  - rewrite str_of_pos. destruct (scan_whole p rest Hend) as (Hw & Hne & Hhead).
    exact (Hscan false _ _ _ Hw Hne (int_digits_pos p Hlen) Hhead).
  - destruct (scan_whole p rest Hend) as (Hw & Hne & Hhead).
    rewrite str_of_neg, append_assoc.
    exact (Hscan true _ _ _ Hw Hne (int_digits_pos p Hlen) Hhead).
Qed.

(** *** Values *)

(** Values that [json.dumps] prints without loss: no floats and bytes, and
    dictionaries in the order of their string keys. *)
Inductive json_plain : value → Prop :=
  | plain_none : json_plain VNone
  | plain_bool b : json_plain (VBool b)
  | plain_int z : json_plain (VInt z)
  | plain_str s : json_plain (VStr s)
  | plain_list l : Forall json_plain l → json_plain (VList l)
  | plain_map (kvs : list (string * value)) :
      NoDup kvs.*1 → sorted kvs.*1 = kvs.*1 → Forall (λ kv, json_plain kv.2) kvs →
      json_plain (VMap (prod_map VStr id <$> kvs)).

(** How a value starts: neither with white space nor with a closing bracket *)
Definition value_head (a : ascii) : bool :=
  negb (whitespace a || (code a =? 93) || (code a =? 125)).
(** The text of [v] reads back as [v] wherever it stands. *)
Definition reads_back (v : value) (t : string) : Prop :=
  head_is value_head t = true ∧
  ∀ n rest, (String.length t ≤ n)%nat → number_end rest → parse_value n (t +:+ rest) = Ok (v, rest).

Lemma skip_ws_text t rest :
  head_is value_head t = true → skip_ws (t +:+ rest) = t +:+ rest.
Proof.
  destruct t as [|a t]; [done|]. rewrite append_cons. simpl. unfold value_head.
  by destruct (whitespace a).
Qed.
Lemma skip_ws_head s : head_is value_head s = true → skip_ws s = s.
Proof. destruct s as [|a s]; [done|]. simpl. unfold value_head. by destruct (whitespace a). Qed.
Lemma head_no_bracket s :
  head_is value_head s = true →
  head_is (Ascii.eqb (chr 93)) s = false ∧ head_is (Ascii.eqb (chr 125)) s = false.
Proof. destruct s as [|a s]; [done|]. destruct a as [[] [] [] [] [] [] [] []]; done. Qed.
Lemma head_append f t rest : head_is f t = true → head_is f (t +:+ rest) = true.
Proof. by destruct t. Qed.

Lemma parse_number n c s :
  is_digit c || (code c =? 45) = true →
  parse_value (S n) (String c s) = scan_number (String c s).
Proof. destruct c as [[] [] [] [] [] [] [] []]; (discriminate || reflexivity). Qed.
Lemma int_head z : ∃ c s, str_of_Z z = String c s ∧ is_digit c || (code c =? 45) = true.
Proof.
  assert (∀ p, ∃ c s, NilEmpty.string_of_uint (Pos.to_uint p) = String c s ∧
    is_digit c || (code c =? 45) = true) as Hpos.
  { intros p. pose proof (DecimalPos.Unsigned.to_uint_nonnil p).
    destruct (Pos.to_uint p); [done|..]; by do 2 eexists. }
  destruct z as [|p|p]; [by do 2 eexists|rewrite str_of_pos; apply Hpos|].
  rewrite str_of_neg. by do 2 eexists.
Qed.
Lemma word_reads_back (w : string) v :
  (∀ n rest, parse_value (S n) (w +:+ rest) =
    mret (v, substring (String.length w) (String.length (w +:+ rest)) (w +:+ rest))) →
  head_is value_head w = true → reads_back v w.
Proof.
  intros Hparse Hhead. split; [done|]. intros n rest Hn _.
  destruct n as [|n]; [destruct w; simpl in *; [discriminate Hhead|lia]|].
  rewrite Hparse, length_append, substring_suffix. rewrite substring_ge by lia. done.
Qed.
Lemma int_reads_back z : len (str_of_Z (Z.abs z)) ≤ 4300 → reads_back (VInt z) (str_of_Z z).
Proof.
  intros Hlen. destruct (int_head z) as (c & s & E & Hc). split.
  - rewrite E. simpl. revert Hc. clear. by destruct c as [[] [] [] [] [] [] [] []].
  - intros n rest Hn Hend. destruct n as [|n]; [rewrite E in Hn; simpl in Hn; lia|].
    rewrite <- (scan_number_int z rest Hlen Hend), E, append_cons. by apply parse_number.
Qed.
Lemma str_reads_back s : reads_back (VStr s) (json_str s).
Proof.
  split; [done|]. intros n rest Hn _. destruct n as [|n]; [simpl in Hn; lia|].
  unfold json_str. rewrite append_cons, append_assoc, append_cons, append_nil_l.
  change (parse_value (S n) (String quote ?r)) with (p ← scan_string r; mret (VStr p.1, p.2)).
  by rewrite scan_json_chars.
Qed.

Lemma join_cons sep (t : string) ts :
  ts ≠ [] → join sep (t :: ts) = t +:+ sep +:+ join sep ts.
Proof. by destruct ts. Qed.
Lemma parse_elements_next n before s v r :
  parse_value n s = Ok (v, String "," r) →
  parse_elements (S n) before s = parse_elements n (before ++ [v]) (skip_ws r).
Proof. intros H. cbn [parse_elements]. by rewrite H. Qed.
Lemma parse_elements_end n before s v r :
  parse_value n s = Ok (v, String "]" r) →
  parse_elements (S n) before s = Ok (VList (before ++ [v]), r).
Proof. intros H. cbn [parse_elements]. by rewrite H. Qed.
(** The texts of elements that read back, one after the other *)
Lemma elements_read_back l items :
  Forall2 reads_back l items → l ≠ [] → head_is value_head (join "," items) = true ∧
  ∀ n before rest, (String.length (join "," items) < n)%nat →
  parse_elements n before (join "," items +:+ String "]" rest) = Ok (VList (before ++ l), rest).
Proof.
  induction 1 as [|v t l items [Hhead Hv] Hl IH]; [done|]. intros _.
  destruct (decide (l = [])) as [->|Hne].
  - inversion Hl; subst. split; [done|]. intros [|n] before rest Hn; [lia|]. simpl join in *.
    apply parse_elements_end, Hv; [lia|done].
  - destruct (IH Hne) as [Hhead' IH'].
    assert (items ≠ []) as Hitems by (intros ->; by inversion Hl; subst).
    rewrite join_cons by done. split; [by apply head_append|]. intros [|n] before rest Hn; [lia|].
    rewrite !length_append in Hn. simpl String.length in Hn.
    rewrite !append_assoc. erewrite parse_elements_next; [|apply Hv; [lia|done]].
    rewrite skip_ws_text, IH' by (done || lia). by rewrite <- app_assoc.
Qed.

(** The same for the members of an object *)
Definition member (p : string * string) : string := json_str p.1 +:+ ":" +:+ p.2.
Lemma parse_member n before k s v r :
  parse_value n s = Ok (v, r) → head_is value_head s = true →
  parse_members (S n) before (json_str k +:+ ":" +:+ s) =
    (let members := dict_set before (VStr k) v in
     let r := skip_ws r in
     if head_is (Ascii.eqb (chr 44)) r then parse_members n members (skip_ws (tail r))
     else if head_is (Ascii.eqb (chr 125)) r then mret (VMap members, tail r)
     else Err bad_json).
Proof.
  intros H Hhead. cbn [parse_members]. unfold json_str.
  rewrite append_cons, append_assoc, append_cons, append_nil_l. cbn [head_is tail].
  rewrite scan_json_chars. change (Ascii.eqb quote quote) with true. cbn [negb raise_if mbind res_bind snd].
  change (skip_ws (":" +:+ s)) with (":" +:+ s). change (tail (":" +:+ s)) with s.
  change (head_is (Ascii.eqb (chr 58)) (":" +:+ s)) with true. cbn [negb raise_if mbind res_bind].
  by rewrite skip_ws_head, H.
Qed.
Lemma dict_set_new d k v : dict_has k d = false → dict_set d (VStr k) v = d ++ [(VStr k, v)].
Proof.
  unfold dict_has. induction d as [|[x w] d IH]; [done|]. cbn [existsb fst dict_set].
  destruct (key_eqb (VStr k) x); [done|]. intros H. simpl. by rewrite IH.
Qed.
Lemma members_read_back (kvs : list (string * value)) (pairs : list (string * string)) :
  Forall2 (λ kv p, kv.1 = p.1 ∧ reads_back kv.2 p.2) kvs pairs → kvs ≠ [] →
  head_is value_head (join "," (List.map member pairs)) = true ∧
  ∀ n before rest, (String.length (join "," (List.map member pairs)) < n)%nat →
  (∀ k, k ∈ kvs.*1 → dict_has k before = false) → NoDup kvs.*1 →
  parse_members n before (join "," (List.map member pairs) +:+ String "}" rest) =
    Ok (VMap (before ++ (prod_map VStr id <$> kvs)), rest).
Proof.
  induction 1 as [|[k v] [k' t] kvs pairs [Hk [Hhead Hv]] Hl IH]; [done|]. intros _.
  simpl in Hk, Hhead, Hv. subst k'.
  destruct (decide (kvs = [])) as [->|Hne].
  - inversion Hl; subst. split; [done|]. intros [|n] before rest Hn Hnew Hnd; [lia|].
    simpl join in *. unfold member in *. cbn [fst snd] in *. rewrite !length_append in Hn.
    rewrite !append_assoc. erewrite parse_member; [|apply Hv; [lia|done]|by apply head_append].
    simpl. rewrite dict_set_new; [done|]. apply Hnew. by left.
  - destruct (IH Hne) as [Hhead' IH'].
    assert (List.map member pairs ≠ []) as Hitems by (intros E; apply map_eq_nil in E; subst; by inversion Hl; subst).
    cbn [List.map]. rewrite join_cons by done. split; [done|].
    intros [|n] before rest Hn Hnew Hnd; [lia|]. apply NoDup_cons in Hnd as [Hk Hnd].
    unfold member at 1 in Hn. unfold member at 1. cbn [fst snd] in *.
    rewrite !length_append in Hn. simpl String.length in Hn.
    rewrite !append_assoc. erewrite parse_member; [|apply Hv; [lia|done]|by apply head_append].
    cbv zeta. change (skip_ws ("," +:+ ?s)) with ("," +:+ s).
    change (head_is (Ascii.eqb (chr 44)) ("," +:+ ?s)) with true.
    change (tail ("," +:+ ?s)) with s. cbn iota.
    rewrite skip_ws_text, dict_set_new, IH'; [|lia| |done| |done].
    + by rewrite <- app_assoc.
    + intros k' Hk'. unfold dict_has. rewrite existsb_app. fold (dict_has k' before).
      rewrite Hnew by (by right). cbn [existsb fst key_eqb as_number orb].
      rewrite orb_false_r. apply String.eqb_neq. set_solver.
    + apply Hnew. by left.
Qed.

Lemma order_by_prefix {A} (key : A → string) (l : list A) :
  sorted (key <$> l) = key <$> l → NoDup (key <$> l) →
  order_by (λ a, codes (key a)) l = l.
Proof.
  intros Hsorted Hnd. apply (StronglySorted_unique_strong (key_le (λ a, codes (key a))));
    [|apply order_by_sorted| |apply order_by_Permutation].
  - intros a b Ha Hb Hab Hba. apply elem_of_order_by in Ha.
    assert (key a = key b) as Hkey by (by apply codes_inj, zlex_antisymm).
    apply list_elem_of_lookup in Ha as [i Hi], Hb as [j Hj].
    assert (i = j) as ->.
    { eapply (NoDup_lookup (key <$> l)); [done|rewrite list_lookup_fmap, Hi; simpl; done|].
      by rewrite list_lookup_fmap, Hj, Hkey. }
    by simplify_eq.
  - pose proof (order_by_sorted codes (key <$> l)) as Hs. unfold sorted in Hsorted.
    rewrite Hsorted in Hs. clear Hsorted Hnd. induction l as [|a l IH]; [constructor|].
    inversion Hs as [|? ? Hs' Hall]; subst. constructor; [by apply IH|].
    rewrite Forall_fmap in Hall. exact Hall.
Qed.

Lemma parse_list n s :
  head_is value_head s = true → parse_value (S n) ("[" +:+ s) = parse_elements n [] s.
Proof.
  intros Hhead. change (parse_value (S n) ("[" +:+ s)) with (let r' := skip_ws s in
      if head_is (Ascii.eqb (chr 93)) r' then mret (VList [], tail r') else parse_elements n [] r').
  destruct (head_no_bracket s Hhead) as [Hend _]. rewrite skip_ws_head by done.
  cbv zeta. by rewrite Hend.
Qed.
Lemma parse_object n s :
  head_is value_head s = true → parse_value (S n) ("{" +:+ s) = parse_members n [] s.
Proof.
  intros Hhead. change (parse_value (S n) ("{" +:+ s)) with (let r' := skip_ws s in
      if head_is (Ascii.eqb (chr 125)) r' then mret (VMap [], tail r') else parse_members n [] r').
  destruct (head_no_bracket s Hhead) as [_ Hend]. rewrite skip_ws_head by done.
  cbv zeta. by rewrite Hend.
Qed.
Lemma dumps_reads_back v t : json_plain v → json_dumps v = Ok t → reads_back v t.
Proof.
  revert t. induction v as [|b|z|q|s|b|l IH|kvs IH] using value_ind'; intros t Hplain Ht;
    inversion Hplain; subst; cbn [json_dumps] in Ht; res_inv; subst.
  - apply (word_reads_back "null"); [|done]. intros n rest. cbn [parse_value].
    by rewrite startswith_app.
  - destruct b; [apply (word_reads_back "true")|apply (word_reads_back "false")]; try done;
      intros n rest; cbn [parse_value]; by rewrite startswith_app.
  - bool_prop. by apply int_reads_back.
  - apply str_reads_back.
  - rename x into items. apply map_res_Forall2 in E.
    assert (Forall2 reads_back l items) as Hitems.
    { clear Hplain. revert items E. induction IH as [|v l Hv _ IHl]; intros items E;
        inversion E; subst; constructor; inversion H0; subst; eauto. }
    split; [done|]. intros n rest Hn _. destruct n as [|n]; [simpl in Hn; lia|].
    rewrite !length_append in Hn. simpl String.length in Hn.
    destruct (decide (l = [])) as [->|Hne]; [by inversion Hitems; subst|].
    destruct (elements_read_back l items Hitems Hne) as [Hhead Hparse].
    rewrite !append_assoc, parse_list by (by apply head_append). apply Hparse. lia.
  - rename x into pairs. apply map_res_Forall2 in E.
    rename H0 into Hnd, H1 into Hsorted, H2 into Hall, kvs0 into kvs.
    assert (Forall2 (λ kv p, kv.1 = p.1 ∧ reads_back kv.2 p.2) kvs pairs) as Hmembers.
    { clear Hplain Hnd Hsorted. revert pairs E.
      induction kvs as [|[k v] kvs IHkvs]; intros pairs E; inversion E; subst; constructor;
        [|by inversion IH; inversion Hall; subst; eauto].
      inversion IH; inversion Hall; subst. simpl in *. res_inv. subst. simpl. eauto. }
    assert (order_by (λ p, codes p.1) pairs = pairs) as ->.
    { assert (pairs.*1 = kvs.*1) as Hkeys by
        (clear -Hmembers; induction Hmembers as [|[] [] ? ? [? _]]; simplify_eq/=; congruence).
      apply (order_by_prefix fst); by rewrite Hkeys. }
    split; [done|]. intros n rest Hn _. destruct n as [|n]; [simpl in Hn; lia|].
    rewrite !length_append in Hn. simpl String.length in Hn.
    destruct (decide (kvs = [])) as [->|Hne]; [by inversion Hmembers; subst|].
    destruct (members_read_back kvs pairs Hmembers Hne) as [Hhead Hparse].
    rewrite !append_assoc, parse_object by (by apply head_append).
    apply Hparse; [unfold member; lia|done|done].
Qed.

(** What [json.dumps] wrote, [json.loads] reads back. *)
Lemma json_loads_dumps v t : json_plain v → json_dumps v = Ok t → json_loads t = Ok v.
Proof.
  intros Hplain Ht. destruct (dumps_reads_back v t Hplain Ht) as [Hhead Hparse].
  unfold json_loads. rewrite skip_ws_head by done.
  specialize (Hparse (S (String.length t)) "" ltac:(lia) ltac:(done)).
  assert (t +:+ "" = t) as E by (clear; induction t as [|a t IH]; [done|by rewrite append_cons, IH]).
  rewrite E in Hparse. by rewrite Hparse.
Qed.

(** A dictionary comes back in the order of its keys. *)
Lemma order_by_unique {A} (key : A → string) (l l' : list A) :
  l ≡ₚ l' → NoDup (key <$> l) →
  order_by (λ a, codes (key a)) l = order_by (λ a, codes (key a)) l'.
Proof.
  intros Hperm Hnd.
  assert (order_by (λ a, codes (key a)) l' ≡ₚ l) as Hl' by (by rewrite order_by_Permutation).
  apply (StronglySorted_unique_strong (key_le (λ a, codes (key a))));
    [|apply order_by_sorted..|by rewrite order_by_Permutation, Hl'].
  intros a b Ha Hb Hab Hba. rewrite order_by_Permutation in Ha. rewrite Hl' in Hb.
  assert (key a = key b) as Hkey by (by apply codes_inj, zlex_antisymm).
  apply list_elem_of_lookup in Ha as [i Hi], Hb as [j Hj].
  assert (i = j) as ->; [|by simplify_eq].
  eapply (NoDup_lookup (key <$> l)); [done|rewrite list_lookup_fmap, Hi; simpl; done|].
  by rewrite list_lookup_fmap, Hj, Hkey.
Qed.
Lemma Forall2_permuted {A B} (P : A → B → Prop) l l' k :
  l ≡ₚ l' → Forall2 P l k → ∃ k', k ≡ₚ k' ∧ Forall2 P l' k'.
Proof.
  intros Hperm. revert k. induction Hperm as [|x l l' _ IH|x y l|l1 l2 l3 _ IH1 _ IH2]; intros k Hk.
  - exists k. inversion Hk. subst. by split.
  - inversion Hk as [|? b ? k0 Hb Hk0]; subst. destruct (IH k0 Hk0) as (k' & Hperm & Hk').
    exists (b :: k'). split; [by constructor|by constructor].
  - inversion Hk as [|? b ? k0 Hb Hk0]; subst. inversion Hk0 as [|? c ? k1 Hc Hk1]; subst.
    exists (c :: b :: k1). split; [by constructor|by repeat constructor].
  - destruct (IH1 k Hk) as (k' & Hp & Hk'). destruct (IH2 k' Hk') as (k'' & Hp' & Hk'').
    exists k''. split; [by etrans|done].
Qed.
Lemma json_loads_dict (kvs : list (string * value)) t :
  NoDup kvs.*1 → Forall (λ kv, json_plain kv.2) kvs →
  json_dumps (VMap (prod_map VStr id <$> kvs)) = Ok t →
  json_loads t = Ok (VMap (prod_map VStr id <$> order_by (λ p, codes p.1) kvs)).
Proof.
  intros Hnd Hplain Ht. set (kvs' := order_by (λ p, codes p.1) kvs).
  assert (kvs' ≡ₚ kvs) as Hperm by apply order_by_Permutation.
  apply json_loads_dumps.
  - constructor; [by rewrite Hperm| |by rewrite Hperm].
    apply (StronglySorted_unique_strong (key_le codes)); [|apply order_by_sorted| |apply order_by_Permutation].
    + intros a b _ _ Hab Hba. by apply codes_inj, zlex_antisymm.
    + pose proof (order_by_sorted (λ p : string * value, codes p.1) kvs) as Hs. fold kvs' in Hs.
      clear -Hs. induction Hs as [|p l _ IH Hall]; [constructor|].
      rewrite fmap_cons. constructor; [exact IH|].
      rewrite Forall_fmap. exact Hall.
  - cbn [json_dumps] in Ht |- *. res_inv. rename x into pairs, E into Hpairs. subst t.
    apply map_res_Forall2 in Hpairs.
    assert (pairs.*1 = kvs.*1) as Hkeys.
    { clear -Hpairs. revert pairs Hpairs. induction kvs as [|[k v] kvs IH]; intros pairs Hpairs;
        inversion Hpairs; subst; [done|]. simpl in *. res_inv. subst. simpl. f_equal. by apply IH. }
    destruct (Forall2_permuted _ _ (prod_map VStr id <$> kvs') _ ltac:(by rewrite Hperm) Hpairs)
      as (pairs' & Hperm' & Hpairs'). apply map_res_Forall2 in Hpairs'. rewrite Hpairs'.
    cbn [mbind res_bind mret res_ret]. do 4 f_equal.
    rewrite (order_by_unique fst pairs pairs'); [done|done|by rewrite Hkeys].
Qed.
End round_trip.

(** ** UTF-8 *)

(** [text.encode("utf-8")] *)
Fixpoint utf8 (s : string) : bytes :=
  match s with
  | EmptyString => EmptyString
  | String a s' =>
      if code a <? 128 then String a (utf8 s')
      else String (chr (192 + code a / 64)) (String (chr (128 + code a mod 64)) (utf8 s'))
  end.
(** [raw.decode("utf-8")], [None] for a UnicodeDecodeError; a character beyond U+00FF is
    outside of the model and counts as one *)
Fixpoint utf8_decode (raw : bytes) : option string :=
  match raw with
  | EmptyString => Some EmptyString
  | String a rest =>
      if code a <? 128 then String a <$> utf8_decode rest
      else if (194 <=? code a) && (code a <=? 195) then
        match rest with
        | EmptyString => None
        | String b rest =>
            if (128 <=? code b) && (code b <? 192)
            then String (chr ((code a - 192) * 64 + (code b - 128))) <$> utf8_decode rest
            else None
        end
      else None
  end.
Lemma code_chr n : 0 ≤ n < 256 → code (chr n) = n.
Proof.
  intros Hn. unfold code, chr. rewrite N_ascii_embedding; [apply Z2N.id|]; lia.
Qed.
Lemma utf8_decode_utf8 s : utf8_decode (utf8 s) = Some s.
Proof.
  induction s as [|a s IH]; [done|]. simpl. pose proof (code_bounds a).
  destruct (code a <? 128) eqn:Ha; cbn [utf8_decode]; [by rewrite Ha, IH|]. apply Z.ltb_ge in Ha.
  assert (2 ≤ code a / 64 ≤ 3) by (split; [apply Z.div_le_lower_bound|apply Z.lt_succ_r, Z.div_lt_upper_bound]; lia).
  pose proof (Z.mod_pos_bound (code a) 64 ltac:(lia)).
  rewrite !code_chr by lia.
  destruct (192 + code a / 64 <? 128) eqn:E1; [lia|].
  destruct ((194 <=? 192 + code a / 64) && (192 + code a / 64 <=? 195)) eqn:E2;
    [|apply andb_false_iff in E2 as [?%Z.leb_gt|?%Z.leb_gt]; lia].
  destruct ((128 <=? 128 + code a mod 64) && (128 + code a mod 64 <? 192)) eqn:E3;
    [|apply andb_false_iff in E3 as [?%Z.leb_gt|?%Z.ltb_ge]; lia].
  rewrite IH. cbn. do 2 f_equal.
  replace ((192 + code a / 64 - 192) * 64 + (128 + code a mod 64 - 128)) with (code a)
    by (pose proof (Z.div_mod (code a) 64); lia).
  apply chr_code.
Qed.

(** [int(str(z))] *)
Lemma digits_nonspace p :
  str_forall (λ a, negb (is_space a)) (NilEmpty.string_of_uint (Pos.to_uint p)) = true.
Proof. induction (Pos.to_uint p); simpl; done. Qed.
Lemma int_of_str_of_Z z : len (str_of_Z (Z.abs z)) ≤ 4300 → int_of_str (str_of_Z z) = Some z.
Proof.
  destruct z as [|p|p]; intros Hlen; [done|..].
  - pose proof (int_digits_pos p Hlen) as Hd. rewrite str_of_pos. unfold int_of_str.
    rewrite strip_nonspace by apply digits_nonspace.
    destruct (int_head (Zpos p)) as (c & s & E & Hc). rewrite str_of_pos in E. rewrite E in Hd |- *.
    destruct (code c =? 45) eqn:E1.
    { apply Z.eqb_eq in E1. cbn [int_digits] in Hd. destruct c as [[] [] [] [] [] [] [] []]; discriminate. }
    destruct (code c =? 43) eqn:E2; [|exact Hd].
    apply Z.eqb_eq in E2. cbn [int_digits] in Hd. destruct c as [[] [] [] [] [] [] [] []]; discriminate.
  - pose proof (int_digits_pos p Hlen) as Hd. rewrite str_of_neg. unfold int_of_str.
    rewrite strip_nonspace by exact (digits_nonspace p).
    rewrite append_cons. simpl (code "-" =? 45). cbv iota. change ("" +:+ ?s) with s. by rewrite Hd.
Qed.

(** ** Sizes of JSON texts *)

Lemma len_append s t : len (s +:+ t) = len s + len t.
Proof. unfold len. rewrite length_append. lia. Qed.
Lemma len_cons a s : len (String a s) = 1 + len s.
Proof. unfold len. simpl. lia. Qed.
Lemma utf8_append s t : utf8 (s +:+ t) = utf8 s +:+ utf8 t.
Proof.
  induction s as [|a s IH]; [done|]. rewrite append_cons. cbn [utf8]. rewrite IH. by case_match.
Qed.
Lemma utf8_length s : len (utf8 s) ≤ 2 * len s.
Proof.
  induction s as [|a s IH]; [done|]. cbn [utf8]. case_match; rewrite !len_cons; lia.
Qed.
(** What a part of a text takes on the wire *)
Definition wire (s : string) : Z := len (utf8 s).
Lemma wire_append s t : wire (s +:+ t) = wire s + wire t.
Proof. unfold wire. by rewrite utf8_append, len_append. Qed.
Lemma wire_nonneg s : 0 ≤ wire s.
Proof. unfold wire, len. lia. Qed.
Lemma wire_length s : wire s ≤ 2 * len s.
Proof. apply utf8_length. Qed.
Lemma wire_escape a : wire (json_escape a) ≤ 6.
Proof. destruct a as [[] [] [] [] [] [] [] []]; vm_compute; discriminate. Qed.
Lemma wire_json_str s : wire (json_str s) ≤ 6 * len s + 2.
Proof.
  unfold json_str.
  change (wire (String quote (json_chars s +:+ String quote "")) ≤ 6 * len s + 2).
  assert (wire (json_chars s) ≤ 6 * len s) as Hchars.
  { induction s as [|a s IH]; [done|]. cbn [json_chars]. rewrite wire_append, len_cons.
    pose proof (wire_escape a). lia. }
  change (String quote (json_chars s +:+ String quote "")) with
    (String quote "" +:+ (json_chars s +:+ String quote "")).
  rewrite !wire_append. change (wire (String quote "")) with 1. lia.
Qed.
(** The alphabet of base64 takes one byte each. *)
Definition plain_char (a : ascii) : bool := wire (json_escape a) =? 1.
Lemma wire_plain s : str_forall plain_char s = true → wire (json_str s) = len s + 2.
Proof.
  intros Hs. unfold json_str.
  change (String quote (json_chars s +:+ String quote "")) with
    (String quote "" +:+ (json_chars s +:+ String quote "")).
  rewrite !wire_append. change (wire (String quote "")) with 1.
  assert (wire (json_chars s) = len s) as ->; [|lia].
  induction s as [|a s IH]; [done|]. cbn [json_chars]. simpl in Hs. apply andb_true_iff in Hs as [Ha Hs].
  rewrite wire_append, len_cons, IH by done. apply Z.eqb_eq in Ha. lia.
Qed.
Lemma b64_char_plain n : 0 ≤ n < 64 → plain_char (b64_char n) = true.
Proof.
  intros Hn.
  assert (forallb (λ k, plain_char (b64_char (Z.of_nat k))) (seq 0 64) = true) as Hall
    by (vm_compute; reflexivity).
  rewrite forallb_forall in Hall. specialize (Hall (Z.to_nat n)).
  rewrite Z2Nat.id in Hall by lia. apply Hall, in_seq. lia.
Qed.
Lemma b64e_plain raw : str_forall plain_char (b64e raw) = true.
Proof.
  induction raw as [|a|a b|a b c s IH] using bytes_ind3; cbn [b64e str_forall];
    rewrite ?b64_char_plain by div_lia; [done..|]. by rewrite IH.
Qed.
Lemma b64e_length raw : 3 * len (b64e raw) ≤ 4 * len raw + 4.
Proof.
  induction raw as [|a|a b|a b c s IH] using bytes_ind3; cbn [b64e]; rewrite ?len_cons;
    change (len "") with 0; lia.
Qed.
Lemma wire_join ts : wire (join "," ts) ≤ foldr (λ t n, wire t + 1 + n) 0 ts.
Proof.
  induction ts as [|t ts IH]; [done|]. destruct (decide (ts = [])) as [->|Hne].
  - simpl. pose proof (wire_nonneg t). change (join "," [t]) with t. lia.
  - rewrite join_cons, !wire_append by done. simpl. change (wire ",") with 1. lia.
Qed.
