(* ===== verification/Locator.v ===== *)
(** Transport addresses (src/anet/locator.py): parsing, the context a scoped address
    is usable in, and the order in which addresses are tried.  The URL parser of the
    standard library is a parameter ([Urllib]). *)
From S2P Require Import Prelude PyStr PyVal.

(** [urllib.parse.urlsplit(raw)]: the attributes the source reads; [port] raises when
    the text of the port is not a number in range. *)
Record split_result := SplitResult {
  u_scheme : string;
  u_hostname : option string;
  u_port : res (option Z);
  u_username : option string;
  u_password : option string;
  u_path : string;
  u_query : string;
  u_fragment : string;
}.
(** [urlsplit], and [parse_qsl] with [keep_blank_values] and [strict_parsing] *)
Class Urllib := {
  urlsplit : string → res split_result;
  parse_qsl : string → res (list (string * string));
}.

Definition zone_char (a : ascii) : bool := is_alnum a || one_of "_-" a.
Definition _ZONE_RE : string → bool := fullmatch zone_char zone_char 7 63.
Definition _SCOPES : list string := ["host"; "lan"; "wan"].
(** [_SCOPE_ORDER[scope]] *)
Definition _SCOPE_ORDER (scope : string) : res Z :=
  if String.eqb scope "host" then Ok 0 else if String.eqb scope "lan" then Ok 1
  else if String.eqb scope "legacy" then Ok 2 else if String.eqb scope "wan" then Ok 3
  else Err (KeyError scope).

Record Locator := {
  raw : string;
  host : string;
  port : Z;
  scope : string;
  zone : string;
  priority : Z;
}.
Definition scoped (scope : string) : bool := String.eqb scope "host" || String.eqb scope "lan".
Definition context (l : Locator) : string :=
  if scoped (scope l) then scope l +:+ ":" +:+ zone l else "".
Definition is_usable (contexts : list string) (l : Locator) : bool :=
  String.eqb (context l) "" || bool_decide (context l ∈ contexts).

(** [value.split(":", 1)] into two parts *)
Fixpoint split_colon (s : string) : option (string * string) :=
  match s with
  | EmptyString => None
  | String a s' =>
      if code a =? 58 then Some (EmptyString, s')
      else p ← split_colon s'; Some (String a p.1, p.2)
  end.
Definition validate_locator_context (value : string) : res string :=
  parts ← of_option (ValueError "locator context must be host:<zone> or lan:<zone>")
            (split_colon (strip value));
  raise_if (negb (scoped parts.1) || negb (_ZONE_RE parts.2))
    (ValueError "locator context must use host/lan and an 8-64 character opaque zone");;
  mret (parts.1 +:+ ":" +:+ parts.2).

Section locator.
Context {UL : Urllib}.

(** The query parameters as a dictionary without duplicates *)
Fixpoint locator_values (values : list (string * string)) (pairs : list (string * string))
    : res (list (string * string)) :=
  match pairs with
  | [] => mret values
  | (key, value) :: pairs' =>
      raise_if (negb (bool_decide (key ∈ ["scope"; "zone"; "priority"])))
        (ValueError ("unsupported locator parameter: " +:+ key));;
      raise_if (bool_decide (key ∈ values.*1))
        (ValueError ("duplicate locator parameter: " +:+ key));;
      locator_values (values ++ [(key, value)]) pairs'
  end.
(** [values.get(key, default)] *)
Definition value_of (key default : string) (values : list (string * string)) : string :=
  match List.find (λ kv, String.eqb key kv.1) values with Some kv => kv.2 | None => default end.

Definition parse_locator (address : string) : res Locator :=
  let raw := strip address in
  parsed ← urlsplit raw;
  raise_if (negb (bool_decide (u_scheme parsed ∈ ["tls"; "tcp+tls"])))
    (ValueError ("unsupported transport address: " +:+ address));;
  hostname ← match u_hostname parsed with
             | Some h => if String.eqb h "" then Err (ValueError "address must include host and port")
                         else Ok h
             | None => Err (ValueError "address must include host and port")
             end;
  port ← match u_port parsed with
         | Err (ValueError _) => Err (ValueError "address contains an invalid port")
         | r => r
         end;
  port ← of_option (ValueError "address must include host and port") port;
  raise_if (negb ((1 <=? port) && (port <=? 65535)))
    (ValueError "address must include host and port");;
  raise_if (bool_decide (is_Some (u_username parsed)) || bool_decide (is_Some (u_password parsed)))
    (ValueError "transport address must not contain credentials");;
  raise_if (negb (bool_decide (u_path parsed ∈ [""; "/"])) || negb (String.eqb (u_fragment parsed) ""))
    (ValueError "transport address must not contain a path or fragment");;
  pairs ← parse_qsl (u_query parsed);
  values ← locator_values [] pairs;
  match values with
  | [] => mret {| raw := raw; host := hostname; port := port; scope := "legacy"; zone := "";
                  priority := 100 |}
  | _ =>
      let scope := value_of "scope" "" values in
      let zone := value_of "zone" "" values in
      raise_if (negb (bool_decide (scope ∈ _SCOPES)))
        (ValueError "scoped locator requires scope=host, lan, or wan");;
      (if scoped scope then
         raise_if (negb (_ZONE_RE zone))
           (ValueError "host/lan locator requires an 8-64 character opaque zone")
       else raise_if (negb (String.eqb zone "")) (ValueError "wan locator must not include a zone"));;
      priority ← of_option (ValueError "locator priority must be an integer")
                   (int_of_str (value_of "priority" "100" values));
      raise_if (negb ((0 <=? priority) && (priority <=? 10000)))
        (ValueError "locator priority must be between 0 and 10000");;
      mret {| raw := raw; host := hostname; port := port; scope := scope; zone := zone;
              priority := priority |}
  end.

(** The sort key [(priority, _SCOPE_ORDER[scope], raw)] *)
Definition locator_key (l : Locator) : res (list Z) :=
  order ← _SCOPE_ORDER (scope l);
  mret (priority l :: order :: codes (raw l)).
Fixpoint parse_all (addresses : list string) : res (list Locator) :=
  match addresses with
  | [] => mret []
  | a :: rest => l ← parse_locator a; ls ← parse_all rest; mret (l :: ls)
  end.
Fixpoint keyed (ls : list Locator) : res (list (list Z * Locator)) :=
  match ls with
  | [] => mret []
  | l :: rest => k ← locator_key l; ks ← keyed rest; mret ((k, l) :: ks)
  end.
Definition usable_locators (addresses : list string) (contexts : list string) : res (list Locator) :=
  parsed ← parse_all addresses;
  keys ← keyed (filter (λ l, is_usable contexts l = true) parsed);
  mret (snd <$> order_by fst keys).
End locator.

(** ** Lemmas *)

Section locator_lemmas.
Context {UL : Urllib}.

(** What every parsed locator satisfies. *)
Record locator_ok (l : Locator) : Prop := {
  lo_port : 1 ≤ port l ≤ 65535;
  lo_priority : 0 ≤ priority l ≤ 10000;
  lo_scope : scope l ∈ ["legacy"; "host"; "lan"; "wan"];
  lo_zone : if scoped (scope l) then _ZONE_RE (zone l) = true else zone l = "";
}.
Lemma parse_locator_ok address l : parse_locator address = Ok l → locator_ok l.
Proof.
  unfold parse_locator. intros H. res_inv. bool_prop.
  match goal with H : match ?values with _ => _ end = Ok l |- _ => rename H into Hl; destruct values end.
  - apply Ok_inj in Hl. subst l. split; simpl; [lia|lia| |done]. by left.
  - res_inv. subst l. bool_prop. split; cbn [port priority scope zone]; [lia|lia| |].
    + right. match goal with H : _ ∈ _SCOPES |- _ => exact H end.
    + match goal with H : (if ?b then _ else _) = Ok _ |- _ => destruct b end; res_inv; by bool_prop.
Qed.
Lemma parse_all_ok addresses parsed : parse_all addresses = Ok parsed → Forall locator_ok parsed.
Proof.
  revert parsed. induction addresses as [|a addresses IH]; intros parsed H; simpl in H; res_inv;
    subst; constructor; eauto using parse_locator_ok.
Qed.
Lemma keyed_ok ls : Forall locator_ok ls → ∃ ks, keyed ls = Ok ks ∧ snd <$> ks = ls ∧
  Forall (λ kl, locator_key kl.2 = Ok kl.1) ks.
Proof.
  induction 1 as [|l ls Hl _ (ks & IH & Hks & Hall)]; [by exists []|].
  assert (∃ k, locator_key l = Ok k) as [k Hk].
  { unfold locator_key. pose proof (lo_scope l Hl) as Hscope. revert Hscope. generalize (scope l).
    intros s Hs. repeat (apply elem_of_cons in Hs as [->|Hs]; [by eexists|]).
    by apply elem_of_nil in Hs. }
  exists ((k, l) :: ks). cbn [keyed]. rewrite Hk, IH. split; [done|]. split; [by rewrite fmap_cons, Hks|].
  by constructor.
Qed.

(** A parsed locator's context is one that a node may be configured with. *)
Lemma context_valid l : locator_ok l → scoped (scope l) = true →
  validate_locator_context (context l) = Ok (context l).
Proof.
  intros Hl Hscoped. pose proof (lo_zone l Hl) as Hzone. unfold context, validate_locator_context.
  rewrite Hscoped in *.
  assert (str_forall zone_char (zone l) = true) as Hchars.
  { unfold _ZONE_RE, fullmatch in Hzone. destruct (zone l) as [|a z]; [done|].
    bool_prop. simpl. by apply andb_true_iff. }
  assert (str_forall (λ a, negb (is_space a)) (zone l) = true) as Hspace.
  { eapply str_forall_impl; [|exact Hchars]. intros a. apply implb_true_iff.
    exact (all_chars_sound (λ a, implb (zone_char a) (negb (is_space a))) eq_refl a). }
  apply orb_true_iff in Hscoped as [H|H]; bool_prop; rewrite H;
    rewrite strip_nonspace by (by rewrite !str_forall_app, Hspace).
  - change (split_colon _) with (Some ("host", zone l)). cbn [of_option mbind res_bind fst snd].
    by rewrite Hzone.
  - change (split_colon _) with (Some ("lan", zone l)). cbn [of_option mbind res_bind fst snd].
    by rewrite Hzone.
Qed.

(** Whenever all addresses parse, the usable ones are exactly those with no context
    or with one the node has, in the order of priority, then scope, then text; every
    one of them has a port and a priority in range, a zone exactly when its scope needs
    one, and a context that the configuration accepts as it is. *)
Theorem usable_locators_exact addresses contexts parsed :
  parse_all addresses = Ok parsed →
  ∃ ks, usable_locators addresses contexts = Ok (snd <$> ks) ∧
    snd <$> ks ≡ₚ filter (λ l, is_usable contexts l = true) parsed ∧
    StronglySorted (key_le fst) ks ∧ Forall (λ kl, locator_key kl.2 = Ok kl.1) ks ∧
    Forall (λ l, locator_ok l ∧ (scoped (scope l) = true →
      validate_locator_context (context l) = Ok (context l) ∧ context l ∈ contexts)) (snd <$> ks).
Proof.
  intros Hparsed. pose proof (parse_all_ok _ _ Hparsed) as Hok.
  unfold usable_locators. rewrite Hparsed. cbn [mbind res_bind].
  set (usable := filter (λ l, is_usable contexts l = true) parsed).
  assert (Forall locator_ok usable) as Husable by (rewrite Forall_forall in Hok |- *; intros l [_ Hl]%list_elem_of_filter; by apply Hok).
  destruct (keyed_ok usable Husable) as (ks & -> & Hks & Hkeys).
  assert (snd <$> order_by fst ks ≡ₚ usable) as Hperm by (by rewrite order_by_Permutation, Hks).
  exists (order_by fst ks). split_and!.
  - done.
  - exact Hperm.
  - apply order_by_sorted.
  - by rewrite order_by_Permutation.
  - rewrite Hperm. apply Forall_forall. intros l Hl.
    pose proof (proj1 (Forall_forall _ _) Husable l Hl) as Hlok. split; [done|].
    intros Hscoped. split; [by apply context_valid|].
    apply list_elem_of_filter in Hl as [Hu _]. unfold is_usable, context in *. rewrite Hscoped in *.
    apply orb_true_iff in Hu as [Hu|Hu]; bool_prop; [|done]. by destruct (scope l).
Qed.
End locator_lemmas.

(** ** A concrete parser of the URLs in the witness *)
Definition lan_url : string := "tls://10.0.0.1:7443?scope=lan&zone=home_zone_1&priority=5".
Definition wan_url : string := "tls://example.org:443?scope=wan".
Definition sample_urls : Urllib := {|
  urlsplit := λ s,
    if String.eqb s lan_url then
      Ok (SplitResult "tls" (Some "10.0.0.1") (Ok (Some 7443)) None None ""
            "scope=lan&zone=home_zone_1&priority=5" "")
    else Ok (SplitResult "tls" (Some "example.org") (Ok (Some 443)) None None "" "scope=wan" "");
  parse_qsl := λ q,
    if String.eqb q "scope=wan" then Ok [("scope", "wan")]
    else Ok [("scope", "lan"); ("zone", "home_zone_1"); ("priority", "5")] |}.

Lemma usable_locators_exact_witness :
  match @usable_locators sample_urls [wan_url; lan_url] ["lan:home_zone_1"] with
  | Ok ls => priority <$> ls = [5; 100] ∧ Forall locator_ok ls
  | Err _ => False
  end.
Proof.
  destruct (@parse_all sample_urls [wan_url; lan_url]) as [parsed|] eqn:Hp;
    [|vm_compute in Hp; discriminate Hp].
  destruct (@usable_locators_exact sample_urls [wan_url; lan_url] ["lan:home_zone_1"] parsed Hp)
    as (ks & Hks & _ & _ & _ & Hall).
  assert (match @usable_locators sample_urls [wan_url; lan_url] ["lan:home_zone_1"] with
    | Ok ls => priority <$> ls = [5; 100] | Err _ => False end) as Hrun by (vm_compute; reflexivity).
  rewrite Hks in Hrun |- *. split; [exact Hrun|].
  eapply Forall_impl; [exact Hall|]. intros l [Hl _]. exact Hl.
Defined.
