(* ===== verification/ControlPlane.v ===== *)
(** The control plane (src/anet/control_plane.py): signed descriptors of nodes, their
    reachability, the grants and revocations a human gives the devices, the in-memory
    tracker of their revisions, and the durable store.  Ed25519 and the raw digests are
    parameters. *)
From S2P Require Import Prelude PyStr PyVal Codecs Locator.

(** [Ed25519PublicKey.from_public_bytes(public).verify(signature, message)] does not raise *)
Class Signatures := { ed25519_verify : bytes → bytes → bytes → bool }.
(** [hashlib.sha256(raw).digest()] and [hashlib.blake2s(raw, digest_size=n, person=p).digest()] *)
Class Digests := {
  sha256 : bytes → bytes;
  blake2s : Z → bytes → bytes → bytes;
}.

Definition NODE_DESCRIPTOR_VERSION : Z := 2.
Definition REACHABILITY_VERSION : Z := 1.
Definition HUMAN_DEVICE_GRANT_VERSION : Z := 1.
Definition HUMAN_DEVICE_REVOCATION_VERSION : Z := 1.
Definition NODE_DESCRIPTOR_TYPE : string := "anet.node-descriptor.v2".
Definition REACHABILITY_TYPE : string := "anet.reachability.v1".
Definition HUMAN_DEVICE_GRANT_TYPE : string := "anet.human-device-grant.v1".
Definition HUMAN_DEVICE_REVOCATION_TYPE : string := "anet.human-device-revocation.v1".
Definition GENESIS_DIGEST : bytes := zeros 32.
Definition CP_CLOCK_SKEW_MS : Z := 5 * 60 * 1000.
Definition MAX_DESCRIPTOR_TTL_MS : Z := 366 * 24 * 60 * 60 * 1000.
Definition MAX_REACHABILITY_TTL_MS : Z := 15 * 60 * 1000.
Definition MAX_HUMAN_GRANT_TTL_MS : Z := 90 * 24 * 60 * 60 * 1000.
Definition MAX_CAPABILITIES : Z := 64.
Definition MAX_CANDIDATES : Z := 16.
Definition MAX_PROTOCOL_VERSIONS : Z := 16.

(** ** Regular expressions, with [fullmatch] *)

Definition token32 (a : ascii) : bool := is_lower_az a || in_range 50 55 a.
Definition id_re (p s : string) : bool :=
  startswith p s && (String.length s =? String.length p + 32)%nat &&
  str_forall token32 (substring (String.length p) 32 s).
Definition NODE_ID_RE : string → bool := id_re "an1".
Definition HUMAN_ID_RE : string → bool := id_re "hu1".
Definition SESSION_ID_RE : string → bool := fullmatch_hex 32.
Definition TOKEN_RE : string → bool :=
  fullmatch is_alnum (λ a, is_alnum a || one_of "._+:/-" a) 0 95.
(** A word of lower-case letters and digits, then words after single separators *)
Fixpoint dotted (word : bool) (s : string) : bool :=
  match s with
  | EmptyString => word
  | String a s' =>
      if is_lower_az a || is_digit a then dotted true s'
      else word && one_of "._-" a && dotted false s'
  end.
Definition CAPABILITY_RE (s : string) : bool := head_is is_lower_az s && dotted false s.
Definition OPAQUE_RE : string → bool := fullmatch zone_char zone_char 0 127.

(** ** Field validation *)

(** [_require_exact_fields]: without optional fields, as every caller has it *)
Definition _require_exact_fields (v : value) (required : list string) : res dict :=
  match v with
  | VMap d =>
      let missing := filter (λ k, dict_has k d = false) required in
      raise_if (bool_decide (missing ≠ []))
        (ValueError ("control-plane object is missing fields: " +:+ join ", " (sorted missing)));;
      let unknown := filter (λ k, existsb (λ r, key_eqb (VStr r) k) required = false) d.*1 in
      match mapM (λ k, match k with VStr s => Some s | _ => None end) unknown with
      | Some [] => mret d
      | Some names => Err (ValueError ("control-plane object has unknown fields: " +:+
                                       join ", " (sorted names)))
      | None => Err (TypeError "sequence item: expected str instance")
      end
  | _ => Err (ValueError "control-plane object must be a map")
  end.

Definition _validate_bytes (raw : bytes) (size : Z) (name : string) : res bytes :=
  raise_if (negb (len raw =? size)) (ValueError (name +:+ " must be " +:+ str_of_Z size +:+ " bytes"));;
  mret raw.
Definition _parse_int (v : value) (name : string) : res Z :=
  match v with VInt z => mret z | _ => Err (ValueError (name +:+ " must be an integer")) end.

Definition _validate_revision (sequence : Z) (previous_digest : bytes) : res unit :=
  raise_if (sequence <? 1) (ValueError "sequence must be a positive integer");;
  _validate_bytes previous_digest 32 "previous digest";;
  raise_if ((sequence =? 1) && negb (String.eqb previous_digest GENESIS_DIGEST))
    (ValueError "genesis revision must use the genesis digest");;
  raise_if ((1 <? sequence) && String.eqb previous_digest GENESIS_DIGEST)
    (ValueError "non-genesis revision must name its predecessor").

Definition _validate_window (issued_ms expires_ms now max_ttl_ms : Z) (object_name : string)
    : res unit :=
  raise_if ((issued_ms <=? 0) || (expires_ms <=? issued_ms))
    (ValueError ("invalid " +:+ object_name +:+ " validity window"));;
  raise_if (max_ttl_ms <? expires_ms - issued_ms)
    (ValueError (object_name +:+ " validity window is too long"));;
  raise_if (now + CP_CLOCK_SKEW_MS <? issued_ms)
    (ValueError (object_name +:+ " was issued too far in the future"));;
  raise_if (expires_ms <=? now) (ValueError (object_name +:+ " has expired")).

Definition _validate_node_id (node_id : string) : res string :=
  raise_if (negb (NODE_ID_RE node_id)) (ValueError "invalid Anet node id");; mret node_id.
Definition _validate_human_id (human_id : string) : res string :=
  raise_if (negb (HUMAN_ID_RE human_id)) (ValueError "invalid Anet human id");; mret human_id.
Definition _validate_label (label : string) : res string :=
  raise_if ((64 <? len label) || negb (str_forall (λ a, 32 <=? code a) label))
    (ValueError "invalid node label");;
  mret label.

(** [tuple(sorted(set(values)))] *)
Definition sorted_set (values : list string) : list string := sorted (remove_dups values).
Definition _validate_capabilities (values : list string) (allow_empty : bool) : res (list string) :=
  raise_if ((bool_decide (values = []) && negb allow_empty) ||
            (MAX_CAPABILITIES <? Z.of_nat (length values)))
    (ValueError "capability set has an invalid size");;
  raise_if (bool_decide (values ≠ sorted_set values))
    (ValueError "capabilities must be unique and sorted");;
  raise_if (negb (forallb CAPABILITY_RE values)) (ValueError "invalid capability token");;
  mret values.
Definition _validate_protocol_versions (values : list string) : res (list string) :=
  raise_if (bool_decide (values = []) || (MAX_PROTOCOL_VERSIONS <? Z.of_nat (length values)))
    (ValueError "protocol version set must be non-empty and bounded");;
  raise_if (bool_decide (values ≠ sorted_set values))
    (ValueError "protocol versions must be unique and sorted");;
  raise_if (negb (forallb TOKEN_RE values)) (ValueError "invalid protocol version");;
  mret values.

(** ** Ids and keys *)

Section ids.
Context {DG : Digests}.

(** [derive_node_id] of src/anet/identity.py *)
Definition derive_node_id (sign_public box_public : bytes) : string :=
  "an1" +:+ b32_token (blake2s 20 "ainet-id" (sign_public +:+ box_public)).
Definition derive_human_id (sign_public : bytes) : res string :=
  raw ← _validate_bytes sign_public 32 "human signing public key";
  mret ("hu1" +:+ b32_token (blake2s 20 "anet-hum" raw)).
End ids.

(** The keys of a node ([Identity]) and of a human ([HumanPrincipalIdentity]): the
    public halves, and signing with the private one. *)
Record Identity := {
  i_sign_public : bytes;
  i_box_public : bytes;
  i_label : string;
  i_sign : bytes → bytes;
}.
Record HumanPrincipalIdentity := {
  h_sign_public : bytes;
  h_sign : bytes → bytes;
}.

(** ** Signed objects *)

Record NodeDescriptor := {
  d_node_id : string;
  d_sign_public : bytes;
  d_box_public : bytes;
  d_label : string;
  d_capabilities : list string;
  d_sequence : Z;
  d_previous_digest : bytes;
  d_issued_ms : Z;
  d_expires_ms : Z;
  d_signature : bytes;
  d_version : Z;
  d_object_type : string;
}.
Record ReachabilityRecord := {
  r_node_id : string;
  r_descriptor_digest : bytes;
  r_session_id : string;
  r_protocol_versions : list string;
  r_candidates : list string;
  r_relay_reservation : string;
  r_capability_digest : bytes;
  r_sequence : Z;
  r_previous_digest : bytes;
  r_issued_ms : Z;
  r_expires_ms : Z;
  r_signature : bytes;
  r_version : Z;
  r_object_type : string;
}.
Record HumanDeviceGrant := {
  g_human_id : string;
  g_human_sign_public : bytes;
  g_device_node_id : string;
  g_descriptor_digest : bytes;
  g_capabilities : list string;
  g_sequence : Z;
  g_previous_digest : bytes;
  g_issued_ms : Z;
  g_expires_ms : Z;
  g_signature : bytes;
  g_version : Z;
  g_object_type : string;
}.
Record HumanDeviceRevocation := {
  v_human_id : string;
  v_human_sign_public : bytes;
  v_device_node_id : string;
  v_descriptor_digest : bytes;
  v_sequence : Z;
  v_previous_digest : bytes;
  v_revoked_ms : Z;
  v_reason_code : string;
  v_signature : bytes;
  v_version : Z;
  v_object_type : string;
}.

(** The same object with another signature: [Cls( **{ **unsigned.__dict__, "signature": s})] *)
Definition sign_descriptor (signature : bytes) (d : NodeDescriptor) : NodeDescriptor :=
  {| d_node_id := d_node_id d; d_sign_public := d_sign_public d; d_box_public := d_box_public d;
     d_label := d_label d; d_capabilities := d_capabilities d; d_sequence := d_sequence d;
     d_previous_digest := d_previous_digest d; d_issued_ms := d_issued_ms d;
     d_expires_ms := d_expires_ms d; d_signature := signature; d_version := d_version d;
     d_object_type := d_object_type d |}.
Definition sign_reachability (signature : bytes) (r : ReachabilityRecord) : ReachabilityRecord :=
  {| r_node_id := r_node_id r; r_descriptor_digest := r_descriptor_digest r;
     r_session_id := r_session_id r; r_protocol_versions := r_protocol_versions r;
     r_candidates := r_candidates r; r_relay_reservation := r_relay_reservation r;
     r_capability_digest := r_capability_digest r; r_sequence := r_sequence r;
     r_previous_digest := r_previous_digest r; r_issued_ms := r_issued_ms r;
     r_expires_ms := r_expires_ms r; r_signature := signature; r_version := r_version r;
     r_object_type := r_object_type r |}.
Definition sign_grant (signature : bytes) (g : HumanDeviceGrant) : HumanDeviceGrant :=
  {| g_human_id := g_human_id g; g_human_sign_public := g_human_sign_public g;
     g_device_node_id := g_device_node_id g; g_descriptor_digest := g_descriptor_digest g;
     g_capabilities := g_capabilities g; g_sequence := g_sequence g;
     g_previous_digest := g_previous_digest g; g_issued_ms := g_issued_ms g;
     g_expires_ms := g_expires_ms g; g_signature := signature; g_version := g_version g;
     g_object_type := g_object_type g |}.
Definition sign_revocation (signature : bytes) (v : HumanDeviceRevocation) : HumanDeviceRevocation :=
  {| v_human_id := v_human_id v; v_human_sign_public := v_human_sign_public v;
     v_device_node_id := v_device_node_id v; v_descriptor_digest := v_descriptor_digest v;
     v_sequence := v_sequence v; v_previous_digest := v_previous_digest v;
     v_revoked_ms := v_revoked_ms v; v_reason_code := v_reason_code v;
     v_signature := signature; v_version := v_version v; v_object_type := v_object_type v |}.

Section objects.
Context {PL : Platform} {DG : Digests} {SG : Signatures} {UL : Urllib}.

(** [signing_fields()] of the four objects *)
Definition strings (l : list string) : value := VList (VStr <$> l).
Definition descriptor_fields (d : NodeDescriptor) : list value :=
  [VInt (d_version d); VStr (d_object_type d); VStr (d_node_id d); VBytes (d_sign_public d);
   VBytes (d_box_public d); VStr (d_label d); strings (d_capabilities d); VInt (d_sequence d);
   VBytes (d_previous_digest d); VInt (d_issued_ms d); VInt (d_expires_ms d)].
Definition reachability_fields (r : ReachabilityRecord) : list value :=
  [VInt (r_version r); VStr (r_object_type r); VStr (r_node_id r); VBytes (r_descriptor_digest r);
   VStr (r_session_id r); strings (r_protocol_versions r); strings (r_candidates r);
   VStr (r_relay_reservation r); VBytes (r_capability_digest r); VInt (r_sequence r);
   VBytes (r_previous_digest r); VInt (r_issued_ms r); VInt (r_expires_ms r)].
Definition grant_fields (g : HumanDeviceGrant) : list value :=
  [VInt (g_version g); VStr (g_object_type g); VStr (g_human_id g); VBytes (g_human_sign_public g);
   VStr (g_device_node_id g); VBytes (g_descriptor_digest g); strings (g_capabilities g);
   VInt (g_sequence g); VBytes (g_previous_digest g); VInt (g_issued_ms g); VInt (g_expires_ms g)].
Definition revocation_fields (v : HumanDeviceRevocation) : list value :=
  [VInt (v_version v); VStr (v_object_type v); VStr (v_human_id v); VBytes (v_human_sign_public v);
   VStr (v_device_node_id v); VBytes (v_descriptor_digest v); VInt (v_sequence v);
   VBytes (v_previous_digest v); VInt (v_revoked_ms v); VStr (v_reason_code v)].

Definition _object_digest (fields : list value) (signature : bytes) : res bytes :=
  packed ← canonical_pack (VList (fields ++ [VBytes signature])); mret (sha256 packed).
Definition descriptor_digest (d : NodeDescriptor) : res bytes :=
  _object_digest (descriptor_fields d) (d_signature d).
Definition reachability_digest (r : ReachabilityRecord) : res bytes :=
  _object_digest (reachability_fields r) (r_signature r).
Definition grant_digest (g : HumanDeviceGrant) : res bytes :=
  _object_digest (grant_fields g) (g_signature g).
Definition revocation_digest (v : HumanDeviceRevocation) : res bytes :=
  _object_digest (revocation_fields v) (v_signature v).

(** [Ed25519PublicKey.from_public_bytes(public).verify(signature, canonical_pack(fields))] *)
Definition verify_signature (public signature : bytes) (fields : list value) : res unit :=
  packed ← canonical_pack (VList fields);
  raise_if (negb (ed25519_verify public signature packed)) InvalidSignature.

Definition verify_descriptor (now : Z) (d : NodeDescriptor) : res unit :=
  raise_if (negb (d_version d =? NODE_DESCRIPTOR_VERSION) ||
            negb (String.eqb (d_object_type d) NODE_DESCRIPTOR_TYPE))
    (ValueError "unsupported node descriptor");;
  _validate_node_id (d_node_id d);;
  _validate_bytes (d_sign_public d) 32 "node signing public key";;
  _validate_bytes (d_box_public d) 32 "node box public key";;
  raise_if (negb (String.eqb (d_node_id d) (derive_node_id (d_sign_public d) (d_box_public d))))
    (ValueError "node descriptor id does not match public keys");;
  _validate_label (d_label d);;
  _validate_capabilities (d_capabilities d) true;;
  _validate_revision (d_sequence d) (d_previous_digest d);;
  _validate_window (d_issued_ms d) (d_expires_ms d) now MAX_DESCRIPTOR_TTL_MS "node descriptor";;
  _validate_bytes (d_signature d) 64 "node descriptor signature";;
  verify_signature (d_sign_public d) (d_signature d) (descriptor_fields d).

(** [self.descriptor_digest != descriptor.digest] *)
Definition stale_digest (own : bytes) (d : NodeDescriptor) : res bool :=
  digest ← descriptor_digest d; mret (negb (String.eqb own digest)).

Definition _validate_candidates (values : list string) : res (list string) :=
  raise_if (MAX_CANDIDATES <? Z.of_nat (length values))
    (ValueError "too many reachability candidates");;
  raise_if (bool_decide (values ≠ sorted_set values))
    (ValueError "reachability candidates must be unique and sorted");;
  parse_all values;;
  mret values.

Definition verify_reachability (now : Z) (r : ReachabilityRecord) (d : NodeDescriptor) : res unit :=
  raise_if (negb (r_version r =? REACHABILITY_VERSION) ||
            negb (String.eqb (r_object_type r) REACHABILITY_TYPE))
    (ValueError "unsupported reachability record");;
  verify_descriptor now d;;
  _validate_node_id (r_node_id r);;
  raise_if (negb (String.eqb (r_node_id r) (d_node_id d)))
    (ValueError "reachability record belongs to another node");;
  _validate_bytes (r_descriptor_digest r) 32 "descriptor digest";;
  stale ← stale_digest (r_descriptor_digest r) d;
  raise_if (stale : bool) (ValueError "reachability record uses a stale descriptor");;
  raise_if (negb (SESSION_ID_RE (r_session_id r))) (ValueError "invalid reachability session id");;
  _validate_protocol_versions (r_protocol_versions r);;
  _validate_candidates (r_candidates r);;
  raise_if (negb (String.eqb (r_relay_reservation r) "") && negb (OPAQUE_RE (r_relay_reservation r)))
    (ValueError "invalid relay reservation");;
  _validate_bytes (r_capability_digest r) 32 "capability digest";;
  _validate_revision (r_sequence r) (r_previous_digest r);;
  _validate_window (r_issued_ms r) (r_expires_ms r) now MAX_REACHABILITY_TTL_MS
    "reachability record";;
  _validate_bytes (r_signature r) 64 "reachability signature";;
  verify_signature (d_sign_public d) (r_signature r) (reachability_fields r).

(** What a grant and a revocation say about the human and the device *)
Definition verify_human (human_id : string) (public : bytes) (d : NodeDescriptor) : res unit :=
  _validate_human_id human_id;;
  _validate_bytes public 32 "human signing public key";;
  derived ← derive_human_id public;
  raise_if (negb (String.eqb human_id derived)) (ValueError "human id does not match its public key");;
  raise_if (String.eqb public (d_sign_public d))
    (ValueError "human and device signing identities must be separate").

Definition verify_grant (now : Z) (g : HumanDeviceGrant) (d : NodeDescriptor) : res unit :=
  raise_if (negb (g_version g =? HUMAN_DEVICE_GRANT_VERSION) ||
            negb (String.eqb (g_object_type g) HUMAN_DEVICE_GRANT_TYPE))
    (ValueError "unsupported human device grant");;
  verify_descriptor now d;;
  verify_human (g_human_id g) (g_human_sign_public g) d;;
  _validate_node_id (g_device_node_id g);;
  raise_if (negb (String.eqb (g_device_node_id g) (d_node_id d)))
    (ValueError "human grant belongs to another device");;
  _validate_bytes (g_descriptor_digest g) 32 "descriptor digest";;
  stale ← stale_digest (g_descriptor_digest g) d;
  raise_if (stale : bool) (ValueError "human grant uses a stale device descriptor");;
  _validate_capabilities (g_capabilities g) false;;
  _validate_revision (g_sequence g) (g_previous_digest g);;
  _validate_window (g_issued_ms g) (g_expires_ms g) now MAX_HUMAN_GRANT_TTL_MS
    "human device grant";;
  _validate_bytes (g_signature g) 64 "human device grant signature";;
  verify_signature (g_human_sign_public g) (g_signature g) (grant_fields g).

Definition verify_revocation (now : Z) (v : HumanDeviceRevocation) (d : NodeDescriptor) : res unit :=
  raise_if (negb (v_version v =? HUMAN_DEVICE_REVOCATION_VERSION) ||
            negb (String.eqb (v_object_type v) HUMAN_DEVICE_REVOCATION_TYPE))
    (ValueError "unsupported human device revocation");;
  verify_descriptor now d;;
  verify_human (v_human_id v) (v_human_sign_public v) d;;
  raise_if (negb (String.eqb (v_device_node_id v) (d_node_id d)))
    (ValueError "human revocation belongs to another device");;
  _validate_bytes (v_descriptor_digest v) 32 "descriptor digest";;
  stale ← stale_digest (v_descriptor_digest v) d;
  raise_if (stale : bool) (ValueError "human revocation uses a stale device descriptor");;
  _validate_revision (v_sequence v) (v_previous_digest v);;
  raise_if ((v_revoked_ms v <=? 0) || (now + CP_CLOCK_SKEW_MS <? v_revoked_ms v))
    (ValueError "invalid human device revocation time");;
  raise_if (negb (TOKEN_RE (v_reason_code v)))
    (ValueError "invalid human device revocation reason");;
  _validate_bytes (v_signature v) 64 "human device revocation signature";;
  verify_signature (v_human_sign_public v) (v_signature v) (revocation_fields v).
End objects.

(** ** As dictionaries *)

Section dictionaries.
Context {PL : Platform} {DG : Digests} {SG : Signatures} {UL : Urllib}.

Definition bytes_field (k : string) (raw : bytes) : value * value := field k (VStr (b64e raw)).
Definition descriptor_to_dict (d : NodeDescriptor) : dict :=
  [field "version" (VInt (d_version d)); field "object_type" (VStr (d_object_type d));
   field "node_id" (VStr (d_node_id d)); bytes_field "sign_public" (d_sign_public d);
   bytes_field "box_public" (d_box_public d); field "label" (VStr (d_label d));
   field "capabilities" (strings (d_capabilities d)); field "sequence" (VInt (d_sequence d));
   bytes_field "previous_digest" (d_previous_digest d); field "issued_ms" (VInt (d_issued_ms d));
   field "expires_ms" (VInt (d_expires_ms d)); bytes_field "signature" (d_signature d)].
Definition reachability_to_dict (r : ReachabilityRecord) : dict :=
  [field "version" (VInt (r_version r)); field "object_type" (VStr (r_object_type r));
   field "node_id" (VStr (r_node_id r)); bytes_field "descriptor_digest" (r_descriptor_digest r);
   field "session_id" (VStr (r_session_id r));
   field "protocol_versions" (strings (r_protocol_versions r));
   field "candidates" (strings (r_candidates r));
   field "relay_reservation" (VStr (r_relay_reservation r));
   bytes_field "capability_digest" (r_capability_digest r); field "sequence" (VInt (r_sequence r));
   bytes_field "previous_digest" (r_previous_digest r); field "issued_ms" (VInt (r_issued_ms r));
   field "expires_ms" (VInt (r_expires_ms r)); bytes_field "signature" (r_signature r)].
Definition grant_to_dict (g : HumanDeviceGrant) : dict :=
  [field "version" (VInt (g_version g)); field "object_type" (VStr (g_object_type g));
   field "human_id" (VStr (g_human_id g)); bytes_field "human_sign_public" (g_human_sign_public g);
   field "device_node_id" (VStr (g_device_node_id g));
   bytes_field "descriptor_digest" (g_descriptor_digest g);
   field "capabilities" (strings (g_capabilities g)); field "sequence" (VInt (g_sequence g));
   bytes_field "previous_digest" (g_previous_digest g); field "issued_ms" (VInt (g_issued_ms g));
   field "expires_ms" (VInt (g_expires_ms g)); bytes_field "signature" (g_signature g)].
Definition revocation_to_dict (v : HumanDeviceRevocation) : dict :=
  [field "version" (VInt (v_version v)); field "object_type" (VStr (v_object_type v));
   field "human_id" (VStr (v_human_id v)); bytes_field "human_sign_public" (v_human_sign_public v);
   field "device_node_id" (VStr (v_device_node_id v));
   bytes_field "descriptor_digest" (v_descriptor_digest v); field "sequence" (VInt (v_sequence v));
   bytes_field "previous_digest" (v_previous_digest v); field "revoked_ms" (VInt (v_revoked_ms v));
   field "reason_code" (VStr (v_reason_code v)); bytes_field "signature" (v_signature v)].

(** Reading a field: every exception of the decoder becomes a ValueError. *)
Definition _decode_bytes (text : value) (size : Z) (name : string) : res bytes :=
  raw ← match b64d (py_str text) with Ok raw => Ok raw | Err _ => Err (ValueError ("invalid " +:+ name)) end;
  _validate_bytes raw size name.
Definition bytes_at (k : string) (d : dict) (size : Z) (name : string) : res bytes :=
  _decode_bytes (dict_get k d) size name.
Definition int_at (k : string) (d : dict) (name : string) : res Z := _parse_int (dict_get k d) name.
Definition text_at (k : string) (d : dict) : string := py_str (dict_get k d).
Definition list_at (k : string) (d : dict) (error : string) : res (list string) :=
  match dict_get k d with VList l => mret (py_str <$> l) | _ => Err (ValueError error) end.

Definition descriptor_keys : list string :=
  ["version"; "object_type"; "node_id"; "sign_public"; "box_public"; "label"; "capabilities";
   "sequence"; "previous_digest"; "issued_ms"; "expires_ms"; "signature"].
Definition descriptor_from_dict (now : Z) (v : value) : res NodeDescriptor :=
  d ← _require_exact_fields v descriptor_keys;
  capabilities ← list_at "capabilities" d "node descriptor capabilities must be a list";
  version ← int_at "version" d "node descriptor version";
  sign_public ← bytes_at "sign_public" d 32 "node signing public key";
  box_public ← bytes_at "box_public" d 32 "node box public key";
  sequence ← int_at "sequence" d "node descriptor sequence";
  previous_digest ← bytes_at "previous_digest" d 32 "previous digest";
  issued_ms ← int_at "issued_ms" d "node descriptor issued time";
  expires_ms ← int_at "expires_ms" d "node descriptor expiry time";
  signature ← bytes_at "signature" d 64 "node descriptor signature";
  let descriptor :=
    {| d_node_id := text_at "node_id" d; d_sign_public := sign_public; d_box_public := box_public;
       d_label := text_at "label" d; d_capabilities := capabilities; d_sequence := sequence;
       d_previous_digest := previous_digest; d_issued_ms := issued_ms; d_expires_ms := expires_ms;
       d_signature := signature; d_version := version; d_object_type := text_at "object_type" d |} in
  verify_descriptor now descriptor;;
  mret descriptor.

Definition reachability_keys : list string :=
  ["version"; "object_type"; "node_id"; "descriptor_digest"; "session_id"; "protocol_versions";
   "candidates"; "relay_reservation"; "capability_digest"; "sequence"; "previous_digest";
   "issued_ms"; "expires_ms"; "signature"].
Definition reachability_from_dict (now : Z) (v : value) (descriptor : NodeDescriptor)
    : res ReachabilityRecord :=
  d ← _require_exact_fields v reachability_keys;
  protocols ← list_at "protocol_versions" d "reachability protocols and candidates must be lists";
  candidates ← list_at "candidates" d "reachability protocols and candidates must be lists";
  version ← int_at "version" d "reachability version";
  descriptor_digest ← bytes_at "descriptor_digest" d 32 "descriptor digest";
  capability_digest ← bytes_at "capability_digest" d 32 "capability digest";
  sequence ← int_at "sequence" d "reachability sequence";
  previous_digest ← bytes_at "previous_digest" d 32 "previous digest";
  issued_ms ← int_at "issued_ms" d "reachability issued time";
  expires_ms ← int_at "expires_ms" d "reachability expiry time";
  signature ← bytes_at "signature" d 64 "reachability signature";
  let record :=
    {| r_node_id := text_at "node_id" d; r_descriptor_digest := descriptor_digest;
       r_session_id := text_at "session_id" d; r_protocol_versions := protocols;
       r_candidates := candidates; r_relay_reservation := text_at "relay_reservation" d;
       r_capability_digest := capability_digest; r_sequence := sequence;
       r_previous_digest := previous_digest; r_issued_ms := issued_ms; r_expires_ms := expires_ms;
       r_signature := signature; r_version := version; r_object_type := text_at "object_type" d |} in
  verify_reachability now record descriptor;;
  mret record.

Definition grant_keys : list string :=
  ["version"; "object_type"; "human_id"; "human_sign_public"; "device_node_id";
   "descriptor_digest"; "capabilities"; "sequence"; "previous_digest"; "issued_ms"; "expires_ms";
   "signature"].
Definition grant_from_dict (now : Z) (v : value) (descriptor : NodeDescriptor) : res HumanDeviceGrant :=
  d ← _require_exact_fields v grant_keys;
  capabilities ← list_at "capabilities" d "human device capabilities must be a list";
  version ← int_at "version" d "human device grant version";
  human_sign_public ← bytes_at "human_sign_public" d 32 "human signing public key";
  descriptor_digest ← bytes_at "descriptor_digest" d 32 "descriptor digest";
  sequence ← int_at "sequence" d "human device grant sequence";
  previous_digest ← bytes_at "previous_digest" d 32 "previous digest";
  issued_ms ← int_at "issued_ms" d "human device grant issued time";
  expires_ms ← int_at "expires_ms" d "human device grant expiry time";
  signature ← bytes_at "signature" d 64 "human device grant signature";
  let grant :=
    {| g_human_id := text_at "human_id" d; g_human_sign_public := human_sign_public;
       g_device_node_id := text_at "device_node_id" d; g_descriptor_digest := descriptor_digest;
       g_capabilities := capabilities; g_sequence := sequence;
       g_previous_digest := previous_digest; g_issued_ms := issued_ms; g_expires_ms := expires_ms;
       g_signature := signature; g_version := version; g_object_type := text_at "object_type" d |} in
  verify_grant now grant descriptor;;
  mret grant.

Definition revocation_keys : list string :=
  ["version"; "object_type"; "human_id"; "human_sign_public"; "device_node_id";
   "descriptor_digest"; "sequence"; "previous_digest"; "revoked_ms"; "reason_code"; "signature"].
Definition revocation_from_dict (now : Z) (v : value) (descriptor : NodeDescriptor)
    : res HumanDeviceRevocation :=
  d ← _require_exact_fields v revocation_keys;
  version ← int_at "version" d "human device revocation version";
  human_sign_public ← bytes_at "human_sign_public" d 32 "human signing public key";
  descriptor_digest ← bytes_at "descriptor_digest" d 32 "descriptor digest";
  sequence ← int_at "sequence" d "human device revocation sequence";
  previous_digest ← bytes_at "previous_digest" d 32 "previous digest";
  revoked_ms ← int_at "revoked_ms" d "human device revocation time";
  signature ← bytes_at "signature" d 64 "human device revocation signature";
  let revocation :=
    {| v_human_id := text_at "human_id" d; v_human_sign_public := human_sign_public;
       v_device_node_id := text_at "device_node_id" d; v_descriptor_digest := descriptor_digest;
       v_sequence := sequence; v_previous_digest := previous_digest; v_revoked_ms := revoked_ms;
       v_reason_code := text_at "reason_code" d; v_signature := signature; v_version := version;
       v_object_type := text_at "object_type" d |} in
  verify_revocation now revocation descriptor;;
  mret revocation.

(** ** Issuing *)

Definition issue_node_descriptor (identity : Identity) (capabilities : list string) (sequence : Z)
    (previous_digest : bytes) (issued ttl_ms : Z) : res NodeDescriptor :=
  let unsigned :=
    {| d_node_id := derive_node_id (i_sign_public identity) (i_box_public identity);
       d_sign_public := i_sign_public identity; d_box_public := i_box_public identity;
       d_label := i_label identity; d_capabilities := sorted_set capabilities;
       d_sequence := sequence; d_previous_digest := previous_digest; d_issued_ms := issued;
       d_expires_ms := issued + ttl_ms; d_signature := ""; d_version := NODE_DESCRIPTOR_VERSION;
       d_object_type := NODE_DESCRIPTOR_TYPE |} in
  packed ← canonical_pack (VList (descriptor_fields unsigned));
  let descriptor := sign_descriptor (i_sign identity packed) unsigned in
  verify_descriptor issued descriptor;;
  mret descriptor.
Definition issue_reachability_record (identity : Identity) (descriptor : NodeDescriptor)
    (protocol_versions candidates : list string) (relay_reservation : string)
    (capability_digest : bytes) (sequence : Z) (previous_digest : bytes) (session_id : string)
    (issued ttl_ms : Z) : res ReachabilityRecord :=
  raise_if (negb (String.eqb (derive_node_id (i_sign_public identity) (i_box_public identity))
                    (d_node_id descriptor)))
    (ValueError "identity does not own the node descriptor");;
  digest ← descriptor_digest descriptor;
  let unsigned :=
    {| r_node_id := derive_node_id (i_sign_public identity) (i_box_public identity);
       r_descriptor_digest := digest; r_session_id := session_id;
       r_protocol_versions := sorted_set protocol_versions; r_candidates := sorted_set candidates;
       r_relay_reservation := relay_reservation; r_capability_digest := capability_digest;
       r_sequence := sequence; r_previous_digest := previous_digest; r_issued_ms := issued;
       r_expires_ms := issued + ttl_ms; r_signature := ""; r_version := REACHABILITY_VERSION;
       r_object_type := REACHABILITY_TYPE |} in
  packed ← canonical_pack (VList (reachability_fields unsigned));
  let record := sign_reachability (i_sign identity packed) unsigned in
  verify_reachability issued record descriptor;;
  mret record.
Definition issue_human_device_grant (human : HumanPrincipalIdentity) (descriptor : NodeDescriptor)
    (capabilities : list string) (sequence : Z) (previous_digest : bytes) (issued ttl_ms : Z)
    : res HumanDeviceGrant :=
  human_id ← derive_human_id (h_sign_public human);
  digest ← descriptor_digest descriptor;
  let unsigned :=
    {| g_human_id := human_id; g_human_sign_public := h_sign_public human;
       g_device_node_id := d_node_id descriptor; g_descriptor_digest := digest;
       g_capabilities := sorted_set capabilities; g_sequence := sequence;
       g_previous_digest := previous_digest; g_issued_ms := issued; g_expires_ms := issued + ttl_ms;
       g_signature := ""; g_version := HUMAN_DEVICE_GRANT_VERSION;
       g_object_type := HUMAN_DEVICE_GRANT_TYPE |} in
  packed ← canonical_pack (VList (grant_fields unsigned));
  let grant := sign_grant (h_sign human packed) unsigned in
  verify_grant issued grant descriptor;;
  mret grant.
Definition issue_human_device_revocation (human : HumanPrincipalIdentity)
    (descriptor : NodeDescriptor) (sequence : Z) (previous_digest : bytes) (reason_code : string)
    (revoked : Z) : res HumanDeviceRevocation :=
  human_id ← derive_human_id (h_sign_public human);
  digest ← descriptor_digest descriptor;
  let unsigned :=
    {| v_human_id := human_id; v_human_sign_public := h_sign_public human;
       v_device_node_id := d_node_id descriptor; v_descriptor_digest := digest;
       v_sequence := sequence; v_previous_digest := previous_digest; v_revoked_ms := revoked;
       v_reason_code := reason_code; v_signature := "";
       v_version := HUMAN_DEVICE_REVOCATION_VERSION;
       v_object_type := HUMAN_DEVICE_REVOCATION_TYPE |} in
  packed ← canonical_pack (VList (revocation_fields unsigned));
  let event := sign_revocation (h_sign human packed) unsigned in
  verify_revocation revoked event descriptor;;
  mret event.
End dictionaries.
