(* ===== verification/ControlStore.v ===== *)
(** The revisions of the control plane (src/anet/control_plane.py): the in-memory
    [ControlPlaneRevisionTracker] and the durable [ControlPlaneStore] with its tables,
    and the proof that the store implements the tracker. *)
From S2P Require Import Prelude PyStr PyVal Codecs Locator ControlPlane.

(** ** The tracker *)

Record checkpoint := Checkpoint {
  c_sequence : Z;
  c_digest : bytes;
  c_terminal : bool;
}.
Record tracker := Tracker {
  t_descriptors : gmap string checkpoint;
  t_reachability : gmap string checkpoint;
  t_human_devices : gmap (string * string) checkpoint;
}.
Definition new_tracker : tracker := Tracker ∅ ∅ ∅.
Definition set_t_descriptors v t := Tracker v (t_reachability t) (t_human_devices t).
Definition set_t_reachability v t := Tracker (t_descriptors t) v (t_human_devices t).
Definition set_t_human_devices v t := Tracker (t_descriptors t) (t_reachability t) v.

(** The checks of [_advance] and of [_check_revision] on the current checkpoint: false
    for the revision that is already there. *)
Definition _check_revision (current : option checkpoint) (sequence : Z)
    (previous_digest digest : bytes) (forbid_after_terminal : bool) : res bool :=
  match current with
  | None =>
      raise_if (negb (sequence =? 1) || negb (String.eqb previous_digest GENESIS_DIGEST))
        (ValueError "revision chain must start at genesis");;
      mret true
  | Some c =>
      if sequence =? c_sequence c then
        raise_if (negb (String.eqb digest (c_digest c)))
          (ValueError "revision fork at the current sequence");;
        mret false
      else
        raise_if (sequence <? c_sequence c) (ValueError "stale revision");;
        raise_if (forbid_after_terminal && c_terminal c)
          (ValueError "revision chain is permanently revoked");;
        raise_if (negb (sequence =? c_sequence c + 1)) (ValueError "revision sequence gap");;
        raise_if (negb (String.eqb previous_digest (c_digest c)))
          (ValueError "revision predecessor mismatch");;
        mret true
  end.

Section advance.
Context {K : Type} `{Countable K}.
(** [_advance] on one of the tracker's dictionaries *)
Definition _advance (get : tracker → gmap K checkpoint)
    (set : gmap K checkpoint → tracker → tracker) (key : K) (sequence : Z)
    (previous_digest digest : bytes) (terminal forbid_after_terminal : bool) : ST tracker bool :=
  current ← gets (λ t, get t !! key);
  changed ← lift (_check_revision current sequence previous_digest digest forbid_after_terminal);
  if (changed : bool) then
    modify (λ t, set (<[key := Checkpoint sequence digest terminal]> (get t)) t);; mret true
  else mret false.
End advance.

Section tracker_operations.
Context {PL : Platform} {DG : Digests} {SG : Signatures} {UL : Urllib}.

Definition tracker_accept_descriptor (now : Z) (d : NodeDescriptor) : ST tracker bool :=
  lift (verify_descriptor now d);;
  digest ← lift (descriptor_digest d);
  _advance t_descriptors set_t_descriptors (d_node_id d) (d_sequence d) (d_previous_digest d)
    digest false false.
Definition tracker_require_current (d : NodeDescriptor) : ST tracker unit :=
  digest ← lift (descriptor_digest d);
  current ← gets (λ t, t_descriptors t !! d_node_id d);
  lift (raise_if (bool_decide (c_digest <$> current ≠ Some digest))
    (ValueError "object is not bound to the current node descriptor")).
Definition tracker_accept_reachability (now : Z) (r : ReachabilityRecord) (d : NodeDescriptor)
    : ST tracker bool :=
  lift (verify_reachability now r d);;
  tracker_require_current d;;
  digest ← lift (reachability_digest r);
  _advance t_reachability set_t_reachability (r_node_id r) (r_sequence r) (r_previous_digest r)
    digest false false.
Definition tracker_accept_human_grant (now : Z) (g : HumanDeviceGrant) (d : NodeDescriptor)
    : ST tracker bool :=
  lift (verify_grant now g d);;
  tracker_require_current d;;
  digest ← lift (grant_digest g);
  _advance t_human_devices set_t_human_devices (g_human_id g, g_device_node_id g) (g_sequence g)
    (g_previous_digest g) digest false true.
Definition tracker_accept_human_revocation (now : Z) (v : HumanDeviceRevocation)
    (d : NodeDescriptor) : ST tracker bool :=
  lift (verify_revocation now v d);;
  tracker_require_current d;;
  known ← gets (λ t, t_human_devices t !! (v_human_id v, v_device_node_id v));
  lift (raise_if (bool_decide (known = None))
    (ValueError "cannot revoke a device without an accepted grant"));;
  digest ← lift (revocation_digest v);
  _advance t_human_devices set_t_human_devices (v_human_id v, v_device_node_id v) (v_sequence v)
    (v_previous_digest v) digest true true.
End tracker_operations.

(** ** The tables *)

Record descriptor_row := DescriptorRow {
  dr_sequence : Z;
  dr_digest : bytes;
  dr_object_json : string;
}.
Record reachability_row := ReachabilityRow {
  rr_sequence : Z;
  rr_digest : bytes;
  rr_descriptor_digest : bytes;
  rr_expires_ms : Z;
  rr_object_json : string;
}.
Inductive event_type := Grant | Revocation.
#[global] Instance event_type_eq_dec : EqDecision event_type.
Proof. solve_decision. Defined.
Record device_row := DeviceRow {
  vr_sequence : Z;
  vr_digest : bytes;
  vr_descriptor_digest : bytes;
  vr_terminal : bool;
  vr_event_type : event_type;
  vr_object_json : string;
}.
Record control_db := ControlDb {
  control_node_descriptors : gmap string descriptor_row;
  control_reachability : gmap string reachability_row;
  control_human_devices : gmap (string * string) device_row;
}.
Definition new_control_db : control_db := ControlDb ∅ ∅ ∅.
Abbreviation CM := (ST control_db).

Definition descriptor_checkpoint (r : descriptor_row) : checkpoint :=
  Checkpoint (dr_sequence r) (dr_digest r) false.
Definition reachability_checkpoint (r : reachability_row) : checkpoint :=
  Checkpoint (rr_sequence r) (rr_digest r) false.
Definition device_checkpoint (r : device_row) : checkpoint :=
  Checkpoint (vr_sequence r) (vr_digest r) (vr_terminal r).

(** An integer bound to a statement has to fit into 64 bits, and the digest columns
    have CHECK(length(digest) = 32). *)
Definition sqlite_int (n : Z) : res unit :=
  raise_if (negb ((- 2 ^ 63 <=? n) && (n <? 2 ^ 63))) int_too_large.
Definition check_digest (raw : bytes) : res unit :=
  raise_if (negb (len raw =? 32)) IntegrityError.

Definition put_descriptor (node_id : string) (row : descriptor_row) : CM unit :=
  lift (sqlite_int (dr_sequence row));;
  lift (check_digest (dr_digest row));;
  modify (λ s, ControlDb (<[node_id := row]> (control_node_descriptors s))
                 (control_reachability s) (control_human_devices s)).
(** [FOREIGN KEY(node_id)], with foreign keys on *)
Definition known_node (node_id : string) : CM unit :=
  parent ← gets (λ s, control_node_descriptors s !! node_id);
  lift (raise_if (bool_decide (parent = None)) IntegrityError).
Definition put_reachability (node_id : string) (row : reachability_row) : CM unit :=
  lift (sqlite_int (rr_sequence row));;
  lift (sqlite_int (rr_expires_ms row));;
  lift (check_digest (rr_digest row));;
  lift (check_digest (rr_descriptor_digest row));;
  known_node node_id;;
  modify (λ s, ControlDb (control_node_descriptors s)
                 (<[node_id := row]> (control_reachability s)) (control_human_devices s)).
Definition put_device (key : string * string) (row : device_row) : CM unit :=
  lift (sqlite_int (vr_sequence row));;
  lift (check_digest (vr_digest row));;
  lift (check_digest (vr_descriptor_digest row));;
  known_node key.2;;
  modify (λ s, ControlDb (control_node_descriptors s) (control_reachability s)
                 (<[key := row]> (control_human_devices s))).

(** ** The store *)

Section store_operations.
Context {PL : Platform} {DG : Digests} {SG : Signatures} {UL : Urllib}.

Definition _json (d : dict) : res string := json_dumps (VMap d).
Definition _decoded_json (raw : string) : res value :=
  match json_loads raw with
  | Ok (VMap d) => Ok (VMap d)
  | Ok _ => Err (ValueError "corrupt control-plane object JSON")
  | Err e => Err (if decide (e = bad_json) then ValueError "corrupt control-plane object JSON" else e)
  end.

Definition accept_descriptor (now : Z) (d : NodeDescriptor) : CM bool :=
  lift (verify_descriptor now d);;
  transaction (
    current ← gets (λ s, control_node_descriptors s !! d_node_id d);
    digest ← lift (descriptor_digest d);
    changed ← lift (_check_revision (descriptor_checkpoint <$> current) (d_sequence d)
                      (d_previous_digest d) digest false);
    if (changed : bool) then
      json ← lift (_json (descriptor_to_dict d));
      put_descriptor (d_node_id d) (DescriptorRow (d_sequence d) digest json);;
      mret true
    else mret false).

Definition _require_current_descriptor (d : NodeDescriptor) : CM unit :=
  current ← gets (λ s, control_node_descriptors s !! d_node_id d);
  digest ← lift (descriptor_digest d);
  lift (raise_if (bool_decide (dr_digest <$> current ≠ Some digest))
    (ValueError "object is not bound to the current node descriptor")).

Definition accept_reachability (now : Z) (r : ReachabilityRecord) (d : NodeDescriptor) : CM bool :=
  lift (verify_reachability now r d);;
  transaction (
    _require_current_descriptor d;;
    current ← gets (λ s, control_reachability s !! r_node_id r);
    digest ← lift (reachability_digest r);
    changed ← lift (_check_revision (reachability_checkpoint <$> current) (r_sequence r)
                      (r_previous_digest r) digest false);
    if (changed : bool) then
      json ← lift (_json (reachability_to_dict r));
      put_reachability (r_node_id r)
        (ReachabilityRow (r_sequence r) digest (r_descriptor_digest r) (r_expires_ms r) json);;
      mret true
    else mret false).

Definition accept_human_grant (now : Z) (g : HumanDeviceGrant) (d : NodeDescriptor) : CM bool :=
  lift (verify_grant now g d);;
  transaction (
    _require_current_descriptor d;;
    current ← gets (λ s, control_human_devices s !! (g_human_id g, g_device_node_id g));
    digest ← lift (grant_digest g);
    changed ← lift (_check_revision (device_checkpoint <$> current) (g_sequence g)
                      (g_previous_digest g) digest true);
    if (changed : bool) then
      json ← lift (_json (grant_to_dict g));
      put_device (g_human_id g, g_device_node_id g)
        (DeviceRow (g_sequence g) digest (g_descriptor_digest g) false Grant json);;
      mret true
    else mret false).

Definition accept_human_revocation (now : Z) (v : HumanDeviceRevocation) (d : NodeDescriptor)
    : CM bool :=
  lift (verify_revocation now v d);;
  transaction (
    _require_current_descriptor d;;
    current ← gets (λ s, control_human_devices s !! (v_human_id v, v_device_node_id v));
    lift (raise_if (bool_decide (current = None))
      (ValueError "cannot revoke a device without an accepted grant"));;
    digest ← lift (revocation_digest v);
    changed ← lift (_check_revision (device_checkpoint <$> current) (v_sequence v)
                      (v_previous_digest v) digest true);
    if (changed : bool) then
      json ← lift (_json (revocation_to_dict v));
      put_device (v_human_id v, v_device_node_id v)
        (DeviceRow (v_sequence v) digest (v_descriptor_digest v) true Revocation json);;
      mret true
    else mret false).

(** *** Reading: on the database as it is *)

Definition current_descriptor (now : Z) (node_id : string) (s : control_db)
    : res (option NodeDescriptor) :=
  node_id ← _validate_node_id node_id;
  match control_node_descriptors s !! node_id with
  | None => mret None
  | Some row =>
      value ← _decoded_json (dr_object_json row);
      d ← descriptor_from_dict now value;
      mret (Some d)
  end.

Definition current_reachability (now : Z) (node_id : string) (s : control_db)
    : res (option ReachabilityRecord) :=
  descriptor ← current_descriptor now node_id s;
  match descriptor with
  | None => mret None
  | Some d =>
      match control_reachability s !! d_node_id d with
      | None => mret None
      | Some row =>
          if rr_expires_ms row <=? now then mret None
          else
            stale ← stale_digest (rr_descriptor_digest row) d;
            if (stale : bool) then mret None
            else
              value ← _decoded_json (rr_object_json row);
              r ← reachability_from_dict now value d;
              mret (Some r)
      end
  end.

Definition human_device_grant (now : Z) (human_id device_node_id : string) (s : control_db)
    : res (option HumanDeviceGrant) :=
  descriptor ← current_descriptor now device_node_id s;
  match descriptor with
  | None => mret None
  | Some d =>
      human_id ← _validate_human_id human_id;
      match control_human_devices s !! (human_id, d_node_id d) with
      | None => mret None
      | Some row =>
          if bool_decide (vr_event_type row ≠ Grant) then mret None
          else
            stale ← stale_digest (vr_descriptor_digest row) d;
            if (stale : bool) then mret None
            else
              value ← _decoded_json (vr_object_json row);
              g ← grant_from_dict now value d;
              mret (Some g)
      end
  end.

Definition is_human_device_revoked (human_id device_node_id : string) (s : control_db) : res bool :=
  human_id ← _validate_human_id human_id;
  device_node_id ← _validate_node_id device_node_id;
  mret match control_human_devices s !! (human_id, device_node_id) with
       | Some row => vr_terminal row
       | None => false
       end.
End store_operations.

(** ** The store implements the tracker *)

(** The tracker a database stands for *)
Definition tracked (s : control_db) : tracker :=
  Tracker (descriptor_checkpoint <$> control_node_descriptors s)
    (reachability_checkpoint <$> control_reachability s)
    (device_checkpoint <$> control_human_devices s).

Section refinement.
Context {PL : Platform} {DG : Digests} {SG : Signatures} {UL : Urllib}.

(** The objects a caller offers, one after the other *)
Inductive offer :=
  | OfferDescriptor (now : Z) (d : NodeDescriptor)
  | OfferReachability (now : Z) (r : ReachabilityRecord) (d : NodeDescriptor)
  | OfferGrant (now : Z) (g : HumanDeviceGrant) (d : NodeDescriptor)
  | OfferRevocation (now : Z) (v : HumanDeviceRevocation) (d : NodeDescriptor).
Definition store_accept (o : offer) : CM bool :=
  match o with
  | OfferDescriptor now d => accept_descriptor now d
  | OfferReachability now r d => accept_reachability now r d
  | OfferGrant now g d => accept_human_grant now g d
  | OfferRevocation now v d => accept_human_revocation now v d
  end.
Definition tracker_accept (o : offer) : ST tracker bool :=
  match o with
  | OfferDescriptor now d => tracker_accept_descriptor now d
  | OfferReachability now r d => tracker_accept_reachability now r d
  | OfferGrant now g d => tracker_accept_human_grant now g d
  | OfferRevocation now v d => tracker_accept_human_revocation now v d
  end.
(** The answers to a sequence of offers, and the state after it *)
Fixpoint answers {S} (accept : offer → ST S bool) (offers : list offer) (s : S)
    : list (res bool) * S :=
  match offers with
  | [] => ([], s)
  | o :: rest =>
      let '(r, s') := accept o s in
      let '(rs, s'') := answers accept rest s' in (r :: rs, s'')
  end.

(** The integers of an offer fit into an SQLite column. *)
Definition fits (n : Z) : Prop := - 2 ^ 63 ≤ n < 2 ^ 63.
Definition descriptor_ints (d : NodeDescriptor) : list Z :=
  [d_version d; d_sequence d; d_issued_ms d; d_expires_ms d].
Definition reachability_ints (r : ReachabilityRecord) : list Z :=
  [r_version r; r_sequence r; r_issued_ms r; r_expires_ms r].
Definition grant_ints (g : HumanDeviceGrant) : list Z :=
  [g_version g; g_sequence g; g_issued_ms g; g_expires_ms g].
Definition revocation_ints (v : HumanDeviceRevocation) : list Z :=
  [v_version v; v_sequence v; v_revoked_ms v].
Definition offer_ints (o : offer) : list Z :=
  match o with
  | OfferDescriptor _ d => descriptor_ints d
  | OfferReachability _ r _ => reachability_ints r
  | OfferGrant _ g _ => grant_ints g
  | OfferRevocation _ v _ => revocation_ints v
  end.
Definition offer_fits (o : offer) : Prop := Forall fits (offer_ints o).

Lemma sqlite_int_fits n : fits n → sqlite_int n = Ok tt.
Proof.
  intros [Hlo Hhi]. unfold sqlite_int.
  by rewrite (proj2 (Z.leb_le _ _) Hlo), (proj2 (Z.ltb_lt _ _) Hhi).
Qed.
Lemma check_digest_32 raw : len raw = 32 → check_digest raw = Ok tt.
Proof. intros H. unfold check_digest. by rewrite H. Qed.

(** The dictionaries of the objects are made of what JSON can print. *)
Lemma map_res_strings l : ∃ ts, map_res json_dumps (VStr <$> l) = Ok ts.
Proof. induction l as [|x l (ts & IH)]; [by eexists|]. cbn. rewrite IH. by eexists. Qed.
Lemma json_strings l : ∃ t, json_dumps (strings l) = Ok t.
Proof. cbn [json_dumps strings]. destruct (map_res_strings l) as [ts ->]. by eexists. Qed.
Lemma json_flat (d : dict) :
  Forall (λ kv, ∃ k t, kv.1 = VStr k ∧ json_dumps kv.2 = Ok t) d → ∃ t, _json d = Ok t.
Proof.
  intros Hd. unfold _json. cbn [json_dumps].
  match goal with |- context [map_res ?f d] => assert (∃ ps, map_res f d = Ok ps) as [ps ->] end;
    [|by eexists].
  induction Hd as [|[x v] d (k & t & Hk & Ht) _ (ps & IH)]; [by eexists|].
  simpl in Hk, Ht. subst x. cbn [map_res]. rewrite Ht. cbn [mbind res_bind mret res_ret].
  rewrite IH. by eexists.
Qed.
Lemma digit_limit : 2 ^ 63 < 10 ^ 4299.
Proof.
  apply (Z.lt_le_trans _ (10 ^ 20)); [reflexivity|]. apply Z.pow_le_mono_r; [reflexivity|discriminate].
Qed.
Lemma json_int n : fits n → ∃ t, json_dumps (VInt n) = Ok t.
Proof.
  intros Hn. cbn [json_dumps].
  assert (len (str_of_Z (Z.abs n)) ≤ 4300) as Hlen.
  { apply short_number. unfold fits in Hn. pose proof digit_limit as Hlimit. revert Hn Hlimit.
    generalize (10 ^ 4299). lia. }
  apply Z.ltb_ge in Hlen. rewrite Hlen. by eexists.
Qed.
Ltac json_object :=
  intros Hints; unfold descriptor_ints, reachability_ints, grant_ints, revocation_ints in Hints;
  rewrite ?Forall_cons in Hints; destruct_and? Hints;
  apply json_flat; repeat first [apply List.Forall_nil | apply List.Forall_cons];
  cbn [fst snd field bytes_field];
  first [by (do 2 eexists)
        |match goal with |- context [VInt ?n] => destruct (json_int n ltac:(assumption)) end;
         do 2 eexists; split; [reflexivity|eassumption]
        |match goal with |- context [strings ?l] => destruct (json_strings l) end;
         do 2 eexists; split; [reflexivity|eassumption]].
Lemma json_descriptor d : Forall fits (descriptor_ints d) → ∃ t, _json (descriptor_to_dict d) = Ok t.
Proof. json_object. Qed.
Lemma json_reachability r : Forall fits (reachability_ints r) → ∃ t, _json (reachability_to_dict r) = Ok t.
Proof. json_object. Qed.
Lemma json_grant g : Forall fits (grant_ints g) → ∃ t, _json (grant_to_dict g) = Ok t.
Proof. json_object. Qed.
Lemma json_revocation v : Forall fits (revocation_ints v) → ∃ t, _json (revocation_to_dict v) = Ok t.
Proof. json_object. Qed.

(** The digests are 32 bytes. *)
Lemma validate_bytes_len raw size name x : _validate_bytes raw size name = Ok x → x = raw ∧ len raw = size.
Proof. unfold _validate_bytes. intros H. res_inv. bool_prop. auto. Qed.

Context (sha256_len : ∀ x, len (sha256 x) = 32).
Lemma object_digest_len fields sig raw : _object_digest fields sig = Ok raw → len raw = 32.
Proof. unfold _object_digest. intros H. res_inv. subst. apply sha256_len. Qed.

(** [m] on the tables answers as [t] on what they stand for, and leaves what it leaves. *)
Definition implements {A} (m : CM A) (t : ST tracker A) : Prop :=
  ∀ s, (m s).1 = (t (tracked s)).1 ∧ tracked (m s).2 = (t (tracked s)).2.

Lemma implements_lift {A B} (r : res A) (m : A → CM B) (t : A → ST tracker B) :
  (∀ a, r = Ok a → implements (m a) (t a)) → implements (lift r ≫= m) (lift r ≫= t).
Proof.
  intros H s. unfold lift, mbind, ST_bind. destruct r as [a|e]; [by apply H|by split].
Qed.
(** Inside a transaction, where an exception undoes the writes *)
Lemma implements_transaction {A} (m : CM A) (t : ST tracker A) :
  (∀ s, match m s with
        | (Ok a, s') => t (tracked s) = (Ok a, tracked s')
        | (Err e, _) => t (tracked s) = (Err e, tracked s)
        end) → implements (transaction m) t.
Proof.
  intros H s. unfold transaction. specialize (H s).
  destruct (m s) as [[a|e] s']; rewrite H; by split.
Qed.

Lemma implements_descriptor now d :
  Forall fits (descriptor_ints d) →
  implements (accept_descriptor now d) (tracker_accept_descriptor now d).
Proof.
  intros Hints. pose proof (json_descriptor d Hints) as [text Htext].
  unfold descriptor_ints in Hints. rewrite ?Forall_cons in Hints. destruct_and? Hints.
  apply implements_lift. intros [] Hv. apply implements_transaction. intros s.
  unfold _advance, put_descriptor. cbv [mbind ST_bind lift gets modify mret ST_ret].
  destruct (descriptor_digest d) as [digest|e] eqn:Hdigest; [|done].
  cbn [t_descriptors tracked]. rewrite lookup_fmap.
  destruct (_check_revision _ _ _ _ _) as [[]|e]; [|done..].
  rewrite Htext. cbn [dr_sequence dr_digest].
  rewrite sqlite_int_fits, check_digest_32 by eauto using object_digest_len.
  unfold tracked, set_t_descriptors. cbn. by rewrite fmap_insert.
Qed.

(** What verification says about the device *)
Lemma verify_reachability_node now r d :
  verify_reachability now r d = Ok tt → r_node_id r = d_node_id d ∧ len (r_descriptor_digest r) = 32.
Proof.
  unfold verify_reachability. intros H. res_inv. bool_prop.
  repeat match goal with H : _validate_bytes _ _ _ = Ok _ |- _ => apply validate_bytes_len in H as [_ H] end.
  done.
Qed.
Lemma verify_grant_node now g d :
  verify_grant now g d = Ok tt → g_device_node_id g = d_node_id d ∧ len (g_descriptor_digest g) = 32.
Proof.
  unfold verify_grant. intros H. res_inv. bool_prop.
  repeat match goal with H : _validate_bytes _ _ _ = Ok _ |- _ => apply validate_bytes_len in H as [_ H] end.
  done.
Qed.
Lemma verify_revocation_node now v d :
  verify_revocation now v d = Ok tt →
  v_device_node_id v = d_node_id d ∧ len (v_descriptor_digest v) = 32.
Proof.
  unfold verify_revocation. intros H. res_inv. bool_prop.
  repeat match goal with H : _validate_bytes _ _ _ = Ok _ |- _ => apply validate_bytes_len in H as [_ H] end.
  done.
Qed.

(** The current-descriptor check, and that the node is then known *)
Lemma require_current_implements d s :
  match _require_current_descriptor d s with
  | (Ok _, s') => tracker_require_current d (tracked s) = (Ok tt, tracked s) ∧ s' = s ∧
      is_Some (control_node_descriptors s !! d_node_id d)
  | (Err e, _) => tracker_require_current d (tracked s) = (Err e, tracked s)
  end.
Proof.
  unfold _require_current_descriptor, tracker_require_current.
  cbv [mbind ST_bind lift gets]. cbn [tracked t_descriptors].
  destruct (descriptor_digest d) as [digest|e]; [|done].
  rewrite lookup_fmap. destruct (control_node_descriptors s !! d_node_id d) as [row|]; csimpl.
  - by destruct (bool_decide (Some (dr_digest row) ≠ Some digest)).
  - done.
Qed.

Lemma implements_after_current {A} d (m : CM A) (t : ST tracker A) :
  (∀ s, is_Some (control_node_descriptors s !! d_node_id d) →
    match m s with
    | (Ok a, s') => t (tracked s) = (Ok a, tracked s')
    | (Err e, _) => t (tracked s) = (Err e, tracked s)
    end) →
  implements (transaction (_require_current_descriptor d;; m)) (tracker_require_current d;; t).
Proof.
  intros H. apply implements_transaction. intros s. cbv [mbind ST_bind].
  pose proof (require_current_implements d s) as Hcur.
  destruct (_require_current_descriptor d s) as [[u|e] s1]; [|by rewrite Hcur].
  destruct Hcur as (-> & -> & Hknown). by apply H.
Qed.
Lemma known_node_ok node s :
  is_Some (control_node_descriptors s !! node) → known_node node s = (Ok tt, s).
Proof.
  intros [row Hrow]. unfold known_node. cbv [mbind ST_bind lift gets]. by rewrite Hrow.
Qed.

Lemma implements_reachability now r d :
  Forall fits (reachability_ints r) →
  implements (accept_reachability now r d) (tracker_accept_reachability now r d).
Proof.
  intros Hints. pose proof (json_reachability r Hints) as [text Htext].
  unfold reachability_ints in Hints. rewrite ?Forall_cons in Hints. destruct_and? Hints.
  apply implements_lift. intros [] [Hnode Hlen]%verify_reachability_node.
  apply implements_after_current. intros s Hknown.
  unfold _advance, put_reachability. cbv [mbind ST_bind lift gets modify mret ST_ret].
  destruct (reachability_digest r) as [digest|e] eqn:Hdigest; [|done].
  cbn [t_reachability tracked]. rewrite lookup_fmap.
  destruct (_check_revision _ _ _ _ _) as [[]|e]; [|done..].
  rewrite Htext.
  cbn [rr_sequence rr_digest rr_expires_ms rr_descriptor_digest].
  rewrite !sqlite_int_fits, !check_digest_32 by eauto using object_digest_len.
  rewrite Hnode, known_node_ok by done.
  unfold tracked, set_t_reachability. cbn. by rewrite fmap_insert.
Qed.
Lemma implements_grant now g d :
  Forall fits (grant_ints g) →
  implements (accept_human_grant now g d) (tracker_accept_human_grant now g d).
Proof.
  intros Hints. pose proof (json_grant g Hints) as [text Htext].
  unfold grant_ints in Hints. rewrite ?Forall_cons in Hints. destruct_and? Hints.
  apply implements_lift. intros [] [Hnode Hlen]%verify_grant_node.
  apply implements_after_current. intros s Hknown.
  unfold _advance, put_device. cbv [mbind ST_bind lift gets modify mret ST_ret].
  destruct (grant_digest g) as [digest|e] eqn:Hdigest; [|done].
  cbn [t_human_devices tracked]. rewrite lookup_fmap.
  destruct (_check_revision _ _ _ _ _) as [[]|e]; [|done..].
  rewrite Htext.
  cbn [vr_sequence vr_digest vr_descriptor_digest].
  rewrite !sqlite_int_fits, !check_digest_32 by eauto using object_digest_len.
  cbn [snd]. rewrite Hnode, known_node_ok by done.
  unfold tracked, set_t_human_devices. cbn. by rewrite fmap_insert.
Qed.
Lemma implements_revocation now v d :
  Forall fits (revocation_ints v) →
  implements (accept_human_revocation now v d) (tracker_accept_human_revocation now v d).
Proof.
  intros Hints. pose proof (json_revocation v Hints) as [text Htext].
  unfold revocation_ints in Hints. rewrite ?Forall_cons in Hints. destruct_and? Hints.
  apply implements_lift. intros [] [Hnode Hlen]%verify_revocation_node.
  apply implements_after_current. intros s Hknown.
  unfold _advance, put_device. cbv [mbind ST_bind lift gets modify mret ST_ret].
  cbn [t_human_devices tracked]. rewrite lookup_fmap.
  destruct (control_human_devices s !! _) as [row|]; [|done].
  cbn [fmap option_fmap option_map]. rewrite !bool_decide_false by done. cbn [raise_if].
  destruct (revocation_digest v) as [digest|e] eqn:Hdigest; [|done].
  destruct (_check_revision _ _ _ _ _) as [[]|e]; [|done..].
  rewrite Htext.
  cbn [vr_sequence vr_digest vr_descriptor_digest].
  rewrite !sqlite_int_fits, !check_digest_32 by eauto using object_digest_len.
  cbn [snd]. rewrite Hnode, known_node_ok by done.
  unfold tracked, set_t_human_devices. cbn. by rewrite fmap_insert.
Qed.
Lemma implements_offer o : offer_fits o → implements (store_accept o) (tracker_accept o).
Proof.
  destruct o; intros H; [by apply implements_descriptor|by apply implements_reachability
    |by apply implements_grant|by apply implements_revocation].
Qed.

(** C32: the durable store implements the in-memory tracker: whatever objects are offered,
    one after the other, it gives the answers of the tracker, exceptions included, and
    its tables stand for the tracker's state; SHA-256 digests have 32 bytes and the
    integers fit into the columns. *)
Theorem control_store_refines_tracker offers :
  Forall offer_fits offers →
  let '(store_answers, s) := answers store_accept offers new_control_db in
  let '(tracker_answers, t) := answers tracker_accept offers new_tracker in
  store_answers = tracker_answers ∧ tracked s = t.
Proof.
  intros Hfits. assert (tracked new_control_db = new_tracker) as <- by reflexivity.
  generalize new_control_db. induction Hfits as [|o offers Ho _ IH]; intros s; [done|]. simpl.
  pose proof (implements_offer o Ho s) as [Hr Hs].
  destruct (store_accept o s) as [r s'], (tracker_accept o (tracked s)) as [r' t']. simpl in *. subst.
  specialize (IH s'). destruct (answers store_accept offers s') as [rs s''].
  destruct (answers tracker_accept offers (tracked s')) as [rs' t'']. by destruct IH as [-> ->].
Qed.
End refinement.

(** ** Revisions only move forward *)

(** A later revision of the same object, or the same one; a revoked device is final. *)
Definition descriptor_progress (r r' : descriptor_row) : Prop :=
  r' = r ∨ dr_sequence r < dr_sequence r'.
Definition reachability_progress (r r' : reachability_row) : Prop :=
  r' = r ∨ rr_sequence r < rr_sequence r'.
Definition device_progress (r r' : device_row) : Prop :=
  r' = r ∨ (vr_sequence r < vr_sequence r' ∧ vr_terminal r = false).
#[global] Instance descriptor_progress_preorder : PreOrder descriptor_progress.
Proof.
  split; [by left|]. intros a b c [->|?] [->|?]; [by left|by right..|right; lia].
Qed.
#[global] Instance reachability_progress_preorder : PreOrder reachability_progress.
Proof.
  split; [by left|]. intros a b c [->|?] [->|?]; [by left|by right..|right; lia].
Qed.
#[global] Instance device_progress_preorder : PreOrder device_progress.
Proof.
  split; [by left|]. intros a b c [->|[? ?]] [->|[? ?]]; [by left|by right..|right; split; [lia|done]].
Qed.

Record control_step (s s' : control_db) : Prop := {
  ct_descriptors : table_progress descriptor_progress (control_node_descriptors s)
    (control_node_descriptors s');
  ct_reachability : table_progress reachability_progress (control_reachability s)
    (control_reachability s');
  ct_devices : table_progress device_progress (control_human_devices s) (control_human_devices s');
}.
#[global] Instance control_step_preorder : PreOrder control_step.
Proof.
  split; [intros s; split; reflexivity|]. intros a b c [] []. split; by etrans.
Qed.

Lemma table_progress_put {K V} `{Countable K} (R : relation V) `{!PreOrder R} k v (t : gmap K V) :
  if_some (λ old, R old v) (t !! k) → table_progress R t (<[k := v]> t).
Proof.
  intros Hold k' old Hk'. destruct (decide (k = k')) as [<-|Hne].
  - rewrite Hk' in Hold. exists v. by rewrite lookup_insert_eq.
  - exists old. by rewrite lookup_insert_ne.
Qed.
Lemma check_revision_forward c sequence previous digest forbid :
  _check_revision (Some c) sequence previous digest forbid = Ok true →
  sequence = c_sequence c + 1 ∧ previous = c_digest c ∧ (forbid = true → c_terminal c = false).
Proof.
  unfold _check_revision. destruct (sequence =? c_sequence c); intros H; res_inv; [discriminate|].
  bool_prop. split_and!; [done|done|]. intros ->. by destruct (c_terminal c).
Qed.

Section control_progress.
Context {PL : Platform} {DG : Digests} {SG : Signatures} {UL : Urllib}.

(** *** What each operation does, exactly *)

Definition with_descriptors v s := ControlDb v (control_reachability s) (control_human_devices s).
Definition with_reachability v s :=
  ControlDb (control_node_descriptors s) v (control_human_devices s).
Definition with_devices v s := ControlDb (control_node_descriptors s) (control_reachability s) v.

Lemma put_descriptor_run node row s :
  put_descriptor node row s =
    (Ok tt, with_descriptors (<[node := row]> (control_node_descriptors s)) s) ∨
  ∃ e, put_descriptor node row s = (Err e, s).
Proof.
  unfold put_descriptor. cbv [mbind ST_bind lift].
  destruct (sqlite_int _) as [[]|e]; [|by eauto]. destruct (check_digest _) as [[]|e]; [|by eauto].
  by left.
Qed.
Lemma put_reachability_run node row s :
  put_reachability node row s =
    (Ok tt, with_reachability (<[node := row]> (control_reachability s)) s) ∨
  ∃ e, put_reachability node row s = (Err e, s).
Proof.
  unfold put_reachability, known_node. cbv [mbind ST_bind lift gets].
  destruct (sqlite_int (rr_sequence row)) as [[]|e]; [|by eauto].
  destruct (sqlite_int (rr_expires_ms row)) as [[]|e]; [|by eauto].
  destruct (check_digest (rr_digest row)) as [[]|e]; [|by eauto].
  destruct (check_digest (rr_descriptor_digest row)) as [[]|e]; [|by eauto].
  destruct (raise_if _ _) as [[]|e]; [by left|by eauto].
Qed.
Lemma put_device_run key row s :
  put_device key row s = (Ok tt, with_devices (<[key := row]> (control_human_devices s)) s) ∨
  ∃ e, put_device key row s = (Err e, s).
Proof.
  unfold put_device, known_node. cbv [mbind ST_bind lift gets].
  destruct (sqlite_int (vr_sequence row)) as [[]|e]; [|by eauto].
  destruct (check_digest (vr_digest row)) as [[]|e]; [|by eauto].
  destruct (check_digest (vr_descriptor_digest row)) as [[]|e]; [|by eauto].
  destruct (raise_if _ _) as [[]|e]; [by left|by eauto].
Qed.

(** The object is bound to the current descriptor. *)
Definition bound_to (d : NodeDescriptor) (s : control_db) : Prop :=
  ∃ row, control_node_descriptors s !! d_node_id d = Some row ∧
    descriptor_digest d = Ok (dr_digest row).
Lemma require_current_run d s :
  (_require_current_descriptor d s = (Ok tt, s) ∧ bound_to d s) ∨
  ∃ e, _require_current_descriptor d s = (Err e, s).
Proof.
  unfold _require_current_descriptor, bound_to. cbv [mbind ST_bind lift gets].
  destruct (descriptor_digest d) as [digest|e]; [|by eauto].
  destruct (bool_decide _) eqn:Hb; [by eauto|]. left. split; [done|].
  apply bool_decide_eq_false, dec_stable in Hb. destruct (control_node_descriptors s !! _) as [row|];
    simplify_eq/=. by exists row.
Qed.

Lemma accept_descriptor_run now d s :
  (∃ digest json, accept_descriptor now d s =
     (Ok true, with_descriptors (<[d_node_id d := DescriptorRow (d_sequence d) digest json]>
                 (control_node_descriptors s)) s) ∧
     verify_descriptor now d = Ok tt ∧ descriptor_digest d = Ok digest ∧
     _json (descriptor_to_dict d) = Ok json ∧
     _check_revision (descriptor_checkpoint <$> control_node_descriptors s !! d_node_id d)
       (d_sequence d) (d_previous_digest d) digest false = Ok true) ∨
  (∃ r, accept_descriptor now d s = (r, s) ∧ r ≠ Ok true).
Proof.
  unfold accept_descriptor, transaction. cbv [mbind ST_bind lift gets mret ST_ret].
  destruct (verify_descriptor now d) as [[]|e] eqn:?; [|by eauto].
  destruct (descriptor_digest d) as [digest|e] eqn:?; [|by eauto].
  destruct (_check_revision _ _ _ _ _) as [[]|e] eqn:?; [|by eauto..].
  destruct (_json _) as [json|e] eqn:?; [|by eauto].
  destruct (put_descriptor_run (d_node_id d) (DescriptorRow (d_sequence d) digest json) s)
    as [->|[e ->]]; [|by eauto]. left. by exists digest, json.
Qed.
Lemma accept_reachability_run now r d s :
  (∃ digest json, accept_reachability now r d s =
     (Ok true, with_reachability (<[r_node_id r := ReachabilityRow (r_sequence r) digest
                 (r_descriptor_digest r) (r_expires_ms r) json]> (control_reachability s)) s) ∧
     verify_reachability now r d = Ok tt ∧ bound_to d s ∧ reachability_digest r = Ok digest ∧
     _json (reachability_to_dict r) = Ok json ∧
     _check_revision (reachability_checkpoint <$> control_reachability s !! r_node_id r)
       (r_sequence r) (r_previous_digest r) digest false = Ok true) ∨
  (∃ x, accept_reachability now r d s = (x, s) ∧ x ≠ Ok true).
Proof.
  unfold accept_reachability, transaction. cbv [mbind ST_bind lift gets mret ST_ret].
  destruct (verify_reachability now r d) as [[]|e] eqn:?; [|by eauto].
  destruct (require_current_run d s) as [[-> Hbound]|[e ->]]; [|by eauto].
  destruct (reachability_digest r) as [digest|e] eqn:?; [|by eauto].
  destruct (_check_revision _ _ _ _ _) as [[]|e] eqn:?; [|by eauto..].
  destruct (_json _) as [json|e] eqn:?; [|by eauto].
  destruct (put_reachability_run (r_node_id r) (ReachabilityRow (r_sequence r) digest
    (r_descriptor_digest r) (r_expires_ms r) json) s) as [->|[e ->]]; [|by eauto].
  left. by exists digest, json.
Qed.
Lemma accept_human_grant_run now g d s :
  (∃ digest json, accept_human_grant now g d s =
     (Ok true, with_devices (<[(g_human_id g, g_device_node_id g) := DeviceRow (g_sequence g) digest
                 (g_descriptor_digest g) false Grant json]> (control_human_devices s)) s) ∧
     verify_grant now g d = Ok tt ∧ bound_to d s ∧ grant_digest g = Ok digest ∧
     _json (grant_to_dict g) = Ok json ∧
     _check_revision (device_checkpoint <$> control_human_devices s !! (g_human_id g, g_device_node_id g))
       (g_sequence g) (g_previous_digest g) digest true = Ok true) ∨
  (∃ x, accept_human_grant now g d s = (x, s) ∧ x ≠ Ok true).
Proof.
  unfold accept_human_grant, transaction. cbv [mbind ST_bind lift gets mret ST_ret].
  destruct (verify_grant now g d) as [[]|e] eqn:?; [|by eauto].
  destruct (require_current_run d s) as [[-> Hbound]|[e ->]]; [|by eauto].
  destruct (grant_digest g) as [digest|e] eqn:?; [|by eauto].
  destruct (_check_revision _ _ _ _ _) as [[]|e] eqn:?; [|by eauto..].
  destruct (_json _) as [json|e] eqn:?; [|by eauto].
  destruct (put_device_run (g_human_id g, g_device_node_id g) (DeviceRow (g_sequence g) digest
    (g_descriptor_digest g) false Grant json) s) as [->|[e ->]]; [|by eauto].
  left. by exists digest, json.
Qed.
Lemma accept_human_revocation_run now v d s :
  (∃ digest json, accept_human_revocation now v d s =
     (Ok true, with_devices (<[(v_human_id v, v_device_node_id v) := DeviceRow (v_sequence v) digest
                 (v_descriptor_digest v) true Revocation json]> (control_human_devices s)) s) ∧
     verify_revocation now v d = Ok tt ∧ bound_to d s ∧ revocation_digest v = Ok digest ∧
     is_Some (control_human_devices s !! (v_human_id v, v_device_node_id v)) ∧
     _json (revocation_to_dict v) = Ok json ∧
     _check_revision (device_checkpoint <$> control_human_devices s !! (v_human_id v, v_device_node_id v))
       (v_sequence v) (v_previous_digest v) digest true = Ok true) ∨
  (∃ x, accept_human_revocation now v d s = (x, s) ∧ x ≠ Ok true).
Proof.
  unfold accept_human_revocation, transaction. cbv [mbind ST_bind lift gets mret ST_ret].
  destruct (verify_revocation now v d) as [[]|e] eqn:?; [|by eauto].
  destruct (require_current_run d s) as [[-> Hbound]|[e ->]]; [|by eauto].
  destruct (control_human_devices s !! _) as [row|]; [|by eauto].
  rewrite bool_decide_false by done. cbn [raise_if].
  destruct (revocation_digest v) as [digest|e] eqn:?; [|by eauto].
  destruct (_check_revision _ _ _ _ _) as [[]|e] eqn:?; [|by eauto..].
  destruct (_json _) as [json|e] eqn:?; [|by eauto].
  destruct (put_device_run (v_human_id v, v_device_node_id v) (DeviceRow (v_sequence v) digest
    (v_descriptor_digest v) true Revocation json) s) as [->|[e ->]]; [|by eauto].
  left. by exists digest, json.
Qed.

Lemma forward_or_new {V} (cp : V → checkpoint) (old : option V) sequence previous digest forbid :
  _check_revision (cp <$> old) sequence previous digest forbid = Ok true →
  if_some (λ r, c_sequence (cp r) < sequence ∧ (forbid = true → c_terminal (cp r) = false)) old.
Proof.
  destruct old as [r|]; [|done]. intros (-> & _ & Ht)%check_revision_forward. simpl.
  split; [lia|done].
Qed.
Lemma store_accept_step o s : control_step s (store_accept o s).2.
Proof.
  destruct o as [now d|now r d|now g d|now v d]; cbn [store_accept].
  - destruct (accept_descriptor_run now d s) as [(digest & json & -> & _ & _ & _ & Hc)|(x & -> & _)];
      [|reflexivity].
    split; simpl; [|reflexivity..]. apply table_progress_put; [apply _|].
    apply forward_or_new in Hc. destruct (_ !! _) as [row|]; [|done]. right. apply Hc.
  - destruct (accept_reachability_run now r d s) as [(digest & json & -> & _ & _ & _ & _ & Hc)|(x & -> & _)];
      [|reflexivity].
    split; simpl; [reflexivity| |reflexivity]. apply table_progress_put; [apply _|].
    apply forward_or_new in Hc. destruct (_ !! _) as [row|]; [|done]. right. apply Hc.
  - destruct (accept_human_grant_run now g d s) as [(digest & json & -> & _ & _ & _ & _ & Hc)|(x & -> & _)];
      [|reflexivity].
    split; simpl; [reflexivity..|]. apply table_progress_put; [apply _|].
    apply forward_or_new in Hc. destruct (_ !! _) as [row|]; [|done]. right. simpl in *. naive_solver.
  - destruct (accept_human_revocation_run now v d s) as [(digest & json & -> & _ & _ & _ & _ & _ & Hc)|(x & -> & _)];
      [|reflexivity].
    split; simpl; [reflexivity..|]. apply table_progress_put; [apply _|].
    apply forward_or_new in Hc. destruct (_ !! _) as [row|]; [|done]. right. simpl in *. naive_solver.
Qed.
End control_progress.
