(* ===== verification/ControlReads.v ===== *)
(** What the control plane guarantees over time (src/anet/control_plane.py): accepted
    objects read back from their stored text as they were signed, revision chains do
    not fork, and a revocation of a device is permanent. *)
From S2P Require Import Prelude PyStr PyVal Codecs Locator ControlPlane ControlStore.

(** ** Reading back what was accepted *)

(** The entries of a dictionary with string keys *)
Definition str_items (d : dict) : list (string * value) :=
  List.map (λ kv, match kv.1 with VStr k => (k, kv.2) | _ => ("", kv.2) end) d.

Lemma filter_none {A} (P : A → Prop) `{!∀ x, Decision (P x)} l :
  (∀ x, x ∈ l → ¬ P x) → filter P l = [].
Proof.
  intros Hall. destruct (filter P l) as [|x l'] eqn:E; [done|].
  assert (x ∈ filter P l) as [Hx Hin]%list_elem_of_filter by (rewrite E; by left).
  by destruct (Hall x Hin).
Qed.
Lemma dict_get_item (kvs : list (string * value)) k v :
  NoDup kvs.*1 → (k, v) ∈ kvs → dict_get k (prod_map VStr id <$> kvs) = v.
Proof.
  unfold dict_get. induction kvs as [|[x w] kvs IH]; [by intros _ ?%elem_of_nil|].
  rewrite !fmap_cons. intros [Hx Hnd]%NoDup_cons Hin.
  change (dict_get_or VNone k (prod_map VStr id (x, w) :: ?d)) with
    (if String.eqb k x then w else dict_get_or VNone k d).
  apply elem_of_cons in Hin as [[= -> ->]|Hin]; [by rewrite String.eqb_refl|].
  destruct (String.eqb_spec k x) as [->|]; [|by apply IH].
  destruct Hx. exact (list_elem_of_fmap_2 fst kvs (x, v) Hin).
Qed.
Lemma dict_has_item (kvs : list (string * value)) k :
  k ∈ kvs.*1 → dict_has k (prod_map VStr id <$> kvs) = true.
Proof.
  intros ([x w] & -> & Hin)%list_elem_of_fmap. apply existsb_exists.
  exists (prod_map VStr id (x, w)). split; [|by apply key_eqb_str].
  apply list_elem_of_In. by apply list_elem_of_fmap_2.
Qed.
Lemma exact_fields_ok (kvs : list (string * value)) required :
  kvs.*1 ≡ₚ required →
  _require_exact_fields (VMap (prod_map VStr id <$> kvs)) required = Ok (prod_map VStr id <$> kvs).
Proof.
  intros Hkeys. unfold _require_exact_fields.
  assert (filter (λ k, dict_has k (prod_map VStr id <$> kvs) = false) required = []) as ->.
  { apply filter_none. intros k Hk. rewrite <- Hkeys in Hk. by rewrite dict_has_item. }
  assert (filter (λ k, existsb (λ r, key_eqb (VStr r) k) required = false)
    (prod_map VStr id <$> kvs).*1 = []) as ->; [|done].
  apply filter_none. intros k Hk. rewrite <- list_fmap_compose in Hk.
  apply list_elem_of_fmap in Hk as ([x w] & -> & Hin). apply not_false_iff_true, existsb_exists.
  exists x. split; [|by apply key_eqb_str]. apply list_elem_of_In. rewrite <- Hkeys.
  exact (list_elem_of_fmap_2 fst kvs (x, w) Hin).
Qed.

Section reading.
Context {PL : Platform} {DG : Digests} {SG : Signatures} {UL : Urllib}.

(** Text written by [_json] decodes to a dictionary with the same entries. *)
Lemma decoded_json_of (d : dict) (kvs : list (string * value)) json :
  d = prod_map VStr id <$> kvs → NoDup kvs.*1 → Forall (λ kv, json_plain kv.2) kvs →
  _json d = Ok json →
  ∃ kvs', kvs' ≡ₚ kvs ∧ _decoded_json json = Ok (VMap (prod_map VStr id <$> kvs')).
Proof.
  intros -> Hnd Hplain Hjson. eexists. split; [apply (order_by_Permutation (λ p, codes p.1))|].
  unfold _decoded_json. by rewrite (json_loads_dict _ _ Hnd Hplain Hjson).
Qed.
Lemma plain_strings l : json_plain (strings l).
Proof. constructor. apply Forall_fmap, Forall_true. intros x. constructor. Qed.

Lemma decode_bytes_b64e raw size name :
  len raw = size → _decode_bytes (VStr (b64e raw)) size name = Ok raw.
Proof.
  intros Hlen. unfold _decode_bytes. cbn [py_str]. rewrite b64d_b64e. cbn [mbind res_bind].
  unfold _validate_bytes. by rewrite Hlen, Z.eqb_refl.
Qed.
Lemma texts_of_strings (l : list string) : py_str <$> (VStr <$> l) = l.
Proof. induction l as [|x l IH]; [done|]. rewrite !fmap_cons. by rewrite IH. Qed.

(** [d] reads like the literal [kvs] of its entries: field by field, and as a whole. *)
Lemma items_read (kvs kvs' : list (string * value)) :
  NoDup kvs.*1 → kvs' ≡ₚ kvs →
  (∀ required, kvs.*1 ≡ₚ required →
     _require_exact_fields (VMap (prod_map VStr id <$> kvs')) required =
       Ok (prod_map VStr id <$> kvs')) ∧
  ∀ i k v, kvs !! i = Some (k, v) → dict_get k (prod_map VStr id <$> kvs') = v.
Proof.
  intros Hnd Hperm. split.
  - intros required Hreq. apply exact_fields_ok. by rewrite Hperm.
  - intros i k v Hi. apply dict_get_item; [by rewrite Hperm|]. rewrite Hperm.
    by eapply list_elem_of_lookup_2.
Qed.
Ltac plain_object :=
  repeat first [apply List.Forall_nil | apply List.Forall_cons];
  cbn [snd]; first [apply plain_strings | constructor].
(** Takes the text of a dictionary literal back to its entries. *)
Ltac read_back literal json :=
  set (kvs := str_items literal);
  assert (NoDup kvs.*1) as Hnd by (apply (bool_decide_eq_true_1 (NoDup kvs.*1)); vm_compute; reflexivity);
  destruct (decoded_json_of literal kvs json) as (kvs' & Hperm & ->);
  [reflexivity|exact Hnd|plain_object|assumption|];
  destruct (items_read kvs kvs' Hnd Hperm) as [Hexact Hget];
  cbn [mbind res_bind].


(** The sizes verification demands *)
Lemma validate_revision_inv sequence previous u :
  _validate_revision sequence previous = Ok u → 1 ≤ sequence ∧ len previous = 32.
Proof.
  unfold _validate_revision. intros H. res_inv. bool_prop.
  match goal with H : _validate_bytes _ _ _ = Ok _ |- _ => apply validate_bytes_len in H as [_ H] end.
  by split; [lia|].
Qed.
Ltac sizes :=
  repeat match goal with
  | H : _validate_revision _ _ = Ok _ |- _ => apply validate_revision_inv in H as [_ H]
  | H : _validate_bytes _ _ _ = Ok _ |- _ => apply validate_bytes_len in H as [_ H]
  end; by split_and!.
Lemma verify_descriptor_sizes now d u :
  verify_descriptor now d = Ok u →
  len (d_sign_public d) = 32 ∧ len (d_box_public d) = 32 ∧ len (d_previous_digest d) = 32 ∧
  len (d_signature d) = 64.
Proof. unfold verify_descriptor. intros H. res_inv. sizes. Qed.
Lemma verify_reachability_sizes now r d u :
  verify_reachability now r d = Ok u →
  len (r_descriptor_digest r) = 32 ∧ len (r_capability_digest r) = 32 ∧
  len (r_previous_digest r) = 32 ∧ len (r_signature r) = 64.
Proof. unfold verify_reachability. intros H. res_inv. sizes. Qed.
Lemma verify_grant_sizes now g d u :
  verify_grant now g d = Ok u →
  len (g_human_sign_public g) = 32 ∧ len (g_descriptor_digest g) = 32 ∧
  len (g_previous_digest g) = 32 ∧ len (g_signature g) = 64.
Proof. unfold verify_grant, verify_human. intros H. res_inv. sizes. Qed.
Lemma verify_revocation_sizes now v d u :
  verify_revocation now v d = Ok u →
  len (v_human_sign_public v) = 32 ∧ len (v_descriptor_digest v) = 32 ∧
  len (v_previous_digest v) = 32 ∧ len (v_signature v) = 64.
Proof. unfold verify_revocation, verify_human. intros H. res_inv. sizes. Qed.

Ltac read_fields Hget :=
  unfold list_at, int_at, bytes_at, text_at;
  repeat match goal with
  | |- context [dict_get ?k (prod_map VStr id <$> _)] =>
      first [rewrite (Hget 0%nat k _ eq_refl)|rewrite (Hget 1%nat k _ eq_refl)
        |rewrite (Hget 2%nat k _ eq_refl)|rewrite (Hget 3%nat k _ eq_refl)
        |rewrite (Hget 4%nat k _ eq_refl)|rewrite (Hget 5%nat k _ eq_refl)
        |rewrite (Hget 6%nat k _ eq_refl)|rewrite (Hget 7%nat k _ eq_refl)
        |rewrite (Hget 8%nat k _ eq_refl)|rewrite (Hget 9%nat k _ eq_refl)
        |rewrite (Hget 10%nat k _ eq_refl)|rewrite (Hget 11%nat k _ eq_refl)
        |rewrite (Hget 12%nat k _ eq_refl)|rewrite (Hget 13%nat k _ eq_refl)]
  end;
  cbn [field bytes_field snd _parse_int strings]; rewrite !decode_bytes_b64e by assumption;
  cbn [mbind res_bind mret res_ret py_str]; rewrite ?texts_of_strings.
(** Decoding the text of an object verifies that object, and returns it. *)
Lemma descriptor_text now now0 d json :
  verify_descriptor now0 d = Ok tt → _json (descriptor_to_dict d) = Ok json →
  (value ← _decoded_json json; descriptor_from_dict now value) =
    (verify_descriptor now d;; mret d).
Proof.
  intros Hv Hjson. destruct (verify_descriptor_sizes _ _ _ Hv) as (? & ? & ? & ?).
  read_back (descriptor_to_dict d) json. unfold descriptor_from_dict.
  rewrite Hexact by reflexivity. cbn [mbind res_bind]. read_fields Hget. by destruct d.
Qed.
Lemma reachability_text now now0 r d d0 json :
  verify_reachability now0 r d0 = Ok tt → _json (reachability_to_dict r) = Ok json →
  (value ← _decoded_json json; reachability_from_dict now value d) =
    (verify_reachability now r d;; mret r).
Proof.
  intros Hv Hjson. destruct (verify_reachability_sizes _ _ _ _ Hv) as (? & ? & ? & ?).
  read_back (reachability_to_dict r) json. unfold reachability_from_dict.
  rewrite Hexact by reflexivity. cbn [mbind res_bind]. read_fields Hget. by destruct r.
Qed.
Lemma grant_text now now0 g d d0 json :
  verify_grant now0 g d0 = Ok tt → _json (grant_to_dict g) = Ok json →
  (value ← _decoded_json json; grant_from_dict now value d) =
    (verify_grant now g d;; mret g).
Proof.
  intros Hv Hjson. destruct (verify_grant_sizes _ _ _ _ Hv) as (? & ? & ? & ?).
  read_back (grant_to_dict g) json. unfold grant_from_dict.
  rewrite Hexact by reflexivity. cbn [mbind res_bind]. read_fields Hget. by destruct g.
Qed.
Lemma revocation_text now now0 v d d0 json :
  verify_revocation now0 v d0 = Ok tt → _json (revocation_to_dict v) = Ok json →
  (value ← _decoded_json json; revocation_from_dict now value d) =
    (verify_revocation now v d;; mret v).
Proof.
  intros Hv Hjson. destruct (verify_revocation_sizes _ _ _ _ Hv) as (? & ? & ? & ?).
  read_back (revocation_to_dict v) json. unfold revocation_from_dict.
  rewrite Hexact by reflexivity. cbn [mbind res_bind]. read_fields Hget. by destruct v.
Qed.
End reading.

(** ** Guarantees *)

Section control_theorems.
Context {PL : Platform} {DG : Digests} {SG : Signatures} {UL : Urllib}.

(** Any sequence of offers, answered or refused *)
Definition control_run : relation control_db := rtc (λ s s', ∃ o, s' = (store_accept o s).2).
Lemma control_run_step s s' : control_run s s' → control_step s s'.
Proof. apply rtc_preorder; [apply _|]. intros x y [o ->]. apply store_accept_step. Qed.

Lemma verify_descriptor_node now d u :
  verify_descriptor now d = Ok u → _validate_node_id (d_node_id d) = Ok (d_node_id d).
Proof.
  unfold verify_descriptor, _validate_node_id. intros H. res_inv.
  match goal with H : negb (NODE_ID_RE _) = false |- _ => by rewrite H end.
Qed.
Lemma verify_human_id h public d u :
  verify_human h public d = Ok u → _validate_human_id h = Ok h.
Proof.
  unfold verify_human, _validate_human_id. intros H. res_inv.
  match goal with H : negb (HUMAN_ID_RE _) = false |- _ => by rewrite H end.
Qed.
Lemma verify_grant_parts now g d u :
  verify_grant now g d = Ok u →
  verify_descriptor now d = Ok tt ∧ verify_human (g_human_id g) (g_human_sign_public g) d = Ok tt ∧
  stale_digest (g_descriptor_digest g) d = Ok false.
Proof.
  unfold verify_grant. intros H. res_inv.
  repeat match goal with x : () |- _ => destruct x | x : bool |- _ => destruct x end; try done.
Qed.
Lemma verify_revocation_parts now v d u :
  verify_revocation now v d = Ok u →
  verify_descriptor now d = Ok tt ∧ verify_human (v_human_id v) (v_human_sign_public v) d = Ok tt.
Proof.
  unfold verify_revocation. intros H. res_inv.
  repeat match goal with x : () |- _ => destruct x | x : bool |- _ => destruct x end; try done.
Qed.

(** The state of a device whose revocation was accepted *)
Definition revoked_row (s : control_db) (human device : string) : Prop :=
  ∃ row, control_human_devices s !! (human, device) = Some row ∧
    vr_terminal row = true ∧ vr_event_type row = Revocation.
Lemma revocation_recorded now v d s s' :
  accept_human_revocation now v d s = (Ok true, s') →
  revoked_row s' (v_human_id v) (v_device_node_id v) ∧
  _validate_human_id (v_human_id v) = Ok (v_human_id v) ∧
  _validate_node_id (v_device_node_id v) = Ok (v_device_node_id v).
Proof.
  intros Hrun. destruct (accept_human_revocation_run now v d s) as
    [(digest & json & E & Hv & _)|(x & E & Hx)]; rewrite E in Hrun; [|by injection Hrun as ->].
  injection Hrun as <-. split.
  - eexists. simpl. by rewrite lookup_insert_eq.
  - destruct (verify_revocation_parts _ _ _ _ Hv) as [Hd Hh].
    split; [by eapply verify_human_id|].
    destruct (verify_revocation_node _ _ _ Hv) as [-> _]. by eapply verify_descriptor_node.
Qed.
Lemma revoked_forever s s' human device :
  control_run s s' → revoked_row s human device → revoked_row s' human device.
Proof.
  intros Hrun%control_run_step (row & Hrow & Hterm & Hev).
  destruct (ct_devices _ _ Hrun _ _ Hrow) as (row' & Hrow' & [->|[_ Hne]]); [|congruence].
  by exists row.
Qed.
(** What a revoked device gets from the control plane *)
Lemma revoked_reads s human device :
  revoked_row s human device →
  _validate_human_id human = Ok human → _validate_node_id device = Ok device →
  is_human_device_revoked human device s = Ok true.
Proof.
  intros (row & Hrow & Hterm & _) Hh Hn. unfold is_human_device_revoked.
  rewrite Hh, Hn. cbn [mbind res_bind]. by rewrite Hrow, Hterm.
Qed.
Lemma current_descriptor_node now node s d :
  current_descriptor now node s = Ok (Some d) → ∃ row value,
    control_node_descriptors s !! node = Some row ∧ descriptor_from_dict now value = Ok d.
Proof.
  unfold current_descriptor. intros H. res_inv.
  match goal with H : _validate_node_id _ = Ok ?x |- _ => unfold _validate_node_id in H; res_inv; subst x end.
  destruct (control_node_descriptors s !! node) as [row|]; [|discriminate]. res_inv.
  simplify_eq. by eexists row, _.
Qed.

(** *** What the tables hold *)

(** Every row is the text of an object that verified when it was accepted, under the
    key that the object names. *)
Definition descriptor_stored (node : string) (row : descriptor_row) : Prop :=
  ∃ d now, verify_descriptor now d = Ok tt ∧
    _json (descriptor_to_dict d) = Ok (dr_object_json row) ∧ d_node_id d = node.
Definition device_stored (key : string * string) (row : device_row) : Prop :=
  match vr_event_type row with
  | Grant => ∃ g d now, verify_grant now g d = Ok tt ∧
      _json (grant_to_dict g) = Ok (vr_object_json row) ∧ (g_human_id g, g_device_node_id g) = key ∧
      vr_terminal row = false
  | Revocation => vr_terminal row = true
  end.
Record control_ok (s : control_db) : Prop := {
  co_descriptors : map_Forall descriptor_stored (control_node_descriptors s);
  co_devices : map_Forall device_stored (control_human_devices s);
}.
Lemma store_accept_ok o s : control_ok s → control_ok (store_accept o s).2.
Proof.
  intros Hok. pose proof Hok as [Hd Hv]. destruct o as [now d|now r d|now g d|now v d]; cbn [store_accept].
  - destruct (accept_descriptor_run now d s) as [(digest & json & -> & ? & _ & ? & _)|(x & -> & _)];
      [|done]. split; [|done]. apply map_Forall_insert_2; [|done]. by exists d, now.
  - destruct (accept_reachability_run now r d s) as [(digest & json & -> & _)|(x & -> & _)]; done.
  - destruct (accept_human_grant_run now g d s) as [(digest & json & -> & ? & _ & _ & ? & _)|(x & -> & _)];
      [|done]. split; [done|]. apply map_Forall_insert_2; [|done]. by exists g, d, now.
  - destruct (accept_human_revocation_run now v d s) as [(digest & json & -> & _)|(x & -> & _)];
      [|done]. split; [done|]. by apply map_Forall_insert_2.
Qed.
Lemma control_run_ok s : control_run new_control_db s → control_ok s.
Proof.
  assert (control_ok new_control_db) as Hnew by (split; apply map_Forall_empty).
  unfold control_run. revert Hnew. generalize new_control_db. intros s0 H0 Hrun.
  induction Hrun as [|x y z [o ->] _ IH]; [done|]. apply IH. by apply store_accept_ok.
Qed.

(** A grant the store hands out is for the human and the device asked for, of the
    device's current descriptor, and verifies now. *)
Lemma human_device_grant_sound now human device s g :
  control_ok s → human_device_grant now human device s = Ok (Some g) →
  g_human_id g = human ∧ g_device_node_id g = device ∧
  ∃ d, current_descriptor now device s = Ok (Some d) ∧ d_node_id d = device ∧
    verify_grant now g d = Ok tt.
Proof.
  intros [Hds Hvs] H. unfold human_device_grant in H. res_inv.
  match goal with H : current_descriptor _ _ _ = Ok ?o |- _ => destruct o as [d|]; [|discriminate];
    rename H into Hcur end.
  assert (d_node_id d = device) as Hnode.
  { destruct (current_descriptor_node _ _ _ _ Hcur) as (row & value & Hrow & Hval).
    destruct (Hds _ _ Hrow) as (d' & now' & Hv' & Hjson & Hnode').
    pose proof (descriptor_text now now' d' _ Hv' Hjson) as Htext.
    unfold current_descriptor in Hcur. res_inv.
    match goal with H : _validate_node_id _ = Ok ?x |- _ => unfold _validate_node_id in H; res_inv; subst x end.
    rewrite Hrow in Hcur. res_inv. simplify_eq.
    match goal with H : _decoded_json _ = Ok _ |- _ => rewrite H in Htext end.
    match goal with H : descriptor_from_dict now ?v = Ok d |- _ => change (descriptor_from_dict now v =
      (verify_descriptor now d';; mret d')) in Htext; rewrite H in Htext end.
    symmetry in Htext. res_inv. by subst. }
  res_inv.
  match goal with H : _validate_human_id _ = Ok ?x |- _ => unfold _validate_human_id in H; res_inv; subst x end.
  destruct (control_human_devices s !! (human, d_node_id d)) as [row|] eqn:Hrow; [|discriminate].
  pose proof (Hvs _ _ Hrow) as Hstored. unfold device_stored in Hstored.
  destruct (vr_event_type row); [|discriminate]. rewrite bool_decide_false in H by (by intros []).
  destruct Hstored as (g' & d' & now' & Hv' & Hjson & Hkey & _). res_inv.
  match goal with H : (if ?b then _ else _) = Ok (Some g) |- _ => destruct b; [discriminate|] end.
  res_inv. simplify_eq.
  pose proof (grant_text now now' g' d d' _ Hv' Hjson) as Htext.
  match goal with H : _decoded_json _ = Ok _ |- _ => rewrite H in Htext end.
  match goal with H : grant_from_dict now ?v d = Ok g |- _ => change (grant_from_dict now v d =
    (verify_grant now g' d;; mret g')) in Htext; rewrite H in Htext end.
  symmetry in Htext. res_inv. subst g'.
  match goal with u : () |- _ => destruct u end. by split_and!; [..|exists d].
Qed.

(** C30: a revocation is for ever: once a human's revocation of a device was accepted,
    in every later state the device counts as revoked and no grant of it is accepted as
    new, whoever offers what. *)
Theorem revocation_permanent now v d s s1 s2 :
  accept_human_revocation now v d s = (Ok true, s1) → control_run s1 s2 →
  is_human_device_revoked (v_human_id v) (v_device_node_id v) s2 = Ok true ∧
  (∀ now' g d', g_human_id g = v_human_id v → g_device_node_id g = v_device_node_id v →
     (accept_human_grant now' g d' s2).1 ≠ Ok true ∧ (accept_human_grant now' g d' s2).2 = s2).
Proof.
  intros Hrev Hlater. destruct (revocation_recorded _ _ _ _ _ Hrev) as (Hrow & Hh & Hn).
  pose proof (revoked_forever _ _ _ _ Hlater Hrow) as Hrow2. split; [by apply revoked_reads|].
  intros now' g d' Hgh Hgn.
  destruct (accept_human_grant_run now' g d' s2) as [(digest & json & _ & _ & _ & _ & _ & Hc)|(x & -> & Hx)];
    [|by split].
  destruct Hrow2 as (row & Hrow2 & Hterm & _). rewrite Hgh, Hgn, Hrow2 in Hc.
  apply forward_or_new in Hc as [_ Hc]. simpl in Hc. rewrite Hterm in Hc. by specialize (Hc eq_refl).
Qed.

(** An accepted grant reads back as it was signed: after the device's descriptor and
    then a grant for it were accepted as new, and for as long as they verify, the store
    returns exactly that descriptor and that grant, decoded from the JSON text with its
    base64 fields, and does not count the device as revoked. *)
Theorem accepted_grant_reads_back now now1 now2 d g s s1 s2 :
  accept_descriptor now1 d s = (Ok true, s1) → accept_human_grant now2 g d s1 = (Ok true, s2) →
  verify_grant now g d = Ok tt →
  current_descriptor now (g_device_node_id g) s2 = Ok (Some d) ∧
  human_device_grant now (g_human_id g) (g_device_node_id g) s2 = Ok (Some g) ∧
  is_human_device_revoked (g_human_id g) (g_device_node_id g) s2 = Ok false.
Proof.
  intros Hd Hg Hv.
  destruct (accept_descriptor_run now1 d s) as [(digest & json & E & _ & _ & Hjson & _)|(x & E & Hx)];
    rewrite E in Hd; [|by injection Hd as ->].
  destruct (accept_human_grant_run now2 g d s1) as
    [(gdigest & gjson & E' & _ & _ & _ & Hgjson & _)|(x & E' & Hx)];
    rewrite E' in Hg; [|by injection Hg as ->].
  injection Hd as <-. injection Hg as <-. clear E E'.
  destruct (verify_grant_node _ _ _ Hv) as [Hnode _].
  destruct (verify_grant_parts _ _ _ _ Hv) as (Hvd & Hvh & Hstale).
  pose proof (verify_descriptor_node _ _ _ Hvd) as Hn. pose proof (verify_human_id _ _ _ _ Hvh) as Hh.
  pose proof (descriptor_text now now d json Hvd Hjson) as Hread.
  pose proof (grant_text now now g d d gjson Hv Hgjson) as Hgread.
  rewrite Hvd in Hread. rewrite Hv in Hgread. cbn [mbind res_bind] in Hread, Hgread.
  assert (∀ s', control_node_descriptors s' = <[d_node_id d := DescriptorRow (d_sequence d) digest json]>
    (control_node_descriptors s) → current_descriptor now (d_node_id d) s' = Ok (Some d)) as Hcurrent.
  { intros s' Hs'. unfold current_descriptor. rewrite Hn. cbn [mbind res_bind].
    rewrite Hs', lookup_insert_eq. cbn [dr_object_json].
    destruct (_decoded_json json) as [value|]; [|discriminate Hread]. cbn [mbind res_bind] in Hread |- *.
    by rewrite Hread. }
  rewrite Hnode. split_and!.
  - by apply Hcurrent.
  - unfold human_device_grant. rewrite Hcurrent by done. cbn [mbind res_bind]. rewrite Hh.
    cbn [mbind res_bind control_human_devices with_devices]. rewrite lookup_insert_eq.
    cbn [vr_event_type vr_descriptor_digest vr_object_json]. rewrite bool_decide_false by (by intros []).
    rewrite Hstale. cbn [mbind res_bind].
    destruct (_decoded_json gjson) as [value|]; [|discriminate Hgread].
    cbn [mbind res_bind] in Hgread |- *. by rewrite Hgread.
  - unfold is_human_device_revoked. rewrite Hh, Hn. cbn [mbind res_bind].
    cbn [control_human_devices with_devices]. by rewrite lookup_insert_eq.
Qed.

(** The descriptors accepted for one node form one chain: of two that were accepted
    as new, the later has the larger sequence number, and when it is the next number it
    names the digest of the earlier one; so no two descriptors share a number. *)
Theorem descriptor_chain now1 d1 now2 d2 s s1 s2 s3 :
  accept_descriptor now1 d1 s = (Ok true, s1) → control_run s1 s2 →
  accept_descriptor now2 d2 s2 = (Ok true, s3) → d_node_id d2 = d_node_id d1 →
  d_sequence d1 < d_sequence d2 ∧
  (d_sequence d2 = d_sequence d1 + 1 → descriptor_digest d1 = Ok (d_previous_digest d2)).
Proof.
  intros H1 Hrun%control_run_step H2 Hnode.
  destruct (accept_descriptor_run now1 d1 s) as [(digest & json & E & _ & Hdigest & _ & _)|(x & E & Hx)];
    rewrite E in H1; [|by injection H1 as ->]. injection H1 as <-.
  pose proof (lookup_insert_eq (control_node_descriptors s) (d_node_id d1)
    (DescriptorRow (d_sequence d1) digest json)) as Hin.
  destruct (ct_descriptors _ _ Hrun _ _ Hin) as (row & Hrow & Hprogress).
  destruct (accept_descriptor_run now2 d2 s2) as [(digest2 & json2 & E2 & _ & _ & _ & Hc)|(x & E2 & Hx)];
    rewrite E2 in H2; [|by injection H2 as ->].
  rewrite Hnode, Hrow in Hc. apply check_revision_forward in Hc as (Hseq & Hprev & _). simpl in Hseq, Hprev.
  destruct Hprogress as [->|Hlt]; simpl in *; [|split; lia].
  split; [lia|]. intros _. by rewrite Hprev.
Qed.
End control_theorems.

(** ** A concrete device *)

(** Stand-ins for the hash functions and for Ed25519, of the right sizes *)
Definition fit (n : nat) (raw : bytes) : bytes := substring 0 n (raw +:+ zeros n).
Lemma fit_len n raw : String.length (fit n raw) = n.
Proof.
  unfold fit.
  assert (∀ m s, (m ≤ String.length s)%nat → String.length (substring 0 m s) = m) as Hsub.
  { clear. intros m s. revert m. induction s as [|a s IH]; intros [|m] Hm; simpl in *; try lia.
    f_equal. apply IH. lia. }
  apply Hsub. rewrite length_append.
  assert (String.length (zeros n) = n) by (induction n; simpl; congruence). lia.
Qed.
Definition rev_string (s : string) : string :=
  string_of_list_ascii (rev (list_ascii_of_string s)).
Definition sample_digests : Digests := {|
  sha256 := λ raw, fit 32 (rev_string raw);
  blake2s := λ n person raw, fit (Z.to_nat n) (person +:+ rev_string raw) |}.
Definition sample_signatures : Signatures := {| ed25519_verify := λ _ sig _, String.prefix "s" sig |}.
Definition sample_identity : Identity := {|
  i_sign_public := fit 32 "sign"; i_box_public := fit 32 "box"; i_label := "laptop";
  i_sign := λ m, "s" +:+ fit 63 m |}.
Definition sample_human : HumanPrincipalIdentity := {|
  h_sign_public := fit 32 "human"; h_sign := λ m, "s" +:+ fit 63 m |}.
Section sample_objects.
#[local] Existing Instances sample_digests sample_signatures sample_urls.
#[local] Instance sample_plain : Platform := sample_platform [].

Definition unwrap {A} (dflt : A) (r : res A) : A := match r with Ok a => a | Err _ => dflt end.
Definition no_descriptor : NodeDescriptor :=
  {| d_node_id := ""; d_sign_public := ""; d_box_public := ""; d_label := ""; d_capabilities := [];
     d_sequence := 0; d_previous_digest := ""; d_issued_ms := 0; d_expires_ms := 0;
     d_signature := ""; d_version := 0; d_object_type := "" |}.
Definition no_grant : HumanDeviceGrant :=
  {| g_human_id := ""; g_human_sign_public := ""; g_device_node_id := ""; g_descriptor_digest := "";
     g_capabilities := []; g_sequence := 0; g_previous_digest := ""; g_issued_ms := 0;
     g_expires_ms := 0; g_signature := ""; g_version := 0; g_object_type := "" |}.
Definition no_revocation : HumanDeviceRevocation :=
  {| v_human_id := ""; v_human_sign_public := ""; v_device_node_id := ""; v_descriptor_digest := "";
     v_sequence := 0; v_previous_digest := ""; v_revoked_ms := 0; v_reason_code := "";
     v_signature := ""; v_version := 0; v_object_type := "" |}.
Definition laptop : NodeDescriptor := unwrap no_descriptor
  (issue_node_descriptor sample_identity ["chat"; "approval.sign"] 1 GENESIS_DIGEST 1000 100000).
Definition laptop_grant : HumanDeviceGrant := unwrap no_grant
  (issue_human_device_grant sample_human laptop ["approval.sign"] 1 GENESIS_DIGEST 1000 50000).
Definition laptop_revocation : HumanDeviceRevocation := unwrap no_revocation
  (digest ← grant_digest laptop_grant;
   issue_human_device_revocation sample_human laptop 2 digest "lost" 3000).
Definition laptop_update : NodeDescriptor := unwrap no_descriptor
  (digest ← descriptor_digest laptop;
   issue_node_descriptor sample_identity ["chat"] 2 digest 2000 100000).

Example laptop_life :
  let '(rs, s) := answers store_accept
    [OfferDescriptor 1500 laptop; OfferGrant 1500 laptop_grant laptop;
     OfferRevocation 3500 laptop_revocation laptop; OfferGrant 3600 laptop_grant laptop] new_control_db in
  rs = [Ok true; Ok true; Ok true; Err (ValueError "stale revision")] ∧
  is_human_device_revoked (g_human_id laptop_grant) (d_node_id laptop) s = Ok true.
Proof. vm_compute. by split. Qed.

Definition described_db : control_db := (accept_descriptor 1500 laptop new_control_db).2.
Definition granted_db : control_db := (accept_human_grant 1500 laptop_grant laptop described_db).2.
Definition revoked_db : control_db :=
  (accept_human_revocation 3500 laptop_revocation laptop granted_db).2.
Lemma described : accept_descriptor 1500 laptop new_control_db = (Ok true, described_db).
Proof. vm_compute. reflexivity. Qed.
Lemma granted : accept_human_grant 1500 laptop_grant laptop described_db = (Ok true, granted_db).
Proof. vm_compute. reflexivity. Qed.
Lemma revoked :
  accept_human_revocation 3500 laptop_revocation laptop granted_db = (Ok true, revoked_db).
Proof. vm_compute. reflexivity. Qed.
Lemma updated_descriptor :
  (accept_descriptor 2500 laptop_update granted_db).1 = Ok true.
Proof. vm_compute. reflexivity. Qed.

Lemma revocation_permanent_witness :
  is_human_device_revoked (v_human_id laptop_revocation) (v_device_node_id laptop_revocation)
    revoked_db = Ok true.
Proof. exact (proj1 (revocation_permanent _ _ _ _ _ revoked_db revoked (rtc_refl _ _))). Defined.
Lemma accepted_grant_reads_back_witness :
  human_device_grant 2000 (g_human_id laptop_grant) (g_device_node_id laptop_grant) granted_db =
    Ok (Some laptop_grant).
Proof.
  assert (verify_grant 2000 laptop_grant laptop = Ok tt) as Hv by (vm_compute; reflexivity).
  exact (proj1 (proj2 (accepted_grant_reads_back 2000 _ _ _ _ _ _ _ described granted Hv))).
Defined.
Lemma descriptor_chain_witness :
  d_sequence laptop < d_sequence laptop_update ∧
  descriptor_digest laptop = Ok (d_previous_digest laptop_update).
Proof.
  pose proof updated_descriptor as Hupdate.
  destruct (accept_descriptor 2500 laptop_update granted_db) as [r s3] eqn:E. simpl in Hupdate. subst r.
  assert (control_run described_db granted_db) as Hrun.
  { apply rtc_once. exists (OfferGrant 1500 laptop_grant laptop). cbn [store_accept]. rewrite granted. reflexivity. }
  destruct (descriptor_chain _ _ _ _ _ _ _ _ described Hrun E) as [Hlt Hnext];
    [vm_compute; reflexivity|].
  split; [exact Hlt|]. apply Hnext. vm_compute. reflexivity.
Defined.
Lemma control_store_refines_tracker_witness :
  let offers := [OfferDescriptor 1500 laptop; OfferGrant 1500 laptop_grant laptop;
                 OfferRevocation 3500 laptop_revocation laptop] in
  fst (answers store_accept offers new_control_db) = fst (answers tracker_accept offers new_tracker).
Proof.
  intros offers. assert (∀ x, len (sha256 x) = 32) as Hlen.
  { intros x. unfold len. simpl. by rewrite fit_len. }
  assert (Forall offer_fits offers) as Hfits.
  { apply (bool_decide_eq_true_1 (Forall offer_fits offers)). vm_compute. reflexivity. }
  pose proof (control_store_refines_tracker Hlen offers Hfits) as H.
  destruct (answers store_accept offers new_control_db), (answers tracker_accept offers new_tracker).
  exact (proj1 H).
Defined.
End sample_objects.
