(* ===== verification/Schema.v ===== *)
(** The SQLite database of [src/anet/store.py] (_init_schema): one record type
    per table, holding the columns other than the primary key, and one record of
    all tables.  A primary key is the key of the finite map, TEXT columns with a
    fixed vocabulary are enumerations, INTEGER flags are booleans, and a BLOB
    that may be NULL is an option.  [rowid] is SQLite's implicit row number, kept
    where a query orders or filters by it. *)
From S2P Require Import Prelude PyStr PyVal.

(** packet.py: [QOS_CLASSES] *)
Inductive qos := Control | Interactive | Normal | Bulk.
#[global] Instance qos_eq_dec : EqDecision qos.
Proof. solve_decision. Defined.

(** Table [packets], keyed by (packet_id). *)
Module Packets.
Record row := Row {
    destination_id : string;
    created_ms : Z;
    expires_ms : Z;
    max_hops : Z;
    depth : Z;
    raw : bytes;
    origin : string;
    received_from : string;
    inserted_ms : Z;
    delivered : bool;
    qos_class : qos;
  }.
Definition set_expires_ms (v : Z) (r : row) : row :=
    Row r.(destination_id) r.(created_ms) v r.(max_hops) r.(depth) r.(raw) r.(origin) r.(received_from) r.(inserted_ms) r.(delivered) r.(qos_class).
Definition set_depth (v : Z) (r : row) : row :=
    Row r.(destination_id) r.(created_ms) r.(expires_ms) r.(max_hops) v r.(raw) r.(origin) r.(received_from) r.(inserted_ms) r.(delivered) r.(qos_class).
Definition set_delivered (v : bool) (r : row) : row :=
    Row r.(destination_id) r.(created_ms) r.(expires_ms) r.(max_hops) r.(depth) r.(raw) r.(origin) r.(received_from) r.(inserted_ms) v r.(qos_class).
End Packets.

(** Table [deliveries], keyed by (packet_id, peer_id). *)
Module Deliveries.
Inductive state_t := Sent | Acked.
#[global] Instance state_eq_dec : EqDecision state_t.
  Proof. solve_decision. Defined.
Record row := Row {
    state : state_t;
    attempts : Z;
    last_attempt_ms : Z;
    last_error : string;
  }.
End Deliveries.

(** Table [inbox], keyed by (packet_id). *)
Module Inbox.
Record row := Row {
    rowid : Z;
    sender_id : string;
    kind : string;
    created_ms : Z;
    received_ms : Z;
    codec : string;
    body : bytes;
    causal : bytes;
    reply_to : string;
    trusted : bool;
    is_read : bool;
    qos_class : qos;
    visible : bool;
  }.
Definition set_trusted (v : bool) (r : row) : row :=
    Row r.(rowid) r.(sender_id) r.(kind) r.(created_ms) r.(received_ms) r.(codec) r.(body) r.(causal) r.(reply_to) v r.(is_read) r.(qos_class) r.(visible).
Definition set_is_read (v : bool) (r : row) : row :=
    Row r.(rowid) r.(sender_id) r.(kind) r.(created_ms) r.(received_ms) r.(codec) r.(body) r.(causal) r.(reply_to) r.(trusted) v r.(qos_class) r.(visible).
Definition set_visible (v : bool) (r : row) : row :=
    Row r.(rowid) r.(sender_id) r.(kind) r.(created_ms) r.(received_ms) r.(codec) r.(body) r.(causal) r.(reply_to) r.(trusted) r.(is_read) r.(qos_class) v.
End Inbox.

(** Table [consumer_groups], keyed by (group_id). *)
Module Groups.
Record row := Row {
    created_ms : Z;
    start_after_rowid : Z;
    kind_prefix : string;
    sender_id : string;
    trusted_only : bool;
    include_transient : bool;
  }.
End Groups.

(** Table [consumer_deliveries], keyed by (group_id, packet_id). *)
Module Claims.
Inductive state_t := Leased | Retry | Acked | Revoked.
#[global] Instance state_eq_dec : EqDecision state_t.
  Proof. solve_decision. Defined.
Record row := Row {
    state : state_t;
    owner : string;
    claim_token : string;
    lease_until_ms : Z;
    retry_after_ms : Z;
    attempts : Z;
    acked_ms : Z;
    last_error : string;
  }.
Definition set_lease_until_ms (v : Z) (r : row) : row :=
    Row r.(state) r.(owner) r.(claim_token) v r.(retry_after_ms) r.(attempts) r.(acked_ms) r.(last_error).
End Claims.

(** Table [agent_task_executions], keyed by (group_id, sender_id, task_id). *)
Module Executions.
Inductive state_t := Working | Canceling | Retry | Completed | Failed | Canceled | Rejected.
#[global] Instance state_eq_dec : EqDecision state_t.
  Proof. solve_decision. Defined.
Record row := Row {
    request_packet_id : string;
    request_hash : string;
    state : state_t;
    owner : string;
    claim_token : string;
    execution_token : string;
    attempts : Z;
    started_ms : Z;
    updated_ms : Z;
    completed_ms : Z;
    output : option bytes;
    error : string;
  }.
End Executions.

(** Table [agent_task_cancellations], keyed by (group_id, sender_id, task_id). *)
Module Cancels.
Inductive state_t := Requested | Applied | TooLate.
#[global] Instance state_eq_dec : EqDecision state_t.
  Proof. solve_decision. Defined.
Record row := Row {
    cancel_packet_id : string;
    cancel_hash : string;
    reason : string;
    state : state_t;
    terminal_state : string;
    requested_ms : Z;
    updated_ms : Z;
    applied_ms : Z;
  }.
End Cancels.

(** Table [companion_approval_requests], keyed by (request_id). *)
Module ApprovalRequests.
Record row := Row {
    human_id : string;
    device_node_id : string;
    nonce : string;
    request_hash : string;
    request_body : bytes;
    created_ms : Z;
    expires_ms : Z;
    registered_ms : Z;
  }.
End ApprovalRequests.

(** Table [companion_approval_authorizations], keyed by (request_id). *)
Module Approvals.
Inductive state_t := Active | Rejected.
#[global] Instance state_eq_dec : EqDecision state_t.
  Proof. solve_decision. Defined.
Record row := Row {
    decision_id : string;
    decision_packet_id : string;
    decision_hash : string;
    sender_node_id : string;
    human_id : string;
    device_node_id : string;
    nonce : string;
    decision : string;
    state : state_t;
    max_uses : Z;
    grant_expires_ms : Z;
    activated_ms : Z;
  }.
End Approvals.

(** Table [companion_approval_effects], keyed by (request_id, effect_id). *)
Module Effects.
Inductive state_t := Working | Retry | Executed | Rejected.
#[global] Instance state_eq_dec : EqDecision state_t.
  Proof. solve_decision. Defined.
Record row := Row {
    effect_idempotency_key : string;
    state : state_t;
    owner : string;
    execution_token : string;
    lease_until_ms : Z;
    retry_after_ms : Z;
    attempts : Z;
    started_ms : Z;
    updated_ms : Z;
    completed_ms : Z;
    result : option bytes;
    error : string;
  }.
End Effects.

(** Table [a2a_gateway_principals], keyed by (principal_id). *)
Module A2APrincipals.
Record row := Row {
    sender_node_id : string;
    created_ms : Z;
    updated_ms : Z;
  }.
End A2APrincipals.

(** Table [a2a_gateway_tasks], keyed by (principal_id, a2a_task_id). *)
Module A2ATasks.
Record row := Row {
    context_id : string;
    destination_peer_id : string;
    skill_id : string;
    tenant : string;
    protocol_version : string;
    state : string;
    latest_anet_task_id : string;
    message_count : Z;
    last_sequence : Z;
    last_event_ms : Z;
    cancel_state : string;
    cancel_requested_ms : Z;
    created_ms : Z;
    updated_ms : Z;
  }.
End A2ATasks.

(** Table [a2a_gateway_messages], keyed by (principal_id, message_id). *)
Module A2AMessages.
Record row := Row {
    rowid : Z;
    a2a_task_id : string;
    anet_task_id : string;
    request_hash : string;
    request_body : bytes;
    created_ms : Z;
  }.
End A2AMessages.

(** Table [a2a_gateway_events], keyed by (principal_id, a2a_task_id, sequence). *)
Module A2AEvents.
Record row := Row {
    source_anet_task_id : string;
    event_hash : string;
    event : bytes;
    created_ms : Z;
  }.
End A2AEvents.

(** Table [a2a_gateway_dispatches], keyed by (principal_id, message_id). *)
Module A2ADispatches.
Inductive state_t := Pending | Leased | Retry | Dispatched.
#[global] Instance state_eq_dec : EqDecision state_t.
  Proof. solve_decision. Defined.
Record row := Row {
    rowid : Z;
    a2a_task_id : string;
    anet_task_id : string;
    destination_peer_id : string;
    kind : string;
    body : bytes;
    state : state_t;
    owner : string;
    claim_token : string;
    encryption_reservation_id : string;
    lease_until_ms : Z;
    retry_after_ms : Z;
    attempts : Z;
    packet_id : string;
    last_error : string;
    created_ms : Z;
    updated_ms : Z;
    dispatched_ms : Z;
  }.
End A2ADispatches.

(** Table [local_prekeys], keyed by (prekey_id). *)
Module LocalPrekeys.
Inductive state_t := Available | Consumed | Revoked | Expired | RetiredUnscoped.
#[global] Instance state_eq_dec : EqDecision state_t.
  Proof. solve_decision. Defined.
Record row := Row {
    rowid : Z;
    peer_id : string;
    bundle_version : Z;
    public_key : bytes;
    private_key : option bytes;
    generation : Z;
    created_ms : Z;
    expires_ms : Z;
    state : state_t;
    consumed_ms : Z;
    packet_id : string;
  }.
Definition set_peer_id (v : string) (r : row) : row :=
    Row r.(rowid) v r.(bundle_version) r.(public_key) r.(private_key) r.(generation) r.(created_ms) r.(expires_ms) r.(state) r.(consumed_ms) r.(packet_id).
End LocalPrekeys.

(** Table [peer_prekey_bundles], keyed by (peer_id, generation). *)
Module PeerBundles.
Record row := Row {
    bundle_version : Z;
    intended_peer_id : string;
    bundle_hash : string;
    created_ms : Z;
    expires_ms : Z;
    imported_ms : Z;
  }.
End PeerBundles.

(** Table [peer_prekeys], keyed by (peer_id, prekey_id). *)
Module PeerPrekeys.
Inductive state_t := Available | Reserved | Used | Burned | Revoked | Expired.
#[global] Instance state_eq_dec : EqDecision state_t.
  Proof. solve_decision. Defined.
Record row := Row {
    rowid : Z;
    bundle_version : Z;
    public_key : bytes;
    generation : Z;
    expires_ms : Z;
    state : state_t;
    reservation_id : string;
    packet_id : string;
    used_ms : Z;
  }.
End PeerPrekeys.

(** Table [receipts], keyed by (packet_id). *)
Module Receipts.
Record row := Row {
    recipient_id : string;
    delivered_ms : Z;
  }.
End Receipts.

(** Table [packet_rejections], keyed by (packet_id). *)
Module Rejections.
Record row := Row {
    peer_id : string;
    rejected_ms : Z;
    reason : string;
  }.
End Rejections.

(** Table [path_metrics], keyed by (peer_id, path_id). *)
Module PathMetrics.
Record row := Row {
    attempts : Z;
    successes : Z;
    failures : Z;
    consecutive_successes : Z;
    consecutive_failures : Z;
    ewma_rtt_ms : Q;
    last_attempt_ms : Z;
    last_ok_ms : Z;
    last_failure_ms : Z;
    last_error : string;
  }.
End PathMetrics.

(** Table [route_state], keyed by (peer_id). *)
Module Routes.
Record row := Row {
    selected_path : string;
    switched_ms : Z;
    reason : string;
  }.
Definition set_reason (v : string) (r : row) : row :=
    Row r.(selected_path) r.(switched_ms) v.
End Routes.

(** Table [delivery_paths], keyed by (packet_id, peer_id, path_id). *)
Module DeliveryPaths.
Inductive state_t := Sent | Custodied | Acked.
#[global] Instance state_eq_dec : EqDecision state_t.
  Proof. solve_decision. Defined.
Record row := Row {
    state : state_t;
    attempts : Z;
    last_attempt_ms : Z;
    last_error : string;
  }.
End DeliveryPaths.

(** All tables; [store_metadata] keeps its [integer_value] column, the only one
    the code writes. *)
Record db := Db {
  packets : gmap string Packets.row;
  deliveries : gmap (string * string) Deliveries.row;
  inbox : gmap string Inbox.row;
  consumer_groups : gmap string Groups.row;
  consumer_deliveries : gmap (string * string) Claims.row;
  agent_task_executions : gmap (string * string * string) Executions.row;
  agent_task_cancellations : gmap (string * string * string) Cancels.row;
  companion_approval_requests : gmap string ApprovalRequests.row;
  companion_approval_authorizations : gmap string Approvals.row;
  companion_approval_effects : gmap (string * string) Effects.row;
  a2a_gateway_principals : gmap string A2APrincipals.row;
  a2a_gateway_tasks : gmap (string * string) A2ATasks.row;
  a2a_gateway_messages : gmap (string * string) A2AMessages.row;
  a2a_gateway_events : gmap (string * string * Z) A2AEvents.row;
  a2a_gateway_dispatches : gmap (string * string) A2ADispatches.row;
  store_metadata : gmap string Z;
  local_prekeys : gmap string LocalPrekeys.row;
  peer_prekey_bundles : gmap (string * Z) PeerBundles.row;
  peer_prekeys : gmap (string * string) PeerPrekeys.row;
  receipts : gmap string Receipts.row;
  packet_rejections : gmap string Rejections.row;
  path_metrics : gmap (string * string) PathMetrics.row;
  route_state : gmap string Routes.row;
  delivery_paths : gmap (string * string * string) DeliveryPaths.row;
}.

(** Assigning one table, leaving the others. *)
Definition set_packets (v : gmap string Packets.row) (s : db) : db := Db
    v s.(deliveries) s.(inbox) s.(consumer_groups) s.(consumer_deliveries)
    s.(agent_task_executions) s.(agent_task_cancellations)
    s.(companion_approval_requests) s.(companion_approval_authorizations)
    s.(companion_approval_effects) s.(a2a_gateway_principals)
    s.(a2a_gateway_tasks) s.(a2a_gateway_messages) s.(a2a_gateway_events)
    s.(a2a_gateway_dispatches) s.(store_metadata) s.(local_prekeys)
    s.(peer_prekey_bundles) s.(peer_prekeys) s.(receipts)
    s.(packet_rejections) s.(path_metrics) s.(route_state)
    s.(delivery_paths).
Definition set_deliveries (v : gmap (string * string) Deliveries.row) (s : db) : db := Db
    s.(packets) v s.(inbox) s.(consumer_groups) s.(consumer_deliveries)
    s.(agent_task_executions) s.(agent_task_cancellations)
    s.(companion_approval_requests) s.(companion_approval_authorizations)
    s.(companion_approval_effects) s.(a2a_gateway_principals)
    s.(a2a_gateway_tasks) s.(a2a_gateway_messages) s.(a2a_gateway_events)
    s.(a2a_gateway_dispatches) s.(store_metadata) s.(local_prekeys)
    s.(peer_prekey_bundles) s.(peer_prekeys) s.(receipts)
    s.(packet_rejections) s.(path_metrics) s.(route_state)
    s.(delivery_paths).
Definition set_inbox (v : gmap string Inbox.row) (s : db) : db := Db
    s.(packets) s.(deliveries) v s.(consumer_groups)
    s.(consumer_deliveries) s.(agent_task_executions)
    s.(agent_task_cancellations) s.(companion_approval_requests)
    s.(companion_approval_authorizations) s.(companion_approval_effects)
    s.(a2a_gateway_principals) s.(a2a_gateway_tasks)
    s.(a2a_gateway_messages) s.(a2a_gateway_events)
    s.(a2a_gateway_dispatches) s.(store_metadata) s.(local_prekeys)
    s.(peer_prekey_bundles) s.(peer_prekeys) s.(receipts)
    s.(packet_rejections) s.(path_metrics) s.(route_state)
    s.(delivery_paths).
Definition set_consumer_groups (v : gmap string Groups.row) (s : db) : db := Db
    s.(packets) s.(deliveries) s.(inbox) v s.(consumer_deliveries)
    s.(agent_task_executions) s.(agent_task_cancellations)
    s.(companion_approval_requests) s.(companion_approval_authorizations)
    s.(companion_approval_effects) s.(a2a_gateway_principals)
    s.(a2a_gateway_tasks) s.(a2a_gateway_messages) s.(a2a_gateway_events)
    s.(a2a_gateway_dispatches) s.(store_metadata) s.(local_prekeys)
    s.(peer_prekey_bundles) s.(peer_prekeys) s.(receipts)
    s.(packet_rejections) s.(path_metrics) s.(route_state)
    s.(delivery_paths).
Definition set_consumer_deliveries (v : gmap (string * string) Claims.row) (s : db) : db := Db
    s.(packets) s.(deliveries) s.(inbox) s.(consumer_groups) v
    s.(agent_task_executions) s.(agent_task_cancellations)
    s.(companion_approval_requests) s.(companion_approval_authorizations)
    s.(companion_approval_effects) s.(a2a_gateway_principals)
    s.(a2a_gateway_tasks) s.(a2a_gateway_messages) s.(a2a_gateway_events)
    s.(a2a_gateway_dispatches) s.(store_metadata) s.(local_prekeys)
    s.(peer_prekey_bundles) s.(peer_prekeys) s.(receipts)
    s.(packet_rejections) s.(path_metrics) s.(route_state)
    s.(delivery_paths).
Definition set_agent_task_executions (v : gmap (string * string * string) Executions.row) (s : db) : db := Db
    s.(packets) s.(deliveries) s.(inbox) s.(consumer_groups)
    s.(consumer_deliveries) v s.(agent_task_cancellations)
    s.(companion_approval_requests) s.(companion_approval_authorizations)
    s.(companion_approval_effects) s.(a2a_gateway_principals)
    s.(a2a_gateway_tasks) s.(a2a_gateway_messages) s.(a2a_gateway_events)
    s.(a2a_gateway_dispatches) s.(store_metadata) s.(local_prekeys)
    s.(peer_prekey_bundles) s.(peer_prekeys) s.(receipts)
    s.(packet_rejections) s.(path_metrics) s.(route_state)
    s.(delivery_paths).
Definition set_agent_task_cancellations (v : gmap (string * string * string) Cancels.row) (s : db) : db := Db
    s.(packets) s.(deliveries) s.(inbox) s.(consumer_groups)
    s.(consumer_deliveries) s.(agent_task_executions) v
    s.(companion_approval_requests) s.(companion_approval_authorizations)
    s.(companion_approval_effects) s.(a2a_gateway_principals)
    s.(a2a_gateway_tasks) s.(a2a_gateway_messages) s.(a2a_gateway_events)
    s.(a2a_gateway_dispatches) s.(store_metadata) s.(local_prekeys)
    s.(peer_prekey_bundles) s.(peer_prekeys) s.(receipts)
    s.(packet_rejections) s.(path_metrics) s.(route_state)
    s.(delivery_paths).
Definition set_companion_approval_requests (v : gmap string ApprovalRequests.row) (s : db) : db := Db
    s.(packets) s.(deliveries) s.(inbox) s.(consumer_groups)
    s.(consumer_deliveries) s.(agent_task_executions)
    s.(agent_task_cancellations) v s.(companion_approval_authorizations)
    s.(companion_approval_effects) s.(a2a_gateway_principals)
    s.(a2a_gateway_tasks) s.(a2a_gateway_messages) s.(a2a_gateway_events)
    s.(a2a_gateway_dispatches) s.(store_metadata) s.(local_prekeys)
    s.(peer_prekey_bundles) s.(peer_prekeys) s.(receipts)
    s.(packet_rejections) s.(path_metrics) s.(route_state)
    s.(delivery_paths).
Definition set_companion_approval_authorizations (v : gmap string Approvals.row) (s : db) : db := Db
    s.(packets) s.(deliveries) s.(inbox) s.(consumer_groups)
    s.(consumer_deliveries) s.(agent_task_executions)
    s.(agent_task_cancellations) s.(companion_approval_requests) v
    s.(companion_approval_effects) s.(a2a_gateway_principals)
    s.(a2a_gateway_tasks) s.(a2a_gateway_messages) s.(a2a_gateway_events)
    s.(a2a_gateway_dispatches) s.(store_metadata) s.(local_prekeys)
    s.(peer_prekey_bundles) s.(peer_prekeys) s.(receipts)
    s.(packet_rejections) s.(path_metrics) s.(route_state)
    s.(delivery_paths).
Definition set_companion_approval_effects (v : gmap (string * string) Effects.row) (s : db) : db := Db
    s.(packets) s.(deliveries) s.(inbox) s.(consumer_groups)
    s.(consumer_deliveries) s.(agent_task_executions)
    s.(agent_task_cancellations) s.(companion_approval_requests)
    s.(companion_approval_authorizations) v s.(a2a_gateway_principals)
    s.(a2a_gateway_tasks) s.(a2a_gateway_messages) s.(a2a_gateway_events)
    s.(a2a_gateway_dispatches) s.(store_metadata) s.(local_prekeys)
    s.(peer_prekey_bundles) s.(peer_prekeys) s.(receipts)
    s.(packet_rejections) s.(path_metrics) s.(route_state)
    s.(delivery_paths).
Definition set_a2a_gateway_principals (v : gmap string A2APrincipals.row) (s : db) : db := Db
    s.(packets) s.(deliveries) s.(inbox) s.(consumer_groups)
    s.(consumer_deliveries) s.(agent_task_executions)
    s.(agent_task_cancellations) s.(companion_approval_requests)
    s.(companion_approval_authorizations) s.(companion_approval_effects) v
    s.(a2a_gateway_tasks) s.(a2a_gateway_messages) s.(a2a_gateway_events)
    s.(a2a_gateway_dispatches) s.(store_metadata) s.(local_prekeys)
    s.(peer_prekey_bundles) s.(peer_prekeys) s.(receipts)
    s.(packet_rejections) s.(path_metrics) s.(route_state)
    s.(delivery_paths).
Definition set_a2a_gateway_tasks (v : gmap (string * string) A2ATasks.row) (s : db) : db := Db
    s.(packets) s.(deliveries) s.(inbox) s.(consumer_groups)
    s.(consumer_deliveries) s.(agent_task_executions)
    s.(agent_task_cancellations) s.(companion_approval_requests)
    s.(companion_approval_authorizations) s.(companion_approval_effects)
    s.(a2a_gateway_principals) v s.(a2a_gateway_messages)
    s.(a2a_gateway_events) s.(a2a_gateway_dispatches) s.(store_metadata)
    s.(local_prekeys) s.(peer_prekey_bundles) s.(peer_prekeys)
    s.(receipts) s.(packet_rejections) s.(path_metrics) s.(route_state)
    s.(delivery_paths).
Definition set_a2a_gateway_messages (v : gmap (string * string) A2AMessages.row) (s : db) : db := Db
    s.(packets) s.(deliveries) s.(inbox) s.(consumer_groups)
    s.(consumer_deliveries) s.(agent_task_executions)
    s.(agent_task_cancellations) s.(companion_approval_requests)
    s.(companion_approval_authorizations) s.(companion_approval_effects)
    s.(a2a_gateway_principals) s.(a2a_gateway_tasks) v
    s.(a2a_gateway_events) s.(a2a_gateway_dispatches) s.(store_metadata)
    s.(local_prekeys) s.(peer_prekey_bundles) s.(peer_prekeys)
    s.(receipts) s.(packet_rejections) s.(path_metrics) s.(route_state)
    s.(delivery_paths).
Definition set_a2a_gateway_events (v : gmap (string * string * Z) A2AEvents.row) (s : db) : db := Db
    s.(packets) s.(deliveries) s.(inbox) s.(consumer_groups)
    s.(consumer_deliveries) s.(agent_task_executions)
    s.(agent_task_cancellations) s.(companion_approval_requests)
    s.(companion_approval_authorizations) s.(companion_approval_effects)
    s.(a2a_gateway_principals) s.(a2a_gateway_tasks)
    s.(a2a_gateway_messages) v s.(a2a_gateway_dispatches)
    s.(store_metadata) s.(local_prekeys) s.(peer_prekey_bundles)
    s.(peer_prekeys) s.(receipts) s.(packet_rejections) s.(path_metrics)
    s.(route_state) s.(delivery_paths).
Definition set_a2a_gateway_dispatches (v : gmap (string * string) A2ADispatches.row) (s : db) : db := Db
    s.(packets) s.(deliveries) s.(inbox) s.(consumer_groups)
    s.(consumer_deliveries) s.(agent_task_executions)
    s.(agent_task_cancellations) s.(companion_approval_requests)
    s.(companion_approval_authorizations) s.(companion_approval_effects)
    s.(a2a_gateway_principals) s.(a2a_gateway_tasks)
    s.(a2a_gateway_messages) s.(a2a_gateway_events) v s.(store_metadata)
    s.(local_prekeys) s.(peer_prekey_bundles) s.(peer_prekeys)
    s.(receipts) s.(packet_rejections) s.(path_metrics) s.(route_state)
    s.(delivery_paths).
Definition set_store_metadata (v : gmap string Z) (s : db) : db := Db
    s.(packets) s.(deliveries) s.(inbox) s.(consumer_groups)
    s.(consumer_deliveries) s.(agent_task_executions)
    s.(agent_task_cancellations) s.(companion_approval_requests)
    s.(companion_approval_authorizations) s.(companion_approval_effects)
    s.(a2a_gateway_principals) s.(a2a_gateway_tasks)
    s.(a2a_gateway_messages) s.(a2a_gateway_events)
    s.(a2a_gateway_dispatches) v s.(local_prekeys) s.(peer_prekey_bundles)
    s.(peer_prekeys) s.(receipts) s.(packet_rejections) s.(path_metrics)
    s.(route_state) s.(delivery_paths).
Definition set_local_prekeys (v : gmap string LocalPrekeys.row) (s : db) : db := Db
    s.(packets) s.(deliveries) s.(inbox) s.(consumer_groups)
    s.(consumer_deliveries) s.(agent_task_executions)
    s.(agent_task_cancellations) s.(companion_approval_requests)
    s.(companion_approval_authorizations) s.(companion_approval_effects)
    s.(a2a_gateway_principals) s.(a2a_gateway_tasks)
    s.(a2a_gateway_messages) s.(a2a_gateway_events)
    s.(a2a_gateway_dispatches) s.(store_metadata) v
    s.(peer_prekey_bundles) s.(peer_prekeys) s.(receipts)
    s.(packet_rejections) s.(path_metrics) s.(route_state)
    s.(delivery_paths).
Definition set_peer_prekey_bundles (v : gmap (string * Z) PeerBundles.row) (s : db) : db := Db
    s.(packets) s.(deliveries) s.(inbox) s.(consumer_groups)
    s.(consumer_deliveries) s.(agent_task_executions)
    s.(agent_task_cancellations) s.(companion_approval_requests)
    s.(companion_approval_authorizations) s.(companion_approval_effects)
    s.(a2a_gateway_principals) s.(a2a_gateway_tasks)
    s.(a2a_gateway_messages) s.(a2a_gateway_events)
    s.(a2a_gateway_dispatches) s.(store_metadata) s.(local_prekeys) v
    s.(peer_prekeys) s.(receipts) s.(packet_rejections) s.(path_metrics)
    s.(route_state) s.(delivery_paths).
Definition set_peer_prekeys (v : gmap (string * string) PeerPrekeys.row) (s : db) : db := Db
    s.(packets) s.(deliveries) s.(inbox) s.(consumer_groups)
    s.(consumer_deliveries) s.(agent_task_executions)
    s.(agent_task_cancellations) s.(companion_approval_requests)
    s.(companion_approval_authorizations) s.(companion_approval_effects)
    s.(a2a_gateway_principals) s.(a2a_gateway_tasks)
    s.(a2a_gateway_messages) s.(a2a_gateway_events)
    s.(a2a_gateway_dispatches) s.(store_metadata) s.(local_prekeys)
    s.(peer_prekey_bundles) v s.(receipts) s.(packet_rejections)
    s.(path_metrics) s.(route_state) s.(delivery_paths).
Definition set_receipts (v : gmap string Receipts.row) (s : db) : db := Db
    s.(packets) s.(deliveries) s.(inbox) s.(consumer_groups)
    s.(consumer_deliveries) s.(agent_task_executions)
    s.(agent_task_cancellations) s.(companion_approval_requests)
    s.(companion_approval_authorizations) s.(companion_approval_effects)
    s.(a2a_gateway_principals) s.(a2a_gateway_tasks)
    s.(a2a_gateway_messages) s.(a2a_gateway_events)
    s.(a2a_gateway_dispatches) s.(store_metadata) s.(local_prekeys)
    s.(peer_prekey_bundles) s.(peer_prekeys) v s.(packet_rejections)
    s.(path_metrics) s.(route_state) s.(delivery_paths).
Definition set_packet_rejections (v : gmap string Rejections.row) (s : db) : db := Db
    s.(packets) s.(deliveries) s.(inbox) s.(consumer_groups)
    s.(consumer_deliveries) s.(agent_task_executions)
    s.(agent_task_cancellations) s.(companion_approval_requests)
    s.(companion_approval_authorizations) s.(companion_approval_effects)
    s.(a2a_gateway_principals) s.(a2a_gateway_tasks)
    s.(a2a_gateway_messages) s.(a2a_gateway_events)
    s.(a2a_gateway_dispatches) s.(store_metadata) s.(local_prekeys)
    s.(peer_prekey_bundles) s.(peer_prekeys) s.(receipts) v
    s.(path_metrics) s.(route_state) s.(delivery_paths).
Definition set_path_metrics (v : gmap (string * string) PathMetrics.row) (s : db) : db := Db
    s.(packets) s.(deliveries) s.(inbox) s.(consumer_groups)
    s.(consumer_deliveries) s.(agent_task_executions)
    s.(agent_task_cancellations) s.(companion_approval_requests)
    s.(companion_approval_authorizations) s.(companion_approval_effects)
    s.(a2a_gateway_principals) s.(a2a_gateway_tasks)
    s.(a2a_gateway_messages) s.(a2a_gateway_events)
    s.(a2a_gateway_dispatches) s.(store_metadata) s.(local_prekeys)
    s.(peer_prekey_bundles) s.(peer_prekeys) s.(receipts)
    s.(packet_rejections) v s.(route_state) s.(delivery_paths).
Definition set_route_state (v : gmap string Routes.row) (s : db) : db := Db
    s.(packets) s.(deliveries) s.(inbox) s.(consumer_groups)
    s.(consumer_deliveries) s.(agent_task_executions)
    s.(agent_task_cancellations) s.(companion_approval_requests)
    s.(companion_approval_authorizations) s.(companion_approval_effects)
    s.(a2a_gateway_principals) s.(a2a_gateway_tasks)
    s.(a2a_gateway_messages) s.(a2a_gateway_events)
    s.(a2a_gateway_dispatches) s.(store_metadata) s.(local_prekeys)
    s.(peer_prekey_bundles) s.(peer_prekeys) s.(receipts)
    s.(packet_rejections) s.(path_metrics) v s.(delivery_paths).
Definition set_delivery_paths (v : gmap (string * string * string) DeliveryPaths.row) (s : db) : db := Db
    s.(packets) s.(deliveries) s.(inbox) s.(consumer_groups)
    s.(consumer_deliveries) s.(agent_task_executions)
    s.(agent_task_cancellations) s.(companion_approval_requests)
    s.(companion_approval_authorizations) s.(companion_approval_effects)
    s.(a2a_gateway_principals) s.(a2a_gateway_tasks)
    s.(a2a_gateway_messages) s.(a2a_gateway_events)
    s.(a2a_gateway_dispatches) s.(store_metadata) s.(local_prekeys)
    s.(peer_prekey_bundles) s.(peer_prekeys) s.(receipts)
    s.(packet_rejections) s.(path_metrics) s.(route_state) v.

Definition empty_db : db := Db ∅ ∅ ∅ ∅ ∅ ∅ ∅ ∅ ∅ ∅ ∅ ∅ ∅ ∅ ∅ ∅ ∅ ∅ ∅ ∅ ∅ ∅ ∅ ∅.

(** The connection: statements run against the database. *)
Abbreviation M := (ST db).

(** Statements on one table. *)
Section statements.
Context {A : Type} (get : db → A) (put : A → db → db).
Definition exec (f : A → A) : M unit := modify (λ s, put (f (get s)) s).
End statements.

(** SQLite numbers a new row one above the largest [rowid] in use. *)
Definition next_rowid {K V} `{Countable K} (rowid : V → Z) (t : gmap K V) : Z :=
  max_where (λ _ _, True) rowid 0 t + 1.

Lemma next_rowid_fresh {K V} `{Countable K} (rowid : V → Z) (t : gmap K V) k v :
  t !! k = Some v → rowid v < next_rowid rowid t.
Proof.
  intros Hk. unfold next_rowid.
  pose proof (max_where_ge (λ _ _, True) rowid 0 t k v Hk I). lia.
Qed.
