(* ===== verification/Packet.v ===== *)
(** [src/anet/packet.py]: the outer packet, its validation and its length
    padding.  Clock readings are arguments: [current] is the reading of
    [_validate_outer], [current'] the later one of [inspect_packet]. *)
From S2P Require Import Prelude PyStr PyVal Schema.

Definition PACKET_VERSION : Z := 3.
Definition SUPPORTED_PACKET_VERSIONS : list Z := [1; 2; 3].
Definition MAX_PLAINTEXT_BYTES : Z := 8 * 1024 * 1024.
Definition MAX_TTL_SECONDS : Z := 30 * 86400.
Definition MAX_CLOCK_SKEW_MS : Z := 15 * 60 * 1000.

(** [QOS_CLASSES] and [KEY_MODES] *)
Definition qos_of_string (s : string) : option qos :=
  if String.eqb s "control" then Some Control
  else if String.eqb s "interactive" then Some Interactive
  else if String.eqb s "normal" then Some Normal
  else if String.eqb s "bulk" then Some Bulk else None.
Inductive key_mode := Static | Opk.
#[global] Instance key_mode_eq_dec : EqDecision key_mode.
Proof. solve_decision. Defined.
Definition key_mode_of_string (s : string) : option key_mode :=
  if String.eqb s "static" then Some Static
  else if String.eqb s "opk" then Some Opk else None.

Record PacketInfo := {
  packet_id : string;
  destination_id : string;
  created_ms : Z;
  expires_ms : Z;
  max_hops : Z;
  info_qos : qos;
  info_raw : bytes;
  info_key_mode : key_mode;
  info_prekey_id : string;
  version : Z;
}.

(** [bytes.fromhex]: pairs of hex digits of either case; ASCII white space may
    stand before, between and after pairs. *)
Definition is_hex (a : ascii) : bool := is_digit a || in_range 97 102 a || in_range 65 70 a.
Definition is_ascii_space (a : ascii) : bool := in_range 9 13 a || (code a =? 32).
Fixpoint fromhex_ok (half : bool) (s : string) : bool :=
  match s with
  | EmptyString => negb half
  | String a s' =>
      if is_hex a then fromhex_ok (negb half) s'
      else negb half && is_ascii_space a && fromhex_ok false s'
  end.

Section validate.
Context {PL : Platform}.

Definition _validate_outer (current : Z) (value : dict) (raw : bytes) : res PacketInfo :=
  version ← py_int (dict_get_or (VInt 0) "v" value);
  raise_if (negb (bool_decide (version ∈ SUPPORTED_PACKET_VERSIONS)))
    (ValueError "unsupported packet version");;
  let packet_id := py_str (dict_get_or (VStr "") "id" value) in
  raise_if (negb (len packet_id =? 32)) (ValueError "invalid packet id");;
  raise_if (negb (fromhex_ok false packet_id)) (ValueError "invalid packet id");;
  let destination_id := py_str (dict_get_or (VStr "") "dst" value) in
  raise_if (negb (startswith "an1" destination_id) || (len destination_id <? 20))
    (ValueError "invalid packet destination");;
  created_ms ← py_int (dict_get_or (VInt 0) "ts" value);
  expires_ms ← py_int (dict_get_or (VInt 0) "exp" value);
  max_hops ← py_int (dict_get_or (VInt 0) "hops" value);
  raise_if ((created_ms <=? 0) || (expires_ms <=? created_ms))
    (ValueError "invalid packet lifetime");;
  raise_if (current + MAX_CLOCK_SKEW_MS <? created_ms)
    (ValueError "packet creation time is too far in the future");;
  raise_if (current + MAX_TTL_SECONDS * 1000 + MAX_CLOCK_SKEW_MS <? expires_ms)
    (ValueError "packet expiry is too far in the future");;
  raise_if (MAX_TTL_SECONDS * 1000 <? expires_ms - created_ms)
    (ValueError "packet lifetime exceeds protocol limit");;
  raise_if (negb ((1 <=? max_hops) && (max_hops <=? 32))) (ValueError "invalid hop limit");;
  epk ← py_bytes (dict_get_or (VBytes "") "epk" value);
  raise_if (negb (len epk =? 32)) (ValueError "invalid ephemeral key");;
  nonce ← py_bytes (dict_get_or (VBytes "") "nonce" value);
  raise_if (negb (len nonce =? 12)) (ValueError "invalid packet nonce");;
  let qos := if version =? 1 then "normal" else py_str (dict_get_or (VStr "") "qos" value) in
  qos ← of_option (ValueError "invalid packet QoS class") (qos_of_string qos);
  let km := if version <=? 2 then "static" else py_str (dict_get_or (VStr "") "km" value) in
  let prekey_id := if version <=? 2 then "" else py_str (dict_get_or (VStr "") "kid" value) in
  key_mode ← of_option (ValueError "invalid packet key mode") (key_mode_of_string km);
  raise_if (bool_decide (key_mode = Static) && negb (String.eqb prekey_id ""))
    (ValueError "static packet cannot name a prekey");;
  raise_if (bool_decide (key_mode = Opk) && negb (fullmatch_hex 32 prekey_id))
    (ValueError "invalid packet prekey ID");;
  ciphertext ← py_bytes (dict_get_or (VBytes "") "ct" value);
  raise_if ((len ciphertext <? 32) || (MAX_PLAINTEXT_BYTES + 16 <? len ciphertext))
    (ValueError "invalid ciphertext size");;
  mret {| packet_id := packet_id; destination_id := destination_id;
          created_ms := created_ms; expires_ms := expires_ms; max_hops := max_hops;
          info_qos := qos; info_raw := raw; info_key_mode := key_mode;
          info_prekey_id := prekey_id; version := version |}.

(** [inspect_packet(raw, allow_expired=...)] *)
Definition inspect_packet (current current' : Z) (raw : bytes) (allow_expired : bool)
    : res PacketInfo :=
  raise_if (MAX_WIRE_BYTES <? len raw) (ValueError "packet exceeds wire size limit");;
  v ← unpack raw;
  match v with
  | VMap value =>
      info ← _validate_outer current value raw;
      raise_if (negb allow_expired && (expires_ms info <=? current'))
        (ValueError "packet expired");;
      mret info
  | _ => Err (ValueError "packet must be a map")
  end.

(** The fields authenticated as AEAD additional data. *)
Definition _aad_fields (value : dict) : res (list PyVal.value) :=
  v ← (x ← dict_item "v" value; py_int x);
  id ← dict_item "id" value;
  dst ← dict_item "dst" value;
  ts ← (x ← dict_item "ts" value; py_int x);
  exp ← (x ← dict_item "exp" value; py_int x);
  hops ← (x ← dict_item "hops" value; py_int x);
  epk ← (x ← dict_item "epk" value; py_bytes x);
  nonce ← (x ← dict_item "nonce" value; py_bytes x);
  let fields := [VInt v; VStr (py_str id); VStr (py_str dst); VInt ts; VInt exp;
                 VInt hops; VBytes epk; VBytes nonce] in
  fields2 ← (if 2 <=? v
             then q ← dict_item "qos" value; mret (fields ++ [VStr (py_str q)])
             else mret fields);
  fields3 ← (if 3 <=? v
             then km ← dict_item "km" value; kid ← dict_item "kid" value;
                  mret (fields2 ++ [VStr (py_str km); VStr (py_str kid)])
             else mret fields2);
  mret fields3.
End validate.

(** ** Length padding (seal_packet and open_packet) *)

(** [n.bit_length()] for [n >= 0] *)
Definition bit_length (n : Z) : Z := if n =? 0 then 0 else Z.log2 n + 1.

(** [n.to_bytes(4, "big")] and [int.from_bytes(raw, "big")] *)
Definition byte_char (n : Z) : ascii := ascii_of_N (Z.to_N (n mod 256)).
Definition to_bytes4 (n : Z) : bytes :=
  String (byte_char (n / 16777216)) (String (byte_char (n / 65536))
    (String (byte_char (n / 256)) (String (byte_char n) EmptyString))).
Fixpoint from_bytes_acc (acc : Z) (s : bytes) : Z :=
  match s with EmptyString => acc | String a s' => from_bytes_acc (256 * acc + code a) s' end.
Definition from_bytes (s : bytes) : Z := from_bytes_acc 0 s.

(** The bucket size chosen for [needed] bytes. *)
Definition padding_bucket (padding_min needed : Z) : Z :=
  let bucket := Z.max 256 padding_min in
  let bucket := if Z.land bucket (bucket - 1) =? 0 then bucket
                else Z.shiftl 1 (bit_length (bucket - 1)) in
  if bucket <? needed then Z.shiftl 1 (bit_length (needed - 1)) else bucket.

(** The padded plaintext of [seal_packet]; [urandom] is [os.urandom]. *)
Definition pad_inner (urandom : Z → bytes) (padding_min : Z) (encoded_inner : bytes) : res bytes :=
  let needed := 4 + len encoded_inner in
  let bucket := padding_bucket padding_min needed in
  raise_if (MAX_PLAINTEXT_BYTES <? bucket) (ValueError "message is too large");;
  mret (to_bytes4 (len encoded_inner) +:+ encoded_inner +:+ urandom (bucket - needed)).

(** The inner bytes [open_packet] takes from the decrypted plaintext. *)
Definition unpad_plaintext (plaintext : bytes) : res bytes :=
  raise_if (len plaintext <? 4) (ValueError "decrypted packet is truncated");;
  let inner_size := from_bytes (substring 0 4 plaintext) in
  raise_if ((inner_size <=? 0) || (len plaintext - 4 <? inner_size))
    (ValueError "invalid inner packet length");;
  mret (substring 4 (Z.to_nat inner_size) plaintext).

(** [now_ms()] readings aside, a clamped seal request. *)
Definition seal_ttl_seconds (ttl_seconds : Z) : Z :=
  Z.max 30 (Z.min ttl_seconds MAX_TTL_SECONDS).
Definition seal_max_hops (max_hops : Z) : Z := Z.max 1 (Z.min max_hops 32).

(** [_KIND_RE] *)
Definition kind_re : string → bool :=
  fullmatch is_lower_az (λ a, is_lower_az a || is_digit a || one_of "_.-" a) 0 63.

(** *** Lemmas *)

Lemma len_app s t : len (s +:+ t) = len s + len t.
Proof.
  unfold len. assert (String.length (s +:+ t) = String.length s + String.length t)%nat as ->.
  { induction s as [|a s IH]; simpl; [done|]. by rewrite IH. }
  lia.
Qed.
Lemma len_nonneg s : 0 ≤ len s.
Proof. unfold len. lia. Qed.

Lemma code_byte_char n : code (byte_char n) = n mod 256.
Proof.
  unfold code, byte_char. assert (0 ≤ n mod 256 < 256) as Hb by (apply Z.mod_pos_bound; done).
  rewrite N_ascii_embedding by lia. lia.
Qed.

Lemma from_to_bytes4 n : 0 ≤ n < 2 ^ 32 → from_bytes (to_bytes4 n) = n.
Proof.
  intros Hn. unfold from_bytes, to_bytes4. cbn [from_bytes_acc].
  rewrite !code_byte_char. change (2 ^ 32) with 4294967296 in Hn.
  Z.div_mod_to_equations. lia.
Qed.

Lemma bit_length_pow2 n : 1 ≤ n →
  n ≤ 2 ^ bit_length (n - 1) ∧ (2 ≤ n → 2 ^ bit_length (n - 1) < 2 * n).
Proof.
  intros Hn. unfold bit_length. case_match eqn:E.
  - apply Z.eqb_eq in E. simpl. lia.
  - apply Z.eqb_neq in E. pose proof (Z.log2_spec (n - 1) ltac:(lia)) as [Hl Hu].
    rewrite <- Z.add_1_r in Hu. rewrite Z.pow_add_r in * by (pose proof (Z.log2_nonneg (n-1)); lia).
    lia.
Qed.

Lemma shiftl_1 n : 0 ≤ n → Z.shiftl 1 n = 2 ^ n.
Proof. intros. rewrite Z.shiftl_mul_pow2 by done. lia. Qed.
Lemma bit_length_nonneg n : 0 ≤ bit_length n.
Proof. unfold bit_length. case_match; [lia|]. pose proof (Z.log2_nonneg n). lia. Qed.

Lemma land_pred_pow2 n : 0 < n → Z.land n (n - 1) = 0 → ∃ k, 0 ≤ k ∧ n = 2 ^ k.
Proof.
  intros Hn Hland. exists (Z.log2 n). split; [apply Z.log2_nonneg|].
  pose proof (Z.log2_spec n Hn) as [Hl Hu].
  destruct (decide (n = 2 ^ Z.log2 n)) as [|Hne]; [done|exfalso].
  assert (Z.log2 (n - 1) = Z.log2 n) as Hlog.
  { apply Z.log2_unique; [apply Z.log2_nonneg|]. lia. }
  assert (Z.testbit (Z.land n (n - 1)) (Z.log2 n) = true) as Hbit.
  { rewrite Z.land_spec, Z.bit_log2 by lia. rewrite <- Hlog at 1. apply Z.bit_log2.
    assert (1 ≤ 2 ^ Z.log2 n) by (apply (Z.pow_le_mono_r 2 0); [lia|apply Z.log2_nonneg]).
    lia. }
  by rewrite Hland, Z.bits_0 in Hbit.
Qed.

Lemma pow2_ge_1 k : 0 ≤ k → 1 ≤ 2 ^ k.
Proof. intros Hk. apply (Z.pow_le_mono_r 2 0); lia. Qed.

(** Rounding up to a power of two is minimal. *)
Lemma round_up_minimal n k : 1 ≤ n → 0 ≤ k → n ≤ 2 ^ k → 2 ^ bit_length (n - 1) ≤ 2 ^ k.
Proof.
  intros Hn Hk Hle. destruct (decide (n = 1)) as [->|Hne].
  - simpl. by apply pow2_ge_1.
  - destruct (bit_length_pow2 n Hn) as [_ Hlt]. specialize (Hlt ltac:(lia)).
    destruct (decide (bit_length (n - 1) ≤ k)) as [Hb|Hb].
    + apply Z.pow_le_mono_r; lia.
    + assert (2 ^ (k + 1) ≤ 2 ^ bit_length (n - 1)) as Hp by (apply Z.pow_le_mono_r; lia).
      rewrite Z.pow_add_r in Hp by lia. lia.
Qed.

(** The bucket before the message is taken into account. *)
Lemma base_bucket padding_min :
  let b := Z.max 256 padding_min in
  let r := if Z.land b (b - 1) =? 0 then b else Z.shiftl 1 (bit_length (b - 1)) in
  (∃ k, 0 ≤ k ∧ r = 2 ^ k) ∧ b ≤ r ∧ ∀ k, 0 ≤ k → b ≤ 2 ^ k → r ≤ 2 ^ k.
Proof.
  intros b r. assert (256 ≤ b) by (unfold b; lia). unfold r. clear r.
  case_match eqn:E; bool_prop.
  - split; [by apply land_pred_pow2; [lia|]|]. auto with lia.
  - rewrite shiftl_1 by apply bit_length_nonneg. split.
    { exists (bit_length (b - 1)). split; [apply bit_length_nonneg|done]. }
    split; [apply bit_length_pow2; lia|]. intros k Hk Hle. apply round_up_minimal; lia.
Qed.

Lemma padding_bucket_ge padding_min needed : 1 ≤ needed →
  needed ≤ padding_bucket padding_min needed.
Proof.
  intros Hn. unfold padding_bucket. cbv zeta. case_match eqn:E; bool_prop; [|done].
  rewrite shiftl_1 by apply bit_length_nonneg. by apply bit_length_pow2.
Qed.

Definition str_at (n : nat) (l : list value) : option string :=
  match l !! n with Some (VStr s) => Some s | _ => None end.

(** ** Theorems *)

(** The padding bucket is the smallest power of two that is at least 256, the
    configured minimum and the message with its length prefix, so the padded
    length reveals the message length only up to the next power of two. *)
Theorem padding_bucket_spec padding_min needed : 1 ≤ needed →
  let b := padding_bucket padding_min needed in
  (∃ k, 0 ≤ k ∧ b = 2 ^ k) ∧ 256 ≤ b ∧ padding_min ≤ b ∧ needed ≤ b ∧
  ∀ k, 0 ≤ k → 256 ≤ 2 ^ k → padding_min ≤ 2 ^ k → needed ≤ 2 ^ k → b ≤ 2 ^ k.
Proof.
  intros Hn b. pose proof (padding_bucket_ge padding_min needed Hn) as Hge. fold b in Hge.
  destruct (base_bucket padding_min) as (Hpow & Hbase & Hmin).
  revert Hge. unfold b, padding_bucket. cbv zeta in *. clear b.
  set (r := if _ =? 0 then _ else _) in *. case_match eqn:E; bool_prop; intros Hge.
  - rewrite shiftl_1 in * by apply bit_length_nonneg. split_and!; try lia.
    + exists (bit_length (needed - 1)). split; [apply bit_length_nonneg|done].
    + intros k Hk _ _ Hle. by apply round_up_minimal.
  - split_and!; try lia; [done|]. intros k Hk ? ? _. apply Hmin; lia.
Qed.
Lemma padding_bucket_spec_witness :
  1 ≤ 5000 ∧ padding_bucket 512 5000 = 8192 ∧ 5000 ≤ padding_bucket 512 5000.
Proof. split; [lia|]. split; [reflexivity|]. apply (padding_bucket_spec 512 5000). lia. Defined.

(** Opening recovers exactly the sealed inner bytes: the length prefix and the
    random padding are removed, for every padding length and every padding. *)
Theorem unpad_pad urandom padding_min inner plaintext :
  0 < len inner →
  pad_inner urandom padding_min inner = Ok plaintext →
  unpad_plaintext plaintext = Ok inner.
Proof.
  intros Hlen Hpad. unfold pad_inner in Hpad. cbv zeta in Hpad. res_inv. bool_prop. subst.
  pose proof (padding_bucket_ge padding_min (4 + len inner) ltac:(lia)) as Hge.
  unfold MAX_PLAINTEXT_BYTES in *.
  set (r := urandom _). set (h := to_bytes4 (len inner)).
  pose proof (len_nonneg r).
  assert (0 ≤ len inner < 2 ^ 32) by (change (2 ^ 32) with 4294967296; lia).
  assert (substring 0 4 (h +:+ inner +:+ r) = h) as Hh by exact (substring_prefix h _).
  assert (∀ n, substring 4 n (h +:+ inner +:+ r) = substring 0 n (inner +:+ r)) as Hb
    by exact (λ n, substring_suffix h _ n).
  assert (len (h +:+ inner +:+ r) = 4 + (len inner + len r)) as Hl by (by rewrite !len_app).
  unfold unpad_plaintext. rewrite Hh, Hb, Hl. cbv zeta. unfold h. rewrite from_to_bytes4 by done.
  unfold raise_if. rewrite (proj2 (Z.ltb_ge (4 + _) 4)) by lia.
  rewrite (proj2 (Z.leb_gt _ _)) by lia. rewrite (proj2 (Z.ltb_ge _ _)) by lia.
  cbn [mbind res_bind orb].
  unfold len. rewrite Nat2Z.id. by rewrite substring_prefix.
Qed.
Lemma unpad_pad_witness : ∃ plaintext,
  0 < len "hello" ∧ pad_inner (λ n, zeros (Z.to_nat n)) 256 "hello" = Ok plaintext ∧
  unpad_plaintext plaintext = Ok "hello".
Proof.
  eexists. split; [reflexivity|]. split; [reflexivity|].
  apply (unpad_pad (λ n, zeros (Z.to_nat n)) 256 "hello"); reflexivity.
Defined.

(** A present key makes [d[k]] and [d.get(k, default)] agree. *)
Ltac item_get :=
  repeat match goal with
  | E : dict_item ?k ?d = Ok ?x, F : context [dict_get_or ?dflt ?k ?d] |- _ =>
      rewrite (dict_item_get k d x dflt E) in F
  | E : dict_item ?k ?d = Ok ?x |- context [dict_get_or ?dflt ?k ?d] =>
      rewrite (dict_item_get k d x dflt E)
  end.

Section packet_theorems.
Context {PL : Platform}.

(** The additional data of an accepted packet, in terms of its [PacketInfo]. *)
Definition optional_fields (version : Z) (q : option qos) (km : option key_mode) (kid : string)
    (tail : list value) : Prop :=
  q = (if 2 <=? version then str_at 0 tail ≫= qos_of_string else Some Normal) ∧
  km = (if 3 <=? version then str_at 1 tail ≫= key_mode_of_string else Some Static) ∧
  kid = (if 3 <=? version then default "" (str_at 2 tail) else "").

Lemma aad_of_outer current v raw info fields :
  _validate_outer current v raw = Ok info → _aad_fields v = Ok fields →
  ∃ epk nonce tail,
    fields = VInt (version info) :: VStr (packet_id info) :: VStr (destination_id info)
      :: VInt (created_ms info) :: VInt (expires_ms info) :: VInt (max_hops info)
      :: VBytes epk :: VBytes nonce :: tail ∧
    optional_fields (version info) (Some (info_qos info)) (Some (info_key_mode info))
      (info_prekey_id info) tail.
Proof.
  intros Hv Ha. unfold _validate_outer in Hv. unfold _aad_fields in Ha. cbv zeta in *.
  res_inv. item_get.
  repeat match goal with
  | E : py_int ?x = Ok ?a, F : py_int ?x = Ok ?b |- _ =>
      rewrite F in E; apply Ok_inj in E; subst b
  end.
  match goal with E : negb (bool_decide (?ver ∈ _)) = false |- _ =>
    assert (ver = 1 ∨ ver = 2 ∨ ver = 3) as Hver by
      (bool_prop; unfold SUPPORTED_PACKET_VERSIONS in *;
       rewrite !elem_of_cons, elem_of_nil in E; tauto) end.
  destruct Hver as [Hver|[Hver|Hver]]; rewrite Hver in *; simpl in *; res_inv; item_get;
    subst; eexists _, _, _; (split; [reflexivity|]); unfold optional_fields; simpl;
    split_and!; first [congruence | symmetry; assumption | cbv in *; congruence].
Qed.

(** A packet accepted by [inspect_packet] has a supported version, a 32
    character identifier, a lifetime inside the protocol limits that has not
    ended, a hop limit from 1 to 32, and names a prekey exactly when it is a
    one-time-prekey packet. *)
Theorem inspect_packet_sound current current' raw info :
  inspect_packet current current' raw false = Ok info →
  version info ∈ SUPPORTED_PACKET_VERSIONS ∧
  len (packet_id info) = 32 ∧ fromhex_ok false (packet_id info) = true ∧
  startswith "an1" (destination_id info) = true ∧ 20 ≤ len (destination_id info) ∧
  0 < created_ms info < expires_ms info ∧
  current' < expires_ms info ∧
  created_ms info ≤ current + MAX_CLOCK_SKEW_MS ∧
  expires_ms info ≤ current + MAX_TTL_SECONDS * 1000 + MAX_CLOCK_SKEW_MS ∧
  expires_ms info - created_ms info ≤ MAX_TTL_SECONDS * 1000 ∧
  1 ≤ max_hops info ≤ 32 ∧
  info_raw info = raw ∧
  (info_key_mode info = Static → info_prekey_id info = "") ∧
  (info_key_mode info = Opk →
     version info = 3 ∧ fullmatch_hex 32 (info_prekey_id info) = true).
Proof.
  intros H. unfold inspect_packet in H. res_inv.
  destruct x0; try discriminate. res_inv. subst.
  unfold _validate_outer in *. cbv zeta in *. res_inv. subst. simpl in *.
  bool_prop. split_and!; try done; try lia.
  - intros ->. rewrite bool_decide_true in * by done. simpl in *. by bool_prop.
  - intros ->. rewrite (bool_decide_true (Opk = Opk)) in * by done. simpl in *. bool_prop.
    match goal with E : key_mode_of_string (if ?v <=? 2 then _ else _) = _ |- _ =>
      destruct (Z.leb_spec v 2); [discriminate E|] end.
    split; [|done]. unfold SUPPORTED_PACKET_VERSIONS in *.
    match goal with E : ?v ∈ _ |- _ =>
      rewrite !elem_of_cons, elem_of_nil in E; lia end.
Qed.

(** The fields authenticated with the ciphertext determine everything a relay
    reads from the outer packet: two accepted packets with the same additional
    data agree on every field of their [PacketInfo] except the raw bytes. *)
Theorem aad_binds_outer c1 c2 v1 v2 raw1 raw2 i1 i2 fields :
  _validate_outer c1 v1 raw1 = Ok i1 → _validate_outer c2 v2 raw2 = Ok i2 →
  _aad_fields v1 = Ok fields → _aad_fields v2 = Ok fields →
  packet_id i1 = packet_id i2 ∧ destination_id i1 = destination_id i2 ∧
  created_ms i1 = created_ms i2 ∧ expires_ms i1 = expires_ms i2 ∧
  max_hops i1 = max_hops i2 ∧ info_qos i1 = info_qos i2 ∧
  info_key_mode i1 = info_key_mode i2 ∧ info_prekey_id i1 = info_prekey_id i2 ∧
  version i1 = version i2.
Proof.
  intros H1 H2 A1 A2.
  destruct (aad_of_outer _ _ _ _ _ H1 A1) as (? & ? & tail1 & -> & T1).
  destruct (aad_of_outer _ _ _ _ _ H2 A2) as (? & ? & tail2 & E & T2).
  injection E as Ev Eid Edst Ets Eexp Ehops _ _ ->.
  rewrite Ev in T1. destruct T1 as (q1 & k1 & p1), T2 as (q2 & k2 & p2).
  split_and!; try done; congruence.
Qed.
End packet_theorems.

(** A decrypted and authenticated message ([OpenedMessage]). *)
Record OpenedMessage := {
  msg_packet_id : string;
  msg_sender_id : string;
  msg_sender_sign_public : bytes;
  msg_sender_box_public : bytes;
  msg_kind : string;
  msg_created_ms : Z;
  msg_body : value;
  msg_causal : list string;
  msg_codec : string;
  msg_reply_to : string;
  msg_qos : qos;
  msg_key_mode : string;
  msg_prekey_id : string;
}.

(** Witness input for the packet theorems: a version 3 one-time-prekey packet. *)
Definition sample_outer : dict :=
  [(VStr "v", VInt 3); (VStr "id", VStr "00112233445566778899aabbccddeeff");
   (VStr "dst", VStr "an1aaaaaaaaaaaaaaaaaaaa"); (VStr "ts", VInt 1000);
   (VStr "exp", VInt 60000); (VStr "hops", VInt 8); (VStr "epk", VBytes (zeros 32));
   (VStr "nonce", VBytes (zeros 12)); (VStr "qos", VStr "control"); (VStr "km", VStr "opk");
   (VStr "kid", VStr "ffeeddccbbaa99887766554433221100"); (VStr "ct", VBytes (zeros 40))].
Definition sample_outer_platform : Platform := sample_platform [("raw", VMap sample_outer)].
Definition sample_info : PacketInfo :=
  {| packet_id := "00112233445566778899aabbccddeeff";
     destination_id := "an1aaaaaaaaaaaaaaaaaaaa"; created_ms := 1000; expires_ms := 60000;
     max_hops := 8; info_qos := Control; info_raw := "raw"; info_key_mode := Opk;
     info_prekey_id := "ffeeddccbbaa99887766554433221100"; version := 3 |}.

Lemma inspect_packet_sound_witness :
  @inspect_packet sample_outer_platform 2000 2001 "raw" false = Ok sample_info ∧
  len (packet_id sample_info) = 32.
Proof.
  split; [vm_compute; reflexivity|].
  apply (@inspect_packet_sound sample_outer_platform 2000 2001 "raw" sample_info).
  vm_compute. reflexivity.
Defined.

Lemma aad_binds_outer_witness :
  version sample_info = version sample_info ∧ destination_id sample_info = "an1aaaaaaaaaaaaaaaaaaaa".
Proof.
  split; [|reflexivity].
  refine (proj2 (proj2 (proj2 (proj2 (proj2 (proj2 (proj2 (proj2
    (@aad_binds_outer sample_outer_platform 2000 3000 sample_outer sample_outer "raw" "raw"
       sample_info sample_info _ _ _ _ _))))))))).
  1-2: vm_compute; reflexivity.
  all: vm_compute; reflexivity.
Defined.
