(* ===== verification/Queue.v ===== *)
(** The durable packet queue of [PacketStore] (src/anet/store.py): packets,
    per-peer deliveries, per-path custody, receipts and local rejections.
    [now] is the reading of [now_ms()] a method takes. *)
From S2P Require Import Prelude PyStr PyVal Schema Packet.

(** ** Operations *)

Section queue.
Context {PL : Platform}.

Definition set_packet_row (packet_id : string) (f : Packets.row → Packets.row) : M unit :=
  exec packets set_packets (alter f packet_id).

(** [add_packet]: [current] and [current'] are the readings inside
    [inspect_packet], [now] becomes [inserted_ms]. *)
Definition add_packet (current current' now : Z) (raw : bytes) (depth : Z)
    (origin received_from : string) : M bool :=
  info ← lift (inspect_packet current current' raw false);
  lift (raise_if ((depth <? 0) || (max_hops info <? depth))
    (ValueError "packet relay depth exceeds hop limit"));;
  existing ← gets (λ s, packets s !! packet_id info);
  match existing with
  | None =>
      exec packets set_packets (insert (packet_id info) {|
        Packets.destination_id := destination_id info;
        Packets.created_ms := created_ms info;
        Packets.expires_ms := expires_ms info;
        Packets.max_hops := max_hops info;
        Packets.depth := depth;
        Packets.raw := raw;
        Packets.origin := origin;
        Packets.received_from := received_from;
        Packets.inserted_ms := now;
        Packets.delivered := false;
        Packets.qos_class := info_qos info |});;
      mret true
  | Some _ =>
      set_packet_row (packet_id info) (λ r, Packets.set_depth (Z.min (Packets.depth r) depth) r);;
      mret false
  end.

Definition has_packet (packet_id : string) : M bool :=
  gets (λ s, bool_decide (is_Some (packets s !! packet_id))).
Definition get_packet (packet_id : string) : M (option bytes) :=
  gets (λ s, Packets.raw <$> packets s !! packet_id).
Definition packet_delivered (packet_id : string) : M bool :=
  gets (λ s, match packets s !! packet_id with Some r => Packets.delivered r | None => false end).

(** The CASE expression over [qos] in ORDER BY *)
Definition qos_rank (q : qos) : Z :=
  match q with Control => 0 | Interactive => 1 | Normal => 2 | Bulk => 3 end.

(** The WHERE clause of [pending_for_peer]: [d] and [dp] are the LEFT JOINed
    rows of [deliveries] and [delivery_paths]. *)
Definition pending_where (s : db) (peer_id : string) (path_id : option string)
    (qos_values : option (list qos)) (current retry_cutoff : Z)
    (packet_id : string) (p : Packets.row) : Prop :=
  current < Packets.expires_ms p ∧
  Packets.delivered p = false ∧
  Packets.depth p < Packets.max_hops p ∧
  Packets.received_from p ≠ peer_id ∧
  if_some (λ d, Deliveries.state d ≠ Deliveries.Acked ∧
                Deliveries.last_attempt_ms d ≤ retry_cutoff)
    (deliveries s !! (packet_id, peer_id)) ∧
  if_some (λ path,
      if_some (λ dp, DeliveryPaths.state dp ≠ DeliveryPaths.Custodied ∧
                     DeliveryPaths.state dp ≠ DeliveryPaths.Acked)
        (delivery_paths s !! (packet_id, peer_id, path))) path_id ∧
  if_some (λ l, Packets.qos_class p ∈ l) qos_values.
#[global] Instance pending_where_dec s peer path qs current cutoff k p :
  Decision (pending_where s peer path qs current cutoff k p).
Proof. unfold pending_where. apply _. Defined.

Record pending_item := {
  item_packet_id : string;
  item_raw : bytes;
  item_depth : Z;
  item_max_hops : Z;
  item_destination_id : string;
  item_qos : qos;
}.
Definition pending_item_of (kv : string * Packets.row) : pending_item :=
  {| item_packet_id := kv.1; item_raw := Packets.raw kv.2; item_depth := Packets.depth kv.2;
     item_max_hops := Packets.max_hops kv.2;
     item_destination_id := Packets.destination_id kv.2;
     item_qos := Packets.qos_class kv.2 |}.

(** The sort key: own destination first, then QoS, then age. *)
Definition pending_key (peer_id : string) (kv : string * Packets.row) : list Z :=
  [ (if String.eqb (Packets.destination_id kv.2) peer_id then 0 else 1);
    qos_rank (Packets.qos_class kv.2); Packets.created_ms kv.2 ].

Definition pending_rows (s : db) (now : Z) (peer_id : string) (limit retry_after_ms : Z)
    (path_id : option string) (qos_values : option (list qos)) : list (string * Packets.row) :=
  take (Z.to_nat (Z.max 1 (Z.min limit 1024)))
    (order_by (pending_key peer_id)
      (select_where (pending_where s peer_id path_id qos_values now
                       (now - Z.max 0 retry_after_ms)) (packets s))).

Definition pending_for_peer (now : Z) (peer_id : string) (limit retry_after_ms : Z)
    (path_id : option string) (qos_allow : option (list string)) : M (list pending_item) :=
  match qos_allow with
  | Some [] => mret []
  | _ =>
      qos_values ← lift (match qos_allow with
        | None => Ok None
        | Some l => of_option (ValueError "invalid QoS filter")
                      (Some <$> mapM qos_of_string l)
        end);
      gets (λ s, pending_item_of <$>
        pending_rows s now peer_id limit retry_after_ms path_id qos_values)
  end.

(** [mark_attempt]: both UPSERTs of one packet *)
Definition mark_attempt_one (now : Z) (peer_id error path_id packet_id : string) : M unit :=
  exec deliveries set_deliveries (upsert (packet_id, peer_id)
    {| Deliveries.state := Deliveries.Sent; Deliveries.attempts := 1;
       Deliveries.last_attempt_ms := now; Deliveries.last_error := slice 1000 error |}
    (λ d, {| Deliveries.state := if bool_decide (Deliveries.state d = Deliveries.Acked)
                                 then Deliveries.Acked else Deliveries.Sent;
             Deliveries.attempts := Deliveries.attempts d + 1;
             Deliveries.last_attempt_ms := now;
             Deliveries.last_error := slice 1000 error |}));;
  exec delivery_paths set_delivery_paths (upsert (packet_id, peer_id, path_id)
    {| DeliveryPaths.state := DeliveryPaths.Sent; DeliveryPaths.attempts := 1;
       DeliveryPaths.last_attempt_ms := now; DeliveryPaths.last_error := slice 1000 error |}
    (λ d, {| DeliveryPaths.state :=
               if bool_decide (DeliveryPaths.state d = DeliveryPaths.Acked ∨
                               DeliveryPaths.state d = DeliveryPaths.Custodied)
               then DeliveryPaths.state d else DeliveryPaths.Sent;
             DeliveryPaths.attempts := DeliveryPaths.attempts d + 1;
             DeliveryPaths.last_attempt_ms := now;
             DeliveryPaths.last_error := slice 1000 error |})).
Definition mark_attempt (now : Z) (packet_ids : list string) (peer_id error path_id : string)
    : M unit :=
  for_each (mark_attempt_one now peer_id error path_id) packet_ids.

Definition mark_custodied_one (now : Z) (peer_id path_id packet_id : string) : M unit :=
  exec delivery_paths set_delivery_paths (upsert (packet_id, peer_id, path_id)
    {| DeliveryPaths.state := DeliveryPaths.Custodied; DeliveryPaths.attempts := 1;
       DeliveryPaths.last_attempt_ms := now; DeliveryPaths.last_error := "" |}
    (λ d, {| DeliveryPaths.state :=
               if bool_decide (DeliveryPaths.state d = DeliveryPaths.Acked)
               then DeliveryPaths.Acked else DeliveryPaths.Custodied;
             DeliveryPaths.attempts := DeliveryPaths.attempts d;
             DeliveryPaths.last_attempt_ms := now; DeliveryPaths.last_error := "" |})).
Definition mark_custodied (now : Z) (packet_ids : list string) (peer_id path_id : string)
    : M unit :=
  for_each (mark_custodied_one now peer_id path_id) packet_ids.

(** [UPDATE packets SET delivered = 1 WHERE packet_id = ? AND destination_id = ?] *)
Definition deliver_if_destination (peer_id : string) (r : Packets.row) : Packets.row :=
  if String.eqb (Packets.destination_id r) peer_id then Packets.set_delivered true r else r.

Definition mark_acked_one (now : Z) (peer_id path_id packet_id : string) : M unit :=
  exec deliveries set_deliveries (upsert (packet_id, peer_id)
    {| Deliveries.state := Deliveries.Acked; Deliveries.attempts := 1;
       Deliveries.last_attempt_ms := now; Deliveries.last_error := "" |}
    (λ d, {| Deliveries.state := Deliveries.Acked;
             Deliveries.attempts := Deliveries.attempts d;
             Deliveries.last_attempt_ms := now; Deliveries.last_error := "" |}));;
  exec delivery_paths set_delivery_paths (upsert (packet_id, peer_id, path_id)
    {| DeliveryPaths.state := DeliveryPaths.Acked; DeliveryPaths.attempts := 1;
       DeliveryPaths.last_attempt_ms := now; DeliveryPaths.last_error := "" |}
    (λ d, {| DeliveryPaths.state := DeliveryPaths.Acked;
             DeliveryPaths.attempts := DeliveryPaths.attempts d;
             DeliveryPaths.last_attempt_ms := now; DeliveryPaths.last_error := "" |}));;
  set_packet_row packet_id (deliver_if_destination peer_id).
Definition mark_acked (now : Z) (packet_ids : list string) (peer_id path_id : string)
    : M unit :=
  for_each (mark_acked_one now peer_id path_id) packet_ids.

(** [UPDATE packets SET delivered = 1 WHERE packet_id = ?] *)
Definition mark_local_delivered (packet_id : string) : M unit :=
  set_packet_row packet_id (Packets.set_delivered true).

Definition mark_local_rejected (now : Z) (packet_id peer_id reason : string) : M unit :=
  transaction (
    mark_local_delivered packet_id;;
    exec packet_rejections set_packet_rejections (upsert packet_id
      {| Rejections.peer_id := slice 128 peer_id; Rejections.rejected_ms := now;
         Rejections.reason := slice 1000 reason |} (λ r, r))).
Definition packet_rejection (packet_id : string) : M (option Rejections.row) :=
  gets (λ s, packet_rejections s !! packet_id).

Definition record_receipt (now : Z) (packet_id recipient_id : string) : M unit :=
  exec receipts set_receipts (insert packet_id
    {| Receipts.recipient_id := recipient_id; Receipts.delivered_ms := now |});;
  mark_local_delivered packet_id.
Definition receipt (packet_id : string) : M (option Receipts.row) :=
  gets (λ s, receipts s !! packet_id).

Definition delivery_path_state (packet_id peer_id path_id : string)
    : M (option DeliveryPaths.state_t) :=
  gets (λ s, DeliveryPaths.state <$> delivery_paths s !! (packet_id, peer_id, path_id)).

(** [local_packets] and [export_packets]: undelivered, unexpired packets, oldest
    first; an empty [destination_id] exports every destination. *)
Definition undelivered_rows (s : db) (now : Z) (for_destination : option string) (limit cap : Z)
    : list bytes :=
  (λ kv, Packets.raw kv.2) <$>
    take (Z.to_nat (Z.max 1 (Z.min limit cap)))
      (order_by (λ kv, [Packets.created_ms kv.2])
        (select_where (λ _ p,
           now < Packets.expires_ms p ∧ Packets.delivered p = false ∧
           if_some (λ d, Packets.destination_id p = d) for_destination) (packets s))).
Definition local_packets (now : Z) (destination_id : string) (limit : Z) : M (list bytes) :=
  gets (λ s, undelivered_rows s now (Some destination_id) limit 10000).
Definition export_packets (now : Z) (destination_id : string) (limit : Z) : M (list bytes) :=
  gets (λ s, undelivered_rows s now
    (if String.eqb destination_id "" then None else Some destination_id) limit 100000).

(** *** Inbox *)

(** [add_inbox]; [INSERT OR IGNORE] *)
Definition inbox_row (s : db) (now : Z) (message : OpenedMessage) (body causal : bytes)
    (trusted visible : bool) : Inbox.row :=
  {| Inbox.rowid := next_rowid Inbox.rowid (inbox s);
     Inbox.sender_id := msg_sender_id message; Inbox.kind := msg_kind message;
     Inbox.created_ms := msg_created_ms message; Inbox.received_ms := now;
     Inbox.codec := msg_codec message; Inbox.body := body; Inbox.causal := causal;
     Inbox.reply_to := msg_reply_to message; Inbox.trusted := trusted;
     Inbox.is_read := false; Inbox.qos_class := msg_qos message; Inbox.visible := visible |}.
Definition pack_causal (message : OpenedMessage) : res bytes :=
  pack (VList (VStr <$> msg_causal message)).

Definition add_inbox (now : Z) (message : OpenedMessage) (trusted visible : bool) : M bool :=
  body ← lift (pack (msg_body message));
  causal ← lift (pack_causal message);
  existing ← gets (λ s, inbox s !! msg_packet_id message);
  match existing with
  | Some _ => mret false
  | None =>
      modify (λ s, set_inbox (<[msg_packet_id message :=
        inbox_row s now message body causal trusted visible]> (inbox s)) s);;
      mret true
  end.

Definition mark_read (packet_ids : list string) : M unit :=
  for_each (λ packet_id, exec inbox set_inbox (alter (Inbox.set_is_read true) packet_id))
    packet_ids.

Record inbox_item := {
  in_packet_id : string;
  in_sender_id : string;
  in_kind : string;
  in_created_ms : Z;
  in_received_ms : Z;
  in_codec : string;
  in_body : value;
  in_causal : value;
  in_reply_to : string;
  in_qos : qos;
  in_trusted : bool;
  in_read : bool;
  in_transient : bool;
}.
(** [_inbox_item] *)
Definition _inbox_item (packet_id : string) (row : Inbox.row) : res inbox_item :=
  body ← unpack (Inbox.body row);
  causal ← unpack (Inbox.causal row);
  mret {| in_packet_id := packet_id; in_sender_id := Inbox.sender_id row;
          in_kind := Inbox.kind row; in_created_ms := Inbox.created_ms row;
          in_received_ms := Inbox.received_ms row; in_codec := Inbox.codec row;
          in_body := body; in_causal := causal; in_reply_to := Inbox.reply_to row;
          in_qos := Inbox.qos_class row; in_trusted := Inbox.trusted row;
          in_read := Inbox.is_read row; in_transient := negb (Inbox.visible row) |}.

Definition list_inbox (limit : Z) (unread_only include_untrusted include_transient : bool)
    : M (list inbox_item) :=
  rows ← gets (λ s,
    take (Z.to_nat (Z.max 1 (Z.min limit 1000)))
      (order_by (λ kv, [- Inbox.received_ms kv.2])
        (select_where (λ _ r,
           (unread_only = true → Inbox.is_read r = false) ∧
           (include_untrusted = false → Inbox.trusted r = true) ∧
           (include_transient = false → Inbox.visible r = true)) (inbox s))));
  lift (mapM (λ kv, _inbox_item kv.1 kv.2) rows).
End queue.

(** ** Progress of the queue *)

(** Custody on a path only grows. *)
Definition path_rank (st : DeliveryPaths.state_t) : Z :=
  match st with DeliveryPaths.Sent => 0 | DeliveryPaths.Custodied => 1 | DeliveryPaths.Acked => 2 end.

(** What later queue operations never undo: a packet keeps its identity fields,
    stays delivered once delivered and never gets deeper; an acknowledged
    delivery stays acknowledged; custody on a path never goes back. *)
Definition packet_progress (r r' : Packets.row) : Prop :=
  Packets.destination_id r' = Packets.destination_id r ∧
  Packets.created_ms r' = Packets.created_ms r ∧
  Packets.expires_ms r' = Packets.expires_ms r ∧
  Packets.max_hops r' = Packets.max_hops r ∧
  Packets.raw r' = Packets.raw r ∧
  Packets.received_from r' = Packets.received_from r ∧
  Packets.depth r' ≤ Packets.depth r ∧
  (Packets.delivered r = true → Packets.delivered r' = true).
Definition delivery_progress (d d' : Deliveries.row) : Prop :=
  (Deliveries.state d = Deliveries.Acked → Deliveries.state d' = Deliveries.Acked) ∧
  Deliveries.attempts d ≤ Deliveries.attempts d'.
Definition path_progress (d d' : DeliveryPaths.row) : Prop :=
  path_rank (DeliveryPaths.state d) ≤ path_rank (DeliveryPaths.state d') ∧
  DeliveryPaths.attempts d ≤ DeliveryPaths.attempts d'.

Record queue_progress (s s' : db) : Prop := {
  qp_packets : table_progress packet_progress (packets s) (packets s');
  qp_deliveries : table_progress delivery_progress (deliveries s) (deliveries s');
  qp_paths : table_progress path_progress (delivery_paths s) (delivery_paths s');
}.

#[global] Instance packet_progress_preorder : PreOrder packet_progress.
Proof.
  split; [intros r; unfold packet_progress; split_and!; auto with lia|].
  intros a b c Hab Hbc. unfold packet_progress in *. destruct_and!.
  split_and!; try congruence; try lia. auto.
Qed.
#[global] Instance delivery_progress_preorder : PreOrder delivery_progress.
Proof.
  split; [intros r; unfold delivery_progress; auto with lia|].
  intros a b c [? ?] [? ?]. split; [auto|lia].
Qed.
#[global] Instance path_progress_preorder : PreOrder path_progress.
Proof.
  split; [intros r; unfold path_progress; auto with lia|].
  intros a b c [? ?] [? ?]. split; lia.
Qed.
#[global] Instance queue_progress_preorder : PreOrder queue_progress.
Proof.
  split; [intros s; by split|]. intros a b c [? ? ?] [? ? ?]. split; by etrans.
Qed.

(** Updates of one table, for the three tables of [queue_progress]. *)
Lemma progress_set_packets f s :
  table_progress packet_progress (packets s) (f (packets s)) →
  queue_progress s (set_packets (f (packets s)) s).
Proof. intros Hp. split; simpl; [done|reflexivity..]. Qed.
Lemma progress_set_deliveries f s :
  table_progress delivery_progress (deliveries s) (f (deliveries s)) →
  queue_progress s (set_deliveries (f (deliveries s)) s).
Proof. intros Hp. split; simpl; [reflexivity|done|reflexivity]. Qed.
Lemma progress_set_paths f s :
  table_progress path_progress (delivery_paths s) (f (delivery_paths s)) →
  queue_progress s (set_delivery_paths (f (delivery_paths s)) s).
Proof. intros Hp. split; simpl; [reflexivity..|done]. Qed.
Create HintDb queue.
#[export] Hint Resolve progress_set_packets progress_set_deliveries progress_set_paths : queue.

Ltac queue_row :=
  intros ?;
  unfold packet_progress, delivery_progress, path_progress, Packets.set_delivered,
    Packets.set_depth, deliver_if_destination; simpl;
  repeat case_match; repeat case_bool_decide; simpl; split_and!; try (naive_solver lia);
  match goal with |- context [DeliveryPaths.state ?r] =>
    destruct (DeliveryPaths.state r) eqn:?; simpl; first [lia | exfalso; intuition congruence]
  end.

Section queue_steps.
Context {PL : Platform}.

Lemma progress_set_packet_row id f :
  (∀ r, packet_progress r (f r)) → steps queue_progress (set_packet_row id f).
Proof.
  intros Hf. apply steps_modify. intros s. apply progress_set_packets.
  apply table_progress_alter; [apply _|done].
Qed.

Lemma progress_add_packet c c' now raw depth origin from :
  steps queue_progress (add_packet c c' now raw depth origin from).
Proof.
  intros s. unfold add_packet. wp_all; try reflexivity.
  - apply (wp_mono _ (λ _ s', queue_progress s s')).
    + apply progress_set_packet_row. queue_row.
    + intros [?|?] s' Hs'; [|done]. by wp_step.
  - unfold exec. wp_all. apply (progress_set_packets (insert _ _)).
    apply table_progress_insert_new; [apply _|done].
Qed.

Lemma progress_mark_attempt now ids peer error path :
  steps queue_progress (mark_attempt now ids peer error path).
Proof.
  unfold mark_attempt, mark_attempt_one, exec. steps_all.
  - apply steps_modify. intros s. apply progress_set_deliveries.
    apply table_progress_upsert; [apply _|]. queue_row.
  - apply steps_modify. intros s. apply progress_set_paths.
    apply table_progress_upsert; [apply _|]. queue_row.
Qed.
Lemma progress_mark_custodied now ids peer path :
  steps queue_progress (mark_custodied now ids peer path).
Proof.
  unfold mark_custodied, mark_custodied_one, exec. steps_all.
  apply steps_modify. intros s. apply progress_set_paths.
  apply table_progress_upsert; [apply _|]. queue_row.
Qed.
Lemma progress_mark_acked now ids peer path :
  steps queue_progress (mark_acked now ids peer path).
Proof.
  unfold mark_acked, mark_acked_one, exec. steps_all.
  - apply steps_modify. intros s. apply progress_set_deliveries.
    apply table_progress_upsert; [apply _|]. queue_row.
  - apply steps_modify. intros s. apply progress_set_paths.
    apply table_progress_upsert; [apply _|]. queue_row.
  - apply progress_set_packet_row. queue_row.
Qed.
Lemma progress_mark_local_delivered id : steps queue_progress (mark_local_delivered id).
Proof. apply progress_set_packet_row. queue_row. Qed.
Lemma progress_mark_local_rejected now id peer reason :
  steps queue_progress (mark_local_rejected now id peer reason).
Proof.
  unfold mark_local_rejected, exec. steps_all.
  - apply progress_mark_local_delivered.
  - apply steps_modify. intros s. split; reflexivity.
Qed.
Lemma progress_record_receipt now id recipient :
  steps queue_progress (record_receipt now id recipient).
Proof.
  unfold record_receipt, exec. steps_all.
  - apply steps_modify. intros s. split; reflexivity.
  - apply progress_mark_local_delivered.
Qed.
End queue_steps.

(** One queue operation, whatever its arguments and outcome. *)
Inductive queue_step `{Platform} : db → db → Prop :=
  | step_add_packet c c' now raw depth origin from s :
      queue_step s (add_packet c c' now raw depth origin from s).2
  | step_mark_attempt now ids peer error path s :
      queue_step s (mark_attempt now ids peer error path s).2
  | step_mark_custodied now ids peer path s :
      queue_step s (mark_custodied now ids peer path s).2
  | step_mark_acked now ids peer path s :
      queue_step s (mark_acked now ids peer path s).2
  | step_mark_local_delivered id s : queue_step s (mark_local_delivered id s).2
  | step_mark_local_rejected now id peer reason s :
      queue_step s (mark_local_rejected now id peer reason s).2
  | step_record_receipt now id recipient s :
      queue_step s (record_receipt now id recipient s).2
  | step_pending_for_peer now peer limit retry path qs s :
      queue_step s (pending_for_peer now peer limit retry path qs s).2.

Section queue_theorems.
Context {PL : Platform}.

Lemma pending_for_peer_read_only now peer limit retry path qs s :
  (pending_for_peer now peer limit retry path qs s).2 = s.
Proof.
  unfold pending_for_peer. destruct qs as [[|q qs]|]; [done| |done].
  cbv [mbind ST_bind lift]. by destruct (of_option _ _).
Qed.

Lemma queue_step_progress x y : queue_step x y → queue_progress x y.
Proof.
  intros [].
- apply progress_add_packet.
  - apply progress_mark_attempt.
  - apply progress_mark_custodied.
  - apply progress_mark_acked.
  - apply progress_mark_local_delivered.
  - apply progress_mark_local_rejected.
  - apply progress_record_receipt.
  - by rewrite pending_for_peer_read_only.
Qed.

(** Along every run of queue operations packets keep their identity fields,
    a delivered packet stays delivered, an acknowledged delivery stays
    acknowledged and custody on a path never decreases. *)
Theorem queue_progress_reachable s s' :
  rtc queue_step s s' → queue_progress s s'.
Proof. apply rtc_preorder; [apply _|]. apply queue_step_progress. Qed.

Lemma elem_of_pending_rows s now peer limit retry path qs id r :
  (id, r) ∈ pending_rows s now peer limit retry path qs →
  packets s !! id = Some r ∧
  pending_where s peer path qs now (now - Z.max 0 retry) id r.
Proof.
  unfold pending_rows. intros Hin%elem_of_take_elem.
  by apply elem_of_order_by, elem_of_select_where in Hin.
Qed.

(** A packet that has been delivered, or that this peer has acknowledged, is
    never offered to this peer again, whatever queue operations run in between,
    on any path, with any filter and at any time. *)
Theorem no_redelivery s s' id r peer now limit retry path qs :
  packets s !! id = Some r →
  (Packets.delivered r = true ∨
   ∃ d, deliveries s !! (id, peer) = Some d ∧ Deliveries.state d = Deliveries.Acked) →
  rtc queue_step s s' →
  id ∉ (pending_rows s' now peer limit retry path qs).*1.
Proof.
  intros Hr Hdone Hrun.
  apply (rtc_preorder _ queue_progress) in Hrun as [Hp Hd _]; [|apply queue_step_progress].
  intros ([id' r'] & ? & Hin)%list_elem_of_fmap. simplify_eq/=.
  apply elem_of_pending_rows in Hin as [Hr' (_ & Hnd & _ & _ & Hack & _)].
  destruct (Hp _ _ Hr) as (r'' & Hr'' & Hprog). rewrite Hr' in Hr''. injection Hr'' as <-.
  destruct Hprog as (_ & _ & _ & _ & _ & _ & _ & Hmono).
  destruct Hdone as [Hdel|(d & Hdl & Hst)].
  { rewrite (Hmono Hdel) in Hnd. discriminate. }
  destruct (Hd _ _ Hdl) as (d' & Hdl' & Hacked & _).
  rewrite Hdl' in Hack. simpl in Hack. tauto.
Qed.

(** [pending_for_peer] without a QoS filter changes nothing and returns, in
    priority order (own destination, QoS class, age) and at most [limit] (1 to
    1024) at a time, exactly deliverable packets; a deliverable packet is left
    out only when the page is full of packets with the same or a higher
    priority. *)
Theorem pending_for_peer_exact s now peer limit retry path :
  ∃ rows,
    pending_for_peer now peer limit retry path None s = (Ok (pending_item_of <$> rows), s) ∧
    NoDup rows.*1 ∧ StronglySorted (key_le (pending_key peer)) rows ∧
    Z.of_nat (length rows) ≤ Z.max 1 (Z.min limit 1024) ∧
    (∀ id r, (id, r) ∈ rows → packets s !! id = Some r ∧
       pending_where s peer path None now (now - Z.max 0 retry) id r) ∧
    (∀ id r, packets s !! id = Some r →
       pending_where s peer path None now (now - Z.max 0 retry) id r →
       (id, r) ∉ rows →
       Z.of_nat (length rows) = Z.max 1 (Z.min limit 1024) ∧
       ∀ x, x ∈ rows → key_le (pending_key peer) x (id, r)).
Proof.
  exists (pending_rows s now peer limit retry path None).
  split_and!; [done| | | | |].
  - apply NoDup_take_order, NoDup_select_where.
  - apply StronglySorted_take, order_by_sorted.
  - unfold pending_rows. rewrite length_take. lia.
  - apply elem_of_pending_rows.
  - intros id r Hr Hw Hn. unfold pending_rows in *.
    set (all := order_by _ _) in *. set (n := Z.to_nat _) in *.
    assert ((id, r) ∈ all) as Hall by (by apply elem_of_order_by, elem_of_select_where).
    split; [|intros x Hx; apply (elem_of_take_order _ n all); [apply order_by_sorted|done..]].
    rewrite length_take. destruct (decide (n ≤ length all)%nat) as [Hle|Hgt]; [lia|].
    rewrite take_ge in Hn by lia. done.
Qed.

(** [add_packet] with an acceptable depth stores a new packet as undelivered
    and reports it as created; for a packet already stored it reports a
    duplicate and only lowers the recorded depth to the minimum.  Nothing else
    in the database changes. *)
Theorem add_packet_spec c c' now raw depth origin from info s :
  inspect_packet c c' raw false = Ok info → 0 ≤ depth ≤ max_hops info →
  let '(result, s') := add_packet c c' now raw depth origin from s in
  result = Ok (bool_decide (packets s !! packet_id info = None)) ∧
  s' = set_packets (packets s') s ∧
  (∀ id, id ≠ packet_id info → packets s' !! id = packets s !! id) ∧
  ∃ r', packets s' !! packet_id info = Some r' ∧
    match packets s !! packet_id info with
    | None => Packets.raw r' = raw ∧ Packets.delivered r' = false ∧
              Packets.depth r' = depth ∧ Packets.max_hops r' = max_hops info ∧
              Packets.destination_id r' = destination_id info ∧
              Packets.expires_ms r' = expires_ms info ∧
              Packets.received_from r' = from
    | Some r => r' = Packets.set_depth (Z.min (Packets.depth r) depth) r
    end.
Proof.
  intros Hinfo Hdepth. unfold add_packet. cbv [mbind ST_bind lift gets].
  rewrite Hinfo. unfold raise_if. rewrite (proj2 (Z.ltb_ge _ _)) by lia.
  rewrite (proj2 (Z.ltb_ge _ _)) by lia. cbn [orb].
  destruct (packets s !! packet_id info) as [r|] eqn:Hr; simpl.
  - split_and!; [done|done| |].
    + intros id Hid. by rewrite lookup_alter_ne.
    + rewrite lookup_alter_eq, Hr. eauto.
  - split_and!; [done|done| |].
    + intros id Hid. by rewrite lookup_insert_ne.
    + rewrite lookup_insert_eq. eexists. split; [done|]. by split_and!.
Qed.

Definition acked_one (now : Z) (peer path id : string) (s : db) : db :=
  (mark_acked_one now peer path id s).2.
Lemma mark_acked_one_run now peer path id s :
  mark_acked_one now peer path id s = (Ok tt, acked_one now peer path id s).
Proof. done. Qed.

(** An acknowledgement from the packet's destination completes it, an
    acknowledgement from any other peer only silences that peer: after
    [mark_acked], each listed packet is delivered iff it was before or the
    acknowledging peer is its destination, and the peer's delivery is
    acknowledged; packets not listed are untouched. *)
Theorem mark_acked_spec now ids peer path s :
  let '(result, s') := mark_acked now ids peer path s in
  result = Ok tt ∧
  (∀ id, id ∈ ids → ∃ d, deliveries s' !! (id, peer) = Some d ∧
     Deliveries.state d = Deliveries.Acked) ∧
  (∀ id r, packets s !! id = Some r → ∃ r', packets s' !! id = Some r' ∧
     Packets.delivered r' =
       (Packets.delivered r ||
        (bool_decide (id ∈ ids) && String.eqb (Packets.destination_id r) peer))) ∧
  (∀ id, id ∉ ids → packets s' !! id = packets s !! id).
Proof.
  induction ids as [|id ids IH] in s |- *.
  { simpl. split_and!; [done| | |done].
    - intros id Hin. by apply elem_of_nil in Hin.
    - intros id r Hr. exists r. by rewrite orb_false_r. }
  unfold mark_acked in *. cbn [for_each]. cbv [mbind ST_bind]. rewrite mark_acked_one_run.
  cbv beta iota.
  specialize (IH (acked_one now peer path id s)).
  pose proof (progress_mark_acked now ids peer path (acked_one now peer path id s)) as Hprog.
  unfold wp, mark_acked in Hprog. destruct (for_each _ ids _) as [res s']. simpl in Hprog.
  destruct IH as (-> & Hd & Hr & Hf). split_and!; [done| | |].
  - intros id' [->|Hin]%elem_of_cons; [|by apply Hd].
    edestruct (qp_deliveries _ _ Hprog (id, peer)) as (d' & Hd' & Hst & _).
    { unfold acked_one. simpl. apply lookup_upsert_eq. }
    exists d'. split; [done|]. apply Hst. by destruct (deliveries s !! (id, peer)).
  - intros id' r Hr'. unfold acked_one in Hr. simpl in Hr. unfold deliver_if_destination in Hr.
    destruct (decide (id = id')) as [->|Hne].
    + destruct (Hr id' (deliver_if_destination peer r)) as (r'' & ? & Hdel).
      { rewrite lookup_alter_eq, Hr'. done. }
      exists r''. split; [done|]. rewrite Hdel. unfold deliver_if_destination.
      rewrite (bool_decide_true (id' ∈ id' :: ids)) by set_solver.
      destruct (String.eqb (Packets.destination_id r) peer) eqn:E; simpl; rewrite ?E;
        destruct (Packets.delivered r), (bool_decide (id' ∈ ids)); done.
    + destruct (Hr id' r) as (r'' & ? & Hdel).
      { by rewrite lookup_alter_ne. }
      exists r''. split; [done|]. rewrite Hdel. do 2 f_equal. apply bool_decide_ext. set_solver.
  - intros id' Hin. rewrite not_elem_of_cons in Hin. destruct Hin as [Hne Hin].
    rewrite Hf by done. unfold acked_one. simpl. by rewrite lookup_alter_ne.
Qed.
End queue_theorems.

(** ** Witnesses: a stored packet, acknowledged by its destination *)
Definition sample_id : string := "00112233445566778899aabbccddeeff".
Definition sample_peer : string := "an1aaaaaaaaaaaaaaaaaaaa".
Definition sample_stored : db :=
  (@add_packet sample_outer_platform 2000 2000 2000 "raw" 0 "local" "" empty_db).2.
Definition sample_row : Packets.row := {|
  Packets.destination_id := sample_peer; Packets.created_ms := 1000;
  Packets.expires_ms := 60000; Packets.max_hops := 8; Packets.depth := 0;
  Packets.raw := "raw"; Packets.origin := "local"; Packets.received_from := "";
  Packets.inserted_ms := 2000; Packets.delivered := false; Packets.qos_class := Control |}.

Lemma add_packet_spec_witness :
  (0 ≤ 0 ≤ max_hops sample_info) ∧ packets sample_stored !! sample_id = Some sample_row ∧
  sample_stored = set_packets (packets sample_stored) empty_db.
Proof.
  split; [vm_compute; split; discriminate|]. split; [vm_compute; reflexivity|].
  refine (proj1 (proj2 (@add_packet_spec sample_outer_platform 2000 2000 2000 "raw" 0 "local" ""
    sample_info empty_db _ _))).
  - vm_compute. reflexivity.
  - vm_compute. split; discriminate.
Defined.

Lemma queue_progress_reachable_witness :
  queue_progress sample_stored
    (mark_acked 3000 [sample_id] sample_peer "direct" sample_stored).2.
Proof.
  apply (@queue_progress_reachable sample_outer_platform).
  apply rtc_once. apply step_mark_acked.
Defined.

Lemma no_redelivery_witness :
  let s := (mark_acked 3000 [sample_id] sample_peer "direct" sample_stored).2 in
  packets s !! sample_id = Some (Packets.set_delivered true sample_row) ∧
  sample_id ∉ (pending_rows s 9000 sample_peer 10 0 None None).*1.
Proof.
  intros s. split; [vm_compute; reflexivity|].
  apply (@no_redelivery sample_outer_platform s s sample_id
            (Packets.set_delivered true sample_row) sample_peer).
  - vm_compute. reflexivity.
  - left. reflexivity.
  - apply rtc_refl.
Defined.
