(* ===== verification/Prekeys.v ===== *)
(** One-time prekeys in [PacketStore] (src/anet/store.py): the node's own
    private keys ([local_prekeys]), which [commit_local_message] consumes, and
    the public keys of peers ([peer_prekeys]), which sealing reserves and binds.
    The WAL checkpoint after a consumption has no effect on the tables. *)
From S2P Require Import Prelude PyStr PyVal Schema Packet Queue.

(** ** Validation *)

Definition _prekey_id (value : string) : res string :=
  let value := lower (strip value) in
  raise_if (negb (fullmatch_hex 32 value)) (ValueError "invalid prekey ID");;
  mret value.
Definition _prekey_peer_id (value : string) : res string :=
  let value := strip value in
  raise_if (negb (startswith "an1" value) || (len value <? 20) || (128 <? len value))
    (ValueError "invalid prekey peer ID");;
  mret value.
Definition _prekey_bytes (value : bytes) (label : string) : res bytes :=
  raise_if (negb (len value =? 32)) (ValueError (label +:+ " must be 32 bytes"));;
  mret value.

(** [version not in {1, 2}] *)
Definition prekey_version_ok (bundle_version : Z) : bool :=
  (bundle_version =? 1) || (bundle_version =? 2).

(** One element of [keys]: the id and the key material of a prekey. *)
Record prekey_item (A : Type) := PrekeyItem { item_prekey_id : string; item_keys : A }.
Arguments PrekeyItem {A}.
Arguments item_prekey_id {A}.
Arguments item_keys {A}.

(** The normalising loop over [keys]: valid, distinct ids and 32-byte keys. *)
Section normalize.
Context {A : Type} (check : A → res A) (duplicate : string).
Fixpoint normalize_keys (seen : list string) (keys : list (prekey_item A))
    : res (list (string * A)) :=
  match keys with
  | [] => mret []
  | item :: keys' =>
      prekey_id ← _prekey_id (item_prekey_id item);
      raise_if (bool_decide (prekey_id ∈ seen)) (ValueError duplicate);;
      key ← check (item_keys item);
      rest ← normalize_keys (prekey_id :: seen) keys';
      mret ((prekey_id, key) :: rest)
  end.

Lemma normalize_keys_NoDup seen keys l :
  normalize_keys seen keys = Ok l → NoDup l.*1 ∧ (∀ id, id ∈ l.*1 → id ∉ seen).
Proof.
  revert seen l. induction keys as [|item keys IH]; intros seen l Hok; simpl in Hok; res_inv.
  { subst l. split; [constructor|]. intros id Hid. by apply elem_of_nil in Hid. }
  subst l. bool_prop. apply IH in E2 as [Hnd Hnew]. split; csimpl.
  - constructor; [|done]. intros Hin%Hnew. set_solver.
  - intros id [->|Hin]%elem_of_cons; [done|]. specialize (Hnew _ Hin). set_solver.
Qed.

Lemma normalize_keys_length seen keys l :
  normalize_keys seen keys = Ok l → length l = length keys.
Proof.
  revert seen l. induction keys as [|item keys IH]; intros seen l Hok; simpl in Hok; res_inv;
    subst l; simpl; [done|]. f_equal. eauto.
Qed.
End normalize.

Definition check_pair (keys : bytes * bytes) : res (bytes * bytes) :=
  public_key ← _prekey_bytes keys.1 "prekey public key";
  private_key ← _prekey_bytes keys.2 "prekey private key";
  mret (public_key, private_key).
Definition check_public (key : bytes) : res bytes := _prekey_bytes key "prekey public key".

(** [sum(body(x) for x in xs)] *)
Fixpoint sum_each {S A} (body : A → ST S Z) (xs : list A) : ST S Z :=
  match xs with
  | [] => mret 0
  | x :: xs' => n ← body x; m ← sum_each body xs'; mret (n + m)
  end.

Lemma steps_sum_each {S A} (R : relation S) `{!PreOrder R} (body : A → ST S Z) xs :
  (∀ x, steps R (body x)) → steps R (sum_each body xs).
Proof. intros Hb. induction xs as [|x xs IH]; simpl; steps_all; auto. Qed.

(** ** Local prekeys *)

Definition generation_key (peer_id : string) : string :=
  "local_prekey_generation:" +:+ peer_id.
Definition metadata (key : string) (s : db) : Z := default 0 (store_metadata s !! key).
(** [INSERT ... ON CONFLICT DO UPDATE SET integer_value = MAX(old, new)] *)
Definition raise_metadata (key : string) (value : Z) : M unit :=
  exec store_metadata set_store_metadata (upsert key value (Z.max value)).

Record batch_result := BatchResult {
  batch_peer_id : string;
  batch_generation : Z;
  batch_inserted : Z;
  batch_total : Z;
}.

(** What makes a stored key and an offered key the same. *)
Definition key_identity : Type := bytes * string * Z * Z * Z * Z.
Definition stored_identity (r : LocalPrekeys.row) : key_identity :=
  (LocalPrekeys.public_key r, LocalPrekeys.peer_id r, LocalPrekeys.bundle_version r,
   LocalPrekeys.generation r, LocalPrekeys.created_ms r, LocalPrekeys.expires_ms r).

(** [existing != incoming] in the equivocation check: both sides as maps from
    the id to (public key, bundle version, created, expires). *)
Definition existing_generation (s : db) (peer_id : string) (generation : Z)
    : gmap string (bytes * Z * Z * Z) :=
  (λ r, (LocalPrekeys.public_key r, LocalPrekeys.bundle_version r,
         LocalPrekeys.created_ms r, LocalPrekeys.expires_ms r)) <$>
  filter (λ kv, LocalPrekeys.peer_id kv.2 = peer_id ∧ LocalPrekeys.generation kv.2 = generation)
    (local_prekeys s).
Definition incoming_generation (bundle_version created_ms expires_ms : Z)
    (normalized : list (string * (bytes * bytes))) : gmap string (bytes * Z * Z * Z) :=
  list_to_map ((λ kv, (kv.1, (kv.2.1, bundle_version, created_ms, expires_ms))) <$> normalized).

Section local_prekeys.
Context {PL : Platform}.

(** One key of the batch; the result counts the insertions. *)
Definition add_local_prekey (peer_id : string) (bundle_version generation created_ms expires_ms : Z)
    (key : string * (bytes * bytes)) : M Z :=
  let '(prekey_id, (public_key, private_key)) := key in
  existing ← gets (λ s, local_prekeys s !! prekey_id);
  match existing with
  | Some r =>
      lift (raise_if (negb (bool_decide (stored_identity r =
          (public_key, peer_id, bundle_version, generation, created_ms, expires_ms))))
        (ValueError "local prekey ID collision"));;
      mret 0
  | None =>
      modify (λ s, set_local_prekeys (<[prekey_id := {|
        LocalPrekeys.rowid := next_rowid LocalPrekeys.rowid (local_prekeys s);
        LocalPrekeys.peer_id := peer_id;
        LocalPrekeys.bundle_version := bundle_version;
        LocalPrekeys.public_key := public_key;
        LocalPrekeys.private_key := Some private_key;
        LocalPrekeys.generation := generation;
        LocalPrekeys.created_ms := created_ms;
        LocalPrekeys.expires_ms := expires_ms;
        LocalPrekeys.state := LocalPrekeys.Available;
        LocalPrekeys.consumed_ms := 0;
        LocalPrekeys.packet_id := "" |}]> (local_prekeys s)) s);;
      mret 1
  end.

Definition add_local_prekey_batch (keys : list (prekey_item (bytes * bytes))) (peer_id : string)
    (bundle_version generation created_ms expires_ms : Z) : M batch_result :=
  peer_id ← lift (_prekey_peer_id peer_id);
  lift (raise_if (negb (prekey_version_ok bundle_version))
    (ValueError "unsupported local prekey bundle version"));;
  lift (raise_if (generation <? 1) (ValueError "prekey generation must be positive"));;
  lift (raise_if (expires_ms <=? created_ms) (ValueError "prekey expiry must be after creation"));;
  lift (raise_if (bool_decide (keys = []) || (1000 <? Z.of_nat (length keys)))
    (ValueError "prekey batch must contain 1 to 1000 keys"));;
  normalized ← lift (normalize_keys check_pair "duplicate prekey ID in local batch" [] keys);
  inserted ← transaction (
    latest ← gets (metadata (generation_key peer_id));
    lift (raise_if (generation <? latest) (ValueError "local prekey generation rollback"));;
    lift (raise_if (latest + 1 <? generation) (ValueError "local prekey generation gap"));;
    existing ← gets (λ s, existing_generation s peer_id generation);
    lift (raise_if ((generation =? latest) && (0 <? latest) &&
        negb (bool_decide
          (existing = incoming_generation bundle_version created_ms expires_ms normalized)))
      (ValueError "local prekey generation equivocation"));;
    inserted ← sum_each
      (add_local_prekey peer_id bundle_version generation created_ms expires_ms) normalized;
    raise_metadata (generation_key peer_id) generation;;
    mret inserted);
  mret (BatchResult peer_id generation inserted (Z.of_nat (length normalized))).

Definition next_local_prekey_generation (peer_id : string) : M Z :=
  peer_id ← lift (_prekey_peer_id peer_id);
  gets (λ s, metadata (generation_key peer_id) s + 1).

(** [WHERE peer_id = '' AND state = 'available' AND private_key IS NOT NULL] *)
Definition unscoped_live (r : LocalPrekeys.row) : Prop :=
  LocalPrekeys.peer_id r = "" ∧ LocalPrekeys.state r = LocalPrekeys.Available ∧
  is_Some (LocalPrekeys.private_key r).
#[global] Instance unscoped_live_dec r : Decision (unscoped_live r).
Proof. unfold unscoped_live. apply _. Defined.
Definition unscoped_count (s : db) : Z := count_where (λ _ r, unscoped_live r) (local_prekeys s).
(** [COALESCE(MAX(generation), 0) ... WHERE peer_id = ?] *)
Definition scope_generation (peer_id : string) (s : db) : Z :=
  max_where (λ _ r, LocalPrekeys.peer_id r = peer_id) LocalPrekeys.generation 0 (local_prekeys s).

Definition unscoped_local_prekey_count : M Z := gets unscoped_count.

(** [scope_legacy_local_prekeys] *)
Definition scope_legacy_local_prekeys (peer_id : string) : M (string * Z * Z) :=
  peer_id ← lift (_prekey_peer_id peer_id);
  transaction (
    count ← gets unscoped_count;
    generation ← gets (scope_generation "");
    if count =? 0 then mret (peer_id, count, generation)
    else
      exec local_prekeys set_local_prekeys
        (update_where (λ _ r, LocalPrekeys.peer_id r = "") (LocalPrekeys.set_peer_id peer_id));;
      generation ← gets (scope_generation peer_id);
      raise_metadata (generation_key peer_id) generation;;
      mret (peer_id, count, generation)).

(** [SET private_key = NULL, state = ?, consumed_ms = ?] *)
Definition erase_private (st : LocalPrekeys.state_t) (now : Z) (r : LocalPrekeys.row)
    : LocalPrekeys.row :=
  LocalPrekeys.Row (LocalPrekeys.rowid r) (LocalPrekeys.peer_id r) (LocalPrekeys.bundle_version r)
    (LocalPrekeys.public_key r) None (LocalPrekeys.generation r) (LocalPrekeys.created_ms r)
    (LocalPrekeys.expires_ms r) st now (LocalPrekeys.packet_id r).

(** [retire_unscoped_local_prekeys]; [sorted({...})] is a duplicate-free list. *)
Definition retire_unscoped_local_prekeys (now : Z) (peer_ids : list string)
    : M (Z * Z * list string) :=
  peers ← lift (mapM _prekey_peer_id peer_ids);
  let peers := sorted (remove_dups peers) in
  lift (raise_if (bool_decide (peers = []))
    (ValueError "at least one peer is required for legacy retirement"));;
  transaction (
    count ← gets unscoped_count;
    generation ← gets (scope_generation "");
    (if count =? 0 then mret tt
     else exec local_prekeys set_local_prekeys
       (update_where (λ _ r, LocalPrekeys.peer_id r = "" ∧ is_Some (LocalPrekeys.private_key r))
          (erase_private LocalPrekeys.RetiredUnscoped now)));;
    for_each (λ peer_id, raise_metadata (generation_key peer_id) generation) peers;;
    mret (count, generation, peers)).

Record public_batch := PublicBatch {
  pub_peer_id : string;
  pub_generation : Z;
  pub_bundle_version : Z;
  pub_created_ms : Z;
  pub_expires_ms : Z;
  pub_keys : list (string * bytes);
}.
(** [local_prekey_public_batch]; [MAX(generation)] is NULL without rows. *)
Definition local_prekey_public_batch (peer_id : string) (generation : option Z)
    (min_bundle_version : Z) : M (option public_batch) :=
  peer_id ← lift (_prekey_peer_id peer_id);
  lift (raise_if (negb (prekey_version_ok min_bundle_version))
    (ValueError "invalid minimum prekey bundle version"));;
  gets (λ s,
    let scoped := select_where (λ _ r, LocalPrekeys.peer_id r = peer_id ∧
      min_bundle_version ≤ LocalPrekeys.bundle_version r) (local_prekeys s) in
    let newest := order_by (λ kv, [- LocalPrekeys.generation kv.2]) scoped in
    g ← match generation with
        | Some g => Some g
        | None => kv ← head newest; Some (LocalPrekeys.generation kv.2)
        end;
    let rows := order_by (λ kv, [LocalPrekeys.rowid kv.2])
      (filter (λ kv, LocalPrekeys.generation kv.2 = g) scoped) in
    first ← head rows;
    Some (PublicBatch peer_id g (LocalPrekeys.bundle_version first.2)
      (LocalPrekeys.created_ms first.2) (LocalPrekeys.expires_ms first.2)
      ((λ kv, (kv.1, LocalPrekeys.public_key kv.2)) <$> rows))).

Record prekey_material := PrekeyMaterial {
  mat_prekey_id : string;
  mat_peer_id : string;
  mat_bundle_version : Z;
  mat_public_key : bytes;
  mat_private_key : bytes;
  mat_generation : Z;
  mat_expires_ms : Z;
}.
Definition local_prekey_material (prekey_id : string) : M (option prekey_material) :=
  prekey_id ← lift (_prekey_id prekey_id);
  gets (λ s,
    r ← local_prekeys s !! prekey_id;
    private_key ← LocalPrekeys.private_key r;
    guard (LocalPrekeys.state r = LocalPrekeys.Available);;
    Some (PrekeyMaterial prekey_id (LocalPrekeys.peer_id r) (LocalPrekeys.bundle_version r)
      (LocalPrekeys.public_key r) private_key (LocalPrekeys.generation r)
      (LocalPrekeys.expires_ms r))).

(** The prekey checks of [commit_local_message] *)
Definition check_local_prekey (message : OpenedMessage) (s : db) : res unit :=
  if String.eqb (msg_key_mode message) "opk" then
      prekey_id ← _prekey_id (msg_prekey_id message);
      r ← of_option (ValueError "packet one-time prekey is unknown")
            (local_prekeys s !! prekey_id);
      raise_if (negb (bool_decide (LocalPrekeys.state r = LocalPrekeys.Available))
                || negb (bool_decide (is_Some (LocalPrekeys.private_key r))))
        (ValueError "packet one-time prekey was already consumed");;
      raise_if (negb (String.eqb (LocalPrekeys.peer_id r) (msg_sender_id message)))
        (ValueError "packet sender is not authorized for this one-time prekey")
  else raise_if (negb (String.eqb (msg_key_mode message) "static"))
         (ValueError "invalid local packet key mode").

(** The row the UPDATE of [commit_local_message] writes. *)
Definition consume_row (now : Z) (packet_id : string) (r : LocalPrekeys.row) : LocalPrekeys.row :=
  LocalPrekeys.Row (LocalPrekeys.rowid r) (LocalPrekeys.peer_id r) (LocalPrekeys.bundle_version r)
    (LocalPrekeys.public_key r) None (LocalPrekeys.generation r) (LocalPrekeys.created_ms r)
    (LocalPrekeys.expires_ms r) LocalPrekeys.Consumed now packet_id.
Definition consumable (prekey_id sender_id : string) (k : string) (r : LocalPrekeys.row) : Prop :=
  k = prekey_id ∧ LocalPrekeys.state r = LocalPrekeys.Available ∧
  is_Some (LocalPrekeys.private_key r) ∧ LocalPrekeys.peer_id r = sender_id.
#[global] Instance consumable_dec p q k r : Decision (consumable p q k r).
Proof. unfold consumable. apply _. Defined.

Definition commit_local_message (now : Z) (message : OpenedMessage) (trusted visible : bool)
    : M bool :=
  transaction (
    existing_inbox ← gets (λ s, inbox s !! msg_packet_id message);
    match existing_inbox with
    | Some _ => mark_local_delivered (msg_packet_id message);; mret false
    | None =>
        check ← gets (check_local_prekey message);
        lift check;;
        body ← lift (pack (msg_body message));
        causal ← lift (pack_causal message);
        modify (λ s, set_inbox (<[msg_packet_id message :=
          inbox_row s now message body causal trusted visible]> (inbox s)) s);;
        mark_local_delivered (msg_packet_id message);;
        (if String.eqb (msg_key_mode message) "opk" then
            let target := consumable (msg_prekey_id message) (msg_sender_id message) in
            rowcount ← gets (λ s, count_where target (local_prekeys s));
            exec local_prekeys set_local_prekeys
              (update_where target (consume_row now (msg_packet_id message)));;
            lift (raise_if (negb (rowcount =? 1))
              (ValueError "packet one-time prekey consumption race"))
         else mret tt);;
        mret true
    end).
End local_prekeys.

(** ** Peer prekeys *)

Record import_result := ImportResult {
  imp_peer_id : string;
  imp_generation : Z;
  imp_inserted : Z;
  imp_total : Z;
  imp_duplicate : bool;
}.
Record reservation := Reservation {
  res_peer_id : string;
  res_prekey_id : string;
  res_bundle_version : Z;
  res_public_key : bytes;
  res_generation : Z;
  res_expires_ms : Z;
  res_reservation_id : string;
}.

(** [SET state = ?, reservation_id = ?, packet_id = ?, used_ms = ?] *)
Definition peer_row_to (st : PeerPrekeys.state_t) (reservation_id packet_id : string) (now : Z)
    (r : PeerPrekeys.row) : PeerPrekeys.row :=
  PeerPrekeys.Row (PeerPrekeys.rowid r) (PeerPrekeys.bundle_version r) (PeerPrekeys.public_key r)
    (PeerPrekeys.generation r) (PeerPrekeys.expires_ms r) st reservation_id packet_id now.

(** [SELECT ... WHERE peer_id = ? ORDER BY generation DESC LIMIT 1] *)
Definition latest_bundle (peer_id : string) (s : db) : option ((string * Z) * PeerBundles.row) :=
  head (order_by (λ kv, [- kv.1.2])
    (select_where (λ k _, k.1 = peer_id) (peer_prekey_bundles s))).

Section peer_prekeys.
Context {PL : Platform}.

Definition add_peer_prekey (peer_id : string) (bundle_version generation expires_ms : Z)
    (key : string * bytes) : M Z :=
  let '(prekey_id, public_key) := key in
  existing ← gets (λ s, peer_prekeys s !! (peer_id, prekey_id));
  lift (raise_if (bool_decide (is_Some existing)) (ValueError "peer prekey ID reuse"));;
  modify (λ s, set_peer_prekeys (<[(peer_id, prekey_id) := {|
    PeerPrekeys.rowid := next_rowid PeerPrekeys.rowid (peer_prekeys s);
    PeerPrekeys.bundle_version := bundle_version;
    PeerPrekeys.public_key := public_key;
    PeerPrekeys.generation := generation;
    PeerPrekeys.expires_ms := expires_ms;
    PeerPrekeys.state := PeerPrekeys.Available;
    PeerPrekeys.reservation_id := "";
    PeerPrekeys.packet_id := "";
    PeerPrekeys.used_ms := 0 |}]> (peer_prekeys s)) s);;
  mret 1.

(** The insertions of a new generation. *)
Definition insert_peer_bundle (now' : Z) (peer_id : string) (bundle_version : Z)
    (intended_peer_id : string) (generation : Z) (bundle_hash : string)
    (created_ms expires_ms : Z) (normalized : list (string * bytes)) : M import_result :=
  inserted ← sum_each (add_peer_prekey peer_id bundle_version generation expires_ms) normalized;
  exec peer_prekey_bundles set_peer_prekey_bundles (insert (peer_id, generation)
    {| PeerBundles.bundle_version := bundle_version;
       PeerBundles.intended_peer_id := intended_peer_id;
       PeerBundles.bundle_hash := bundle_hash; PeerBundles.created_ms := created_ms;
       PeerBundles.expires_ms := expires_ms; PeerBundles.imported_ms := now' |});;
  mret (ImportResult peer_id generation inserted (Z.of_nat (length normalized)) false).

(** [now] is read by the expiry check, [now'] is [imported_ms]. *)
Definition import_peer_prekey_bundle (now now' : Z) (peer_id : string)
    (keys : list (prekey_item bytes)) (bundle_version : Z) (intended_peer_id : string)
    (generation : Z) (bundle_hash : string) (created_ms expires_ms : Z) : M import_result :=
  let peer_id := strip peer_id in
  let intended_peer_id := strip intended_peer_id in
  let bundle_hash := lower (strip bundle_hash) in
  lift (raise_if (String.eqb peer_id "") (ValueError "peer ID is required"));;
  lift (raise_if (negb (prekey_version_ok bundle_version))
    (ValueError "unsupported prekey bundle version"));;
  lift (if 2 <=? bundle_version then _prekey_peer_id intended_peer_id;; mret tt else mret tt);;
  lift (raise_if (generation <? 1) (ValueError "prekey generation must be positive"));;
  lift (raise_if (negb (fullmatch_hex 64 bundle_hash)) (ValueError "invalid prekey bundle hash"));;
  lift (raise_if ((expires_ms <=? created_ms) || (expires_ms <=? now))
    (ValueError "prekey bundle is expired"));;
  lift (raise_if (bool_decide (keys = []) || (1000 <? Z.of_nat (length keys)))
    (ValueError "prekey bundle must contain 1 to 1000 keys"));;
  normalized ← lift (normalize_keys check_public "duplicate prekey ID in peer bundle" [] keys);
  let total := Z.of_nat (length normalized) in
  transaction (
    latest_row ← gets (latest_bundle peer_id);
    let insert_bundle := insert_peer_bundle now' peer_id bundle_version intended_peer_id
      generation bundle_hash created_ms expires_ms normalized in
    match latest_row with
    | Some ((_, latest), row) =>
        lift (raise_if (generation <? latest)
          (ValueError "peer prekey bundle generation rollback"));;
        if generation =? latest then
          lift (raise_if
            (negb (String.eqb (PeerBundles.bundle_hash row) bundle_hash) ||
             negb (PeerBundles.bundle_version row =? bundle_version) ||
             negb (String.eqb (PeerBundles.intended_peer_id row) intended_peer_id))
            (ValueError "peer prekey bundle equivocation"));;
          mret (ImportResult peer_id generation 0 total true)
        else insert_bundle
    | None => insert_bundle
    end).

Definition reservation_of (peer_id reservation_id : string)
    (kv : (string * string) * PeerPrekeys.row) : reservation :=
  Reservation peer_id kv.1.2 (PeerPrekeys.bundle_version kv.2) (PeerPrekeys.public_key kv.2)
    (PeerPrekeys.generation kv.2) (PeerPrekeys.expires_ms kv.2) reservation_id.

(** The two WHERE clauses of [reserve_peer_prekey]. *)
Definition reserved_where (peer_id reservation_id : string) (current min_bundle_version : Z)
    (k : string * string) (r : PeerPrekeys.row) : Prop :=
  k.1 = peer_id ∧ PeerPrekeys.state r = PeerPrekeys.Reserved ∧
  PeerPrekeys.reservation_id r = reservation_id ∧ current < PeerPrekeys.expires_ms r ∧
  min_bundle_version ≤ PeerPrekeys.bundle_version r.
#[global] Instance reserved_where_dec p i c m k r : Decision (reserved_where p i c m k r).
Proof. unfold reserved_where. apply _. Defined.
Definition available_where (peer_id : string) (current min_bundle_version : Z)
    (k : string * string) (r : PeerPrekeys.row) : Prop :=
  k.1 = peer_id ∧ PeerPrekeys.state r = PeerPrekeys.Available ∧
  current < PeerPrekeys.expires_ms r ∧ min_bundle_version ≤ PeerPrekeys.bundle_version r.
#[global] Instance available_where_dec p c m k r : Decision (available_where p c m k r).
Proof. unfold available_where. apply _. Defined.

(** [ORDER BY bundle_version DESC, generation ASC, rowid ASC] *)
Definition reserve_key (kv : (string * string) * PeerPrekeys.row) : list Z :=
  [ - PeerPrekeys.bundle_version kv.2; PeerPrekeys.generation kv.2; PeerPrekeys.rowid kv.2 ].

(** The second half of [reserve_peer_prekey]: take the best available key. *)
Definition reserve_available (now : Z) (peer_id reservation_id : string)
    (min_bundle_version : Z) : M (option reservation) :=
  row ← gets (λ s, head (order_by reserve_key
    (select_where (available_where peer_id now min_bundle_version) (peer_prekeys s))));
  match row with
  | None => mret None
  | Some kv =>
      let target := λ k r, k = (peer_id, kv.1.2) ∧
        PeerPrekeys.state r = PeerPrekeys.Available in
      rowcount ← gets (λ s, count_where target (peer_prekeys s));
      exec peer_prekeys set_peer_prekeys (update_where target
        (λ r, peer_row_to PeerPrekeys.Reserved reservation_id (PeerPrekeys.packet_id r) now r));;
      lift (raise_if (negb (rowcount =? 1)) (RuntimeError "prekey reservation race"));;
      mret (Some (reservation_of peer_id reservation_id kv))
  end.

(** [token] is [secrets.token_hex(16)], used when the caller names no
    reservation; the first query has no ORDER BY, the model takes any row. *)
Definition reserve_peer_prekey (now : Z) (token : string) (peer_id reservation_id : string)
    (min_bundle_version : Z) : M (option reservation) :=
  let peer_id := strip peer_id in
  lift (raise_if (String.eqb peer_id "") (ValueError "peer ID is required"));;
  lift (raise_if (negb (prekey_version_ok min_bundle_version))
    (ValueError "invalid minimum prekey bundle version"));;
  let reuse_reservation := negb (String.eqb (strip reservation_id) "") in
  reservation_id ← lift (if reuse_reservation then _prekey_id reservation_id else mret token);
  transaction (
    reserved ← gets (λ s,
      if reuse_reservation then
        head (select_where (reserved_where peer_id reservation_id now min_bundle_version)
                (peer_prekeys s))
      else None);
    match reserved with
    | Some kv => mret (Some (reservation_of peer_id reservation_id kv))
    | None => reserve_available now peer_id reservation_id min_bundle_version
    end).

(** [WHERE peer_id = ? AND prekey_id = ? AND state = 'reserved' AND reservation_id = ?] *)
Definition held_where (peer_id prekey_id reservation_id : string)
    (k : string * string) (r : PeerPrekeys.row) : Prop :=
  k = (peer_id, prekey_id) ∧ PeerPrekeys.state r = PeerPrekeys.Reserved ∧
  PeerPrekeys.reservation_id r = reservation_id.
#[global] Instance held_where_dec p i q k r : Decision (held_where p i q k r).
Proof. unfold held_where. apply _. Defined.

Definition bind_peer_prekey (now : Z) (peer_id prekey_id reservation_id packet_id : string)
    : M unit :=
  let peer_id := strip peer_id in
  prekey_id ← lift (_prekey_id prekey_id);
  reservation_id ← lift (_prekey_id reservation_id);
  let packet_id := strip packet_id in
  lift (raise_if (String.eqb packet_id "") (ValueError "packet ID is required"));;
  let target := held_where peer_id prekey_id reservation_id in
  rowcount ← gets (λ s, count_where target (peer_prekeys s));
  exec peer_prekeys set_peer_prekeys (update_where target
    (λ r, peer_row_to PeerPrekeys.Used (PeerPrekeys.reservation_id r) packet_id now r));;
  lift (raise_if (negb (rowcount =? 1)) (ValueError "prekey reservation is unavailable")).

Definition burn_peer_prekey (now : Z) (peer_id prekey_id reservation_id : string) : M unit :=
  let peer_id := strip peer_id in
  prekey_id ← lift (_prekey_id prekey_id);
  reservation_id ← lift (_prekey_id reservation_id);
  exec peer_prekeys set_peer_prekeys (update_where (held_where peer_id prekey_id reservation_id)
    (λ r, peer_row_to PeerPrekeys.Burned (PeerPrekeys.reservation_id r)
            (PeerPrekeys.packet_id r) now r)).

(** [peer_prekey_inventory]: (available, generation) *)
Definition peer_prekey_inventory (now : Z) (peer_id : string) (min_bundle_version : Z)
    : M (Z * Z) :=
  peer_id ← lift (_prekey_peer_id peer_id);
  lift (raise_if (negb (prekey_version_ok min_bundle_version))
    (ValueError "invalid minimum prekey bundle version"));;
  gets (λ s,
    (count_where (available_where peer_id now min_bundle_version) (peer_prekeys s),
     max_where (λ k r, k.1 = peer_id ∧ min_bundle_version ≤ PeerPrekeys.bundle_version r)
       PeerPrekeys.generation 0 (peer_prekeys s))).

Definition request_ms_key (peer_id : string) : string := "prekey_request_ms:" +:+ peer_id.
Definition request_generation_key (peer_id : string) : string :=
  "prekey_request_generation:" +:+ peer_id.
(** [prekey_request_state]: (last_requested_ms, known_generation) *)
Definition prekey_request_state (peer_id : string) : M (Z * Z) :=
  peer_id ← lift (_prekey_peer_id peer_id);
  gets (λ s, (metadata (request_ms_key peer_id) s, metadata (request_generation_key peer_id) s)).
Definition record_prekey_request (now : Z) (peer_id : string) (known_generation : Z)
    (requested_ms : option Z) : M unit :=
  peer_id ← lift (_prekey_peer_id peer_id);
  let requested_ms := default now requested_ms in
  transaction (
    exec store_metadata set_store_metadata (insert (request_ms_key peer_id) requested_ms);;
    exec store_metadata set_store_metadata
      (insert (request_generation_key peer_id) known_generation)).
End peer_prekeys.

(** ** What prekey operations never undo *)

(** A local key keeps its identity; a scope once given stays; private bytes once
    erased, an unavailable key and the packet that consumed it are final. *)
Definition local_progress (r r' : LocalPrekeys.row) : Prop :=
  LocalPrekeys.rowid r' = LocalPrekeys.rowid r ∧
  LocalPrekeys.public_key r' = LocalPrekeys.public_key r ∧
  LocalPrekeys.bundle_version r' = LocalPrekeys.bundle_version r ∧
  LocalPrekeys.generation r' = LocalPrekeys.generation r ∧
  LocalPrekeys.expires_ms r' = LocalPrekeys.expires_ms r ∧
  (LocalPrekeys.peer_id r ≠ "" → LocalPrekeys.peer_id r' = LocalPrekeys.peer_id r) ∧
  (LocalPrekeys.private_key r = None → LocalPrekeys.private_key r' = None) ∧
  (LocalPrekeys.private_key r' = None ∨ LocalPrekeys.private_key r' = LocalPrekeys.private_key r) ∧
  (LocalPrekeys.state r ≠ LocalPrekeys.Available →
     LocalPrekeys.state r' ≠ LocalPrekeys.Available ∧
     LocalPrekeys.packet_id r' = LocalPrekeys.packet_id r).

(** The life of a peer's key: available, reserved, spent, revoked. *)
Definition peer_rank (st : PeerPrekeys.state_t) : Z :=
  match st with
  | PeerPrekeys.Available => 0
  | PeerPrekeys.Reserved => 1
  | PeerPrekeys.Used | PeerPrekeys.Burned | PeerPrekeys.Expired => 2
  | PeerPrekeys.Revoked => 3
  end.
Definition peer_progress (r r' : PeerPrekeys.row) : Prop :=
  PeerPrekeys.rowid r' = PeerPrekeys.rowid r ∧
  PeerPrekeys.public_key r' = PeerPrekeys.public_key r ∧
  PeerPrekeys.bundle_version r' = PeerPrekeys.bundle_version r ∧
  PeerPrekeys.generation r' = PeerPrekeys.generation r ∧
  PeerPrekeys.expires_ms r' = PeerPrekeys.expires_ms r ∧
  (r' = r ∨ peer_rank (PeerPrekeys.state r) < peer_rank (PeerPrekeys.state r')).

Record prekey_progress (s s' : db) : Prop := {
  kp_local : table_progress local_progress (local_prekeys s) (local_prekeys s');
  kp_peer : table_progress peer_progress (peer_prekeys s) (peer_prekeys s');
  kp_bundles : table_progress eq (peer_prekey_bundles s) (peer_prekey_bundles s');
  kp_generation : ∀ p, metadata (generation_key p) s ≤ metadata (generation_key p) s';
}.

#[global] Instance local_progress_preorder : PreOrder local_progress.
Proof.
  split; [intros r; unfold local_progress; naive_solver|].
  intros a b c Hab Hbc. unfold local_progress in *. destruct_and!.
  split_and!; try congruence; intuition congruence.
Qed.
#[global] Instance peer_progress_preorder : PreOrder peer_progress.
Proof.
  split; [intros r; unfold peer_progress; naive_solver|].
  intros a b c Hab Hbc. unfold peer_progress in *. destruct_and!.
  split_and!; try congruence.
  repeat match goal with H : _ ∨ _ |- _ => destruct H end; subst; auto with lia.
Qed.
#[global] Instance prekey_progress_preorder : PreOrder prekey_progress.
Proof.
  split; [intros s; split; [reflexivity..|lia]|].
  intros a b c [? ? ? Hg1] [? ? ? Hg2]. split; [by etrans..|].
  intros p. specialize (Hg1 p). specialize (Hg2 p). lia.
Qed.

Lemma prekey_progress_local f s :
  table_progress local_progress (local_prekeys s) (f (local_prekeys s)) →
  prekey_progress s (set_local_prekeys (f (local_prekeys s)) s).
Proof. intros Hp. split; simpl; [done|reflexivity..]. Qed.
Lemma prekey_progress_peer f s :
  table_progress peer_progress (peer_prekeys s) (f (peer_prekeys s)) →
  prekey_progress s (set_peer_prekeys (f (peer_prekeys s)) s).
Proof. intros Hp. split; simpl; [reflexivity|done|reflexivity..]. Qed.
Lemma prekey_progress_bundles f s :
  table_progress eq (peer_prekey_bundles s) (f (peer_prekey_bundles s)) →
  prekey_progress s (set_peer_prekey_bundles (f (peer_prekey_bundles s)) s).
Proof. intros Hp. split; simpl; [reflexivity|reflexivity|done|reflexivity]. Qed.
Lemma prekey_progress_metadata f s :
  (∀ p, metadata (generation_key p) s ≤ default 0 (f (store_metadata s) !! generation_key p)) →
  prekey_progress s (set_store_metadata (f (store_metadata s)) s).
Proof. intros Hp. split; simpl; [reflexivity..|done]. Qed.

Lemma raise_metadata_progress key value :
  0 ≤ value → steps prekey_progress (raise_metadata key value).
Proof.
  intros Hv. apply steps_modify. intros s. apply prekey_progress_metadata. intros p.
  unfold metadata. destruct (decide (key = generation_key p)) as [->|Hne].
  - rewrite lookup_upsert_eq. destruct (store_metadata s !! _); simpl; lia.
  - by rewrite lookup_upsert_ne.
Qed.

Section prekey_steps.
Context {PL : Platform}.

Lemma prekeys_add_local_prekey_batch keys peer version generation created expires :
  steps prekey_progress (add_local_prekey_batch keys peer version generation created expires).
Proof.
  unfold add_local_prekey_batch. steps_all.
  - apply steps_sum_each; [apply _|]. intros [id [pub priv]]. unfold add_local_prekey.
    clear. intros s. wp_all; try reflexivity. apply (prekey_progress_local (insert _ _)).
    apply table_progress_insert_new; [apply _|done].
  - apply raise_metadata_progress. bool_prop. lia.
Qed.

Lemma prekeys_scope_legacy peer : steps prekey_progress (scope_legacy_local_prekeys peer).
Proof.
  unfold scope_legacy_local_prekeys, exec. steps_all.
  - apply steps_modify. intros ?. apply prekey_progress_local.
    apply table_progress_update_where; [apply _|]. intros _ r Hr. unfold local_progress. naive_solver.
  - apply raise_metadata_progress, max_where_ge_default.
Qed.

Lemma erase_private_progress st now r :
  st ≠ LocalPrekeys.Available → local_progress r (erase_private st now r).
Proof. intros Hst. unfold local_progress. naive_solver. Qed.

Lemma prekeys_retire_unscoped now peers :
  steps prekey_progress (retire_unscoped_local_prekeys now peers).
Proof.
  unfold retire_unscoped_local_prekeys, exec. steps_all.
  - apply steps_modify. intros ?. apply prekey_progress_local.
    apply table_progress_update_where; [apply _|]. intros _ r _. by apply erase_private_progress.
  - apply raise_metadata_progress, max_where_ge_default.
Qed.

Lemma consume_row_progress now id r :
  LocalPrekeys.state r = LocalPrekeys.Available → local_progress r (consume_row now id r).
Proof. intros Hst. unfold local_progress. naive_solver. Qed.

Lemma prekeys_commit_local_message now message trusted visible :
  steps prekey_progress (commit_local_message now message trusted visible).
Proof.
  unfold commit_local_message, mark_local_delivered, set_packet_row, exec. steps_all;
    apply steps_modify; intros ?; try (by split).
  apply prekey_progress_local. apply table_progress_update_where; [apply _|].
  intros k r (_ & Hst & _). by apply consume_row_progress.
Qed.

Lemma latest_bundle_max peer s k row :
  latest_bundle peer s = Some (k, row) →
  k.1 = peer ∧ peer_prekey_bundles s !! k = Some row ∧
  ∀ g r, peer_prekey_bundles s !! (peer, g) = Some r → g ≤ k.2.
Proof.
  unfold latest_bundle. set (key := λ kv : (string * Z) * PeerBundles.row, [- kv.1.2]).
  set (rows := select_where _ _). intros Hhead.
  pose proof (order_by_sorted key rows) as Hs.
  destruct (order_by key rows) as [|x l] eqn:E; simplify_eq/=.
  assert ((k, row) ∈ rows) as Hin by (rewrite <- (elem_of_order_by key), E; by left).
  apply elem_of_select_where in Hin as [Hk Hp]. split_and!; [done|done|].
  intros g r Hg. assert (((peer, g), r) ∈ rows) as Hin' by (by apply elem_of_select_where).
  rewrite <- (elem_of_order_by key), E in Hin'. apply elem_of_cons in Hin' as [Heq|Hin'].
  - destruct k; simplify_eq/=. lia.
  - inversion Hs as [|? ? ? Hall]; subst. rewrite Forall_forall in Hall.
    specialize (Hall _ Hin'). unfold key_le, key in Hall. simpl in Hall.
    rewrite orb_true_iff, andb_true_iff, Z.ltb_lt, Z.eqb_eq in Hall. lia.
Qed.
Lemma latest_bundle_none peer s :
  latest_bundle peer s = None → ∀ g, peer_prekey_bundles s !! (peer, g) = None.
Proof.
  unfold latest_bundle. set (key := λ kv : (string * Z) * PeerBundles.row, [- kv.1.2]).
  set (rows := select_where _ _). intros Hhead g.
  destruct (peer_prekey_bundles s !! (peer, g)) as [r|] eqn:Hg; [|done].
  assert (((peer, g), r) ∈ rows) as Hin' by (by apply elem_of_select_where).
  rewrite <- (elem_of_order_by key) in Hin'.
  destruct (order_by key rows); [by apply elem_of_nil in Hin'|done].
Qed.

Lemma add_peer_prekey_steps peer v g e key :
  steps prekey_progress (add_peer_prekey peer v g e key).
Proof.
  destruct key as [id pub]. unfold add_peer_prekey. intros s. wp_all; try reflexivity.
  bool_prop. apply (prekey_progress_peer (insert _ _)).
  apply table_progress_insert_new; [apply _|]. by apply eq_None_not_Some.
Qed.
Lemma add_peer_prekey_keeps peer v g e key :
  steps (keeps peer_prekey_bundles) (add_peer_prekey peer v g e key).
Proof. destruct key as [id pub]. unfold add_peer_prekey. steps_all. by apply steps_modify. Qed.

Lemma insert_peer_bundle_progress now' peer v intended g hash c e l s :
  peer_prekey_bundles s !! (peer, g) = None →
  wp (insert_peer_bundle now' peer v intended g hash c e l) (λ _ s', prekey_progress s s') s.
Proof.
  intros Hnew. unfold insert_peer_bundle, exec. wp_step.
  eapply wp_mono.
  { apply (steps_and prekey_progress (keeps peer_prekey_bundles));
      (apply steps_sum_each; [apply _|]); intros key.
    - apply add_peer_prekey_steps.
    - apply add_peer_prekey_keeps. }
  intros [n|err] s' [Hs Hk]; [|done]. wp_all. etrans; [done|].
  apply (prekey_progress_bundles (insert _ _)). apply table_progress_insert_new; [apply _|].
  by rewrite Hk.
Qed.

Lemma prekeys_import_peer_prekey_bundle now now' peer keys version intended generation hash c e :
  steps prekey_progress
    (import_peer_prekey_bundle now now' peer keys version intended generation hash c e).
Proof.
  unfold import_peer_prekey_bundle. do 8 steps_step. apply steps_transaction; [apply _|].
  intros s. do 2 wp_step. destruct (latest_bundle _ _) as [[[p g] row]|] eqn:Hlatest.
  - pose proof (latest_bundle_max _ _ _ _ Hlatest) as (Hp & _ & Hmax).
    simpl in Hp, Hmax. subst p.
    wp_all; try reflexivity. apply insert_peer_bundle_progress. bool_prop.
    destruct (_ !! _) as [r|] eqn:Hr; [|done]. specialize (Hmax _ _ Hr). lia.
  - by apply insert_peer_bundle_progress, latest_bundle_none.
Qed.
Lemma peer_row_to_progress st res packet now r :
  peer_rank (PeerPrekeys.state r) < peer_rank st → peer_progress r (peer_row_to st res packet now r).
Proof. intros Hlt. unfold peer_progress. simpl. tauto. Qed.

Lemma prekeys_update_peer (P : string * string → PeerPrekeys.row → Prop)
    `{!∀ k r, Decision (P k r)} f :
  (∀ k r, P k r → peer_progress r (f r)) →
  steps prekey_progress (exec peer_prekeys set_peer_prekeys (update_where P f)).
Proof.
  intros Hf. apply steps_modify. intros s. apply prekey_progress_peer.
  by apply table_progress_update_where; [apply _|].
Qed.

Lemma prekeys_reserve_peer_prekey now token peer reservation_id min :
  steps prekey_progress (reserve_peer_prekey now token peer reservation_id min).
Proof.
  unfold reserve_peer_prekey, reserve_available. steps_all. apply prekeys_update_peer.
  intros k r [_ Hst]. apply peer_row_to_progress. by rewrite Hst.
Qed.
Lemma prekeys_bind_peer_prekey now peer prekey_id reservation_id packet :
  steps prekey_progress (bind_peer_prekey now peer prekey_id reservation_id packet).
Proof.
  unfold bind_peer_prekey. steps_all. apply prekeys_update_peer.
  intros k r (_ & Hst & _). apply peer_row_to_progress. by rewrite Hst.
Qed.
Lemma prekeys_burn_peer_prekey now peer prekey_id reservation_id :
  steps prekey_progress (burn_peer_prekey now peer prekey_id reservation_id).
Proof.
  unfold burn_peer_prekey. steps_all. apply prekeys_update_peer.
  intros k r (_ & Hst & _). apply peer_row_to_progress. by rewrite Hst.
Qed.
Lemma prekeys_record_prekey_request now peer known requested :
  steps prekey_progress (record_prekey_request now peer known requested).
Proof.
  unfold record_prekey_request, exec. steps_all; apply steps_modify; intros s;
    apply (prekey_progress_metadata (insert _ _)); intros p; unfold metadata;
    rewrite lookup_insert_ne by done; lia.
Qed.
End prekey_steps.

(** ** Correctness of consumption and reservation *)

Section prekey_theorems.
Context {PL : Platform}.

(** The rows a commit writes besides the inbox row. *)
Definition committed (now : Z) (message : OpenedMessage) (s s' : db) : Prop :=
  packets s' = alter (Packets.set_delivered true) (msg_packet_id message) (packets s) ∧
  if String.eqb (msg_key_mode message) "opk" then
    ∃ r, local_prekeys s !! msg_prekey_id message = Some r ∧
      LocalPrekeys.state r = LocalPrekeys.Available ∧
      is_Some (LocalPrekeys.private_key r) ∧
      LocalPrekeys.peer_id r = msg_sender_id message ∧
      local_prekeys s' = <[msg_prekey_id message :=
        consume_row now (msg_packet_id message) r]> (local_prekeys s)
  else msg_key_mode message = "static" ∧ local_prekeys s' = local_prekeys s.

Lemma consumable_key id sender (t : gmap string LocalPrekeys.row) k r :
  t !! k = Some r → consumable id sender k r → k = id.
Proof. by intros _ [-> _]. Qed.

Lemma consume_update now message s :
  count_where (consumable (msg_prekey_id message) (msg_sender_id message)) (local_prekeys s) = 1 →
  ∃ r, local_prekeys s !! msg_prekey_id message = Some r ∧
    consumable (msg_prekey_id message) (msg_sender_id message) (msg_prekey_id message) r ∧
    update_where (consumable (msg_prekey_id message) (msg_sender_id message))
      (consume_row now (msg_packet_id message)) (local_prekeys s) =
    <[msg_prekey_id message := consume_row now (msg_packet_id message) r]> (local_prekeys s).
Proof.
  rewrite (count_where_key _ _ _ (consumable_key _ _ _)), (update_where_key _ _ _ (consumable_key _ _ _)).
  destruct (local_prekeys s !! _) as [r|]; [|done]. case_decide; [|done]. eauto.
Qed.

(** The contract of a commit: it does nothing and raises, or marks a replayed
    packet delivered, or does all of its writes. *)
Definition commit_post (now : Z) (message : OpenedMessage) (trusted visible : bool) (s : db)
    (result : res bool) (s' : db) : Prop :=
  match result with
  | Err _ => s' = s ∧ inbox s !! msg_packet_id message = None
  | Ok false =>
      is_Some (inbox s !! msg_packet_id message) ∧
      s' = set_packets
        (alter (Packets.set_delivered true) (msg_packet_id message) (packets s)) s
  | Ok true =>
      inbox s !! msg_packet_id message = None ∧
      (∃ body causal, pack (msg_body message) = Ok body ∧ pack_causal message = Ok causal ∧
         inbox s' = <[msg_packet_id message :=
           inbox_row s now message body causal trusted visible]> (inbox s)) ∧
      committed now message s s' ∧
      deliveries s' = deliveries s ∧ delivery_paths s' = delivery_paths s
  end.

Lemma commit_run now message trusted visible s :
  wp (commit_local_message now message trusted visible)
     (commit_post now message trusted visible s) s.
Proof.
  unfold wp, commit_post, commit_local_message. cbv [transaction mbind ST_bind gets lift modify exec
    mark_local_delivered set_packet_row mret ST_ret].
  destruct (inbox s !! msg_packet_id message) as [row|] eqn:Hin; [simpl; eauto|].
  destruct (check_local_prekey message s) as [[]|] eqn:Hcheck; [|done].
  destruct (pack (msg_body message)) as [body|]; [|done].
  destruct (pack_causal message) as [causal|]; [|done].
  unfold committed, check_local_prekey in *.
  destruct (String.eqb (msg_key_mode message) "opk") eqn:Hmode.
  - cbn [local_prekeys set_inbox set_packets packets].
    destruct (_ =? 1) eqn:Hcount; [|done]. apply Z.eqb_eq in Hcount.
    destruct (consume_update now message s Hcount) as (r & Hr & (_ & Hst & Hpriv & Hpeer) & Hup).
    simpl. split_and!; [done|eauto|done| |done|done].
    exists r. by rewrite Hup.
  - apply raise_if_ok in Hcheck. bool_prop. simpl. split_and!; eauto.
Qed.

(** A message whose checks pass is stored. *)
Lemma commit_accepts now message trusted visible s body causal :
  inbox s !! msg_packet_id message = None →
  check_local_prekey message s = Ok tt →
  (msg_key_mode message = "opk" → _prekey_id (msg_prekey_id message) = Ok (msg_prekey_id message)) →
  pack (msg_body message) = Ok body → pack_causal message = Ok causal →
  (commit_local_message now message trusted visible s).1 = Ok true.
Proof.
  intros Hnew Hcheck Hid Hbody Hcausal. unfold commit_local_message.
  cbv [transaction mbind ST_bind gets lift modify exec mark_local_delivered set_packet_row mret ST_ret].
  rewrite Hnew, Hcheck, Hbody, Hcausal. unfold check_local_prekey in Hcheck.
  destruct (String.eqb (msg_key_mode message) "opk") eqn:Hmode; [|done]. bool_prop.
  specialize (Hid Hmode). rewrite Hid in Hcheck.
  cbn [mbind res_bind] in Hcheck. res_inv. bool_prop.
  cbn [local_prekeys set_inbox set_packets].
  rewrite (count_where_key _ _ _ (consumable_key _ _ _)), E, decide_True by done. done.
Qed.

(** A prekey that is not available any more opens nothing. *)
Lemma commit_unavailable now message trusted visible s r :
  inbox s !! msg_packet_id message = None → msg_key_mode message = "opk" →
  _prekey_id (msg_prekey_id message) = Ok (msg_prekey_id message) →
  local_prekeys s !! msg_prekey_id message = Some r →
  LocalPrekeys.state r ≠ LocalPrekeys.Available →
  commit_local_message now message trusted visible s =
    (Err (ValueError "packet one-time prekey was already consumed"), s).
Proof.
  intros Hnew Hmode Hid Hr Hst. unfold commit_local_message.
  cbv [transaction mbind ST_bind gets lift]. rewrite Hnew. unfold check_local_prekey.
  rewrite Hmode, String.eqb_refl, Hid. cbv [mbind res_bind]. rewrite Hr. cbv [of_option].
  by rewrite bool_decide_false.
Qed.

(** *** Reservation *)

(** The stored key a reservation stands for. *)
Definition holds_key (now min_version : Z) (res : reservation) (s : db) : Prop :=
  ∃ row, peer_prekeys s !! (res_peer_id res, res_prekey_id res) = Some row ∧
    PeerPrekeys.state row = PeerPrekeys.Reserved ∧
    PeerPrekeys.reservation_id row = res_reservation_id res ∧
    PeerPrekeys.public_key row = res_public_key res ∧
    now < PeerPrekeys.expires_ms row ∧ min_version ≤ PeerPrekeys.bundle_version row.

(** The row chosen when no reservation is reused. *)
Definition best_available (peer_id : string) (now min_version : Z) (s : db)
    (kv : (string * string) * PeerPrekeys.row) : Prop :=
  peer_prekeys s !! kv.1 = Some kv.2 ∧ available_where peer_id now min_version kv.1 kv.2 ∧
  ∀ k r, peer_prekeys s !! k = Some r → available_where peer_id now min_version k r →
    key_le reserve_key kv (k, r).

Lemma head_order_by {A} (key : A → list Z) (l : list A) x :
  head (order_by key l) = Some x → x ∈ l ∧ ∀ y, y ∈ l → key_le key x y.
Proof.
  intros Hhead. pose proof (order_by_sorted key l) as Hs.
  destruct (order_by key l) as [|z l'] eqn:E; simplify_eq/=.
  assert (∀ y, y ∈ l ↔ y ∈ x :: l') as Hin by (intros y; by rewrite <- E, elem_of_order_by).
  split; [apply Hin; by left|]. intros y [->|Hy]%Hin%elem_of_cons.
  - destruct (zlex_total (key x) (key x)); done.
  - inversion Hs as [|? ? ? Hall]; subst. rewrite Forall_forall in Hall. by apply Hall.
Qed.
Lemma head_order_by_none {A} (key : A → list Z) (l : list A) :
  head (order_by key l) = None → l = [].
Proof.
  intros Hhead. apply Permutation_nil. rewrite <- (order_by_Permutation key l).
  by destruct (order_by key l).
Qed.

(** The contract of [reserve_peer_prekey]: [rid] is the reservation it works for. *)
Definition reserve_post (now : Z) (peer_id rid : string) (reuse : bool) (min_version : Z) (s : db)
    (result : res (option reservation)) (s' : db) : Prop :=
  match result with
  | Err _ => s' = s
  | Ok None =>
      s' = s ∧ ∀ k r, peer_prekeys s !! k = Some r → ¬ available_where peer_id now min_version k r
  | Ok (Some res) =>
      res_peer_id res = peer_id ∧ res_reservation_id res = rid ∧
      holds_key now min_version res s' ∧
      ((reuse = true ∧ s' = s) ∨
       ∃ row, best_available peer_id now min_version s ((peer_id, res_prekey_id res), row) ∧
         s' = set_peer_prekeys (<[(peer_id, res_prekey_id res) :=
           peer_row_to PeerPrekeys.Reserved rid (PeerPrekeys.packet_id row) now row]>
             (peer_prekeys s)) s)
  end.

Lemma reserve_available_run now peer rid min s :
  wp (reserve_available now peer rid min) (λ r s', (∀ e, r ≠ Err e) ∧
        ∀ reuse, reserve_post now peer rid reuse min s r s') s.
Proof.
  unfold reserve_available. wp_step. wp_step.
  destruct (head _) as [[[p id] row]|] eqn:Hhead.
  - apply head_order_by in Hhead as [Hin Hmin].
    apply elem_of_select_where in Hin as [Hr Hav]. pose proof Hav as (Hp & Hst & Hexp & Hver).
    simpl in Hp. subst p.
    assert (∀ k r, peer_prekeys s !! k = Some r →
      k = (peer, id) ∧ PeerPrekeys.state r = PeerPrekeys.Available → k = (peer, id))
      as Hkey by tauto.
    cbn [fst snd]. wp_step. wp_step. rewrite (count_where_key _ _ _ Hkey), Hr, decide_True by done.
    unfold exec. wp_all; [done|]. rewrite (update_where_key _ _ _ Hkey), Hr, decide_True by done.
    split; [done|]. intros reuse. simpl. split_and!; [done|done| |].
    + exists (peer_row_to PeerPrekeys.Reserved rid (PeerPrekeys.packet_id row) now row).
      simpl. rewrite lookup_insert_eq. split_and!; done.
    + right. exists row. split; [|done]. split_and!; [done|done|].
      intros k r Hk Hkav. apply Hmin. by apply elem_of_select_where.
  - apply head_order_by_none in Hhead. wp_step. split; [done|]. intros ?. split; [done|].
    intros k r Hk Hkav. assert ((k, r) ∈ select_where (available_where peer now min)
      (peer_prekeys s)) as Hin by (by apply elem_of_select_where).
    rewrite Hhead in Hin. by apply elem_of_nil in Hin.
Qed.

Lemma reserve_run now token peer_id reservation_id min s :
  let reuse := negb (String.eqb (strip reservation_id) "") in
  wp (reserve_peer_prekey now token peer_id reservation_id min)
     (reserve_post now (strip peer_id)
        (if reuse then lower (strip reservation_id) else token) reuse min s) s.
Proof.
  intros reuse. unfold reserve_peer_prekey. fold reuse.
  do 2 (wp_step; wp_step; [exact eq_refl|]). wp_step.
  wp_step; [|exact eq_refl].
  match goal with H : _ = Ok ?rid |- _ => rename rid into r; rename H into Hrid end.
  replace (if reuse then lower (strip reservation_id) else token) with r.
  2: { destruct reuse; unfold _prekey_id in Hrid; res_inv; done. }
  apply wp_transaction. do 2 wp_step.
  match goal with |- wp (match ?x with _ => _ end) _ _ => destruct x as [[[p id] row]|] eqn:Hres end.
  - destruct reuse; [|done]. apply head_Some_elem_of, elem_of_select_where in Hres as [Hr Hw].
    destruct Hw as (Hp & Hst & Hid & Hexp & Hver). simpl in Hp. subst p.
    wp_step. simpl. split_and!; [done|done| |by left].
    exists row. by split_and!.
  - eapply wp_mono; [apply reserve_available_run|].
    intros [a|e] s' [Hne Hpost]; [apply Hpost|by destruct (Hne e)].
Qed.

(** *** Bundle import *)

(** A key as [add_peer_prekey] inserts it. *)
Definition fresh_peer_key (version generation expires : Z) (public_key : bytes)
    (r : PeerPrekeys.row) : Prop :=
  PeerPrekeys.state r = PeerPrekeys.Available ∧ PeerPrekeys.public_key r = public_key ∧
  PeerPrekeys.bundle_version r = version ∧ PeerPrekeys.generation r = generation ∧
  PeerPrekeys.expires_ms r = expires ∧ PeerPrekeys.reservation_id r = "".

Lemma add_peer_prekeys_run peer v g e (l : list (string * bytes)) s :
  NoDup l.*1 →
  wp (sum_each (add_peer_prekey peer v g e) l) (λ r s',
    ∀ n, r = Ok n → n = Z.of_nat (length l) ∧
      (∀ id pub, (id, pub) ∈ l → peer_prekeys s !! (peer, id) = None ∧
         ∃ row, peer_prekeys s' !! (peer, id) = Some row ∧ fresh_peer_key v g e pub row) ∧
      (∀ k, (∀ id, id ∈ l.*1 → k ≠ (peer, id)) → peer_prekeys s' !! k = peer_prekeys s !! k)) s.
Proof.
  revert s. induction l as [|[id pub] l IH]; intros s Hnd.
  { intros n [= <-]. split_and!; [done| |done].
    intros id pub Hin. by apply elem_of_nil in Hin. }
  cbn [sum_each]. csimpl in Hnd. apply NoDup_cons in Hnd as [Hid Hnd].
  wp_step. unfold add_peer_prekey at 1. wp_all; try (intros n [=]).
  bool_prop. eapply wp_mono; [by apply IH|].
  intros [m|err] s' Hl; [|intros n [=]]. intros n [= <-].
  destruct (Hl m eq_refl) as (-> & Hkeys & Hrest). split_and!; [csimpl; lia| |].
  - intros id' pub' [[= -> ->]|Hin]%elem_of_cons.
    + split; [by apply eq_None_not_Some|]. rewrite Hrest.
      * simpl. rewrite lookup_insert_eq. eexists. split; [done|]. by split_and!.
      * intros id'' Hin [= <-]. done.
    + destruct (Hkeys id' pub' Hin) as [Hnone Hrow]. split; [|done]. simpl in Hnone.
      rewrite lookup_insert_None in Hnone. tauto.
  - intros k Hk. rewrite Hrest.
    + simpl. rewrite lookup_insert_ne; [done|]. apply not_eq_sym, Hk. by left.
    + intros id' Hin. apply Hk. by right.
Qed.

(** The contract of an import, for stripped arguments. *)
Definition import_post (peer_id : string) (version : Z) (intended : string) (generation : Z)
    (hash : string) (expires : Z) (keys : list (prekey_item bytes)) (s : db)
    (result : res import_result) (s' : db) : Prop :=
  match result with
  | Err _ => s' = s
  | Ok i =>
      (∀ g r, peer_prekey_bundles s !! (peer_id, g) = Some r → g ≤ generation) ∧
      (∃ r, peer_prekey_bundles s' !! (peer_id, generation) = Some r ∧
         PeerBundles.bundle_hash r = hash ∧ PeerBundles.bundle_version r = version ∧
         PeerBundles.intended_peer_id r = intended) ∧
      if imp_duplicate i then s' = s
      else
        peer_prekey_bundles s !! (peer_id, generation) = None ∧
        ∃ l, normalize_keys check_public "duplicate prekey ID in peer bundle" [] keys = Ok l ∧
          imp_inserted i = Z.of_nat (length keys) ∧
          (∀ id pub, (id, pub) ∈ l → peer_prekeys s !! (peer_id, id) = None ∧
             ∃ row, peer_prekeys s' !! (peer_id, id) = Some row ∧
               fresh_peer_key version generation expires pub row) ∧
          (∀ k, (∀ id, id ∈ l.*1 → k ≠ (peer_id, id)) →
             peer_prekeys s' !! k = peer_prekeys s !! k)
  end.

Lemma insert_bundle_run now' peer v intended g hash c e keys l s :
  normalize_keys check_public "duplicate prekey ID in peer bundle" [] keys = Ok l →
  (∀ g' r, peer_prekey_bundles s !! (peer, g') = Some r → g' ≤ g) →
  peer_prekey_bundles s !! (peer, g) = None →
  wp (insert_peer_bundle now' peer v intended g hash c e l)
     (λ r s', match r with
              | Ok _ => import_post peer v intended g hash e keys s r s'
              | Err _ => True
              end) s.
Proof.
  intros Hl Hmax Hnew. pose proof (normalize_keys_NoDup _ _ _ _ _ Hl) as [Hnd _].
  pose proof (normalize_keys_length _ _ _ _ _ Hl) as Hlen.
  unfold insert_peer_bundle, exec. wp_step.
  pose proof (add_peer_prekeys_run peer v g e l s Hnd) as Hrun. unfold wp in *.
  destruct (sum_each _ l s) as [[n|err] s1]; [|done]. simpl in Hrun.
  destruct (Hrun n eq_refl) as (-> & Hkeys & Hrest). simpl. rewrite lookup_insert_eq.
  split_and!; [done|eexists; by split_and!|done|]. exists l. split_and!; [done|lia|done|done].
Qed.

Lemma import_run now now' peer keys v intended g hash c e s :
  wp (import_peer_prekey_bundle now now' peer keys v intended g hash c e)
     (import_post (strip peer) v (strip intended) g (lower (strip hash)) e keys s) s.
Proof.
  unfold import_peer_prekey_bundle.
  do 2 (wp_step; wp_step; [exact eq_refl|]). wp_step. wp_step; [|exact eq_refl].
  do 4 (wp_step; wp_step; [exact eq_refl|]). wp_step. wp_step; [|exact eq_refl].
  apply wp_transaction. do 2 wp_step.
  match goal with H : normalize_keys _ _ _ _ = Ok ?l' |- _ => rename l' into l; rename H into Hl end.
  assert (∀ m s', wp m (λ r s', match r with
              | Ok _ => import_post (strip peer) v (strip intended) g (lower (strip hash)) e keys s r s'
              | Err _ => True
              end) s' → wp m (λ r s', match r with
              | Ok _ => import_post (strip peer) v (strip intended) g (lower (strip hash)) e keys s r s'
              | Err _ => import_post (strip peer) v (strip intended) g (lower (strip hash)) e keys s r s
              end) s') as Hweak.
  { intros m s' Hm. eapply wp_mono; [exact Hm|]. by intros [?|?] ?. }
  destruct (latest_bundle _ _) as [[[p g'] row]|] eqn:Hlatest.
  - pose proof (latest_bundle_max _ _ _ _ Hlatest) as (Hp & Hrow & Hmax).
    simpl in Hp, Hmax. subst p. wp_step. wp_step; [done|]. bool_prop.
    wp_step; bool_prop.
    + subst g'. wp_step. wp_step; [done|]. bool_prop. subst. wp_step.
      split_and!; [done|eexists; by split_and!|done].
    + apply Hweak, insert_bundle_run; [done| |].
      * intros g2 r Hr. specialize (Hmax _ _ Hr). lia.
      * destruct (peer_prekey_bundles s !! (strip peer, g)) as [r|] eqn:Hr; [|done]. specialize (Hmax _ _ Hr). lia.
  - apply Hweak, insert_bundle_run; [done| |].
    + intros g2 r. by rewrite (latest_bundle_none _ _ Hlatest).
    + by apply latest_bundle_none.
Qed.

(** ** Properties *)

(** A commit either does nothing and raises, or marks a replayed packet
    delivered, or stores the message, marks its packet delivered and, for a
    one-time-prekey packet, consumes the available prekey scoped to the sender
    and erases its private bytes: never a part of these. *)
Theorem commit_local_message_spec now message trusted visible s :
  let '(result, s') := commit_local_message now message trusted visible s in
  commit_post now message trusted visible s result s'.
Proof.
  pose proof (commit_run now message trusted visible s) as Hrun. unfold wp in Hrun.
  by destruct (commit_local_message _ _ _ _ _).
Qed.

(** A reservation holds a live key of the right version: the one the caller's
    reservation already holds, or the available key with the highest bundle
    version and then the oldest generation; [None] means that no key is
    available, and an error changes nothing. *)
Theorem reserve_peer_prekey_spec now token peer_id reservation_id min s :
  let reuse := negb (String.eqb (strip reservation_id) "") in
  let '(result, s') := reserve_peer_prekey now token peer_id reservation_id min s in
  reserve_post now (strip peer_id)
    (if reuse then lower (strip reservation_id) else token) reuse min s result s'.
Proof.
  pose proof (reserve_run now token peer_id reservation_id min s) as Hrun. unfold wp in Hrun.
  by destruct (reserve_peer_prekey _ _ _ _ _ _).
Qed.

(** An imported bundle is never older than any bundle of that peer on record
    and equal in hash, version and scope to the recorded one of its generation;
    a new generation stores every key, all of them unseen before and available,
    and a refused bundle stores none. *)
Theorem import_peer_prekey_bundle_spec now now' peer keys v intended g hash c e s :
  let '(result, s') := import_peer_prekey_bundle now now' peer keys v intended g hash c e s in
  import_post (strip peer) v (strip intended) g (lower (strip hash)) e keys s result s'.
Proof.
  pose proof (import_run now now' peer keys v intended g hash c e s) as Hrun. unfold wp in Hrun.
  by destruct (import_peer_prekey_bundle _ _ _ _ _ _ _ _ _ _ _).
Qed.
End prekey_theorems.
