(* ===== verification/Ahub.v ===== *)
(** The objects of the hub (src/anet/ahub.py): signed requests, limits, custody receipts,
    relay reservations, and the destination's signed proof that it settled a packet. *)
From S2P Require Import Prelude PyStr PyVal Codecs Schema Packet ControlPlane.

Definition AHUB_REQUEST_VERSION : Z := 1.
Definition AHUB_REQUEST_TYPE : string := "anet.ahub-request.v1".
Definition AHUB_DB_VERSION : Z := 6.
Definition AHUB_REQUEST_SKEW_MS : Z := 5 * 60 * 1000.
Definition AHUB_NONCE_RETENTION_MS : Z := 10 * 60 * 1000.
Definition MIN_CLAIM_LEASE_MS : Z := 5 * 1000.
Definition MAX_CLAIM_LEASE_MS : Z := 5 * 60 * 1000.
Definition MAX_CLAIM_BATCH : Z := 100.
Definition DEFAULT_MAX_PACKETS : Z := 1000.
Definition DEFAULT_MAX_BYTES : Z := 256 * 1024 * 1024.
Definition MIN_RELAY_RESERVATION_TTL_MS : Z := 30 * 1000.
Definition DEFAULT_RELAY_RESERVATION_TTL_MS : Z := 15 * 60 * 1000.
Definition MIN_RELAY_DURATION_MS : Z := 1 * 1000.
Definition DEFAULT_MAX_RELAY_DURATION_MS : Z := 5 * 60 * 1000.
Definition DEFAULT_MAX_RELAY_BYTES_EACH_DIRECTION : Z := 64 * 1024 * 1024.
Definition DEFAULT_MAX_RELAY_RESERVATIONS_PER_NODE : Z := 4.
Definition DEFAULT_MAX_RELAY_CONNECTIONS_PER_NODE : Z := 4.
Definition DEFAULT_MAX_RELAY_FRAME_BYTES : Z := 64 * 1024.

(** [_NONCE_RE], [_PATH_RE], [_PACKET_ID_RE] and [_RELAY_RESERVATION_ID_RE] *)
Definition nonce_char (a : ascii) : bool := is_alnum a || one_of "_-" a.
Definition NONCE_RE : string → bool := fullmatch nonce_char nonce_char 15 127.
Definition path_char (a : ascii) : bool := is_alnum a || one_of "._~!$&'()*+,;=:@%/-" a.
Definition PATH_RE : string → bool := fullmatch (one_of "/") path_char 1 511.
Definition METHODS : list string := ["GET"; "POST"; "PUT"; "DELETE"].
Definition PACKET_ID_RE : string → bool := fullmatch_hex 32.
Definition RELAY_RESERVATION_ID_RE : string → bool := fullmatch_hex 32.

(** [s.upper()] on the letters below 256; the three whose upper case lies elsewhere stay:
    no method name has them. *)
Definition upper_char (a : ascii) : ascii :=
  if in_range 97 122 a || in_range 224 246 a || in_range 248 254 a
  then ascii_of_N (N_of_ascii a - 32) else a.
Definition upper (s : string) : string := str_map upper_char s.
(** [sub in s] *)
Fixpoint contains (sub s : string) : bool :=
  startswith sub s || match s with EmptyString => false | String _ s' => contains sub s' end.

Definition _validate_method (method : string) : res string :=
  let value := upper method in
  raise_if (negb (bool_decide (value ∈ METHODS))) (ValueError "unsupported Ahub request method");;
  mret value.
Definition _validate_path (path : string) : res string :=
  raise_if (negb (PATH_RE path) || contains "//" path || contains ".." path)
    (ValueError "invalid Ahub request path");;
  mret path.

(** ** Requests *)

Record AhubRequest := {
  q_node_id : string;
  q_method : string;
  q_path : string;
  q_issued_ms : Z;
  q_nonce : string;
  q_body_sha256 : bytes;
  q_signature : bytes;
  q_version : Z;
  q_object_type : string;
}.
Definition sign_request (signature : bytes) (q : AhubRequest) : AhubRequest :=
  {| q_node_id := q_node_id q; q_method := q_method q; q_path := q_path q;
     q_issued_ms := q_issued_ms q; q_nonce := q_nonce q; q_body_sha256 := q_body_sha256 q;
     q_signature := signature; q_version := q_version q; q_object_type := q_object_type q |}.
Definition request_fields (q : AhubRequest) : list value :=
  [VInt (q_version q); VStr (q_object_type q); VStr (q_node_id q); VStr (q_method q);
   VStr (q_path q); VInt (q_issued_ms q); VStr (q_nonce q); VBytes (q_body_sha256 q)].

Section requests.
Context {PL : Platform} {DG : Digests} {SG : Signatures}.

Definition verify_request (now : Z) (q : AhubRequest) (descriptor : NodeDescriptor) (body : bytes)
    : res unit :=
  raise_if (negb (q_version q =? AHUB_REQUEST_VERSION) ||
            negb (String.eqb (q_object_type q) AHUB_REQUEST_TYPE))
    (ValueError "unsupported Ahub request");;
  node_id ← _validate_node_id (q_node_id q);
  raise_if (negb (String.eqb node_id (d_node_id descriptor)))
    (ValueError "Ahub request descriptor mismatch");;
  method ← _validate_method (q_method q);
  raise_if (negb (String.eqb (q_method q) method))
    (ValueError "Ahub request method must be canonical");;
  _validate_path (q_path q);;
  raise_if (AHUB_REQUEST_SKEW_MS <? Z.abs (now - q_issued_ms q))
    (ValueError "Ahub request is outside the clock window");;
  raise_if (negb (NONCE_RE (q_nonce q))) (ValueError "invalid Ahub request nonce");;
  raise_if (negb (len (q_body_sha256 q) =? 32)) (ValueError "invalid Ahub request body digest");;
  raise_if (negb (String.eqb (q_body_sha256 q) (sha256 body)))
    (ValueError "Ahub request body digest mismatch");;
  raise_if (negb (len (q_signature q) =? 64)) (ValueError "invalid Ahub request signature");;
  verify_descriptor now descriptor;;
  verify_signature (d_sign_public descriptor) (q_signature q) (request_fields q).

Definition request_to_headers (q : AhubRequest) : list (string * string) :=
  [("X-Anet-Node", q_node_id q); ("X-Anet-Issued", str_of_Z (q_issued_ms q));
   ("X-Anet-Nonce", q_nonce q); ("X-Anet-Signature", b64e (q_signature q))].
(** [normalized[name]]: the last header whose lower-case name is [name] *)
Fixpoint header (name : string) (headers : list (string * string)) : option string :=
  match headers with
  | [] => None
  | (k, v) :: rest =>
      match header name rest with
      | Some w => Some w
      | None => if String.eqb (lower k) name then Some v else None
      end
  end.
Definition missing_headers : exn := ValueError "missing Ahub authentication headers".
Definition invalid_headers : exn := ValueError "invalid Ahub authentication headers".
(** [except (TypeError, ValueError) as exc: raise e from exc] *)
Definition type_or_value_error {A} (e : exn) (r : res A) : res A :=
  match r with Err (TypeError _) | Err (ValueError _) => Err e | _ => r end.
Definition request_from_headers (headers : list (string * string)) (method path : string)
    (body : bytes) : res AhubRequest :=
  node_id ← of_option missing_headers (header "x-anet-node" headers);
  issued ← of_option missing_headers (header "x-anet-issued" headers);
  nonce ← of_option missing_headers (header "x-anet-nonce" headers);
  signature ← of_option missing_headers (header "x-anet-signature" headers);
  issued_ms ← of_option invalid_headers (int_of_str issued);
  signature ← type_or_value_error invalid_headers (b64d signature);
  method ← _validate_method method;
  path ← _validate_path path;
  mret {| q_node_id := node_id; q_method := method; q_path := path; q_issued_ms := issued_ms;
          q_nonce := nonce; q_body_sha256 := sha256 body; q_signature := signature;
          q_version := AHUB_REQUEST_VERSION; q_object_type := AHUB_REQUEST_TYPE |}.

(** The nonce is the caller's or a fresh token. *)
Definition issue_ahub_request (identity : Identity) (method path : string) (body : bytes)
    (issued_ms : Z) (nonce : string) : res AhubRequest :=
  method ← _validate_method method;
  path ← _validate_path path;
  let unsigned :=
    {| q_node_id := derive_node_id (i_sign_public identity) (i_box_public identity);
       q_method := method; q_path := path; q_issued_ms := issued_ms; q_nonce := nonce;
       q_body_sha256 := sha256 body; q_signature := ""; q_version := AHUB_REQUEST_VERSION;
       q_object_type := AHUB_REQUEST_TYPE |} in
  raise_if (negb (NONCE_RE nonce)) (ValueError "invalid Ahub request nonce");;
  packed ← canonical_pack (VList (request_fields unsigned));
  mret (sign_request (i_sign identity packed) unsigned).
End requests.

(** ** Limits, receipts, reservations, claims *)

Record AhubLimits := {
  max_packet_bytes : Z;
  max_packets_per_destination : Z;
  max_bytes_per_destination : Z;
  max_packets_per_uploader : Z;
  max_bytes_per_uploader : Z;
  max_relay_reservation_ttl_ms : Z;
  max_relay_duration_ms : Z;
  max_relay_bytes_each_direction : Z;
  max_relay_reservations_per_node : Z;
  max_relay_connections_per_node : Z;
  max_relay_frame_bytes : Z;
}.
Definition limit_values (l : AhubLimits) : list Z :=
  [max_packet_bytes l; max_packets_per_destination l; max_bytes_per_destination l;
   max_packets_per_uploader l; max_bytes_per_uploader l; max_relay_reservation_ttl_ms l;
   max_relay_duration_ms l; max_relay_bytes_each_direction l; max_relay_reservations_per_node l;
   max_relay_connections_per_node l; max_relay_frame_bytes l].
(** [AhubLimits.__post_init__] *)
Definition new_limits (l : AhubLimits) : res AhubLimits :=
  raise_if (existsb (λ v, v <=? 0) (limit_values l))
    (ValueError "Ahub limits must be positive integers");;
  raise_if (MAX_WIRE_BYTES <? max_packet_bytes l)
    (ValueError "Ahub packet limit exceeds the protocol limit");;
  raise_if (max_relay_reservation_ttl_ms l <? MIN_RELAY_RESERVATION_TTL_MS)
    (ValueError "Ahub Relay reservation TTL limit is too small");;
  raise_if (max_relay_duration_ms l <? MIN_RELAY_DURATION_MS)
    (ValueError "Ahub Relay duration limit is too small");;
  mret l.
Definition default_limits : AhubLimits :=
  {| max_packet_bytes := MAX_WIRE_BYTES; max_packets_per_destination := DEFAULT_MAX_PACKETS;
     max_bytes_per_destination := DEFAULT_MAX_BYTES; max_packets_per_uploader := DEFAULT_MAX_PACKETS;
     max_bytes_per_uploader := DEFAULT_MAX_BYTES;
     max_relay_reservation_ttl_ms := DEFAULT_RELAY_RESERVATION_TTL_MS;
     max_relay_duration_ms := DEFAULT_MAX_RELAY_DURATION_MS;
     max_relay_bytes_each_direction := DEFAULT_MAX_RELAY_BYTES_EACH_DIRECTION;
     max_relay_reservations_per_node := DEFAULT_MAX_RELAY_RESERVATIONS_PER_NODE;
     max_relay_connections_per_node := DEFAULT_MAX_RELAY_CONNECTIONS_PER_NODE;
     max_relay_frame_bytes := DEFAULT_MAX_RELAY_FRAME_BYTES |}.

Record CustodyReceipt := {
  cr_packet_id : string;
  cr_destination_id : string;
  cr_stored : bool;
  cr_expires_ms : Z;
}.
Record RelayReservation := {
  rv_reservation_id : string;
  rv_owner_id : string;
  rv_allowed_peer_id : string;
  rv_created_ms : Z;
  rv_expires_ms : Z;
  rv_max_duration_ms : Z;
  rv_max_bytes_each_direction : Z;
}.
(** [RelayReservation.__post_init__] *)
Definition new_reservation (v : RelayReservation) : res RelayReservation :=
  raise_if (negb (RELAY_RESERVATION_ID_RE (rv_reservation_id v)))
    (ValueError "invalid Relay reservation ID");;
  _validate_node_id (rv_owner_id v);;
  _validate_node_id (rv_allowed_peer_id v);;
  raise_if (String.eqb (rv_owner_id v) (rv_allowed_peer_id v))
    (ValueError "Relay reservation peer must differ from owner");;
  raise_if ((rv_created_ms v <=? 0) || (rv_expires_ms v <=? rv_created_ms v) ||
            (rv_max_duration_ms v <? MIN_RELAY_DURATION_MS) ||
            (rv_max_bytes_each_direction v <=? 0))
    (ValueError "invalid Relay reservation limits");;
  mret v.
Definition reservation_to_dict (v : RelayReservation) : dict :=
  [field "reservation_id" (VStr (rv_reservation_id v)); field "owner_id" (VStr (rv_owner_id v));
   field "allowed_peer_id" (VStr (rv_allowed_peer_id v)); field "created_ms" (VInt (rv_created_ms v));
   field "expires_ms" (VInt (rv_expires_ms v));
   field "max_duration_ms" (VInt (rv_max_duration_ms v));
   field "max_bytes_each_direction" (VInt (rv_max_bytes_each_direction v))].
Record ClaimedPacket := {
  cl_packet_id : string;
  cl_raw : bytes;
  cl_depth : Z;
  cl_claim_token : string;
  cl_claim_until_ms : Z;
  cl_uploader_id : string;
  cl_expires_ms : Z;
}.

(** ** Settlements *)

Record DestinationSettlement := {
  e_packet_id : string;
  e_packet_sha256 : bytes;
  e_uploader_id : string;
  e_destination_id : string;
  e_settled_ms : Z;
  e_expires_ms : Z;
  e_signature : bytes;
  e_version : Z;
  e_object_type : string;
}.
Definition SETTLEMENT_TYPE : string := "anet.destination-settlement.v1".
Definition sign_settlement (signature : bytes) (e : DestinationSettlement) : DestinationSettlement :=
  {| e_packet_id := e_packet_id e; e_packet_sha256 := e_packet_sha256 e;
     e_uploader_id := e_uploader_id e; e_destination_id := e_destination_id e;
     e_settled_ms := e_settled_ms e; e_expires_ms := e_expires_ms e; e_signature := signature;
     e_version := e_version e; e_object_type := e_object_type e |}.
Definition settlement_fields (e : DestinationSettlement) : list value :=
  [VInt (e_version e); VStr (e_object_type e); VStr (e_packet_id e); VBytes (e_packet_sha256 e);
   VStr (e_uploader_id e); VStr (e_destination_id e); VInt (e_settled_ms e); VInt (e_expires_ms e)].
Definition settlement_to_dict (e : DestinationSettlement) : dict :=
  [field "version" (VInt (e_version e)); field "object_type" (VStr (e_object_type e));
   field "packet_id" (VStr (e_packet_id e)); bytes_field "packet_sha256" (e_packet_sha256 e);
   field "uploader_id" (VStr (e_uploader_id e)); field "destination_id" (VStr (e_destination_id e));
   field "settled_ms" (VInt (e_settled_ms e)); field "expires_ms" (VInt (e_expires_ms e));
   bytes_field "signature" (e_signature e)].
Definition settlement_keys : list string :=
  ["version"; "object_type"; "packet_id"; "packet_sha256"; "uploader_id"; "destination_id";
   "settled_ms"; "expires_ms"; "signature"].
(** [set(d) == fields] *)
Definition exact_keys (d : dict) (fields : list string) : bool :=
  forallb (λ k, dict_has k d) fields &&
  forallb (λ kv, existsb (λ k, key_eqb (VStr k) kv.1) fields) d.

Section settlements.
Context {PL : Platform} {DG : Digests} {SG : Signatures}.

Definition verify_settlement (now : Z) (e : DestinationSettlement) (sign_public : bytes) : res unit :=
  raise_if (negb (e_version e =? 1) || negb (String.eqb (e_object_type e) SETTLEMENT_TYPE))
    (ValueError "unsupported destination settlement");;
  raise_if (negb (PACKET_ID_RE (e_packet_id e))) (ValueError "invalid settlement packet id");;
  raise_if (negb (len (e_packet_sha256 e) =? 32)) (ValueError "invalid settlement packet digest");;
  _validate_node_id (e_uploader_id e);;
  _validate_node_id (e_destination_id e);;
  raise_if (negb (len sign_public =? 32) || negb (len (e_signature e) =? 64))
    (ValueError "invalid settlement signing material");;
  raise_if ((e_settled_ms e <=? 0) || (e_expires_ms e <=? e_settled_ms e) ||
            (now + AHUB_REQUEST_SKEW_MS <? e_settled_ms e) || (e_expires_ms e <=? now))
    (ValueError "invalid destination settlement time window");;
  verify_signature sign_public (e_signature e) (settlement_fields e).

Definition settlement_int (k : string) (d : dict) : res Z :=
  of_option (ValueError "invalid destination settlement integer") (as_int (dict_get k d)).
(** [except ValueError as exc: raise e from exc] *)
Definition value_error {A} (e : exn) (r : res A) : res A :=
  match r with Err (ValueError _) => Err e | _ => r end.
Definition settlement_bytes (k : string) (d : dict) : res bytes :=
  value_error (ValueError "invalid destination settlement encoding") (b64d (py_str (dict_get k d))).
Definition settlement_from_dict (v : value) : res DestinationSettlement :=
  match v with
  | VMap d =>
      raise_if (negb (exact_keys d settlement_keys))
        (ValueError "invalid destination settlement fields");;
      version ← settlement_int "version" d;
      settled_ms ← settlement_int "settled_ms" d;
      expires_ms ← settlement_int "expires_ms" d;
      packet_sha256 ← settlement_bytes "packet_sha256" d;
      signature ← settlement_bytes "signature" d;
      mret {| e_packet_id := text_at "packet_id" d; e_packet_sha256 := packet_sha256;
              e_uploader_id := text_at "uploader_id" d;
              e_destination_id := text_at "destination_id" d; e_settled_ms := settled_ms;
              e_expires_ms := expires_ms; e_signature := signature; e_version := version;
              e_object_type := text_at "object_type" d |}
  | _ => Err (ValueError "invalid destination settlement fields")
  end.

Definition issue_destination_settlement (identity : Identity) (packet_id : string) (raw : bytes)
    (uploader_id : string) (expires_ms settled : Z) : res DestinationSettlement :=
  uploader_id ← _validate_node_id uploader_id;
  let unsigned :=
    {| e_packet_id := packet_id; e_packet_sha256 := sha256 raw; e_uploader_id := uploader_id;
       e_destination_id := derive_node_id (i_sign_public identity) (i_box_public identity);
       e_settled_ms := settled; e_expires_ms := expires_ms; e_signature := ""; e_version := 1;
       e_object_type := SETTLEMENT_TYPE |} in
  packed ← canonical_pack (VList (settlement_fields unsigned));
  let proof := sign_settlement (i_sign identity packed) unsigned in
  verify_settlement settled proof (i_sign_public identity);;
  mret proof.
End settlements.
