(* ===== verification/AhubStore.v ===== *)
(** The hub's database (src/anet/ahub.py [AhubStore]): the allowlist, the consumed nonces,
    the mailbox of sealed packets, the settled packets and the relay reservations, with
    every operation as the transaction it is.  Foreign keys are on. *)
From S2P Require Import Prelude PyStr PyVal Codecs Schema Packet ControlPlane ControlStore Ahub.

(** ** The tables *)

Record allow_row := AllowRow {
  al_added_ms : Z;
  al_enabled : bool;
  al_disabled_ms : option Z;
}.
Record mail_row := MailRow {
  ml_destination_id : string;
  ml_uploader_id : string;
  ml_raw : bytes;
  ml_size_bytes : Z;
  ml_created_ms : Z;
  ml_expires_ms : Z;
  ml_qos : qos;
  ml_depth : Z;
  ml_claim_token_hash : option bytes;
  ml_claim_until_ms : option Z;
}.
(** [proof_json] is null in rows of databases before version 4. *)
Record settled_row := SettledRow {
  se_destination_id : string;
  se_uploader_id : string;
  se_raw_sha256 : bytes;
  se_settled_ms : Z;
  se_expires_ms : Z;
  se_proof_json : option string;
  se_acknowledged_ms : Z;
}.
(** A reservation is stored with its id, which is its key. *)
Record hub_db := HubDb {
  ahub_allowlist : gmap string allow_row;
  ahub_nonces : gmap (string * string) Z;
  ahub_mailbox : gmap string mail_row;
  ahub_settlements : gmap string settled_row;
  ahub_relay_reservations : gmap string RelayReservation;
}.
Definition new_hub_db : hub_db := HubDb ∅ ∅ ∅ ∅ ∅.
Abbreviation HM := (ST hub_db).
Definition set_allowlist v s := HubDb v (ahub_nonces s) (ahub_mailbox s) (ahub_settlements s)
  (ahub_relay_reservations s).
Definition set_nonces v s := HubDb (ahub_allowlist s) v (ahub_mailbox s) (ahub_settlements s)
  (ahub_relay_reservations s).
Definition set_mailbox v s := HubDb (ahub_allowlist s) (ahub_nonces s) v (ahub_settlements s)
  (ahub_relay_reservations s).
Definition set_settlements v s := HubDb (ahub_allowlist s) (ahub_nonces s) (ahub_mailbox s) v
  (ahub_relay_reservations s).
Definition set_reservations v s := HubDb (ahub_allowlist s) (ahub_nonces s) (ahub_mailbox s)
  (ahub_settlements s) v.

(** [FOREIGN KEY(...) REFERENCES ahub_allowlist(node_id)] *)
Definition member (node_id : string) : HM unit :=
  row ← gets (λ s, ahub_allowlist s !! node_id);
  lift (raise_if (bool_decide (row = None)) IntegrityError).

(** ** The allowlist *)

Definition allow_node (now : Z) (node_id : string) : HM bool :=
  validated ← lift (_validate_node_id node_id);
  transaction (
    row ← gets (λ s, ahub_allowlist s !! validated);
    if bool_decide (al_enabled <$> row = Some true) then mret false
    else
      modify (λ s, set_allowlist (upsert validated (AllowRow now true None)
        (λ r, AllowRow (al_added_ms r) true None) (ahub_allowlist s)) s);;
      mret true).
Definition enabled_row (node_id : string) (k : string) (r : allow_row) : Prop :=
  k = node_id ∧ al_enabled r = true.
#[global] Instance enabled_row_dec n k r : Decision (enabled_row n k r).
Proof. unfold enabled_row. apply _. Defined.
Definition disallow_node (now : Z) (node_id : string) : HM bool :=
  validated ← lift (_validate_node_id node_id);
  transaction (
    changed ← gets (λ s, count_where (enabled_row validated) (ahub_allowlist s));
    modify (λ s, set_allowlist (update_where (enabled_row validated)
      (λ r, AllowRow (al_added_ms r) false (Some now)) (ahub_allowlist s)) s);;
    mret (changed =? 1)).
Definition allowed_nodes (include_disabled : bool) (s : hub_db) : list dict :=
  (λ kv : string * allow_row,
     [field "node_id" (VStr kv.1); field "added_ms" (VInt (al_added_ms kv.2));
      field "enabled" (VBool (al_enabled kv.2));
      field "disabled_ms" (match al_disabled_ms kv.2 with Some t => VInt t | None => VNone end)]) <$>
  order_by (λ kv : string * allow_row, codes kv.1)
    (select_where (λ _ r, include_disabled = true ∨ al_enabled r = true) (ahub_allowlist s)).
Definition is_allowed (node_id : string) (s : hub_db) : res bool :=
  node_id ← _validate_node_id node_id;
  mret (bool_decide (al_enabled <$> ahub_allowlist s !! node_id = Some true)).
Definition _require_allowed (node_id : string) : HM unit :=
  allowed ← gets (is_allowed node_id);
  allowed ← lift allowed;
  lift (raise_if (negb allowed) (PermissionError "node is not allowed by this Ahub")).

(** ** Housekeeping *)

Record purged := Purged {
  pg_expired_packets : Z;
  pg_old_nonces : Z;
  pg_expired_claims : Z;
  pg_expired_settlements : Z;
  pg_expired_relay_reservations : Z;
}.
Definition mail_expired (now : Z) (_ : string) (r : mail_row) : Prop := ml_expires_ms r ≤ now.
Definition nonce_old (now : Z) (_ : string * string) (issued_ms : Z) : Prop :=
  issued_ms < now - AHUB_NONCE_RETENTION_MS.
Definition claim_expired (now : Z) (_ : string) (r : mail_row) : Prop :=
  match ml_claim_until_ms r with Some until => until ≤ now | None => False end.
Definition settled_expired (now : Z) (_ : string) (r : settled_row) : Prop := se_expires_ms r ≤ now.
Definition reservation_expired (now : Z) (_ : string) (v : RelayReservation) : Prop :=
  rv_expires_ms v ≤ now.
#[global] Instance mail_expired_dec now k r : Decision (mail_expired now k r).
Proof. unfold mail_expired. apply _. Defined.
#[global] Instance nonce_old_dec now k t : Decision (nonce_old now k t).
Proof. unfold nonce_old. apply _. Defined.
#[global] Instance claim_expired_dec now k r : Decision (claim_expired now k r).
Proof. unfold claim_expired. destruct (ml_claim_until_ms r); apply _. Defined.
#[global] Instance settled_expired_dec now k r : Decision (settled_expired now k r).
Proof. unfold settled_expired. apply _. Defined.
#[global] Instance reservation_expired_dec now k v : Decision (reservation_expired now k v).
Proof. unfold reservation_expired. apply _. Defined.

Definition with_claim (hash : option bytes) (until : option Z) (r : mail_row) : mail_row :=
  MailRow (ml_destination_id r) (ml_uploader_id r) (ml_raw r) (ml_size_bytes r) (ml_created_ms r)
    (ml_expires_ms r) (ml_qos r) (ml_depth r) hash until.
(** A DELETE or an UPDATE and its [rowcount] *)
Definition delete_from {K V} `{Countable K} (get : hub_db → gmap K V) (set : gmap K V → hub_db → hub_db)
    (P : K → V → Prop) `{!∀ k v, Decision (P k v)} : HM Z :=
  count ← gets (λ s, count_where P (get s));
  modify (λ s, set (delete_where P (get s)) s);;
  mret count.
Definition _purge (now : Z) : HM purged :=
  packets ← delete_from ahub_mailbox set_mailbox (mail_expired now);
  nonces ← delete_from ahub_nonces set_nonces (nonce_old now);
  claims ← gets (λ s, count_where (claim_expired now) (ahub_mailbox s));
  modify (λ s, set_mailbox (update_where (claim_expired now) (with_claim None None)
    (ahub_mailbox s)) s);;
  settlements ← delete_from ahub_settlements set_settlements (settled_expired now);
  reservations ← delete_from ahub_relay_reservations set_reservations (reservation_expired now);
  mret (Purged packets nonces claims settlements reservations).
Definition purge (now : Z) : HM purged := transaction (_purge now).

(** [SUM(f)] over the rows of [P] *)
Definition sum_where {K V} `{Countable K} (P : K → V → Prop) `{!∀ k v, Decision (P k v)} (f : V → Z)
    (t : gmap K V) : Z := foldr (λ kv n, f kv.2 + n) 0 (select_where P t).
Definition oldest_created (s : hub_db) : option Z :=
  match (ml_created_ms ∘ snd) <$> map_to_list (ahub_mailbox s) with
  | [] => None
  | t :: ts => Some (foldr Z.min t ts)
  end.
Definition claim_active (now : Z) (_ : string) (r : mail_row) : Prop :=
  match ml_claim_until_ms r with Some until => now < until | None => False end.
#[global] Instance claim_active_dec now k r : Decision (claim_active now k r).
Proof. unfold claim_active. destruct (ml_claim_until_ms r); apply _. Defined.
Definition status (now : Z) (s : hub_db) : dict :=
  [field "database_version" (VInt AHUB_DB_VERSION);
   field "enabled_nodes" (VInt (count_where (λ _ r, al_enabled r = true) (ahub_allowlist s)));
   field "disabled_nodes" (VInt (count_where (λ _ r, al_enabled r = false) (ahub_allowlist s)));
   field "mailbox_packets" (VInt (Z.of_nat (size (ahub_mailbox s))));
   field "mailbox_bytes" (VInt (sum_where (λ _ _, True) ml_size_bytes (ahub_mailbox s)));
   field "expired_packets" (VInt (count_where (mail_expired now) (ahub_mailbox s)));
   field "active_claims" (VInt (count_where (claim_active now) (ahub_mailbox s)));
   field "oldest_packet_age_ms"
     (match oldest_created s with Some t => VInt (Z.max 0 (now - t)) | None => VNone end);
   field "retained_nonces" (VInt (Z.of_nat (size (ahub_nonces s))));
   field "retained_settlements" (VInt (Z.of_nat (size (ahub_settlements s))));
   field "relay_reservations" (VInt (Z.of_nat (size (ahub_relay_reservations s))));
   field "expired_relay_reservations"
     (VInt (count_where (reservation_expired now) (ahub_relay_reservations s)))].

(** ** Requests *)

Section hub_operations.
Context {PL : Platform} {DG : Digests} {SG : Signatures} (limits : AhubLimits).

Definition insert_nonce (key : string * string) (issued_ms : Z) : HM unit :=
  used ← gets (λ s, ahub_nonces s !! key);
  lift (raise_if (bool_decide (used ≠ None)) IntegrityError);;
  member key.1;;
  modify (λ s, set_nonces (<[key := issued_ms]> (ahub_nonces s)) s).
Definition _consume_request (now : Z) (q : AhubRequest) (d : NodeDescriptor) (body : bytes)
    : HM unit :=
  lift (verify_request now q d body);;
  _require_allowed (q_node_id q);;
  on_integrity_error (PermissionError "Ahub request nonce was already used")
    (insert_nonce (q_node_id q, q_nonce q) (q_issued_ms q)).
(** The shape of every operation on behalf of a node: [BEGIN; _purge; _consume_request; body;
    COMMIT], with a ROLLBACK of all of it when something raises *)
Definition authenticated {A} (now : Z) (q : AhubRequest) (d : NodeDescriptor) (body : bytes)
    (m : HM A) : HM A :=
  transaction (_purge now;; _consume_request now q d body;; m).
Definition authenticate (now : Z) (q : AhubRequest) (d : NodeDescriptor) (body : bytes) : HM unit :=
  authenticated now q d body (mret tt).

(** ** The mailbox *)

Definition to_destination (node : string) (_ : string) (r : mail_row) : Prop :=
  ml_destination_id r = node.
Definition from_uploader (node : string) (_ : string) (r : mail_row) : Prop := ml_uploader_id r = node.
#[global] Instance to_destination_dec n k r : Decision (to_destination n k r).
Proof. unfold to_destination. apply _. Defined.
#[global] Instance from_uploader_dec n k r : Decision (from_uploader n k r).
Proof. unfold from_uploader. apply _. Defined.

Definition _check_quota (packet : PacketInfo) (uploader_id : string) (s : hub_db) : res unit :=
  let mail := ahub_mailbox s in
  let destination := to_destination (destination_id packet) in
  let uploader := from_uploader uploader_id in
  raise_if ((max_packets_per_destination limits <=? count_where destination mail) ||
            (max_bytes_per_destination limits <?
             sum_where destination ml_size_bytes mail + len (info_raw packet)))
    (OverflowError "destination mailbox quota exceeded");;
  raise_if ((max_packets_per_uploader limits <=? count_where uploader mail) ||
            (max_bytes_per_uploader limits <?
             sum_where uploader ml_size_bytes mail + len (info_raw packet)))
    (OverflowError "uploader mailbox quota exceeded").
Definition insert_mail (id : string) (row : mail_row) : HM unit :=
  taken ← gets (λ s, ahub_mailbox s !! id);
  lift (raise_if (bool_decide (taken ≠ None) || (ml_size_bytes row <=? 0) || (ml_depth row <? 0))
    IntegrityError);;
  member (ml_destination_id row);;
  member (ml_uploader_id row);;
  modify (λ s, set_mailbox (<[id := row]> (ahub_mailbox s)) s).
Definition new_mail (packet : PacketInfo) (uploader_id : string) : mail_row :=
  MailRow (destination_id packet) uploader_id (info_raw packet) (len (info_raw packet))
    (created_ms packet) (expires_ms packet) (info_qos packet) 0 None None.
Definition receipt (packet : PacketInfo) (destination : string) (stored : bool) (expires : Z)
    : CustodyReceipt :=
  {| cr_packet_id := packet_id packet; cr_destination_id := destination; cr_stored := stored;
     cr_expires_ms := expires |}.
(** What [submit] does with a packet of an authenticated uploader *)
Definition take_custody (uploader_id : string) (packet : PacketInfo) : HM CustodyReceipt :=
  _require_allowed (destination_id packet);;
  existing ← gets (λ s, ahub_mailbox s !! packet_id packet);
  match existing with
  | Some r =>
      lift (raise_if (negb (String.eqb (ml_raw r) (info_raw packet)))
        (ValueError "packet id conflicts with different bytes"));;
      mret (receipt packet (ml_destination_id r) false (ml_expires_ms r))
  | None =>
      settled ← gets (λ s, ahub_settlements s !! packet_id packet);
      match settled with
      | Some r =>
          lift (raise_if (negb (String.eqb (se_destination_id r) (destination_id packet)) ||
                          negb (String.eqb (se_uploader_id r) uploader_id) ||
                          negb (String.eqb (se_raw_sha256 r) (sha256 (info_raw packet))))
            (ValueError "settled packet id conflicts with new upload"));;
          mret (receipt packet (destination_id packet) false (se_expires_ms r))
      | None =>
          quota ← gets (_check_quota packet uploader_id);
          lift quota;;
          insert_mail (packet_id packet) (new_mail packet uploader_id);;
          mret (receipt packet (destination_id packet) true (expires_ms packet))
      end
  end.
(** [inspected] and [inspected'] are the clock readings of [inspect_packet]. *)
Definition submit (now inspected inspected' : Z) (q : AhubRequest) (d : NodeDescriptor) (raw : bytes)
    : HM CustodyReceipt :=
  packet ← lift (inspect_packet inspected inspected' raw false);
  lift (raise_if (expires_ms packet <=? now) (ValueError "packet expired"));;
  lift (raise_if (max_packet_bytes limits <? len (info_raw packet))
    (ValueError "packet exceeds this Ahub's size limit"));;
  authenticated now q d (info_raw packet) (take_custody (q_node_id q) packet).

(** *** Claims *)

Definition claimable (node : string) (uploader : option string) (_ : string) (r : mail_row) : Prop :=
  ml_destination_id r = node ∧ if_some (λ u, ml_uploader_id r = u) uploader ∧
  ml_claim_token_hash r = None.
#[global] Instance claimable_dec n u k r : Decision (claimable n u k r).
Proof. unfold claimable. apply _. Defined.
(** [ORDER BY created_ms, packet_id] *)
Definition mail_key (kv : string * mail_row) : list Z := ml_created_ms kv.2 :: codes kv.1.
Definition claim_rows (node : string) (uploader : option string) (limit : Z) (s : hub_db)
    : list (string * mail_row) :=
  take (Z.to_nat limit) (order_by mail_key (select_where (claimable node uploader) (ahub_mailbox s))).
Definition unclaimed_packet (id : string) (k : string) (r : mail_row) : Prop :=
  k = id ∧ ml_claim_token_hash r = None.
#[global] Instance unclaimed_packet_dec i k r : Decision (unclaimed_packet i k r).
Proof. unfold unclaimed_packet. apply _. Defined.
(** The loop over the selected rows; [tokens n] is the token of the [n]th packet. *)
Fixpoint claim_each (tokens : nat → string) (claim_until : Z) (max_bytes : option Z)
    (claimed_bytes : Z) (n : nat) (rows : list (string * mail_row)) : HM (list ClaimedPacket) :=
  match rows with
  | [] => mret []
  | (id, row) :: rest =>
      if match max_bytes with Some m => m <? claimed_bytes + ml_size_bytes row | None => false end
      then claim_each tokens claim_until max_bytes claimed_bytes n rest
      else
        packet_row ← gets (λ s, head (select_where (unclaimed_packet id) (ahub_mailbox s)));
        match packet_row with
        | None => claim_each tokens claim_until max_bytes claimed_bytes n rest
        | Some (_, stored) =>
            modify (λ s, set_mailbox (update_where (unclaimed_packet id)
              (with_claim (Some (sha256 (tokens n))) (Some claim_until)) (ahub_mailbox s)) s);;
            claimed ← claim_each tokens claim_until max_bytes (claimed_bytes + ml_size_bytes row)
                        (S n) rest;
            mret ({| cl_packet_id := id; cl_raw := ml_raw stored; cl_depth := ml_depth row;
                     cl_claim_token := tokens n; cl_claim_until_ms := claim_until;
                     cl_uploader_id := ml_uploader_id row; cl_expires_ms := ml_expires_ms row |}
                  :: claimed)
        end
  end.
(** An integer argument within bounds, as it came from JSON *)
Definition int_between (lo hi : Z) (v : value) (e : exn) : res Z :=
  n ← of_option e (as_int v);
  raise_if (negb ((lo <=? n) && (n <=? hi))) e;;
  mret n.
Definition optional_node (node : option string) : res (option string) :=
  match node with None => mret None | Some n => Some <$> _validate_node_id n end.
Definition claim_bytes (v : option value) : res (option Z) :=
  match v with
  | None => mret None
  | Some v =>
      n ← of_option (ValueError "invalid mailbox claim byte limit") (as_int v);
      raise_if (n <=? 0) (ValueError "invalid mailbox claim byte limit");;
      mret (Some n)
  end.
Definition claim (now : Z) (tokens : nat → string) (q : AhubRequest) (d : NodeDescriptor)
    (body : bytes) (limit lease_ms : value) (max_bytes : option value) (uploader_id : option string)
    : HM (list ClaimedPacket) :=
  limit ← lift (int_between 1 MAX_CLAIM_BATCH limit (ValueError "invalid mailbox claim limit"));
  lease_ms ← lift (int_between MIN_CLAIM_LEASE_MS MAX_CLAIM_LEASE_MS lease_ms
                     (ValueError "invalid mailbox claim lease"));
  max_bytes ← lift (claim_bytes max_bytes);
  uploader ← lift (optional_node uploader_id);
  authenticated now q d body (
    rows ← gets (claim_rows (q_node_id q) uploader limit);
    claim_each tokens (now + lease_ms) max_bytes 0 0 rows).

(** *** Settlement *)

(** [str(token).encode("ascii")] *)
Definition encode_ascii (text : string) : res bytes :=
  raise_if (negb (str_forall is_ascii text)) (ValueError "'ascii' codec can't encode character");;
  mret text.
(** [INSERT ... ON CONFLICT(packet_id) DO NOTHING], with CHECK(length(raw_sha256) = 32) *)
Definition insert_settlement (id : string) (row : settled_row) : HM unit :=
  lift (sqlite_int (se_settled_ms row));;
  lift (check_digest (se_raw_sha256 row));;
  existing ← gets (λ s, ahub_settlements s !! id);
  match existing with
  | Some _ => mret tt
  | None =>
      member (se_destination_id row);;
      member (se_uploader_id row);;
      modify (λ s, set_settlements (<[id := row]> (ahub_settlements s)) s)
  end.
Definition holds_claim (now : Z) (token_hash : bytes) (r : mail_row) : bool :=
  match ml_claim_token_hash r, ml_claim_until_ms r with
  | Some stored, Some until => (now <? until) && String.eqb stored token_hash
  | _, _ => false
  end.
(** What [settle] does with the packet of an authenticated destination *)
Definition finish_custody (now : Z) (node : string) (d : NodeDescriptor) (packet_id : string)
    (token_hash : bytes) (proof : DestinationSettlement) : HM bool :=
  row ← gets (λ s, ahub_mailbox s !! packet_id);
  match row with
  | None => mret false
  | Some r =>
      lift (raise_if (negb (String.eqb (ml_destination_id r) node))
        (PermissionError "only the destination can settle a packet"));;
      lift (raise_if (negb (holds_claim now token_hash r))
        (PermissionError "invalid or expired mailbox claim"));;
      lift (verify_settlement now proof (d_sign_public d));;
      lift (raise_if (negb (String.eqb (e_packet_id proof) packet_id) ||
                      negb (String.eqb (e_destination_id proof) node) ||
                      negb (String.eqb (e_uploader_id proof) (ml_uploader_id r)) ||
                      negb (e_expires_ms proof =? ml_expires_ms r) ||
                      negb (String.eqb (e_packet_sha256 proof) (sha256 (ml_raw r))))
        (ValueError "destination settlement does not match claim"));;
      json ← lift (json_dumps (VMap (settlement_to_dict proof)));
      insert_settlement packet_id (SettledRow (ml_destination_id r) (ml_uploader_id r)
        (sha256 (ml_raw r)) (e_settled_ms proof) (ml_expires_ms r) (Some json) 0);;
      modify (λ s, set_mailbox (delete packet_id (ahub_mailbox s)) s);;
      mret true
  end.
Definition settle (now : Z) (q : AhubRequest) (d : NodeDescriptor) (body : bytes)
    (packet_id claim_token : string) (proof : DestinationSettlement) : HM bool :=
  token ← lift (encode_ascii claim_token);
  authenticated now q d body
    (finish_custody now (q_node_id q) d packet_id (sha256 token) proof).

Definition pending_settlement (uploader : string) (destination : option string) (_ : string)
    (r : settled_row) : Prop :=
  se_uploader_id r = uploader ∧ if_some (λ n, se_destination_id r = n) destination ∧
  se_proof_json r ≠ None ∧ se_acknowledged_ms r = 0.
#[global] Instance pending_settlement_dec u n k r : Decision (pending_settlement u n k r).
Proof. unfold pending_settlement. apply _. Defined.
Definition settled_key (kv : string * settled_row) : list Z := se_settled_ms kv.2 :: codes kv.1.
Definition settlement_rows (uploader : string) (destination : option string) (limit : Z) (s : hub_db)
    : list (string * settled_row) :=
  take (Z.to_nat limit) (order_by settled_key
    (select_where (pending_settlement uploader destination) (ahub_settlements s))).
(** [DestinationSettlement.from_dict(json.loads(row["proof_json"]))] *)
Definition read_proof (r : settled_row) : res DestinationSettlement :=
  v ← json_loads (default "None" (se_proof_json r));
  settlement_from_dict v.
Definition settlements (now : Z) (q : AhubRequest) (d : NodeDescriptor) (body : bytes) (limit : value)
    (destination_id : option string) : HM (list DestinationSettlement) :=
  limit ← lift (int_between 1 MAX_CLAIM_BATCH limit (ValueError "invalid settlement limit"));
  destination ← lift (optional_node destination_id);
  authenticated now q d body (
    rows ← gets (settlement_rows (q_node_id q) destination limit);
    lift (map_res (λ kv, read_proof kv.2) rows)).

Definition acknowledge (now : Z) (r : settled_row) : settled_row :=
  SettledRow (se_destination_id r) (se_uploader_id r) (se_raw_sha256 r) (se_settled_ms r)
    (se_expires_ms r) (se_proof_json r) now.
Definition acknowledge_settlement (now : Z) (q : AhubRequest) (d : NodeDescriptor) (body : bytes)
    (packet_id : string) : HM bool :=
  lift (raise_if (negb (PACKET_ID_RE packet_id))
    (ValueError "invalid settlement acknowledgement packet id"));;
  authenticated now q d body (
    row ← gets (λ s, ahub_settlements s !! packet_id);
    match row with
    | None => mret false
    | Some r =>
        lift (raise_if (negb (String.eqb (se_uploader_id r) (q_node_id q)))
          (PermissionError "only the uploader can acknowledge a settlement"));;
        if se_acknowledged_ms r =? 0 then
          modify (λ s, set_settlements (alter (acknowledge now) packet_id (ahub_settlements s)) s);;
          mret true
        else mret false
    end).
Definition mailbox_count (now : Z) (node_id : string) : HM Z :=
  transaction (
    _purge now;;
    node_id ← lift (_validate_node_id node_id);
    gets (λ s, count_where (to_destination node_id) (ahub_mailbox s))).

(** ** Relay reservations *)

Definition between_nodes (owner peer : string) (_ : string) (v : RelayReservation) : Prop :=
  rv_owner_id v = owner ∧ rv_allowed_peer_id v = peer.
Definition owned_by (owner : string) (_ : string) (v : RelayReservation) : Prop :=
  rv_owner_id v = owner.
#[global] Instance between_nodes_dec o p k v : Decision (between_nodes o p k v).
Proof. unfold between_nodes. apply _. Defined.
#[global] Instance owned_by_dec o k v : Decision (owned_by o k v).
Proof. unfold owned_by. apply _. Defined.
(** The row constraints: 64-bit integers and the CHECK clauses *)
Definition check_reservation (v : RelayReservation) : res unit :=
  sqlite_int (rv_expires_ms v);;
  sqlite_int (rv_max_duration_ms v);;
  sqlite_int (rv_max_bytes_each_direction v);;
  raise_if (String.eqb (rv_owner_id v) (rv_allowed_peer_id v) ||
            (rv_expires_ms v <=? rv_created_ms v) || (rv_max_duration_ms v <=? 0) ||
            (rv_max_bytes_each_direction v <=? 0)) IntegrityError.
Definition insert_reservation (v : RelayReservation) : HM unit :=
  lift (check_reservation v);;
  taken ← gets (λ s, bool_decide (ahub_relay_reservations s !! rv_reservation_id v ≠ None) ||
    negb (count_where (between_nodes (rv_owner_id v) (rv_allowed_peer_id v))
            (ahub_relay_reservations s) =? 0));
  lift (raise_if taken IntegrityError);;
  member (rv_owner_id v);;
  member (rv_allowed_peer_id v);;
  modify (λ s, set_reservations (<[rv_reservation_id v := v]> (ahub_relay_reservations s)) s).
(** The reservation of [node] for [peer]: extended when it has one, made otherwise *)
Definition put_reservation (now : Z) (token owner peer : string) (ttl_ms duration bytes_limit : Z)
    : HM RelayReservation :=
  _require_allowed peer;;
  existing ← gets (λ s, head (select_where (between_nodes owner peer) (ahub_relay_reservations s)));
  match existing with
  | None =>
      count ← gets (λ s, count_where (owned_by owner) (ahub_relay_reservations s));
      lift (raise_if (max_relay_reservations_per_node limits <=? count)
        (OverflowError "Relay reservation quota exceeded"));;
      let v := {| rv_reservation_id := token; rv_owner_id := owner; rv_allowed_peer_id := peer;
                  rv_created_ms := now; rv_expires_ms := now + ttl_ms;
                  rv_max_duration_ms := duration; rv_max_bytes_each_direction := bytes_limit |} in
      insert_reservation v;;
      lift (new_reservation v)
  | Some (id, old) =>
      let v := {| rv_reservation_id := id; rv_owner_id := rv_owner_id old;
                  rv_allowed_peer_id := rv_allowed_peer_id old; rv_created_ms := rv_created_ms old;
                  rv_expires_ms := now + ttl_ms; rv_max_duration_ms := duration;
                  rv_max_bytes_each_direction := bytes_limit |} in
      lift (check_reservation v);;
      modify (λ s, set_reservations (<[id := v]> (ahub_relay_reservations s)) s);;
      lift (new_reservation v)
  end.
Definition reserve_relay (now : Z) (token : string) (q : AhubRequest) (d : NodeDescriptor)
    (body : bytes) (allowed_peer_id : string) (ttl_ms max_duration_ms max_bytes_each_direction : value)
    : HM RelayReservation :=
  peer_id ← lift (_validate_node_id allowed_peer_id);
  ttl ← lift (of_option (ValueError "Relay reservation limits must be integers") (as_int ttl_ms));
  duration ← lift (of_option (ValueError "Relay reservation limits must be integers")
                     (as_int max_duration_ms));
  bytes_limit ← lift (of_option (ValueError "Relay reservation limits must be integers")
                        (as_int max_bytes_each_direction));
  lift (raise_if (negb ((MIN_RELAY_RESERVATION_TTL_MS <=? ttl) &&
                        (ttl <=? max_relay_reservation_ttl_ms limits)))
    (ValueError "Relay reservation TTL is outside allowed limits"));;
  lift (raise_if (negb ((MIN_RELAY_DURATION_MS <=? duration) &&
                        (duration <=? max_relay_duration_ms limits)))
    (ValueError "Relay duration is outside allowed limits"));;
  lift (raise_if (negb ((1 <=? bytes_limit) && (bytes_limit <=? max_relay_bytes_each_direction limits)))
    (ValueError "Relay byte limit is outside allowed limits"));;
  lift (raise_if (String.eqb peer_id (q_node_id q))
    (ValueError "Relay reservation cannot target its owner"));;
  authenticated now q d body
    (put_reservation now token (q_node_id q) peer_id ttl duration bytes_limit).
Definition authorize_relay (now : Z) (q : AhubRequest) (d : NodeDescriptor) (body : bytes)
    (reservation_id : string) : HM RelayReservation :=
  lift (raise_if (negb (RELAY_RESERVATION_ID_RE reservation_id))
    (ValueError "invalid Relay reservation ID"));;
  authenticated now q d body (
    row ← gets (λ s, ahub_relay_reservations s !! reservation_id);
    v ← lift (of_option (LookupError "Relay reservation not found") row);
    v ← lift (new_reservation v);
    lift (raise_if (negb (String.eqb (q_node_id q) (rv_owner_id v)) &&
                    negb (String.eqb (q_node_id q) (rv_allowed_peer_id v)))
      (PermissionError "node is not authorized for Relay reservation"));;
    mret v).
Definition find_relay_reservation (now : Z) (q : AhubRequest) (d : NodeDescriptor) (body : bytes)
    (owner_id : string) : HM RelayReservation :=
  owner ← lift (_validate_node_id owner_id);
  authenticated now q d body (
    _require_allowed owner;;
    row ← gets (λ s, head (select_where (between_nodes owner (q_node_id q)) (ahub_relay_reservations s)));
    v ← lift (of_option (LookupError "matching Relay reservation not found") (snd <$> row));
    lift (new_reservation v)).
End hub_operations.
