(* ===== verification/AhubRun.v ===== *)
(** What the hub guarantees (src/anet/ahub.py [AhubStore]): nobody is served twice for one
    signed request, the tables stay consistent and within their quotas, and a packet in
    custody stays until its destination settles it or it expires. *)
From S2P Require Import Prelude PyStr PyVal Codecs Schema Packet ControlPlane ControlStore ControlReads Ahub AhubStore.

(** ** Sums over tables *)

Section sums.
Context {K V : Type} `{Countable K} (P : K → V → Prop) `{!∀ k v, Decision (P k v)}.
Implicit Types t : gmap K V.

Lemma sum_where_insert (f : V → Z) k v t :
  t !! k = None →
  sum_where P f (<[k := v]> t) = (if decide (P k v) then f v else 0) + sum_where P f t.
Proof.
  intros Hk. unfold sum_where, select_where.
  assert (∀ l l' : list (K * V), l ≡ₚ l' →
    foldr (λ kv n, f kv.2 + n) 0 l = foldr (λ kv n, f kv.2 + n) 0 l') as Hperm.
  { intros l l' Hl. induction Hl; simpl; lia. }
  rewrite (Hperm _ _ (filter_Permutation _ _ _ (map_to_list_insert t k v Hk))).
  rewrite filter_cons. simpl. case_decide; simpl; lia.
Qed.
Lemma sum_where_empty (f : V → Z) : sum_where P f (∅ : gmap K V) = 0.
Proof. unfold sum_where, select_where. by rewrite map_to_list_empty. Qed.
Lemma sum_where_one t : sum_where P (λ _, 1) t = count_where P t.
Proof.
  unfold sum_where, count_where. induction (select_where P t) as [|kv l IH]; [done|].
  simpl. rewrite IH. lia.
Qed.
(** A table whose rows are found in another one, where they count for no less *)
Lemma sum_where_le (f : V → Z) t' t :
  (∀ v, 0 ≤ f v) →
  (∀ k v', t' !! k = Some v' → P k v' → ∃ v, t !! k = Some v ∧ P k v ∧ f v' ≤ f v) →
  sum_where P f t' ≤ sum_where P f t.
Proof.
  intros Hpos. revert t. induction t' as [|k v' t' Hk IH] using map_ind; intros t Hsub.
  { rewrite sum_where_empty. unfold sum_where. induction (select_where P t) as [|kv l IHl]; [done|].
    simpl. specialize (Hpos kv.2). lia. }
  rewrite sum_where_insert by done. case_decide as HP.
  - destruct (Hsub k v') as (v & Hv & HPv & Hle); [by rewrite lookup_insert_eq|done|].
    rewrite <- (insert_delete_id t k v Hv), sum_where_insert by apply lookup_delete_eq.
    rewrite decide_True by done. apply Z.add_le_mono; [done|]. apply IH. intros k2 v2 Hk2 HP2.
    assert (k ≠ k2) by congruence. rewrite lookup_delete_ne by done.
    apply Hsub; [by rewrite lookup_insert_ne|done].
  - rewrite Z.add_0_l. apply IH. intros k2 v2 Hk2 HP2. assert (k ≠ k2) by congruence.
    apply Hsub; [by rewrite lookup_insert_ne|done].
Qed.
Lemma count_where_le t' t :
  (∀ k v', t' !! k = Some v' → P k v' → ∃ v, t !! k = Some v ∧ P k v) →
  count_where P t' ≤ count_where P t.
Proof.
  intros Hsub. rewrite <- !sum_where_one. apply sum_where_le; [done|]. intros k v' Hk HP.
  destruct (Hsub k v' Hk HP) as (v & ? & ?). by exists v.
Qed.
End sums.

(** ** What housekeeping leaves *)

Definition purge_db (now : Z) (s : hub_db) : hub_db :=
  HubDb (ahub_allowlist s) (delete_where (nonce_old now) (ahub_nonces s))
    (update_where (claim_expired now) (with_claim None None)
      (delete_where (mail_expired now) (ahub_mailbox s)))
    (delete_where (settled_expired now) (ahub_settlements s))
    (delete_where (reservation_expired now) (ahub_relay_reservations s)).
Lemma purge_run now s : ∃ counts, _purge now s = (Ok counts, purge_db now s).
Proof. by eexists. Qed.
Lemma lookup_purged_nonce now s k t :
  ahub_nonces (purge_db now s) !! k = Some t ↔
  ahub_nonces s !! k = Some t ∧ now - AHUB_NONCE_RETENTION_MS ≤ t.
Proof. simpl. rewrite lookup_delete_where_Some. unfold nonce_old. by rewrite Z.nlt_ge. Qed.
Lemma lookup_purged_mail now s id r' :
  ahub_mailbox (purge_db now s) !! id = Some r' ↔ ∃ r, ahub_mailbox s !! id = Some r ∧
    now < ml_expires_ms r ∧ r' = if decide (claim_expired now id r) then with_claim None None r else r.
Proof.
  simpl. rewrite lookup_update_where_Some. setoid_rewrite lookup_delete_where_Some.
  unfold mail_expired. setoid_rewrite Z.nle_gt. naive_solver.
Qed.
Lemma lookup_purged_settled now s id e :
  ahub_settlements (purge_db now s) !! id = Some e ↔
  ahub_settlements s !! id = Some e ∧ now < se_expires_ms e.
Proof. simpl. rewrite lookup_delete_where_Some. unfold settled_expired. by rewrite Z.nle_gt. Qed.
Lemma lookup_purged_reservation now s id v :
  ahub_relay_reservations (purge_db now s) !! id = Some v ↔
  ahub_relay_reservations s !! id = Some v ∧ now < rv_expires_ms v.
Proof. simpl. rewrite lookup_delete_where_Some. unfold reservation_expired. by rewrite Z.nle_gt. Qed.

(** ** Requests *)

Section requests.
Context {PL : Platform} {DG : Digests} {SG : Signatures}.

Definition enabled (node : string) (s : hub_db) : Prop :=
  al_enabled <$> ahub_allowlist s !! node = Some true.
Definition fresh_nonce (now : Z) (q : AhubRequest) (s : hub_db) : Prop :=
  ahub_nonces (purge_db now s) !! (q_node_id q, q_nonce q) = None.
(** The hub serves this request. *)
Definition accepted (now : Z) (q : AhubRequest) (d : NodeDescriptor) (body : bytes) (s : hub_db)
    : Prop :=
  verify_request now q d body = Ok tt ∧ enabled (q_node_id q) s ∧ fresh_nonce now q s.
(** The state in which its work begins *)
Definition consumed (now : Z) (q : AhubRequest) (s : hub_db) : hub_db :=
  set_nonces (<[(q_node_id q, q_nonce q) := q_issued_ms q]> (ahub_nonces (purge_db now s)))
    (purge_db now s).

Lemma require_allowed_run node s :
  (_require_allowed node s = (Ok tt, s) ∧ enabled node s ∧ NODE_ID_RE node = true) ∨
  (∃ e, _require_allowed node s = (Err e, s) ∧ (enabled node s → NODE_ID_RE node = false)).
Proof.
  unfold _require_allowed, is_allowed, _validate_node_id, enabled.
  cbv [mbind ST_bind res_bind mret res_ret lift gets].
  destruct (NODE_ID_RE node); simpl; [|by right; eexists].
  case_bool_decide; simpl; [by left|]. by right; eexists.
Qed.
Lemma enabled_member node s : enabled node s → member node s = (Ok tt, s).
Proof.
  unfold enabled, member. cbv [mbind ST_bind lift gets].
  by destruct (ahub_allowlist s !! node).
Qed.
Lemma verify_request_node now q d body u :
  verify_request now q d body = Ok u → NODE_ID_RE (q_node_id q) = true ∧ q_node_id q = d_node_id d ∧
    q_body_sha256 q = sha256 body ∧ Z.abs (now - q_issued_ms q) ≤ AHUB_REQUEST_SKEW_MS ∧
    verify_descriptor now d = Ok tt ∧
    verify_signature (d_sign_public d) (q_signature q) (request_fields q) = Ok tt.
Proof.
  unfold verify_request. intros H. res_inv. bool_prop.
  match goal with H : _validate_node_id _ = Ok _ |- _ => unfold _validate_node_id in H; res_inv end.
  bool_prop. subst. repeat match goal with u : () |- _ => destruct u end. split_and!; done.
Qed.
Lemma consume_request_run now q d body s :
  (verify_request now q d body = Ok tt ∧ enabled (q_node_id q) s ∧
   ahub_nonces s !! (q_node_id q, q_nonce q) = None ∧
   _consume_request now q d body s =
     (Ok tt, set_nonces (<[(q_node_id q, q_nonce q) := q_issued_ms q]> (ahub_nonces s)) s)) ∨
  ((∃ e s', _consume_request now q d body s = (Err e, s')) ∧
   ¬ (verify_request now q d body = Ok tt ∧ enabled (q_node_id q) s ∧
      ahub_nonces s !! (q_node_id q, q_nonce q) = None)).
Proof.
  unfold _consume_request. destruct (verify_request now q d body) as [[]|e] eqn:Hv;
    cbv [mbind ST_bind lift]; [|right; split; [by eauto|naive_solver]].
  pose proof (verify_request_node _ _ _ _ _ Hv) as (Hre & _).
  destruct (require_allowed_run (q_node_id q) s) as [(-> & Hen & _)|(e & -> & Hno)];
    [|right; split; [by eauto|intros (_ & Hen & _); by rewrite Hno in Hre]].
  unfold on_integrity_error, insert_nonce. cbv [mbind ST_bind lift gets fst].
  destruct (ahub_nonces s !! _) as [t|] eqn:Hn.
  - right. split; [by eauto|naive_solver].
  - left. rewrite bool_decide_false by (by intros []). cbn [raise_if]. by rewrite enabled_member.
Qed.

(** A request is served, from the state in which its nonce is consumed, or nothing changes. *)
Lemma authenticated_run {A} now q d body (m : HM A) s :
  (accepted now q d body s ∧ ∃ a s', m (consumed now q s) = (Ok a, s') ∧
     authenticated now q d body m s = (Ok a, s')) ∨
  (∃ e, authenticated now q d body m s = (Err e, s) ∧
     (accepted now q d body s → ∃ s', m (consumed now q s) = (Err e, s'))).
Proof.
  unfold authenticated, transaction, accepted, fresh_nonce, consumed. cbv [mbind ST_bind].
  destruct (purge_run now s) as [counts ->].
  destruct (consume_request_run now q d body (purge_db now s)) as
    [(Hv & Hen & Hn & ->)|[(e & s1 & ->) Hno]]; [|right; exists e; split; [done|by intros Hacc; destruct Hno]].
  destruct (m _) as [[a|e] s'] eqn:Hm; [left|right]; [by eauto 10|].
  exists e. split; [done|]. intros _. by exists s'.
Qed.
Lemma authenticated_ok {A} now q d body (m : HM A) s a s' :
  authenticated now q d body m s = (Ok a, s') →
  accepted now q d body s ∧ m (consumed now q s) = (Ok a, s').
Proof.
  intros H. destruct (authenticated_run now q d body m s) as [(Hacc & a2 & s2 & Hm & E)|(e & E & _)];
    rewrite E in H; by simplify_eq.
Qed.
Lemma authenticated_err {A} now q d body (m : HM A) s e s' :
  authenticated now q d body m s = (Err e, s') → s' = s.
Proof.
  intros H. destruct (authenticated_run now q d body m s) as [(Hacc & a2 & s2 & Hm & E)|(e2 & E & _)];
    rewrite E in H; by simplify_eq.
Qed.
Lemma authenticated_make {A} now q d body (m : HM A) s a s' :
  accepted now q d body s → m (consumed now q s) = (Ok a, s') →
  authenticated now q d body m s = (Ok a, s').
Proof.
  intros Hacc Hm. destruct (authenticated_run now q d body m s) as
    [(_ & a2 & s2 & Hm2 & E)|(e2 & E & He)]; [congruence|].
  destruct (He Hacc) as [s2 Hm2]. congruence.
Qed.
End requests.

(** ** What the operations do *)

(** The packets that fit into [max_bytes], in order *)
Fixpoint fitting (max_bytes : option Z) (bytes : Z) (rows : list (string * mail_row))
    : list (string * mail_row) :=
  match rows with
  | [] => []
  | (id, row) :: rest =>
      if match max_bytes with Some m => m <? bytes + ml_size_bytes row | None => false end
      then fitting max_bytes bytes rest
      else (id, row) :: fitting max_bytes (bytes + ml_size_bytes row) rest
  end.
Definition claimed_packet (token : string) (claim_until : Z) (id : string) (row : mail_row)
    : ClaimedPacket :=
  {| cl_packet_id := id; cl_raw := ml_raw row; cl_depth := ml_depth row; cl_claim_token := token;
     cl_claim_until_ms := claim_until; cl_uploader_id := ml_uploader_id row;
     cl_expires_ms := ml_expires_ms row |}.
Lemma fitting_sublist max_bytes bytes rows : fitting max_bytes bytes rows `sublist_of` rows.
Proof.
  revert bytes. induction rows as [|[id row] rows IH]; intros bytes; simpl; [done|].
  destruct (match max_bytes with Some m => _ | None => _ end); by constructor.
Qed.

Section effects.
Context {DG : Digests}.

(** The packets handed out under [tokens n], [tokens (n + 1)], ... *)
Fixpoint handed_out (tokens : nat → string) (claim_until : Z) (n : nat)
    (chosen : list (string * mail_row)) : list ClaimedPacket :=
  match chosen with
  | [] => []
  | (id, row) :: rest =>
      claimed_packet (tokens n) claim_until id row :: handed_out tokens claim_until (S n) rest
  end.
Fixpoint leased (tokens : nat → string) (claim_until : Z) (n : nat)
    (chosen : list (string * mail_row)) (mail : gmap string mail_row) : gmap string mail_row :=
  match chosen with
  | [] => mail
  | (id, row) :: rest =>
      leased tokens claim_until (S n) rest
        (<[id := with_claim (Some (sha256 (tokens n))) (Some claim_until) row]> mail)
  end.
(** The row of [id] among leased ones: its content is as before *)
Lemma lookup_leased tokens claim_until n chosen mail id :
  NoDup chosen.*1 → (∀ i row, (i, row) ∈ chosen → mail !! i = Some row) →
  ((id ∉ chosen.*1) ∧ leased tokens claim_until n chosen mail !! id = mail !! id) ∨
  (∃ i row, chosen !! i = Some (id, row) ∧ mail !! id = Some row ∧
     leased tokens claim_until n chosen mail !! id =
       Some (with_claim (Some (sha256 (tokens (n + i)%nat))) (Some claim_until) row)).
Proof.
  revert n mail. induction chosen as [|[i row] chosen IH]; intros n mail Hnd Hrows.
  { left. split; [by apply not_elem_of_nil|done]. }
  rewrite fmap_cons in Hnd. apply NoDup_cons in Hnd as [Hi Hnd]. simpl in Hi.
  destruct (IH (S n) (<[i := with_claim (Some (sha256 (tokens n))) (Some claim_until) row]> mail))
    as [[Hid E]|(j & row' & Hj & Hrow & E)]; [done| |..].
  - intros j row' Hj. rewrite lookup_insert_ne; [apply Hrows; by right|].
    intros ->. apply Hi. exact (list_elem_of_fmap_2 fst _ _ Hj).
  - cbn [leased]. rewrite E. destruct (decide (i = id)) as [<-|Hne].
    + right. exists 0%nat, row. rewrite lookup_insert_eq, Nat.add_0_r.
      split_and!; [done|apply Hrows; by left|done].
    + left. rewrite lookup_insert_ne by done. split; [|done]. rewrite fmap_cons. simpl.
      rewrite not_elem_of_cons. done.
  - right. exists (S j), row'. cbn [leased]. rewrite E. split_and!; [done| |by rewrite Nat.add_succ_r].
    apply Hrows. right. by eapply list_elem_of_lookup_2.
Qed.

Lemma claim_each_run tokens claim_until max_bytes bytes n rows s :
  NoDup rows.*1 →
  (∀ id row, (id, row) ∈ rows → ahub_mailbox s !! id = Some row ∧ ml_claim_token_hash row = None) →
  let chosen := fitting max_bytes bytes rows in
  claim_each tokens claim_until max_bytes bytes n rows s =
    (Ok (handed_out tokens claim_until n chosen),
     set_mailbox (leased tokens claim_until n chosen (ahub_mailbox s)) s).
Proof.
  revert bytes n s. induction rows as [|[id row] rows IH]; intros bytes n s Hnd Hrows.
  { by destruct s. }
  rewrite fmap_cons in Hnd. apply NoDup_cons in Hnd as [Hid Hnd]. cbn [claim_each fitting].
  destruct (match max_bytes with Some m => _ | None => _ end).
  { apply IH; [done|]. intros i r Hi. apply Hrows. by right. }
  destruct (Hrows id row) as [Hrow Hhash]; [by left|].
  cbv [mbind ST_bind gets modify mret ST_ret].
  assert (select_where (unclaimed_packet id) (ahub_mailbox s) = [(id, row)]) as ->.
  { pose proof (NoDup_select_where (unclaimed_packet id) (ahub_mailbox s)) as Hnd'.
    assert (∀ k r, (k, r) ∈ select_where (unclaimed_packet id) (ahub_mailbox s) → k = id ∧ r = row) as Hall.
    { intros k r [Hk [-> _]]%elem_of_select_where. split; [done|]. congruence. }
    assert ((id, row) ∈ select_where (unclaimed_packet id) (ahub_mailbox s)) as Hin
      by (by apply elem_of_select_where).
    destruct (select_where _ _) as [|[k r] [|[k' r'] l]]; [by apply elem_of_nil in Hin| |].
    - destruct (Hall k r) as [-> ->]; [by left|done].
    - destruct (Hall k r) as [-> ->]; [by left|]. destruct (Hall k' r') as [-> ->]; [right; by left|].
      rewrite !fmap_cons in Hnd'. apply NoDup_cons in Hnd' as [Hno _]. destruct Hno. by left. }
  cbn [head].
  assert (update_where (unclaimed_packet id) (with_claim (Some (sha256 (tokens n))) (Some claim_until))
    (ahub_mailbox s) = <[id := with_claim (Some (sha256 (tokens n))) (Some claim_until) row]>
    (ahub_mailbox s)) as ->.
  { rewrite (update_where_key (unclaimed_packet id) id).
    - rewrite Hrow, decide_True by done. done.
    - by intros k v _ [-> _]. }
  rewrite IH; [done|done|]. intros i r Hi. cbn [ahub_mailbox set_mailbox].
  rewrite lookup_insert_ne; [apply Hrows; by right|]. intros ->. apply Hid.
  exact (list_elem_of_fmap_2 fst _ _ Hi).
Qed.
Lemma claim_rows_spec node uploader limit s :
  NoDup (claim_rows node uploader limit s).*1 ∧
  ∀ id row, (id, row) ∈ claim_rows node uploader limit s →
    ahub_mailbox s !! id = Some row ∧ claimable node uploader id row.
Proof.
  split; [apply NoDup_take_order, NoDup_select_where|].
  intros id row Hin%elem_of_take_elem. by rewrite elem_of_order_by, elem_of_select_where in Hin.
Qed.
End effects.

(** ** Calls and their effects *)

Section calls.
Context {PL : Platform} {DG : Digests} {SG : Signatures} (limits : AhubLimits).

(** The operations of the hub whose clock reads [now] *)
Inductive hub_call (now : Z) : ∀ A, HM A → Prop :=
  | call_allow node : hub_call now bool (allow_node now node)
  | call_disallow node : hub_call now bool (disallow_node now node)
  | call_purge : hub_call now purged (purge now)
  | call_count node : hub_call now Z (mailbox_count now node)
  | call_authenticate q d body : hub_call now unit (authenticate now q d body)
  | call_submit inspected inspected' q d raw :
      hub_call now CustodyReceipt (submit limits now inspected inspected' q d raw)
  | call_claim tokens q d body limit lease_ms max_bytes uploader :
      hub_call now (list ClaimedPacket) (claim now tokens q d body limit lease_ms max_bytes uploader)
  | call_settle q d body id token proof : hub_call now bool (settle now q d body id token proof)
  | call_settlements q d body limit destination :
      hub_call now (list DestinationSettlement) (settlements now q d body limit destination)
  | call_acknowledge q d body id : hub_call now bool (acknowledge_settlement now q d body id)
  | call_reserve token q d body peer ttl duration bytes_limit :
      hub_call now RelayReservation
        (reserve_relay limits now token q d body peer ttl duration bytes_limit)
  | call_authorize q d body id : hub_call now RelayReservation (authorize_relay now q d body id)
  | call_find q d body owner : hub_call now RelayReservation (find_relay_reservation now q d body owner).
Definition hub_step (now : Z) (s s' : hub_db) : Prop := ∃ A (m : HM A), hub_call now A m ∧ s' = (m s).2.
(** A history of calls, each with its own clock reading *)
Definition hub_run (clock : Z → Prop) : relation hub_db :=
  rtc (λ s s', ∃ now, clock now ∧ hub_step now s s').

(** What the work of an authenticated request does to the tables *)
Inductive work (now : Z) (q : AhubRequest) (d : NodeDescriptor) (s : hub_db) : hub_db → Prop :=
  | work_nothing : work now q d s s
  | work_custody packet current current' :
      inspect_packet current current' (info_raw packet) false = Ok packet →
      now < expires_ms packet → len (info_raw packet) ≤ max_packet_bytes limits →
      enabled (destination_id packet) s → enabled (q_node_id q) s →
      ahub_mailbox s !! packet_id packet = None → ahub_settlements s !! packet_id packet = None →
      _check_quota limits packet (q_node_id q) s = Ok tt → 0 < len (info_raw packet) →
      work now q d s
        (set_mailbox (<[packet_id packet := new_mail packet (q_node_id q)]> (ahub_mailbox s)) s)
  | work_claim tokens lease_ms chosen :
      MIN_CLAIM_LEASE_MS ≤ lease_ms ≤ MAX_CLAIM_LEASE_MS → NoDup chosen.*1 →
      (∀ id row, (id, row) ∈ chosen → ahub_mailbox s !! id = Some row ∧
         ml_destination_id row = q_node_id q ∧ ml_claim_token_hash row = None) →
      work now q d s (set_mailbox (leased tokens (now + lease_ms) 0 chosen (ahub_mailbox s)) s)
  | work_settle id token row proof json :
      ahub_mailbox s !! id = Some row → ml_destination_id row = q_node_id q →
      holds_claim now (sha256 token) row = true →
      verify_settlement now proof (d_sign_public d) = Ok tt →
      e_packet_id proof = id → e_destination_id proof = q_node_id q →
      e_uploader_id proof = ml_uploader_id row → e_expires_ms proof = ml_expires_ms row →
      e_packet_sha256 proof = sha256 (ml_raw row) →
      json_dumps (VMap (settlement_to_dict proof)) = Ok json →
      len (sha256 (ml_raw row)) = 32 →
      ahub_settlements s !! id = None →
      work now q d s (set_mailbox (delete id (ahub_mailbox s)) (set_settlements (<[id :=
        SettledRow (ml_destination_id row) (ml_uploader_id row) (sha256 (ml_raw row))
          (e_settled_ms proof) (ml_expires_ms row) (Some json) 0]> (ahub_settlements s)) s))
  | work_settled_before id :
      is_Some (ahub_settlements s !! id) → is_Some (ahub_mailbox s !! id) →
      work now q d s (set_mailbox (delete id (ahub_mailbox s)) s)
  | work_acknowledge id :
      work now q d s (set_settlements (alter (acknowledge now) id (ahub_settlements s)) s)
  | work_reserve v :
      new_reservation v = Ok v → rv_owner_id v = q_node_id q → now < rv_expires_ms v →
      enabled (rv_owner_id v) s → enabled (rv_allowed_peer_id v) s →
      ahub_relay_reservations s !! rv_reservation_id v = None →
      count_where (between_nodes (rv_owner_id v) (rv_allowed_peer_id v)) (ahub_relay_reservations s) = 0 →
      count_where (owned_by (rv_owner_id v)) (ahub_relay_reservations s)
        < max_relay_reservations_per_node limits →
      work now q d s (set_reservations (<[rv_reservation_id v := v]> (ahub_relay_reservations s)) s)
  | work_extend id old expires duration bytes_limit :
      let v := {| rv_reservation_id := id; rv_owner_id := rv_owner_id old;
                  rv_allowed_peer_id := rv_allowed_peer_id old; rv_created_ms := rv_created_ms old;
                  rv_expires_ms := expires; rv_max_duration_ms := duration;
                  rv_max_bytes_each_direction := bytes_limit |} in
      ahub_relay_reservations s !! id = Some old → rv_owner_id old = q_node_id q →
      new_reservation v = Ok v → now < expires →
      work now q d s (set_reservations (<[id := v]> (ahub_relay_reservations s)) s).
Inductive effect (now : Z) (s : hub_db) : hub_db → Prop :=
  | effect_nothing : effect now s s
  | effect_allow node :
      NODE_ID_RE node = true →
      effect now s (set_allowlist (upsert node (AllowRow now true None)
        (λ r, AllowRow (al_added_ms r) true None) (ahub_allowlist s)) s)
  | effect_disallow node :
      effect now s (set_allowlist (update_where (enabled_row node)
        (λ r, AllowRow (al_added_ms r) false (Some now)) (ahub_allowlist s)) s)
  | effect_purge : effect now s (purge_db now s)
  | effect_request q d body s' :
      accepted now q d body s → work now q d (consumed now q s) s' → effect now s s'.

(** *** One lemma per operation *)

(** The receipt says whether the packet was stored. *)
Lemma take_custody_run uploader packet s rc s' :
  enabled uploader s → take_custody limits uploader packet s = (Ok rc, s') →
  (s' = s ∧ cr_stored rc = false) ∨
  (rc = receipt packet (destination_id packet) true (expires_ms packet) ∧
   s' = set_mailbox (<[packet_id packet := new_mail packet uploader]> (ahub_mailbox s)) s ∧
   enabled (destination_id packet) s ∧ ahub_mailbox s !! packet_id packet = None ∧
   ahub_settlements s !! packet_id packet = None ∧ _check_quota limits packet uploader s = Ok tt ∧
   0 < len (info_raw packet)).
Proof.
  intros Hq. unfold take_custody. cbv [mbind ST_bind gets lift].
  destruct (require_allowed_run (destination_id packet) s) as [(-> & Hd & _)|(e & -> & _)]; [|done].
  destruct (ahub_mailbox s !! packet_id packet) as [r|] eqn:Hmail.
  { destruct (raise_if _ _); [|done]. intros [= <- <-]. by left. }
  destruct (ahub_settlements s !! packet_id packet) as [r|] eqn:Hset.
  { destruct (raise_if _ _); [|done]. intros [= <- <-]. by left. }
  destruct (_check_quota _ _ _ _) as [[]|] eqn:Hquota; [|done].
  unfold insert_mail. cbv [mbind ST_bind gets lift modify mret ST_ret].
  rewrite Hmail. rewrite bool_decide_false by (by intros []). cbn [orb ml_size_bytes ml_depth new_mail].
  rewrite orb_false_r. destruct (Z.leb_spec (len (info_raw packet)) 0); [done|]. cbn [raise_if].
  change (ml_destination_id (new_mail packet uploader)) with (destination_id packet).
  change (ml_uploader_id (new_mail packet uploader)) with uploader.
  rewrite !enabled_member by done. intros [= <- <-]. by right.
Qed.
Lemma take_custody_work now q d packet current current' s rc s' :
  inspect_packet current current' (info_raw packet) false = Ok packet →
  now < expires_ms packet → len (info_raw packet) ≤ max_packet_bytes limits → enabled (q_node_id q) s →
  take_custody limits (q_node_id q) packet s = (Ok rc, s') → work now q d s s'.
Proof.
  intros Hp He Hl Hq Hrun.
  destruct (take_custody_run _ _ _ _ _ Hq Hrun) as [[-> _]|(_ & -> & Hd & Hm & Hs & Hquota & Hpos)];
    [constructor|by eapply work_custody].
Qed.
Lemma claim_work now q d tokens uploader limit lease_ms max_bytes s :
  MIN_CLAIM_LEASE_MS ≤ lease_ms ≤ MAX_CLAIM_LEASE_MS →
  let chosen := fitting max_bytes 0 (claim_rows (q_node_id q) uploader limit s) in
  let run := (rows ← gets (claim_rows (q_node_id q) uploader limit);
              claim_each tokens (now + lease_ms) max_bytes 0 0 rows) s in
  run = (Ok (handed_out tokens (now + lease_ms) 0 chosen),
         set_mailbox (leased tokens (now + lease_ms) 0 chosen (ahub_mailbox s)) s) ∧
  work now q d s run.2.
Proof.
  intros Hlease chosen run. destruct (claim_rows_spec (q_node_id q) uploader limit s) as [Hnd Hrows].
  assert (run = (Ok (handed_out tokens (now + lease_ms) 0 chosen),
         set_mailbox (leased tokens (now + lease_ms) 0 chosen (ahub_mailbox s)) s)) as ->.
  { unfold run. cbv [mbind ST_bind gets]. apply claim_each_run; [done|].
    intros id row [Hrow (_ & _ & Hhash)]%Hrows. done. }
  split; [done|]. apply work_claim; [done| |].
  - eapply sublist_NoDup; [exact Hnd|apply fmap_sublist, fitting_sublist].
  - intros id row Hin. eapply sublist_subseteq in Hin; [|apply fitting_sublist].
    apply Hrows in Hin as [? (? & _ & ?)]. done.
Qed.
(** The proof speaks of exactly the packet in custody. *)
Definition proof_matches (id : string) (r : mail_row) (proof : DestinationSettlement) : Prop :=
  e_packet_id proof = id ∧ e_destination_id proof = ml_destination_id r ∧
  e_uploader_id proof = ml_uploader_id r ∧ e_expires_ms proof = ml_expires_ms r ∧
  e_packet_sha256 proof = sha256 (ml_raw r).
Definition settlement_row (r : mail_row) (proof : DestinationSettlement) (json : string) : settled_row :=
  SettledRow (ml_destination_id r) (ml_uploader_id r) (sha256 (ml_raw r)) (e_settled_ms proof)
    (ml_expires_ms r) (Some json) 0.
Lemma finish_custody_run now node d id token_hash proof s b s' :
  (∀ r, ahub_mailbox s !! id = Some r →
     is_Some (ahub_allowlist s !! ml_destination_id r) ∧ is_Some (ahub_allowlist s !! ml_uploader_id r)) →
  finish_custody now node d id token_hash proof s = (Ok b, s') →
  (b = false ∧ ahub_mailbox s !! id = None ∧ s' = s) ∨
  (b = true ∧ ∃ r json, ahub_mailbox s !! id = Some r ∧ ml_destination_id r = node ∧
     holds_claim now token_hash r = true ∧ verify_settlement now proof (d_sign_public d) = Ok tt ∧
     proof_matches id r proof ∧ json_dumps (VMap (settlement_to_dict proof)) = Ok json ∧
     len (sha256 (ml_raw r)) = 32 ∧
     s' = set_mailbox (delete id (ahub_mailbox s)) (match ahub_settlements s !! id with
       | Some _ => s
       | None => set_settlements (<[id := settlement_row r proof json]> (ahub_settlements s)) s
       end)).
Proof.
  intros Hknown. unfold finish_custody. cbv [mbind ST_bind gets lift].
  destruct (ahub_mailbox s !! id) as [r|] eqn:Hmail; [|intros [= <- <-]; by left].
  destruct (raise_if (negb (String.eqb (ml_destination_id r) _)) _) eqn:?; [|done].
  destruct (raise_if (negb (holds_claim _ _ _)) _) eqn:?; [|done].
  destruct (verify_settlement _ _ _) as [[]|] eqn:Hv; [|done].
  destruct (raise_if (_ || negb (String.eqb (e_packet_sha256 _) _)) _) eqn:?; [|done].
  destruct (json_dumps _) as [json|] eqn:Hjson; [|done].
  repeat match goal with H : raise_if _ _ = Ok _ |- _ => apply raise_if_ok in H end. bool_prop.
  unfold insert_settlement. cbv [mbind ST_bind gets lift modify mret ST_ret].
  destruct (sqlite_int _); [|done]. cbn [se_raw_sha256]. unfold check_digest.
  destruct (raise_if _ _) eqn:Hlen; [|done]. apply raise_if_ok in Hlen. bool_prop.
  assert (proof_matches id r proof) as Hmatch by (by split_and!; congruence).
  destruct (ahub_settlements s !! id) as [e|] eqn:Hset.
  { intros [= <- <-]. right. split; [done|]. by exists r, json. }
  destruct (Hknown _ eq_refl) as [[x Hx] [y Hy]].
  unfold member. cbv [mbind ST_bind gets lift se_destination_id se_uploader_id].
  rewrite Hx, Hy, !bool_decide_false by done. cbn [raise_if]. intros [= <- <-].
  right. split; [done|]. by exists r, json.
Qed.
Lemma finish_custody_work now q d id token proof s b s' :
  (∀ r, ahub_mailbox s !! id = Some r →
     is_Some (ahub_allowlist s !! ml_destination_id r) ∧ is_Some (ahub_allowlist s !! ml_uploader_id r)) →
  finish_custody now (q_node_id q) d id (sha256 token) proof s = (Ok b, s') → work now q d s s'.
Proof.
  intros Hknown Hrun. destruct (finish_custody_run _ _ _ _ _ _ _ _ _ Hknown Hrun) as
    [(_ & _ & ->)|(_ & r & json & Hr & Hd & Hh & Hv & (E1 & E2 & E3 & E4 & E5) & Hj & Hl & ->)];
    [constructor|].
  destruct (ahub_settlements s !! id) eqn:Hset; [by apply work_settled_before|].
  eapply work_settle; eauto. congruence.
Qed.
Lemma put_reservation_work now q d token peer ttl duration bytes_limit s v s' :
  enabled (q_node_id q) s → 0 < ttl →
  put_reservation limits now token (q_node_id q) peer ttl duration bytes_limit s = (Ok v, s') →
  (∀ id r, ahub_relay_reservations s !! id = Some r → rv_reservation_id r = id) →
  work now q d s s'.
Proof.
  intros Hq Httl. unfold put_reservation. cbv [mbind ST_bind gets lift].
  destruct (require_allowed_run peer s) as [(-> & Hpeer & _)|(e & -> & _)]; [|done].
  destruct (head _) as [[id old]|] eqn:Hhead.
  - destruct (select_where _ _) as [|kv l] eqn:Hsel; [done|]. injection Hhead as ->.
    assert ((id, old) ∈ select_where (between_nodes (q_node_id q) peer) (ahub_relay_reservations s))
      as [Hold [Howner _]]%elem_of_select_where by (rewrite Hsel; by left).
    destruct (check_reservation _); [|done]. cbv [modify].
    destruct (new_reservation _) as [v'|] eqn:Hnew; [|done]. intros [= -> <-] _.
    eapply (work_extend now q d s id old); [done|done| |lia].
    rewrite Hnew. unfold new_reservation in Hnew. res_inv. by subst.
  - destruct (raise_if _ _) eqn:Hcount; [|done]. apply raise_if_ok in Hcount. bool_prop.
    unfold insert_reservation. cbv [mbind ST_bind gets lift].
    destruct (check_reservation _); [|done]. destruct (raise_if _ _) eqn:Htaken; [|done].
    apply raise_if_ok in Htaken. bool_prop. cbn [rv_reservation_id rv_owner_id rv_allowed_peer_id] in *.
    rewrite !enabled_member by done. cbv [modify].
    destruct (new_reservation _) as [v'|] eqn:Hnew; [|done]. intros [= -> <-] _.
    match type of Hnew with new_reservation ?v0 = _ => apply (work_reserve now q d s v0) end;
      cbn; try done; [|lia|].
    + rewrite Hnew. unfold new_reservation in Hnew. res_inv. by subst.
    + match goal with H : ¬ (_ ≠ None) |- _ => by apply dec_stable in H end.
Qed.

Lemma inspect_packet_raw current current' raw allow p :
  inspect_packet current current' raw allow = Ok p → info_raw p = raw.
Proof.
  unfold inspect_packet. intros H. res_inv. destruct (_ : value); try discriminate. res_inv. subst.
  match goal with H : _validate_outer _ _ _ = Ok _ |- _ => unfold _validate_outer in H; res_inv; by subst end.
Qed.

(** Foreign keys hold; a reservation is under its id. *)
Record keyed (s : hub_db) : Prop := {
  ky_mail : ∀ id r, ahub_mailbox s !! id = Some r →
    is_Some (ahub_allowlist s !! ml_destination_id r) ∧ is_Some (ahub_allowlist s !! ml_uploader_id r);
  ky_reservations : ∀ id v, ahub_relay_reservations s !! id = Some v → rv_reservation_id v = id;
}.
Lemma keyed_consumed now q s : keyed s → keyed (consumed now q s).
Proof.
  intros [Hm Hr]. split.
  - intros id r' (r & Hr' & _ & ->)%lookup_purged_mail. simpl.
    case_decide; apply (Hm id r); exact Hr'.
  - intros id v [Hv _]%lookup_purged_reservation. by apply Hr.
Qed.

(** A call returns with one of the effects, or raises and changes nothing. *)
Definition outcome {A} (now : Z) (m : HM A) (s : hub_db) : Prop :=
  (∃ a s', m s = (Ok a, s') ∧ effect now s s') ∨ ∃ e, m s = (Err e, s).
Lemma outcome_authenticated {A} now q d body (k : HM A) s :
  (accepted now q d body s → ∀ b s', k (consumed now q s) = (Ok b, s') →
     work now q d (consumed now q s) s') →
  outcome now (authenticated now q d body k) s.
Proof.
  intros Hwork.
  destruct (authenticated_run now q d body k s) as [(Hacc & a & s' & Hk & E)|(e & E & _)]; [left|right; eauto].
  exists a, s'. split; [done|]. eapply effect_request; eauto.
Qed.
Ltac raises := by right; eauto.
Lemma outcome_allow_node now node s : outcome now (allow_node now node) s.
Proof.
  unfold outcome, allow_node, transaction. cbv [mbind ST_bind lift gets modify mret ST_ret].
  destruct (_validate_node_id node) as [n|e] eqn:Hn; [|raises].
  unfold _validate_node_id in Hn. res_inv. bool_prop. subst. case_bool_decide; left; do 2 eexists;
    (split; [done|]); by constructor.
Qed.
Lemma outcome_disallow_node now node s : outcome now (disallow_node now node) s.
Proof.
  unfold outcome, disallow_node, transaction. cbv [mbind ST_bind lift gets modify mret ST_ret].
  destruct (_validate_node_id node) as [n|e]; [|raises]. left. do 2 eexists. split; [done|]. constructor.
Qed.
Lemma outcome_purge now s : outcome now (purge now) s.
Proof.
  unfold outcome; left. unfold purge, transaction. destruct (purge_run now s) as [c ->]. do 2 eexists. split; [done|]. constructor.
Qed.
Lemma outcome_mailbox_count now node s : outcome now (mailbox_count now node) s.
Proof.
  unfold outcome, mailbox_count, transaction. cbv [mbind ST_bind lift gets]. destruct (purge_run now s) as [c ->].
  destruct (_validate_node_id node) as [n|e]; [|raises]. left. do 2 eexists. split; [done|]. constructor.
Qed.
Lemma outcome_submit now inspected inspected' q d raw s :
  outcome now (submit limits now inspected inspected' q d raw) s.
Proof.
  unfold submit. cbv [mbind ST_bind lift].
  destruct (inspect_packet _ _ _ _) as [p|e] eqn:Hp; [|raises].
  destruct (raise_if (_ <=? _) _) eqn:?; [|raises].
  destruct (raise_if (_ <? _) _) eqn:?; [|raises].
  repeat match goal with H : raise_if _ _ = Ok _ |- _ => apply raise_if_ok in H end. bool_prop.
  apply outcome_authenticated. intros (_ & Hen & _) rc s'. pose proof (inspect_packet_raw _ _ _ _ _ Hp) as <-.
  eapply take_custody_work; eauto.
Qed.
Lemma outcome_claim now tokens q d body limit lease_ms max_bytes uploader s :
  outcome now (claim now tokens q d body limit lease_ms max_bytes uploader) s.
Proof.
  unfold claim. cbv [mbind ST_bind lift].
  destruct (int_between 1 _ _ _) as [n|e]; [|raises].
  destruct (int_between MIN_CLAIM_LEASE_MS _ _ _) as [l|e] eqn:Hl; [|raises].
  unfold int_between in Hl. res_inv. bool_prop.
  destruct (claim_bytes _) as [mb|e]; [|raises]. destruct (optional_node _) as [u|e]; [|raises].
  apply outcome_authenticated. intros _ b s' Hrun. subst.
  match goal with H : (_ <= ?l)%Z, H' : (?l <= _)%Z |- _ => pose proof
    (proj2 (claim_work now q d tokens u n l mb (consumed now q s) (conj H H'))) as Hw end.
  cbv [mbind ST_bind] in Hw, Hrun. by rewrite Hrun in Hw.
Qed.
Lemma outcome_settle now q d body id token proof s :
  keyed s → outcome now (settle now q d body id token proof) s.
Proof.
  intros Hkeyed.   unfold settle. cbv [mbind ST_bind lift]. destruct (encode_ascii _) as [t|e]; [|raises].
  apply outcome_authenticated. intros _ b s'. apply finish_custody_work. intros r.
  by apply keyed_consumed.
Qed.
Lemma outcome_settlements now q d body limit destination s :
  outcome now (settlements now q d body limit destination) s.
Proof.
  unfold settlements. cbv [mbind ST_bind lift gets]. destruct (int_between _ _ _ _) as [n|e]; [|raises].
  destruct (optional_node _) as [u|e]; [|raises]. apply outcome_authenticated.
  intros _ b s' [= _ <-]. constructor.
Qed.
Lemma outcome_acknowledge_settlement now q d body id s :
  outcome now (acknowledge_settlement now q d body id) s.
Proof.
  unfold acknowledge_settlement. cbv [mbind ST_bind lift gets modify mret ST_ret].
  destruct (raise_if _ _); [|raises]. apply outcome_authenticated. intros _ b s'.
  destruct (ahub_settlements _ !! id) as [r|]; [|intros [= _ <-]; constructor].
  destruct (raise_if _ _); [|done]. destruct (_ =? _); intros [= _ <-]; constructor.
Qed.
Lemma outcome_reserve_relay now token q d body peer ttl duration bytes_limit s :
  keyed s → outcome now (reserve_relay limits now token q d body peer ttl duration bytes_limit) s.
Proof.
  intros Hkeyed.   unfold reserve_relay. cbv [mbind ST_bind lift].
  destruct (_validate_node_id _) as [p|e]; [|raises].
  destruct (of_option _ (as_int ttl)) as [t|e]; [|raises].
  destruct (of_option _ (as_int duration)) as [u|e]; [|raises].
  destruct (of_option _ (as_int bytes_limit)) as [b|e]; [|raises].
  destruct (raise_if (negb (_ && (t <=? _))) _) eqn:Ht; [|raises].
  destruct (raise_if (negb (_ && (u <=? _))) _) eqn:?; [|raises].
  destruct (raise_if (negb (_ && (b <=? _))) _) eqn:?; [|raises].
  destruct (raise_if (String.eqb _ _) _) eqn:?; [|raises].
  apply raise_if_ok in Ht. bool_prop.
  apply outcome_authenticated. intros (_ & Hen & _) v s' Hrun. eapply put_reservation_work; [exact Hen| |exact Hrun|].
  + unfold MIN_RELAY_RESERVATION_TTL_MS in *. lia.
  + apply keyed_consumed, Hkeyed.
Qed.
Lemma outcome_authorize_relay now q d body id s : outcome now (authorize_relay now q d body id) s.
Proof.
  unfold authorize_relay. cbv [mbind ST_bind lift gets mret ST_ret].
  destruct (raise_if _ _); [|raises]. apply outcome_authenticated. intros _ b s'.
  destruct (of_option _ _); [|done]. destruct (new_reservation _); [|done].
  destruct (raise_if _ _); [|done]. intros [= _ <-]. constructor.
Qed.
Lemma outcome_find_relay_reservation now q d body owner s :
  outcome now (find_relay_reservation now q d body owner) s.
Proof.
  unfold find_relay_reservation. cbv [mbind ST_bind lift gets].
  destruct (_validate_node_id _) as [p|e]; [|raises]. apply outcome_authenticated. intros _ b s'.
  destruct (require_allowed_run p (consumed now q s)) as [(-> & _)|(e & -> & _)]; [|done].
  destruct (of_option _ _); [|done]. intros [= _ <-]. constructor.
Qed.
Lemma hub_call_outcome now A (m : HM A) s : hub_call now A m → keyed s → outcome now m s.
Proof.
  intros Hcall Hkeyed. destruct Hcall; eauto using outcome_allow_node, outcome_disallow_node,
    outcome_purge, outcome_mailbox_count, outcome_submit, outcome_claim, outcome_settle,
    outcome_settlements, outcome_acknowledge_settlement, outcome_reserve_relay,
    outcome_authorize_relay, outcome_find_relay_reservation.
  apply outcome_authenticated. intros _ [] s' [= <-]. constructor.
Qed.

(** ** The invariant *)

(** The row is what the header of the stored packet says, with the claim columns set
    together. *)
Definition same_mail (r r' : mail_row) : Prop :=
  r' = with_claim (ml_claim_token_hash r') (ml_claim_until_ms r') r.
Definition known (s : hub_db) (node : string) : Prop := is_Some (ahub_allowlist s !! node).
Definition custodied (id : string) (r : mail_row) : Prop :=
  ∃ packet current current', inspect_packet current current' (ml_raw r) false = Ok packet ∧
    packet_id packet = id ∧ same_mail (new_mail packet (ml_uploader_id r)) r ∧
    0 < ml_size_bytes r ≤ max_packet_bytes limits.
Record mail_ok (s : hub_db) (id : string) (r : mail_row) : Prop := {
  mo_custodied : custodied id r;
  mo_known : known s (ml_destination_id r) ∧ known s (ml_uploader_id r);
  mo_claim : is_Some (ml_claim_token_hash r) ↔ is_Some (ml_claim_until_ms r);
  mo_unsettled : ahub_settlements s !! id = None;
}.
(** The settled row keeps a proof that verified under the destination's own key. *)
Definition proven (id : string) (e : settled_row) (proof : DestinationSettlement) (json : string)
    : Prop :=
  se_proof_json e = Some json ∧ json_dumps (VMap (settlement_to_dict proof)) = Ok json ∧
  (∃ d now, verify_descriptor now d = Ok tt ∧ d_node_id d = se_destination_id e ∧
     verify_settlement now proof (d_sign_public d) = Ok tt) ∧
  e_packet_id proof = id ∧ e_destination_id proof = se_destination_id e ∧
  e_uploader_id proof = se_uploader_id e ∧ e_packet_sha256 proof = se_raw_sha256 e ∧
  e_settled_ms proof = se_settled_ms e ∧ e_expires_ms proof = se_expires_ms e.
Record settled_ok (s : hub_db) (id : string) (e : settled_row) : Prop := {
  so_proven : ∃ proof json, proven id e proof json;
  so_known : known s (se_destination_id e) ∧ known s (se_uploader_id e);
}.
Record reservation_ok (s : hub_db) (id : string) (v : RelayReservation) : Prop := {
  ro_id : rv_reservation_id v = id;
  ro_valid : new_reservation v = Ok v;
  ro_known : known s (rv_owner_id v) ∧ known s (rv_allowed_peer_id v);
  ro_unique : ∀ id' v', ahub_relay_reservations s !! id' = Some v' →
    rv_owner_id v' = rv_owner_id v → rv_allowed_peer_id v' = rv_allowed_peer_id v → id' = id;
}.
(** The quotas of one node *)
Record within_quota (s : hub_db) (node : string) : Prop := {
  wq_destination : count_where (to_destination node) (ahub_mailbox s) ≤ max_packets_per_destination limits;
  wq_destination_bytes :
    sum_where (to_destination node) ml_size_bytes (ahub_mailbox s) ≤ max_bytes_per_destination limits;
  wq_uploader : count_where (from_uploader node) (ahub_mailbox s) ≤ max_packets_per_uploader limits;
  wq_uploader_bytes :
    sum_where (from_uploader node) ml_size_bytes (ahub_mailbox s) ≤ max_bytes_per_uploader limits;
  wq_reservations :
    count_where (owned_by node) (ahub_relay_reservations s) ≤ max_relay_reservations_per_node limits;
}.
Record hub_ok (s : hub_db) : Prop := {
  ho_nonces : ∀ key issued, ahub_nonces s !! key = Some issued → known s key.1;
  ho_mail : ∀ id r, ahub_mailbox s !! id = Some r → mail_ok s id r;
  ho_settled : ∀ id e, ahub_settlements s !! id = Some e → settled_ok s id e;
  ho_reservations : ∀ id v, ahub_relay_reservations s !! id = Some v → reservation_ok s id v;
  ho_quota : ∀ node, within_quota s node;
}.
Lemma hub_ok_keyed s : hub_ok s → keyed s.
Proof.
  intros Hok. split; intros; [by apply (mo_known s id), ho_mail|by apply (ro_id s), ho_reservations].
Qed.
Lemma custodied_size id r : custodied id r → ml_size_bytes r = len (ml_raw r) ∧ 0 < ml_size_bytes r.
Proof.
  intros (p & c & c' & Hp & _ & -> & H). simpl in *. split; [done|lia].
Qed.
Lemma same_mail_refl r : same_mail r r.
Proof. by destruct r. Qed.
Lemma same_mail_trans r1 r2 r3 : same_mail r1 r2 → same_mail r2 r3 → same_mail r1 r3.
Proof. unfold same_mail. intros -> ->. done. Qed.
Lemma same_mail_claim h u r : same_mail r (with_claim h u r).
Proof. done. Qed.
Lemma same_mail_fields r r' : same_mail r r' →
  ml_destination_id r' = ml_destination_id r ∧ ml_uploader_id r' = ml_uploader_id r ∧
  ml_raw r' = ml_raw r ∧ ml_size_bytes r' = ml_size_bytes r ∧ ml_expires_ms r' = ml_expires_ms r.
Proof. by intros ->. Qed.
Lemma custodied_same id r r' : same_mail r r' → custodied id r → custodied id r'.
Proof.
  intros Hs (p & c & c' & Hp & Hid & Hsame & Hsize).
  pose proof (same_mail_fields _ _ Hs) as (_ & Eu & Er & Es & _). exists p, c, c'.
  rewrite Eu, Er, Es. split_and!; try done; [by eapply same_mail_trans|lia..].
Qed.

(** Operations that add neither packets, nor settlements, nor reservations *)
Record smaller (s s' : hub_db) : Prop := {
  sm_known : ∀ node, known s node → known s' node;
  sm_nonces : ∀ key issued, ahub_nonces s' !! key = Some issued → known s key.1;
  sm_mail : ∀ id r', ahub_mailbox s' !! id = Some r' → ∃ r, ahub_mailbox s !! id = Some r ∧
    same_mail r r' ∧ (is_Some (ml_claim_token_hash r') ↔ is_Some (ml_claim_until_ms r'));
  sm_settled : ∀ id e', ahub_settlements s' !! id = Some e' → ∃ e, ahub_settlements s !! id = Some e ∧
    (e' = e ∨ ∃ now, e' = acknowledge now e);
  sm_reservations : ∀ id v, ahub_relay_reservations s' !! id = Some v →
    ahub_relay_reservations s !! id = Some v;
}.
Lemma smaller_quota s s' node :
  smaller s s' → (∀ id r, ahub_mailbox s !! id = Some r → 0 ≤ ml_size_bytes r) →
  within_quota s node → within_quota s' node.
Proof.
  intros [_ _ Hm _ Hr] Hpos [? ? ? ? ?].
  assert (∀ P : string → mail_row → Prop, ∀ `{!∀ k v, Decision (P k v)},
    (∀ id r r', same_mail r r' → P id r' → P id r) →
    count_where P (ahub_mailbox s') ≤ count_where P (ahub_mailbox s) ∧
    sum_where P ml_size_bytes (ahub_mailbox s') ≤ sum_where P ml_size_bytes (ahub_mailbox s)) as Hle.
  { intros P HdP HP. split.
    - apply count_where_le. intros id r' Hr' HPr'. destruct (Hm id r' Hr') as (r & Hrow & Hs & _). eauto.
    - assert (∀ t, (∀ id r, t !! id = Some r → 0 ≤ ml_size_bytes r) →
        sum_where P ml_size_bytes t = sum_where P (λ r, Z.max 0 (ml_size_bytes r)) t) as Hmax.
      { intros t Ht. unfold sum_where.
        assert (∀ kv, kv ∈ select_where P t → 0 ≤ ml_size_bytes kv.2) as Hin.
        { intros [k r] [Hk _]%elem_of_select_where. by eapply Ht. }
        induction (select_where P t) as [|kv l IH]; [done|]. simpl. rewrite IH.
        - specialize (Hin kv (list_elem_of_here _ _)). lia.
        - intros kv' Hkv'. apply Hin. by right. }
      rewrite !Hmax; [|exact Hpos|].
      + apply sum_where_le; [lia|]. intros id r' Hr' HPr'. destruct (Hm id r' Hr') as (r & Hrow & Hs & _).
        pose proof (same_mail_fields _ _ Hs) as (_ & _ & _ & Es & _).
        exists r. split_and!; [done|by eapply HP|lia].
      + intros id r' Hr'. destruct (Hm id r' Hr') as (r & Hrow & Hs & _).
        pose proof (same_mail_fields _ _ Hs) as (_ & _ & _ & -> & _). by eapply Hpos. }
  destruct (Hle (to_destination node) _) as [? ?].
  { unfold to_destination. by intros id r r' (-> & _)%same_mail_fields. }
  destruct (Hle (from_uploader node) _) as [? ?].
  { unfold from_uploader. by intros id r r' (_ & -> & _)%same_mail_fields. }
  split; [lia..|]. etrans; [|done]. apply count_where_le. eauto.
Qed.
Lemma smaller_ok s s' : smaller s s' → hub_ok s → hub_ok s'.
Proof.
  intros Hs [Hn Hmail Hset Hres Hquota]. pose proof Hs as [Hk Hn' Hm He Hr]. split.
  - eauto.
  - intros id r' Hr'. destruct (Hm id r' Hr') as (r & Hrow & Hsame & Hclaim).
    destruct (Hmail id r Hrow) as [Hc [Hd Hu] _ Hno].
    pose proof (same_mail_fields _ _ Hsame) as (Ed & Eu & _).
    split; [by eapply custodied_same|rewrite Ed, Eu; eauto|done|].
    destruct (ahub_settlements s' !! id) as [e'|] eqn:E; [|done].
    destruct (He id e' E) as (e & He' & _). congruence.
  - intros id e' He'. destruct (He id e' He') as (e & Hrow & [->|[now ->]]);
      destruct (Hset id e Hrow) as [Hp [? ?]]; split; eauto.
  - intros id v Hv. destruct (Hres id v (Hr id v Hv)) as [? ? [? ?] Huniq]. split; eauto.
  - intros node. eapply smaller_quota; [done| |done]. intros id r Hrow.
    destruct (custodied_size id r (mo_custodied _ _ _ (Hmail id r Hrow))). lia.
Qed.

Definition claims_paired (s : hub_db) : Prop := ∀ id r, ahub_mailbox s !! id = Some r →
  is_Some (ml_claim_token_hash r) ↔ is_Some (ml_claim_until_ms r).
Lemma hub_ok_paired s : hub_ok s → claims_paired s.
Proof. intros Hok id r Hr. by apply (mo_claim s id), ho_mail. Qed.
Lemma smaller_purge now s : hub_ok s → smaller s (purge_db now s).
Proof.
  intros Hok. split.
  - done.
  - intros key issued [Hk _]%lookup_purged_nonce. by eapply ho_nonces.
  - intros id r' (r & Hr & _ & ->)%lookup_purged_mail. exists r. split; [done|].
    pose proof (hub_ok_paired s Hok id r Hr). case_decide; [|by split; [apply same_mail_refl|]].
    split; [done|]. simpl. by split; intros []%is_Some_None.
  - intros id e' [He _]%lookup_purged_settled. eauto.
  - by intros id v [Hv _]%lookup_purged_reservation.
Qed.
Lemma smaller_same_tables s a n :
  hub_ok s → (∀ node, known s node → is_Some (a !! node)) →
  (∀ key issued, n !! key = Some issued → known s key.1) →
  smaller s (HubDb a n (ahub_mailbox s) (ahub_settlements s) (ahub_relay_reservations s)).
Proof.
  intros Hok Ha Hn. split; simpl; try done; [|by eauto]. intros id r Hr. exists r.
  pose proof (hub_ok_paired s Hok id r Hr). by split_and!; [|apply same_mail_refl|apply H..].
Qed.
Lemma consumed_ok now q s : enabled (q_node_id q) s → hub_ok s → hub_ok (consumed now q s).
Proof.
  intros Hen Hok. assert (hub_ok (purge_db now s)) as Hp by (eapply smaller_ok; [by apply smaller_purge|done]).
  apply (smaller_ok (purge_db now s)); [|done]. apply smaller_same_tables; [done..|].
  intros key issued. rewrite lookup_insert_Some. intros [[<- _]|[_ Hk]]; [|by eapply (ho_nonces _ Hp)].
  unfold known, enabled in *. simpl in *. by destruct (ahub_allowlist s !! q_node_id q).
Qed.
Lemma smaller_claim tokens claim_until chosen s :
  hub_ok s → NoDup chosen.*1 → (∀ id row, (id, row) ∈ chosen → ahub_mailbox s !! id = Some row) →
  smaller s (set_mailbox (leased tokens claim_until 0 chosen (ahub_mailbox s)) s).
Proof.
  intros Hok Hnd Hrows. split; simpl; try done; [by apply Hok| |by eauto]. intros id r' Hr'.
  destruct (lookup_leased tokens claim_until 0 chosen (ahub_mailbox s) id Hnd Hrows)
    as [[_ E]|(i & row & _ & Hrow & E)]; rewrite E in Hr'.
  - exists r'. split_and!; [done|apply same_mail_refl|apply (hub_ok_paired s Hok _ _ Hr')..].
  - simplify_eq. exists row. split_and!; [done|done|by eauto..].
Qed.
Lemma smaller_delete_mail id s : hub_ok s → smaller s (set_mailbox (delete id (ahub_mailbox s)) s).
Proof.
  intros Hok. split; simpl; try done; [by apply Hok| |by eauto].
  intros i r' [_ Hr']%lookup_delete_Some. exists r'.
  split_and!; [done|apply same_mail_refl|apply (hub_ok_paired s Hok _ _ Hr')..].
Qed.
Lemma smaller_acknowledge now id s :
  hub_ok s → smaller s (set_settlements (alter (acknowledge now) id (ahub_settlements s)) s).
Proof.
  intros Hok. split; simpl; try done; [by apply Hok| |].
  - intros i r Hr. exists r. split_and!; [done|apply same_mail_refl|apply (hub_ok_paired s Hok _ _ Hr)..].
  - intros i e'. rewrite lookup_alter_Some. intros [(<- & e & He & ->)|[_ He]]; eauto.
Qed.

Lemma custody_ok now packet current current' uploader s :
  inspect_packet current current' (info_raw packet) false = Ok packet → now < expires_ms packet →
  len (info_raw packet) ≤ max_packet_bytes limits → 0 < len (info_raw packet) →
  enabled (destination_id packet) s → enabled uploader s →
  ahub_mailbox s !! packet_id packet = None → ahub_settlements s !! packet_id packet = None →
  _check_quota limits packet uploader s = Ok tt → hub_ok s →
  hub_ok (set_mailbox (<[packet_id packet := new_mail packet uploader]> (ahub_mailbox s)) s).
Proof.
  intros Hp _ Hsize Hpos Hd Hu Hnew Hunsettled Hq Hok. pose proof Hok as [Hn Hmail Hset Hres Hquota].
  assert (∀ node, enabled node s → known s node) as Hknown.
  { unfold enabled, known. intros node. by destruct (ahub_allowlist s !! node). }
  split; [by apply Hok| | | |].
  - intros id r. simpl. rewrite lookup_insert_Some. intros [[<- <-]|[_ Hr]].
    + split; simpl; [|by split; apply Hknown|by split; intros []%is_Some_None|done].
      exists packet, current, current'. by split_and!; simpl.
    + destruct (Hmail id r Hr) as [? ? ? ?]. by split.
  - intros id e He. destruct (Hset id e He). by split.
  - intros id v Hv. destruct (Hres id v Hv). by split.
  - intros node. destruct (Hquota node) as [Q1 Q2 Q3 Q4 Q5]. unfold _check_quota in Hq. res_inv. bool_prop.
    split; simpl; try done.
    + pose proof (count_where_insert (to_destination node) (packet_id packet) (new_mail packet uploader)
        (ahub_mailbox s)) as E. rewrite Hnew in E. revert E. case_decide as HP; [|lia].
      unfold to_destination in HP. simpl in HP. subst. lia.
    + rewrite sum_where_insert by done. case_decide as HP; [|lia].
      unfold to_destination in HP. simpl in HP. subst. simpl. lia.
    + pose proof (count_where_insert (from_uploader node) (packet_id packet) (new_mail packet uploader)
        (ahub_mailbox s)) as E. rewrite Hnew in E. revert E. case_decide as HP; [|lia].
      unfold from_uploader in HP. simpl in HP. subst. lia.
    + rewrite sum_where_insert by done. case_decide as HP; [|lia].
      unfold from_uploader in HP. simpl in HP. subst. simpl. lia.
Qed.
Lemma settled_ok_insert id e proof json s :
  hub_ok s → ahub_mailbox s !! id = None → proven id e proof json →
  known s (se_destination_id e) → known s (se_uploader_id e) →
  hub_ok (set_settlements (<[id := e]> (ahub_settlements s)) s).
Proof.
  intros Hok Hmail Hp Hd Hu. pose proof Hok as [Hn Hm Hset Hres Hquota]. split; [done| | | |].
  - intros i r Hr. destruct (Hm i r Hr). split; [done..|]. simpl. rewrite lookup_insert_ne; [done|].
    intros ->. simpl in Hr. congruence.
  - intros i e'. simpl. rewrite lookup_insert_Some. intros [[<- <-]|[_ He]].
    + split; [by eauto|done].
    + destruct (Hset i e' He). by split.
  - intros i v Hv. destruct (Hres i v Hv). by split.
  - intros node. destruct (Hquota node). by split.
Qed.
Lemma reservations_ok_put v s :
  hub_ok s → new_reservation v = Ok v → known s (rv_owner_id v) → known s (rv_allowed_peer_id v) →
  (∀ id' v', ahub_relay_reservations s !! id' = Some v' → rv_owner_id v' = rv_owner_id v →
     rv_allowed_peer_id v' = rv_allowed_peer_id v → id' = rv_reservation_id v) →
  (∀ node, count_where (owned_by node)
     (<[rv_reservation_id v := v]> (ahub_relay_reservations s)) ≤ max_relay_reservations_per_node limits) →
  hub_ok (set_reservations (<[rv_reservation_id v := v]> (ahub_relay_reservations s)) s).
Proof.
  intros Hok Hv Ho Hp Huniq Hcount. pose proof Hok as [Hn Hm Hset Hres Hquota]. split; [done| | | |].
  - intros i r Hr. destruct (Hm i r Hr). by split.
  - intros i e He. destruct (Hset i e He). by split.
  - intros i w. simpl. rewrite lookup_insert_Some. intros [[<- <-]|[Hne Hw]].
    + split; [done..|]. intros id' v'. simpl. rewrite lookup_insert_Some.
      intros [[<- _]|[_ Hv']]; [done|by eauto].
    + destruct (Hres i w Hw) as [? ? ? Hw']. split; [done..|]. intros id' v'. simpl.
      rewrite lookup_insert_Some. intros [[<- <-]|[_ Hv']]; [|by eauto]. intros Eo Ep.
      by rewrite (Huniq i w Hw).
  - intros node. destruct (Hquota node). by split.
Qed.

Lemma settle_ok now q d id row proof json s :
  hub_ok s → ahub_mailbox s !! id = Some row → verify_descriptor now d = Ok tt →
  d_node_id d = q_node_id q → ml_destination_id row = q_node_id q →
  verify_settlement now proof (d_sign_public d) = Ok tt → e_packet_id proof = id →
  e_destination_id proof = q_node_id q → e_uploader_id proof = ml_uploader_id row →
  e_expires_ms proof = ml_expires_ms row → e_packet_sha256 proof = sha256 (ml_raw row) →
  json_dumps (VMap (settlement_to_dict proof)) = Ok json →
  hub_ok (set_mailbox (delete id (ahub_mailbox s)) (set_settlements (<[id :=
    SettledRow (ml_destination_id row) (ml_uploader_id row) (sha256 (ml_raw row))
      (e_settled_ms proof) (ml_expires_ms row) (Some json) 0]> (ahub_settlements s)) s)).
Proof.
  intros Hok Hrow Hd Hn Hdest Hv Hid Hpd Hpu Hpe Hps Hjson.
  assert (hub_ok (set_mailbox (delete id (ahub_mailbox s)) s)) as Hok'.
  { eapply smaller_ok; [by apply smaller_delete_mail|done]. }
  destruct (mo_known _ _ _ (ho_mail s Hok id row Hrow)) as [Hkd Hku].
  apply (settled_ok_insert id _ proof json _ Hok'); simpl; [by apply lookup_delete_eq| |done|done].
  split_and!; simpl; try done; [|congruence]. exists d, now. split_and!; congruence.
Qed.
Lemma reserve_ok v s :
  hub_ok s → new_reservation v = Ok v → enabled (rv_owner_id v) s → enabled (rv_allowed_peer_id v) s →
  ahub_relay_reservations s !! rv_reservation_id v = None →
  count_where (between_nodes (rv_owner_id v) (rv_allowed_peer_id v)) (ahub_relay_reservations s) = 0 →
  count_where (owned_by (rv_owner_id v)) (ahub_relay_reservations s)
    < max_relay_reservations_per_node limits →
  hub_ok (set_reservations (<[rv_reservation_id v := v]> (ahub_relay_reservations s)) s).
Proof.
  intros Hok Hv Ho Hp Hnew Hpair Hcount.
  assert (∀ node, enabled node s → known s node) as Hknown.
  { unfold enabled, known. intros node. by destruct (ahub_allowlist s !! node). }
  apply reservations_ok_put; auto.
  - intros id' v' Hv' Eo Ep. by destruct (proj1 (count_where_zero _ _) Hpair id' v' Hv').
  - intros node. pose proof (count_where_insert (owned_by node) (rv_reservation_id v) v
      (ahub_relay_reservations s)) as E. rewrite Hnew in E. revert E.
    pose proof (wq_reservations _ _ (ho_quota s Hok node)).
    case_decide as HP; [|lia]. unfold owned_by in HP. simplify_eq. lia.
Qed.
Lemma extend_ok id old v s :
  hub_ok s → ahub_relay_reservations s !! id = Some old → rv_reservation_id v = id →
  rv_owner_id v = rv_owner_id old → rv_allowed_peer_id v = rv_allowed_peer_id old →
  new_reservation v = Ok v → hub_ok (set_reservations (<[id := v]> (ahub_relay_reservations s)) s).
Proof.
  intros Hok Hold <- Eo Ep Hv. destruct (ho_reservations s Hok _ _ Hold) as [_ _ [Hko Hkp] Huniq].
  apply reservations_ok_put; rewrite ?Eo, ?Ep; auto.
  intros node. pose proof (count_where_insert (owned_by node) (rv_reservation_id v) v
    (ahub_relay_reservations s)) as E. rewrite Hold in E. revert E.
  pose proof (wq_reservations _ _ (ho_quota s Hok node)).
  case_decide as H1; case_decide as H2; unfold owned_by in H1, H2; first [lia|congruence].
Qed.
Lemma work_ok now q d s s' :
  verify_descriptor now d = Ok tt → d_node_id d = q_node_id q → work now q d s s' → hub_ok s → hub_ok s'.
Proof.
  intros Hd Hn Hwork Hok. destruct Hwork.
  - done.
  - by eapply custody_ok.
  - eapply smaller_ok; [|done]. apply smaller_claim; [done..|]. naive_solver.
  - by eapply settle_ok.
  - eapply smaller_ok; [by apply smaller_delete_mail|done].
  - eapply smaller_ok; [by apply smaller_acknowledge|done].
  - by apply reserve_ok.
  - by eapply extend_ok.
Qed.
Lemma effect_ok now s s' : effect now s s' → hub_ok s → hub_ok s'.
Proof.
  intros Heff Hok. destruct Heff as [|node _|node| |q d body s' Hacc Hwork].
  - done.
  - eapply smaller_ok; [apply smaller_same_tables; [done| |by apply Hok]|done].
    intros n [r Hr]. unfold upsert. destruct (decide (node = n)) as [->|];
      [by rewrite lookup_insert_eq|by rewrite lookup_insert_ne, Hr].
  - eapply smaller_ok; [apply smaller_same_tables; [done| |by apply Hok]|done].
    intros n [r Hr]. by rewrite lookup_update_where, Hr.
  - eapply smaller_ok; [by apply smaller_purge|done].
  - destruct Hacc as (Hv & Hen & _).
    destruct (verify_request_node _ _ _ _ _ Hv) as (_ & Hnode & _ & _ & Hd & _).
    eapply work_ok; [exact Hd|by symmetry|exact Hwork|]. by apply consumed_ok.
Qed.
Lemma hub_step_effect now s s' : hub_ok s → hub_step now s s' → effect now s s'.
Proof.
  intros Hok (A & m & Hcall & ->).
  destruct (hub_call_outcome now A m s Hcall (hub_ok_keyed s Hok)) as [(a & s' & -> & ?)|(e & ->)];
    [done|constructor].
Qed.
Lemma hub_step_ok now s s' : hub_step now s s' → hub_ok s → hub_ok s'.
Proof. intros Hstep Hok. eapply effect_ok; [|done]. by apply hub_step_effect. Qed.
Lemma hub_run_ok clock s s' : hub_run clock s s' → hub_ok s → hub_ok s'.
Proof.
  induction 1 as [|x y z (now & _ & Hstep) _ IH]; [done|]. intros Hok. apply IH.
  by eapply hub_step_ok.
Qed.
Lemma new_hub_ok : new_limits limits = Ok limits → hub_ok new_hub_db.
Proof.
  intros H. unfold new_limits in H. res_inv. bool_prop.
  match goal with H : existsb _ _ = false |- _ => simpl in H; bool_prop end.
  split; simpl.
  - intros k t. by rewrite lookup_empty.
  - intros k t. by rewrite lookup_empty.
  - intros k t. by rewrite lookup_empty.
  - intros k t. by rewrite lookup_empty.
  - intros node. split; unfold count_where, sum_where, select_where; simpl;
      rewrite !map_to_list_empty; simpl; lia.
Qed.
(** A relation that every effect respects holds along every run. *)
Lemma hub_run_preorder (R : relation hub_db) `{!PreOrder R} (clock : Z → Prop) s s' :
  (∀ now x y, clock now → hub_ok x → effect now x y → R x y) →
  hub_run clock s s' → hub_ok s → R s s'.
Proof.
  intros HR. induction 1 as [|x y z (now & Hclock & Hstep) _ IH]; intros Hok; [done|].
  transitivity y; [|by apply IH, (hub_step_ok now x)].
  apply (HR now); [done..|]. by apply hub_step_effect.
Qed.
End calls.
