(* ===== verification/AhubLaws.v ===== *)
(** The hub's promises (docs/AHUB_V1.md) over [AhubStore] of src/anet/ahub.py: requests are
    served once, custody ends only by settlement or expiry, claims are exclusive leases,
    settlements carry the destination's own proof, waiting packets are handed out. *)
From S2P Require Import Prelude PyStr PyVal Codecs Schema Packet ControlPlane ControlStore ControlReads Ahub AhubStore AhubRun.

Section laws.
Context {PL : Platform} {DG : Digests} {SG : Signatures} (limits : AhubLimits).

(** The database after some history of calls *)
Definition hub_reachable (s : hub_db) : Prop :=
  new_limits limits = Ok limits ∧ hub_run limits (λ _, True) new_hub_db s.
Lemma hub_reachable_ok s : hub_reachable s → hub_ok limits s.
Proof. intros [Hl Hrun]. eapply hub_run_ok; [exact Hrun|]. by apply new_hub_ok. Qed.

(** ** Requests are served once *)

(** The operations that carry the request [q] *)
Inductive on_behalf (now : Z) (q : AhubRequest) : ∀ A, HM A → Prop :=
  | behalf_authenticate d body : on_behalf now q unit (authenticate now q d body)
  | behalf_submit inspected inspected' d raw :
      on_behalf now q CustodyReceipt (submit limits now inspected inspected' q d raw)
  | behalf_claim tokens d body limit lease_ms max_bytes uploader :
      on_behalf now q (list ClaimedPacket) (claim now tokens q d body limit lease_ms max_bytes uploader)
  | behalf_settle d body id token proof : on_behalf now q bool (settle now q d body id token proof)
  | behalf_settlements d body limit destination :
      on_behalf now q (list DestinationSettlement) (settlements now q d body limit destination)
  | behalf_acknowledge d body id : on_behalf now q bool (acknowledge_settlement now q d body id)
  | behalf_reserve token d body peer ttl duration bytes_limit :
      on_behalf now q RelayReservation
        (reserve_relay limits now token q d body peer ttl duration bytes_limit)
  | behalf_authorize d body id : on_behalf now q RelayReservation (authorize_relay now q d body id)
  | behalf_find d body owner :
      on_behalf now q RelayReservation (find_relay_reservation now q d body owner).

Lemma claim_each_nonces tokens claim_until max_bytes bytes n rows :
  steps (keeps ahub_nonces) (claim_each tokens claim_until max_bytes bytes n rows).
Proof.
  revert bytes n. induction rows as [|[id row] rows IH]; intros bytes n; cbn [claim_each].
  { apply steps_ret; apply _. }
  destruct (match max_bytes with Some m => _ | None => _ end); [apply IH|].
  apply (steps_bind_gets (keeps ahub_nonces)). intros s. destruct (head _) as [[i stored]|]; [|apply IH].
  steps_all; [by apply steps_modify|apply IH].
Qed.
Ltac nonces_kept := unfold take_custody, insert_mail, finish_custody, insert_settlement,
  put_reservation, insert_reservation, member, _require_allowed; steps_all;
  first [apply claim_each_nonces|by apply steps_modify].
(** Such a call raises early, or is an authenticated transaction. *)
Definition request_shaped {A} (now : Z) (q : AhubRequest) (m : HM A) (s : hub_db) : Prop :=
  (∃ e, m s = (Err e, s)) ∨
  ∃ d body k, m s = authenticated now q d body k s ∧ steps (keeps ahub_nonces) k.
Lemma shaped_lift {A B} now q (r : res A) (f : A → HM B) s :
  (∀ a, request_shaped now q (f a) s) → request_shaped now q (lift r ≫= f) s.
Proof.
  intros Hf. unfold request_shaped, lift, mbind, ST_bind. destruct r as [a|e]; [apply Hf|by eauto].
Qed.
Lemma shaped_authenticated {A} now q d body (k : HM A) s :
  steps (keeps ahub_nonces) k → request_shaped now q (authenticated now q d body k) s.
Proof. intros Hk. right. by exists d, body, k. Qed.
Lemma on_behalf_shaped now q A (m : HM A) s : on_behalf now q A m → request_shaped now q m s.
Proof.
  destruct 1; unfold authenticate, submit, claim, settle, settlements, acknowledge_settlement,
    reserve_relay, authorize_relay, find_relay_reservation; repeat (apply shaped_lift; intros ?);
    apply shaped_authenticated; nonces_kept.
Qed.
Lemma on_behalf_served now q A (m : HM A) s a s' :
  on_behalf now q A m → m s = (Ok a, s') →
  ∃ d body, accepted now q d body s ∧ ahub_nonces s' !! (q_node_id q, q_nonce q) = Some (q_issued_ms q).
Proof.
  intros Hcall Hm. destruct (on_behalf_shaped now q A m s Hcall) as [[e E]|(d & body & k & E & Hk)];
    rewrite E in Hm; [done|]. apply authenticated_ok in Hm as [Hacc Hrun]. exists d, body.
  split; [done|]. specialize (Hk (consumed now q s)). unfold wp, keeps in Hk. rewrite Hrun in Hk.
  simpl in Hk. rewrite Hk. apply lookup_insert_eq.
Qed.
Lemma on_behalf_err now q A (m : HM A) s e s' :
  on_behalf now q A m → m s = (Err e, s') → s' = s.
Proof.
  intros Hcall Hm. destruct (on_behalf_shaped now q A m s Hcall) as [[e' E]|(d & body & k & E & Hk)];
    rewrite E in Hm; [by simplify_eq|]. by eapply authenticated_err.
Qed.

Lemma on_behalf_call now q A (m : HM A) : on_behalf now q A m → hub_call limits now A m.
Proof. destruct 1; constructor. Qed.

Lemma work_nonces now q d s s' : work limits now q d s s' → ahub_nonces s' = ahub_nonces s.
Proof. by destruct 1. Qed.
(** A nonce that housekeeping at [T] would keep *)
Definition nonce_kept (T : Z) : relation hub_db := λ s s', ∀ key issued,
  ahub_nonces s !! key = Some issued → T - AHUB_NONCE_RETENTION_MS ≤ issued →
  ahub_nonces s' !! key = Some issued.
#[local] Instance nonce_kept_preorder T : PreOrder (nonce_kept T).
Proof. split; [by intros s key issued|]. intros a b c Hab Hbc key issued Hk HT. by apply Hbc; [apply Hab|]. Qed.
Lemma effect_nonce_kept now T s s' : now ≤ T → effect limits now s s' → nonce_kept T s s'.
Proof.
  intros HT Heff key issued Hk Hrecent.
  assert (ahub_nonces (purge_db now s) !! key = Some issued) as Hp
    by (apply lookup_purged_nonce; split; [done|lia]).
  destruct Heff as [| | | |q d body s' (_ & _ & Hfresh) Hwork]; [done..|].
  rewrite (work_nonces _ _ _ _ _ Hwork). unfold consumed, fresh_nonce in *. simpl ahub_nonces.
  rewrite lookup_insert_ne; [done|]. intros <-. congruence.
Qed.

(** C6: a signed request is served at most once: after an operation on behalf of a request
    returned, no operation carrying the same request returns again, whatever is called in
    between, unless the hub's clock went back by more than five minutes; the refused call
    changes nothing. *)
Theorem request_served_once now1 now2 q A1 (m1 : HM A1) A2 (m2 : HM A2) a s s1 s2 :
  hub_reachable s → on_behalf now1 q A1 m1 → m1 s = (Ok a, s1) →
  hub_run limits (λ t, t ≤ now2 + AHUB_REQUEST_SKEW_MS) s1 s2 → on_behalf now2 q A2 m2 →
  ∃ e, m2 s2 = (Err e, s2).
Proof.
  intros Hreach%hub_reachable_ok Hcall1 Hm1 Hrun Hcall2.
  destruct (on_behalf_served _ _ _ _ _ _ _ Hcall1 Hm1) as (d1 & body1 & _ & Hnonce).
  destruct (m2 s2) as [[a2|e] s3] eqn:Hm2; [exfalso|exists e; by rewrite (on_behalf_err _ _ _ _ _ _ _ Hcall2 Hm2)].
  destruct (on_behalf_served _ _ _ _ _ _ _ Hcall2 Hm2) as (d2 & body2 & (Hv & _ & Hfresh) & _).
  apply verify_request_node in Hv as (_ & _ & _ & Hwindow & _).
  unfold AHUB_REQUEST_SKEW_MS, AHUB_NONCE_RETENTION_MS in *.
  assert (hub_ok limits s1) as Hok1.
  { eapply hub_step_ok; [|exact Hreach]. exists A1, m1. split; [by eapply on_behalf_call|by rewrite Hm1]. }
  assert (nonce_kept (now2 + 5 * 60 * 1000) s1 s2) as Hkept.
  { eapply hub_run_preorder; [apply _| |exact Hrun|done]. intros now x y Hnow _. by apply effect_nonce_kept. }
  specialize (Hkept _ _ Hnonce ltac:(unfold AHUB_NONCE_RETENTION_MS; lia)).
  assert (ahub_nonces (purge_db now2 s2) !! (q_node_id q, q_nonce q) = Some (q_issued_ms q)) as Hstill.
  { apply lookup_purged_nonce. split; [exact Hkept|unfold AHUB_NONCE_RETENTION_MS; lia]. }
  unfold fresh_nonce in Hfresh. congruence.
Qed.

(** ** The life of a packet *)

(** What the hub is for one packet: it has nothing, it holds the bytes, or it knows that
    the destination settled them. *)
Record content := Content {
  ct_destination : string;
  ct_uploader : string;
  ct_raw : bytes;
  ct_expires : Z;
}.
Inductive packet_life :=
  | Absent
  | Held (c : content)
  | Settled (destination uploader : string) (digest : bytes) (expires : Z).
Definition settled_as (c : content) : packet_life :=
  Settled (ct_destination c) (ct_uploader c) (sha256 (ct_raw c)) (ct_expires c).
Definition content_of (r : mail_row) : content :=
  Content (ml_destination_id r) (ml_uploader_id r) (ml_raw r) (ml_expires_ms r).
Definition packet_state (s : hub_db) (id : string) : packet_life :=
  match ahub_mailbox s !! id, ahub_settlements s !! id with
  | Some r, _ => Held (content_of r)
  | None, Some e => Settled (se_destination_id e) (se_uploader_id e) (se_raw_sha256 e) (se_expires_ms e)
  | None, None => Absent
  end.
Inductive life_step (now : Z) : relation packet_life :=
  | life_accept c : now < ct_expires c → life_step now Absent (Held c)
  | life_settle c : now < ct_expires c → life_step now (Held c) (settled_as c)
  | life_expire c : ct_expires c ≤ now → life_step now (Held c) Absent
  | life_forget destination uploader digest expires :
      expires ≤ now → life_step now (Settled destination uploader digest expires) Absent.

Lemma same_content r r' : same_mail r r' → content_of r' = content_of r.
Proof. by intros ->. Qed.
Lemma purge_life now s id :
  hub_ok limits s → rtc (life_step now) (packet_state s id) (packet_state (purge_db now s) id).
Proof.
  intros Hok. unfold packet_state.
  destruct (ahub_mailbox (purge_db now s) !! id) as [r'|] eqn:Hm'.
  { apply lookup_purged_mail in Hm' as (r & -> & _ & ->). by case_decide. }
  destruct (ahub_mailbox s !! id) as [r|] eqn:Hm.
  - assert (ahub_settlements s !! id = None) as Hno by (eapply mo_unsettled, ho_mail; eauto).
    destruct (ahub_settlements (purge_db now s) !! id) as [e|] eqn:He.
    { apply lookup_purged_settled in He as [He _]. congruence. }
    apply rtc_once, life_expire. simpl. destruct (decide (ml_expires_ms r ≤ now)) as [|Hlive]; [done|].
    assert (ahub_mailbox (purge_db now s) !! id = Some
      (if decide (claim_expired now id r) then with_claim None None r else r)) as Hkept.
    { apply lookup_purged_mail. exists r. split_and!; [done|lia|done]. }
    congruence.
  - destruct (ahub_settlements s !! id) as [e|] eqn:He.
    + destruct (ahub_settlements (purge_db now s) !! id) as [e'|] eqn:He'.
      { apply lookup_purged_settled in He' as [He' _]. by simplify_eq. }
      apply rtc_once, life_forget. destruct (decide (se_expires_ms e ≤ now)) as [|Hlive]; [done|].
      assert (ahub_settlements (purge_db now s) !! id = Some e) as Hkept
        by (apply lookup_purged_settled; split; [done|lia]).
      congruence.
    + destruct (ahub_settlements (purge_db now s) !! id) as [e'|] eqn:He'; [|done].
      apply lookup_purged_settled in He' as [He' _]. congruence.
Qed.
Lemma work_life now q d s s' id :
  hub_ok limits s → (∀ i r, ahub_mailbox s !! i = Some r → now < ml_expires_ms r) →
  work limits now q d s s' → rtc (life_step now) (packet_state s id) (packet_state s' id).
Proof.
  intros Hok Hlive Hwork. destruct Hwork as
    [|p c c' _ Hexp _ _ _ Hnew Huns _ _|tokens lease chosen _ Hnd Hrows
    |i token row proof json Hrow _ _ _ _ _ _ _ _ _ _ Huns|i [e He] [r Hr]|i|v|].
  - done.
  - unfold packet_state. simpl. destruct (decide (packet_id p = id)) as [<-|Hne].
    + rewrite Hnew, Huns, lookup_insert_eq. apply rtc_once. by apply life_accept.
    + by rewrite lookup_insert_ne.
  - unfold packet_state. simpl.
    destruct (lookup_leased tokens (now + lease) 0 chosen (ahub_mailbox s) id Hnd) as
      [[_ ->]|(j & row & _ & -> & ->)]; [naive_solver|done|done].
  - unfold packet_state. simpl. destruct (decide (i = id)) as [<-|Hne].
    + rewrite Hrow, lookup_delete_eq, lookup_insert_eq. apply rtc_once. apply (life_settle now (content_of row)).
      by eapply Hlive.
    + by rewrite lookup_delete_ne, lookup_insert_ne.
  - pose proof (mo_unsettled _ _ _ _ (ho_mail _ _ Hok i r Hr)). congruence.
  - unfold packet_state. simpl. destruct (decide (i = id)) as [<-|Hne].
    + rewrite lookup_alter_eq. by destruct (ahub_mailbox s !! i), (ahub_settlements s !! i).
    + by rewrite lookup_alter_ne.
  - done.
  - done.
Qed.
Lemma consumed_live now q s i r : ahub_mailbox (consumed now q s) !! i = Some r → now < ml_expires_ms r.
Proof. intros (r0 & _ & Hlive & ->)%lookup_purged_mail. by case_decide. Qed.
Lemma effect_life now s s' id :
  hub_ok limits s → effect limits now s s' →
  rtc (life_step now) (packet_state s id) (packet_state s' id).
Proof.
  intros Hok Heff. destruct Heff as [| | | |q d body s' (Hv & Hen & _) Hwork]; [done..|by apply purge_life|].
  transitivity (packet_state (purge_db now s) id); [by apply purge_life|].
  change (packet_state (purge_db now s) id) with (packet_state (consumed now q s) id).
  eapply work_life; [by apply consumed_ok|apply consumed_live|exact Hwork].
Qed.

(** C14: the hub refines its contract for packets: whatever operation is called, returning or
    raising, every packet only moves from absent to held while it is not expired, from held
    to settled as the bytes that were held, and away only when it has expired. *)
Theorem custody_refines_life now A (m : HM A) s id :
  hub_reachable s → hub_call limits now A m →
  rtc (life_step now) (packet_state s id) (packet_state (m s).2 id).
Proof.
  intros Hok%hub_reachable_ok Hcall. apply effect_life; [done|].
  apply hub_step_effect; [done|]. by exists A, m.
Qed.

Definition life_kept (c : content) : relation packet_life := λ p p',
  (p = Held c → p' = Held c ∨ p' = settled_as c) ∧ (p = settled_as c → p' = settled_as c).
#[local] Instance life_kept_preorder c : PreOrder (life_kept c).
Proof.
  split; [by split; auto|]. intros x y z [H1 H2] [H3 H4]. split; [|by auto].
  intros Hx. destruct (H1 Hx) as [Hy|Hy]; auto.
Qed.
Lemma life_step_kept now c p p' : now < ct_expires c → life_step now p p' → life_kept c p p'.
Proof.
  intros Hnow Hstep. destruct Hstep as [c'|c'|c' Hexp|d u g x Hexp]; split; try discriminate.
  - intros [= ->]. by right.
  - intros [= ->]. lia.
  - unfold settled_as. intros [= -> -> -> ->]. lia.
Qed.
Definition life_kept_at (c : content) (id : string) : relation hub_db := λ s s',
  life_kept c (packet_state s id) (packet_state s' id).
#[local] Instance life_kept_at_preorder c id : PreOrder (life_kept_at c id).
Proof. split; [intros x|intros x y z]; unfold life_kept_at; [reflexivity|apply transitivity]. Qed.
Lemma run_life_kept (c : content) (clock : Z → Prop) id s s' :
  (∀ t, clock t → t < ct_expires c) → hub_ok limits s → hub_run limits clock s s' →
  life_kept c (packet_state s id) (packet_state s' id).
Proof.
  intros Hclock Hok Hrun.
  apply (hub_run_preorder limits (life_kept_at c id) clock); [|done|done].
  intros now x y Hnow Hx Heff. unfold life_kept_at.
  apply (rtc_preorder (life_step now) (life_kept c)); [|by apply effect_life].
  intros p p'. by apply life_step_kept, Hclock.
Qed.
Lemma submit_stored now c c' q d raw s rc s' :
  submit limits now c c' q d raw s = (Ok rc, s') → cr_stored rc = true →
  ∃ packet, inspect_packet c c' raw false = Ok packet ∧ now < expires_ms packet ∧
    accepted now q d raw s ∧ rc = receipt packet (destination_id packet) true (expires_ms packet) ∧
    packet_state s' (packet_id packet) =
      Held (Content (destination_id packet) (q_node_id q) raw (expires_ms packet)).
Proof.
  unfold submit. intros H Hstored. st_inv. destruct a0, a1.
  repeat match goal with H : raise_if _ _ = Ok _ |- _ => apply raise_if_ok in H end. bool_prop.
  match goal with H : inspect_packet _ _ _ _ = Ok ?p |- _ => rename p into packet, H into Hp end.
  pose proof (inspect_packet_raw _ _ _ _ _ Hp) as Hraw. rewrite Hraw in *.
  match goal with H : authenticated _ _ _ _ _ _ = _ |- _ => apply authenticated_ok in H as [Hacc Hrun] end.
  assert (enabled (q_node_id q) (consumed now q s)) as Hen by apply Hacc.
  destruct (take_custody_run _ _ _ _ _ _ Hen Hrun) as [[_ E]|(-> & -> & _)]; [congruence|].
  exists packet. split_and!; [done|lia|done|done|]. unfold packet_state. simpl.
  rewrite lookup_insert_eq. unfold content_of. simpl. by rewrite Hraw.
Qed.

(** C5: a packet in custody is not lost: from a receipt that says stored until the packet
    expires, whatever is called in between, the hub holds the same bytes for the same
    destination, or it keeps a settlement of these bytes that verified under the
    destination's own signing key. *)
Theorem custody_kept now c c' q d raw s rc s1 s2 :
  hub_reachable s → submit limits now c c' q d raw s = (Ok rc, s1) → cr_stored rc = true →
  hub_run limits (λ t, t < cr_expires_ms rc) s1 s2 →
  (∃ r, ahub_mailbox s2 !! cr_packet_id rc = Some r ∧
     ml_destination_id r = cr_destination_id rc ∧ ml_uploader_id r = q_node_id q ∧ ml_raw r = raw ∧
     ml_expires_ms r = cr_expires_ms rc) ∨
  (∃ e proof json, ahub_settlements s2 !! cr_packet_id rc = Some e ∧
     proven (cr_packet_id rc) e proof json ∧ e_packet_sha256 proof = sha256 raw ∧
     e_destination_id proof = cr_destination_id rc ∧ e_uploader_id proof = q_node_id q).
Proof.
  intros Hok%hub_reachable_ok Hsubmit Hstored Hrun.
  destruct (submit_stored _ _ _ _ _ _ _ _ _ Hsubmit Hstored) as (p & _ & _ & _ & -> & Hheld).
  simpl in *. assert (hub_ok limits s1) as Hok1.
  { eapply hub_step_ok; [|exact Hok]. eexists _, _. split; [apply call_submit|by erewrite Hsubmit]. }
  assert (hub_ok limits s2) as Hok2 by (by eapply hub_run_ok).
  destruct (run_life_kept (Content (destination_id p) (q_node_id q) raw (expires_ms p)) _
    (packet_id p) s1 s2 (λ t Ht, Ht) Hok1 Hrun) as [Hlife _].
  destruct (Hlife Hheld) as [Hs2|Hs2]; unfold packet_state in Hs2;
    destruct (ahub_mailbox s2 !! packet_id p) as [r|] eqn:Hr;
    destruct (ahub_settlements s2 !! packet_id p) as [e|] eqn:He; try discriminate.
  1,2: left; exists r; unfold content_of in Hs2; by simplify_eq.
  right. destruct (so_proven _ _ _ (ho_settled _ _ Hok2 _ _ He)) as (proof & json & Hp).
  pose proof Hp as (_ & _ & _ & _ & E1 & E2 & E3 & _). unfold settled_as in Hs2. simpl in Hs2.
  injection Hs2 as F1 F2 F3 F4. exists e, proof, json. split_and!; [done|done|congruence..].
Qed.

(** ** Claims *)

(** A packet the node may claim: addressed to it, from the uploader asked for, unexpired,
    and not under a live lease *)
Definition waiting (now : Z) (node : string) (uploader : option string) (s : hub_db) (id : string)
    (r : mail_row) : Prop :=
  ahub_mailbox s !! id = Some r ∧ ml_destination_id r = node ∧
  if_some (λ u, ml_uploader_id r = u) uploader ∧ now < ml_expires_ms r ∧
  if_some (λ until, until ≤ now) (ml_claim_until_ms r).
Lemma optional_node_ok node n : optional_node node = Ok n → n = node.
Proof.
  destruct node as [x|]; unfold optional_node; intros H; [|by apply Ok_inj in H].
  unfold _validate_node_id in H. destruct (raise_if _ _); [|discriminate]. by apply Ok_inj in H.
Qed.
Lemma int_between_int lo hi z e n : int_between lo hi (VInt z) e = Ok n → n = z ∧ lo ≤ z ≤ hi.
Proof. unfold int_between. intros H. res_inv. bool_prop. simplify_eq/=. done. Qed.
Lemma claimable_waiting now q node uploader s id r' :
  hub_ok limits s →
  ahub_mailbox (consumed now q s) !! id = Some r' ∧ claimable node uploader id r' ↔
  ∃ r, waiting now node uploader s id r ∧ r' = with_claim None None r.
Proof.
  intros Hok. change (ahub_mailbox (consumed now q s)) with (ahub_mailbox (purge_db now s)).
  rewrite lookup_purged_mail. unfold claimable, waiting. split.
  - intros [(r & Hr & Hlive & ->) (Hd & Hu & Hh)]. exists r.
    pose proof (hub_ok_paired _ s Hok id r Hr) as Hpair. revert Hd Hu Hh.
    case_decide as Hc; intros Hd Hu Hh; unfold claim_expired in Hc.
    + split_and!; try done. by destruct (ml_claim_until_ms r).
    + destruct r as [a b c d e f g h hash until]. simpl in *. subst hash.
      destruct until; [by destruct (proj2 Hpair) as [? ?]|done].
  - intros (r & (Hr & Hd & Hu & Hlive & Hc) & ->). split; [|done]. exists r. split_and!; [done..|].
    pose proof (hub_ok_paired _ s Hok id r Hr) as Hpair.
    case_decide as Hx; [done|]. unfold claim_expired in Hx.
    destruct r as [a b c d e f g h hash [until|]]; simpl in *; [done|].
    destruct hash; [by destruct (proj1 Hpair) as [? ?]|done].
Qed.
Lemma handed_out_lookup tokens claim_until n chosen i c :
  handed_out tokens claim_until n chosen !! i = Some c ↔
  ∃ id row, chosen !! i = Some (id, row) ∧ c = claimed_packet (tokens (n + i)%nat) claim_until id row.
Proof.
  revert n i. induction chosen as [|[id row] chosen IH]; intros n i; [by split; [|intros (? & ? & ? & _)]|].
  destruct i as [|i]; cbn [handed_out lookup list_lookup]; rewrite ?Nat.add_0_r; [naive_solver|].
  rewrite IH. by rewrite Nat.add_succ_r.
Qed.
Lemma handed_out_ids tokens claim_until n chosen :
  cl_packet_id <$> handed_out tokens claim_until n chosen = chosen.*1.
Proof. revert n. induction chosen as [|[id row] chosen IH]; intros n; [done|]. cbn. by rewrite IH. Qed.
Lemma fitting_bytes m bytes rows :
  bytes ≤ m → bytes + foldr (λ kv n, ml_size_bytes kv.2 + n) 0 (fitting (Some m) bytes rows) ≤ m.
Proof.
  revert bytes. induction rows as [|[id row] rows IH]; intros bytes Hb; simpl; [lia|].
  destruct (Z.ltb_spec m (bytes + ml_size_bytes row)); [by apply IH|]. simpl.
  rewrite Z.add_assoc. by apply IH.
Qed.
Lemma hub_claim_run now tokens q d body limit lease max_bytes uploader s cs s' :
  claim now tokens q d body (VInt limit) (VInt lease) max_bytes uploader s = (Ok cs, s') →
  ∃ bytes, claim_bytes max_bytes = Ok bytes ∧ accepted now q d body s ∧ 1 ≤ limit ∧
  MIN_CLAIM_LEASE_MS ≤ lease ≤ MAX_CLAIM_LEASE_MS ∧
  let start := consumed now q s in
  let chosen := fitting bytes 0 (claim_rows (q_node_id q) uploader limit start) in
  cs = handed_out tokens (now + lease) 0 chosen ∧
  s' = set_mailbox (leased tokens (now + lease) 0 chosen (ahub_mailbox start)) start.
Proof.
  unfold claim. intros H. st_inv.
  match goal with H : optional_node _ = Ok _ |- _ => apply optional_node_ok in H as -> end.
  repeat match goal with H : int_between _ _ _ _ = Ok _ |- _ => apply int_between_int in H as [-> ?] end.
  match goal with H : claim_bytes _ = Ok ?b |- _ => exists b; split; [exact H|] end.
  apply authenticated_ok in H as [Hacc Hrun].
  do 3 (split; [first [done|lia]|]).
  match goal with Hl : _ ≤ lease ≤ _ |- _ =>
    pose proof (proj1 (claim_work limits now q d tokens uploader limit lease a1 (consumed now q s) Hl)) as E end.
  rewrite E in Hrun. by simplify_eq.
Qed.

Lemma handed_out_bytes tokens claim_until n chosen :
  (∀ id row, (id, row) ∈ chosen → ml_size_bytes row = len (ml_raw row)) →
  foldr (λ c n, len (cl_raw c) + n) 0 (handed_out tokens claim_until n chosen) =
  foldr (λ kv n, ml_size_bytes kv.2 + n) 0 chosen.
Proof.
  revert n. induction chosen as [|[id row] chosen IH]; intros n Hs; [done|]. simpl.
  rewrite IH; [|intros i r Hin; apply (Hs i); by right]. rewrite (Hs id row); [done|by left].
Qed.
(** The packets a claim chooses *)
Definition chosen_for (now : Z) (q : AhubRequest) (uploader : option string) (limit : Z)
    (bytes : option Z) (s : hub_db) : list (string * mail_row) :=
  fitting bytes 0 (claim_rows (q_node_id q) uploader limit (consumed now q s)).
Lemma chosen_for_spec now q uploader limit bytes s :
  hub_ok limits s → 0 ≤ limit →
  let chosen := chosen_for now q uploader limit bytes s in
  NoDup chosen.*1 ∧ Z.of_nat (length chosen) ≤ limit ∧
  ∀ id row, (id, row) ∈ chosen → ahub_mailbox (consumed now q s) !! id = Some row ∧
    ∃ r, waiting now (q_node_id q) uploader s id r ∧ row = with_claim None None r.
Proof.
  intros Hok Hlimit chosen. unfold chosen, chosen_for.
  pose proof (fitting_sublist bytes 0 (claim_rows (q_node_id q) uploader limit (consumed now q s))) as Hsub.
  destruct (claim_rows_spec (q_node_id q) uploader limit (consumed now q s)) as [Hnd Hrows].
  split_and!.
  - eapply sublist_NoDup; [exact Hnd|by apply fmap_sublist].
  - apply sublist_length in Hsub. unfold claim_rows in *. rewrite length_take in Hsub. lia.
  - intros id row Hin. eapply sublist_subseteq in Hin; [|exact Hsub].
    pose proof (Hrows _ _ Hin) as Hrow. split; [apply Hrow|].
    exact (proj1 (claimable_waiting _ _ _ _ _ _ _ Hok) Hrow).
Qed.

(** Every packet that was handed out was waiting, and is leased now. *)
Lemma claim_handed_out now tokens q d body limit lease max_bytes uploader s cs s' i c :
  hub_ok limits s →
  claim now tokens q d body (VInt limit) (VInt lease) max_bytes uploader s = (Ok cs, s') →
  cs !! i = Some c → ∃ r, waiting now (q_node_id q) uploader s (cl_packet_id c) r ∧
    c = claimed_packet (tokens i) (now + lease) (cl_packet_id c) r ∧
    ahub_mailbox s' !! cl_packet_id c =
      Some (with_claim (Some (sha256 (tokens i))) (Some (now + lease)) r).
Proof.
  intros Hok (bytes & _ & _ & Hlimit & _ & -> & ->)%hub_claim_run.
  destruct (chosen_for_spec now q uploader limit bytes s Hok) as (Hnd & _ & Hchosen); [lia|].
  fold (chosen_for now q uploader limit bytes s) in *.
  set (chosen := chosen_for now q uploader limit bytes s) in *.
  assert (∀ id row, (id, row) ∈ chosen → ahub_mailbox (consumed now q s) !! id = Some row) as Hmail
    by (intros id row Hin; by apply Hchosen).
  intros (id & row & Hi & ->)%handed_out_lookup.
  cbn [ahub_mailbox set_mailbox cl_packet_id claimed_packet].
  pose proof (list_elem_of_lookup_2 _ _ _ Hi) as Hin.
  destruct (Hchosen _ _ Hin) as (_ & r & Hwait & ->). exists r. split; [done|]. split; [done|].
  destruct (lookup_leased tokens (now + lease) 0 chosen (ahub_mailbox (consumed now q s)) id Hnd Hmail)
    as [[Hno _]|(j & row & Hj & _ & E)].
  - destruct Hno. exact (list_elem_of_fmap_2 fst _ _ Hin).
  - assert (i = j) as <- by (eapply (NoDup_lookup chosen.*1); [done|..];
      by rewrite list_lookup_fmap, ?Hi, ?Hj).
    rewrite Hi in Hj. rewrite E. by simplify_eq.
Qed.

(** What a claim does: it hands out at most [limit] different packets waiting for the
    caller, from the uploader asked for, of at most [max_bytes] bytes together, each under
    its own token and leased until the same time; every other packet, the settlements, the
    allowlist and the reservations stay as housekeeping leaves them. *)
Theorem claim_spec now tokens q d body limit lease max_bytes uploader s cs s' :
  hub_reachable s →
  claim now tokens q d body (VInt limit) (VInt lease) max_bytes uploader s = (Ok cs, s') →
  let ids := cl_packet_id <$> cs in
  accepted now q d body s ∧ NoDup ids ∧ Z.of_nat (length cs) ≤ limit ∧
  (∀ m, max_bytes = Some (VInt m) → foldr (λ c n, len (cl_raw c) + n) 0 cs ≤ m) ∧
  (∀ i c, cs !! i = Some c → ∃ r, waiting now (q_node_id q) uploader s (cl_packet_id c) r ∧
     c = claimed_packet (tokens i) (now + lease) (cl_packet_id c) r ∧
     ahub_mailbox s' !! cl_packet_id c =
       Some (with_claim (Some (sha256 (tokens i))) (Some (now + lease)) r)) ∧
  (∀ id, id ∉ ids → ahub_mailbox s' !! id = ahub_mailbox (purge_db now s) !! id) ∧
  ahub_settlements s' = ahub_settlements (purge_db now s) ∧ ahub_allowlist s' = ahub_allowlist s ∧
  ahub_relay_reservations s' = ahub_relay_reservations (purge_db now s).
Proof.
  intros Hok%hub_reachable_ok Hclaim ids. pose proof Hclaim as Hrun.
  apply hub_claim_run in Hrun as (bytes & Hbytes & Hacc & Hlimit & Hlease & Hcs & ->).
  destruct (chosen_for_spec now q uploader limit bytes s Hok) as (Hnd & Hlen & Hchosen); [lia|].
  fold (chosen_for now q uploader limit bytes s) in *.
  set (chosen := chosen_for now q uploader limit bytes s) in *.
  assert (∀ id row, (id, row) ∈ chosen → ahub_mailbox (consumed now q s) !! id = Some row) as Hmail
    by (intros id row Hin; by apply Hchosen).
  assert (ids = chosen.*1) as Hids by (unfold ids; rewrite Hcs; apply handed_out_ids).
  rewrite !Hids. split; [done|]. split; [done|]. split.
  { rewrite <- (length_fmap cl_packet_id). fold ids. by rewrite Hids, length_fmap. }
  split.
  { intros m ->. assert (bytes = Some m ∧ 0 < m) as [-> Hm].
    { simpl in Hbytes. res_inv. bool_prop. by simplify_eq/=. }
    rewrite Hcs, handed_out_bytes.
    - pose proof (fitting_bytes m 0 (claim_rows (q_node_id q) uploader limit (consumed now q s))) as Hfit.
      unfold chosen, chosen_for. lia.
    - intros id row Hin. assert (hub_ok limits (consumed now q s)) as Hok'
        by (by apply consumed_ok; [apply Hacc|]).
      eapply custodied_size, mo_custodied, ho_mail; [exact Hok'|]. by apply Hmail. }
  split; [|split; [|done]].
  - intros i c. by apply (claim_handed_out _ _ _ d body limit lease max_bytes _ s _ _ _ _ Hok).
  - intros id Hid. cbn [ahub_mailbox set_mailbox].
    destruct (lookup_leased tokens (now + lease) 0 chosen (ahub_mailbox (consumed now q s)) id Hnd Hmail)
      as [[_ ->]|(j & row & Hj & _)]; [done|]. destruct Hid.
    exact (list_elem_of_fmap_2 fst _ _ (list_elem_of_lookup_2 _ _ _ Hj)).
Qed.

(** A leased row stays as it is, or its packet is settled. *)
Definition leased_state (id : string) (r : mail_row) (s : hub_db) : Prop :=
  ahub_mailbox s !! id = Some r ∨ packet_state s id = settled_as (content_of r).
Definition lease_kept (id : string) (r : mail_row) : relation hub_db := λ s s',
  leased_state id r s → leased_state id r s'.
#[local] Instance lease_kept_preorder id r : PreOrder (lease_kept id r).
Proof. split; [by intros s|]. intros a b c Hab Hbc Ha. by apply Hbc, Hab. Qed.
Lemma purge_lease now id r s :
  if_some (λ until, now < until) (ml_claim_until_ms r) → now < ml_expires_ms r →
  ahub_mailbox s !! id = Some r → ahub_mailbox (purge_db now s) !! id = Some r.
Proof.
  intros Hu He Hr. apply lookup_purged_mail. exists r. split_and!; [done..|].
  case_decide as Hc; [|done]. unfold claim_expired in Hc.
  destruct (ml_claim_until_ms r); simpl in *; [lia|done].
Qed.
Lemma work_lease now q d s s' id r :
  hub_ok limits s → ml_claim_token_hash r ≠ None → ahub_mailbox s !! id = Some r →
  work limits now q d s s' → leased_state id r s'.
Proof.
  intros Hok Hhash Hr Hwork. destruct Hwork as
    [|p c c' _ _ _ _ _ Hnew _ _ _|tokens lease chosen _ Hnd Hrows
    |i token row proof json Hrow _ _ _ _ _ _ _ _ _ _ _|i [e He] [r' Hr']|i|v|].
  - by left.
  - left. simpl. rewrite lookup_insert_ne; [done|]. intros <-. congruence.
  - left. simpl. destruct (lookup_leased tokens (now + lease) 0 chosen (ahub_mailbox s) id Hnd) as
      [[_ ->]|(j & row & Hj & Hrow & _)]; [naive_solver|done|].
    destruct (Hrows id row) as (_ & _ & Hno); [by eapply list_elem_of_lookup_2|]. congruence.
  - destruct (decide (i = id)) as [<-|Hne].
    + right. unfold packet_state. simpl. rewrite lookup_delete_eq, lookup_insert_eq. by simplify_eq.
    + left. simpl. by rewrite lookup_delete_ne.
  - pose proof (mo_unsettled _ _ _ _ (ho_mail _ _ Hok i r' Hr')). congruence.
  - by left.
  - by left.
  - by left.
Qed.
Lemma effect_lease now s s' id r :
  ml_claim_token_hash r ≠ None → if_some (λ until, now < until) (ml_claim_until_ms r) →
  now < ml_expires_ms r → hub_ok limits s → effect limits now s s' → lease_kept id r s s'.
Proof.
  intros Hhash Hu He Hok Heff [Hr|Hset].
  - destruct Heff as [| | | |q d body s' (_ & Hen & _) Hwork]; [by left..|left; by apply purge_lease|].
    eapply work_lease; [by apply consumed_ok|done| |exact Hwork].
    change (ahub_mailbox (purge_db now s) !! id = Some r). by apply purge_lease.
  - right. pose proof (effect_life now s s' id Hok Heff) as Hlife.
    refine (proj2 (rtc_preorder (life_step now) (life_kept (content_of r)) _ _ _ Hlife) Hset).
    intros p p'. by apply life_step_kept.
Qed.

(** A packet that was handed out stays under its lease. *)
Lemma claim_leased now tokens q d body limit lease max_bytes uploader s cs s1 i c s2 :
  hub_ok limits s →
  claim now tokens q d body (VInt limit) (VInt lease) max_bytes uploader s = (Ok cs, s1) →
  cs !! i = Some c → hub_run limits (λ t, t < cl_claim_until_ms c ∧ t < cl_expires_ms c) s1 s2 →
  ∃ r, waiting now (q_node_id q) uploader s (cl_packet_id c) r ∧
    c = claimed_packet (tokens i) (now + lease) (cl_packet_id c) r ∧ hub_ok limits s2 ∧
    leased_state (cl_packet_id c)
      (with_claim (Some (sha256 (tokens i))) (Some (now + lease)) r) s2.
Proof.
  intros Hok Hclaim Hi Hrun. assert (hub_ok limits s1) as Hok1.
  { eapply hub_step_ok; [|exact Hok]. eexists _, _. split; [apply call_claim|by erewrite Hclaim]. }
  destruct (claim_handed_out _ _ _ _ _ _ _ _ _ _ _ _ _ _ Hok Hclaim Hi) as (r & Hwait & Hc & Hrow).
  exists r. split_and!; [apply Hwait..|done|by eapply hub_run_ok|].
  set (r1 := with_claim (Some (sha256 (tokens i))) (Some (now + lease)) r) in *.
  assert (cl_claim_until_ms c = now + lease ∧ cl_expires_ms c = ml_expires_ms r) as [Eu Ee] by (by rewrite Hc).
  rewrite Eu, Ee in Hrun.
  refine (hub_run_preorder limits (lease_kept (cl_packet_id c) r1) _ s1 s2 _ Hrun Hok1 (or_introl Hrow)).
  intros t x y [Ht1 Ht2] Hx. by apply effect_lease.
Qed.


Lemma first_fits max_bytes id row rows :
  ml_size_bytes row ≤ max_bytes →
  ∃ rest, fitting (Some max_bytes) 0 ((id, row) :: rows) = (id, row) :: rest.
Proof. intros Hle. cbn [fitting]. destruct (Z.ltb_spec max_bytes (0 + ml_size_bytes row)); [lia|eauto]. Qed.
Lemma int_between_make lo hi z e : lo ≤ z ≤ hi → int_between lo hi (VInt z) e = Ok z.
Proof.
  intros [H1 H2]. unfold int_between. cbn. apply Z.leb_le in H1, H2. by rewrite H1, H2.
Qed.
(** The rows of a claim begin with the oldest waiting packet. *)
Lemma oldest_first now q uploader limit s id r :
  hub_ok limits s → 1 ≤ limit → waiting now (q_node_id q) uploader s id r →
  ∃ id0 r0 rest, claim_rows (q_node_id q) uploader limit (consumed now q s) =
      (id0, with_claim None None r0) :: rest ∧
    waiting now (q_node_id q) uploader s id0 r0 ∧
    ∀ id' r', waiting now (q_node_id q) uploader s id' r' → key_le mail_key (id0, r0) (id', r').
Proof.
  intros Hok Hlimit Hwait.
  set (rows := order_by mail_key (select_where (claimable (q_node_id q) uploader)
    (ahub_mailbox (consumed now q s)))).
  assert (∀ id' r', waiting now (q_node_id q) uploader s id' r' → (id', with_claim None None r') ∈ rows) as Hin.
  { intros id' r' Hw. apply elem_of_order_by, elem_of_select_where.
    apply (claimable_waiting now q (q_node_id q) uploader s id' _ Hok). eauto. }
  pose proof (Hin _ _ Hwait) as Hsome. pose proof (order_by_sorted mail_key
    (select_where (claimable (q_node_id q) uploader) (ahub_mailbox (consumed now q s)))) as Hsorted.
  fold rows in Hsorted. destruct rows as [|[id0 row0] rest] eqn:Hrows; [by apply elem_of_nil in Hsome|].
  assert ((id0, row0) ∈ rows) as Hfirst by (rewrite Hrows; by left).
  unfold rows in Hfirst. rewrite elem_of_order_by, elem_of_select_where in Hfirst.
  apply (claimable_waiting now q (q_node_id q) uploader s id0 row0 Hok) in Hfirst as (r0 & Hwait0 & ->).
  exists id0, r0, (take (Z.to_nat (limit - 1)) rest). split; [|split; [done|]].
  - unfold claim_rows. fold rows. rewrite Hrows.
    by replace (Z.to_nat limit) with (S (Z.to_nat (limit - 1))) by lia.
  - intros id' r' Hw. specialize (Hin _ _ Hw). inversion Hsorted as [|? ? _ Hall]; subst.
    apply elem_of_cons in Hin as [E|Hin].
    + pose proof (f_equal fst E) as Eid. pose proof (f_equal (ml_created_ms ∘ snd) E) as Ems.
      simpl in Eid, Ems. unfold key_le, mail_key. simpl. rewrite Eid, Ems.
      destruct (zlex_total (ml_created_ms r0 :: codes id0) (ml_created_ms r0 :: codes id0)); done.
    + rewrite Forall_forall in Hall. apply (Hall _ Hin).
Qed.
(** Waiting packets are handed out: an accepted claim that allows at least the hub's
    packet size (as the HTTP adapter does) returns while anything waits for the caller, and
    the first packet it hands out is the oldest one waiting. *)
Theorem claim_progress now tokens q d body limit lease bytes uploader s id r :
  hub_reachable s → accepted now q d body s → 1 ≤ limit ≤ MAX_CLAIM_BATCH →
  MIN_CLAIM_LEASE_MS ≤ lease ≤ MAX_CLAIM_LEASE_MS → max_packet_bytes limits ≤ bytes →
  optional_node uploader = Ok uploader → waiting now (q_node_id q) uploader s id r →
  ∃ c cs s' r0, claim now tokens q d body (VInt limit) (VInt lease) (Some (VInt bytes)) uploader s =
      (Ok (c :: cs), s') ∧
    waiting now (q_node_id q) uploader s (cl_packet_id c) r0 ∧
    c = claimed_packet (tokens 0%nat) (now + lease) (cl_packet_id c) r0 ∧
    ∀ id' r', waiting now (q_node_id q) uploader s id' r' →
      key_le mail_key (cl_packet_id c, r0) (id', r').
Proof.
  intros Hok%hub_reachable_ok Hacc Hlimit Hlease Hbytes Huploader Hwait.
  destruct (oldest_first now q uploader limit s id r Hok (proj1 Hlimit) Hwait)
    as (id0 & r0 & rest & Hrows & Hwait0 & Holdest).
  destruct (mo_custodied _ _ _ _ (ho_mail _ _ Hok id0 r0 (proj1 Hwait0))) as (p & x & x' & _ & _ & _ & Hsize).
  destruct (first_fits bytes id0 (with_claim None None r0) rest) as [chosen Hchosen]; [simpl; lia|].
  destruct (claim_work limits now q d tokens uploader limit lease (Some bytes) (consumed now q s) Hlease)
    as [Hrun _].
  rewrite Hrows, Hchosen in Hrun. cbn [handed_out] in Hrun.
  exists (claimed_packet (tokens 0%nat) (now + lease) id0 r0). eexists _, _, r0.
  split; [|split; [exact Hwait0|split; [reflexivity|exact Holdest]]].
  unfold claim. cbv [mbind ST_bind lift]. rewrite !int_between_make by done.
  assert (claim_bytes (Some (VInt bytes)) = Ok (Some bytes)) as ->.
  { cbn. assert (0 < bytes) as Hpos%Z.leb_gt by lia. by rewrite Hpos. }
  rewrite Huploader. apply authenticated_make; [done|]. exact Hrun.
Qed.

(** ** Settlements *)

Lemma hub_ok_fk s id r : hub_ok limits s → ahub_mailbox s !! id = Some r →
  is_Some (ahub_allowlist s !! ml_destination_id r) ∧ is_Some (ahub_allowlist s !! ml_uploader_id r).
Proof. intros Hok Hr. exact (mo_known _ _ _ _ (ho_mail _ _ Hok _ _ Hr)). Qed.
(** The caller holds the claim of this token on the packet. *)
Definition holds_lease (now : Z) (node token : string) (s : hub_db) (id : string) (r : mail_row) : Prop :=
  ahub_mailbox s !! id = Some r ∧ ml_destination_id r = node ∧ now < ml_expires_ms r ∧
  ml_claim_token_hash r = Some (sha256 token) ∧
  ∃ until, ml_claim_until_ms r = Some until ∧ now < until.
Lemma holds_lease_consumed now q token s id r :
  holds_lease now (q_node_id q) token s id r ↔
  ahub_mailbox (consumed now q s) !! id = Some r ∧ ml_destination_id r = q_node_id q ∧
  holds_claim now (sha256 token) r = true.
Proof.
  change (ahub_mailbox (consumed now q s)) with (ahub_mailbox (purge_db now s)).
  rewrite lookup_purged_mail. unfold holds_lease, holds_claim. split.
  - intros (Hr & Hd & He & Hh & until & Hu & Hlive). split_and!; [|done|].
    + exists r. split_and!; [done..|]. case_decide as Hc; [|done]. unfold claim_expired in Hc.
      rewrite Hu in Hc. lia.
    + rewrite Hh, Hu, String.eqb_refl, andb_true_r. by apply Z.ltb_lt.
  - intros [(r0 & Hr & He & ->) (Hd & Hh)]. revert Hd Hh. case_decide as Hc; [done|]. intros Hd Hh.
    destruct (ml_claim_token_hash r0) as [h|]; [|done]. destruct (ml_claim_until_ms r0) as [u|]; [|done].
    bool_prop. subst. split_and!; try done. by exists u.
Qed.
(** A settlement ends custody only for the destination that holds the live claim of this
    token, with a proof for exactly these bytes that verified under its own signing key,
    and then replaces the packet by its settlement row; no packet gives [False]; an
    exception changes nothing. *)
Theorem settle_fenced now q d body id token proof s :
  hub_reachable s →
  match settle now q d body id token proof s with
  | (Ok true, s') => accepted now q d body s ∧ ∃ r json,
      holds_lease now (q_node_id q) token s id r ∧
      verify_settlement now proof (d_sign_public d) = Ok tt ∧ proof_matches id r proof ∧
      json_dumps (VMap (settlement_to_dict proof)) = Ok json ∧
      s' = set_mailbox (delete id (ahub_mailbox (consumed now q s)))
             (set_settlements (<[id := settlement_row r proof json]>
               (ahub_settlements (consumed now q s))) (consumed now q s))
  | (Ok false, s') => accepted now q d body s ∧ ahub_mailbox (purge_db now s) !! id = None ∧
      s' = consumed now q s
  | (Err _, s') => s' = s
  end.
Proof.
  intros Hok%hub_reachable_ok. unfold settle, encode_ascii. cbv [mbind ST_bind res_bind mret res_ret lift].
  destruct (raise_if _ _) as [[]|e]; [|done].
  destruct (authenticated _ _ _ _ _ _) as [[b|e] s'] eqn:Hrun;
    [|by apply authenticated_err in Hrun as ->].
  apply authenticated_ok in Hrun as [Hacc Hrun].
  assert (hub_ok limits (consumed now q s)) as Hok' by (apply consumed_ok; [apply Hacc|done]).
  apply finish_custody_run in Hrun as [(-> & Hno & ->)|(-> & r & json & Hr & Hd & Hh & Hv & Hm & Hj & _ & ->)];
    [by split_and!| |intros r; by apply hub_ok_fk].
  split; [done|]. exists r, json. split; [by apply holds_lease_consumed|].
  rewrite (mo_unsettled _ _ _ _ (ho_mail _ _ Hok' id r Hr)). by split_and!.
Qed.

(** The text of a settlement reads back. *)
Lemma settlement_keys_exact (kvs : list (string * value)) required :
  kvs.*1 ≡ₚ required → exact_keys (prod_map VStr id <$> kvs) required = true.
Proof.
  intros Hkeys. unfold exact_keys. apply andb_true_iff. split; apply forallb_forall.
  - intros k Hk%list_elem_of_In. apply dict_has_item. by rewrite Hkeys.
  - intros kv Hkv%list_elem_of_In. apply list_elem_of_fmap in Hkv as ([k v] & -> & Hin).
    apply existsb_exists. exists k. split; [|by apply key_eqb_str]. apply list_elem_of_In.
    rewrite <- Hkeys. exact (list_elem_of_fmap_2 fst _ _ Hin).
Qed.
Lemma settlement_text proof json :
  json_dumps (VMap (settlement_to_dict proof)) = Ok json →
  (v ← json_loads json; settlement_from_dict v) = Ok proof.
Proof.
  intros Hjson. set (kvs := str_items (settlement_to_dict proof)).
  assert (NoDup kvs.*1) as Hnd by (apply (bool_decide_eq_true_1 (NoDup kvs.*1)); vm_compute; reflexivity).
  assert (Forall (λ kv, json_plain kv.2) kvs) as Hplain.
  { repeat first [apply List.Forall_nil|apply List.Forall_cons]; cbn [snd]; constructor. }
  change (settlement_to_dict proof) with (prod_map VStr id <$> kvs) in Hjson.
  rewrite (json_loads_dict _ _ Hnd Hplain Hjson). cbn [mbind res_bind].
  set (kvs' := order_by (λ p, codes p.1) kvs).
  assert (kvs' ≡ₚ kvs) as Hperm by apply order_by_Permutation.
  destruct (items_read kvs kvs' Hnd Hperm) as [_ Hget].
  unfold settlement_from_dict. rewrite settlement_keys_exact by (rewrite Hperm; reflexivity).
  unfold settlement_int, settlement_bytes, text_at.
  rewrite (Hget 0%nat "version" (VInt (e_version proof)) eq_refl).
  rewrite (Hget 6%nat "settled_ms" (VInt (e_settled_ms proof)) eq_refl).
  rewrite (Hget 7%nat "expires_ms" (VInt (e_expires_ms proof)) eq_refl).
  rewrite (Hget 3%nat "packet_sha256" (VStr (b64e (e_packet_sha256 proof))) eq_refl).
  rewrite (Hget 8%nat "signature" (VStr (b64e (e_signature proof))) eq_refl).
  rewrite (Hget 2%nat "packet_id" (VStr (e_packet_id proof)) eq_refl).
  rewrite (Hget 4%nat "uploader_id" (VStr (e_uploader_id proof)) eq_refl).
  rewrite (Hget 5%nat "destination_id" (VStr (e_destination_id proof)) eq_refl).
  rewrite (Hget 1%nat "object_type" (VStr (e_object_type proof)) eq_refl).
  cbn [negb raise_if mbind res_bind as_int of_option py_str]. rewrite !b64d_b64e. by destruct proof.
Qed.

Definition settlement_due (now : Z) (node : string) (destination : option string) (s : hub_db)
    (id : string) (e : settled_row) : Prop :=
  ahub_settlements s !! id = Some e ∧ se_uploader_id e = node ∧
  if_some (λ n, se_destination_id e = n) destination ∧ se_acknowledged_ms e = 0 ∧ now < se_expires_ms e.
Lemma settlement_rows_due now q destination limit s id e :
  hub_ok limits s →
  (id, e) ∈ settlement_rows (q_node_id q) destination limit (consumed now q s) →
  settlement_due now (q_node_id q) destination s id e.
Proof.
  intros Hok Hin%elem_of_take_elem. rewrite elem_of_order_by, elem_of_select_where in Hin.
  destruct Hin as [He (Hu & Hd & _ & Ha)].
  change (ahub_settlements (consumed now q s)) with (ahub_settlements (purge_db now s)) in He.
  apply lookup_purged_settled in He as [He Hlive]. by split_and!.
Qed.
Lemma read_proofs s (rows : list (string * settled_row)) :
  hub_ok limits s → (∀ id e, (id, e) ∈ rows → ahub_settlements s !! id = Some e) →
  ∃ proofs, map_res (λ kv, read_proof kv.2) rows = Ok proofs ∧
    Forall2 (λ kv proof, ∃ json, proven kv.1 kv.2 proof json) rows proofs.
Proof.
  intros Hok. induction rows as [|[id e] rows IH]; intros Hrows; [by exists []|].
  destruct IH as (proofs & Hmap & Hall); [intros; apply Hrows; by right|].
  destruct (so_proven _ _ _ (ho_settled _ _ Hok id e (Hrows id e (list_elem_of_here _ _))))
    as (proof & json & Hproven).
  exists (proof :: proofs). split; [|by constructor; [exists json|]].
  change (map_res (λ kv : string * settled_row, read_proof kv.2) ((id, e) :: rows)) with
    (y ← read_proof e; ys ← map_res (λ kv : string * settled_row, read_proof kv.2) rows; mret (y :: ys)).
  rewrite Hmap. unfold read_proof. rewrite (proj1 Hproven).
  change (default "None" (Some json)) with json.
  rewrite (settlement_text _ _ (proj1 (proj2 Hproven))). done.
Qed.
(** The uploader gets the destination's own proof: an accepted request for settlements
    returns, read back from their JSON text, at most [limit] proofs, oldest first, each of an
    unacknowledged and unexpired settlement of a packet this node uploaded, and each the very
    proof that verified under the destination's signing key; all of them when they fit. *)
Theorem settlements_proven now q d body limit destination s :
  hub_reachable s → accepted now q d body s → 1 ≤ limit ≤ MAX_CLAIM_BATCH →
  optional_node destination = Ok destination →
  ∃ rows proofs, settlements now q d body (VInt limit) destination s = (Ok proofs, consumed now q s) ∧
    Forall2 (λ kv proof, settlement_due now (q_node_id q) destination s kv.1 kv.2 ∧
      e_uploader_id proof = q_node_id q ∧ ∃ json, proven kv.1 kv.2 proof json) rows proofs ∧
    Z.of_nat (length proofs) ≤ limit ∧ StronglySorted (key_le settled_key) rows ∧ NoDup rows.*1 ∧
    (Z.of_nat (length proofs) < limit → ∀ id e,
       settlement_due now (q_node_id q) destination s id e → (id, e) ∈ rows).
Proof.
  intros Hok%hub_reachable_ok Hacc Hlimit Hdest.
  set (rows := settlement_rows (q_node_id q) destination limit (consumed now q s)).
  assert (hub_ok limits (consumed now q s)) as Hok' by (apply consumed_ok; [apply Hacc|done]).
  destruct (read_proofs (consumed now q s) rows Hok') as (proofs & Hmap & Hall).
  { intros id e Hin%elem_of_take_elem. rewrite elem_of_order_by, elem_of_select_where in Hin. apply Hin. }
  assert (Z.of_nat (length rows) ≤ limit) as Hlen by (unfold rows, settlement_rows; rewrite length_take; lia).
  pose proof (Forall2_length _ _ _ Hall) as Hsame.
  exists rows, proofs. split; [|split; [|split_and!]].
  - unfold settlements. cbv [mbind ST_bind lift]. rewrite int_between_make, Hdest by done.
    apply authenticated_make; [done|]. cbv [gets]. unfold rows in Hmap. by rewrite Hmap.
  - apply Forall2_same_length_lookup. split; [done|]. intros i [id e] proof Hi Hproof.
    destruct (Forall2_lookup_lr _ _ _ _ _ _ Hall Hi Hproof) as (json & Hproven). simpl in *.
    pose proof (settlement_rows_due now q destination limit s id e Hok
      (list_elem_of_lookup_2 _ _ _ Hi)) as Hdue.
    split; [done|]. split; [|by exists json]. destruct Hproven as (_ & _ & _ & _ & _ & -> & _).
    by destruct Hdue as (_ & -> & _).
  - lia.
  - apply StronglySorted_take, order_by_sorted.
  - apply NoDup_take_order, NoDup_select_where.
  - intros Hfew id e (He & Hu & Hd & Ha & Hlive). unfold rows, settlement_rows in *.
    rewrite take_ge; [|rewrite length_take in *; lia].
    apply elem_of_order_by, elem_of_select_where. split.
    + by apply lookup_purged_settled.
    + split_and!; [done..| |done]. destruct (so_proven _ _ _ (ho_settled _ _ Hok id e He)) as (x & j & -> & _).
      done.
Qed.

(** The proof that a destination issues for a claimed packet, presented in time *)
Lemma verify_settlement_later now now' e public :
  verify_settlement now e public = Ok tt → e_settled_ms e ≤ now' + AHUB_REQUEST_SKEW_MS →
  now' < e_expires_ms e → verify_settlement now' e public = Ok tt.
Proof.
  intros Hv Hsettled Hexp. rewrite <- Hv. unfold verify_settlement in *. res_inv. bool_prop.
  repeat match goal with |- context [?a <? ?b] => first
    [rewrite (proj2 (Z.ltb_ge a b)) by lia|fail 1] end.
  repeat match goal with |- context [?a <=? ?b] => first
    [rewrite (proj2 (Z.leb_gt a b)) by lia|fail 1] end.
  done.
Qed.
Lemma issued_settlement identity id raw uploader expires settled proof :
  issue_destination_settlement identity id raw uploader expires settled = Ok proof →
  verify_settlement settled proof (i_sign_public identity) = Ok tt ∧ e_packet_id proof = id ∧
  e_packet_sha256 proof = sha256 raw ∧ e_uploader_id proof = uploader ∧
  e_destination_id proof = derive_node_id (i_sign_public identity) (i_box_public identity) ∧
  e_settled_ms proof = settled ∧ e_expires_ms proof = expires ∧ e_version proof = 1.
Proof.
  unfold issue_destination_settlement. intros H. res_inv.
  match goal with H : _validate_node_id _ = Ok _ |- _ => unfold _validate_node_id in H; res_inv end.
  match goal with u : () |- _ => destruct u end. subst. by split_and!.
Qed.
Lemma json_settlement proof :
  fits (e_version proof) → fits (e_settled_ms proof) → fits (e_expires_ms proof) →
  ∃ json, json_dumps (VMap (settlement_to_dict proof)) = Ok json.
Proof.
  intros H1 H2 H3. apply json_flat. repeat first [apply List.Forall_nil|apply List.Forall_cons];
    cbn [fst snd field bytes_field];
    first [by (do 2 eexists)
          |match goal with |- context [VInt ?n] => destruct (json_int n ltac:(assumption)) end;
           do 2 eexists; split; [reflexivity|eassumption]].
Qed.
Lemma finish_custody_ok now d id token r proof s :
  hub_ok limits s → ahub_mailbox s !! id = Some r → holds_claim now (sha256 token) r = true →
  verify_settlement now proof (d_sign_public d) = Ok tt → proof_matches id r proof →
  fits (e_settled_ms proof) → fits (e_expires_ms proof) → len (sha256 (ml_raw r)) = 32 →
  ∃ json, finish_custody now (ml_destination_id r) d id (sha256 token) proof s =
    (Ok true, set_mailbox (delete id (ahub_mailbox s)) (set_settlements
      (<[id := settlement_row r proof json]> (ahub_settlements s)) s)) ∧
  json_dumps (VMap (settlement_to_dict proof)) = Ok json.
Proof.
  intros Hok Hr Hh Hv (E1 & E2 & E3 & E4 & E5) Hf1 Hf2 Hlen.
  assert (e_version proof = 1) as Hver.
  { unfold verify_settlement in Hv. res_inv. by bool_prop. }
  destruct (json_settlement proof) as [json Hjson]; [rewrite Hver; unfold fits; lia|done..|].
  exists json. split; [|done]. unfold finish_custody. cbv [mbind ST_bind gets lift].
  rewrite Hr, String.eqb_refl, Hh, Hv, E1, E2, E3, E4, E5, !String.eqb_refl, Z.eqb_refl. cbn [negb orb raise_if].
  rewrite Hjson. unfold insert_settlement. cbv [mbind ST_bind gets lift modify mret ST_ret].
  cbn [se_settled_ms se_raw_sha256 se_destination_id se_uploader_id].
  rewrite sqlite_int_fits, check_digest_32 by done.
  rewrite (mo_unsettled _ _ _ _ (ho_mail _ _ Hok id r Hr)).
  destruct (hub_ok_fk s id r Hok Hr) as [[x Hx] [y Hy]]. unfold member. cbv [mbind ST_bind gets lift].
  rewrite Hx, Hy, !bool_decide_false by done. done.
Qed.

(** C8: delivery completes: a destination that claimed a packet and signs a settlement of it
    with its own key gets it settled, whatever was called in between, if its request is
    accepted before the claim ends and the packet expires and nobody settled it before; the
    hub then keeps this proof for the uploader. *)
Theorem claim_then_settle now tokens q d body limit lease max_bytes uploader s cs s1 c s2
    identity settled proof now2 q2 d2 body2 :
  (∀ raw, len (sha256 raw) = 32) → hub_reachable s →
  claim now tokens q d body (VInt limit) (VInt lease) max_bytes uploader s = (Ok cs, s1) → c ∈ cs →
  hub_run limits (λ t, t < cl_claim_until_ms c ∧ t < cl_expires_ms c) s1 s2 →
  is_Some (ahub_mailbox s2 !! cl_packet_id c) →
  issue_destination_settlement identity (cl_packet_id c) (cl_raw c) (cl_uploader_id c) (cl_expires_ms c)
    settled = Ok proof →
  accepted now2 q2 d2 body2 s2 → q_node_id q2 = q_node_id q →
  d_sign_public d2 = i_sign_public identity →
  derive_node_id (i_sign_public identity) (i_box_public identity) = q_node_id q →
  now2 < cl_claim_until_ms c → now2 < cl_expires_ms c → settled ≤ now2 + AHUB_REQUEST_SKEW_MS →
  fits settled → fits (cl_expires_ms c) → str_forall is_ascii (cl_claim_token c) = true →
  ∃ s3 e json, settle now2 q2 d2 body2 (cl_packet_id c) (cl_claim_token c) proof s2 = (Ok true, s3) ∧
    ahub_mailbox s3 !! cl_packet_id c = None ∧ ahub_settlements s3 !! cl_packet_id c = Some e ∧
    proven (cl_packet_id c) e proof json ∧ se_uploader_id e = cl_uploader_id c ∧ se_acknowledged_ms e = 0.
Proof.
  intros Hsha Hok%hub_reachable_ok Hclaim [i Hi]%list_elem_of_lookup Hrun [r' Hr'] Hissue Hacc Hq Hkey Hid
    Huntil Hexp Hsettled Hf1 Hf2 Hascii.
  destruct (claim_leased _ _ _ _ _ _ _ _ _ _ _ _ _ _ s2 Hok Hclaim Hi Hrun) as
    (r & (_ & Hdest & _ & Hlive & _) & Hc & Hok2 & Hleased).
  set (r1 := with_claim (Some (sha256 (tokens i))) (Some (now + lease)) r) in *.
  assert (r' = r1) as ->.
  { destruct Hleased as [Hs2|Hs2]; [congruence|]. unfold packet_state in Hs2. by rewrite Hr' in Hs2. }
  destruct (issued_settlement _ _ _ _ _ _ _ Hissue) as (Hv & P1 & P2 & P3 & P4 & P5 & P6 & P7).
  set (id := cl_packet_id c) in *. rewrite Hc in *. simpl in P2, P3, P6, Huntil, Hexp, Hf2, Hascii.
  assert (holds_lease now2 (q_node_id q2) (tokens i) s2 id r1) as Hlease.
  { split_and!; [done|by rewrite Hq|done|done|]. by exists (now + lease). }
  apply holds_lease_consumed in Hlease as (Hrow & _ & Hh).
  assert (hub_ok limits (consumed now2 q2 s2)) as Hok3 by (apply consumed_ok; [apply Hacc|done]).
  assert (proof_matches id r1 proof) as Hm by (split_and!; simpl; congruence).
  assert (verify_settlement now2 proof (d_sign_public d2) = Ok tt) as Hv2.
  { rewrite Hkey. eapply verify_settlement_later; [exact Hv|by rewrite P5|by rewrite P6]. }
  destruct (finish_custody_ok now2 d2 id (tokens i) r1 proof _ Hok3 Hrow Hh Hv2 Hm) as (json & Hrun3 & Hjson);
    [by rewrite P5|by rewrite P6|apply Hsha|].
  eexists _, (settlement_row r1 proof json), json. split; [|split; [|split]].
  - unfold settle, encode_ascii. cbv [mbind ST_bind res_bind mret res_ret lift].
    cbn [cl_claim_token claimed_packet]. rewrite Hascii. cbn [negb raise_if].
    apply authenticated_make; [done|].
    assert (ml_destination_id r1 = q_node_id q2) as <- by (by rewrite Hq). exact Hrun3.
  - simpl. apply lookup_delete_eq.
  - simpl. apply lookup_insert_eq.
  - destruct Hacc as (Hvr & _). apply verify_request_node in Hvr as (_ & Hn & _ & _ & Hd2 & _).
    split; [|done]. split_and!; try done; [|by destruct Hm as (? & ? & ? & ? & ?)..].
    exists d2, now2. split_and!; [done|by rewrite <- Hn, Hq|done].
Qed.

(** C15: the hub's tables are consistent after any history of calls, returning or raising:
    foreign keys hold, every mailbox row is what the header of its bytes says, claims are
    set and cleared whole, no packet is both held and settled, every settlement keeps a
    verified proof of its own fields, reservations are valid and unique per pair of nodes,
    and no node exceeds its quotas. *)
Theorem hub_consistent s : hub_reachable s → hub_ok limits s.
Proof. apply hub_reachable_ok. Qed.

Lemma hub_reachable_new : new_limits limits = Ok limits → hub_reachable new_hub_db.
Proof. intros Hl. split; [done|]. apply rtc_refl. Qed.
Lemma hub_reachable_call now A (m : HM A) s :
  hub_call limits now A m → hub_reachable s → hub_reachable (m s).2.
Proof.
  intros Hcall [Hl Hrun]. split; [done|]. eapply rtc_r; [exact Hrun|]. exists now. split; [done|].
  by exists A, m.
Qed.
End laws.
