(* ===== verification/AhubSamples.v ===== *)
(** A hub with two nodes: one packet goes from Alice to Bob through the hub of src/anet/ahub.py,
    and the theorems of AhubLaws at the states it passes through. *)
From S2P Require Import Prelude PyStr PyVal Codecs Schema Packet ControlPlane ControlStore ControlReads Ahub AhubStore AhubRun AhubLaws.

#[local] Existing Instances sample_digests sample_signatures.
Definition node (name : string) : Identity := {|
  i_sign_public := fit 32 (name +:+ "-sign"); i_box_public := fit 32 (name +:+ "-box");
  i_label := name; i_sign := λ m, "s" +:+ fit 63 m |}.
Definition node_id (i : Identity) : string := derive_node_id (i_sign_public i) (i_box_public i).
Definition alice : Identity := node "alice".
Definition bob : Identity := node "bob".
Definition hub_packet_id : string := "00112233445566778899aabbccddeeff".
Definition hub_outer : dict :=
  [field "v" (VInt 3); field "id" (VStr hub_packet_id); field "dst" (VStr (node_id bob));
   field "ts" (VInt 1000); field "exp" (VInt 60000); field "hops" (VInt 8);
   field "epk" (VBytes (zeros 32)); field "nonce" (VBytes (zeros 12)); field "qos" (VStr "normal");
   field "km" (VStr "static"); field "kid" (VStr ""); field "ct" (VBytes (zeros 40))].
#[local] Instance hub_platform : Platform := sample_platform [("raw", VMap hub_outer)].

Definition no_request : AhubRequest :=
  {| q_node_id := ""; q_method := ""; q_path := ""; q_issued_ms := 0; q_nonce := "";
     q_body_sha256 := ""; q_signature := ""; q_version := 0; q_object_type := "" |}.
Definition no_settlement : DestinationSettlement :=
  {| e_packet_id := ""; e_packet_sha256 := ""; e_uploader_id := ""; e_destination_id := "";
     e_settled_ms := 0; e_expires_ms := 0; e_signature := ""; e_version := 0; e_object_type := "" |}.
Definition described_by (i : Identity) : NodeDescriptor := unwrap no_descriptor
  (issue_node_descriptor i [] 1 GENESIS_DIGEST 1000 100000).
Definition asks (i : Identity) (path body nonce : string) (issued : Z) : AhubRequest :=
  unwrap no_request (issue_ahub_request i "POST" path body issued nonce).
Definition upload : AhubRequest := asks alice "/v1/mailbox" "raw" "nonce-0123456789a" 2000.
Definition ask_claim : AhubRequest := asks bob "/v1/mailbox/claims" "{}" "nonce-0123456789b" 3000.
Definition ask_claim_again : AhubRequest := asks bob "/v1/mailbox/claims" "{}" "nonce-0123456789c" 3500.
Definition ask_settle : AhubRequest := asks bob "/v1/mailbox/settle" "{}" "nonce-0123456789d" 4000.
Definition ask_proofs : AhubRequest := asks alice "/v1/mailbox/settlements" "{}" "nonce-0123456789e" 5000.
Definition sample_tokens (n : nat) : string := "token-" +:+ str_of_Z (Z.of_nat n).
Definition bob_proof : DestinationSettlement := unwrap no_settlement
  (issue_destination_settlement bob hub_packet_id "raw" (node_id alice) 60000 4000).

Definition hub_both : hub_db :=
  (allow_node 1000 (node_id bob) (allow_node 1000 (node_id alice) new_hub_db).2).2.
Definition bob_claim : ClaimedPacket :=
  {| cl_packet_id := hub_packet_id; cl_raw := "raw"; cl_depth := 0; cl_claim_token := sample_tokens 0;
     cl_claim_until_ms := 33000; cl_uploader_id := node_id alice; cl_expires_ms := 60000 |}.
Definition alice_receipt : CustodyReceipt :=
  {| cr_packet_id := hub_packet_id; cr_destination_id := node_id bob; cr_stored := true;
     cr_expires_ms := 60000 |}.

(** The calls: Alice uploads, Bob claims, claims again, settles, Alice asks for proofs. *)
Abbreviation upload_call := (submit default_limits 2000 2000 2000 upload (described_by alice) "raw").
Abbreviation claim_call now q := (claim now sample_tokens q (described_by bob) "{}" (VInt 10)
  (VInt 30000) (Some (VInt MAX_WIRE_BYTES)) None).
Abbreviation settle_call := (settle 4000 ask_settle (described_by bob) "{}" hub_packet_id
  (sample_tokens 0) bob_proof).
Abbreviation proofs_call := (settlements 5000 ask_proofs (described_by alice) "{}" (VInt 5) None).
Definition story : HM (CustodyReceipt * list ClaimedPacket * list ClaimedPacket * bool *
    list DestinationSettlement) :=
  rc ← upload_call;
  cs ← claim_call 3000 ask_claim;
  cs' ← claim_call 3500 ask_claim_again;
  done ← settle_call;
  proofs ← proofs_call;
  mret (rc, cs, cs', done, proofs).
Example story_runs : (story hub_both).1 = Ok (alice_receipt, [bob_claim], [], true, [bob_proof]).
Proof. vm_compute. reflexivity. Qed.

Lemma reach_both : hub_reachable default_limits hub_both.
Proof.
  refine (hub_reachable_call _ 1000 _ _ _ (call_allow _ _ _) _).
  exact (hub_reachable_call _ 1000 _ _ _ (call_allow _ _ _) (hub_reachable_new default_limits eq_refl)).
Qed.
Lemma reach_run {A} now (m : HM A) s r s' :
  hub_call default_limits now A m → hub_reachable default_limits s → m s = (r, s') →
  hub_reachable default_limits s'.
Proof. intros Hcall Hs Hm. pose proof (hub_reachable_call _ now A m s Hcall Hs) as H. by rewrite Hm in H. Qed.
Lemma one_call {A} clock now (m : HM A) s r s' :
  hub_call default_limits now A m → (clock now : Prop) → m s = (r, s') →
  hub_run default_limits clock s s'.
Proof. intros Hcall Hclock Hm. apply rtc_once. exists now. split; [done|]. exists A, m. by rewrite Hm. Qed.

(** The states between the calls *)
Record stages (s1 s2 s3 s4 s5 : hub_db) : Prop := {
  sg_upload : upload_call hub_both = (Ok alice_receipt, s1);
  sg_claim : claim_call 3000 ask_claim s1 = (Ok [bob_claim], s2);
  sg_again : claim_call 3500 ask_claim_again s2 = (Ok [], s3);
  sg_settle : settle_call s3 = (Ok true, s4);
  sg_proofs : proofs_call s4 = (Ok [bob_proof], s5);
  sg_reach1 : hub_reachable default_limits s1;
  sg_reach2 : hub_reachable default_limits s2;
  sg_reach3 : hub_reachable default_limits s3;
  sg_reach4 : hub_reachable default_limits s4;
}.
Lemma story_stages : ∃ s1 s2 s3 s4 s5, stages s1 s2 s3 s4 s5.
Proof.
  pose proof story_runs as H. destruct (story hub_both) as [r s5] eqn:E. cbn [fst] in H. subst r.
  unfold story in E. st_inv.
  match goal with
  | H1 : upload_call hub_both = (Ok _, ?s1), H2 : claim_call 3000 ask_claim _ = (Ok _, ?s2),
    H3 : claim_call 3500 _ _ = (Ok _, ?s3), H4 : settle_call _ = (Ok _, ?s4), H5 : proofs_call _ = _ |- _ =>
      pose proof (reach_run _ _ _ _ _ (call_submit _ _ _ _ _ _ _) reach_both H1) as R1;
      pose proof (reach_run _ _ _ _ _ (call_claim _ _ _ _ _ _ _ _ _ _) R1 H2) as R2;
      pose proof (reach_run _ _ _ _ _ (call_claim _ _ _ _ _ _ _ _ _ _) R2 H3) as R3;
      pose proof (reach_run _ _ _ _ _ (call_settle _ _ _ _ _ _ _ _) R3 H4) as R4;
      exists s1, s2, s3, s4, s5; by split
  end.
Qed.

(** ** The theorems at these states *)

Lemma hub_consistent_witness : ∃ s, hub_ok default_limits s ∧ hub_reachable default_limits s.
Proof.
  destruct story_stages as (s1 & s2 & s3 & s4 & s5 & S). exists s4.
  split; [exact (hub_consistent default_limits s4 (sg_reach4 _ _ _ _ _ S))|exact (sg_reach4 _ _ _ _ _ S)].
Defined.
Lemma request_served_once_witness : ∃ s2 e,
  submit default_limits 4000 4000 4000 upload (described_by alice) "raw" s2 = (Err e, s2).
Proof.
  destruct story_stages as (s1 & s2 & s3 & s4 & s5 & S). exists s2.
  refine (request_served_once default_limits 2000 4000 upload _ _ _ _ _ hub_both s1 s2 reach_both
    (behalf_submit _ _ _ _ _ _ _) (sg_upload _ _ _ _ _ S) _ (behalf_submit _ _ _ _ _ _ _)).
  refine (one_call _ 3000 _ _ _ _ (call_claim _ _ _ _ _ _ _ _ _ _) _ (sg_claim _ _ _ _ _ S)).
  unfold AHUB_REQUEST_SKEW_MS. lia.
Defined.
Lemma custody_refines_life_witness : ∃ s3,
  rtc (life_step 4000) (packet_state s3 hub_packet_id) (packet_state (settle_call s3).2 hub_packet_id).
Proof.
  destruct story_stages as (s1 & s2 & s3 & s4 & s5 & S). exists s3.
  exact (custody_refines_life default_limits 4000 bool settle_call s3 hub_packet_id (sg_reach3 _ _ _ _ _ S)
    (call_settle _ _ _ _ _ _ _ _)).
Defined.
Lemma custody_kept_witness : ∃ s2,
  (∃ r, ahub_mailbox s2 !! hub_packet_id = Some r ∧ ml_raw r = "raw") ∨
  (∃ e, ahub_settlements s2 !! hub_packet_id = Some e).
Proof.
  destruct story_stages as (s1 & s2 & s3 & s4 & s5 & S). exists s2.
  destruct (custody_kept default_limits 2000 2000 2000 upload (described_by alice) "raw" hub_both
    alice_receipt s1 s2 reach_both (sg_upload _ _ _ _ _ S) eq_refl) as
    [(r & Hr & _ & _ & Hraw & _)|(e & _ & _ & He & _)].
  - refine (one_call _ 3000 _ _ _ _ (call_claim _ _ _ _ _ _ _ _ _ _) _ (sg_claim _ _ _ _ _ S)).
    cbn [cr_expires_ms alice_receipt]. lia.
  - left. exists r. split; [exact Hr|exact Hraw].
  - right. exists e. exact He.
Defined.
Lemma claim_spec_witness : ∃ s2 r,
  ahub_mailbox s2 !! hub_packet_id = Some (with_claim (Some (sha256 (sample_tokens 0))) (Some (3000 + 30000)) r).
Proof.
  destruct story_stages as (s1 & s2 & s3 & s4 & s5 & S). exists s2.
  destruct (claim_spec default_limits 3000 sample_tokens ask_claim (described_by bob) "{}" 10 30000 _ None
    s1 [bob_claim] s2 (sg_reach1 _ _ _ _ _ S) (sg_claim _ _ _ _ _ S)) as (_ & _ & _ & _ & Hall & _).
  destruct (Hall 0%nat bob_claim eq_refl) as (r & _ & _ & Hr). exists r. exact Hr.
Defined.
Lemma claim_progress_witness : ∃ s1 c cs s',
  claim 3000 sample_tokens ask_claim (described_by bob) "{}" (VInt 10) (VInt 30000)
    (Some (VInt MAX_WIRE_BYTES)) None s1 = (Ok (c :: cs), s').
Proof.
  destruct story_stages as (s1 & s2 & s3 & s4 & s5 & S). exists s1.
  pose proof (hub_reachable_ok default_limits s1 (sg_reach1 _ _ _ _ _ S)) as Hok.
  destruct (hub_claim_run default_limits _ _ _ _ _ _ _ _ _ _ _ _ (sg_claim _ _ _ _ _ S)) as (_ & _ & Hacc & _).
  destruct (claim_handed_out default_limits _ _ _ _ _ _ _ _ _ _ _ _ 0%nat bob_claim Hok
    (sg_claim _ _ _ _ _ S) eq_refl) as (r & Hwait & _).
  destruct (claim_progress default_limits 3000 sample_tokens ask_claim (described_by bob) "{}" 10 30000
    MAX_WIRE_BYTES None s1 hub_packet_id r (sg_reach1 _ _ _ _ _ S) Hacc) as (c & cs & s' & r0 & E & _);
    [unfold MAX_CLAIM_BATCH; lia|unfold MIN_CLAIM_LEASE_MS, MAX_CLAIM_LEASE_MS; lia
    |cbn [max_packet_bytes default_limits]; lia|reflexivity|exact Hwait|].
  exists c, cs, s'. exact E.
Defined.
Lemma settle_fenced_witness : ∃ s3 s4 r,
  settle_call s3 = (Ok true, s4) ∧ holds_lease 4000 (q_node_id ask_settle) (sample_tokens 0) s3 hub_packet_id r.
Proof.
  destruct story_stages as (s1 & s2 & s3 & s4 & s5 & S). exists s3, s4.
  pose proof (settle_fenced default_limits 4000 ask_settle (described_by bob) "{}" hub_packet_id
    (sample_tokens 0) bob_proof s3 (sg_reach3 _ _ _ _ _ S)) as H.
  pose proof (sg_settle _ _ _ _ _ S) as E. rewrite E in H. destruct H as (_ & r & _ & Hlease & _).
  exists r. split; [exact E|exact Hlease].
Defined.
Lemma settlements_proven_witness : ∃ s4 proofs s5,
  settlements 5000 ask_proofs (described_by alice) "{}" (VInt 5) None s4 = (Ok proofs, s5).
Proof.
  destruct story_stages as (s1 & s2 & s3 & s4 & s5 & S). exists s4.
  assert (accepted 5000 ask_proofs (described_by alice) "{}" s4) as Hacc.
  { pose proof (sg_proofs _ _ _ _ _ S) as E. unfold settlements in E. st_inv.
    match goal with H : authenticated _ _ _ _ _ _ = _ |- _ => apply authenticated_ok in H as [Hacc _] end.
    exact Hacc. }
  destruct (settlements_proven default_limits 5000 ask_proofs (described_by alice) "{}" 5 None s4
    (sg_reach4 _ _ _ _ _ S) Hacc) as (rows & proofs & E & _);
    [unfold MAX_CLAIM_BATCH; lia|reflexivity|].
  exists proofs, (consumed 5000 ask_proofs s4). exact E.
Defined.
Lemma bob_proof_issued : issue_destination_settlement bob hub_packet_id "raw" (node_id alice) 60000 4000 =
  Ok bob_proof.
Proof. vm_compute. reflexivity. Qed.
Lemma bob_keys : d_sign_public (described_by bob) = i_sign_public bob ∧
  derive_node_id (i_sign_public bob) (i_box_public bob) = q_node_id ask_claim ∧
  q_node_id ask_settle = q_node_id ask_claim.
Proof. vm_compute. by split. Qed.
Lemma claim_then_settle_witness : ∃ s2 s3 e json,
  settle 4000 ask_settle (described_by bob) "{}" hub_packet_id (sample_tokens 0) bob_proof s2 = (Ok true, s3) ∧
  proven hub_packet_id e bob_proof json.
Proof.
  destruct story_stages as (s1 & s2 & s3 & s4 & s5 & S). exists s3.
  assert (accepted 4000 ask_settle (described_by bob) "{}" s3 ∧
    is_Some (ahub_mailbox s3 !! hub_packet_id)) as [Hacc Hmail].
  { pose proof (sg_settle _ _ _ _ _ S) as E. unfold settle in E. st_inv.
    match goal with H : authenticated _ _ _ _ _ _ = _ |- _ => apply authenticated_ok in H as [Hacc Hrun] end.
    split; [exact Hacc|]. pose proof (hub_reachable_ok _ _ (sg_reach3 _ _ _ _ _ S)) as Hok.
    apply finish_custody_run in Hrun as [(? & _)|(_ & r & json & Hr & _)]; [discriminate| |].
    - apply lookup_purged_mail in Hr as (r0 & Hr0 & _). by exists r0.
    - intros r. apply (hub_ok_fk default_limits). apply consumed_ok; [apply Hacc|exact Hok]. }
  destruct bob_keys as (K1 & K2 & K3).
  destruct (claim_then_settle default_limits 3000 sample_tokens ask_claim (described_by bob) "{}" 10 30000
    (Some (VInt MAX_WIRE_BYTES)) None s1 [bob_claim] s2 bob_claim s3 bob 4000 bob_proof 4000 ask_settle (described_by bob) "{}") as
    (s4' & e & json & E & _ & _ & Hproven & _).
  - intros x. unfold len. simpl. by rewrite fit_len.
  - exact (sg_reach1 _ _ _ _ _ S).
  - exact (sg_claim _ _ _ _ _ S).
  - by left.
  - refine (one_call _ 3500 _ _ _ _ (call_claim _ _ _ _ _ _ _ _ _ _) _ (sg_again _ _ _ _ _ S)).
    cbn [cl_claim_until_ms cl_expires_ms bob_claim]. lia.
  - exact Hmail.
  - exact bob_proof_issued.
  - exact Hacc.
  - exact K3.
  - exact K1.
  - exact K2.
  - reflexivity.
  - reflexivity.
  - unfold AHUB_REQUEST_SKEW_MS. lia.
  - unfold fits. lia.
  - unfold fits. cbn [cl_expires_ms bob_claim]. lia.
  - vm_compute. reflexivity.
  - exists s4', e, json. split; [exact E|exact Hproven].
Defined.
