(* ===== verification/AhubService.v ===== *)
(** The hub as one service (src/anet/ahub.py [AhubService]): the control plane store and the
    hub's own store, two databases; a caller is whoever the current descriptor of its node
    says.  The clock readings are arguments, [read] that of the descriptor lookup. *)
From S2P Require Import Prelude PyStr PyVal Codecs Locator Schema Packet ControlPlane ControlStore ControlReads Ahub AhubStore AhubRun AhubLaws.

Record service := Service { control : control_db; ahub : hub_db }.
Definition new_service : service := Service new_control_db new_hub_db.
Abbreviation SM := (ST service).
(** An operation of one of the two stores; each commits by itself. *)
Definition on_control {A} (m : ST control_db A) : SM A :=
  λ s, let '(r, c) := m (control s) in (r, Service c (ahub s)).
Definition on_ahub {A} (m : HM A) : SM A :=
  λ s, let '(r, h) := m (ahub s) in (r, Service (control s) h).

Section service_operations.
Context {PL : Platform} {DG : Digests} {SG : Signatures} {UL : Urllib} (limits : AhubLimits).

Definition find_descriptor (now : Z) (node_id : string) : SM (option NodeDescriptor) :=
  found ← gets (λ s, current_descriptor now node_id (control s));
  lift found.
(** The first lines of every operation on behalf of a node *)
Definition caller (now : Z) (q : AhubRequest) : SM NodeDescriptor :=
  descriptor ← find_descriptor now (q_node_id q);
  lift (of_option (PermissionError "Ahub caller has no current descriptor") descriptor).

Definition service_allow_node (now : Z) (node_id : string) : SM bool := on_ahub (allow_node now node_id).
Definition service_disallow_node (now : Z) (node_id : string) : SM bool :=
  on_ahub (disallow_node now node_id).
Definition publish_descriptor (now : Z) (d : NodeDescriptor) : SM bool :=
  on_ahub (_require_allowed (d_node_id d));;
  on_control (accept_descriptor now d).
Definition publish_reachability (read now : Z) (r : ReachabilityRecord) : SM bool :=
  on_ahub (_require_allowed (r_node_id r));;
  descriptor ← find_descriptor read (r_node_id r);
  d ← lift (of_option (ValueError "reachability requires a current descriptor") descriptor);
  on_control (accept_reachability now r d).
Definition service_authenticate (read now : Z) (q : AhubRequest) (body : bytes) : SM NodeDescriptor :=
  d ← caller read q;
  on_ahub (authenticate now q d body);;
  mret d.
(** [found] and [reached] are the clock readings of the two lookups. *)
Definition service_lookup (read now found reached : Z) (q : AhubRequest) (body : bytes) (target : string)
    : SM (NodeDescriptor * option ReachabilityRecord) :=
  service_authenticate read now q body;;
  on_ahub (_require_allowed target);;
  descriptor ← find_descriptor found target;
  d ← lift (of_option (LookupError "target has no current descriptor") descriptor);
  reachability ← gets (λ s, current_reachability reached target (control s));
  r ← lift reachability;
  mret (d, r).
Definition service_reserve_relay (read now : Z) (token : string) (q : AhubRequest) (body : bytes)
    (peer : string) (ttl_ms duration bytes_limit : value) : SM RelayReservation :=
  d ← caller read q;
  on_ahub (reserve_relay limits now token q d body peer ttl_ms duration bytes_limit).
Definition service_authorize_relay (read now : Z) (q : AhubRequest) (body : bytes) (id : string)
    : SM RelayReservation :=
  d ← caller read q; on_ahub (authorize_relay now q d body id).
Definition service_find_relay_reservation (read now : Z) (q : AhubRequest) (body : bytes)
    (owner : string) : SM RelayReservation :=
  d ← caller read q; on_ahub (find_relay_reservation now q d body owner).
Definition service_submit (read now inspected inspected' : Z) (q : AhubRequest) (raw : bytes)
    : SM CustodyReceipt :=
  d ← caller read q; on_ahub (submit limits now inspected inspected' q d raw).
Definition service_claim (read now : Z) (tokens : nat → string) (q : AhubRequest) (body : bytes)
    (limit lease_ms : value) (max_bytes : option value) (uploader_id : option string)
    : SM (list ClaimedPacket) :=
  d ← caller read q; on_ahub (claim now tokens q d body limit lease_ms max_bytes uploader_id).
Definition service_settle (read now : Z) (q : AhubRequest) (body : bytes)
    (packet_id claim_token : string) (proof : DestinationSettlement) : SM bool :=
  d ← caller read q; on_ahub (settle now q d body packet_id claim_token proof).
Definition service_settlements (read now : Z) (q : AhubRequest) (body : bytes) (limit : value)
    (destination_id : option string) : SM (list DestinationSettlement) :=
  d ← caller read q; on_ahub (settlements now q d body limit destination_id).
Definition service_acknowledge_settlement (read now : Z) (q : AhubRequest) (body : bytes)
    (packet_id : string) : SM bool :=
  d ← caller read q; on_ahub (acknowledge_settlement now q d body packet_id).

(** [AhubService.status]: the counters of both stores *)
Definition reachability_live (now : Z) (_ : string) (r : reachability_row) : Prop := now < rr_expires_ms r.
Definition reachability_over (now : Z) (_ : string) (r : reachability_row) : Prop := rr_expires_ms r ≤ now.
#[global] Instance reachability_live_dec now k r : Decision (reachability_live now k r).
Proof. unfold reachability_live. apply _. Defined.
#[global] Instance reachability_over_dec now k r : Decision (reachability_over now k r).
Proof. unfold reachability_over. apply _. Defined.
Definition service_status (now : Z) (s : service) : dict :=
  status now (ahub s) ++
  [field "descriptors" (VInt (count_where (λ _ _, True) (control_node_descriptors (control s))));
   field "live_reachability"
     (VInt (count_where (reachability_live now) (control_reachability (control s))));
   field "expired_reachability"
     (VInt (count_where (reachability_over now) (control_reachability (control s))))].
End service_operations.
