(* ===== verification/AhubHttp.v ===== *)
(** The hub's HTTP adapter (src/anet/ahub_http.py [AhubASGI]): the request body, the routes with
    their checks, the service call each route makes, and the status and JSON body of the answer,
    errors included.  The clock readings and tokens of one request are arguments. *)
From S2P Require Import Prelude PyStr PyVal Codecs Locator Schema Packet ControlPlane ControlStore ControlReads Ahub AhubStore AhubRun AhubService.

Definition MAX_AHUB_JSON_BYTES : Z := 256 * 1024.
Definition MAX_AHUB_HTTP_BODY_BYTES : Z := MAX_WIRE_BYTES + 1.
Definition MAX_AHUB_HTTP_RESPONSE_BYTES : Z := 24 * 1024 * 1024.

(** A path that is [before], one argument that the pattern [p] matches, and [after] *)
Definition path_arg (before after : string) (p : string → bool) (path : string) : option string :=
  let n := (String.length path - String.length before - String.length after)%nat in
  let arg := substring (String.length before) n path in
  if String.eqb path (before +:+ arg +:+ after) && p arg then Some arg else None.
Definition NODE_PATH_RE : string → option string := path_arg "/v1/nodes/" "" NODE_ID_RE.
Definition DESCRIPTOR_PATH_RE : string → option string := path_arg "/v1/descriptors/" "" NODE_ID_RE.
Definition REACHABILITY_PATH_RE : string → option string := path_arg "/v1/reachability/" "" NODE_ID_RE.
Definition SETTLE_PATH_RE : string → option string := path_arg "/v1/mailbox/" "/settle" (fullmatch_hex 32).
Definition SETTLEMENT_ACK_PATH_RE : string → option string :=
  path_arg "/v1/mailbox/settlements/" "/ack" (fullmatch_hex 32).
Definition RELAY_PATH_RE : string → option string := path_arg "/v1/relay/" "" (fullmatch_hex 32).
Definition RELAY_DISCOVERY_PATH_RE : string → option string :=
  path_arg "/v1/relay/reservations/" "" NODE_ID_RE.

(** [_bounded_fields] *)
Definition _bounded_fields (d : dict) (required optional : list string) : res unit :=
  raise_if (negb (forallb (λ k, dict_has k d) required) ||
            negb (forallb (λ kv, existsb (λ k, key_eqb (VStr k) kv.1) (required ++ optional)) d))
    (ValueError "Ahub JSON body has missing or unknown fields").

(** [_read_body]: [None] while more events are to come *)
Inductive http_event :=
  | HttpDisconnect
  | HttpRequest (body : bytes) (more_body : bool)
  | HttpOther.
Fixpoint _read_body (size : Z) (chunks : bytes) (events : list http_event) : option (res bytes) :=
  match events with
  | [] => None
  | HttpDisconnect :: _ => Some (Err (ValueError "request disconnected"))
  | HttpOther :: events => _read_body size chunks events
  | HttpRequest chunk more :: events =>
      if MAX_AHUB_HTTP_BODY_BYTES <? size + len chunk
      then Some (Err (ValueError "Ahub request body is too large"))
      else if more then _read_body (size + len chunk) (chunks +:+ chunk) events
      else Some (Ok (chunks +:+ chunk))
  end.

(** The outside of one request: the clock readings in their order, the random tokens, and
    whether the databases pass their check *)
Record moment := {
  clock : nat → Z;
  relay_token : string;
  claim_tokens : nat → string;
  healthy : bool;
}.

Section http.
Context {PL : Platform} {DG : Digests} {SG : Signatures} {UL : Urllib} (limits : AhubLimits).

Definition ahub_json (v : value) : res bytes := utf8 <$> json_dumps v.
Definition _json_object (raw : bytes) (max_bytes : Z) : res dict :=
  raise_if (max_bytes <? len raw) (ValueError "Ahub JSON body is too large");;
  text ← of_option (ValueError "invalid Ahub JSON body") (utf8_decode raw);
  match json_loads text with
  | Ok (VMap d) => mret d
  | Ok _ => Err (ValueError "Ahub JSON body must be an object")
  | Err e => Err (if decide (e = bad_json) then ValueError "invalid Ahub JSON body" else e)
  end.

(** [if isinstance(v, bool) or not isinstance(v, int): raise ValueError] *)
Definition integer (v : value) (error : string) : res unit :=
  raise_if (bool_decide (as_int v = None)) (ValueError error).
(** [v is not None and not isinstance(v, str): raise ValueError] *)
Definition optional_text (v : value) (error : string) : res (option string) :=
  match v with
  | VNone => mret None
  | VStr s => mret (Some s)
  | _ => Err (ValueError error)
  end.
Definition text (v : value) (error : string) : res string :=
  match v with VStr s => mret s | _ => Err (ValueError error) end.
Definition reachability_value (r : option ReachabilityRecord) : value :=
  match r with Some r => VMap (reachability_to_dict r) | None => VNone end.
Definition claimed_to_dict (c : ClaimedPacket) : dict :=
  [field "packet_id" (VStr (cl_packet_id c)); field "raw" (VStr (b64e (cl_raw c)));
   field "depth" (VInt (cl_depth c)); field "claim_token" (VStr (cl_claim_token c));
   field "claim_until_ms" (VInt (cl_claim_until_ms c)); field "uploader_id" (VStr (cl_uploader_id c));
   field "expires_ms" (VInt (cl_expires_ms c))].

(** ** The routes, one by one, from the first line of their branch *)

Definition answer : Type := Z * dict.
Definition get_health (at_ : moment) (body : bytes) : SM answer :=
  lift (raise_if (negb (String.eqb body "")) (ValueError "health request body must be empty"));;
  mret (if healthy at_ then 200 else 503,
        [field "status" (VStr (if healthy at_ then "ok" else "unhealthy"));
         field "service" (VStr "anet-ahub"); field "protocol" (VInt 1)]).
Definition put_descriptor_route (at_ : moment) (node : string) (body : bytes) : SM answer :=
  value ← lift (_json_object body MAX_AHUB_JSON_BYTES);
  d ← lift (descriptor_from_dict (clock at_ 0) (VMap value));
  lift (raise_if (negb (String.eqb (d_node_id d) node))
    (ValueError "descriptor path does not match Node ID"));;
  changed ← publish_descriptor (clock at_ 1) d;
  digest ← lift (descriptor_digest d);
  mret (200, [field "accepted" (VBool changed); field "digest" (VStr (b64e digest))]).
Definition put_reachability_route (at_ : moment) (node : string) (body : bytes) : SM answer :=
  found ← find_descriptor (clock at_ 0) node;
  descriptor ← lift (of_option (LookupError "node has no current descriptor") found);
  value ← lift (_json_object body MAX_AHUB_JSON_BYTES);
  r ← lift (reachability_from_dict (clock at_ 1) (VMap value) descriptor);
  lift (raise_if (negb (String.eqb (r_node_id r) node))
    (ValueError "reachability path does not match Node ID"));;
  changed ← publish_reachability (clock at_ 2) (clock at_ 3) r;
  digest ← lift (reachability_digest r);
  mret (200, [field "accepted" (VBool changed); field "digest" (VStr (b64e digest))]).
Definition get_node (at_ : moment) (node : string) (q : AhubRequest) (body : bytes) : SM answer :=
  found ← service_lookup (clock at_ 0) (clock at_ 1) (clock at_ 2) (clock at_ 3) q body node;
  mret (200, [field "descriptor" (VMap (descriptor_to_dict found.1));
              field "reachability" (reachability_value found.2)]).
Definition parse_reserve (body : bytes) : res (string * value * value * value) :=
  value ← _json_object body MAX_AHUB_JSON_BYTES;
  _bounded_fields value ["allowed_peer_id"] ["ttl_ms"; "max_duration_ms"; "max_bytes_each_direction"];;
  peer ← text (dict_get "allowed_peer_id" value) "Relay peer must be a Node ID string";
  let ttl := dict_get_or (VInt DEFAULT_RELAY_RESERVATION_TTL_MS) "ttl_ms" value in
  let duration := dict_get_or (VInt DEFAULT_MAX_RELAY_DURATION_MS) "max_duration_ms" value in
  let bytes_limit :=
    dict_get_or (VInt DEFAULT_MAX_RELAY_BYTES_EACH_DIRECTION) "max_bytes_each_direction" value in
  integer ttl "Relay limits must be integers";;
  integer duration "Relay limits must be integers";;
  integer bytes_limit "Relay limits must be integers";;
  mret (peer, ttl, duration, bytes_limit).
Definition post_reservation (at_ : moment) (q : AhubRequest) (body : bytes)
    (asked : string * value * value * value) : SM answer :=
  let '(peer, ttl, duration, bytes_limit) := asked in
  v ← service_reserve_relay limits (clock at_ 0) (clock at_ 1) (relay_token at_) q body
        peer ttl duration bytes_limit;
  mret (200, [field "reservation" (VMap (reservation_to_dict v));
              field "max_frame_bytes" (VInt (max_relay_frame_bytes limits))]).
Definition get_reservation (at_ : moment) (owner : string) (q : AhubRequest) (body : bytes) : SM answer :=
  v ← service_find_relay_reservation (clock at_ 0) (clock at_ 1) q body owner;
  mret (200, [field "reservation" (VMap (reservation_to_dict v))]).
Definition post_packet (at_ : moment) (q : AhubRequest) (body : bytes) : SM answer :=
  rc ← service_submit limits (clock at_ 0) (clock at_ 1) (clock at_ 2) (clock at_ 3) q body;
  mret (200, [field "packet_id" (VStr (cr_packet_id rc));
              field "destination_id" (VStr (cr_destination_id rc));
              field "stored" (VBool (cr_stored rc)); field "expires_ms" (VInt (cr_expires_ms rc));
              field "meaning" (VStr "ahub_custody_only")]).
Definition parse_claim (body : bytes) : res (value * value * option string) :=
  value ← _json_object body MAX_AHUB_JSON_BYTES;
  _bounded_fields value ["limit"; "lease_ms"] ["uploader_id"];;
  integer (dict_get "limit" value) "claim limit must be an integer";;
  integer (dict_get "lease_ms" value) "claim lease must be an integer";;
  uploader ← optional_text (dict_get "uploader_id" value) "claim uploader must be a Node ID string";
  mret (dict_get "limit" value, dict_get "lease_ms" value, uploader).
Definition claims_answer (claimed : list ClaimedPacket) : dict :=
  [field "packets" (VList (VMap ∘ claimed_to_dict <$> claimed))].
Definition post_claim (at_ : moment) (q : AhubRequest) (body : bytes)
    (asked : value * value * option string) : SM answer :=
  let '(limit, lease_ms, uploader) := asked in
  claimed ← service_claim (clock at_ 0) (clock at_ 1) (claim_tokens at_) q body limit lease_ms
              (Some (VInt MAX_WIRE_BYTES)) uploader;
  mret (200, claims_answer claimed).
Definition parse_settlements (body : bytes) : res (value * option string) :=
  value ← _json_object body MAX_AHUB_JSON_BYTES;
  _bounded_fields value ["limit"] ["destination_id"];;
  integer (dict_get "limit" value) "settlement limit must be an integer";;
  destination ← optional_text (dict_get "destination_id" value)
                  "settlement destination must be a Node ID string";
  mret (dict_get "limit" value, destination).
Definition post_settlements (at_ : moment) (q : AhubRequest) (body : bytes)
    (asked : value * option string) : SM answer :=
  proofs ← service_settlements (clock at_ 0) (clock at_ 1) q body asked.1 asked.2;
  mret (200, [field "meaning" (VStr "destination_settlement_only");
              field "settlements" (VList (VMap ∘ settlement_to_dict <$> proofs))]).
Definition post_acknowledgement (at_ : moment) (packet_id : string) (q : AhubRequest) (body : bytes)
    : SM answer :=
  acknowledged ← service_acknowledge_settlement (clock at_ 0) (clock at_ 1) q body packet_id;
  mret (200, [field "acknowledged" (VBool acknowledged)]).
Definition parse_settle (body : bytes) : res (string * DestinationSettlement) :=
  value ← _json_object body MAX_AHUB_JSON_BYTES;
  _bounded_fields value ["claim_token"; "proof"] [];;
  claim_token ← text (dict_get "claim_token" value) "claim token must be a string";
  match dict_get "proof" value with
  | VMap proof => proof ← settlement_from_dict (VMap proof); mret (claim_token, proof)
  | _ => Err (ValueError "settlement proof must be an object")
  end.
Definition post_settle (at_ : moment) (packet_id : string) (q : AhubRequest) (body : bytes)
    (asked : string * DestinationSettlement) : SM answer :=
  settled ← service_settle (clock at_ 0) (clock at_ 1) q body packet_id asked.1 asked.2;
  mret (200, [field "settled" (VBool settled)]).

(** ** Dispatch *)

Inductive route :=
  | Health
  | PutDescriptor (node : string)
  | PutReachability (node : string)
  | GetNode (node : string)
  | PostReservation
  | GetReservation (owner : string)
  | PostPacket
  | PostClaims
  | PostSettlements
  | PostAcknowledgement (packet_id : string)
  | PostSettle (packet_id : string).
Definition arg_route (used : bool) (f : string → route) (arg : option string) (next : option route)
    : option route :=
  match arg with Some a => if used then Some (f a) else next | None => next end.
(** The branch that [_dispatch] takes *)
Definition route_of (method path : string) : option route :=
  let by_ m := String.eqb method m in
  let at_ p := String.eqb path p in
  if by_ "GET" && at_ "/healthz" then Some Health
  else arg_route (by_ "PUT") PutDescriptor (DESCRIPTOR_PATH_RE path) (
  arg_route (by_ "PUT") PutReachability (REACHABILITY_PATH_RE path) (
  arg_route (by_ "GET") GetNode (NODE_PATH_RE path) (
  if by_ "POST" && at_ "/v1/relay/reservations" then Some PostReservation
  else arg_route (by_ "GET") GetReservation (RELAY_DISCOVERY_PATH_RE path) (
  if by_ "POST" && at_ "/v1/mailbox" then Some PostPacket
  else if by_ "POST" && at_ "/v1/mailbox/claims" then Some PostClaims
  else if by_ "POST" && at_ "/v1/mailbox/settlements" then Some PostSettlements
  else arg_route (by_ "POST") PostAcknowledgement (SETTLEMENT_ACK_PATH_RE path) (
  arg_route (by_ "POST") PostSettle (SETTLE_PATH_RE path) None))))).
Definition _dispatch (at_ : moment) (method path : string) (headers : list (string * string))
    (body : bytes) : SM answer :=
  let auth := lift (request_from_headers headers method path body) in
  match route_of method path with
  | None => mthrow (LookupError "unknown Ahub route")
  | Some Health => get_health at_ body
  | Some (PutDescriptor node) => put_descriptor_route at_ node body
  | Some (PutReachability node) => put_reachability_route at_ node body
  | Some (GetNode node) => q ← auth; get_node at_ node q body
  | Some PostReservation =>
      asked ← lift (parse_reserve body); q ← auth; post_reservation at_ q body asked
  | Some (GetReservation owner) =>
      lift (raise_if (negb (String.eqb body "")) (ValueError "Relay discovery body must be empty"));;
      q ← auth; get_reservation at_ owner q body
  | Some PostPacket => q ← auth; post_packet at_ q body
  | Some PostClaims => asked ← lift (parse_claim body); q ← auth; post_claim at_ q body asked
  | Some PostSettlements =>
      asked ← lift (parse_settlements body); q ← auth; post_settlements at_ q body asked
  | Some (PostAcknowledgement id) =>
      lift (raise_if (negb (String.eqb body ""))
        (ValueError "settlement acknowledgement body must be empty"));;
      q ← auth; post_acknowledgement at_ id q body
  | Some (PostSettle id) =>
      asked ← lift (parse_settle body); q ← auth; post_settle at_ id q body asked
  end.

(** The [except] clauses of [__call__] *)
Definition refusal (error detail : string) : dict :=
  [field "error" (VStr error); field "detail" (VStr detail)].
Definition error_answer (e : exn) : answer :=
  match e with
  | PermissionError detail => (403, refusal "forbidden" detail)
  | InvalidSignature => (403, [field "error" (VStr "invalid_signature")])
  | LookupError detail => (404, refusal "not_found" detail)
  | KeyError detail => (404, refusal "not_found" (py_repr (VStr detail)))
  | OverflowError detail => (429, refusal "quota_exceeded" detail)
  | ValueError detail => (400, refusal "invalid_request" detail)
  | RuntimeError _ | TypeError _ | IntegrityError | OperationalError =>
      (500, [field "error" (VStr "internal_error")])
  end.
(** An HTTP request, once its body is read: the answer and the state after it *)
Definition http_call (at_ : moment) (method path : string) (headers : list (string * string))
    (body : res bytes) (s : service) : answer * service :=
  match body with
  | Err e => (error_answer e, s)
  | Ok body =>
      match _dispatch at_ method path headers body s with
      | (Ok a, s') => (a, s')
      | (Err e, s') => (error_answer e, s')
      end
  end.
(** A WebSocket request up to [relay.handle]: the reservation the relay is called with, and the
    close code and reason of every exception *)
Definition websocket_open (read now : Z) (path query : string) (headers : list (string * string))
    : SM (RelayReservation * string) :=
  id ← lift (of_option (LookupError "unknown Relay route")
               (if String.eqb query "" then RELAY_PATH_RE path else None));
  q ← lift (request_from_headers headers "GET" path "");
  v ← service_authorize_relay read now q "" id;
  mret (v, q_node_id q).
Definition websocket_close (e : exn) : Z * string :=
  match e with
  | PermissionError _ | InvalidSignature => (4403, "forbidden")
  | LookupError _ | KeyError _ => (4404, "not_found")
  | OverflowError _ | ValueError _ => (4400, "invalid_request")
  | RuntimeError _ | TypeError _ | IntegrityError | OperationalError => (1011, "internal_error")
  end.
End http.
