(* ===== verification/AhubHttpLaws.v ===== *)
(** What the hub's HTTP front guarantees (src/anet/ahub_http.py, [AhubService] of
    src/anet/ahub.py): every answer on behalf of a node is to a request signed by the key of its
    current descriptor, a refused request changes nothing, and whatever is asked, the two stores
    only see histories of their own operations. *)
From S2P Require Import Prelude PyStr PyVal Codecs Locator Schema Packet ControlPlane ControlStore ControlReads Ahub AhubStore AhubRun AhubLaws AhubService AhubHttp.

Section http_laws.
Context {PL : Platform} {DG : Digests} {SG : Signatures} {UL : Urllib} (limits : AhubLimits).

(** ** The service's operations on the two stores *)

Lemma caller_ok now q s d s' :
  caller now q s = (Ok d, s') → s' = s ∧ current_descriptor now (q_node_id q) (control s) = Ok (Some d).
Proof.
  unfold caller, find_descriptor. intros H. st_inv. unfold gets in *. simplify_eq.
  destruct a as [d'|]; simpl in *; by simplify_eq.
Qed.
Lemma caller_err now q s e s' : caller now q s = (Err e, s') → s' = s.
Proof.
  unfold caller, find_descriptor. cbv [mbind ST_bind gets lift]. intros H.
  destruct (current_descriptor _ _ _) as [[d|]|x]; simpl in H; by simplify_eq.
Qed.
(** It returns only for a request that the hub accepts, with this descriptor and body. *)
Definition serves {A} (now : Z) (q : AhubRequest) (d : NodeDescriptor) (body : bytes) (m : HM A) : Prop :=
  ∀ s a s', m s = (Ok a, s') → accepted now q d body s.
Lemma serves_lift {A B} now q d body (r : res A) (f : A → HM B) :
  (∀ a, r = Ok a → serves now q d body (f a)) → serves now q d body (lift r ≫= f).
Proof. intros Hf s b s' H. st_inv. by eapply Hf. Qed.
Lemma serves_authenticated {A} now q d body (m : HM A) : serves now q d body (authenticated now q d body m).
Proof. intros s a s' H. by apply authenticated_ok in H as [Hacc _]. Qed.
(** An operation on behalf of a node: the caller's current descriptor, then one call of the
    hub's store *)
Definition on_behalf_of {A} (read now : Z) (q : AhubRequest) (body : bytes) (m : SM A) : Prop :=
  ∃ f : NodeDescriptor → HM A,
    (∀ d, on_behalf limits now q A (f d) ∧ serves now q d body (f d)) ∧
    m = (d ← caller read q; on_ahub (f d)).
Definition served (read now : Z) (q : AhubRequest) (body : bytes) (s s' : service) : Prop :=
  ∃ d, current_descriptor read (q_node_id q) (control s) = Ok (Some d) ∧
    accepted now q d body (ahub s) ∧ control s' = control s ∧
    ahub_nonces (ahub s') !! (q_node_id q, q_nonce q) = Some (q_issued_ms q).
Lemma behalf_of_ok {A} read now q body (m : SM A) s a s' :
  on_behalf_of read now q body m → m s = (Ok a, s') → served read now q body s s'.
Proof.
  intros (f & Hf & ->) H. apply st_bind_ok in H as (d & s1 & [-> Hd]%caller_ok & H).
  unfold on_ahub in H. destruct (f d (ahub s)) as [r h] eqn:E. simplify_eq.
  destruct (Hf d) as [Hb Hs]. destruct (on_behalf_served limits _ _ _ _ _ _ _ Hb E) as (_ & _ & _ & Hn).
  exists d. split_and!; [done|by eapply Hs|done..].
Qed.
Lemma behalf_of_err {A} read now q body (m : SM A) s e s' :
  on_behalf_of read now q body m → m s = (Err e, s') → s' = s.
Proof.
  intros (f & Hf & ->). unfold mbind, ST_bind at 1. destruct (caller read q s) as [[d|e'] s1] eqn:Hc.
  - apply caller_ok in Hc as [-> Hd]. unfold on_ahub. destruct (f d (ahub s)) as [r h] eqn:E.
    intros [= -> <-]. apply (on_behalf_err limits now q A) in E as ->; [by destruct s|apply Hf].
  - apply caller_err in Hc as ->. intros [= -> <-]. done.
Qed.
Ltac behalf_of :=
  eexists; split; [|reflexivity]; intros ?; split; [constructor|];
  unfold authenticate, submit, claim, settle, settlements, acknowledge_settlement,
    reserve_relay, authorize_relay, find_relay_reservation;
  repeat (apply serves_lift; intros ? ?); try apply serves_authenticated.
Lemma behalf_of_reserve read now token q body peer ttl duration bytes_limit :
  on_behalf_of read now q body
    (service_reserve_relay limits read now token q body peer ttl duration bytes_limit).
Proof. behalf_of. Qed.
Lemma behalf_of_authorize read now q body id :
  on_behalf_of read now q body (service_authorize_relay read now q body id).
Proof. behalf_of. Qed.
Lemma behalf_of_find read now q body owner :
  on_behalf_of read now q body (service_find_relay_reservation read now q body owner).
Proof. behalf_of. Qed.
Lemma behalf_of_submit read now inspected inspected' q raw :
  on_behalf_of read now q raw (service_submit limits read now inspected inspected' q raw).
Proof.
  behalf_of. replace raw with (info_raw a); [apply serves_authenticated|].
  by eapply inspect_packet_raw.
Qed.
Lemma behalf_of_claim read now tokens q body limit lease_ms max_bytes uploader :
  on_behalf_of read now q body (service_claim read now tokens q body limit lease_ms max_bytes uploader).
Proof. behalf_of. Qed.
Lemma behalf_of_settle read now q body id token proof :
  on_behalf_of read now q body (service_settle read now q body id token proof).
Proof. behalf_of. Qed.
Lemma behalf_of_settlements read now q body limit destination :
  on_behalf_of read now q body (service_settlements read now q body limit destination).
Proof. behalf_of. Qed.
Lemma behalf_of_acknowledge read now q body id :
  on_behalf_of read now q body (service_acknowledge_settlement read now q body id).
Proof. behalf_of. Qed.

(** ** Routes *)

(** The routes on behalf of a node; the others are health and the two self-signed objects. *)
Definition signed_route (r : route) : Prop :=
  match r with Health | PutDescriptor _ | PutReachability _ => False | _ => True end.
Definition lookup_route (r : route) : Prop := match r with GetNode _ => True | _ => False end.
#[local] Instance signed_route_dec r : Decision (signed_route r).
Proof. destruct r; simpl; apply _. Defined.
#[local] Instance lookup_route_dec r : Decision (lookup_route r).
Proof. destruct r; simpl; apply _. Defined.
(** A branch for a signed request refuses at once, or it is one operation on behalf of the
    signer with the body as it came. *)
Definition signed_branch (at_ : moment) (auth : res AhubRequest) (body : bytes) (m : SM answer)
    (s : service) : Prop :=
  (∃ e, m s = (Err e, s)) ∨
  ∃ q A (op : SM A) (f : A → answer), auth = Ok q ∧
    on_behalf_of (clock at_ 0) (clock at_ 1) q body op ∧ (∀ a, (f a).1 = 200) ∧
    m s = (a ← op; mret (f a)) s.
Lemma signed_branch_lift {A} at_ auth body (r : res A) (m : A → SM answer) s :
  (∀ a, signed_branch at_ auth body (m a) s) → signed_branch at_ auth body (lift r ≫= m) s.
Proof.
  intros Hm. destruct r as [a|e]; [apply Hm|]. left. by exists e.
Qed.
Lemma signed_branch_auth at_ auth body (m : AhubRequest → SM answer) s :
  (∀ q, ∃ A (op : SM A) (f : A → answer), on_behalf_of (clock at_ 0) (clock at_ 1) q body op ∧
     (∀ a, (f a).1 = 200) ∧ m q = (a ← op; mret (f a))) →
  signed_branch at_ auth body (lift auth ≫= m) s.
Proof.
  intros Hm. destruct auth as [q|e]; [|left; by exists e]. right.
  destruct (Hm q) as (A & op & f & Hop & Hf & E). exists q, A, op, f. split_and!; try done.
  unfold mbind, ST_bind, lift. by rewrite E.
Qed.
Lemma dispatch_signed at_ method path headers body r s :
  route_of method path = Some r → signed_route r → ¬ lookup_route r →
  signed_branch at_ (request_from_headers headers method path body) body
    (_dispatch limits at_ method path headers body) s.
Proof.
  intros Hr Hs Hl. unfold _dispatch. rewrite Hr.
  destruct r; try done; 
    repeat (first [apply signed_branch_auth|apply signed_branch_lift]; intros ?).
  - destruct a as [[[peer ttl] duration] bytes_limit]. eexists _, _, _.
    split; [apply behalf_of_reserve|]. split; [|reflexivity]. done.
  - eexists _, _, _. split; [apply behalf_of_find|]. split; [|reflexivity]. done.
  - eexists _, _, _. split; [apply behalf_of_submit|]. split; [|reflexivity]. done.
  - destruct a as [[limit lease] uploader]. eexists _, _, _.
    split; [apply behalf_of_claim|]. split; [|reflexivity]. done.
  - eexists _, _, _. split; [apply behalf_of_settlements|]. split; [|reflexivity]. done.
  - eexists _, _, _. split; [apply behalf_of_acknowledge|]. split; [|reflexivity]. done.
  - eexists _, _, _. split; [apply behalf_of_settle|]. split; [|reflexivity]. done.
Qed.

(** *** The routes that are not one operation of a signed request *)

Lemma service_authenticate_ok read now q body s d s' :
  service_authenticate read now q body s = (Ok d, s') → served read now q body s s'.
Proof.
  unfold service_authenticate. intros H. st_inv.
  eapply (behalf_of_ok _ _ _ _ (d ← caller read q; on_ahub (authenticate now q d body))); [behalf_of|].
  unfold mbind, ST_bind at 1. rewrite E. done.
Qed.
Lemma service_authenticate_err read now q body s e s' :
  service_authenticate read now q body s = (Err e, s') → s' = s.
Proof.
  intros H. apply (behalf_of_err read now q body (d ← caller read q; on_ahub (authenticate now q d body)) _ e);
    [behalf_of|]. revert H. unfold service_authenticate, mbind, ST_bind.
  destruct (caller read q s) as [[d|x] s1]; [|intros; by simplify_eq].
  destruct (on_ahub _ s1) as [[a|x] s2]; intros; by simplify_eq.
Qed.
Lemma require_allowed_same node s : (on_ahub (_require_allowed node) s).2 = s.
Proof.
  unfold on_ahub. destruct (require_allowed_run node (ahub s)) as [(-> & _)|(e & -> & _)]; by destruct s.
Qed.
(** After the authentication of a lookup nothing is written any more. *)
Lemma lookup_run read now found reached q body target s r s' :
  service_lookup read now found reached q body target s = (r, s') →
  (s' = s ∧ ∃ e, r = Err e) ∨ served read now q body s s'.
Proof.
  unfold service_lookup. unfold mbind, ST_bind at 1. intros H.
  destruct (service_authenticate read now q body s) as [[d|e] s1] eqn:Ha.
  - right. apply service_authenticate_ok in Ha.
    assert (s' = s1) as ->; [|done]. revert H. unfold mbind, ST_bind.
    destruct (on_ahub (_require_allowed target) s1) as [[u|e] s2] eqn:Hn;
      pose proof (require_allowed_same target s1) as Hs; rewrite Hn in Hs; simpl in Hs; subst s2;
      [|by intros [= _ ->]].
    unfold find_descriptor, gets, lift, mbind, ST_bind.
    repeat case_match; by intros [= _ ->].
  - left. apply service_authenticate_err in Ha as ->. simplify_eq. eauto.
Qed.
Lemma publish_descriptor_run now d s :
  (∃ digest, publish_descriptor now d s = (Ok true, Service (accept_descriptor now d (control s)).2 (ahub s)) ∧
     descriptor_digest d = Ok digest) ∨
  (∃ r, publish_descriptor now d s = (r, s) ∧ r ≠ Ok true).
Proof.
  unfold publish_descriptor, mbind, ST_bind.
  destruct (on_ahub (_require_allowed (d_node_id d)) s) as [[u|e] s1] eqn:Hn;
    pose proof (require_allowed_same (d_node_id d) s) as Hs; rewrite Hn in Hs; simpl in Hs; subst s1;
    [|right; exists (Err e); split; [reflexivity|discriminate]]. unfold on_control.
  destruct (accept_descriptor_run now d (control s)) as [(digest & json & -> & _ & Hd & _)|(x & -> & Hx)].
  - left. by exists digest.
  - right. exists x. split; [by destruct s|done].
Qed.
Lemma publish_reachability_run read now v s :
  (∃ d digest, publish_reachability read now v s =
     (Ok true, Service (accept_reachability now v d (control s)).2 (ahub s)) ∧
     reachability_digest v = Ok digest) ∨
  (∃ r, publish_reachability read now v s = (r, s) ∧ r ≠ Ok true).
Proof.
  unfold publish_reachability, find_descriptor, mbind, ST_bind, gets, lift.
  destruct (on_ahub (_require_allowed (r_node_id v)) s) as [[u|e] s1] eqn:Hn;
    pose proof (require_allowed_same (r_node_id v) s) as Hs; rewrite Hn in Hs; simpl in Hs; subst s1;
    [|right; exists (Err e); split; [reflexivity|discriminate]].
  destruct (current_descriptor read (r_node_id v) (control s)) as [[d|]|e]; simpl;
    [|right; eexists; split; [reflexivity|discriminate]..].
  unfold on_control. destruct (accept_reachability_run now v d (control s))
    as [(digest & json & E & _ & _ & Hd & _)|(x & E & Hx)]; rewrite E.
  - left. exists d, digest. by rewrite E.
  - right. exists x. split; [by destruct s|done].
Qed.

(** ** Requests *)

(** The state after one request, whatever the answer: the operations that ran on the stores *)
Definition stores_run (at_ : moment) (s s' : service) : Prop :=
  hub_run limits (λ t, t = clock at_ 1) (ahub s) (ahub s') ∧ control_run (control s) (control s').
Lemma stores_same at_ s : stores_run at_ s s.
Proof. split; apply rtc_refl. Qed.
Lemma behalf_of_stores {A} at_ q body (m : SM A) s :
  on_behalf_of (clock at_ 0) (clock at_ 1) q body m → stores_run at_ s (m s).2.
Proof.
  intros (f & Hf & ->). unfold mbind, ST_bind. destruct (caller _ q s) as [[d|e] s1] eqn:Hc.
  - apply caller_ok in Hc as [-> _]. unfold on_ahub. destruct (f d (ahub s)) as [r h] eqn:E.
    split; [|apply rtc_refl]. apply rtc_once. exists (clock at_ 1). split; [done|].
    exists A, (f d). split; [by eapply on_behalf_call, Hf|]. by rewrite E.
  - apply caller_err in Hc as ->. apply stores_same.
Qed.
Lemma signed_branch_run at_ auth body m s r s' :
  signed_branch at_ auth body m s → m s = (r, s') → stores_run at_ s s' ∧
  match r with
  | Ok a => a.1 = 200 ∧ ∃ q, auth = Ok q ∧ served (clock at_ 0) (clock at_ 1) q body s s'
  | Err _ => s' = s
  end.
Proof.
  intros [[e E]|(q & A & op & f & Hq & Hop & Hf & E)] H; rewrite H in E; clear H.
  - simplify_eq. split; [apply stores_same|done].
  - pose proof (behalf_of_stores at_ q body op s Hop) as Hrun. symmetry in E.
    unfold mbind, ST_bind in E. destruct (op s) as [[a|e] s1] eqn:Ho.
    + injection E as <- <-. split; [done|]. split; [apply Hf|]. exists q. split; [done|].
      by eapply behalf_of_ok.
    + injection E as <- <-. split; [done|]. by eapply behalf_of_err.
Qed.
Lemma get_node_run at_ auth node body s r s' :
  (q ← lift auth; get_node at_ node q body) s = (r, s') → stores_run at_ s s' ∧
  match r with
  | Ok a => a.1 = 200 ∧ ∃ q, auth = Ok q ∧ served (clock at_ 0) (clock at_ 1) q body s s'
  | Err _ => s' = s ∨ ∃ q, auth = Ok q ∧ served (clock at_ 0) (clock at_ 1) q body s s'
  end.
Proof.
  destruct auth as [q|e]; [|intros [= <- <-]; split; [apply stores_same|by left]].
  unfold lift, mbind, ST_bind, get_node. intros H. cbv beta iota in H. revert H.
  unfold mbind, ST_bind. destruct (service_lookup _ _ _ _ q body node s) as [x s1] eqn:Hl.
  intros H. assert (s' = s1 ∧ match r with Ok a => a.1 = 200 ∧ is_Ok x | Err _ => True end) as [-> Hr].
  { destruct x as [a|e]; injection H as <- <-; [|done]. split; [done|]. split; [done|by eexists]. }
  assert (stores_run at_ s s1) as Hrun.
  { pose proof (behalf_of_stores at_ q body (d ← caller (clock at_ 0) q;
      on_ahub (authenticate (clock at_ 1) q d body)) s ltac:(behalf_of)) as Hauth.
    destruct (lookup_run _ _ _ _ _ _ _ _ _ _ Hl) as [[-> _]|Hserved]; [apply stores_same|].
    revert Hl Hauth. unfold service_lookup, service_authenticate, mbind, ST_bind.
    destruct (caller (clock at_ 0) q s) as [[d|e] s2]; [|by intros [= _ <-]].
    destruct (on_ahub (authenticate _ q d body) s2) as [[u|e] s3]; [|by intros [= _ <-]].
    cbn [mret ST_ret snd]. destruct (on_ahub (_require_allowed node) s3) as [[u'|e] s4] eqn:Hn;
      pose proof (require_allowed_same node s3) as Hs; rewrite Hn in Hs; simpl in Hs; subst s4;
      [|by intros [= _ <-]]. unfold find_descriptor, gets, lift, mbind, ST_bind.
    repeat case_match; by intros [= _ <-]. }
  split; [done|]. destruct (lookup_run _ _ _ _ _ _ _ _ _ _ Hl) as [[-> [e ->]]|Hserved].
  - destruct r as [a|e']; [|by left]. destruct Hr as [_ [x Hx]]. done.
  - destruct r as [a|e']; [|right]; [split; [apply Hr|]|]; by exists q.
Qed.
Definition put_outcome (at_ : moment) (s : service) (r : res answer) (s' : service) : Prop :=
  stores_run at_ s s' ∧ match r with Ok a => a.1 = 200 | Err _ => s' = s end.
Lemma put_outcome_lift {A} at_ s (r : res A) (m : A → SM answer) :
  (∀ a, put_outcome at_ s (m a s).1 (m a s).2) →
  put_outcome at_ s ((lift r ≫= m) s).1 ((lift r ≫= m) s).2.
Proof. intros Hm. destruct r as [a|e]; [apply Hm|]. split; [apply stores_same|done]. Qed.
Lemma put_outcome_publish at_ s (m : SM bool) (digest : res bytes) s1 raw (f : bool → bytes → dict) :
  (m s = (Ok true, s1) ∧ digest = Ok raw ∧ stores_run at_ s s1) ∨ (∃ r, m s = (r, s) ∧ r ≠ Ok true) →
  let n := b ← m; raw ← lift digest; mret (200, f b raw) in
  put_outcome at_ s (n s).1 (n s).2.
Proof.
  intros [(E & -> & Hrun)|(r & E & Hr)] n; subst n; unfold mbind, ST_bind; rewrite E.
  - by split.
  - destruct r as [b|e]; [|split; [apply stores_same|done]].
    destruct digest as [raw'|e]; split; try done; apply stores_same.
Qed.
Lemma offer_run at_ s o :
  stores_run at_ s (Service (store_accept o (control s)).2 (ahub s)).
Proof. split; [apply rtc_refl|]. apply rtc_once. by exists o. Qed.
Lemma service_put_descriptor_run at_ node body s r s' :
  put_descriptor_route at_ node body s = (r, s') → put_outcome at_ s r s'.
Proof.
  intros H. assert (r = (put_descriptor_route at_ node body s).1 ∧
    s' = (put_descriptor_route at_ node body s).2) as [-> ->] by (by rewrite H).
  unfold put_descriptor_route. do 3 (apply put_outcome_lift; intros ?). 
  destruct (publish_descriptor_run (clock at_ 1) a0 s) as [(digest & E & Hd)|Hr].
  - eapply put_outcome_publish. left. split_and!; [exact E|exact Hd|].
    apply (offer_run at_ s (OfferDescriptor _ _)).
  - apply (put_outcome_publish at_ s _ _ s ""). by right.
Qed.
Lemma service_put_reachability_run at_ node body s r s' :
  put_reachability_route at_ node body s = (r, s') → put_outcome at_ s r s'.
Proof.
  intros H. assert (r = (put_reachability_route at_ node body s).1 ∧
    s' = (put_reachability_route at_ node body s).2) as [-> ->] by (by rewrite H).
  unfold put_reachability_route, find_descriptor.
  match goal with |- put_outcome _ _ (mbind ?k _ s).1 _ =>
    change (put_outcome at_ s ((lift (current_descriptor (clock at_ 0) node (control s)) ≫= k) s).1
      ((lift (current_descriptor (clock at_ 0) node (control s)) ≫= k) s).2) end.
  do 5 (apply put_outcome_lift; intros ?).
  destruct (publish_reachability_run (clock at_ 2) (clock at_ 3) a2 s) as [(d & digest & E & Hd)|Hr].
  - eapply put_outcome_publish. left. split_and!; [exact E|exact Hd|].
    apply (offer_run at_ s (OfferReachability _ _ _)).
  - apply (put_outcome_publish at_ s _ _ s ""). by right.
Qed.
(** What a request may do, by its branch *)
Lemma dispatch_run at_ method path headers body s r s' :
  _dispatch limits at_ method path headers body s = (r, s') → stores_run at_ s s' ∧
  match r with
  | Ok a => (a.1 = 200 ∨ s' = s) ∧ (∃ k, route_of method path = Some k ∧
      (signed_route k → a.1 = 200 ∧ ∃ q, request_from_headers headers method path body = Ok q ∧
         served (clock at_ 0) (clock at_ 1) q body s s'))
  | Err _ => s' = s ∨ ∃ node q, route_of method path = Some (GetNode node) ∧
      request_from_headers headers method path body = Ok q ∧
      served (clock at_ 0) (clock at_ 1) q body s s'
  end.
Proof.
  destruct (route_of method path) as [k|] eqn:Hk.
  2: { unfold _dispatch. rewrite Hk. intros [= <- <-]. split; [apply stores_same|by left]. }
  destruct (decide (lookup_route k)) as [Hl|Hl].
  { destruct k as [| | |node| | | | | | |]; try done. unfold _dispatch. rewrite Hk. intros H.
    destruct (get_node_run _ _ _ _ _ _ _ H) as [Hrun Hr]. split; [done|].
    destruct r as [a|e]; [split; [left; apply Hr|eauto]|]. destruct Hr as [->|(q & Hq & Hs)]; [by left|right; eauto]. }
  destruct (decide (signed_route k)) as [Hs|Hs].
  { intros H. destruct (signed_branch_run _ _ _ _ _ _ _
      (dispatch_signed at_ method path headers body k s Hk Hs Hl) H) as [Hrun Hr].
    split; [done|]. destruct r as [a|e]; [split; [left; apply Hr|eauto]|by left]. }
  assert (∀ r, put_outcome at_ s r s' → stores_run at_ s s' ∧
    match r with Ok a => a.1 = 200 ∧ ∃ k', Some k = Some k' ∧ (signed_route k' → False) | Err _ => s' = s end) as Hput.
  { intros x [Hrun Hx]. split; [done|]. destruct x as [a|e]; [|done]. split; [done|]. by exists k. }
  unfold _dispatch. rewrite Hk. destruct k; try done; intros H.
  - unfold get_health in H. assert (s' = s ∧ (∀ e, r = Err e → True)) as [-> _].
    { revert H. unfold mbind, ST_bind, lift. destruct (raise_if _ _); by intros [= _ <-]. }
    split; [apply stores_same|]. destruct r as [a|e]; [|by left]. split; [by right|]. by eexists.
  - apply service_put_descriptor_run, Hput in H as [Hrun H]. split; [done|].
    destruct r as [a|e]; [|by left]. destruct H as (H200 & k' & Hk' & Hno). split; [by left|]. exists k'. by split.
  - apply service_put_reachability_run, Hput in H as [Hrun H]. split; [done|].
    destruct r as [a|e]; [|by left]. destruct H as (H200 & k' & Hk' & Hno). split; [by left|]. exists k'. by split.
Qed.
Lemma error_answer_status e : 400 ≤ (error_answer e).1.
Proof. destruct e; simpl; lia. Qed.
Lemma request_from_headers_line headers method path body q :
  request_from_headers headers method path body = Ok q →
  q_method q = upper method ∧ q_path q = path ∧ q_body_sha256 q = sha256 body.
Proof.
  unfold request_from_headers. intros H. res_inv. subst q. simpl.
  match goal with H : _validate_method _ = Ok _ |- _ => unfold _validate_method in H; res_inv end.
  match goal with H : _validate_path _ = Ok _ |- _ => unfold _validate_path in H; res_inv end.
  by subst.
Qed.

(** C9: the front serves only signed requests: a route that reads or changes anything on behalf
    of a node answers with a status below 400 only to headers that carry a request for exactly
    this method, path and body, accepted by the hub under the key of the current descriptor of
    a node on the allowlist, with a nonce that was not used before and is used then. *)
Theorem http_serves_signed at_ method path headers body s status reply s' r :
  http_call limits at_ method path headers (Ok body) s = ((status, reply), s') →
  route_of method path = Some r → signed_route r → status < 400 →
  ∃ q, request_from_headers headers method path body = Ok q ∧
    q_method q = upper method ∧ q_path q = path ∧ q_body_sha256 q = sha256 body ∧
    served (clock at_ 0) (clock at_ 1) q body s s'.
Proof.
  unfold http_call. intros H Hr Hs Hst.
  destruct (_dispatch _ _ _ _ _ _ s) as [[a|e] s1] eqn:Hd.
  - injection H as Ha <-. apply dispatch_run in Hd as (_ & _ & k & Hk & Hserved).
    assert (k = r) as -> by congruence. destruct (Hserved Hs) as (_ & q & Hq & Hacc).
    exists q. split; [done|]. destruct (request_from_headers_line _ _ _ _ _ Hq) as (? & ? & ?). done.
  - injection H as Ha <-. pose proof (error_answer_status e) as He. rewrite Ha in He. simpl in He. lia.
Qed.
(** C10: a refused request changes nothing: whatever the answer is, if it is not 200 both stores
    are as before, except that a node lookup whose caller was accepted has used up its nonce
    when the target is then refused. *)
Theorem http_refusal_changes_nothing at_ method path headers body s status reply s' :
  http_call limits at_ method path headers body s = ((status, reply), s') → status ≠ 200 →
  s' = s ∨ ∃ node q raw, route_of method path = Some (GetNode node) ∧ body = Ok raw ∧
    request_from_headers headers method path raw = Ok q ∧
    served (clock at_ 0) (clock at_ 1) q raw s s'.
Proof.
  unfold http_call. intros H Hst. destruct body as [body|e]; [|left; congruence].
  destruct (_dispatch _ _ _ _ _ _ s) as [[a|e] s1] eqn:Hd; injection H as Ha <-;
    apply dispatch_run in Hd as [_ Hd].
  - destruct Hd as [[H200| ->] _]; [|by left]. destruct Hst. by rewrite Ha in H200.
  - destruct Hd as [->|(node & q & Hk & Hq & Hs)]; [by left|right]. by exists node, q, body.
Qed.

(** ** Histories *)

(** What can happen to the hub: HTTP requests, WebSocket openings, and the operator *)
Inductive service_step (s : service) : service → Prop :=
  | step_http at_ method path headers body :
      service_step s (http_call limits at_ method path headers body s).2
  | step_websocket read now path query headers :
      service_step s (websocket_open read now path query headers s).2
  | step_allow now node : service_step s (service_allow_node now node s).2
  | step_disallow now node : service_step s (service_disallow_node now node s).2.
Lemma http_call_run at_ method path headers body s :
  stores_run at_ s (http_call limits at_ method path headers body s).2.
Proof.
  unfold http_call. destruct body as [body|e]; [|apply stores_same].
  destruct (_dispatch _ _ _ _ _ _ s) as [[a|e] s1] eqn:Hd; by apply dispatch_run in Hd as [Hrun _].
Qed.
Lemma websocket_run read now path query headers s :
  hub_run limits (λ _, True) (ahub s) (ahub (websocket_open read now path query headers s).2) ∧
  control (websocket_open read now path query headers s).2 = control s.
Proof.
  set (at_ := {| clock := λ n, match n with O => read | _ => now end; relay_token := "";
                 claim_tokens := λ _, ""; healthy := true |}).
  unfold websocket_open, mbind, ST_bind, lift.
  destruct (of_option _ _) as [id|e]; [|split; [apply rtc_refl|done]].
  destruct (request_from_headers _ _ _ _) as [q|e]; [|split; [apply rtc_refl|done]].
  pose proof (behalf_of_authorize read now q "" id) as Hb.
  pose proof (behalf_of_stores at_ q "" _ s Hb) as [Hrun _].
  assert (control (service_authorize_relay read now q "" id s).2 = control s) as Hc.
  { destruct (service_authorize_relay read now q "" id s) as [[v|e] s1] eqn:E.
    - destruct (behalf_of_ok _ _ _ _ _ _ _ _ Hb E) as (d & _ & _ & Hc & _). exact Hc.
    - apply (behalf_of_err _ _ _ _ _ _ _ _ Hb) in E as ->. done. }
  destruct (service_authorize_relay read now q "" id s) as [[v|e] s1]; (split; [|exact Hc]);
    (eapply rtc_subrel; [|exact Hrun]); intros x y (t & _ & Hxy); by exists t.
Qed.
Lemma service_step_run s s' :
  service_step s s' → hub_run limits (λ _, True) (ahub s) (ahub s') ∧ control_run (control s) (control s').
Proof.
  assert (∀ now A (m : HM A), hub_call limits now A m →
    hub_run limits (λ _, True) (ahub s) (ahub (on_ahub m s).2) ∧
    control_run (control s) (control (on_ahub m s).2)) as Hop.
  { intros now A m Hm. unfold on_ahub. destruct (m (ahub s)) as [r h] eqn:E. simpl.
    split; [|apply rtc_refl]. apply rtc_once. exists now. split; [done|]. exists A, m.
    split; [done|]. by rewrite E. }
  destruct 1 as [at_ method path headers body|read now path query headers|now node|now node].
  - destruct (http_call_run at_ method path headers body s) as [Hh Hc]. split; [|done].
    eapply rtc_subrel; [|exact Hh]. intros x y (t & _ & Hxy). by exists t.
  - destruct (websocket_run read now path query headers s) as [Hh Hc]. split; [done|].
    rewrite Hc. apply rtc_refl.
  - apply (Hop now bool). constructor.
  - apply (Hop now bool). constructor.
Qed.
Lemma service_run s s' :
  rtc service_step s s' → hub_run limits (λ _, True) (ahub s) (ahub s') ∧ control_run (control s) (control s').
Proof.
  induction 1 as [x|x y z Hxy _ [IH1 IH2]]; [split; apply rtc_refl|].
  apply service_step_run in Hxy as [H1 H2]. split; by etrans.
Qed.
(** The hub is a composition: over HTTP, WebSocket and the operator's commands, its mailbox
    store only goes through histories of its own operations and its control store through
    accepted offers, so that everything proved of them holds of the running service: the
    tables are consistent and within their quotas, and every stored object verified. *)
Theorem service_refines_stores s :
  new_limits limits = Ok limits → rtc service_step new_service s →
  hub_reachable limits (ahub s) ∧ control_run new_control_db (control s) ∧
  hub_ok limits (ahub s) ∧ control_ok (control s).
Proof.
  intros Hl Hrun.
  pose proof (service_run new_service s Hrun) as [Hh Hc].
  split_and!; [by split|done|by apply hub_reachable_ok|by apply control_run_ok].
Qed.
End http_laws.
