(* ===== verification/AhubHttpSamples.v ===== *)
(** The hub's HTTP front at work: two nodes publish their descriptors and one uploads a packet
    for the other, with the theorems of AhubHttpLaws at these requests. *)
From S2P Require Import Prelude PyStr PyVal Codecs Locator Schema Packet ControlPlane ControlStore ControlReads Ahub AhubStore AhubRun AhubLaws AhubSamples AhubService AhubHttp AhubHttpLaws.

#[local] Existing Instances sample_digests sample_signatures sample_urls.
#[local] Instance http_platform : Platform := sample_platform [("raw", VMap hub_outer)].
Definition moment_at (now : Z) : moment :=
  {| clock := λ _, now; relay_token := "00"; claim_tokens := sample_tokens; healthy := true |}.
Definition publish (i : Identity) (s : service) : answer * service :=
  http_call default_limits (moment_at 1500) "PUT" ("/v1/descriptors/" +:+ node_id i) []
    (ahub_json (VMap (descriptor_to_dict (described_by i)))) s.
Definition allowed : service :=
  (service_allow_node 1000 (node_id bob) (service_allow_node 1000 (node_id alice) new_service).2).2.
Definition published : service := (publish bob (publish alice allowed).2).2.
Definition upload_headers : list (string * string) := request_to_headers upload.
Definition upload_request (now : Z) (s : service) : answer * service :=
  http_call default_limits (moment_at now) "POST" "/v1/mailbox" upload_headers (Ok "raw") s.
Example published_ok : (publish alice allowed).1.1 = 200 ∧ (publish bob (publish alice allowed).2).1.1 = 200.
Proof. vm_compute. by split. Qed.
Example uploaded_ok : (upload_request 2000 published).1 =
  (200, [field "packet_id" (VStr hub_packet_id); field "destination_id" (VStr (node_id bob));
         field "stored" (VBool true); field "expires_ms" (VInt 60000);
         field "meaning" (VStr "ahub_custody_only")]).
Proof. vm_compute. reflexivity. Qed.
Example replayed :
  (upload_request 2000 (upload_request 2000 published).2).1.1 = 403.
Proof. vm_compute. reflexivity. Qed.

Lemma http_serves_signed_witness : ∃ s', served 2000 2000 upload "raw" published s'.
Proof.
  pose proof uploaded_ok as Hok. unfold upload_request in Hok.
  destruct (http_call default_limits (moment_at 2000) "POST" "/v1/mailbox" upload_headers (Ok "raw") published)
    as [[status reply] s'] eqn:E. injection Hok as Hstatus _.
  assert (request_from_headers upload_headers "POST" "/v1/mailbox" "raw" = Ok upload) as Hup
    by (vm_compute; reflexivity).
  destruct (http_serves_signed default_limits (moment_at 2000) "POST" "/v1/mailbox" upload_headers "raw"
    published status reply s' PostPacket E) as (q & Hq & _ & _ & _ & Hs);
    [vm_compute; reflexivity|exact I|clear -Hstatus; lia|].
  exists s'. rewrite Hup in Hq. injection Hq as <-. exact Hs.
Defined.
Lemma http_refusal_changes_nothing_witness : ∃ s reply,
  upload_request 2000 s = ((403, reply), s) ∧ s ≠ published.
Proof.
  pose proof replayed as Hrep. pose proof uploaded_ok as Hok.
  assert (ahub_mailbox (ahub (upload_request 2000 published).2) !! hub_packet_id ≠ None) as Hne
    by (vm_compute; discriminate).
  destruct (upload_request 2000 published) as [a s1] eqn:E1. cbn [snd] in *.
  destruct (upload_request 2000 s1) as [[status reply] s2] eqn:E2. cbn [fst] in Hrep. subst status.
  pose proof E2 as E3. unfold upload_request in E3.
  destruct (http_refusal_changes_nothing default_limits (moment_at 2000) "POST" "/v1/mailbox" upload_headers
    (Ok "raw") s1 403 reply s2 E3) as [Hs|(n & q & raw & Hr & _)]; [clear; lia| |discriminate Hr].
  exists s1, reply. split; [clear -E2 Hs; by subst s2|]. intros Hp. apply Hne. clear -Hp. subst s1. vm_compute. reflexivity.
Defined.
Lemma service_refines_stores_witness : ∃ s,
  rtc (service_step default_limits) new_service s ∧ hub_reachable default_limits (ahub s) ∧
  control_node_descriptors (control s) ≠ ∅.
Proof.
  assert (rtc (service_step default_limits) new_service (publish alice allowed).2) as Hrun.
  { eapply rtc_r; [|apply step_http]. eapply rtc_r; [|apply step_allow].
    eapply rtc_r; [apply rtc_refl|apply step_allow]. }
  exists (publish alice allowed).2. split; [exact Hrun|].
  split; [exact (proj1 (service_refines_stores default_limits _ eq_refl Hrun))|].
  intros He. assert (control_node_descriptors (control (publish alice allowed).2) !! node_id alice = None)
    as Hn by (by rewrite He). by vm_compute in Hn.
Defined.
