(* ===== verification/AhubRate.v ===== *)
(** The request rate limiter of the hub's front (src/anet/ahub_http.py [AhubRateLimiter]): token
    buckets in an ordered dictionary, oldest first, pruned when stale and evicted when there
    are too many.  Seconds and tokens are rationals. *)
From Stdlib Require Import QArith.QArith QArith.Qround QArith.Qminmax Lqa.
From S2P Require Import Prelude PyStr PyVal Codecs Locator Schema Packet ControlPlane ControlStore ControlReads Ahub AhubStore AhubRun AhubService AhubHttp.
Local Open Scope Z_scope.

Definition DEFAULT_AHUB_REQUESTS_PER_MINUTE : Z := 600.
Definition DEFAULT_AHUB_REQUEST_BURST : Z := 120.
Definition MAX_AHUB_RATE_LIMIT_BUCKETS : Z := 10000.

Record AhubRateLimit := {
  requests_per_minute : Z;
  burst : Z;
  max_buckets : Z;
}.
(** [AhubRateLimit.__post_init__] *)
Definition new_rate_limit (c : AhubRateLimit) : res AhubRateLimit :=
  raise_if (existsb (λ v, v <=? 0) [requests_per_minute c; burst c; max_buckets c])
    (ValueError "Ahub rate limits must be positive integers");;
  raise_if (MAX_AHUB_RATE_LIMIT_BUCKETS <? max_buckets c)
    (ValueError "Ahub rate-limit bucket count is too large");;
  mret c.
Definition default_rate_limit : AhubRateLimit :=
  {| requests_per_minute := DEFAULT_AHUB_REQUESTS_PER_MINUTE; burst := DEFAULT_AHUB_REQUEST_BURST;
     max_buckets := MAX_AHUB_RATE_LIMIT_BUCKETS |}.

Record bucket := { tokens : Q; updated : Q }.
(** [OrderedDict[str, _RateBucket]], first item first *)
Abbreviation buckets_t := (list (string * bucket)).
Record limiter := { buckets : buckets_t; limited_requests : Z }.
Definition new_limiter : limiter := {| buckets := []; limited_requests := 0 |}.

Section limiter.
Context (config : AhubRateLimit).

Definition rate_per_second : Q := inject_Z (requests_per_minute config) / 60.
Definition full : Q := inject_Z (burst config).
Definition stale_after : Q := Qmax 60 (full / rate_per_second * 2).
(** [_prune]: stale items leave from the front, up to the first that is not *)
Fixpoint _prune (now : Q) (l : buckets_t) : buckets_t :=
  match l with
  | [] => []
  | (_, b) :: rest => if Qle_bool (now - updated b) stale_after then l else _prune now rest
  end.
(** [while len(self._buckets) >= max_buckets: popitem(last=False)] *)
Fixpoint evict (l : buckets_t) : buckets_t :=
  match l with
  | [] => []
  | _ :: rest => if max_buckets config <=? Z.of_nat (length l) then evict rest else l
  end.
Fixpoint find_bucket (key : string) (l : buckets_t) : option bucket :=
  match l with
  | [] => None
  | (k, b) :: rest => if String.eqb k key then Some b else find_bucket key rest
  end.
(** [d[key] = b; d.move_to_end(key)] *)
Definition put_last (key : string) (b : bucket) (l : buckets_t) : buckets_t :=
  filter (λ kv, kv.1 ≠ key) l ++ [(key, b)].
(** [str(key)[:512] or "unknown"] *)
Definition normalized (key : string) : string :=
  let k := substring 0 512 key in if String.eqb k "" then "unknown" else k.
Definition refill (now : Q) (b : bucket) : Q :=
  Qmin full (tokens b + Qmax 0 (now - updated b) * rate_per_second).
(** [allow]: whether the request may pass, and after how many seconds to come back *)
Definition allow (now : Q) (key : string) (s : limiter) : bool * Z * limiter :=
  let key := normalized key in
  let kept := _prune now (buckets s) in
  let '(kept, available) :=
    match find_bucket key kept with
    | None => (evict kept, full)
    | Some b => (kept, refill now b)
    end in
  if negb (Qle_bool 1 available) then
    (false, Z.max 1 (Qceiling ((1 - available) / rate_per_second)),
     {| buckets := put_last key {| tokens := available; updated := now |} kept;
        limited_requests := limited_requests s + 1 |})
  else
    (true, 0,
     {| buckets := put_last key {| tokens := available - 1; updated := now |} kept;
        limited_requests := limited_requests s |}).
(** [AhubRateLimiter.status] *)
Definition limiter_status (s : limiter) : dict :=
  [field "active_buckets" (VInt (Z.of_nat (length (buckets s))));
   field "limited_requests" (VInt (limited_requests s))].
End limiter.

(** ** The front behind its limiter *)

Record front := { limiter_of : limiter; service_of : service }.
(** [_rate_limit_key] *)
Definition _rate_limit_key (client : option string) : string :=
  "peer:" +:+ match client with Some host => substring 0 255 host | None => "unknown" end.
Section front.
Context {PL : Platform} {DG : Digests} {SG : Signatures} {UL : Urllib} (limits : AhubLimits).
Context (config : AhubRateLimit).
(** [AhubASGI.__call__] for an HTTP request at the time [now] of the limiter's clock: the answer
    and the [retry-after] header *)
Definition front_call (now : Q) (client : option string) (at_ : moment) (method path : string)
    (headers : list (string * string)) (body : res bytes) (f : front)
    : answer * option Z * front :=
  let '(allowed, retry_after, l) := allow config now (_rate_limit_key client) (limiter_of f) in
  if allowed then
    let '(a, s) := http_call limits at_ (upper method) path headers body (service_of f) in
    (a, None, {| limiter_of := l; service_of := s |})
  else
    ((429, refusal "rate_limited" "request rate limit exceeded"), Some retry_after,
     {| limiter_of := l; service_of := service_of f |}).
End front.

(** ** Token buckets without a table *)

Section limiter_laws.
Context (config : AhubRateLimit) (Hconfig : new_rate_limit config = Ok config).
Abbreviation rate := (rate_per_second config).
Abbreviation full := (full config).
Abbreviation refill := (refill config).

(** The reference: every key has its own bucket, full at first, forever. *)
Definition ideal_allow (now : Q) (key : string) (m : gmap string bucket) : bool * Z * gmap string bucket :=
  let key := normalized key in
  let available := match m !! key with Some b => refill now b | None => full end in
  if Qle_bool 1 available
  then (true, 0, <[key := {| tokens := available - 1; updated := now |}]> m)
  else (false, Z.max 1 (Qceiling ((1 - available) / rate)),
        <[key := {| tokens := available; updated := now |}]> m).
(** A sequence of requests, with the answers *)
Definition request : Type := Q * string.
Fixpoint answers {S} (step : Q → string → S → bool * Z * S) (rs : list request) (s : S)
    : list (bool * Z) :=
  match rs with
  | [] => []
  | (now, key) :: rest => let '(a, s') := step now key s in a :: answers step rest s'
  end.
(** The clock does not go back. *)
Fixpoint forwards (since : Q) (rs : list request) : Prop :=
  match rs with [] => True | (now, _) :: rest => (since <= now)%Q ∧ forwards now rest end.

Lemma config_pos : 0 < requests_per_minute config ∧ 1 ≤ burst config ∧ 1 ≤ max_buckets config.
Proof.
  pose proof Hconfig as H. unfold new_rate_limit in H. res_inv. bool_prop.
  match goal with H : existsb _ _ = false |- _ => simpl in H end. bool_prop. lia.
Qed.
Lemma rate_pos : (0 < rate)%Q.
Proof.
  unfold rate_per_second. apply Qlt_shift_div_l; [done|]. rewrite Qmult_0_l.
  change 0%Q with (inject_Z 0). rewrite <- Zlt_Qlt. apply config_pos.
Qed.
Lemma full_pos : (1 <= full)%Q.
Proof. unfold full. change 1%Q with (inject_Z 1). rewrite <- Zle_Qle. apply config_pos. Qed.

Definition sound (t : Q) (b : bucket) : Prop := (0 <= tokens b <= full ∧ updated b <= t)%Q.
Lemma refill_bounds t b : sound t b → (0 <= refill t b <= full)%Q.
Proof.
  intros [[H0 H1] Hu]. unfold refill. pose proof rate_pos. split; [|apply Q.le_min_l].
  apply Q.min_glb; [pose proof full_pos; lra|].
  assert (0 <= Qmax 0 (t - updated b) * rate)%Q by (apply Qmult_le_0_compat; [apply Q.le_max_l|lra]). lra.
Qed.
(** Filling up to [t] and from there to [t'] is filling up to [t']. *)
Lemma refill_twice t t' b : sound t b → (t <= t')%Q →
  (refill t' b == Qmin full (refill t b + (t' - t) * rate))%Q.
Proof.
  intros [[H0 H1] Hu] Ht. unfold refill. pose proof rate_pos as Hr.
  rewrite !Q.max_r by lra.
  assert (0 <= (t' - t) * rate)%Q by (apply Qmult_le_0_compat; lra).
  assert (tokens b + (t' - updated b) * rate ==
    (tokens b + (t - updated b) * rate) + (t' - t) * rate)%Q as -> by ring.
  set (y := (tokens b + (t - updated b) * rate)%Q). set (d := ((t' - t) * rate)%Q) in *.
  destruct (Q.min_spec full y) as [[Hy ->]|[Hy ->]]; [|done].
  rewrite !Q.min_l by lra. done.
Qed.
Lemma refill_now t x : (x <= full)%Q → (refill t {| tokens := x; updated := t |} == x)%Q.
Proof.
  intros Hx. unfold refill. cbn [tokens updated].
  rewrite Q.max_l by lra. rewrite Qmult_0_l, Qplus_0_r. by apply Q.min_r.
Qed.
(** A stale bucket is full again: dropping it changes nothing. *)
Lemma refill_stale t t' b : sound t b → (t <= t')%Q → (stale_after config < t - updated b)%Q →
  (refill t' b == full)%Q.
Proof.
  intros [[H0 H1] Hu] Ht Hs. unfold refill. pose proof rate_pos as Hr.
  rewrite Q.max_r by lra. apply Q.min_l.
  assert (full / rate * 2 < t' - updated b)%Q as Hlt.
  { eapply Qle_lt_trans; [apply (Q.le_max_r 60)|]. unfold stale_after in Hs.
    eapply Qlt_le_trans; [exact Hs|lra]. }
  assert (full / rate * 2 * rate <= (t' - updated b) * rate)%Q as Hm by (apply Qmult_le_compat_r; lra).
  assert (full / rate * 2 * rate == full * 2)%Q as E by (field; lra).
  rewrite E in Hm. pose proof full_pos. lra.
Qed.

(** ** The table *)

Lemma find_bucket_elem key b l : NoDup l.*1 → find_bucket key l = Some b ↔ (key, b) ∈ l.
Proof.
  induction l as [|[k c] l IH]; [by split; [|intros ?%elem_of_nil]|].
  rewrite fmap_cons, NoDup_cons. intros [Hk Hnd]. simpl in *. rewrite elem_of_cons.
  destruct (String.eqb_spec k key) as [->|Hne].
  - split; [intros [= ->]; by left|]. intros [[= ->]|Hin]; [done|].
    destruct Hk. exact (list_elem_of_fmap_2 fst _ _ Hin).
  - rewrite IH by done. split; [by right|]. by intros [[= ? _]|?].
Qed.
Lemma find_bucket_None key l : find_bucket key l = None ↔ key ∉ l.*1.
Proof.
  induction l as [|[k b] l IH]; [by split; [intros _ ?%elem_of_nil|]|].
  rewrite fmap_cons, not_elem_of_cons. simpl. destruct (String.eqb_spec k key) as [->|Hne]; [naive_solver|].
  rewrite IH. naive_solver.
Qed.
Lemma find_put_last key k b l :
  find_bucket k (put_last key b l) = if decide (k = key) then Some b else find_bucket k l.
Proof.
  unfold put_last. induction l as [|[k' b'] l IH].
  - simpl. case_decide as Hk; [subst; by rewrite String.eqb_refl|].
    by destruct (String.eqb_spec key k) as [->|].
  - rewrite filter_cons. simpl. destruct (decide (k' ≠ key)) as [Hne|Heq%dec_stable].
    + simpl. rewrite IH. destruct (String.eqb_spec k' k) as [->|]; [|done]. by rewrite decide_False.
    + rewrite IH. subst k'. destruct (String.eqb_spec key k) as [->|]; [|done]. by rewrite !decide_True.
Qed.
Lemma put_last_keys key b l : NoDup l.*1 → NoDup (put_last key b l).*1 ∧
  ∀ k, k ∈ (put_last key b l).*1 → k = key ∨ k ∈ l.*1.
Proof.
  intros Hnd. unfold put_last. rewrite fmap_app. simpl. split.
  - apply NoDup_app. split_and!; [|intros k Hk Hin|apply NoDup_singleton].
    + eapply sublist_NoDup; [exact Hnd|]. apply fmap_sublist, sublist_filter.
    + apply list_elem_of_singleton in Hin as ->. apply list_elem_of_fmap in Hk as ([k c] & -> & Hk).
      by apply list_elem_of_filter in Hk as [? _].
  - intros k [Hk| ->%list_elem_of_singleton]%elem_of_app; [right|by left].
    apply list_elem_of_fmap in Hk as ([k' c] & -> & Hk). apply list_elem_of_filter in Hk as [_ Hk].
    exact (list_elem_of_fmap_2 fst _ _ Hk).
Qed.
Lemma prune_sublist now l : _prune config now l `sublist_of` l.
Proof.
  induction l as [|[k b] l IH]; [done|]. simpl. destruct (Qle_bool _ _); [done|].
  by apply sublist_cons.
Qed.
Lemma find_pruned now key l : NoDup l.*1 →
  find_bucket key (_prune config now l) = find_bucket key l ∨
  find_bucket key (_prune config now l) = None ∧
    ∃ b, find_bucket key l = Some b ∧ (stale_after config < now - updated b)%Q.
Proof.
  induction l as [|[k b] l IH]; intros Hnd; [by left|]. simpl.
  destruct (Qle_bool (now - updated b) _) eqn:Hb; [by left|].
  rewrite fmap_cons, NoDup_cons in Hnd. destruct Hnd as [Hk Hnd]. simpl in Hk.
  destruct (String.eqb_spec k key) as [->|Hne]; [right|by apply IH].
  apply find_bucket_None in Hk. split.
  - destruct (IH Hnd) as [->|[-> _]]; done.
  - exists b. split; [done|]. apply Qnot_le_lt. by rewrite <- Qle_bool_iff, Hb.
Qed.
Lemma evict_room l : Z.of_nat (length l) < max_buckets config → evict config l = l.
Proof. intros Hl. destruct l as [|kb l]; [done|]. cbn [evict]. by apply Z.leb_gt in Hl as ->. Qed.

(** ** The table shows the ideal buckets *)

Definition level (t : Q) (o : option bucket) : Q := match o with Some b => refill t b | None => full end.
Definition sound_at (t : Q) (o : option bucket) : Prop := match o with Some b => sound t b | None => True end.
Lemma level_later t t' o : sound_at t o → (t <= t')%Q →
  (level t' o == Qmin full (level t o + (t' - t) * rate))%Q.
Proof.
  destruct o as [b|]; intros Hs Ht; [by apply refill_twice|]. simpl. pose proof rate_pos.
  assert (0 <= (t' - t) * rate)%Q by (apply Qmult_le_0_compat; lra). symmetry. apply Q.min_l. lra.
Qed.
Lemma sound_later t t' o : sound_at t o → (t <= t')%Q → sound_at t' o.
Proof. destruct o as [b|]; [|done]. intros [? ?] Ht. split; [done|]. eapply Qle_trans; eauto. Qed.
Lemma level_bounds t o : sound_at t o → (0 <= level t o <= full)%Q.
Proof.
  destruct o as [b|]; [apply refill_bounds|]. intros _. simpl. pose proof full_pos. split; lra.
Qed.
Lemma level_eq_later t t' o o' : sound_at t o → sound_at t o' → (t <= t')%Q →
  (level t o == level t o')%Q → (level t' o == level t' o')%Q.
Proof. intros Ho Ho' Ht E. rewrite !(level_later t t') by done. by rewrite E. Qed.

Section table.
Context (keys : list string) (Hkeys : Z.of_nat (length keys) ≤ max_buckets config).
Record shows (t : Q) (l : buckets_t) (m : gmap string bucket) : Prop := {
  sh_nodup : NoDup l.*1;
  sh_keys : ∀ k, k ∈ l.*1 → k ∈ keys;
  sh_table : ∀ k, sound_at t (find_bucket k l);
  sh_ideal : ∀ k, sound_at t (m !! k);
  sh_level : ∀ k, (level t (find_bucket k l) == level t (m !! k))%Q;
}.
Lemma shows_new t : shows t [] ∅.
Proof. split; [constructor|by intros k ?%elem_of_nil|done|intros k; by rewrite lookup_empty..]. Qed.
Lemma shows_pruned t now l m : shows t l m → (t <= now)%Q → shows now (_prune config now l) m.
Proof.
  intros [Hnd Hk Ht Hi Hl] Hnow. pose proof (prune_sublist now l) as Hsub. split.
  - eapply sublist_NoDup; [exact Hnd|]. by apply fmap_sublist.
  - intros k Hin. apply Hk. eapply sublist_subseteq; [|exact Hin]. by apply fmap_sublist.
  - intros k. destruct (find_pruned now k l Hnd) as [->|[-> _]]; [|done]. by eapply sound_later.
  - intros k. by eapply sound_later.
  - intros k. rewrite <- (level_eq_later t now _ _ (Ht k) (Hi k) Hnow (Hl k)).
    destruct (find_pruned now k l Hnd) as [->|[-> (b & Hb & Hs)]]; [done|]. specialize (Ht k).
    rewrite Hb in Ht |- *. simpl in *. symmetry. eapply refill_stale; [by eapply (sound_later t now (Some b))|lra|done].
Qed.
Lemma shows_put now key x x' l m : shows now l m → key ∈ keys → (x == x')%Q → (0 <= x <= full)%Q →
  shows now (put_last key {| tokens := x; updated := now |} l) (<[key := {| tokens := x'; updated := now |}]> m).
Proof.
  intros [Hnd Hk Ht Hi Hl] Hin E Hx. destruct (put_last_keys key {| tokens := x; updated := now |} l Hnd)
    as [Hnd' Hk']. split; [done|..].
  - intros k [-> | ?]%Hk'; auto.
  - intros k. rewrite find_put_last. case_decide; [|done]. by split; simpl; [|lra].
  - intros k. destruct (decide (k = key)) as [->|Hne]; [rewrite lookup_insert_eq|by rewrite lookup_insert_ne].
    split; simpl; [by rewrite <- E|lra].
  - intros k. rewrite find_put_last. destruct (decide (k = key)) as [->|Hne].
    + rewrite lookup_insert_eq. simpl. rewrite !refill_now by (rewrite <- ?E; lra). done.
    + by rewrite lookup_insert_ne.
Qed.
(** One request: the same answer, and the table still shows the ideal buckets. *)
Lemma allow_shows t now key s m :
  shows t (buckets s) m → (t <= now)%Q → normalized key ∈ keys →
  let '(a, s') := allow config now key s in let '(a', m') := ideal_allow now key m in
  a = a' ∧ shows now (buckets s') m'.
Proof.
  intros Hs Ht Hin. apply (shows_pruned t now) in Hs; [|done]. unfold allow, ideal_allow.
  set (k := normalized key) in *. set (kept := _prune config now (buckets s)) in *.
  fold (level now (m !! k)).
  assert (match find_bucket k kept with None => (evict config kept, full) | Some b => (kept, refill now b) end =
    (kept, level now (find_bucket k kept))) as ->.
  { destruct (find_bucket k kept) as [b|] eqn:Hb; [done|]. rewrite evict_room; [done|].
    apply find_bucket_None in Hb.
    assert (NoDup (k :: kept.*1)) as Hnd by (apply NoDup_cons; split; [done|apply Hs]).
    assert (length (k :: kept.*1) ≤ length keys)%nat as Hlen.
    { apply submseteq_length, NoDup_submseteq; [done|]. intros x [->|Hx]%elem_of_cons; [done|].
      by apply (sh_keys _ _ _ Hs). }
    simpl in Hlen. rewrite length_fmap in Hlen. lia. }
  pose proof (sh_level _ _ _ Hs k) as E. pose proof (level_bounds now _ (sh_table _ _ _ Hs k)) as Hb.
  set (x := level now (find_bucket k kept)) in *. set (x' := level now (m !! k)) in *.
  assert (Qle_bool 1 x = Qle_bool 1 x') as Ebool by (by rewrite E).
  rewrite Ebool. destruct (Qle_bool 1 x') eqn:Hx; cbn [negb buckets].
  - split; [done|]. apply shows_put; [done|done|by rewrite E|].
    apply Qle_bool_iff in Hx. rewrite <- E in Hx. split; lra.
  - split; [by rewrite E|]. by apply shows_put.
Qed.
Lemma answers_shows t rs s m :
  shows t (buckets s) m → forwards t rs → Forall (λ r, normalized r.2 ∈ keys) rs →
  answers (allow config) rs s = answers ideal_allow rs m.
Proof.
  revert t s m. induction rs as [|[now key] rs IH]; intros t s m Hs Hf Hk; [done|].
  destruct Hf as [Ht Hf]. apply Forall_cons in Hk as [Hk Hks]. cbn [answers].
  pose proof (allow_shows t now key s m Hs Ht Hk) as H.
  destruct (allow config now key s) as [a s']. destruct (ideal_allow now key m) as [a' m'].
  destruct H as [-> H]. f_equal. by eapply IH.
Qed.
End table.

(** ** What the limiter promises *)

Fixpoint after {S} (step : Q → string → S → bool * Z * S) (rs : list request) (s : S) : S :=
  match rs with [] => s | (now, key) :: rest => after step rest (step now key s).2 end.
(** How many requests of [key] passed *)
Fixpoint passed (key : string) (rs : list request) (answered : list (bool * Z)) : Z :=
  match rs, answered with
  | (_, k) :: rs, (ok, _) :: answered =>
      (if ok && String.eqb (normalized k) key then 1 else 0) + passed key rs answered
  | _, _ => 0
  end.
Lemma ideal_sound t now key m : (∀ k, sound_at t (m !! k)) → (t <= now)%Q →
  ∀ k, sound_at now ((ideal_allow now key m).2 !! k).
Proof.
  intros Hm Ht k. unfold ideal_allow. fold (level now (m !! normalized key)).
  pose proof (level_bounds now _ (sound_later t now _ (Hm (normalized key)) Ht)) as Hb.
  destruct (Qle_bool 1 _) eqn:Hx; cbn [snd]; (destruct (decide (normalized key = k)) as [<-|Hne];
    [rewrite lookup_insert_eq|rewrite lookup_insert_ne by done; by eapply sound_later]).
  - apply Qle_bool_iff in Hx. split; cbn [tokens updated]; [split; lra|lra].
  - split; cbn [tokens updated]; [split; lra|lra].
Qed.
Lemma ideal_level now key m k : (∀ k, sound_at now (m !! k)) →
  let '(ok, _, m') := ideal_allow now key m in
  (inject_Z (if ok && String.eqb (normalized key) k then 1 else 0) + level now (m' !! k) ==
   level now (m !! k))%Q.
Proof.
  intros Hm. unfold ideal_allow. fold (level now (m !! normalized key)).
  pose proof (level_bounds now _ (Hm (normalized key))) as Hb.
  destruct (Qle_bool 1 _) eqn:Hx; cbn [snd andb]; (destruct (String.eqb_spec (normalized key) k) as [<-|Hne];
    [rewrite lookup_insert_eq|rewrite lookup_insert_ne by done; change (inject_Z 0) with 0%Q; ring]).
  - apply Qle_bool_iff in Hx. cbn [level]. rewrite refill_now by lra. change (inject_Z 1) with 1%Q. ring.
  - cbn [level]. rewrite refill_now by lra. change (inject_Z 0) with 0%Q. ring.
Qed.
Lemma ideal_passed t rs m key until :
  (∀ k, sound_at t (m !! k)) → forwards t rs → (t <= until)%Q → Forall (λ r, r.1 <= until)%Q rs →
  (inject_Z (passed key rs (answers ideal_allow rs m)) <= level t (m !! key) + (until - t) * rate)%Q.
Proof.
  revert t m. induction rs as [|[now k] rs IH]; intros t m Hm Hf Hu Hall.
  - cbn [passed answers]. pose proof (level_bounds t _ (Hm key)). pose proof rate_pos.
    assert (0 <= (until - t) * rate)%Q by (apply Qmult_le_0_compat; lra). change (inject_Z 0) with 0%Q. lra.
  - destruct Hf as [Ht Hf]. apply Forall_cons in Hall as [Hnow Hall]. simpl in Hnow. cbn [answers passed].
    pose proof (ideal_sound t now k m Hm Ht) as Hm'.
    assert (∀ k, sound_at now (m !! k)) as Hmnow by (intros x; by eapply sound_later).
    pose proof (ideal_level now k m key Hmnow) as Hstep.
    destruct (ideal_allow now k m) as [[ok wait] m']. cbn [snd passed] in *.
    specialize (IH now m' Hm' Hf Hnow Hall). rewrite inject_Z_plus.
    pose proof (level_later t now _ (Hm key) Ht) as Hlater.
    assert (level now (m !! key) <= level t (m !! key) + (now - t) * rate)%Q as Hgrow
      by (rewrite Hlater; apply Q.le_min_r).
    assert ((until - t) * rate == (until - now) * rate + (now - t) * rate)%Q as -> by ring. lra.
Qed.
Section history.
Context (keys : list string) (Hkeys : Z.of_nat (length keys) ≤ max_buckets config).
Lemma after_shows t rs s m :
  shows keys t (buckets s) m → forwards t rs → Forall (λ r, normalized r.2 ∈ keys) rs →
  shows keys (default t (fst <$> last rs)) (buckets (after (allow config) rs s)) (after ideal_allow rs m).
Proof.
  revert t s m. induction rs as [|[now key] rs IH]; intros t s m Hs Hf Hk; [done|].
  destruct Hf as [Ht Hf]. apply Forall_cons in Hk as [Hk Hks]. cbn [after].
  pose proof (allow_shows keys Hkeys t now key s m Hs Ht Hk) as H.
  destruct (allow config now key s) as [a s']. destruct (ideal_allow now key m) as [a' m'].
  destruct H as [_ H]. specialize (IH now s' m' H Hf Hks). rewrite last_cons.
  destruct (last rs) as [r|]; exact IH.
Qed.
Lemma forwards_app t rs rs' : forwards t (rs ++ rs') ↔ forwards t rs ∧ forwards (default t (fst <$> last rs)) rs'.
Proof.
  revert t. induction rs as [|[now key] rs IH]; intros t; simpl; [tauto|].
  rewrite IH, last_cons. destruct (last rs); simpl; tauto.
Qed.
End history.

Lemma ideal_level_others t rs m key :
  (∀ k, sound_at t (m !! k)) → forwards t rs → Forall (λ r, normalized r.2 ≠ key) rs →
  after ideal_allow rs m !! key = m !! key.
Proof.
  revert t m. induction rs as [|[now k] rs IH]; intros t m Hm Hf Hk; [done|].
  destruct Hf as [Ht Hf]. apply Forall_cons in Hk as [Hk Hks]. simpl in Hk. cbn [after].
  rewrite (IH now _ (ideal_sound t now k m Hm Ht) Hf Hks). unfold ideal_allow.
  destruct (Qle_bool 1 _); cbn [snd]; by rewrite lookup_insert_ne.
Qed.
Lemma ideal_pass now key m :
  (1 <= level now (m !! normalized key))%Q → (ideal_allow now key m).1 = (true, 0).
Proof. intros H%Qle_bool_iff. unfold ideal_allow. fold (level now (m !! normalized key)). by rewrite H. Qed.
(** A refused request that comes back after the seconds it was told passes. *)
Theorem retry_after_honoured keys t before now key wait refused between later s :
  Z.of_nat (length keys) ≤ max_buckets config → normalized key ∈ keys →
  Forall (λ r, normalized r.2 ∈ keys) (before ++ between) →
  forwards t (before ++ (now, key) :: between ++ [(later, key)]) →
  Forall (λ r, normalized r.2 ≠ normalized key) between → (now + inject_Z wait <= later)%Q →
  allow config now key (after (allow config) before new_limiter) = (false, wait, refused) →
  s = after (allow config) between refused →
  (allow config later key s).1 = (true, 0).
Proof.
  intros Hkeys Hkey [Hb Hw]%Forall_app Hf Hother Hlater Hrefused ->.
  apply forwards_app in Hf as [Hf [Hnow Hf0]]. apply forwards_app in Hf0 as [Hf1 [Hl _]].
  pose proof (after_shows keys Hkeys t before new_limiter ∅ (shows_new keys t) Hf Hb) as Hs.
  set (t' := default t (fst <$> last before)) in *. set (m := after ideal_allow before ∅) in *.
  pose proof (allow_shows keys Hkeys t' now key _ m Hs Hnow Hkey) as Hstep. rewrite Hrefused in Hstep.
  pose proof (ideal_sound t' now key m (sh_ideal _ _ _ _ Hs) Hnow) as Hm1.
  destruct (ideal_allow now key m) as [a m1] eqn:E. destruct Hstep as [<- Hs1]. cbn [snd] in Hm1.
  pose proof (after_shows keys Hkeys now between refused m1 Hs1 Hf1 Hw) as Hs2.
  pose proof (allow_shows keys Hkeys _ later key _ _ Hs2 Hl Hkey) as Hlast.
  destruct (allow config later key _) as [a s']. destruct (ideal_allow later key _) as [a' m2] eqn:E2.
  destruct Hlast as [-> _]. change a' with (a', m2).1. rewrite <- E2. apply ideal_pass.
  rewrite (ideal_level_others now between m1 _ Hm1 Hf1 Hother).
  pose proof rate_pos as Hr. unfold ideal_allow in E. cbv zeta in E. fold (level now (m !! normalized key)) in E.
  pose proof (level_bounds now _ (sound_later t' now _ (sh_ideal _ _ _ _ Hs (normalized key)) Hnow)) as Hbound.
  destruct (Qle_bool 1 _) eqn:Hx; [done|]. apply not_true_iff_false in Hx. rewrite Qle_bool_iff in Hx.
  injection E as <- <-. set (x := level now (m !! normalized key)) in *.
  rewrite lookup_insert_eq. assert (now <= later)%Q as Hnl.
  { assert (0 <= inject_Z (Z.max 1 (Qceiling ((1 - x) / rate))))%Q
      by (change 0%Q with (inject_Z 0); rewrite <- Zle_Qle; lia). lra. }
  cbn [level]. unfold refill. cbn [tokens updated]. apply Q.min_glb; [apply full_pos|].
  rewrite Q.max_r by lra.
  assert ((1 - x) / rate <= inject_Z (Z.max 1 (Qceiling ((1 - x) / rate))))%Q as Hceil.
  { eapply Qle_trans; [apply Qle_ceiling|]. rewrite <- Zle_Qle. lia. }
  assert ((1 - x) / rate * rate <= (later - now) * rate)%Q as Hm by (apply Qmult_le_compat_r; lra).
  assert ((1 - x) / rate * rate == 1 - x)%Q as Eq by (field; lra). rewrite Eq in Hm. lra.
Qed.
End limiter_laws.

(** ** One key at one request a second and a burst of two *)

Definition slow : AhubRateLimit := {| requests_per_minute := 60; burst := 2; max_buckets := 4 |}.
Definition knocks : list request := [(0%Q, "peer:a"); (0%Q, "peer:a"); (0%Q, "peer:a"); (1%Q, "peer:a")].
Example knocks_answered :
  answers (allow slow) knocks new_limiter = [(true, 0); (true, 0); (false, 1); (true, 0)].
Proof. vm_compute. reflexivity. Qed.
Lemma knocks_forwards : forwards 0 knocks.
Proof. unfold knocks, forwards. split_and!; lra. Qed.
