(* ===== verification/AhubClient.v ===== *)
(** The client of the hub (src/anet/ahub_http.py [AhubHTTPClient]) over the HTTP front: each
    method signs its request, sends it, and reads the answer.  The connection is one request to
    [http_call] and one answer; failures of the connection itself are not modelled, nor is the
    rate limiter between the two. *)
From S2P Require Import Prelude PyStr PyVal Codecs Locator Schema Packet ControlPlane ControlStore ControlReads Ahub AhubStore AhubRun AhubService AhubHttp.

(** What a method raises: [AhubHTTPError] or an exception of its own *)
Inductive client_error :=
  | AhubHTTPError (category : string) (status : Z)
  | ClientError (e : exn).
Definition call (A : Type) : Type := service → (A + client_error) * service.
(** Reading the answer, which touches nothing *)
Definition read_with {A B} (m : call A) (f : A → res B) : call B := λ s,
  match m s with
  | (inl a, s') => (match f a with Ok b => inl b | Err e => inr (ClientError e) end, s')
  | (inr e, s') => (inr e, s')
  end.
Definition error_category (status : Z) : string :=
  if (status =? 401) || (status =? 403) then "auth"
  else if status =? 429 then "quota"
  else if status =? 404 then "not_found"
  else if (400 <=? status) && (status <? 500) then "invalid"
  else "server".

(** [value[key]] *)
Definition item_at (k : string) (d : dict) : res value :=
  of_option (KeyError k) (if dict_has k d then Some (dict_get k d) else None).

Definition JSON_TYPE : string := "application/json".

(** The outside of a method call: the client's clock and nonce, and the server's moment *)
Record exchange := { issued : Z; nonce : string; served_at : moment }.

Section client.
Context {PL : Platform} {DG : Digests} {SG : Signatures} {UL : Urllib} (limits : AhubLimits).
Context (identity : Identity) (x : exchange).

(** The answer as the client receives it: a body that cannot be written is a failure of the
    server. *)
Definition receive (a : answer) : dict + client_error :=
  if 400 <=? a.1 then inr (AhubHTTPError (error_category a.1) a.1)
  else
    match ahub_json (VMap a.2) with
    | Err _ => inr (AhubHTTPError "server" 500)
    | Ok raw =>
        match
          raise_if (MAX_AHUB_HTTP_RESPONSE_BYTES <? len raw) (ValueError "Ahub response body is too large");;
          _json_object raw MAX_AHUB_HTTP_RESPONSE_BYTES
        with
        | Ok d => inl d
        | Err e => inr (ClientError e)
        end
    end.
Definition _request (method path : string) (body : bytes) (authenticated : bool) (content_type : string)
    : call dict := λ s,
  let signed :=
    if authenticated
    then q ← issue_ahub_request identity method path body (issued x) (nonce x); mret (request_to_headers q)
    else mret [] in
  match signed with
  | Err e => (inr (ClientError e), s)
  | Ok headers =>
      let data := if String.eqb method "GET" then "" else body in
      match _read_body 0 "" [HttpRequest data false] with
      | None => (inr (AhubHTTPError "transport" 0), s)
      | Some raw =>
          let '(a, s') := http_call limits (served_at x) method path
                            (("Content-Type", content_type) :: headers) raw s in
          (receive a, s')
      end
  end.
(** With a JSON body *)
Definition json_request (method path : string) (value : dict) (authenticated : bool) : call dict := λ s,
  match ahub_json (VMap value) with
  | Ok body => _request method path body authenticated JSON_TYPE s
  | Err e => (inr (ClientError e), s)
  end.

Definition client_publish_descriptor (d : NodeDescriptor) : call bool :=
  read_with (json_request "PUT" ("/v1/descriptors/" +:+ d_node_id d) (descriptor_to_dict d) false)
    (λ value, v ← item_at "accepted" value; mret (truthy v)).
Definition client_publish_reachability (r : ReachabilityRecord) : call bool :=
  read_with (json_request "PUT" ("/v1/reachability/" +:+ r_node_id r) (reachability_to_dict r) false)
    (λ value, v ← item_at "accepted" value; mret (truthy v)).
(** [now] and [now'] are the clock readings of the two [from_dict]. *)
Definition client_lookup (now now' : Z) (node_id : string)
    : call (NodeDescriptor * option ReachabilityRecord) :=
  read_with (_request "GET" ("/v1/nodes/" +:+ node_id) "" true JSON_TYPE)
    (λ value,
      match dict_get "descriptor" value with
      | VMap raw =>
          descriptor ← descriptor_from_dict now (VMap raw);
          match dict_get "reachability" value with
          | VNone => mret (descriptor, None)
          | v => r ← reachability_from_dict now' v descriptor; mret (descriptor, Some r)
          end
      | _ => Err (ValueError "Ahub returned an invalid descriptor")
      end).
Definition reservation_keys : list string :=
  ["reservation_id"; "owner_id"; "allowed_peer_id"; "created_ms"; "expires_ms"; "max_duration_ms";
   "max_bytes_each_direction"].
Definition int_of (k : string) (d : dict) : res Z := py_int (dict_get k d).
(** [_parse_relay_reservation] *)
Definition _parse_relay_reservation (v : value) : res RelayReservation :=
  match v with
  | VMap d =>
      raise_if (negb (exact_keys d reservation_keys))
        (ValueError "Ahub returned invalid Relay reservation fields");;
      created ← int_of "created_ms" d;
      expires ← int_of "expires_ms" d;
      duration ← int_of "max_duration_ms" d;
      bytes_limit ← int_of "max_bytes_each_direction" d;
      new_reservation
        {| rv_reservation_id := text_at "reservation_id" d; rv_owner_id := text_at "owner_id" d;
           rv_allowed_peer_id := text_at "allowed_peer_id" d; rv_created_ms := created;
           rv_expires_ms := expires; rv_max_duration_ms := duration;
           rv_max_bytes_each_direction := bytes_limit |}
  | _ => Err (ValueError "Ahub returned an invalid Relay reservation")
  end.
Definition own_id : string := derive_node_id (i_sign_public identity) (i_box_public identity).
Definition mismatched : exn := ValueError "Ahub returned a mismatched Relay reservation".
Definition client_reserve_relay (peer : string) (ttl_ms duration bytes_limit : Z) : call RelayReservation :=
  read_with (json_request "POST" "/v1/relay/reservations"
      [field "allowed_peer_id" (VStr peer); field "ttl_ms" (VInt ttl_ms);
       field "max_duration_ms" (VInt duration); field "max_bytes_each_direction" (VInt bytes_limit)] true)
    (λ value,
      v ← _parse_relay_reservation (dict_get "reservation" value);
      raise_if (negb (String.eqb (rv_owner_id v) own_id) ||
                negb (String.eqb (rv_allowed_peer_id v) peer)) mismatched;;
      mret v).
Definition client_relay_reservation (owner : string) : call RelayReservation :=
  read_with (_request "GET" ("/v1/relay/reservations/" +:+ owner) "" true JSON_TYPE)
    (λ value,
      v ← _parse_relay_reservation (dict_get "reservation" value);
      raise_if (negb (String.eqb (rv_owner_id v) owner) ||
                negb (String.eqb (rv_allowed_peer_id v) own_id)) mismatched;;
      mret v).
Definition parse_receipt (value : dict) : res CustodyReceipt :=
  raise_if (negb (is_text (dict_get "meaning" value) "ahub_custody_only"))
    (ValueError "Ahub returned an ambiguous custody receipt");;
  id ← item_at "packet_id" value;
  destination ← item_at "destination_id" value;
  stored ← item_at "stored" value;
  expires ← item_at "expires_ms" value;
  expires ← py_int expires;
  mret {| cr_packet_id := py_str id; cr_destination_id := py_str destination;
          cr_stored := truthy stored; cr_expires_ms := expires |}.
Definition client_submit (raw : bytes) : call CustodyReceipt :=
  read_with (_request "POST" "/v1/mailbox" raw true "application/octet-stream") parse_receipt.
Definition parse_claimed (v : value) : res ClaimedPacket :=
  match v with
  | VMap item =>
      id ← item_at "packet_id" item;
      raw ← item_at "raw" item;
      raw ← b64d (py_str raw);
      depth ← item_at "depth" item;
      depth ← py_int depth;
      token ← item_at "claim_token" item;
      until ← item_at "claim_until_ms" item;
      until ← py_int until;
      uploader ← item_at "uploader_id" item;
      expires ← item_at "expires_ms" item;
      expires ← py_int expires;
      mret {| cl_packet_id := py_str id; cl_raw := raw; cl_depth := depth;
              cl_claim_token := py_str token; cl_claim_until_ms := until;
              cl_uploader_id := py_str uploader; cl_expires_ms := expires |}
  | _ => Err (ValueError "Ahub returned invalid mailbox claim")
  end.
Definition parse_claims (value : dict) : res (list ClaimedPacket) :=
  match dict_get "packets" value with
  | VList packets => map_res parse_claimed packets
  | _ => Err (ValueError "Ahub returned invalid mailbox claims")
  end.
Definition claim_request (limit lease_ms : Z) (uploader_id : option string) : dict :=
  [field "lease_ms" (VInt lease_ms); field "limit" (VInt limit)] ++
  match uploader_id with Some u => [field "uploader_id" (VStr u)] | None => [] end.
Definition client_claim (limit lease_ms : Z) (uploader_id : option string) : call (list ClaimedPacket) :=
  read_with (json_request "POST" "/v1/mailbox/claims" (claim_request limit lease_ms uploader_id) true)
    parse_claims.
Definition client_settle (packet_id claim_token : string) (proof : DestinationSettlement) : call bool :=
  read_with (json_request "POST" ("/v1/mailbox/" +:+ packet_id +:+ "/settle")
      [field "claim_token" (VStr claim_token); field "proof" (VMap (settlement_to_dict proof))] true)
    (λ value, v ← item_at "settled" value; mret (truthy v)).
(** [settled] is the clock reading of the proof. *)
Definition settle_claim (settled : Z) (c : ClaimedPacket) : call bool := λ s,
  match issue_destination_settlement identity (cl_packet_id c) (cl_raw c) (cl_uploader_id c)
          (cl_expires_ms c) settled with
  | Ok proof => client_settle (cl_packet_id c) (cl_claim_token c) proof s
  | Err e => (inr (ClientError e), s)
  end.
Definition parse_proofs (value : dict) : res (list DestinationSettlement) :=
  raise_if (negb (is_text (dict_get "meaning" value) "destination_settlement_only"))
    (ValueError "Ahub returned ambiguous settlement state");;
  match dict_get "settlements" value with
  | VList items =>
      raise_if (negb (forallb (λ v, match v with VMap _ => true | _ => false end) items))
        (ValueError "Ahub returned invalid settlement");;
      map_res settlement_from_dict items
  | _ => Err (ValueError "Ahub returned invalid settlements")
  end.
Definition client_settlements (limit : Z) (destination_id : option string)
    : call (list DestinationSettlement) :=
  read_with (json_request "POST" "/v1/mailbox/settlements"
      (field "limit" (VInt limit) ::
       match destination_id with Some n => [field "destination_id" (VStr n)] | None => [] end) true)
    parse_proofs.
Definition client_acknowledge_settlement (packet_id : string) : call bool :=
  read_with (_request "POST" ("/v1/mailbox/settlements/" +:+ packet_id +:+ "/ack") "" true JSON_TYPE)
    (λ value, v ← item_at "acknowledged" value; mret (truthy v)).
End client.
