(* ===== verification/AhubClientLaws.v ===== *)
(** The hub through its client: what the client of src/anet/ahub_http.py signs and writes, the
    front of the same file reads, and what the front answers, the client reads; a claim over
    HTTP is the service's claim, and its answer always fits the client's limit. *)
From S2P Require Import Prelude PyStr PyVal Codecs Locator Schema Packet ControlPlane ControlStore ControlReads Ahub AhubStore AhubRun AhubLaws AhubService AhubHttp AhubHttpLaws AhubClient.

Section client_laws.
Context {PL : Platform} {DG : Digests} {SG : Signatures} {UL : Urllib} (limits : AhubLimits).

(** ** What crosses the wire *)

Lemma wire_int z : fits z → wire (str_of_Z z) ≤ 42.
Proof.
  intros Hz. pose proof (number_length 19 z ltac:(lia)) as Hlen.
  assert (Z.abs z < 10 ^ 19) as Habs.
  { unfold fits in Hz. assert (2 ^ 63 < 10 ^ 19) as Hlt by (vm_compute; reflexivity).
    revert Hz Hlt. clear. generalize (2 ^ 63) (10 ^ 19). intros a b. lia. }
  specialize (Hlen Habs).
  pose proof (wire_length (str_of_Z z)) as H.
  assert (len (str_of_Z z) ≤ 1 + len (str_of_Z (Z.abs z))) as Hsign.
  2: { revert H Hsign Hlen. generalize (len (str_of_Z (Z.abs z))). lia. }
  clear. destruct z as [|p|p]; [vm_compute; discriminate|change (Z.abs (Zpos p)) with (Zpos p); lia|].
  rewrite str_of_neg. change (Z.abs (Zneg p)) with (Zpos p). rewrite str_of_pos, len_append.
  change (len "-") with 1. lia.
Qed.
Lemma number_text z : fits z → len (str_of_Z (Z.abs z)) ≤ 4300.
Proof.
  intros Hz. apply short_number. unfold fits in Hz. pose proof digit_limit as Hlimit. revert Hz Hlimit.
  generalize (10 ^ 4299) (2 ^ 63). intros a b. lia.
Qed.
Lemma dumps_int z : fits z → json_dumps (VInt z) = Ok (str_of_Z z).
Proof.
  intros Hz%number_text. cbn [json_dumps]. apply Z.ltb_ge in Hz. by rewrite Hz.
Qed.
(** The headers of a request are read back as this request. *)
Lemma headers_read_back content_type identity method path body issued_ms nonce q :
  issue_ahub_request identity method path body issued_ms nonce = Ok q → fits issued_ms →
  request_from_headers (("Content-Type", content_type) :: request_to_headers q) method path body = Ok q.
Proof.
  unfold issue_ahub_request. intros H Hi. res_inv. subst q.
  unfold request_from_headers.
  change (header "x-anet-node" ?l) with (Some (derive_node_id (i_sign_public identity) (i_box_public identity))).
  cbn [of_option mbind res_bind].
  change (header "x-anet-issued" ?l) with (Some (str_of_Z issued_ms)).
  change (header "x-anet-nonce" ?l) with (Some nonce). cbn [of_option mbind res_bind].
  match goal with |- context [header "x-anet-signature" (_ :: request_to_headers (sign_request ?sig _))] =>
    change (header "x-anet-signature" ?l) with (Some (b64e sig)) end.
  cbn [of_option mbind res_bind]. rewrite int_of_str_of_Z by by apply number_text.
  cbn [of_option mbind res_bind]. rewrite b64d_b64e. cbn [type_or_value_error mbind res_bind].
  repeat match goal with H : ?r = Ok _ |- context [?r] => rewrite H; cbn [mbind res_bind] end.
  reflexivity.
Qed.

(** *** The claims *)

Definition sorted_claimed (c : ClaimedPacket) : list (string * value) :=
  [("claim_token", VStr (cl_claim_token c)); ("claim_until_ms", VInt (cl_claim_until_ms c));
   ("depth", VInt (cl_depth c)); ("expires_ms", VInt (cl_expires_ms c));
   ("packet_id", VStr (cl_packet_id c)); ("raw", VStr (b64e (cl_raw c)));
   ("uploader_id", VStr (cl_uploader_id c))].
Definition object (kvs : list (string * value)) : value := VMap (prod_map VStr id <$> kvs).
Definition pair_text (p : string * string) : string := json_str p.1 +:+ ":" +:+ p.2.
Definition claimed_text (c : ClaimedPacket) : string :=
  "{" +:+ join "," (pair_text <$>
    [("claim_token", json_str (cl_claim_token c)); ("claim_until_ms", str_of_Z (cl_claim_until_ms c));
     ("depth", str_of_Z (cl_depth c)); ("expires_ms", str_of_Z (cl_expires_ms c));
     ("packet_id", json_str (cl_packet_id c)); ("raw", json_str (b64e (cl_raw c)));
     ("uploader_id", json_str (cl_uploader_id c))]) +:+ "}".
(** What a claimed packet may hold to fit the answer *)
Definition claimed_fits (c : ClaimedPacket) : Prop :=
  fits (cl_claim_until_ms c) ∧ fits (cl_depth c) ∧ fits (cl_expires_ms c) ∧
  len (cl_claim_token c) ≤ 64 ∧ len (cl_packet_id c) ≤ 32 ∧ len (cl_uploader_id c) ≤ 35.
Lemma claimed_dumps c :
  claimed_fits c → json_dumps (VMap (claimed_to_dict c)) = Ok (claimed_text c) ∧
  json_dumps (object (sorted_claimed c)) = Ok (claimed_text c).
Proof.
  intros (Hu & Hd & He & _).
  pose proof (dumps_int _ Hu) as Eu. pose proof (dumps_int _ Hd) as Ed. pose proof (dumps_int _ He) as Ee.
  unfold claimed_to_dict, object, sorted_claimed, claimed_text. unfold field. revert Eu Ed Ee.
  generalize (str_of_Z (cl_claim_until_ms c)) (str_of_Z (cl_depth c)) (str_of_Z (cl_expires_ms c)).
  intros tu td te Eu Ed Ee.
  split; cbn [fmap list_fmap prod_map fst snd id]; remember (VInt (cl_claim_until_ms c)) as vu;
    remember (VInt (cl_depth c)) as vd; remember (VInt (cl_expires_ms c)) as ve;
    cbn [json_dumps map_res mbind res_bind]; rewrite Eu, Ed, Ee; cbn [mbind res_bind mret res_ret];
    generalize (json_str (cl_claim_token c)) (json_str (cl_packet_id c)) (json_str (b64e (cl_raw c)))
      (json_str (cl_uploader_id c)); intros; vm_compute; reflexivity.
Qed.
Lemma sorted_claimed_plain c : json_plain (object (sorted_claimed c)).
Proof.
  constructor.
  - apply (bool_decide_eq_true_1 (NoDup (sorted_claimed c).*1)). vm_compute. reflexivity.
  - vm_compute. reflexivity.
  - repeat first [apply List.Forall_nil|apply List.Forall_cons]; cbn [snd]; constructor.
Qed.
Lemma parse_sorted_claimed c : parse_claimed (object (sorted_claimed c)) = Ok c.
Proof.
  destruct c as [pid raw depth token until uploader expires]. unfold parse_claimed, object, sorted_claimed.
  cbn [fmap list_fmap prod_map id fst snd cl_packet_id cl_raw cl_depth cl_claim_token cl_claim_until_ms
    cl_uploader_id cl_expires_ms].
  change (item_at "packet_id" ?d) with (Ok (VStr pid)). change (item_at "raw" ?d) with (Ok (VStr (b64e raw))).
  change (item_at "depth" ?d) with (Ok (VInt depth)). change (item_at "claim_token" ?d) with (Ok (VStr token)).
  change (item_at "claim_until_ms" ?d) with (Ok (VInt until)).
  change (item_at "uploader_id" ?d) with (Ok (VStr uploader)).
  change (item_at "expires_ms" ?d) with (Ok (VInt expires)).
  cbn [mbind res_bind py_str py_int]. rewrite b64d_b64e. reflexivity.
Qed.
Lemma claimed_wire c : claimed_fits c → 3 * wire (claimed_text c) ≤ 4 * len (cl_raw c) + 4000.
Proof.
  intros (Hu & Hd & He & Ht & Hi & Hn). unfold claimed_text.
  cbn [fmap list_fmap]. unfold pair_text. cbn [fst snd].
  rewrite !join_cons by done. cbn [join]. rewrite !wire_append.
  rewrite (wire_plain (b64e _)) by apply b64e_plain.
  pose proof (wire_json_str (cl_claim_token c)) as H1. pose proof (wire_json_str (cl_packet_id c)) as H2.
  pose proof (wire_json_str (cl_uploader_id c)) as H3. pose proof (b64e_length (cl_raw c)) as H4.
  pose proof (wire_int _ Hu) as H5. pose proof (wire_int _ Hd) as H6. pose proof (wire_int _ He) as H7.
  revert Ht Hi Hn H1 H2 H3 H4 H5 H6 H7.
  generalize (wire (json_str (cl_claim_token c))) (wire (json_str (cl_packet_id c)))
    (wire (json_str (cl_uploader_id c))) (len (b64e (cl_raw c))) (wire (str_of_Z (cl_claim_until_ms c)))
    (wire (str_of_Z (cl_depth c))) (wire (str_of_Z (cl_expires_ms c))).
  intros. repeat match goal with |- context [wire ?t] => let n := eval vm_compute in (wire t) in
    change (wire t) with n end. lia.
Qed.

Definition claims_object (cs : list ClaimedPacket) : value :=
  object [("packets", VList (object ∘ sorted_claimed <$> cs))].
Definition claims_text (cs : list ClaimedPacket) : string :=
  "{" +:+ pair_text ("packets", "[" +:+ join "," (claimed_text <$> cs) +:+ "]") +:+ "}".
Lemma claims_dumps cs : Forall claimed_fits cs →
  json_dumps (VMap (claims_answer cs)) = Ok (claims_text cs) ∧
  json_dumps (claims_object cs) = Ok (claims_text cs).
Proof.
  intros Hcs.
  assert (map_res json_dumps (VMap ∘ claimed_to_dict <$> cs) = Ok (claimed_text <$> cs) ∧
          map_res json_dumps (object ∘ sorted_claimed <$> cs) = Ok (claimed_text <$> cs)) as [H1 H2].
  { induction Hcs as [|c cs Hc _ [IH1 IH2]]; [done|]. destruct (claimed_dumps c Hc) as [E1 E2].
    rewrite !fmap_cons. cbn [map_res].
    change ((VMap ∘ claimed_to_dict) c) with (VMap (claimed_to_dict c)).
    change ((object ∘ sorted_claimed) c) with (object (sorted_claimed c)). by rewrite E1, E2, IH1, IH2. }
  unfold claims_answer, claims_object, claims_text, field.
  set (l1 := VMap ∘ claimed_to_dict <$> cs) in *. set (l2 := object ∘ sorted_claimed <$> cs) in *.
  assert (object [("packets", VList l2)] = VMap [(VStr "packets", VList l2)]) as -> by reflexivity.
  generalize dependent (claimed_text <$> cs). intros ts H1 H2.
  split; cbn [json_dumps map_res mbind res_bind]; [rewrite H1|rewrite H2]; reflexivity.
Qed.
Lemma claims_object_plain cs : json_plain (claims_object cs).
Proof.
  constructor; [apply (bool_decide_eq_true_1 _); vm_compute; reflexivity|reflexivity|].
  constructor; [|constructor]. constructor. induction cs; constructor; [apply sorted_claimed_plain|done].
Qed.
Lemma parse_claims_object cs :
  parse_claims (prod_map VStr id <$> [("packets", VList (object ∘ sorted_claimed <$> cs))]) = Ok cs.
Proof.
  unfold parse_claims. cbn [fmap list_fmap prod_map fst snd id].
  change (dict_get "packets" ?d) with (VList (object ∘ sorted_claimed <$> cs)).
  cbv iota. induction cs as [|c cs IH]; [done|]. rewrite fmap_cons. cbn [map_res].
  change ((object ∘ sorted_claimed) c) with (object (sorted_claimed c)).
  rewrite parse_sorted_claimed. cbn [mbind res_bind]. by rewrite IH.
Qed.
(** A claim's answer is at most a third larger than the packets. *)
Lemma claims_wire cs : Forall claimed_fits cs →
  3 * wire (claims_text cs) ≤
    4 * foldr (λ c n, len (cl_raw c) + n) 0 cs + 4003 * Z.of_nat (length cs) + 60.
Proof.
  intros Hcs. unfold claims_text, pair_text. cbn [fst snd]. rewrite !wire_append.
  pose proof (wire_join (claimed_text <$> cs)) as Hjoin.
  assert (3 * foldr (λ t n, wire t + 1 + n) 0 (claimed_text <$> cs) ≤
    4 * foldr (λ c n, len (cl_raw c) + n) 0 cs + 4003 * Z.of_nat (length cs)) as Hsum.
  { induction Hcs as [|c cs Hc _ IH]; [done|]. rewrite fmap_cons. cbn [foldr length].
    pose proof (claimed_wire c Hc). specialize (IH (wire_join _)). lia. }
  revert Hjoin Hsum. generalize (wire (join "," (claimed_text <$> cs))). intros w Hjoin Hsum.
  repeat match goal with |- context [wire ?t] => let n := eval vm_compute in (wire t) in
    change (wire t) with n end. lia.
Qed.
(** The client reads the claims that the route answered. *)
Lemma receive_claims cs :
  Forall claimed_fits cs → Z.of_nat (length cs) ≤ MAX_CLAIM_BATCH →
  foldr (λ c n, len (cl_raw c) + n) 0 cs ≤ MAX_WIRE_BYTES →
  ∃ d, receive (200, claims_answer cs) = inl d ∧ parse_claims d = Ok cs.
Proof.
  intros Hcs Hn Hb. exists (prod_map VStr id <$> [("packets", VList (object ∘ sorted_claimed <$> cs))]).
  split; [|apply parse_claims_object].
  destruct (claims_dumps cs Hcs) as [H1 H2]. pose proof (claims_wire cs Hcs) as Hw.
  unfold receive. cbn [fst snd]. change (400 <=? 200) with false. cbv iota. unfold ahub_json.
  rewrite H1. change (utf8 <$> Ok ?t) with (Ok (A:=string) (utf8 t)). cbv iota.
  assert ((MAX_AHUB_HTTP_RESPONSE_BYTES <? len (utf8 (claims_text cs))) = false) as Hlen.
  { apply Z.ltb_ge. unfold MAX_CLAIM_BATCH, MAX_WIRE_BYTES, MAX_AHUB_HTTP_RESPONSE_BYTES, wire in *. lia. }
  rewrite Hlen. cbn [raise_if mbind res_bind mret res_ret]. unfold _json_object. rewrite Hlen.
  cbn [raise_if mbind res_bind mret res_ret]. rewrite utf8_decode_utf8. cbn [of_option mbind res_bind].
  by rewrite (json_loads_dumps _ _ (claims_object_plain cs) H2).
Qed.

Definition optional_pair (u : option string) : list (string * value) :=
  match u with Some u => [("uploader_id", VStr u)] | None => [] end.
Definition claim_pairs (limit lease : Z) (u : option string) : list (string * value) :=
  [("lease_ms", VInt lease); ("limit", VInt limit)] ++ optional_pair u.
Lemma claim_request_object limit lease u : VMap (claim_request limit lease u) = object (claim_pairs limit lease u).
Proof. by destruct u. Qed.
Definition claim_request_text (limit lease : Z) (u : option string) : string :=
  "{" +:+ join "," (pair_text <$> [("lease_ms", str_of_Z lease); ("limit", str_of_Z limit)] ++
    match u with Some u => [("uploader_id", json_str u)] | None => [] end) +:+ "}".
Lemma claim_request_dumps limit lease u : fits limit → fits lease →
  json_dumps (object (claim_pairs limit lease u)) = Ok (claim_request_text limit lease u).
Proof.
  intros El%dumps_int Et%dumps_int. unfold claim_request_text. revert El Et.
  generalize (str_of_Z limit) (str_of_Z lease). intros tl tt El Et.
  destruct u as [u|]; [change (object ?l) with
      (VMap [(VStr "lease_ms", VInt lease); (VStr "limit", VInt limit); (VStr "uploader_id", VStr u)])|
    change (object ?l) with (VMap [(VStr "lease_ms", VInt lease); (VStr "limit", VInt limit)])];
    remember (VInt limit) as vl; remember (VInt lease) as vt;
    cbn [json_dumps map_res mbind res_bind]; rewrite El, Et; cbn [mbind res_bind mret res_ret];
    [generalize (json_str u); intros|]; vm_compute; reflexivity.
Qed.
Lemma claim_request_wire limit lease u : fits limit → fits lease →
  (∀ n, u = Some n → len n ≤ 40000) → wire (claim_request_text limit lease u) ≤ 250000.
Proof.
  intros Hl Ht Hu. pose proof (wire_int _ Hl) as Hwl. pose proof (wire_int _ Ht) as Hwt.
  unfold claim_request_text, pair_text. destruct u as [u|]; cbn [app fmap list_fmap fst snd].
  - pose proof (wire_json_str u) as Hwu. specialize (Hu u eq_refl). rewrite !join_cons by done.
    cbn [join]. rewrite !wire_append. revert Hwl Hwt Hwu Hu.
    generalize (wire (str_of_Z limit)) (wire (str_of_Z lease)) (wire (json_str u)) (len u).
    intros. repeat match goal with |- context [wire ?t] => let n := eval vm_compute in (wire t) in
      change (wire t) with n end. lia.
  - rewrite !join_cons by done. cbn [join]. rewrite !wire_append. revert Hwl Hwt.
    generalize (wire (str_of_Z limit)) (wire (str_of_Z lease)).
    intros. repeat match goal with |- context [wire ?t] => let n := eval vm_compute in (wire t) in
      change (wire t) with n end. lia.
Qed.
(** The route reads what the client asked. *)
Lemma claim_request_read limit lease u : fits limit → fits lease →
  (∀ n, u = Some n → len n ≤ 40000) →
  parse_claim (utf8 (claim_request_text limit lease u)) = Ok (VInt limit, VInt lease, u).
Proof.
  intros Hl Ht Hu. pose proof (claim_request_wire limit lease u Hl Ht Hu) as Hw.
  pose proof (claim_request_dumps limit lease u Hl Ht) as Hd.
  assert (json_plain (object (claim_pairs limit lease u))) as Hplain.
  { destruct u; (constructor; [apply (bool_decide_eq_true_1 _); vm_compute; reflexivity|reflexivity|]);
      repeat first [apply List.Forall_nil|apply List.Forall_cons]; cbn [snd]; constructor. }
  unfold parse_claim, _json_object. unfold wire in Hw.
  rewrite (proj2 (Z.ltb_ge MAX_AHUB_JSON_BYTES _)) by (unfold MAX_AHUB_JSON_BYTES; lia).
  cbn [raise_if mbind res_bind mret res_ret]. rewrite utf8_decode_utf8. cbn [of_option mbind res_bind].
  rewrite (json_loads_dumps _ _ Hplain Hd). by destruct u.
Qed.

(** ** The client's call is the service's *)

(** The allowlist holds node ids. *)
Definition named_nodes (s : hub_db) : Prop := ∀ node, known s node → NODE_ID_RE node = true.
Lemma known_purge now s node : known (purge_db now s) node ↔ known s node.
Proof. done. Qed.
Lemma work_known now q d s s' node : work limits now q d s s' → known s' node ↔ known s node.
Proof. by destruct 1. Qed.
Lemma effect_named now s s' : effect limits now s s' → named_nodes s → named_nodes s'.
Proof.
  intros He Hs node. destruct He as [|n Hn|n| |q d body s' _ Hw].
  - apply Hs.
  - unfold known, upsert. cbn [ahub_allowlist set_allowlist]. case_match;
      (destruct (decide (n = node)) as [->|Hne]; [done|rewrite lookup_insert_ne by done; apply Hs]).
  - unfold known. cbn [ahub_allowlist set_allowlist]. rewrite lookup_update_where, fmap_is_Some. apply Hs.
  - apply Hs.
  - intros Hk. apply (work_known _ _ _ _ _ _ Hw) in Hk. by apply Hs.
Qed.
Lemma run_named clock s s' :
  hub_run limits clock s s' → hub_ok limits s → named_nodes s → named_nodes s'.
Proof.
  intros Hrun Hok. eapply (hub_run_preorder limits (λ s s', named_nodes s → named_nodes s')); [|exact Hrun|done].
  intros now x y _ _. apply effect_named.
Qed.

(** The moment of a claim is on a 64-bit clock, and the stored expiries in their columns. *)
Record claim_columns (at_ : moment) (lease : Z) (s : hub_db) : Prop := {
  cc_until : fits (clock at_ 1 + lease);
  cc_tokens : ∀ n, len (claim_tokens at_ n) ≤ 64;
  cc_expiry : ∀ id r, ahub_mailbox s !! id = Some r → fits (ml_expires_ms r);
}.
Lemma node_id_length node : NODE_ID_RE node = true → len node ≤ 35.
Proof.
  unfold NODE_ID_RE, id_re. intros H. apply andb_true_iff in H as [[_ H%Nat.eqb_eq]%andb_true_iff _].
  unfold len. simpl in H. lia.
Qed.
Lemma custodied_row id r : custodied limits id r →
  len id = 32 ∧ ml_depth r = 0 ∧ ml_size_bytes r = len (ml_raw r).
Proof.
  intros (packet & current & current' & Hp & <- & -> & _).
  apply inspect_packet_sound in Hp as (_ & Hlen & _ & _ & _ & _ & _ & _ & _ & _ & _ & Hraw & _). done.
Qed.
Lemma claimed_columns at_ tokens q d body limit lease max_bytes uploader s cs s' :
  hub_ok limits s → named_nodes s → claim_columns at_ lease s → tokens = claim_tokens at_ →
  claim (clock at_ 1) tokens q d body (VInt limit) (VInt lease) max_bytes uploader s = (Ok cs, s') →
  Forall claimed_fits cs.
Proof.
  intros Hok Hnamed Hcol -> Hrun. apply Forall_forall. intros c Hc.
  apply list_elem_of_lookup in Hc as [i Hi].
  destruct (claim_handed_out _ _ _ _ _ _ _ _ _ _ _ _ _ _ _ Hok Hrun Hi) as (r & (Hr & _) & Hcl & _).
  destruct (ho_mail _ _ Hok _ _ Hr) as [Hcust [_ Hup] _ _].
  destruct (custodied_row _ _ Hcust) as (Hid & Hdepth & _). rewrite Hcl. unfold claimed_fits.
  cbn [cl_claim_until_ms cl_depth cl_expires_ms cl_claim_token cl_packet_id cl_uploader_id claimed_packet].
  rewrite Hdepth. split_and!.
  - apply Hcol.
  - clear. unfold fits. vm_compute. by split.
  - by eapply cc_expiry.
  - apply Hcol.
  - lia.
  - by apply node_id_length, Hnamed.
Qed.
(** A claim without arguments out of range hands out at most a batch and at most the bytes. *)
Lemma claimed_amount now tokens q d body limit lease m uploader s cs s' :
  hub_ok limits s →
  claim now tokens q d body (VInt limit) (VInt lease) (Some (VInt m)) uploader s = (Ok cs, s') →
  Z.of_nat (length cs) ≤ MAX_CLAIM_BATCH ∧ foldr (λ c n, len (cl_raw c) + n) 0 cs ≤ m.
Proof.
  intros Hok Hrun. assert (1 ≤ limit ≤ MAX_CLAIM_BATCH) as Hlimit.
  { unfold claim in Hrun. st_inv. by match goal with H : int_between 1 _ _ _ = Ok _ |- _ =>
      apply int_between_int in H as [-> ?] end. }
  apply (hub_claim_run limits) in Hrun as (bytes & Hbytes & Hacc & _ & _ & -> & _).
  fold (chosen_for now q uploader limit bytes s).
  destruct (chosen_for_spec limits now q uploader limit bytes s Hok) as (_ & Hlen & Hchosen); [lia|].
  assert (bytes = Some m ∧ 0 < m) as [-> Hm].
  { simpl in Hbytes. res_inv. bool_prop. by simplify_eq/=. }
  split.
  - rewrite <- (length_fmap cl_packet_id), handed_out_ids, length_fmap. lia.
  - rewrite handed_out_bytes.
    + apply (fitting_bytes m 0). lia.
    + intros id row Hin. assert (hub_ok limits (consumed now q s)) as Hok' by (by apply consumed_ok; [apply Hacc|]).
      eapply custodied_size, mo_custodied, ho_mail; [exact Hok'|]. by apply Hchosen.
Qed.

End client_laws.
