(* ===== verification/AhubClientSamples.v ===== *)
(** The client at work: Bob claims over HTTP the packet that Alice uploaded. *)
From S2P Require Import Prelude PyStr PyVal Codecs Locator Schema Packet ControlPlane ControlStore ControlReads Ahub AhubStore AhubRun AhubLaws AhubSamples AhubService AhubHttp AhubHttpLaws AhubHttpSamples AhubClient AhubClientLaws.

#[local] Existing Instances sample_digests sample_signatures sample_urls.
#[local] Existing Instance http_platform.

Definition custody : service := (upload_request 2000 published).2.
Definition bob_asks : exchange :=
  {| issued := 3000; nonce := "nonce-0123456789b"; 
     served_at := {| clock := λ _, 3000; relay_token := "00"; claim_tokens := λ _, "token-0"; healthy := true |} |}.
Definition bob_body : bytes := unwrap "" (ahub_json (VMap (claim_request 10 30000 (Some (node_id alice))))).
Definition bob_request : AhubRequest := asks bob "/v1/mailbox/claims" bob_body "nonce-0123456789b" 3000.
Abbreviation history := (rtc (service_step default_limits) new_service).
Lemma history_publish i s : history s → history (publish i s).2.
Proof. intros H. eapply rtc_r; [exact H|]. unfold publish, upload_request. apply step_http. Qed.
Lemma history_upload now s : history s → history (upload_request now s).2.
Proof. intros H. eapply rtc_r; [exact H|]. unfold publish, upload_request. apply step_http. Qed.
Lemma history_allow now n s : history s → history (service_allow_node now n s).2.
Proof. intros H. eapply rtc_r; [exact H|]. apply step_allow. Qed.
Lemma custody_reachable : hub_reachable default_limits (ahub custody).
Proof.
  split; [reflexivity|]. refine (proj1 (service_run default_limits new_service _ _)).
  apply history_upload, history_publish, history_publish, history_allow, history_allow, rtc_refl.
Qed.
Lemma custody_expiry id r : ahub_mailbox (ahub custody) !! id = Some r → fits (ml_expires_ms r).
Proof.
  assert (map_to_list (ahub_mailbox (ahub custody)) = [(hub_packet_id, MailRow (node_id bob) (node_id alice)
    "raw" 3 1000 60000 Normal 0 None None)]) as E by (vm_compute; reflexivity).
  generalize dependent (ahub_mailbox (ahub custody)). intros m E Hr.
  apply elem_of_map_to_list in Hr. rewrite E in Hr. apply list_elem_of_singleton in Hr as [= _ ->].
  clear. vm_compute. by split.
Qed.
