(* ===== verification/AhubRelay.v ===== *)
(** The hub's relay (src/anet/ahub_relay.py [RelayCoordinator]): the pairing tables, the
    handlers of the owner's and of the peer's WebSocket as tasks that interleave at every
    [await], and the two frame pumps of a session, as an executable step function on the
    tables, the tasks and the log of what was sent.  *)
From S2P Require Import Prelude PyStr PyVal Ahub.

(** ** Events of a WebSocket and messages to it *)

(** What the [receive] of an ASGI WebSocket returns *)
Inductive asgi_event :=
  | Disconnect
  | Receive (raw : option bytes) (text : option string)
  | OtherEvent (type : string).
#[global] Instance asgi_event_eq_dec : EqDecision asgi_event.
Proof. solve_decision. Defined.
(** What a handler sends: a control message (the JSON text of a dict), a binary frame, or the
    end of the connection *)
Inductive message :=
  | Control (value : dict)
  | Binary (frame : bytes)
  | Close (code : Z) (reason : string).
Definition relay_close (code : Z) (reason : string) : message := Close code (slice 123 reason).

(** ** The coordinator *)

(** [_waiting] holds the endpoint that the owner's handler made; the model names it by the
    number of the task that runs this handler. *)
Record coordinator := Coordinator {
  _waiting : gmap string nat;
  _active_reservations : gset string;
  _active_by_node : gmap string Z;
}.
Definition new_coordinator : coordinator := Coordinator ∅ ∅ ∅.
Definition active_count (node : string) (c : coordinator) : Z :=
  default 0 (_active_by_node c !! node).
Definition _increment_node (node : string) (c : coordinator) : coordinator :=
  Coordinator (_waiting c) (_active_reservations c)
    (<[node := active_count node c + 1]> (_active_by_node c)).
Definition _decrement_node (node : string) (c : coordinator) : coordinator :=
  let remaining := active_count node c - 1 in
  Coordinator (_waiting c) (_active_reservations c)
    (if 0 <? remaining then <[node := remaining]> (_active_by_node c)
     else delete node (_active_by_node c)).

Section relay.
Context (limits : AhubLimits).

Definition _node_has_capacity (node : string) (c : coordinator) : bool :=
  active_count node c <? max_relay_connections_per_node limits.

(** The four sections under [self._lock]; each is atomic, and the [_close] that a refusal
    awaits while it holds the lock changes nothing. *)
Definition owner_enter (v : RelayReservation) (task : nat) (c : coordinator)
    : message + coordinator :=
  let id := rv_reservation_id v in
  if bool_decide (is_Some (_waiting c !! id)) || bool_decide (id ∈ _active_reservations c)
  then inl (relay_close 4429 "reservation_busy")
  else if negb (_node_has_capacity (rv_owner_id v) c) then inl (relay_close 4429 "node_busy")
  else inr (Coordinator (<[id := task]> (_waiting c)) (_active_reservations c) (_active_by_node c)).
Definition owner_leave (v : RelayReservation) (task : nat) (c : coordinator) : coordinator :=
  if decide (_waiting c !! rv_reservation_id v = Some task)
  then Coordinator (delete (rv_reservation_id v) (_waiting c)) (_active_reservations c)
         (_active_by_node c)
  else c.
Definition peer_enter (v : RelayReservation) (c : coordinator) : message + (nat * coordinator) :=
  let id := rv_reservation_id v in
  match _waiting c !! id with
  | None => inl (relay_close 4404 "owner_not_waiting")
  | Some owner =>
      if bool_decide (id ∈ _active_reservations c) then inl (relay_close 4429 "reservation_busy")
      else if negb (_node_has_capacity (rv_allowed_peer_id v) c)
      then inl (relay_close 4429 "node_busy")
      else
        let c := Coordinator (delete id (_waiting c)) ({[id]} ∪ _active_reservations c)
                   (_active_by_node c) in
        inr (owner, _increment_node (rv_allowed_peer_id v) (_increment_node (rv_owner_id v) c))
  end.
Definition peer_leave (v : RelayReservation) (c : coordinator) : coordinator :=
  let c := Coordinator (_waiting c) (_active_reservations c ∖ {[rv_reservation_id v]})
             (_active_by_node c) in
  _decrement_node (rv_allowed_peer_id v) (_decrement_node (rv_owner_id v) c).

(** ** The pumps *)

(** A pump is running with the bytes it counted, or it returned (the source disconnected) or
    raised ([RelayLimitError], [RelayProtocolError], or what [send] raised). *)
Inductive pump_end := Returned | LimitError | ProtocolError | SendError.
#[global] Instance pump_end_eq_dec : EqDecision pump_end.
Proof. solve_decision. Defined.
Inductive pump := Running (counter : Z) | Ended (how : pump_end).
(** One turn of the loop of [_pump]: the frame to send on, if any, and what the pump is then;
    [sends] tells whether the [send] of the destination succeeds. *)
Definition _pump (v : RelayReservation) (counter : Z) (ev : asgi_event) (sends : bool)
    : pump * option bytes :=
  match ev with
  | Disconnect => (Ended Returned, None)
  | OtherEvent _ => (Running counter, None)
  | Receive (Some frame) None =>
      if max_relay_frame_bytes limits <? len frame then (Ended LimitError, None)
      else if rv_max_bytes_each_direction v <? counter + len frame then (Ended LimitError, None)
      else if sends then (Running (counter + len frame), Some frame)
      else (Ended SendError, None)
  | Receive _ _ => (Ended ProtocolError, None)
  end.
(** The close of a session by the [task.result()] of a finished pump, [None] when it raised
    nothing *)
Definition raised (p : pump) : option (Z * string) :=
  match p with
  | Ended LimitError => Some (1009, "byte_limit")
  | Ended ProtocolError => Some (1003, "binary_required")
  | Ended SendError => Some (1011, "relay_error")
  | Ended Returned | Running _ => None
  end.
(** [for task in done: task.result()]: the first exception, in the order of the set *)
Definition conclusion (first second : pump) : Z * string :=
  match raised first, raised second with
  | Some e, _ => e
  | None, Some e => e
  | None, None => (1000, "relay_closed")
  end.

(** ** The tasks *)

(** Where the handler of a connection is.  The owner: about to send [relay.waiting]; in
    [asyncio.wait]; in [await endpoint.done]; at the lock of its [finally]; finished; finished
    by the exception of the [relay.waiting] send.  The peer: about to send [relay.ready]; in
    [_relay_bidirectional]; at the lock of its [finally]; finished.  [Refused] is a connection
    closed at once. *)
Inductive task :=
  | OwnerAnnounces (v : RelayReservation)
  | OwnerWaits (v : RelayReservation)
  | OwnerAwaitsDone (v : RelayReservation)
  | OwnerLeaves (v : RelayReservation)
  | OwnerGone (v : RelayReservation)
  | OwnerLost (v : RelayReservation)
  | PeerReadies (v : RelayReservation) (owner : nat)
  | PeerRelays (v : RelayReservation) (owner : nat) (from_owner from_peer : pump)
  | PeerLeaves (v : RelayReservation) (owner : nat)
  | PeerGone (v : RelayReservation) (owner : nat)
  | Refused.
(** [endpoint.paired] and [endpoint.done] are the sets of endpoints with that event set. *)
Record relay := Relay {
  coord : coordinator;
  tasks : gmap nat task;
  paired : gset nat;
  done_set : gset nat;
  sent : list (nat * message);
}.
Definition new_relay : relay := Relay new_coordinator ∅ ∅ ∅ [].

(** What may happen next: a connection arrives, or the task of a connection goes on.  [Gets]
    is an event that the task's own [receive] returns while it waits; [Pumps] one that the
    pump of a session reads from the owner's or from the peer's connection.  The timeout of
    the owner's wait can come just after a peer set [paired]. *)
Inductive side := FromOwner | FromPeer.
#[global] Instance side_eq_dec : EqDecision side.
Proof. solve_decision. Defined.
Inductive event :=
  | Connects (t : nat) (v : RelayReservation) (node : string)
  | Announces (t : nat) (sends : bool)
  | WaitTimesOut (t : nat)
  | Gets (t : nat) (ev : asgi_event)
  | SeesPaired (t : nat)
  | SeesDone (t : nat)
  | Readies (t : nat) (now : Z)
  | ReadyFails (t : nat) (owner_told : bool)
  | Pumps (t : nat) (from : side) (ev : asgi_event) (sends : bool)
  | SessionTimesOut (t : nat)
  | Concludes (t : nat) (first : side)
  | Leaves (t : nat).

Definition waiting_message (v : RelayReservation) : message :=
  Control [field "type" (VStr "relay.waiting"); field "expires_ms" (VInt (rv_expires_ms v))].
Definition ready_message (v : RelayReservation) (peer_node_id : string) : message :=
  Control [field "type" (VStr "relay.ready");
           field "max_duration_ms" (VInt (rv_max_duration_ms v));
           field "max_bytes_each_direction" (VInt (rv_max_bytes_each_direction v));
           field "max_frame_bytes" (VInt (max_relay_frame_bytes limits));
           field "peer_node_id" (VStr peer_node_id)].
(** [session_seconds], in milliseconds *)
Definition session_ms (v : RelayReservation) (now : Z) : Z :=
  Z.min (rv_max_duration_ms v) (Z.max 0 (rv_expires_ms v - now)).

Definition go (t : nat) (k : task) (out : list (nat * message)) (s : relay) : relay :=
  Relay (coord s) (<[t := k]> (tasks s)) (paired s) (done_set s) (sent s ++ out).
(** The [finally] of [_join_as_peer] up to its lock: both connections are closed. *)
Definition close_session (t : nat) (v : RelayReservation) (owner : nat) (how : Z * string)
    (out : list (nat * message)) (s : relay) : relay :=
  go t (PeerLeaves v owner)
    (out ++ [(owner, relay_close how.1 how.2); (t, relay_close how.1 how.2)]) s.
(** [handle] up to its first [await] *)
Definition handle (t : nat) (v : RelayReservation) (node : string) (s : relay) : relay :=
  if String.eqb node (rv_owner_id v) then
    match owner_enter v t (coord s) with
    | inl m => go t Refused [(t, m)] s
    | inr c => Relay c (<[t := OwnerAnnounces v]> (tasks s)) (paired s) (done_set s) (sent s)
    end
  else if String.eqb node (rv_allowed_peer_id v) then
    match peer_enter v (coord s) with
    | inl m => go t Refused [(t, m)] s
    | inr (owner, c) =>
        Relay c (<[t := PeerReadies v owner]> (tasks s)) ({[owner]} ∪ paired s) (done_set s) (sent s)
    end
  else go t Refused [(t, relay_close 4403 "forbidden")] s.
Definition pump_to (from : side) (t owner : nat) : nat :=
  match from with FromOwner => t | FromPeer => owner end.
(** A running pump of a session reads one event. *)
Definition pump_turn (t : nat) (v : RelayReservation) (owner : nat) (from_owner from_peer : pump)
    (from : side) (ev : asgi_event) (sends : bool) (s : relay) : option relay :=
  match (match from with FromOwner => from_owner | FromPeer => from_peer end) with
  | Ended _ => None
  | Running counter =>
      let '(p, frame) := _pump v counter ev sends in
      let k := match from with
               | FromOwner => PeerRelays v owner p from_peer
               | FromPeer => PeerRelays v owner from_owner p
               end in
      Some (go t k (match frame with Some f => [(pump_to from t owner, Binary f)] | None => [] end) s)
  end.
Definition is_ended (p : pump) : bool := match p with Ended _ => true | Running _ => false end.

(** One step; [None] when the event cannot happen in this state.  A [RelayReservation] that
    [__post_init__] refuses does not exist. *)
Definition relay_step (e : event) (s : relay) : option relay :=
  match e with
  | Connects t v node =>
      match tasks s !! t, new_reservation v with
      | None, Ok _ => Some (handle t v node s)
      | _, _ => None
      end
  | Announces t sends =>
      match tasks s !! t with
      | Some (OwnerAnnounces v) =>
          Some (if sends then go t (OwnerWaits v) [(t, waiting_message v)] s
                else go t (OwnerLost v) [] s)
      | _ => None
      end
  | WaitTimesOut t =>
      match tasks s !! t with
      | Some (OwnerWaits v) =>
          Some (go t (OwnerLeaves v) [(t, relay_close 4008 "reservation_expired")] s)
      | _ => None
      end
  | Gets t ev =>
      match tasks s !! t with
      | Some (OwnerWaits v) =>
          Some (go t (OwnerLeaves v)
            (if decide (ev = Disconnect) then [] else [(t, relay_close 1003 "data_before_ready")]) s)
      | _ => None
      end
  | SeesPaired t =>
      match tasks s !! t with
      | Some (OwnerWaits v) =>
          if decide (t ∈ paired s) then Some (go t (OwnerAwaitsDone v) [] s) else None
      | _ => None
      end
  | SeesDone t =>
      match tasks s !! t with
      | Some (OwnerAwaitsDone v) =>
          if decide (t ∈ done_set s) then Some (go t (OwnerLeaves v) [] s) else None
      | _ => None
      end
  | Readies t now =>
      match tasks s !! t with
      | Some (PeerReadies v owner) =>
          let out := [(owner, ready_message v (rv_allowed_peer_id v));
                      (t, ready_message v (rv_owner_id v))] in
          Some (if session_ms v now <=? 0
                then close_session t v owner (4008, "duration_limit") out s
                else go t (PeerRelays v owner (Running 0) (Running 0)) out s)
      | _ => None
      end
  | ReadyFails t owner_told =>
      match tasks s !! t with
      | Some (PeerReadies v owner) =>
          Some (close_session t v owner (1011, "relay_error")
            (if owner_told then [(owner, ready_message v (rv_allowed_peer_id v))] else []) s)
      | _ => None
      end
  | Pumps t from ev sends =>
      match tasks s !! t with
      | Some (PeerRelays v owner a b) => pump_turn t v owner a b from ev sends s
      | _ => None
      end
  | SessionTimesOut t =>
      match tasks s !! t with
      | Some (PeerRelays v owner _ _) =>
          Some (close_session t v owner (4008, "duration_limit") [] s)
      | _ => None
      end
  | Concludes t first =>
      match tasks s !! t with
      | Some (PeerRelays v owner a b) =>
          if is_ended a || is_ended b then
            Some (close_session t v owner
              (match first with FromOwner => conclusion a b | FromPeer => conclusion b a end) [] s)
          else None
      | _ => None
      end
  | Leaves t =>
      match tasks s !! t with
      | Some (OwnerLeaves v) =>
          Some (Relay (owner_leave v t (coord s)) (<[t := OwnerGone v]> (tasks s)) (paired s)
                  (done_set s) (sent s))
      | Some (PeerLeaves v owner) =>
          Some (Relay (peer_leave v (coord s)) (<[t := PeerGone v owner]> (tasks s)) (paired s)
                  ({[owner]} ∪ done_set s) (sent s))
      | _ => None
      end
  end.
Fixpoint relay_run (es : list event) (s : relay) : option relay :=
  match es with
  | [] => Some s
  | e :: es => match relay_step e s with Some s => relay_run es s | None => None end
  end.
End relay.
