(* ===== verification/AhubRelayLaws.v ===== *)
(** What the relay guarantees (src/anet/ahub_relay.py [RelayCoordinator]): its tables are those
    of the running sessions in every interleaving of its handlers, frames pass in order and
    within the limits, every handler can finish, and two ways in which it does not keep what
    it means to. *)
From S2P Require Import Prelude PyStr PyVal Ahub AhubStore AhubRun AhubRelay.

(** ** What a task is *)

(** The session of a running peer handler, of a finished one, of either; the owner's
    connection; and the owner's connection while it may stand in [_waiting] *)
Definition live (k : task) : option (RelayReservation * nat) :=
  match k with
  | PeerReadies v o | PeerRelays v o _ _ | PeerLeaves v o => Some (v, o)
  | _ => None
  end.
Definition gone (k : task) : option (RelayReservation * nat) :=
  match k with PeerGone v o => Some (v, o) | _ => None end.
Definition session (k : task) : option (RelayReservation * nat) :=
  match gone k with Some x => Some x | None => live k end.
Definition owner_of (k : task) : option RelayReservation :=
  match k with
  | OwnerAnnounces v | OwnerWaits v | OwnerAwaitsDone v | OwnerLeaves v | OwnerGone v
  | OwnerLost v => Some v
  | _ => None
  end.
Definition slot (k : task) : option RelayReservation :=
  match k with
  | OwnerAnnounces v | OwnerWaits v | OwnerLeaves v | OwnerLost v => Some v
  | _ => None
  end.
(** The property of a task, at its number *)
Definition here {A} (f : task → option A) (s : relay) (t : nat) : option A := tasks s !! t ≫= f.

(** The running sessions of a node, and those it joined as the peer *)
Definition live_for (node : string) (_ : nat) (k : task) : Prop :=
  match live k with Some (v, _) => rv_owner_id v = node ∨ rv_allowed_peer_id v = node | None => False end.
Definition joined_by (node : string) (_ : nat) (k : task) : Prop :=
  match live k with Some (v, _) => rv_allowed_peer_id v = node | None => False end.
#[global] Instance live_for_dec n t k : Decision (live_for n t k).
Proof. unfold live_for. destruct (live k) as [[v o]|]; apply _. Defined.
#[global] Instance joined_by_dec n t k : Decision (joined_by n t k).
Proof. unfold joined_by. destruct (live k) as [[v o]|]; apply _. Defined.

(** The coordinator and the tasks agree: the active reservations are those of the running
    sessions, one session each; a node's counter is the number of its sessions; a reservation
    waits exactly for the owner's unpaired connection; a paired connection has one session,
    of its own reservation. *)
Record relay_ok (limits : AhubLimits) (s : relay) : Prop := {
  ro_active id : id ∈ _active_reservations (coord s) ↔
    ∃ t v o, here live s t = Some (v, o) ∧ rv_reservation_id v = id;
  ro_unique t t' v v' o o' : here live s t = Some (v, o) → here live s t' = Some (v', o') →
    rv_reservation_id v = rv_reservation_id v' → t = t';
  ro_count node : active_count node (coord s) = count_where (live_for node) (tasks s);
  ro_positive node n : _active_by_node (coord s) !! node = Some n → 0 < n;
  ro_joined node : count_where (joined_by node) (tasks s) ≤ max_relay_connections_per_node limits;
  ro_waiting id t : _waiting (coord s) !! id = Some t ↔
    ∃ v, here slot s t = Some v ∧ rv_reservation_id v = id ∧ (t ∉ paired s);
  ro_free id : is_Some (_waiting (coord s) !! id) → id ∉ _active_reservations (coord s);
  ro_paired o : o ∈ paired s ↔ ∃ p v, here session s p = Some (v, o);
  ro_pair p v o : here session s p = Some (v, o) →
    ∃ w, here owner_of s o = Some w ∧ rv_reservation_id w = rv_reservation_id v;
  ro_sides p v o : here session s p = Some (v, o) → rv_owner_id v ≠ rv_allowed_peer_id v;
  ro_one p p' v v' o : here session s p = Some (v, o) → here session s p' = Some (v', o) → p = p';
  ro_done o : o ∈ done_set s ↔ ∃ p v, here gone s p = Some (v, o);
  ro_waits t v : tasks s !! t = Some (OwnerAwaitsDone v) → t ∈ paired s;
}.

Lemma here_set {A} (f : task → option A) c m t k p d out u :
  f k = m !! t ≫= f → here f (Relay c (<[t := k]> m) p d out) u = m !! u ≫= f.
Proof.
  intros Hf. unfold here. simpl. destruct (decide (u = t)) as [->|Hne].
  - by rewrite lookup_insert_eq.
  - by rewrite lookup_insert_ne.
Qed.
Lemma count_where_same {K V} `{Countable K} (P : K → V → Prop) `{!∀ k v, Decision (P k v)}
    k v (t : gmap K V) :
  (P k v ↔ match t !! k with Some w => P k w | None => False end) →
  count_where P (<[k := v]> t) = count_where P t.
Proof.
  intros HP. pose proof (count_where_insert P k v t) as Hc.
  destruct (t !! k) as [w|]; repeat case_decide; try lia; tauto.
Qed.
Lemma count_where_weaken {K V} `{Countable K} (P Q : K → V → Prop) `{!∀ k v, Decision (P k v)}
    `{!∀ k v, Decision (Q k v)} (t : gmap K V) :
  (∀ k v, P k v → Q k v) → count_where P t ≤ count_where Q t.
Proof.
  intros HPQ. unfold count_where, select_where. apply inj_le.
  induction (map_to_list t) as [|[k v] l IH]; [done|]. rewrite !filter_cons. simpl.
  pose proof (HPQ k v). repeat case_decide; simpl; naive_solver lia.
Qed.
(** A condition on the session of a running peer handler *)
Lemma live_count_same (P : nat → task → Prop) (Q : RelayReservation → Prop)
    `{!∀ t k, Decision (P t k)} m t k :
  (∀ u k', P u k' ↔ match live k' with Some (v, _) => Q v | None => False end) →
  live k = m !! t ≫= live → count_where P (<[t := k]> m) = count_where P m.
Proof.
  intros HP Hl. apply count_where_same. rewrite HP, Hl.
  destruct (m !! t) as [k'|]; simpl; [by rewrite HP|done].
Qed.
Lemma live_for_same node m t k :
  live k = m !! t ≫= live → count_where (live_for node) (<[t := k]> m) = count_where (live_for node) m.
Proof.
  apply (live_count_same _ (λ v, rv_owner_id v = node ∨ rv_allowed_peer_id v = node)).
  intros u k'. reflexivity.
Qed.
Lemma joined_by_same node m t k :
  live k = m !! t ≫= live → count_where (joined_by node) (<[t := k]> m) = count_where (joined_by node) m.
Proof. apply (live_count_same _ (λ v, rv_allowed_peer_id v = node)). intros u k'. reflexivity. Qed.
(** A step of one task that leaves the tables alone *)
Lemma quiet_ok limits s t k out :
  relay_ok limits s → live k = here live s t → gone k = here gone s t →
  owner_of k = here owner_of s t → (slot k = here slot s t ∨ t ∈ paired s) →
  (∀ v, k = OwnerAwaitsDone v → t ∈ paired s) → relay_ok limits (go t k out s).
Proof.
  intros [] Hl Hg Ho Hs Hw.
  assert (session k = tasks s !! t ≫= session) as Hsess.
  { unfold session. rewrite Hl, Hg. unfold here. by destruct (tasks s !! t). }
  assert (∀ u, here live (go t k out s) u = here live s u) as El by (intros; by apply here_set).
  assert (∀ u, here gone (go t k out s) u = here gone s u) as Eg by (intros; by apply here_set).
  assert (∀ u, here owner_of (go t k out s) u = here owner_of s u) as Eo by (intros; by apply here_set).
  assert (∀ u, here session (go t k out s) u = here session s u) as Es by (intros; by apply here_set).
  split.
  - intros id. rewrite (ro_active0 id). by setoid_rewrite El.
  - intros u u' v v' o o'. rewrite !El. eauto.
  - intros node. rewrite ro_count0. symmetry. by apply live_for_same.
  - done.
  - intros node. simpl. rewrite joined_by_same by done. apply ro_joined0.
  - intros id u. rewrite (ro_waiting0 id u). destruct Hs as [Hs|Hp].
    + assert (here slot (go t k out s) u = here slot s u) as -> by (by apply here_set). done.
    + destruct (decide (u = t)) as [->|Hne]; [simpl; naive_solver|].
      unfold here, go. simpl. rewrite lookup_insert_ne by done. done.
  - done.
  - intros o. simpl. rewrite (ro_paired0 o). by setoid_rewrite Es.
  - intros p v o. rewrite Es, Eo. apply ro_pair0.
  - intros p v o. rewrite Es. apply ro_sides0.
  - intros p p' v v' o. rewrite !Es. apply ro_one0.
  - intros o. simpl. rewrite (ro_done0 o). by setoid_rewrite Eg.
  - intros u v. simpl. destruct (decide (u = t)) as [->|Hne].
    + rewrite lookup_insert_eq. intros [= ->]. eauto.
    + rewrite lookup_insert_ne by done. apply ro_waits0.
Qed.
Lemma here_at {A} (f : task → option A) c m t k p d out u :
  here f (Relay c (<[t := k]> m) p d out) u = if decide (u = t) then f k else m !! u ≫= f.
Proof.
  unfold here. simpl. case_decide; subst; [by rewrite lookup_insert_eq|by rewrite lookup_insert_ne].
Qed.
Lemma here_none {A} (f : task → option A) s t : tasks s !! t = None → here f s t = None.
Proof. unfold here. by intros ->. Qed.
Lemma live_session s t x : here live s t = Some x → here session s t = Some x.
Proof.
  unfold here, session. destruct (tasks s !! t) as [k|]; simpl; [|done]. by destruct k.
Qed.
Lemma paired_owner limits s o : relay_ok limits s → o ∈ paired s → ∃ w, here owner_of s o = Some w.
Proof. intros [] (p & v & Hp)%ro_paired0. apply ro_pair0 in Hp as (w & Hw & _). eauto. Qed.
Lemma unpaired_new limits s t : relay_ok limits s → tasks s !! t = None → t ∉ paired s.
Proof.
  intros Hok Ht Hp. destruct (paired_owner _ _ _ Hok Hp) as [w Hw]. by rewrite here_none in Hw.
Qed.
Lemma active_count_inc n m c :
  active_count n (_increment_node m c) = active_count n c + if decide (n = m) then 1 else 0.
Proof.
  unfold active_count, _increment_node, active_count. simpl. case_decide; subst.
  - by rewrite lookup_insert_eq.
  - rewrite lookup_insert_ne by done. lia.
Qed.
Lemma active_count_dec n m c :
  0 < active_count m c →
  active_count n (_decrement_node m c) = active_count n c - if decide (n = m) then 1 else 0.
Proof.
  unfold active_count, _decrement_node, active_count. simpl. intros Hm.
  case_decide; subst; case_match; rewrite ?lookup_insert_eq, ?lookup_delete_eq; simpl; try lia;
    rewrite ?lookup_insert_ne, ?lookup_delete_ne by done; lia.
Qed.
Lemma positive_inc m c :
  (∀ n k, _active_by_node c !! n = Some k → 0 < k) →
  ∀ n k, _active_by_node (_increment_node m c) !! n = Some k → 0 < k.
Proof.
  intros Hc n k. simpl. intros [[<- <-]|[_ Hn]]%lookup_insert_Some; [|by eapply Hc].
  unfold active_count. destruct (_active_by_node c !! m) as [j|] eqn:Hj; simpl; [|lia].
  apply Hc in Hj. lia.
Qed.
Lemma positive_dec m c :
  (∀ n k, _active_by_node c !! n = Some k → 0 < k) →
  ∀ n k, _active_by_node (_decrement_node m c) !! n = Some k → 0 < k.
Proof.
  intros Hc n k. simpl. case_match.
  - intros [[<- <-]|[_ Hn]]%lookup_insert_Some; [lia|by eapply Hc].
  - intros [_ Hn]%lookup_delete_Some. by eapply Hc.
Qed.

Lemma owner_enter_ok limits s t v c :
  relay_ok limits s → tasks s !! t = None → owner_enter limits v t (coord s) = inr c →
  relay_ok limits (Relay c (<[t := OwnerAnnounces v]> (tasks s)) (paired s) (done_set s) (sent s)).
Proof.
  intros Hok Ht Hc. pose proof (unpaired_new _ _ _ Hok Ht) as Hup. destruct Hok.
  unfold owner_enter in Hc. case_match eqn:Hbusy; [done|]. case_match; [done|].
  injection Hc as <-. apply orb_false_iff in Hbusy as [Hw Ha].
  rewrite bool_decide_eq_false in Hw, Ha. apply eq_None_not_Some in Hw.
  set (s' := Relay _ _ _ _ _).
  assert (∀ u, here live s' u = here live s u) as El by (intros; apply here_set; by rewrite Ht).
  assert (∀ u, here gone s' u = here gone s u) as Eg by (intros; apply here_set; by rewrite Ht).
  assert (∀ u, here session s' u = here session s u) as Es by (intros; apply here_set; by rewrite Ht).
  split; simpl.
  - intros id. rewrite (ro_active0 id). by setoid_rewrite El.
  - intros u u' w w' o o'. rewrite !El. eauto.
  - intros node. rewrite live_for_same by (by rewrite Ht). apply ro_count0.
  - done.
  - intros node. rewrite joined_by_same by (by rewrite Ht). apply ro_joined0.
  - intros id u. unfold s'. rewrite here_at. rewrite lookup_insert_Some. case_decide as Hut.
    + subst u. simpl. split; [|naive_solver].
      intros [[<- _]|[Hid Hwait]]; [naive_solver|]. apply ro_waiting0 in Hwait as (w & Hs & _).
      by rewrite here_none in Hs.
    + rewrite (ro_waiting0 id u). unfold here. split; [naive_solver|]. intros (w & Hs & Hid & Hp).
      right. split; [|eauto]. intros <-. assert (_waiting (coord s) !! rv_reservation_id v = Some u) as Hx.
      { apply ro_waiting0. eauto. }
      congruence.
  - intros id Hid. destruct (decide (id = rv_reservation_id v)) as [->|Hne]; [done|].
    apply ro_free0. by rewrite lookup_insert_ne in Hid.
  - intros o. rewrite (ro_paired0 o). by setoid_rewrite Es.
  - intros p w o. rewrite Es. intros Hp. unfold s'. rewrite here_at. case_decide as Ho.
    + subst o. destruct Hup. apply ro_paired0. eauto.
    + by apply ro_pair0 in Hp.
  - intros p w o. rewrite Es. apply ro_sides0.
  - intros p p' w w' o. rewrite !Es. apply ro_one0.
  - intros o. rewrite (ro_done0 o). by setoid_rewrite Eg.
  - intros u w. destruct (decide (u = t)) as [->|Hne]; [by rewrite lookup_insert_eq|].
    rewrite lookup_insert_ne by done. apply ro_waits0.
Qed.
Lemma peer_enter_ok limits s t v owner c :
  relay_ok limits s → tasks s !! t = None → rv_owner_id v ≠ rv_allowed_peer_id v →
  peer_enter limits v (coord s) = inr (owner, c) →
  relay_ok limits (Relay c (<[t := PeerReadies v owner]> (tasks s)) ({[owner]} ∪ paired s)
    (done_set s) (sent s)).
Proof.
  intros Hok Ht Hne Hc. pose proof (unpaired_new _ _ _ Hok Ht) as Hup. destruct Hok.
  unfold peer_enter in Hc. destruct (_waiting (coord s) !! rv_reservation_id v) as [o|] eqn:Hw; [|done].
  case_match eqn:Ha; [done|]. case_match eqn:Hcap; [done|]. injection Hc as <- <-.
  rewrite bool_decide_eq_false in Ha.
  apply negb_false_iff in Hcap. unfold _node_has_capacity in Hcap. apply Z.ltb_lt in Hcap.
  pose proof (proj1 (ro_waiting0 _ _) Hw) as (w0 & Hslot & Hid & Hop).
  assert (∃ w, here owner_of s o = Some w ∧ rv_reservation_id w = rv_reservation_id v) as Hown.
  { exists w0. split; [|done]. unfold here in *. destruct (tasks s !! o) as [k|]; [|done].
    simpl in *. by destruct k. }
  assert (o ≠ t) as Hot by (intros ->; by rewrite here_none in Hslot).
  set (c0 := Coordinator _ _ _). set (s' := Relay _ _ _ _ _).
  assert (∀ u, here live s' u = if decide (u = t) then Some (v, o) else here live s u) as El
    by (intros u; exact (here_at live _ _ _ _ _ _ _ u)).
  assert (∀ u, here session s' u = if decide (u = t) then Some (v, o) else here session s u) as Es
    by (intros u; exact (here_at session _ _ _ _ _ _ _ u)).
  assert (∀ u, here gone s' u = here gone s u) as Eg by (intros; apply here_set; by rewrite Ht).
  assert (∀ u, here owner_of s' u = here owner_of s u) as Eo by (intros; apply here_set; by rewrite Ht).
  assert (∀ u, here slot s' u = here slot s u) as Esl by (intros; apply here_set; by rewrite Ht).
  split.
  - intros id. change (_active_reservations (coord s')) with
      ({[rv_reservation_id v]} ∪ _active_reservations (coord s)).
    rewrite elem_of_union, elem_of_singleton, (ro_active0 id). setoid_rewrite El. split.
    + intros [->|(u & w & ow & Hu & Hr)]; [exists t, v, o; by rewrite decide_True|].
      exists u, w, ow. rewrite decide_False; [done|]. intros ->. by rewrite here_none in Hu.
    + intros (u & w & ow & Hu & Hr). case_decide; [left; by simplify_eq|right; eauto].
  - intros u u' w w' ow ow'. rewrite !El. do 2 case_decide; intros; simplify_eq; [done|..].
    + destruct Ha. apply ro_active0. eauto 6.
    + destruct Ha. apply ro_active0. eauto 6.
    + eauto.
  - intros node. pose proof (count_where_insert (live_for node) t (PeerReadies v o) (tasks s)) as Hn.
    rewrite Ht in Hn. change (tasks s') with (<[t := PeerReadies v o]> (tasks s)).
    change (coord s') with (_increment_node (rv_allowed_peer_id v) (_increment_node (rv_owner_id v) c0)).
    rewrite !active_count_inc. change (active_count node c0) with (active_count node (coord s)).
    rewrite (ro_count0 node).
    destruct (decide (node = rv_allowed_peer_id v)), (decide (node = rv_owner_id v)),
      (decide (live_for node t (PeerReadies v o))) as [Hl|Hl]; unfold live_for in Hl; simpl in Hl;
      try lia; naive_solver congruence.
  - apply positive_inc, positive_inc. done.
  - intros node. pose proof (count_where_insert (joined_by node) t (PeerReadies v o) (tasks s)) as Hn.
    rewrite Ht in Hn. change (tasks s') with (<[t := PeerReadies v o]> (tasks s)).
    pose proof (ro_joined0 node). case_decide as Hj; [|lia]. unfold joined_by in Hj. simpl in Hj. subst node.
    change (active_count (rv_allowed_peer_id v) (coord s) <
      max_relay_connections_per_node limits) in Hcap. rewrite ro_count0 in Hcap.
    assert (count_where (joined_by (rv_allowed_peer_id v)) (tasks s) ≤
      count_where (live_for (rv_allowed_peer_id v)) (tasks s)); [|lia].
    apply count_where_weaken. intros u k. unfold joined_by, live_for.
    destruct (live k) as [[w ow]|]; [tauto|done].
  - intros id u. change (_waiting (coord s')) with (delete (rv_reservation_id v) (_waiting (coord s))).
    rewrite lookup_delete_Some, (ro_waiting0 id u), Esl.
    change (paired s') with ({[o]} ∪ paired s). split.
    + intros (Hni & w & Hs & Hr & Hp). exists w. split_and!; [done..|].
      rewrite not_elem_of_union, not_elem_of_singleton. split; [|done]. intros ->. destruct Hni. congruence.
    + intros (w & Hs & Hr & [Hn1 Hp]%not_elem_of_union). split; [|eauto]. intros <-.
      rewrite not_elem_of_singleton in Hn1. destruct Hn1.
      assert (_waiting (coord s) !! rv_reservation_id v = Some u); [|congruence].
      apply ro_waiting0. eauto.
  - intros id. change (_waiting (coord s')) with (delete (rv_reservation_id v) (_waiting (coord s))).
    change (_active_reservations (coord s')) with
      ({[rv_reservation_id v]} ∪ _active_reservations (coord s)).
    intros [u [Hni Hu]%lookup_delete_Some]. rewrite not_elem_of_union, not_elem_of_singleton.
    split; [done|]. apply ro_free0. eauto.
  - intros ow. change (paired s') with ({[o]} ∪ paired s).
    rewrite elem_of_union, elem_of_singleton, (ro_paired0 ow). setoid_rewrite Es. split.
    + intros [->|(p & w & Hp)]; [exists t, v; by rewrite decide_True|].
      exists p, w. rewrite decide_False; [done|]. intros ->. by rewrite here_none in Hp.
    + intros (p & w & Hp). case_decide; [left; by simplify_eq|right; eauto].
  - intros p w ow. rewrite Es, Eo. case_decide; [intros; by simplify_eq|apply ro_pair0].
  - intros p w ow. rewrite Es. case_decide; [intros; by simplify_eq|apply ro_sides0].
  - intros p p' w w' ow. rewrite !Es. do 2 case_decide; intros; simplify_eq; [done|..].
    + destruct Hop. apply ro_paired0. eauto.
    + destruct Hop. apply ro_paired0. eauto.
    + eauto.
  - intros ow. change (done_set s') with (done_set s). rewrite (ro_done0 ow). by setoid_rewrite Eg.
  - intros u w. change (tasks s') with (<[t := PeerReadies v o]> (tasks s)).
    change (paired s') with ({[o]} ∪ paired s).
    destruct (decide (u = t)) as [->|Hu]; [by rewrite lookup_insert_eq|].
    rewrite lookup_insert_ne by done. intros Hx%ro_waits0. set_solver.
Qed.
Lemma owner_leave_ok limits s t v :
  relay_ok limits s → tasks s !! t = Some (OwnerLeaves v) →
  relay_ok limits (Relay (owner_leave v t (coord s)) (<[t := OwnerGone v]> (tasks s)) (paired s)
    (done_set s) (sent s)).
Proof.
  intros Hok Ht. unfold owner_leave. case_decide as Hw.
  - destruct Hok. pose proof (proj1 (ro_waiting0 _ _) Hw) as (v' & Hs & _ & Hp).
    unfold here in Hs. rewrite Ht in Hs. injection Hs as <-.
    set (s' := Relay _ _ _ _ _).
    assert (∀ u, here live s' u = here live s u) as El by (intros; apply here_set; by rewrite Ht).
    assert (∀ u, here gone s' u = here gone s u) as Eg by (intros; apply here_set; by rewrite Ht).
    assert (∀ u, here session s' u = here session s u) as Es by (intros; apply here_set; by rewrite Ht).
    assert (∀ u, here owner_of s' u = here owner_of s u) as Eo by (intros; apply here_set; by rewrite Ht).
    split; simpl.
    + intros id. rewrite (ro_active0 id). by setoid_rewrite El.
    + intros u u' w w' o o'. rewrite !El. eauto.
    + intros node. rewrite live_for_same by (by rewrite Ht). apply ro_count0.
    + done.
    + intros node. rewrite joined_by_same by (by rewrite Ht). apply ro_joined0.
    + intros id u. rewrite lookup_delete_Some, (ro_waiting0 id u). unfold s'. rewrite here_at.
      case_decide as Hu; [subst u|].
      * simpl. split; [|naive_solver]. intros (Hne & w & Hs & Hid & _). unfold here in Hs.
        rewrite Ht in Hs. injection Hs as <-. done.
      * split; [naive_solver|]. intros (w & Hs & Hid & Hup). split; [|eauto]. intros <-.
        assert (_waiting (coord s) !! rv_reservation_id v = Some u); [|congruence].
        apply ro_waiting0. eauto.
    + intros id [u [_ Hu]%lookup_delete_Some]. eauto.
    + intros o. rewrite (ro_paired0 o). by setoid_rewrite Es.
    + intros p w o. rewrite Es, Eo. apply ro_pair0.
    + intros p w o. rewrite Es. apply ro_sides0.
    + intros p p' w w' o. rewrite !Es. apply ro_one0.
    + intros o. rewrite (ro_done0 o). by setoid_rewrite Eg.
    + intros u w. destruct (decide (u = t)) as [->|Hne]; [by rewrite lookup_insert_eq|].
      rewrite lookup_insert_ne by done. apply ro_waits0.
  - assert (t ∈ paired s) as Hp.
    { destruct (decide (t ∈ paired s)) as [|Hp]; [done|]. destruct Hw. apply (ro_waiting _ _ Hok).
      exists v. unfold here. by rewrite Ht. }
    assert (relay_ok limits (go t (OwnerGone v) [] s)) as Hgo.
    { apply quiet_ok; unfold here; rewrite ?Ht; naive_solver. }
    unfold go in Hgo. by rewrite app_nil_r in Hgo.
Qed.
Lemma peer_leave_ok limits s t v o :
  relay_ok limits s → tasks s !! t = Some (PeerLeaves v o) →
  relay_ok limits (Relay (peer_leave v (coord s)) (<[t := PeerGone v o]> (tasks s)) (paired s)
    ({[o]} ∪ done_set s) (sent s)).
Proof.
  intros [] Ht. set (s' := Relay _ _ _ _ _).
  assert (here live s t = Some (v, o)) as Hlive by (unfold here; by rewrite Ht).
  assert (∀ u, here live s' u = if decide (u = t) then None else here live s u) as El
    by (intros u; exact (here_at live _ _ _ _ _ _ _ u)).
  assert (∀ u, here gone s' u = if decide (u = t) then Some (v, o) else here gone s u) as Eg
    by (intros u; exact (here_at gone _ _ _ _ _ _ _ u)).
  assert (∀ u, here session s' u = here session s u) as Es by (intros; apply here_set; by rewrite Ht).
  assert (∀ u, here owner_of s' u = here owner_of s u) as Eo by (intros; apply here_set; by rewrite Ht).
  assert (∀ u, here slot s' u = here slot s u) as Esl by (intros; apply here_set; by rewrite Ht).
  pose proof (ro_sides0 _ _ _ (live_session _ _ _ Hlive)) as Hne.
  set (c0 := Coordinator (_waiting (coord s)) (_active_reservations (coord s) ∖ {[rv_reservation_id v]})
             (_active_by_node (coord s))).
  assert (∀ P `{!∀ t k, Decision (P t k)}, P t (PeerLeaves v o) → ¬ P t (PeerGone v o) →
    count_where P (tasks s') = count_where P (tasks s) - 1) as Hdrop.
  { intros P ? Hb Ha. pose proof (count_where_insert P t (PeerGone v o) (tasks s)) as Hn.
    rewrite Ht in Hn. change (tasks s') with (<[t := PeerGone v o]> (tasks s)).
    repeat case_decide; try done; lia. }
  assert (∀ node, 0 < count_where (live_for node) (tasks s) ∨ ¬ live_for node t (PeerLeaves v o)) as Hpos.
  { intros node. destruct (decide (live_for node t (PeerLeaves v o))) as [Hl|]; [left|by right].
    pose proof (count_where_nonneg (live_for node) (tasks s)).
    assert (count_where (live_for node) (tasks s) ≠ 0) as Hz; [|lia].
    intros Hz. by apply (proj1 (count_where_zero _ _) Hz t _ Ht). }
  split.
  - intros id. change (_active_reservations (coord s')) with
      (_active_reservations (coord s) ∖ {[rv_reservation_id v]}).
    rewrite elem_of_difference, elem_of_singleton, (ro_active0 id). setoid_rewrite El. split.
    + intros [(u & w & ow & Hu & Hr) Hid]. exists u, w, ow. rewrite decide_False; [done|].
      intros ->. congruence.
    + intros (u & w & ow & Hu & Hr). case_decide as Hut; [done|]. split; [eauto|]. intros ->.
      destruct Hut. eapply ro_unique0; eauto.
  - intros u u' w w' ow ow'. rewrite !El. do 2 case_decide; try done. eauto.
  - intros node.
    change (coord s') with (_decrement_node (rv_allowed_peer_id v) (_decrement_node (rv_owner_id v) c0)).
    assert (0 < active_count (rv_owner_id v) c0) as Hp1.
    { change (0 < active_count (rv_owner_id v) (coord s)). rewrite ro_count0.
      destruct (Hpos (rv_owner_id v)) as [|Hn]; [done|]. destruct Hn. left. done. }
    assert (0 < active_count (rv_allowed_peer_id v) c0) as Hp2.
    { change (0 < active_count (rv_allowed_peer_id v) (coord s)). rewrite ro_count0.
      destruct (Hpos (rv_allowed_peer_id v)) as [|Hn]; [done|]. destruct Hn. right. done. }
    rewrite !active_count_dec; [|done|by rewrite active_count_dec, decide_False by auto; lia].
    change (active_count node c0) with (active_count node (coord s)). rewrite (ro_count0 node).
    destruct (decide (live_for node t (PeerLeaves v o))) as [Hl|Hl].
    + rewrite (Hdrop (live_for node) _ Hl) by (by intros []).
      unfold live_for in Hl; simpl in Hl. repeat case_decide; subst; try lia; naive_solver.
    + change (tasks s') with (<[t := PeerGone v o]> (tasks s)). rewrite count_where_same.
      * unfold live_for in Hl; simpl in Hl. repeat case_decide; subst; try lia; naive_solver.
      * rewrite Ht. split; [by intros []|done].
  - by apply positive_dec, positive_dec.
  - intros node. etrans; [|apply (ro_joined0 node)].
    destruct (decide (joined_by node t (PeerLeaves v o))) as [Hl|Hl].
    + rewrite (Hdrop (joined_by node) _ Hl) by (by intros []). lia.
    + change (tasks s') with (<[t := PeerGone v o]> (tasks s)). rewrite count_where_same; [done|].
      rewrite Ht. split; [by intros []|done].
  - intros id u. change (_waiting (coord s')) with (_waiting (coord s)). rewrite (ro_waiting0 id u). by rewrite Esl.
  - intros id Hid%ro_free0. change (_active_reservations (coord s')) with
      (_active_reservations (coord s) ∖ {[rv_reservation_id v]}). set_solver.
  - intros ow. change (paired s') with (paired s). rewrite (ro_paired0 ow). by setoid_rewrite Es.
  - intros p w ow. rewrite Es, Eo. apply ro_pair0.
  - intros p w ow. rewrite Es. apply ro_sides0.
  - intros p p' w w' ow. rewrite !Es. apply ro_one0.
  - intros ow. change (done_set s') with ({[o]} ∪ done_set s).
    rewrite elem_of_union, elem_of_singleton, (ro_done0 ow). setoid_rewrite Eg. split.
    + intros [->|(p & w & Hp)]; [exists t, v; by rewrite decide_True|].
      exists p, w. rewrite decide_False; [done|]. intros ->. unfold here in Hp. by rewrite Ht in Hp.
    + intros (p & w & Hp). case_decide; [left; by simplify_eq|right; eauto].
  - intros u w. change (tasks s') with (<[t := PeerGone v o]> (tasks s)).
    destruct (decide (u = t)) as [->|Hu]; [by rewrite lookup_insert_eq|].
    rewrite lookup_insert_ne by done. apply ro_waits0.
Qed.
Lemma relay_new_ok limits : 0 ≤ max_relay_connections_per_node limits → relay_ok limits new_relay.
Proof.
  intros Hl. assert (∀ A (f : task → option A) t, here f new_relay t = None) as Hn.
  { intros. by apply here_none. }
  split; simpl.
  - intros id. split; [set_solver|]. intros (t & v & o & Ht & _). by rewrite Hn in Ht.
  - intros t t' v v' o o'. by rewrite Hn.
  - intros node. done.
  - done.
  - intros node. done.
  - intros id t. split; [done|]. intros (v & Hv & _). by rewrite Hn in Hv.
  - intros id [t Ht]. done.
  - intros o. split; [set_solver|]. intros (p & v & Hp). by rewrite Hn in Hp.
  - intros p v o. by rewrite Hn.
  - intros p v o. by rewrite Hn.
  - intros p p' v v' o. by rewrite Hn.
  - intros o. split; [set_solver|]. intros (p & v & Hp). by rewrite Hn in Hp.
  - done.
Qed.
Lemma handle_ok limits t v node s :
  relay_ok limits s → tasks s !! t = None → relay_ok limits (handle limits t v node s).
Proof.
  intros Hok Ht.
  assert (∀ out, relay_ok limits (go t Refused out s)) as Hrefused.
  { intros out. apply quiet_ok; rewrite ?here_none by done; naive_solver. }
  unfold handle. case_match eqn:Ho.
  - destruct (owner_enter limits v t (coord s)) as [m|c] eqn:Hc; [apply Hrefused|].
    by eapply owner_enter_ok.
  - case_match eqn:Hp; [|apply Hrefused].
    destruct (peer_enter limits v (coord s)) as [m|[owner c]] eqn:Hc; [apply Hrefused|].
    eapply peer_enter_ok; [done..| |done]. apply String.eqb_eq in Hp as <-.
    intros <-. by rewrite String.eqb_refl in Ho.
Qed.
(** A step of a task that exists: what it was, and that its kind stays *)
Ltac task_step Ht := unfold here; rewrite ?Ht; simpl; naive_solver.
Lemma relay_step_ok limits e s s' : relay_ok limits s → relay_step limits e s = Some s' → relay_ok limits s'.
Proof.
  intros Hok He. destruct e as [t v node|t sends|t|t ev|t|t|t now|t told|t from ev sends|t|t first|t];
    simpl in He; destruct (tasks s !! t) as [k|] eqn:Ht; try done;
    [destruct (new_reservation v); [injection He as <-; by apply handle_ok|done]|..]; destruct k; try done.
  - injection He as <-. destruct sends; apply quiet_ok; task_step Ht.
  - injection He as <-. apply quiet_ok; task_step Ht.
  - injection He as <-. apply quiet_ok; task_step Ht.
  - case_decide; [|done]. injection He as <-. apply quiet_ok; task_step Ht.
  - case_decide as Hd; [|done]. injection He as <-. pose proof (ro_waits _ _ Hok t v Ht).
    apply quiet_ok; task_step Ht.
  - injection He as <-. case_match; apply quiet_ok; task_step Ht.
  - injection He as <-. apply quiet_ok; task_step Ht.
  - unfold pump_turn in He. repeat case_match; try done; injection He as <-; apply quiet_ok; task_step Ht.
  - injection He as <-. apply quiet_ok; task_step Ht.
  - case_match; [|done]. injection He as <-. apply quiet_ok; task_step Ht.
  - injection He as <-. by apply owner_leave_ok.
  - injection He as <-. by apply peer_leave_ok.
Qed.
Lemma relay_run_ok limits es s s' : relay_ok limits s → relay_run limits es s = Some s' → relay_ok limits s'.
Proof.
  revert s. induction es as [|e es IH]; intros s Hok Hrun; simpl in Hrun; [by simplify_eq|].
  destruct (relay_step limits e s) as [s1|] eqn:He; [|done]. eauto using relay_step_ok.
Qed.
Lemma relay_run_app limits es es' s :
  relay_run limits (es ++ es') s = relay_run limits es s ≫= relay_run limits es'.
Proof.
  revert s. induction es as [|e es IH]; intros s; simpl; [done|].
  by destruct (relay_step limits e s) as [s1|].
Qed.
(** The relay of a hub with valid limits, after any events *)
Definition relay_after (limits : AhubLimits) (es : list event) (s : relay) : Prop :=
  new_limits limits = Ok limits ∧ relay_run limits es new_relay = Some s.
Lemma relay_after_ok limits es s : relay_after limits es s → relay_ok limits s.
Proof.
  intros [Hl Hrun]. eapply relay_run_ok; [|exact Hrun]. apply relay_new_ok.
  unfold new_limits in Hl. res_inv. bool_prop.
  match goal with H : existsb _ _ = false |- _ => simpl in H; bool_prop end. lia.
Qed.

(** ** The frames of a session *)

(** The frames sent to a connection, and those that a pump of the session [t] read *)
Definition frames_to (t : nat) (log : list (nat * message)) : list bytes :=
  omap (λ m, match m with (u, Binary f) => if decide (u = t) then Some f else None | _ => None end) log.
Definition pumped (t : nat) (from : side) (es : list event) : list bytes :=
  omap (λ e, match e with
             | Pumps u from' (Receive (Some f) None) _ =>
                 if decide (u = t ∧ from' = from) then Some f else None
             | _ => None
             end) es.
Definition total (fs : list bytes) : Z := foldr (λ f n, len f + n) 0 fs.

Lemma frames_to_app t l l' : frames_to t (l ++ l') = frames_to t l ++ frames_to t l'.
Proof. apply omap_app. Qed.
Lemma pumped_app t from l l' : pumped t from (l ++ l') = pumped t from l ++ pumped t from l'.
Proof. apply omap_app. Qed.
Lemma total_app l l' : total (l ++ l') = total l + total l'.
Proof. induction l as [|f l IH]; simpl; [done|]. unfold total in *. simpl. lia. Qed.

(** What a pump of a session has done: it delivered, in order, what it read, up to the frame
    that ended it *)
Definition pump_ok (v : RelayReservation) (p : pump) (delivered read : list bytes) : Prop :=
  delivered `prefix_of` read ∧ total delivered ≤ rv_max_bytes_each_direction v ∧
  match p with Running n => delivered = read ∧ n = total read | Ended _ => True end.
Definition pumps (k : task) : option (pump * pump) :=
  match k with
  | PeerReadies _ _ => Some (Running 0, Running 0)
  | PeerRelays _ _ a b => Some (a, b)
  | PeerLeaves _ _ | PeerGone _ _ => Some (Ended Returned, Ended Returned)
  | _ => None
  end.
Record frames_ok (limits : AhubLimits) (es : list event) (s : relay) : Prop := {
  fo_session t v o : here session s t = Some (v, o) → ∃ a b, here pumps s t = Some (a, b) ∧
    pump_ok v a (frames_to t (sent s)) (pumped t FromOwner es) ∧
    pump_ok v b (frames_to o (sent s)) (pumped t FromPeer es);
  fo_none t : here session s t = None → (∀ from, pumped t from es = []) ∧
    (t ∉ paired s → frames_to t (sent s) = []);
  fo_size t f : (t, Binary f) ∈ sent s → len f ≤ max_relay_frame_bytes limits;
}.
(** A pump that is stopped has still delivered a prefix. *)
Lemma pump_ok_end v p how fs read more :
  pump_ok v p fs read → pump_ok v (Ended how) fs (read ++ more).
Proof. intros (Hp & Ht & _). split_and!; [by apply prefix_app_r|done|done]. Qed.
Lemma pump_ok_turn limits v n ev sends p frame fs read :
  _pump limits v n ev sends = (p, frame) → pump_ok v (Running n) fs read →
  let got := match ev with Receive (Some f) None => [f] | _ => [] end in
  let sent := match frame with Some f => [f] | None => [] end in
  pump_ok v p (fs ++ sent) (read ++ got) ∧
  (∀ f, frame = Some f → len f ≤ max_relay_frame_bytes limits).
Proof.
  intros Hp Hok. pose proof Hok as (Hpre & Ht & -> & ->). unfold _pump in Hp.
  destruct ev as [|[f|] [text|]|ty]; simplify_eq; simpl;
    try (rewrite ?app_nil_r; split; [|done]; (exact Hok || apply (pump_ok_end _ _ _ _ _ _ Hok) ||
      (rewrite <- (app_nil_r read) at 2; apply (pump_ok_end _ _ _ _ _ _ Hok)))).
  destruct (max_relay_frame_bytes limits <? len f) eqn:E1; simplify_eq;
    [rewrite app_nil_r; split; [|done]; apply (pump_ok_end _ _ _ _ _ _ Hok)|].
  destruct (rv_max_bytes_each_direction v <? total read + len f) eqn:E2; simplify_eq;
    [rewrite app_nil_r; split; [|done]; apply (pump_ok_end _ _ _ _ _ _ Hok)|].
  destruct sends; simplify_eq;
    [|rewrite app_nil_r; split; [|done]; apply (pump_ok_end _ _ _ _ _ _ Hok)].
  apply Z.ltb_ge in E1, E2. split; [|intros ? [= <-]; done].
  split_and!; [done| |done|]; rewrite total_app; unfold total in *; simpl; lia.
Qed.
Definition no_frame (m : nat * message) : Prop := match m.2 with Binary _ => False | _ => True end.
Lemma frames_to_none t out : Forall no_frame out → frames_to t out = [].
Proof.
  unfold frames_to. induction 1 as [|[u m] out Hm _ IH]; [done|]. destruct m; simpl; done.
Qed.
Lemma no_frame_elem t f out : Forall no_frame out → (t, Binary f) ∉ out.
Proof. intros Ho Hin. by apply (proj1 (Forall_forall _ _) Ho) in Hin. Qed.
(** A step that moves no frame: the task stays in its session, and its pumps go on or stop. *)
Definition pump_keeps (p p' : pump) : Prop := p' = p ∨ ∃ how, p' = Ended how.
Definition task_keeps (old : option task) (k : task) : Prop :=
  (old ≫= session) = session k ∧
  match old ≫= pumps with
  | Some (a, b) => ∃ a' b', pumps k = Some (a', b') ∧ pump_keeps a a' ∧ pump_keeps b b'
  | None => True
  end.
Lemma pump_keeps_ok v p p' fs read : pump_keeps p p' → pump_ok v p fs read → pump_ok v p' fs read.
Proof. intros [->|[how ->]] (H1 & H2 & H3); by split_and!. Qed.
Lemma quiet_frames limits es e s c t k p d out :
  frames_ok limits es s → (∀ u from, pumped u from [e] = []) → Forall no_frame out →
  task_keeps (tasks s !! t) k → paired s ⊆ p →
  frames_ok limits (es ++ [e]) (Relay c (<[t := k]> (tasks s)) p d (sent s ++ out)).
Proof.
  intros [Hs Hn Hz] He Ho [Hk Hp] Hsub.
  set (s' := Relay _ _ _ _ _).
  assert (∀ u, here session s' u = here session s u) as Es by (intros; by apply here_set).
  assert (∀ u, frames_to u (sent s') = frames_to u (sent s)) as Ef.
  { intros u. unfold s'. simpl. rewrite frames_to_app, (frames_to_none _ _ Ho). apply app_nil_r. }
  split.
  - intros u v o. rewrite Es. intros Hu. destruct (Hs u v o Hu) as (a & b & Hab & Ha & Hb).
    rewrite !pumped_app, !He, !app_nil_r, !Ef. unfold s'. rewrite here_at. case_decide as Hut.
    + subst u. unfold here in Hab. rewrite Hab in Hp. destruct Hp as (a' & b' & Hab' & Hka & Hkb).
      exists a', b'. split_and!; [done|by eapply pump_keeps_ok..].
    + exists a, b. done.
  - intros u. rewrite Es, Ef. intros Hu. destruct (Hn u Hu) as [Hf Hq]. split.
    + intros from. by rewrite pumped_app, Hf, He.
    + intros Hup. apply Hq. unfold s' in Hup. simpl in Hup. set_solver.
  - intros u f. unfold s'. simpl. rewrite elem_of_app. intros [Hin|Hin]; [eauto|].
    by apply no_frame_elem in Hin.
Qed.
Lemma pumped_one_none u from e :
  match e with Pumps _ _ _ _ => False | _ => True end → pumped u from [e] = [].
Proof. by destruct e. Qed.
Lemma new_reservation_bytes v v' : new_reservation v = Ok v' → 0 ≤ rv_max_bytes_each_direction v.
Proof. unfold new_reservation. intros H. res_inv. bool_prop. lia. Qed.
Lemma handle_frames limits es t v v' node s :
  relay_ok limits s → frames_ok limits es s → tasks s !! t = None → new_reservation v = Ok v' →
  frames_ok limits (es ++ [Connects t v node]) (handle limits t v node s).
Proof.
  intros Hok Hfr Ht Hv.
  assert (∀ m, no_frame (t, m) → frames_ok limits (es ++ [Connects t v node]) (go t Refused [(t, m)] s))
    as Hrefused.
  { intros m Hm. apply quiet_frames; [done| |by constructor| |done].
    - intros. by apply pumped_one_none.
    - by rewrite Ht. }
  unfold handle. case_match eqn:Ho.
  - destruct (owner_enter limits v t (coord s)) as [m|c] eqn:Hc.
    + apply Hrefused. unfold owner_enter in Hc. repeat case_match; by simplify_eq.
    + rewrite <- (app_nil_r (sent s)).
      apply quiet_frames; [done| |done| |done]; [intros; by apply pumped_one_none|by rewrite Ht].
  - case_match eqn:Hp; [|by apply Hrefused].
    destruct (peer_enter limits v (coord s)) as [m|[o c]] eqn:Hc.
    { apply Hrefused. unfold peer_enter in Hc. repeat case_match; by simplify_eq. }
    pose proof (unpaired_new _ _ _ Hok Ht) as Hup. destruct Hfr as [Hs Hn Hz].
    assert (∃ w, here slot s o = Some w ∧ (o ∉ paired s)) as (w & Hslot & Hop).
    { unfold peer_enter in Hc. destruct (_waiting (coord s) !! rv_reservation_id v) as [o'|] eqn:Hw; [|done].
      repeat case_match; simplify_eq. apply (ro_waiting _ _ Hok) in Hw as (w & ? & _ & ?). eauto. }
    assert (here session s o = None) as Hos.
    { unfold here in *. destruct (tasks s !! o) as [k|]; [|done]. by destruct k. }
    assert (o ≠ t) as Hot by (intros ->; by rewrite here_none in Hslot).
    set (s' := Relay _ _ _ _ _).
    assert (∀ u, here session s' u = if decide (u = t) then Some (v, o) else here session s u) as Es
      by (intros u; exact (here_at session _ _ _ _ _ _ _ u)).
    assert (∀ u, here pumps s' u =
      if decide (u = t) then Some (Running 0, Running 0) else here pumps s u) as Ep
      by (intros u; exact (here_at pumps _ _ _ _ _ _ _ u)).
    split.
    + intros u v0 o0. rewrite Es, Ep, !pumped_app, !pumped_one_none, !app_nil_r by done. case_decide.
      * intros [= <- <-]. subst u. exists (Running 0), (Running 0). split; [done|].
        destruct (Hn t (here_none _ _ _ Ht)) as [Hpt Hft], (Hn o Hos) as [_ Hfo].
        rewrite !Hpt. unfold s'. simpl. rewrite (Hft Hup), (Hfo Hop).
        apply new_reservation_bytes in Hv. by repeat split.
      * apply Hs.
    + intros u. rewrite Es. case_decide; [done|]. intros Hu. destruct (Hn u Hu) as [Hpt Hft]. split.
      * intros from. by rewrite pumped_app, Hpt, pumped_one_none.
      * intros Hup'. apply Hft. unfold s' in Hup'. simpl in Hup'. set_solver.
    + done.
Qed.
Lemma pumped_one u from t from' ev sends :
  pumped u from [Pumps t from' ev sends] =
  if decide (t = u ∧ from' = from) then match ev with Receive (Some f) None => [f] | _ => [] end else [].
Proof. unfold pumped. simpl. destruct ev as [|[f|] [text|]|ty]; repeat case_decide; done. Qed.
Lemma frames_to_one u t (frame : option bytes) :
  frames_to u match frame with Some f => [(t, Binary f)] | None => [] end =
  if decide (t = u) then match frame with Some f => [f] | None => [] end else [].
Proof. destruct frame as [f|]; simpl; by case_decide. Qed.
Lemma pump_turn_frames limits es t v o a b from ev sends s s' :
  relay_ok limits s → frames_ok limits es s → tasks s !! t = Some (PeerRelays v o a b) →
  pump_turn limits t v o a b from ev sends s = Some s' →
  frames_ok limits (es ++ [Pumps t from ev sends]) s'.
Proof.
  intros Hok [Hs Hn Hz] Ht Hturn. unfold pump_turn in Hturn.
  assert (here session s t = Some (v, o)) as Hsess by (unfold here; by rewrite Ht).
  assert (o ≠ t ∧ here session s o = None ∧ o ∈ paired s) as (Hot & Hos & Hop).
  { destruct (ro_pair _ _ Hok _ _ _ Hsess) as (w & Hw & _). split_and!.
    - intros ->. unfold here in Hw. by rewrite Ht in Hw.
    - unfold here in *. destruct (tasks s !! o) as [k|]; [|done]. by destruct k.
    - apply (ro_paired _ _ Hok). eauto. }
  assert (∀ u w ow, here session s u = Some (w, ow) → u ≠ t → ow ≠ t ∧ ow ≠ o ∧ u ≠ o) as Hother.
  { intros u w ow Hu Hut. split_and!.
    - intros ->. destruct (ro_pair _ _ Hok _ _ _ Hu) as (w' & Hw' & _).
      unfold here in Hw'. by rewrite Ht in Hw'.
    - intros ->. by pose proof (ro_one _ _ Hok _ _ _ _ _ Hu Hsess).
    - intros ->. congruence. }
  destruct (Hs t v o Hsess) as (a0 & b0 & Hab & Ha & Hb). unfold here in Hab. rewrite Ht in Hab.
  injection Hab as <- <-.
  destruct (match from with FromOwner => a | FromPeer => b end) as [n|] eqn:Hside; [|done].
  destruct (_pump limits v n ev sends) as [p frame] eqn:Hp.
  set (k := match from with FromOwner => PeerRelays v o p b | FromPeer => PeerRelays v o a p end) in *.
  assert (here session s t = session k) as Hk by (unfold here, k; rewrite Ht; by destruct from).
  injection Hturn as <-. set (s' := go _ _ _ _).
  assert (∀ u, here session s' u = here session s u) as Es by (intros; by apply here_set).
  assert (∀ u, here pumps s' u = if decide (u = t) then pumps k else here pumps s u) as Ep
    by (intros u; exact (here_at pumps _ _ _ _ _ _ _ u)).
  assert (∀ u, frames_to u (sent s') = frames_to u (sent s) ++
    if decide (pump_to from t o = u) then match frame with Some f => [f] | None => [] end else []) as Ef.
  { intros u. unfold s', go. simpl. by rewrite frames_to_app, frames_to_one. }
  assert (∀ side n', (match side with FromOwner => a | FromPeer => b end) = Running n' → side = from →
    pump_ok v p (frames_to (pump_to from t o) (sent s'))
      (pumped t from (es ++ [Pumps t from ev sends])) ∧
    (∀ f, frame = Some f → len f ≤ max_relay_frame_bytes limits)) as Hturn.
  { intros side n' _ _. rewrite Ef, pumped_app, pumped_one, !decide_True by done.
    apply (pump_ok_turn _ _ _ _ _ _ _ _ _ Hp). destruct from; by subst. }
  destruct (Hturn from n Hside eq_refl) as [Hnew Hsize].
  split.
  - intros u w ow. rewrite Es, Ep. intros Hu. case_decide as Hut.
    + subst u. assert (w = v ∧ ow = o) as [-> ->] by (split; congruence).
      unfold k. destruct from; simpl in *.
      * exists p, b. split_and!; [done..|].
        rewrite Ef, pumped_app, pumped_one. rewrite !decide_False by naive_solver.
        by rewrite !app_nil_r.
      * exists a, p. split_and!; [done| |done].
        rewrite Ef, pumped_app, pumped_one. rewrite !decide_False by naive_solver.
        by rewrite !app_nil_r.
    + destruct (Hs u w ow Hu) as (a' & b' & Hab' & Ha' & Hb').
      destruct (Hother u w ow Hu Hut) as (H1 & H2 & H3). exists a', b'.
      assert (pump_to from t o ≠ u ∧ pump_to from t o ≠ ow) as [Hx Hy]
        by (destruct from; simpl; split; congruence).
      rewrite !Ef, !pumped_app, !pumped_one.
      rewrite (decide_False (P := pump_to from t o = u)), (decide_False (P := pump_to from t o = ow)) by done.
      rewrite !decide_False by naive_solver. by rewrite !app_nil_r.
  - intros u. rewrite Es. intros Hu. destruct (Hn u Hu) as [Hpt Hft].
    assert (u ≠ t) as Hut by (intros ->; congruence). split.
    + intros from'. rewrite pumped_app, Hpt, pumped_one, decide_False by naive_solver. done.
    + intros Hup. change (paired s') with (paired s) in Hup. rewrite Ef, (Hft Hup), decide_False; [done|].
      destruct from; simpl; [done|]. intros ->. done.
  - intros u f. unfold s', go. simpl. rewrite elem_of_app. intros [Hin|Hin]; [by eapply Hz|].
    destruct frame as [f'|]; [|by apply elem_of_nil in Hin]. apply list_elem_of_singleton in Hin.
    injection Hin as -> ->. by apply Hsize.
Qed.
Ltac quiet_step Ht :=
  apply quiet_frames; [done|intros; by apply pumped_one_none| |
    rewrite Ht; split; [done|simpl; unfold pump_keeps; naive_solver]|done];
  simpl; repeat (apply Forall_nil_2 || (apply Forall_cons_2; [done|])).
Lemma relay_step_frames limits es e s s' :
  relay_ok limits s → frames_ok limits es s → relay_step limits e s = Some s' →
  frames_ok limits (es ++ [e]) s'.
Proof.
  intros Hok Hfr He.
  destruct e as [t v node|t sends|t|t ev|t|t|t now|t told|t from ev sends|t|t first|t];
    simpl in He; destruct (tasks s !! t) as [k|] eqn:Ht; try done;
    [destruct (new_reservation v) eqn:Hv; [injection He as <-; by eapply handle_frames|done]|..];
    destruct k; try done.
  - injection He as <-. destruct sends; quiet_step Ht.
  - injection He as <-. quiet_step Ht.
  - injection He as <-. case_decide; quiet_step Ht.
  - case_decide; [|done]. injection He as <-. quiet_step Ht.
  - case_decide; [|done]. injection He as <-. quiet_step Ht.
  - injection He as <-. case_match; quiet_step Ht.
  - injection He as <-. destruct told; quiet_step Ht.
  - by eapply pump_turn_frames.
  - injection He as <-. quiet_step Ht.
  - case_match; [|done]. injection He as <-. quiet_step Ht.
  - injection He as <-. rewrite <- (app_nil_r (sent s)). quiet_step Ht.
  - injection He as <-. rewrite <- (app_nil_r (sent s)). quiet_step Ht.
Qed.
Lemma relay_run_frames limits es0 es s s' :
  relay_ok limits s → frames_ok limits es0 s → relay_run limits es s = Some s' →
  frames_ok limits (es0 ++ es) s'.
Proof.
  revert es0 s. induction es as [|e es IH]; intros es0 s Hok Hfr Hrun; simpl in Hrun.
  - simplify_eq. by rewrite app_nil_r.
  - destruct (relay_step limits e s) as [s1|] eqn:He; [|done].
    rewrite (app_assoc es0 [e] es : es0 ++ e :: es = _). eapply IH; [..|done].
    + by eapply relay_step_ok.
    + by eapply relay_step_frames.
Qed.
Lemma relay_after_frames limits es s : relay_after limits es s → frames_ok limits es s.
Proof.
  intros [Hl Hrun]. apply (relay_run_frames limits [] es new_relay); [..|done].
  - by apply (relay_after_ok limits []).
  - split; [intros t v o; by rewrite here_none|done|]. intros t f Hin. by apply elem_of_nil in Hin.
Qed.
Lemma frames_to_elem t f log : f ∈ frames_to t log → (t, Binary f) ∈ log.
Proof.
  unfold frames_to. rewrite list_elem_of_omap. intros ([u m] & Hin & Hm). destruct m; try done.
  case_decide; by simplify_eq.
Qed.

(** C39: the relay passes frames faithfully and within its limits, in every interleaving: the
    frames sent to either side of a session are, in order and unchanged, a prefix of those
    read from the other side, of at most the reservation's bytes per direction and the hub's
    bytes per frame; while a pump runs, all that it read was sent on; a connection without a
    session is sent no frame. *)
Theorem relay_delivers limits es s p v o :
  relay_after limits es s → here session s p = Some (v, o) →
  (∀ from, let frames := frames_to (pump_to from p o) (sent s) in
     frames `prefix_of` pumped p from es ∧ total frames ≤ rv_max_bytes_each_direction v ∧
     Forall (λ f, len f ≤ max_relay_frame_bytes limits) frames) ∧
  (∀ a b n, tasks s !! p = Some (PeerRelays v o a b) →
     (a = Running n → frames_to p (sent s) = pumped p FromOwner es) ∧
     (b = Running n → frames_to o (sent s) = pumped p FromPeer es)) ∧
  (∀ t, here session s t = None → t ∉ paired s → frames_to t (sent s) = []).
Proof.
  intros Hr Hp. destruct (relay_after_frames _ _ _ Hr) as [Hs Hn Hz].
  destruct (Hs p v o Hp) as (a & b & Hab & Ha & Hb). split_and!.
  - intros from. assert (∃ k, pump_ok v k (frames_to (pump_to from p o) (sent s)) (pumped p from es))
      as (k & Hpre & Htot & _) by (destruct from; simpl; eauto).
    split_and!; [done..|]. apply Forall_forall. intros f Hf%frames_to_elem. eauto.
  - intros a' b' n Ht. unfold here in Hab. rewrite Ht in Hab. injection Hab as -> ->.
    split; intros ->; [apply Ha|apply Hb].
  - intros t Ht. apply (Hn t Ht).
Qed.

(** ** Finishing *)

(** A handler that finished, and one that the exception of its first send finished *)
Definition finished (k : task) : Prop :=
  match k with OwnerGone _ | PeerGone _ _ | Refused => True | _ => False end.
Definition ended (k : task) : Prop :=
  match k with OwnerLost _ => True | _ => finished k end.
Lemma ended_tables limits s :
  relay_ok limits s → (∀ t k, tasks s !! t = Some k → ended k) →
  _active_reservations (coord s) = ∅ ∧ _active_by_node (coord s) = ∅ ∧
  ∀ id t, _waiting (coord s) !! id = Some t → ∃ v, tasks s !! t = Some (OwnerLost v).
Proof.
  intros [] Hend.
  assert (∀ t, here live s t = None) as Hl.
  { intros t. unfold here. destruct (tasks s !! t) as [k|] eqn:Ht; [|done].
    apply Hend in Ht. by destruct k. }
  split_and!.
  - apply elem_of_equiv_empty_L. intros id (t & v & o & Ht & _)%ro_active0. by rewrite Hl in Ht.
  - apply map_eq. intros n. rewrite lookup_empty. destruct (_active_by_node (coord s) !! n) as [j|] eqn:Hn; [|done].
    pose proof (ro_positive0 n j Hn) as Hpos. pose proof (ro_count0 n) as Hc. unfold active_count in Hc.
    rewrite Hn in Hc. simpl in Hc.
    assert (count_where (live_for n) (tasks s) = 0) as Hz; [|lia].
    apply count_where_zero. intros t k Ht Hlf. specialize (Hl t). unfold here in Hl. rewrite Ht in Hl.
    simpl in Hl. unfold live_for in Hlf. by rewrite Hl in Hlf.
  - intros id t (v & Hs & _)%ro_waiting0. unfold here in Hs. destruct (tasks s !! t) as [k|] eqn:Ht; [|done].
    apply Hend in Ht as He. destruct k; try done. eauto.
Qed.
(** Nothing leaks: once all handlers finished, after whatever interleaving, the coordinator
    is as it was made: nobody waits, no reservation is active, no node has a connection. *)
Theorem relay_returns_everything limits es s :
  relay_after limits es s → (∀ t k, tasks s !! t = Some k → finished k) → coord s = new_coordinator.
Proof.
  intros Hr%relay_after_ok Hf. destruct (ended_tables _ _ Hr) as (Ha & Hb & Hw).
  { intros t k Ht%Hf. by destruct k. }
  destruct (coord s) as [w a b] eqn:Hc. simpl in *. subst a b. unfold new_coordinator. f_equal.
  apply map_eq. intros id. rewrite lookup_empty. destruct (w !! id) as [t|] eqn:Hid; [|done].
  destruct (Hw id t Hid) as [v Hv]. by apply Hf in Hv.
Qed.
#[local] Instance ended_dec k : Decision (ended k).
Proof. destruct k; simpl; apply _. Defined.
(** The steps a handler has before it *)
Definition steps_left (k : task) : Z :=
  match k with
  | OwnerAnnounces _ => 4
  | OwnerWaits _ => 3
  | OwnerAwaitsDone _ | PeerReadies _ _ | PeerRelays _ _ _ _ => 2
  | OwnerLeaves _ | PeerLeaves _ _ => 1
  | OwnerGone _ | OwnerLost _ | PeerGone _ _ | Refused => 0
  end.
Definition any_task (_ : nat) (_ : task) : Prop := True.
#[local] Instance any_task_dec t k : Decision (any_task t k) := left I.
Definition work_left (s : relay) : Z := sum_where any_task steps_left (tasks s).
Lemma work_left_nonneg s : 0 ≤ work_left s.
Proof.
  unfold work_left, sum_where. induction (select_where any_task (tasks s)) as [|[t k] l IH]; simpl; [done|].
  assert (0 ≤ steps_left k) by (destruct k; done). lia.
Qed.
Lemma work_left_step s t k k' c p d out :
  tasks s !! t = Some k → steps_left k' < steps_left k →
  work_left (Relay c (<[t := k']> (tasks s)) p d out) < work_left s.
Proof.
  intros Ht Hlt. unfold work_left. simpl.
  rewrite <- (insert_delete_id (tasks s) t k Ht) at 2. rewrite <- insert_delete_eq.
  rewrite !sum_where_insert by apply lookup_delete_eq. rewrite !decide_True by done. lia.
Qed.
(** A handler that is not done can go on by itself, or waits for one that can. *)
Lemma relay_goes_on limits s t k :
  relay_ok limits s → tasks s !! t = Some k → ¬ ended k →
  ∃ e s', relay_step limits e s = Some s' ∧ work_left s' < work_left s ∧
    match e with Connects _ _ _ => False | _ => True end.
Proof.
  intros Hok.
  assert (∀ u v o, here live s u = Some (v, o) → ∃ e s', relay_step limits e s = Some s' ∧
    work_left s' < work_left s ∧ match e with Connects _ _ _ => False | _ => True end) as Hpeer.
  { intros u v o Hu. unfold here in Hu. destruct (tasks s !! u) as [k'|] eqn:Hk; [|done].
    destruct k'; try done.
    - exists (ReadyFails u false). eexists. simpl. rewrite Hk. split_and!; [done| |done].
      by eapply work_left_step.
    - exists (SessionTimesOut u). eexists. simpl. rewrite Hk. split_and!; [done| |done].
      by eapply work_left_step.
    - exists (Leaves u). eexists. simpl. rewrite Hk. split_and!; [done| |done].
      by eapply work_left_step. }
  intros Ht Hk. destruct k as [v|v|v|v|v|v|v o|v o a b|v o|v o|]; simpl in Hk; try tauto.
  - exists (Announces t true). eexists. simpl. rewrite Ht. split_and!; [done| |done]. by eapply work_left_step.
  - exists (Gets t Disconnect). eexists. simpl. rewrite Ht. split_and!; [done| |done]. by eapply work_left_step.
  - pose proof (ro_waits _ _ Hok t v Ht) as (p & w & Hp)%(ro_paired _ _ Hok).
    destruct (here gone s p) as [[w' o']|] eqn:Hg.
    + assert (o' = t) as ->.
      { unfold here, session in *. destruct (tasks s !! p) as [k|]; [|done]. simpl in *.
        rewrite Hg in Hp. congruence. }
      exists (SeesDone t). eexists. simpl. rewrite Ht, decide_True.
      * split_and!; [done| |done]. by eapply work_left_step.
      * apply (ro_done _ _ Hok). eauto.
    + apply (Hpeer p w t). unfold here, session in *. destruct (tasks s !! p) as [k|]; [|done].
      simpl in *. by rewrite Hg in Hp.
  - exists (Leaves t). eexists. simpl. rewrite Ht. split_and!; [done| |done]. by eapply work_left_step.
  - apply (Hpeer t v o). unfold here. by rewrite Ht.
  - apply (Hpeer t v o). unfold here. by rewrite Ht.
  - apply (Hpeer t v o). unfold here. by rewrite Ht.
Qed.
Definition no_arrival (e : event) : Prop := match e with Connects _ _ _ => False | _ => True end.
Lemma relay_finishes limits s :
  relay_ok limits s → ∃ es s', Forall no_arrival es ∧ relay_run limits es s = Some s' ∧
    ∀ t k, tasks s' !! t = Some k → ended k.
Proof.
  remember (Z.to_nat (work_left s)) as n eqn:Hn. revert s Hn.
  induction n as [n IH] using lt_wf_ind. intros s -> Hok.
  destruct (decide (Forall (λ tk, ended tk.2) (map_to_list (tasks s)))) as [Hf|Hf].
  { exists [], s. split_and!; [done..|]. intros t k Ht.
    by apply (proj1 (Forall_forall _ _) Hf (t, k)), elem_of_map_to_list. }
  apply not_Forall_Exists in Hf; [|intros [t k]; apply _]. apply Exists_exists in Hf as ([t k] & Hin & Hk).
  apply elem_of_map_to_list in Hin. destruct (relay_goes_on limits s t k Hok Hin Hk) as (e & s1 & He & Hlt & Hno).
  pose proof (work_left_nonneg s1).
  destruct (IH (Z.to_nat (work_left s1)) ltac:(lia) s1 eq_refl) as (es & s' & Hes & Hrun & Hend);
    [by eapply relay_step_ok|].
  exists (e :: es), s'. split_and!; [by constructor| |done]. simpl. by rewrite He.
Qed.
(** C40: every handler can finish: from whatever the interleavings came to, without another
    connection, the handlers that are there have an order of steps in which all of them end,
    no owner stays blocked on its session; then no reservation is active, no node has a
    connection, and only an owner whose first send failed is left in the waiting table. *)
Theorem relay_drains limits es s :
  relay_after limits es s → ∃ es' s', Forall no_arrival es' ∧ relay_run limits es' s = Some s' ∧
    (∀ t k, tasks s' !! t = Some k → ended k) ∧
    _active_reservations (coord s') = ∅ ∧ _active_by_node (coord s') = ∅ ∧
    (∀ id t, _waiting (coord s') !! id = Some t → ∃ v, tasks s' !! t = Some (OwnerLost v)).
Proof.
  intros Hok%relay_after_ok. destruct (relay_finishes limits s Hok) as (es' & s' & Hno & Hrun & Hend).
  exists es', s'. split_and!; try done;
    by eapply ended_tables; [eapply relay_run_ok|].
Qed.

(** ** Where the relay does not do what it means to *)

(** Nobody connects as the peer of the reservation [id]. *)
Definition no_peer (id : string) (e : event) : Prop :=
  match e with
  | Connects _ v node => rv_reservation_id v = id → node = rv_owner_id v
  | _ => True
  end.
Definition stuck (v : RelayReservation) (t : nat) (s : relay) : Prop :=
  tasks s !! t = Some (OwnerLost v) ∧ _waiting (coord s) !! rv_reservation_id v = Some t.
Lemma handle_waiting limits t u v w s :
  rv_reservation_id w = rv_reservation_id v → _waiting (coord s) !! rv_reservation_id v = Some t →
  _waiting (coord (handle limits u w (rv_owner_id w) s)) !! rv_reservation_id v = Some t.
Proof.
  intros Hid Hw. unfold handle. rewrite String.eqb_refl.
  unfold owner_enter. rewrite Hid, bool_decide_eq_true_2 by eauto. done.
Qed.
Lemma handle_other_waiting limits t u v w node s :
  rv_reservation_id w ≠ rv_reservation_id v → _waiting (coord s) !! rv_reservation_id v = Some t →
  _waiting (coord (handle limits u w node s)) !! rv_reservation_id v = Some t.
Proof.
  intros Hid Hw. unfold handle, owner_enter, peer_enter. repeat case_match; simplify_eq; simpl in *;
    simplify_eq; try done; by rewrite ?lookup_insert_ne, ?lookup_delete_ne.
Qed.
Lemma stuck_step limits v t e s s' :
  stuck v t s → no_peer (rv_reservation_id v) e → relay_step limits e s = Some s' → stuck v t s'.
Proof.
  intros [Ht Hw] Hno He.
  assert (∀ u k c p d out, tasks s !! u ≠ Some (OwnerLost v) →
    _waiting c !! rv_reservation_id v = Some t →
    stuck v t (Relay c (<[u := k]> (tasks s)) p d out)) as Hgo.
  { intros u k c p d out Hu Hc. split; [|done]. simpl. rewrite lookup_insert_ne; [done|]. congruence. }
  destruct e as [u w node|u sends|u|u ev|u|u|u now|u told|u from ev sends|u|u first|u];
    simpl in He; destruct (tasks s !! u) as [k|] eqn:Hu; try done;
    [destruct (new_reservation w); [injection He as <-|done]|..];
    try (destruct k; try done; unfold pump_turn, _pump in He;
      repeat match type of He with context [match ?x with _ => _ end] => destruct x; try done end;
      injection He as <-; (apply Hgo; [rewrite Hu; congruence|done])).
  - split.
    + unfold handle. repeat case_match; simpl; by rewrite lookup_insert_ne by congruence.
    + destruct (decide (rv_reservation_id w = rv_reservation_id v)) as [Hid|Hid];
        [|by apply handle_other_waiting].
      rewrite (Hno Hid). by apply handle_waiting.
  - destruct k as [| | |w| | | | |w o| |]; try done; injection He as <-; (apply Hgo; [rewrite Hu; congruence|]).
    + unfold owner_leave. case_decide as Hd; [|done]. simpl. rewrite lookup_delete_ne; [done|].
      intros Heq. rewrite Heq in Hd. congruence.
    + done.
Qed.
Lemma stuck_run limits v t es s s' :
  stuck v t s → Forall (no_peer (rv_reservation_id v)) es → relay_run limits es s = Some s' → stuck v t s'.
Proof.
  revert s. induction es as [|e es IH]; intros s Hs Hno Hrun; simpl in Hrun; [by simplify_eq|].
  inversion Hno; subst. destruct (relay_step limits e s) as [s1|] eqn:He; [|done].
  eapply IH; [by eapply stuck_step|done..].
Qed.
(** An owner whose first send fails blocks its reservation: the handler registers the owner
    as waiting and sends [relay.waiting] before the [try] that would take it out again; so
    until the peer happens to join this dead connection, every later connection of the owner
    for this reservation is refused as busy. *)
Theorem lost_owner_blocks limits es s t v es' s' u w :
  relay_after limits es s → tasks s !! t = Some (OwnerLost v) → t ∉ paired s →
  Forall (no_peer (rv_reservation_id v)) es' → relay_run limits es' s = Some s' →
  tasks s' !! u = None → new_reservation w = Ok w → rv_reservation_id w = rv_reservation_id v →
  ∃ s'', relay_step limits (Connects u w (rv_owner_id w)) s' = Some s'' ∧
    tasks s'' !! u = Some Refused ∧
    sent s'' = sent s' ++ [(u, Close 4429 "reservation_busy")] ∧ coord s'' = coord s'.
Proof.
  intros Hr%relay_after_ok Ht Hup Hno Hrun Hu Hw Hid.
  assert (stuck v t s) as Hs.
  { split; [done|]. apply (ro_waiting _ _ Hr). exists v. unfold here. by rewrite Ht. }
  destruct (stuck_run _ _ _ _ _ _ Hs Hno Hrun) as [_ Hwait].
  simpl. rewrite Hu, Hw. eexists. split; [done|]. unfold handle. rewrite String.eqb_refl.
  unfold owner_enter. rewrite Hid, bool_decide_eq_true_2 by eauto. simpl.
  by rewrite lookup_insert_eq.
Qed.
