(* ===== verification/AhubRelaySamples.v ===== *)
(** The relay at work: the theorems of AhubRelayLaws at concrete runs, and a run in which a
    node has more connections than the limit. *)
From S2P Require Import Prelude PyStr PyVal Ahub AhubRelay AhubRelayLaws.

Definition chars (n : nat) (c : string) : string := String.concat "" (repeat c n).
Definition relay_node (c : string) : string := "an1" +:+ chars 32 c.
Definition reservation_of (c owner peer : string) : RelayReservation :=
  {| rv_reservation_id := chars 32 c; rv_owner_id := relay_node owner;
     rv_allowed_peer_id := relay_node peer; rv_created_ms := 1000; rv_expires_ms := 900000;
     rv_max_duration_ms := 60000; rv_max_bytes_each_direction := 8 |}.
Definition ab : RelayReservation := reservation_of "1" "a" "b".

(** The owner waits, the peer joins, both send, a frame too many ends the session. *)
Definition pairing : list event :=
  [Connects 0 ab (relay_node "a"); Announces 0 true; Connects 1 ab (relay_node "b");
   SeesPaired 0; Readies 1 2000].
Definition talking : list event :=
  pairing ++ [Pumps 1 FromOwner (Receive (Some "hello") None) true;
              Pumps 1 FromPeer (Receive (Some "you") None) true].
Definition talked : list event :=
  talking ++ [Pumps 1 FromOwner (Receive (Some "again") None) true; Concludes 1 FromPeer;
              Leaves 1; SeesDone 0; Leaves 0].
Lemma run_after {A} (es : list event) (f : relay → A) x :
  f <$> relay_run default_limits es new_relay = Some x →
  ∃ s, relay_after default_limits es s ∧ f s = x.
Proof.
  intros H. destruct (relay_run default_limits es new_relay) as [s|] eqn:E; [|done].
  injection H as <-. exists s. by repeat split.
Qed.

Lemma relay_delivers_witness : ∃ s,
  relay_after default_limits talking s ∧ frames_to 1 (sent s) = ["hello"] ∧
  frames_to 1 (sent s) `prefix_of` pumped 1 FromOwner talking.
Proof.
  destruct (run_after talking (λ s, (here session s 1, frames_to 1 (sent s))) (Some (ab, 0%nat), ["hello"]))
    as (s & Hr & Hs); [vm_compute; reflexivity|]. exists s. injection Hs as Hsess Hf.
  split_and!; [exact Hr|exact Hf|].
  exact (proj1 (proj1 (relay_delivers default_limits talking s 1 ab 0 Hr Hsess) FromOwner)).
Defined.
Lemma relay_returns_everything_witness : ∃ s,
  relay_after default_limits talked s ∧ sent s !! 5%nat = Some (0%nat, Close 1009 "byte_limit") ∧
  coord s = new_coordinator.
Proof.
  destruct (run_after talked (λ s, (map_to_list (tasks s), sent s !! 5%nat))
    ([(1%nat, PeerGone ab 0); (0%nat, OwnerGone ab)], Some (0%nat, Close 1009 "byte_limit")))
    as (s & Hr & Hs); [vm_compute; reflexivity|]. exists s. injection Hs as Ht Hc.
  split_and!; [exact Hr|exact Hc|]. apply (relay_returns_everything default_limits talked s Hr).
  intros t k Hk%elem_of_map_to_list. rewrite Ht in Hk.
  repeat (apply elem_of_cons in Hk as [Hk|Hk]; [injection Hk as -> ->; exact I|]).
  by apply elem_of_nil in Hk.
Defined.
Lemma relay_drains_witness : ∃ s s',
  relay_after default_limits pairing s ∧ _active_by_node (coord s) ≠ ∅ ∧
  _active_by_node (coord s') = ∅.
Proof.
  destruct (run_after pairing (λ s, map_to_list (_active_by_node (coord s)))
    [(relay_node "a", 1); (relay_node "b", 1)]) as (s & Hr & Hs); [vm_compute; reflexivity|].
  destruct (relay_drains default_limits pairing s Hr) as (es' & s' & _ & _ & _ & _ & Hb & _).
  exists s, s'. split_and!; [exact Hr| |exact Hb]. intros He. by rewrite He in Hs.
Defined.
(** The owner's first send fails, and it tries again. *)
Definition losing : list event := [Connects 0 ab (relay_node "a"); Announces 0 false].
Lemma lost_owner_blocks_witness : ∃ s s'',
  relay_after default_limits losing s ∧
  relay_step default_limits (Connects 1 ab (relay_node "a")) s = Some s'' ∧
  tasks s'' !! 1%nat = Some Refused.
Proof.
  destruct (run_after losing (λ s, (tasks s !! 0%nat, bool_decide (0%nat ∈ paired s), tasks s !! 1%nat))
    (Some (OwnerLost ab), false, None)) as (s & Hr & Hs); [vm_compute; reflexivity|].
  injection Hs as Ht Hp Hu. apply bool_decide_eq_false in Hp.
  destruct (lost_owner_blocks default_limits losing s 0 ab [] s 1 ab Hr Ht Hp) as (s'' & H1 & H2 & _);
    [constructor|reflexivity|exact Hu|reflexivity|reflexivity|].
  exists s, s''. split_and!; [exact Hr|exact H1|exact H2].
Defined.

(** Node a waits as the owner of four reservations while it has no connection, joins four other
    sessions as the peer, and then its own four peers come. *)
Definition owners : list event :=
  (λ tc, Connects tc.1 (reservation_of tc.2 "a" "b") (relay_node "a")) <$>
  [(0, "1"); (1, "2"); (2, "3"); (3, "4")]%nat.
Definition others : list event :=
  (λ tc, Connects tc.1 (reservation_of tc.2 "c" "a") (relay_node "c")) <$>
  [(4, "5"); (5, "6"); (6, "7"); (7, "8")]%nat.
Definition joins : list event :=
  (λ tc, Connects tc.1 (reservation_of tc.2 "c" "a") (relay_node "a")) <$>
  [(8, "5"); (9, "6"); (10, "7"); (11, "8")]%nat.
Definition peers : list event :=
  (λ tc, Connects tc.1 (reservation_of tc.2 "a" "b") (relay_node "b")) <$>
  [(12, "1"); (13, "2"); (14, "3"); (15, "4")]%nat.
(** The limit of connections per node does not hold: a session counts for both of its nodes,
    but only the peer's count is checked when it begins, and the owner's when it starts to
    wait; a node that waits on its four reservations and joins four others comes to eight
    connections under the default limit of four. *)
Theorem owner_over_limit : ∃ es s,
  relay_after default_limits es s ∧ max_relay_connections_per_node default_limits = 4 ∧
  active_count (relay_node "a") (coord s) = 8 ∧
  count_where (live_for (relay_node "a")) (tasks s) = 8.
Proof.
  destruct (run_after (owners ++ others ++ joins ++ peers)
    (λ s, (active_count (relay_node "a") (coord s), count_where (live_for (relay_node "a")) (tasks s))) (8, 8))
    as (s & Hr & Hs); [vm_compute; reflexivity|].
  injection Hs as H1 H2. eauto 6.
Qed.
