(* ===== verification/RelationData.v ===== *)
(** The records of the relationship book (src/anet/relations.py) with the checks of their
    constructors and their JSON form, actor ids (src/anet/actors.py) and peer cards
    (src/anet/identity.py). *)
From S2P Require Import Prelude PyStr PyVal Codecs Locator ControlPlane.

(** ** actors.py *)

Definition platform_char (a : ascii) : bool := is_lower_az a || is_digit a || one_of "-" a.
(** [_PLATFORM_RE], [_ACTOR_KIND_RE] and [_TYPED_ACTOR_ID_RE] *)
Definition PLATFORM_RE : string → bool := fullmatch is_lower_az platform_char 0 31.
Definition ACTOR_KIND_RE : string → bool :=
  fullmatch is_lower_az (λ a, platform_char a || one_of "." a) 0 63.
Definition TYPED_ACTOR_ID_RE (s : string) : bool :=
  let n := String.length s in
  startswith "act_" s && PLATFORM_RE (substring 4 (n - 37) s) &&
  startswith "_" (substring (n - 33) 33 s) && fullmatch_hex 32 (substring (n - 32) 32 s).
Definition normalize_actor_kind (v : string) : res string :=
  let kind := lower (strip v) in
  raise_if (negb (ACTOR_KIND_RE kind)) (ValueError "invalid Actor kind");;
  mret kind.
Definition is_actor_id (v : string) : bool := startswith "an1" v || TYPED_ACTOR_ID_RE v.
Definition validate_actor_id (v : string) : res string :=
  let actor_id := strip v in
  raise_if (negb (is_actor_id actor_id)) (ValueError "invalid Actor ID");;
  mret actor_id.

(** ** Constants and helpers of relations.py *)

Definition RELATION_BOOK_VERSION : Z := 7.
Definition RELATION_CIRCLES : list string := ["public"; "known"; "collab"; "friend"; "close"; "family"].
Definition ACTOR_STATES : list string := ["active"; "revoked"].
Definition SUBJECT_STATES : list string := ["active"; "superseded"].
Definition RELATIONSHIP_STATES : list string := ["active"; "dormant"; "ended"].
Definition MAX_LABEL_LENGTH : Z := 128.
Definition MAX_EVIDENCE_LENGTH : Z := 256.
Definition MAX_CONTEXT_LENGTH : Z := 64.
Definition INTERACTION_DIRECTIONS : list string := ["incoming"; "outgoing"].
Definition INTERACTION_FACETS : list string := ["message"; "task"; "skill"; "artifact"].
Definition INTERACTION_OUTCOMES : list string :=
  ["queued"; "received"; "submitted"; "working"; "input-required"; "auth-required"; "completed";
   "failed"; "canceled"; "rejected"].
Definition SUBJECT_TRANSITION_TYPES : list string := ["split"; "merge"; "supersede"].
Definition ACTOR_PROOF_SCOPES : list string :=
  ["cryptographic"; "platform-observed"; "bridge-attested"; "operator-attested"].
Definition SUGGESTION_DECISIONS : list string := ["accepted"; "rejected"].
(** [RELATION_EVENT_DETAIL_FIELDS.get(event_type, frozenset())] *)
Definition RELATION_EVENT_DETAIL_FIELDS (event_type : string) : list string :=
  if String.eqb event_type "actor.observed" then ["actor_kind"; "proof_scope"]
  else if String.eqb event_type "actor.observation-refreshed" then ["actor_kind"; "proof_scope"]
  else if String.eqb event_type "subject.actor-linked" then ["confidence"]
  else if String.eqb event_type "relationship.circle-set" then ["circle"; "confidence"]
  else if String.eqb event_type "relationship.context-trust-set" then ["context"; "estimate"; "confidence"]
  else if String.eqb event_type "relationship.paused" then ["state"]
  else if String.eqb event_type "relationship.ended" then ["state"]
  else if String.eqb event_type "relationship.mutual-claim-withdrawn"
    then ["claim_id"; "withdrawing_actor_id"; "relationship_changed"]
  else [].

(** [v not in values] *)
Definition outside (values : list string) (v : string) : bool := bool_decide (v ∉ values).
(** [len(l) != len(set(l))] *)
Definition repeats (l : list string) : bool := negb (bool_decide (NoDup l)).
(** [now] is the caller's time or the clock's. *)
Definition _now_ms (now : Z) : res Z :=
  raise_if (now <=? 0) (ValueError "invalid relationship event time");;
  mret now.
Definition _bounded_text (value label : string) (maximum : Z) : res string :=
  let result := strip value in
  raise_if (String.eqb result "" || (maximum <? len result)) (ValueError ("invalid " +:+ label));;
  mret result.
Definition _confidence (value : Z) (label : string) : res Z :=
  raise_if (negb ((0 <=? value) && (value <=? 100))) (ValueError ("invalid " +:+ label));;
  mret value.
(** A sorted set *)
Definition sorted_set (l : list string) : list string := sorted (remove_dups l).
Definition _unique_text (values : list string) (label : string) (maximum : Z) : res (list string) :=
  texts ← map_res (λ v, _bounded_text v label maximum) values;
  mret (sorted_set texts).
(** The key of a tuple of strings: [-1] ends each string. *)
Definition tuple_key (l : list string) : list Z := concat ((λ s, codes s ++ [-1]) <$> l).
Definition strings (l : list string) : value := VList (VStr <$> l).
Definition positive (t : Z) (error : string) : res unit := raise_if (t <=? 0) (ValueError error).

(** ** Reading JSON *)

Section data.
Context {PL : Platform}.

Definition text_item (k : string) (d : dict) : res string := py_str <$> dict_item k d.
Definition int_item (k : string) (d : dict) : res Z := v ← dict_item k d; py_int v.
Definition text_or (default k : string) (d : dict) : string := py_str (dict_get_or (VStr default) k d).
(** [_unique_text(value.get(k, ()))] *)
Definition unique_item (k label : string) (maximum : Z) (d : dict) : res (list string) :=
  l ← py_iter (dict_get_or (VList []) k d);
  _unique_text (py_str <$> l) label maximum.
(** [tuple(C.from_dict(dict(item)) for item in value.get(k, ()))] *)
Definition items_of {A} (from_dict : dict → res A) (k : string) (d : dict) : res (list A) :=
  l ← py_iter (dict_get_or (VList []) k d);
  map_res (λ v, d ← py_dict v; from_dict d) l.

(** ** Actors *)

Record ActorProof := {
  p_proof_type : string;
  p_scope : string;
  p_issuer_actor_id : string;
  p_evidence_ref : string;
  p_observed_ms : Z;
}.
Definition new_proof (p : ActorProof) : res ActorProof :=
  _bounded_text (p_proof_type p) "Actor proof type" MAX_CONTEXT_LENGTH;;
  raise_if (outside ACTOR_PROOF_SCOPES (p_scope p)) (ValueError "invalid Actor proof scope");;
  validate_actor_id (p_issuer_actor_id p);;
  _bounded_text (p_evidence_ref p) "Actor proof evidence reference" MAX_EVIDENCE_LENGTH;;
  positive (p_observed_ms p) "invalid Actor proof time";;
  mret p.
Definition proof_key (p : ActorProof) : list string := [p_proof_type p; p_scope p; p_issuer_actor_id p].
Definition proof_to_dict (p : ActorProof) : dict :=
  [field "proof_type" (VStr (p_proof_type p)); field "scope" (VStr (p_scope p));
   field "issuer_actor_id" (VStr (p_issuer_actor_id p));
   field "evidence_ref" (VStr (p_evidence_ref p)); field "observed_ms" (VInt (p_observed_ms p))].
Definition proof_from_dict (d : dict) : res ActorProof :=
  proof_type ← text_item "proof_type" d;
  scope ← text_item "scope" d;
  issuer ← text_item "issuer_actor_id" d;
  evidence ← text_item "evidence_ref" d;
  observed ← int_item "observed_ms" d;
  new_proof {| p_proof_type := proof_type; p_scope := scope; p_issuer_actor_id := issuer;
               p_evidence_ref := evidence; p_observed_ms := observed |}.

(** The checks that [ActorObservation] and [ActorRecord] share *)
Definition check_actor (actor_id actor_kind actor_label : string) : res unit :=
  validate_actor_id actor_id;;
  kind ← normalize_actor_kind actor_kind;
  raise_if (negb (Bool.eqb (startswith "an1" actor_id) (String.eqb kind "anet.node")))
    (ValueError "Actor ID and kind use incompatible identity domains");;
  raise_if (MAX_LABEL_LENGTH <? len actor_label) (ValueError "invalid Actor label").
Record ActorObservation := {
  o_actor_id : string;
  o_actor_kind : string;
  o_actor_label : string;
  o_proof : ActorProof;
}.
Definition new_observation (o : ActorObservation) : res ActorObservation :=
  check_actor (o_actor_id o) (o_actor_kind o) (o_actor_label o);;
  mret o.
Record ActorRecord := {
  a_actor_id : string;
  a_actor_kind : string;
  a_actor_label : string;
  a_state : string;
  a_proofs : list ActorProof;
  a_evidence_refs : list string;
  a_first_seen_ms : Z;
  a_updated_ms : Z;
}.
Definition new_actor (a : ActorRecord) : res ActorRecord :=
  check_actor (a_actor_id a) (a_actor_kind a) (a_actor_label a);;
  raise_if (outside ACTOR_STATES (a_state a)) (ValueError "invalid Actor state");;
  raise_if (bool_decide (a_proofs a = []) || negb (bool_decide (NoDup (proof_key <$> a_proofs a))))
    (ValueError "Actor must contain unique proof records");;
  raise_if ((a_first_seen_ms a <=? 0) || (a_updated_ms a <? a_first_seen_ms a))
    (ValueError "invalid Actor observation time");;
  mret a.
Definition actor_to_dict (a : ActorRecord) : dict :=
  [field "actor_id" (VStr (a_actor_id a)); field "actor_kind" (VStr (a_actor_kind a));
   field "actor_label" (VStr (a_actor_label a)); field "state" (VStr (a_state a));
   field "proofs" (VList (VMap ∘ proof_to_dict <$> order_by (tuple_key ∘ proof_key) (a_proofs a)));
   field "evidence_refs" (strings (a_evidence_refs a));
   field "first_seen_ms" (VInt (a_first_seen_ms a)); field "updated_ms" (VInt (a_updated_ms a))].
Definition actor_from_dict (d : dict) : res ActorRecord :=
  actor_id ← text_item "actor_id" d;
  actor_kind ← text_item "actor_kind" d;
  proofs ← items_of proof_from_dict "proofs" d;
  evidence ← unique_item "evidence_refs" "Actor evidence reference" MAX_EVIDENCE_LENGTH d;
  first_seen ← int_item "first_seen_ms" d;
  updated ← int_item "updated_ms" d;
  new_actor {| a_actor_id := actor_id; a_actor_kind := actor_kind;
               a_actor_label := text_or "" "actor_label" d; a_state := text_or "active" "state" d;
               a_proofs := proofs; a_evidence_refs := evidence; a_first_seen_ms := first_seen;
               a_updated_ms := updated |}.

(** ** Subjects *)

Record SubjectActorLink := {
  l_actor_id : string;
  l_confidence : Z;
  l_evidence_refs : list string;
  l_updated_ms : Z;
}.
Definition new_link (l : SubjectActorLink) : res SubjectActorLink :=
  validate_actor_id (l_actor_id l);;
  _confidence (l_confidence l) "Subject link confidence";;
  positive (l_updated_ms l) "invalid Subject link update time";;
  mret l.
Definition link_to_dict (l : SubjectActorLink) : dict :=
  [field "actor_id" (VStr (l_actor_id l)); field "confidence" (VInt (l_confidence l));
   field "evidence_refs" (strings (l_evidence_refs l)); field "updated_ms" (VInt (l_updated_ms l))].
Definition link_from_dict (d : dict) : res SubjectActorLink :=
  actor_id ← text_item "actor_id" d;
  confidence ← int_item "confidence" d;
  evidence ← unique_item "evidence_refs" "Subject link evidence reference" MAX_EVIDENCE_LENGTH d;
  updated ← int_item "updated_ms" d;
  new_link {| l_actor_id := actor_id; l_confidence := confidence; l_evidence_refs := evidence;
              l_updated_ms := updated |}.

Definition is_subject_ref (s : string) : bool := startswith "subj_" s.
Record SubjectHypothesis := {
  s_subject_ref : string;
  s_state : string;
  s_labels : list string;
  s_actor_links : list SubjectActorLink;
  s_evidence_refs : list string;
  s_updated_ms : Z;
}.
Definition link_ids (s : SubjectHypothesis) : list string := l_actor_id <$> s_actor_links s.
Definition new_subject (s : SubjectHypothesis) : res SubjectHypothesis :=
  raise_if (negb (is_subject_ref (s_subject_ref s))) (ValueError "invalid local Subject reference");;
  raise_if (outside SUBJECT_STATES (s_state s)) (ValueError "invalid Subject hypothesis state");;
  raise_if (bool_decide (s_actor_links s = []))
    (ValueError "Subject hypothesis requires at least one Actor link");;
  raise_if (repeats (link_ids s)) (ValueError "Subject hypothesis contains a duplicate Actor link");;
  positive (s_updated_ms s) "invalid Subject hypothesis update time";;
  mret s.
(** The property [confidence]: links are never empty. *)
Definition subject_confidence (s : SubjectHypothesis) : Z :=
  match l_confidence <$> s_actor_links s with [] => 0 | c :: cs => foldr Z.max c cs end.
Definition subject_to_dict (s : SubjectHypothesis) : dict :=
  [field "subject_ref" (VStr (s_subject_ref s)); field "state" (VStr (s_state s));
   field "labels" (strings (s_labels s));
   field "actor_links" (VList (VMap ∘ link_to_dict <$> order_by (codes ∘ l_actor_id) (s_actor_links s)));
   field "evidence_refs" (strings (s_evidence_refs s));
   field "confidence" (VInt (subject_confidence s)); field "updated_ms" (VInt (s_updated_ms s))].
Definition subject_from_dict (d : dict) : res SubjectHypothesis :=
  subject_ref ← text_item "subject_ref" d;
  labels ← unique_item "labels" "Subject label" MAX_LABEL_LENGTH d;
  links ← items_of link_from_dict "actor_links" d;
  evidence ← unique_item "evidence_refs" "Subject evidence reference" MAX_EVIDENCE_LENGTH d;
  updated ← int_item "updated_ms" d;
  new_subject {| s_subject_ref := subject_ref; s_state := text_or "active" "state" d;
                 s_labels := labels; s_actor_links := links; s_evidence_refs := evidence;
                 s_updated_ms := updated |}.

(** ** Relationships *)

Record ContextTrust := {
  t_context : string;
  t_estimate : Z;
  t_confidence : Z;
  t_evidence_refs : list string;
  t_updated_ms : Z;
}.
Definition new_trust (t : ContextTrust) : res ContextTrust :=
  _bounded_text (t_context t) "trust context" MAX_CONTEXT_LENGTH;;
  _confidence (t_estimate t) "context trust estimate";;
  _confidence (t_confidence t) "context trust confidence";;
  positive (t_updated_ms t) "invalid context trust update time";;
  mret t.
Definition trust_to_dict (t : ContextTrust) : dict :=
  [field "context" (VStr (t_context t)); field "estimate" (VInt (t_estimate t));
   field "confidence" (VInt (t_confidence t)); field "evidence_refs" (strings (t_evidence_refs t));
   field "updated_ms" (VInt (t_updated_ms t))].
Definition trust_from_dict (d : dict) : res ContextTrust :=
  context ← text_item "context" d;
  estimate ← int_item "estimate" d;
  confidence ← int_item "confidence" d;
  evidence ← unique_item "evidence_refs" "context trust evidence reference" MAX_EVIDENCE_LENGTH d;
  updated ← int_item "updated_ms" d;
  new_trust {| t_context := context; t_estimate := estimate; t_confidence := confidence;
               t_evidence_refs := evidence; t_updated_ms := updated |}.

Record RelationshipEstimate := {
  r_subject_ref : string;
  r_circle : string;
  r_state : string;
  r_relationship_labels : list string;
  r_relationship_confidence : Z;
  r_context_trust : list ContextTrust;
  r_evidence_refs : list string;
  r_updated_ms : Z;
}.
Definition new_estimate (r : RelationshipEstimate) : res RelationshipEstimate :=
  raise_if (negb (is_subject_ref (r_subject_ref r))) (ValueError "invalid local Subject reference");;
  raise_if (outside RELATION_CIRCLES (r_circle r)) (ValueError "invalid relationship circle");;
  raise_if (outside RELATIONSHIP_STATES (r_state r)) (ValueError "invalid relationship state");;
  _confidence (r_relationship_confidence r) "relationship confidence";;
  raise_if (repeats (t_context <$> r_context_trust r))
    (ValueError "relationship contains a duplicate trust context");;
  positive (r_updated_ms r) "invalid relationship update time";;
  mret r.
Definition estimate_to_dict (r : RelationshipEstimate) : dict :=
  [field "subject_ref" (VStr (r_subject_ref r)); field "circle" (VStr (r_circle r));
   field "state" (VStr (r_state r)); field "relationship_labels" (strings (r_relationship_labels r));
   field "relationship_confidence" (VInt (r_relationship_confidence r));
   field "context_trust" (VList (VMap ∘ trust_to_dict <$> order_by (codes ∘ t_context) (r_context_trust r)));
   field "evidence_refs" (strings (r_evidence_refs r)); field "updated_ms" (VInt (r_updated_ms r))].
Definition estimate_from_dict (d : dict) : res RelationshipEstimate :=
  subject_ref ← text_item "subject_ref" d;
  circle ← text_item "circle" d;
  labels ← unique_item "relationship_labels" "relationship label" MAX_LABEL_LENGTH d;
  confidence ← int_item "relationship_confidence" d;
  trust ← items_of trust_from_dict "context_trust" d;
  evidence ← unique_item "evidence_refs" "relationship evidence reference" MAX_EVIDENCE_LENGTH d;
  updated ← int_item "updated_ms" d;
  new_estimate {| r_subject_ref := subject_ref; r_circle := circle; r_state := text_or "active" "state" d;
                  r_relationship_labels := labels; r_relationship_confidence := confidence;
                  r_context_trust := trust; r_evidence_refs := evidence; r_updated_ms := updated |}.

(** ** Events *)

(** [details] holds texts and integers. *)
Record RelationshipEvent := {
  v_event_id : string;
  v_event_type : string;
  v_actor_id : string;
  v_subject_ref : string;
  v_evidence_ref : string;
  v_observed_ms : Z;
  v_details : list (string * value);
}.
(** [type(value) in {str, int}] *)
Definition plain_detail (v : value) : bool :=
  match v with VStr _ | VInt _ => true | _ => false end.
Definition detail (k : string) (details : list (string * value)) : option value :=
  snd <$> List.find (λ kv, String.eqb kv.1 k) details.
(** [if key in detail_map: check(detail_map[key])] *)
Definition check_detail (k : string) (details : list (string * value)) (check : value → res unit)
    : res unit :=
  match detail k details with Some v => check v | None => mret tt end.
Definition new_event (v : RelationshipEvent) : res RelationshipEvent :=
  raise_if (negb (startswith "revt_" (v_event_id v))) (ValueError "invalid relationship event ID");;
  _bounded_text (v_event_type v) "relationship event type" MAX_CONTEXT_LENGTH;;
  raise_if (negb (String.eqb (v_actor_id v) "") && negb (is_actor_id (v_actor_id v)))
    (ValueError "invalid relationship event Actor");;
  raise_if (negb (String.eqb (v_subject_ref v) "") && negb (is_subject_ref (v_subject_ref v)))
    (ValueError "invalid relationship event Subject");;
  _bounded_text (v_evidence_ref v) "relationship event evidence reference" MAX_EVIDENCE_LENGTH;;
  positive (v_observed_ms v) "invalid relationship event time";;
  let details := v_details v in
  raise_if (repeats details.*1 ||
            existsb (outside (RELATION_EVENT_DETAIL_FIELDS (v_event_type v))) details.*1 ||
            negb (forallb (λ kv, plain_detail kv.2) details))
    (ValueError "invalid relationship event details");;
  check_detail "confidence" details
    (λ w, n ← py_int w; _confidence n "relationship event confidence";; mret tt);;
  check_detail "estimate" details
    (λ w, n ← py_int w; _confidence n "relationship event estimate";; mret tt);;
  check_detail "circle" details (λ w,
    raise_if (negb (existsb (is_text w) RELATION_CIRCLES)) (ValueError "invalid relationship event circle"));;
  check_detail "context" details
    (λ w, _bounded_text (py_str w) "relationship event context" MAX_CONTEXT_LENGTH;; mret tt);;
  check_detail "actor_kind" details (λ w, normalize_actor_kind (py_str w);; mret tt);;
  check_detail "proof_scope" details (λ w,
    raise_if (negb (existsb (is_text w) ACTOR_PROOF_SCOPES))
      (ValueError "invalid relationship event proof scope"));;
  mret v.
Definition event_to_dict (v : RelationshipEvent) : dict :=
  [field "event_id" (VStr (v_event_id v)); field "event_type" (VStr (v_event_type v));
   field "actor_id" (VStr (v_actor_id v)); field "subject_ref" (VStr (v_subject_ref v));
   field "evidence_ref" (VStr (v_evidence_ref v)); field "observed_ms" (VInt (v_observed_ms v));
   field "details" (VMap (prod_map VStr id <$> v_details v))].
(** [tuple(sorted(details.items()))] *)
Definition sorted_details (details : list (string * value)) : list (string * value) :=
  order_by (codes ∘ fst) details.
Definition event_from_dict (d : dict) : res RelationshipEvent :=
  match dict_get_or (VMap []) "details" d with
  | VMap raw_details =>
      raise_if (negb (forallb (λ kv, plain_detail kv.2) raw_details))
        (ValueError "invalid relationship event details");;
      event_id ← text_item "event_id" d;
      event_type ← text_item "event_type" d;
      evidence ← text_item "evidence_ref" d;
      observed ← int_item "observed_ms" d;
      new_event {| v_event_id := event_id; v_event_type := event_type;
                   v_actor_id := text_or "" "actor_id" d; v_subject_ref := text_or "" "subject_ref" d;
                   v_evidence_ref := evidence; v_observed_ms := observed;
                   v_details := sorted_details (prod_map py_str id <$> raw_details) |}
  | _ => Err (ValueError "invalid relationship event details")
  end.

(** ** Decisions on suggestions *)

Record SuggestionDecision := {
  c_decision_id : string;
  c_suggestion_id : string;
  c_suggestion_type : string;
  c_subject_ref : string;
  c_decision : string;
  c_rationale : string;
  c_basis_hash : string;
  c_suggestion_confidence : Z;
  c_proposed_circle : string;
  c_context : string;
  c_proposed_estimate : option Z;
  c_applied : bool;
  c_decided_ms : Z;
}.
Definition new_decision (c : SuggestionDecision) : res SuggestionDecision :=
  raise_if (negb (startswith "rsd_" (c_decision_id c))) (ValueError "invalid suggestion decision ID");;
  raise_if (negb (startswith "rsg_" (c_suggestion_id c)))
    (ValueError "invalid relationship suggestion ID");;
  _bounded_text (c_suggestion_type c) "relationship suggestion type" MAX_CONTEXT_LENGTH;;
  raise_if (negb (is_subject_ref (c_subject_ref c))) (ValueError "invalid suggestion decision Subject");;
  raise_if (outside SUGGESTION_DECISIONS (c_decision c)) (ValueError "invalid suggestion decision");;
  _bounded_text (c_rationale c) "suggestion decision rationale" MAX_EVIDENCE_LENGTH;;
  raise_if (negb (len (c_basis_hash c) =? 32)) (ValueError "invalid suggestion decision basis");;
  _confidence (c_suggestion_confidence c) "suggestion decision confidence";;
  raise_if (negb (String.eqb (c_proposed_circle c) "") && outside RELATION_CIRCLES (c_proposed_circle c))
    (ValueError "invalid suggestion decision circle");;
  (if String.eqb (c_context c) "" then mret tt
   else _bounded_text (c_context c) "suggestion decision context" MAX_CONTEXT_LENGTH;; mret tt);;
  match c_proposed_estimate c with
  | Some e => _confidence e "suggestion decision estimate";; mret tt
  | None => mret tt
  end;;
  raise_if (negb (Bool.eqb (c_applied c) (String.eqb (c_decision c) "accepted")))
    (ValueError "suggestion decision application mismatch");;
  positive (c_decided_ms c) "invalid suggestion decision time";;
  mret c.
Definition optional_int (o : option Z) : value := match o with Some z => VInt z | None => VNone end.
Definition decision_to_dict (c : SuggestionDecision) : dict :=
  [field "decision_id" (VStr (c_decision_id c)); field "suggestion_id" (VStr (c_suggestion_id c));
   field "suggestion_type" (VStr (c_suggestion_type c)); field "subject_ref" (VStr (c_subject_ref c));
   field "decision" (VStr (c_decision c)); field "rationale" (VStr (c_rationale c));
   field "basis_hash" (VStr (c_basis_hash c));
   field "suggestion_confidence" (VInt (c_suggestion_confidence c));
   field "proposed_circle" (VStr (c_proposed_circle c)); field "context" (VStr (c_context c));
   field "proposed_estimate" (optional_int (c_proposed_estimate c));
   field "applied" (VBool (c_applied c)); field "authorization_effect" (VStr "none");
   field "decided_ms" (VInt (c_decided_ms c))].
Definition decision_from_dict (d : dict) : res SuggestionDecision :=
  match dict_get "applied" d with
  | VBool applied =>
      decision_id ← text_item "decision_id" d;
      suggestion_id ← text_item "suggestion_id" d;
      suggestion_type ← text_item "suggestion_type" d;
      subject_ref ← text_item "subject_ref" d;
      decision ← text_item "decision" d;
      rationale ← text_item "rationale" d;
      basis ← text_item "basis_hash" d;
      confidence ← int_item "suggestion_confidence" d;
      estimate ← match dict_get "proposed_estimate" d with
                 | VNone => mret None
                 | w => n ← py_int w; mret (Some n)
                 end;
      decided ← int_item "decided_ms" d;
      new_decision {| c_decision_id := decision_id; c_suggestion_id := suggestion_id;
                      c_suggestion_type := suggestion_type; c_subject_ref := subject_ref;
                      c_decision := decision; c_rationale := rationale; c_basis_hash := basis;
                      c_suggestion_confidence := confidence;
                      c_proposed_circle := text_or "" "proposed_circle" d;
                      c_context := text_or "" "context" d; c_proposed_estimate := estimate;
                      c_applied := applied; c_decided_ms := decided |}
  | _ => Err (ValueError "invalid suggestion decision application")
  end.

(** ** Interactions *)

Record InteractionEvidence := {
  i_interaction_id : string;
  i_actor_id : string;
  i_subject_ref : string;
  i_direction : string;
  i_facets : list string;
  i_context : string;
  i_outcome : string;
  i_evidence_ref : string;
  i_occurred_ms : Z;
}.
Definition new_interaction (i : InteractionEvidence) : res InteractionEvidence :=
  raise_if (negb (startswith "iev_" (i_interaction_id i))) (ValueError "invalid interaction evidence ID");;
  validate_actor_id (i_actor_id i);;
  raise_if (negb (is_subject_ref (i_subject_ref i))) (ValueError "invalid interaction Subject");;
  raise_if (outside INTERACTION_DIRECTIONS (i_direction i)) (ValueError "invalid interaction direction");;
  raise_if (bool_decide (i_facets i = []) || existsb (outside INTERACTION_FACETS) (i_facets i))
    (ValueError "invalid interaction facets");;
  raise_if (repeats (i_facets i)) (ValueError "duplicate interaction facet");;
  _bounded_text (i_context i) "interaction context" MAX_CONTEXT_LENGTH;;
  raise_if (outside INTERACTION_OUTCOMES (i_outcome i)) (ValueError "invalid interaction outcome");;
  _bounded_text (i_evidence_ref i) "interaction evidence reference" MAX_EVIDENCE_LENGTH;;
  positive (i_occurred_ms i) "invalid interaction time";;
  mret i.
(** [InteractionEvidence.create]; the fields are joined by NUL. *)
Definition create_interaction (actor_id subject_ref direction : string) (facets : list string)
    (context outcome evidence_ref : string) (occurred_ms : Z) : res InteractionEvidence :=
  let nul := String Ascii.zero "" in
  let source := actor_id +:+ nul +:+ direction +:+ nul +:+ evidence_ref in
  new_interaction
    {| i_interaction_id := "iev_" +:+ blake2s_hexdigest 16 "anet-iev" (utf8 source);
       i_actor_id := actor_id; i_subject_ref := subject_ref; i_direction := direction;
       i_facets := sorted_set facets; i_context := context; i_outcome := outcome;
       i_evidence_ref := evidence_ref; i_occurred_ms := occurred_ms |}.
Definition interaction_to_dict (i : InteractionEvidence) : dict :=
  [field "interaction_id" (VStr (i_interaction_id i)); field "actor_id" (VStr (i_actor_id i));
   field "subject_ref" (VStr (i_subject_ref i)); field "direction" (VStr (i_direction i));
   field "facets" (strings (i_facets i)); field "context" (VStr (i_context i));
   field "outcome" (VStr (i_outcome i)); field "evidence_ref" (VStr (i_evidence_ref i));
   field "occurred_ms" (VInt (i_occurred_ms i))].
(** [tuple(str(item) for item in value.get(k, ()))] *)
Definition texts_of (k : string) (d : dict) : res (list string) :=
  l ← py_iter (dict_get_or (VList []) k d); mret (List.map py_str l).
Definition interaction_from_dict (d : dict) : res InteractionEvidence :=
  interaction_id ← text_item "interaction_id" d;
  actor_id ← text_item "actor_id" d;
  subject_ref ← text_item "subject_ref" d;
  direction ← text_item "direction" d;
  facets ← texts_of "facets" d;
  context ← text_item "context" d;
  outcome ← text_item "outcome" d;
  evidence ← text_item "evidence_ref" d;
  occurred ← int_item "occurred_ms" d;
  new_interaction {| i_interaction_id := interaction_id; i_actor_id := actor_id;
                     i_subject_ref := subject_ref; i_direction := direction; i_facets := facets;
                     i_context := context; i_outcome := outcome; i_evidence_ref := evidence;
                     i_occurred_ms := occurred |}.

(** ** Lineage *)

Record SubjectTransition := {
  n_transition_id : string;
  n_transition_type : string;
  n_source_subject_refs : list string;
  n_replacement_subject_refs : list string;
  n_confidence : Z;
  n_evidence_ref : string;
  n_observed_ms : Z;
}.
Definition new_transition (n : SubjectTransition) : res SubjectTransition :=
  let sources := n_source_subject_refs n in
  let replacements := n_replacement_subject_refs n in
  let type := n_transition_type n in
  raise_if (negb (startswith "strn_" (n_transition_id n))) (ValueError "invalid Subject transition ID");;
  raise_if (outside SUBJECT_TRANSITION_TYPES type) (ValueError "invalid Subject transition type");;
  raise_if (bool_decide (sources = []) || bool_decide (replacements = []))
    (ValueError "Subject transition requires sources and replacements");;
  raise_if (existsb (λ s, negb (is_subject_ref s)) (sources ++ replacements))
    (ValueError "invalid Subject transition reference");;
  raise_if (repeats (sources ++ replacements))
    (ValueError "Subject transition contains a duplicate reference");;
  raise_if (String.eqb type "split" &&
            (negb (length sources =? 1)%nat || (length replacements <? 2)%nat))
    (ValueError "split requires one source and multiple replacements");;
  raise_if (String.eqb type "merge" &&
            ((length sources <? 2)%nat || negb (length replacements =? 1)%nat))
    (ValueError "merge requires multiple sources and one replacement");;
  raise_if (String.eqb type "supersede" &&
            (negb (length sources =? 1)%nat || negb (length replacements =? 1)%nat))
    (ValueError "supersede requires one source and one replacement");;
  _confidence (n_confidence n) "Subject transition confidence";;
  _bounded_text (n_evidence_ref n) "Subject transition evidence reference" MAX_EVIDENCE_LENGTH;;
  positive (n_observed_ms n) "invalid Subject transition time";;
  mret n.
Definition transition_to_dict (n : SubjectTransition) : dict :=
  [field "transition_id" (VStr (n_transition_id n)); field "transition_type" (VStr (n_transition_type n));
   field "source_subject_refs" (strings (n_source_subject_refs n));
   field "replacement_subject_refs" (strings (n_replacement_subject_refs n));
   field "confidence" (VInt (n_confidence n)); field "evidence_ref" (VStr (n_evidence_ref n));
   field "observed_ms" (VInt (n_observed_ms n))].
Definition transition_from_dict (d : dict) : res SubjectTransition :=
  transition_id ← text_item "transition_id" d;
  transition_type ← text_item "transition_type" d;
  sources ← texts_of "source_subject_refs" d;
  replacements ← texts_of "replacement_subject_refs" d;
  confidence ← int_item "confidence" d;
  evidence ← text_item "evidence_ref" d;
  observed ← int_item "observed_ms" d;
  new_transition {| n_transition_id := transition_id; n_transition_type := transition_type;
                    n_source_subject_refs := sources; n_replacement_subject_refs := replacements;
                    n_confidence := confidence; n_evidence_ref := evidence; n_observed_ms := observed |}.

(** ** The projection of one actor *)

Record RelationshipRecord := {
  q_subject_ref : string;
  q_actor_id : string;
  q_actor_kind : string;
  q_actor_label : string;
  q_proof_scopes : list string;
  q_circle : string;
  q_state : string;
  q_relationship_labels : list string;
  q_subject_confidence : Z;
  q_relationship_confidence : Z;
  q_evidence_refs : list string;
  q_updated_ms : Z;
}.
Definition record_to_dict (q : RelationshipRecord) : dict :=
  [field "subject_ref" (VStr (q_subject_ref q)); field "actor_id" (VStr (q_actor_id q));
   field "actor_kind" (VStr (q_actor_kind q)); field "actor_label" (VStr (q_actor_label q));
   field "proof_scopes" (strings (q_proof_scopes q)); field "circle" (VStr (q_circle q));
   field "state" (VStr (q_state q)); field "relationship_labels" (strings (q_relationship_labels q));
   field "subject_confidence" (VInt (q_subject_confidence q));
   field "relationship_confidence" (VInt (q_relationship_confidence q));
   field "evidence_refs" (strings (q_evidence_refs q)); field "updated_ms" (VInt (q_updated_ms q))].

(** ** Peer cards (identity.py) *)

Record PeerCard := {
  k_node_id : string;
  k_sign_public : bytes;
  k_box_public : bytes;
  k_label : string;
  k_addresses : list string;
  k_capabilities : list string;
  k_created_ms : Z;
  k_signature : bytes;
  k_version : Z;
}.
Definition CARD_VERSION : Z := 1.
Definition signing_fields (k : PeerCard) : list value :=
  [VInt (k_version k); VStr (k_node_id k); VBytes (k_sign_public k); VBytes (k_box_public k);
   VStr (k_label k); strings (sorted (k_addresses k)); strings (sorted (k_capabilities k));
   VInt (k_created_ms k)].
(** [from_public_bytes] takes 32 bytes. *)
Definition verify_card `{Digests, Signatures, Urllib} (k : PeerCard) : res unit :=
  raise_if (negb (k_version k =? CARD_VERSION))
    (ValueError ("unsupported peer card version: " +:+ str_of_Z (k_version k)));;
  raise_if (negb (String.eqb (k_node_id k) (derive_node_id (k_sign_public k) (k_box_public k))))
    (ValueError "peer card node id does not match public keys");;
  raise_if (String.eqb (k_signature k) "") (ValueError "peer card is unsigned");;
  raise_if (negb (len (k_sign_public k) =? 32))
    (ValueError "An Ed25519 public key is 32 bytes long");;
  packed ← canonical_pack (VList (signing_fields k));
  raise_if (negb (ed25519_verify (k_sign_public k) (k_signature k) packed)) InvalidSignature;;
  map_res parse_locator (k_addresses k);;
  mret tt.
End data.
