(* ===== verification/RelationBook.v ===== *)
(** The relationship book (src/anet/relations.py [RelationshipBook]): actors, subject
    hypotheses, relationships, events, interactions, lineage and decisions, and the JSON file
    they are saved to.  Time and random tokens are arguments. *)
From S2P Require Import Prelude PyStr PyVal Codecs Locator ControlPlane RelationData.

(** [b_file] is the value of the JSON file, [None] while it does not exist. *)
Record RelationshipBook := Book {
  b_actors : gmap string ActorRecord;
  b_subjects : gmap string SubjectHypothesis;
  b_relationships : gmap string RelationshipEstimate;
  b_events : list RelationshipEvent;
  b_interactions : gmap string InteractionEvidence;
  b_transitions : list SubjectTransition;
  b_suggestion_decisions : gmap string SuggestionDecision;
  b_file : option value;
}.
Definition new_book : RelationshipBook := Book ∅ ∅ ∅ [] ∅ [] ∅ None.
Definition set_actors x b := Book x (b_subjects b) (b_relationships b) (b_events b) (b_interactions b)
  (b_transitions b) (b_suggestion_decisions b) (b_file b).
Definition set_subjects x b := Book (b_actors b) x (b_relationships b) (b_events b) (b_interactions b)
  (b_transitions b) (b_suggestion_decisions b) (b_file b).
Definition set_relationships x b := Book (b_actors b) (b_subjects b) x (b_events b) (b_interactions b)
  (b_transitions b) (b_suggestion_decisions b) (b_file b).
Definition set_events x b := Book (b_actors b) (b_subjects b) (b_relationships b) x (b_interactions b)
  (b_transitions b) (b_suggestion_decisions b) (b_file b).
Definition set_interactions x b := Book (b_actors b) (b_subjects b) (b_relationships b) (b_events b) x
  (b_transitions b) (b_suggestion_decisions b) (b_file b).
Definition set_transitions x b := Book (b_actors b) (b_subjects b) (b_relationships b) (b_events b)
  (b_interactions b) x (b_suggestion_decisions b) (b_file b).
Definition set_decisions x b := Book (b_actors b) (b_subjects b) (b_relationships b) (b_events b)
  (b_interactions b) (b_transitions b) x (b_file b).
Definition set_file x b := Book (b_actors b) (b_subjects b) (b_relationships b) (b_events b)
  (b_interactions b) (b_transitions b) (b_suggestion_decisions b) x.
Abbreviation BM := (ST RelationshipBook).

(** [d.values()] and [[d[key] for key in sorted(d)]] *)
Definition values {V} (m : gmap string V) : list V := (map_to_list m).*2.
Definition in_order {V} (m : gmap string V) : list V := (order_by (codes ∘ fst) (map_to_list m)).*2.
(** [for x in l: check(x)] *)
Definition check_all {A} (check : A → res unit) (l : list A) : res unit := map_res check l;; mret tt.
(** [tuple(dict.fromkeys(l))] *)
Definition fromkeys (l : list string) : list string := reverse (remove_dups (reverse l)).

(** The random tokens of one call: of the [n]th new subject and of the [n]th event *)
Record draws := {
  subject_token : nat → string;
  event_token : nat → string;
  transition_token : string;
}.
Definition subject_ref (d : draws) (n : nat) : string := "subj_" +:+ subject_token d n.
Definition event_id (d : draws) (n : nat) : string := "revt_" +:+ event_token d n.
Definition transition_id (d : draws) : string := "strn_" +:+ transition_token d.

(** ** The model that a file must satisfy *)

Section validation.
Context (own_actor_id : string).

Definition known_issuer (actors : gmap string ActorRecord) (actor_id : string) (p : ActorProof) : bool :=
  String.eqb (p_issuer_actor_id p) own_actor_id || String.eqb (p_issuer_actor_id p) actor_id ||
  bool_decide (is_Some (actors !! p_issuer_actor_id p)).
Definition linked (subjects : list SubjectHypothesis) : gset string :=
  list_to_set (concat (link_ids <$> subjects)).
Definition is_active (s : SubjectHypothesis) : bool := String.eqb (s_state s) "active".
Definition validate_interaction (actors : gmap string ActorRecord)
    (subjects : gmap string SubjectHypothesis) (i : InteractionEvidence) : res unit :=
  raise_if (bool_decide (actors !! i_actor_id i = None))
    (ValueError "interaction references an unknown Actor");;
  s ← of_option (ValueError "interaction references an unknown Subject") (subjects !! i_subject_ref i);
  raise_if (bool_decide (i_actor_id i ∉ link_ids s))
    (ValueError "interaction Actor is not linked to its Subject").
(** The loop over the transitions, with the sources and replacements met so far *)
Fixpoint validate_sources (subjects : gmap string SubjectHypothesis) (met refs : list string) : res (list string) :=
  match refs with
  | [] => mret met
  | r :: refs =>
      raise_if (bool_decide (r ∈ met)) (ValueError "Subject hypothesis has multiple outgoing transitions");;
      source ← of_option (ValueError "transition references an unknown source Subject") (subjects !! r);
      raise_if (negb (String.eqb (s_state source) "superseded"))
        (ValueError "transition source Subject is not superseded");;
      validate_sources subjects (r :: met) refs
  end.
Fixpoint validate_replacements (subjects : gmap string SubjectHypothesis) (met refs : list string)
    : res (list string) :=
  match refs with
  | [] => mret met
  | r :: refs =>
      raise_if (bool_decide (r ∈ met)) (ValueError "Subject hypothesis has multiple incoming transitions");;
      of_option (ValueError "transition references an unknown replacement Subject") (subjects !! r);;
      validate_replacements subjects (r :: met) refs
  end.
Fixpoint validate_transitions (subjects : gmap string SubjectHypothesis) (sources replacements : list string)
    (ts : list SubjectTransition) : res unit :=
  match ts with
  | [] => mret tt
  | t :: ts =>
      sources ← validate_sources subjects sources (n_source_subject_refs t);
      replacements ← validate_replacements subjects replacements (n_replacement_subject_refs t);
      validate_transitions subjects sources replacements ts
  end.
(** [lineage.setdefault(source, set()).update(replacements)] *)
Definition lineage_of (ts : list SubjectTransition) : gmap string (list string) :=
  foldl (λ lineage t, foldl (λ lineage r,
           <[r := default [] (lineage !! r) ++ n_replacement_subject_refs t]> lineage)
         lineage (n_source_subject_refs t)) ∅ ts.
(** [visit], with the recursion bounded by [fuel]; it returns the visited references. *)
Definition too_deep : exn := RuntimeError "maximum recursion depth exceeded".
Fixpoint visit (fuel : nat) (lineage : gmap string (list string)) (visiting visited : list string)
    (r : string) : res (list string) :=
  match fuel with
  | O => Err too_deep
  | S fuel =>
      raise_if (bool_decide (r ∈ visiting)) (ValueError "Subject transition lineage contains a cycle");;
      if decide (r ∈ visited) then mret visited
      else
        visited ← foldl (λ acc r', acc ≫= λ visited, visit fuel lineage (r :: visiting) visited r')
                    (mret visited) (default [] (lineage !! r));
        mret (r :: visited)
  end.
Definition validate_lineage (ts : list SubjectTransition) : res unit :=
  let lineage := lineage_of ts in
  foldl (λ acc r, acc ≫= λ visited, visit (2 + size lineage) lineage [] visited r)
    (mret []) (map_to_list lineage).*1;;
  mret tt.
(** [_validate_model]; of several faults, which one is reported depends on the order of the
    dictionaries. *)
Definition _validate_model (actors : gmap string ActorRecord) (subjects : gmap string SubjectHypothesis)
    (relationships : gmap string RelationshipEstimate) (events : list RelationshipEvent)
    (interactions : gmap string InteractionEvidence) (transitions : list SubjectTransition)
    (decisions : gmap string SuggestionDecision) : res unit :=
  raise_if (bool_decide (is_Some (actors !! own_actor_id)))
    (ValueError "relationship book contains the local Actor");;
  check_all (λ a, raise_if (negb (forallb (known_issuer actors (a_actor_id a)) (a_proofs a)))
    (ValueError "Actor proof references an unknown issuer")) (values actors);;
  raise_if (negb (bool_decide (linked (values subjects) ⊆ dom actors)))
    (ValueError "Subject hypothesis references an unknown Actor");;
  raise_if (negb (bool_decide (linked (values subjects) = dom actors)))
    (ValueError "every observed Actor must belong to a Subject hypothesis");;
  raise_if (negb (bool_decide (linked (filter (λ s, is_active s = true) (values subjects)) = dom actors)))
    (ValueError "every observed Actor must have an active Subject hypothesis");;
  raise_if (negb (bool_decide (dom relationships =@{gset string} dom subjects)))
    (ValueError "every Subject hypothesis must have one relationship");;
  raise_if (repeats (v_event_id <$> events)) (ValueError "relationship book contains a duplicate event");;
  check_all (validate_interaction actors subjects) (values interactions);;
  raise_if (repeats (n_transition_id <$> transitions))
    (ValueError "relationship book contains a duplicate transition");;
  validate_transitions subjects [] [] transitions;;
  validate_lineage transitions;;
  raise_if (negb (bool_decide (dom decisions =@{gset string}
      list_to_set (c_suggestion_id <$> values decisions))))
    (ValueError "suggestion decision key mismatch");;
  raise_if (repeats (c_decision_id <$> values decisions))
    (ValueError "relationship book contains a duplicate decision");;
  raise_if (existsb (λ c, bool_decide (subjects !! c_subject_ref c = None)) (values decisions))
    (ValueError "suggestion decision references an unknown Subject").
End validation.

Section book.
Context {PL : Platform} {DG : Digests} {SG : Signatures} {UL : Urllib} (own_actor_id : string).

(** ** The file *)

Definition book_to_dict (b : RelationshipBook) : dict :=
  [field "version" (VInt RELATION_BOOK_VERSION); field "observer_actor_id" (VStr own_actor_id);
   field "actors" (VList (VMap ∘ actor_to_dict <$> in_order (b_actors b)));
   field "subjects" (VList (VMap ∘ subject_to_dict <$> in_order (b_subjects b)));
   field "relationships" (VList (VMap ∘ estimate_to_dict <$> in_order (b_relationships b)));
   field "events" (VList (VMap ∘ event_to_dict <$> b_events b));
   field "interactions" (VList (VMap ∘ interaction_to_dict <$> in_order (b_interactions b)));
   field "subject_transitions" (VList (VMap ∘ transition_to_dict <$> b_transitions b));
   field "suggestion_decisions" (VList (VMap ∘ decision_to_dict <$> in_order (b_suggestion_decisions b)))].
Definition save : BM unit := modify (λ b, set_file (Some (VMap (book_to_dict b))) b).

(** [{item.k: item for item in items}]: the last item of a key counts. *)
Definition keyed_by {A} (key : A → string) (items : list A) : gmap string A :=
  foldl (λ m x, <[key x := x]> m) ∅ items.
Definition _actor_from_dict (version : Z) (d : dict) : res ActorRecord :=
  if 5 <=? version then actor_from_dict d
  else
    actor_id ← text_item "actor_id" d;
    first_seen ← int_item "first_seen_ms" d;
    evidence ← unique_item "evidence_refs" "Actor evidence reference" MAX_EVIDENCE_LENGTH d;
    let migration := default ("migration:relations-v" +:+ str_of_Z version) (head evidence) in
    proof ← new_proof {| p_proof_type := "anet.peer-card"; p_scope := "cryptographic";
                         p_issuer_actor_id := actor_id; p_evidence_ref := migration;
                         p_observed_ms := first_seen |};
    updated ← int_item "updated_ms" d;
    new_actor {| a_actor_id := actor_id; a_actor_kind := "anet.node";
                 a_actor_label := text_or "" "actor_label" d; a_state := text_or "active" "state" d;
                 a_proofs := [proof];
                 a_evidence_refs := match evidence with [] => [migration] | _ => evidence end;
                 a_first_seen_ms := first_seen; a_updated_ms := updated |}.
(** One relationship of a version 1 file *)
Definition load_v1_item (d : dict) : res (ActorRecord * SubjectHypothesis * RelationshipEstimate) :=
  actor_id ← text_item "actor_id" d;
  updated ← int_item "updated_ms" d;
  evidence ← unique_item "evidence_refs" "relationship evidence reference" MAX_EVIDENCE_LENGTH d;
  subject_ref ← text_item "subject_ref" d;
  let revoked := String.eqb (text_or "active" "state" d) "revoked" in
  proof ← new_proof {| p_proof_type := "anet.peer-card"; p_scope := "cryptographic";
                       p_issuer_actor_id := actor_id;
                       p_evidence_ref := default "migration:relations-v1" (head evidence);
                       p_observed_ms := updated |};
  actor ← new_actor
    {| a_actor_id := actor_id; a_actor_kind := "anet.node";
       a_actor_label := substring 0 (Z.to_nat MAX_LABEL_LENGTH) (text_or "" "actor_label" d);
       a_state := if revoked then "revoked" else "active"; a_proofs := [proof];
       a_evidence_refs := match evidence with [] => ["migration:relations-v1"] | _ => evidence end;
       a_first_seen_ms := updated; a_updated_ms := updated |};
  confidence ← int_item "subject_confidence" d;
  link ← new_link {| l_actor_id := actor_id; l_confidence := confidence; l_evidence_refs := evidence;
                     l_updated_ms := updated |};
  subject ← new_subject
    {| s_subject_ref := subject_ref; s_state := "active"; s_labels := []; s_actor_links := [link];
       s_evidence_refs := evidence; s_updated_ms := updated |};
  circle ← text_item "circle" d;
  labels ← unique_item "relationship_labels" "relationship label" MAX_LABEL_LENGTH d;
  confidence ← int_item "relationship_confidence" d;
  relationship ← new_estimate
    {| r_subject_ref := subject_ref; r_circle := circle; r_state := if revoked then "ended" else "active";
       r_relationship_labels := labels; r_relationship_confidence := confidence; r_context_trust := [];
       r_evidence_refs := evidence; r_updated_ms := updated |};
  mret (actor, subject, relationship).
(** [for raw in value.get("relationships", ())] with [raw[...]] *)
Definition raw_dict (v : value) : res dict :=
  match v with VMap d => mret d | _ => Err (TypeError "indices must be integers or slices") end.
Definition _load_v1 (d : dict) : res RelationshipBook :=
  raws ← py_iter (dict_get_or (VList []) "relationships" d);
  items ← map_res (λ raw, d ← raw_dict raw; load_v1_item d) raws;
  let actors := keyed_by a_actor_id ((λ x, x.1.1) <$> items) in
  let subjects := keyed_by s_subject_ref ((λ x, x.1.2) <$> items) in
  let relationships := keyed_by r_subject_ref (snd <$> items) in
  _validate_model own_actor_id actors subjects relationships [] ∅ [] ∅;;
  mret (Book actors subjects relationships [] ∅ [] ∅ None).
(** What [reload] reads from a file *)
Definition load (v : value) : res RelationshipBook :=
  d ← raw_dict v;
  version ← py_int (dict_get_or (VInt 0) "version" d);
  if version =? 1 then _load_v1 d
  else
    raise_if (negb ((2 <=? version) && (version <=? RELATION_BOOK_VERSION)))
      (ValueError "unsupported relationship book version");;
    actors ← items_of (_actor_from_dict version) "actors" d;
    subjects ← items_of subject_from_dict "subjects" d;
    relationships ← items_of estimate_from_dict "relationships" d;
    events ← items_of event_from_dict "events" d;
    interactions ← items_of interaction_from_dict "interactions" d;
    transitions ← items_of transition_from_dict "subject_transitions" d;
    decisions ← items_of decision_from_dict "suggestion_decisions" d;
    let b := Book (keyed_by a_actor_id actors) (keyed_by s_subject_ref subjects)
               (keyed_by r_subject_ref relationships) events (keyed_by i_interaction_id interactions)
               transitions (keyed_by c_suggestion_id decisions) None in
    _validate_model own_actor_id (b_actors b) (b_subjects b) (b_relationships b) (b_events b)
      (b_interactions b) (b_transitions b) (b_suggestion_decisions b);;
    mret b.
Definition reload : BM unit :=
  file ← gets b_file;
  match file with
  | None => modify (λ _, new_book)
  | Some v => b ← lift (load v); modify (λ _, set_file (Some v) b)
  end.

(** ** Reads *)

Definition candidate_key (c : SubjectActorLink * SubjectHypothesis) : list Z :=
  l_confidence c.1 :: s_updated_ms c.2 :: codes (s_subject_ref c.2).
Definition candidates (actor_id : string) (b : RelationshipBook) : list (SubjectActorLink * SubjectHypothesis) :=
  concat ((λ s, (λ l, (l, s)) <$> filter (λ l, l_actor_id l = actor_id) (s_actor_links s)) <$>
    filter (λ s, is_active s = true) (values (b_subjects b))).
(** [max(candidates, key=...)] *)
Definition primary_subject (actor_id : string) (b : RelationshipBook) : option SubjectHypothesis :=
  snd <$> last (order_by candidate_key (candidates actor_id b)).
Definition book_actor (actor_id : string) (b : RelationshipBook) : res (option ActorRecord) :=
  actor_id ← validate_actor_id actor_id; mret (b_actors b !! actor_id).
(** [get]; the [KeyError] of a subject without relationship included *)
Definition get (actor_id : string) (b : RelationshipBook) : res (option RelationshipRecord) :=
  match b_actors b !! actor_id with
  | None => mret None
  | Some a =>
      match primary_subject (a_actor_id a) b with
      | None => mret None
      | Some s =>
          link ← of_option (RuntimeError "StopIteration")
                   (List.find (λ l, String.eqb (l_actor_id l) (a_actor_id a)) (s_actor_links s));
          r ← of_option (KeyError (s_subject_ref s)) (b_relationships b !! s_subject_ref s);
          evidence ← _unique_text (a_evidence_refs a ++ s_evidence_refs s ++ r_evidence_refs r)
                       "relationship evidence reference" MAX_EVIDENCE_LENGTH;
          mret (Some {| q_subject_ref := s_subject_ref s; q_actor_id := a_actor_id a;
                        q_actor_kind := a_actor_kind a; q_actor_label := a_actor_label a;
                        q_proof_scopes := sorted_set (p_scope <$> a_proofs a);
                        q_circle := r_circle r; q_state := r_state r;
                        q_relationship_labels := r_relationship_labels r;
                        q_subject_confidence := l_confidence link;
                        q_relationship_confidence := r_relationship_confidence r;
                        q_evidence_refs := evidence;
                        q_updated_ms := Z.max (Z.max (a_updated_ms a) (s_updated_ms s)) (r_updated_ms r) |})
      end
  end.
(** [all] *)
Definition all_records (b : RelationshipBook) : res (list RelationshipRecord) :=
  records ← (map_res (λ a, get a b) (sorted (map_to_list (b_actors b)).*1) : res (list (option RelationshipRecord)));
  mret (omap (M:=list) (λ o : option RelationshipRecord, o) records).
Definition has_interaction (interaction_id : string) (b : RelationshipBook) : bool :=
  bool_decide (is_Some (b_interactions b !! interaction_id)).
Definition suggestion_decision (suggestion_id : string) (b : RelationshipBook) : option SuggestionDecision :=
  b_suggestion_decisions b !! suggestion_id.
Definition suggestion_decisions (subject_ref : string) (b : RelationshipBook) : res (list SuggestionDecision) :=
  let selected := strip subject_ref in
  raise_if (negb (String.eqb selected "") && bool_decide (b_subjects b !! selected = None))
    (KeyError ("unknown Subject hypothesis: " +:+ selected));;
  mret (order_by (λ c, c_decided_ms c :: codes (c_decision_id c))
    (filter (λ c, selected = "" ∨ c_subject_ref c = selected) (values (b_suggestion_decisions b)))).

(** [interaction_stats] *)
Record stats_row := {
  st_incoming : Z;
  st_outgoing : Z;
  st_outcomes : gmap string Z;
  st_first_ms : Z;
  st_last_ms : Z;
}.
Definition count_interaction (i : InteractionEvidence) (row : stats_row) : stats_row :=
  let incoming := String.eqb (i_direction i) "incoming" in
  {| st_incoming := st_incoming row + (if incoming then 1 else 0);
     st_outgoing := st_outgoing row + (if incoming then 0 else 1);
     st_outcomes := <[i_outcome i := default 0 (st_outcomes row !! i_outcome i) + 1]> (st_outcomes row);
     st_first_ms := Z.min (st_first_ms row) (i_occurred_ms i);
     st_last_ms := Z.max (st_last_ms row) (i_occurred_ms i) |}.
Definition grouped_interactions (l : list InteractionEvidence) : gmap (string * string * string) stats_row :=
  foldl (λ m i, foldl (λ m facet,
      let key := (i_subject_ref i, i_context i, facet) in
      let row := default {| st_incoming := 0; st_outgoing := 0; st_outcomes := ∅;
                            st_first_ms := i_occurred_ms i; st_last_ms := i_occurred_ms i |} (m !! key) in
      <[key := count_interaction i row]> m) m (i_facets i)) ∅ l.
Definition stats_to_dict (kv : string * string * string * stats_row) : dict :=
  let '(subject_ref, context, facet, row) := kv in
  [field "subject_ref" (VStr subject_ref); field "context" (VStr context); field "facet" (VStr facet);
   field "incoming" (VInt (st_incoming row)); field "outgoing" (VInt (st_outgoing row));
   field "outcomes" (VMap (prod_map VStr VInt <$> order_by (codes ∘ fst) (map_to_list (st_outcomes row))));
   field "first_ms" (VInt (st_first_ms row)); field "last_ms" (VInt (st_last_ms row))].
Definition stats_key (kv : string * string * string * stats_row) : list Z :=
  let '(subject_ref, context, facet, _) := kv in tuple_key [subject_ref; context; facet].
Definition interaction_stats (b : RelationshipBook) : list dict :=
  stats_to_dict <$> order_by stats_key (map_to_list (grouped_interactions (values (b_interactions b)))).
Definition snapshot (b : RelationshipBook) : dict :=
  take 7 (book_to_dict b) ++
  [field "interaction_stats" (VList (VMap <$> interaction_stats b))] ++
  drop 7 (book_to_dict b).

(** ** Observation *)

(** [_append_event]; [details] sorted by key *)
Definition _append_event (event_id event_type actor_id subject_ref evidence_ref : string) (now : Z)
    (details : list (string * value)) : BM unit :=
  event ← lift (new_event {| v_event_id := event_id; v_event_type := event_type; v_actor_id := actor_id;
                             v_subject_ref := subject_ref; v_evidence_ref := evidence_ref;
                             v_observed_ms := now; v_details := sorted_details details |});
  modify (λ b, set_events (b_events b ++ [event]) b).
Definition unknown_subject (subject_ref : string) : exn :=
  KeyError ("unknown Subject hypothesis: " +:+ subject_ref).
Definition no_hypothesis : exn := ValueError "observed Actor has no Subject hypothesis".
(** The branch for an actor seen for the first time *)
Definition observe_new_actor (d : draws) (o : ActorObservation) (confidence current : Z)
    : BM SubjectHypothesis :=
  let evidence := p_evidence_ref (o_proof o) in
  let ref := subject_ref d 0 in
  a ← lift (new_actor {| a_actor_id := o_actor_id o; a_actor_kind := o_actor_kind o;
                         a_actor_label := o_actor_label o; a_state := "active"; a_proofs := [o_proof o];
                         a_evidence_refs := [evidence]; a_first_seen_ms := current;
                         a_updated_ms := current |});
  modify (λ b, set_actors (<[o_actor_id o := a]> (b_actors b)) b);;
  link ← lift (new_link {| l_actor_id := o_actor_id o; l_confidence := confidence;
                           l_evidence_refs := [evidence]; l_updated_ms := current |});
  s ← lift (new_subject {| s_subject_ref := ref; s_state := "active"; s_labels := [];
                           s_actor_links := [link]; s_evidence_refs := [evidence];
                           s_updated_ms := current |});
  modify (λ b, set_subjects (<[ref := s]> (b_subjects b)) b);;
  r ← lift (new_estimate {| r_subject_ref := ref; r_circle := "public"; r_state := "active";
                            r_relationship_labels := []; r_relationship_confidence := 0;
                            r_context_trust := []; r_evidence_refs := [evidence];
                            r_updated_ms := current |});
  modify (λ b, set_relationships (<[ref := r]> (b_relationships b)) b);;
  _append_event (event_id d 0) "actor.observed" (o_actor_id o) ref evidence current
    [("actor_kind", VStr (o_actor_kind o)); ("proof_scope", VStr (p_scope (o_proof o)))];;
  save;;
  mret s.
(** The branch for a known actor *)
Definition observe_known_actor (d : draws) (o : ActorObservation) (a : ActorRecord) (current : Z)
    : BM SubjectHypothesis :=
  let evidence := p_evidence_ref (o_proof o) in
  lift (raise_if (negb (String.eqb (a_actor_kind a) (o_actor_kind o)))
    (ValueError "Actor observation changes the Actor kind"));;
  let proof_is_new := bool_decide (proof_key (o_proof o) ∉ proof_key <$> a_proofs a) in
  let proofs := if proof_is_new then a_proofs a ++ [o_proof o] else a_proofs a in
  let label := if String.eqb (o_actor_label o) "" then a_actor_label a else o_actor_label o in
  if negb proof_is_new && String.eqb label (a_actor_label a) then
    s ← gets (primary_subject (o_actor_id o));
    lift (of_option no_hypothesis s)
  else
    let added := if proof_is_new || negb (String.eqb label (a_actor_label a)) then [evidence] else [] in
    evidence_refs ← lift (_unique_text (a_evidence_refs a ++ added)
                            "Actor evidence reference" MAX_EVIDENCE_LENGTH);
    a ← lift (new_actor {| a_actor_id := a_actor_id a; a_actor_kind := a_actor_kind a;
                           a_actor_label := label; a_state := a_state a; a_proofs := proofs;
                           a_evidence_refs := evidence_refs; a_first_seen_ms := a_first_seen_ms a;
                           a_updated_ms := current |});
    modify (λ b, set_actors (<[o_actor_id o := a]> (b_actors b)) b);;
    s ← gets (primary_subject (o_actor_id o));
    s ← lift (of_option no_hypothesis s);
    _append_event (event_id d 0) "actor.observation-refreshed" (o_actor_id o) (s_subject_ref s) evidence
      current [("actor_kind", VStr (o_actor_kind o)); ("proof_scope", VStr (p_scope (o_proof o)))];;
    save;;
    mret s.
Definition observe_typed_actor (d : draws) (o : ActorObservation) (subject_confidence now : Z)
    : BM SubjectHypothesis :=
  lift (raise_if (String.eqb (o_actor_id o) own_actor_id)
    (ValueError "cannot observe the local Actor as a peer"));;
  known ← gets (λ b, known_issuer own_actor_id (b_actors b) (o_actor_id o) (o_proof o));
  lift (raise_if (negb known) (ValueError "Actor proof issuer is not known to this observer"));;
  confidence ← lift (_confidence subject_confidence "initial Subject confidence");
  current ← lift (_now_ms now);
  lift (raise_if (current <? p_observed_ms (o_proof o))
    (ValueError "Actor proof occurs after the observation"));;
  actor ← gets (λ b, b_actors b !! o_actor_id o);
  match actor with
  | None => observe_new_actor d o confidence current
  | Some a => observe_known_actor d o a current
  end.
Definition observe_actor (d : draws) (card : PeerCard) (evidence_ref : string) (subject_confidence now : Z)
    : BM SubjectHypothesis :=
  lift (verify_card card);;
  lift (raise_if (String.eqb (k_node_id card) own_actor_id)
    (ValueError "cannot observe the local Actor as a peer"));;
  evidence ← lift (_bounded_text evidence_ref "Actor evidence reference" MAX_EVIDENCE_LENGTH);
  confidence ← lift (_confidence subject_confidence "initial Subject confidence");
  current ← lift (_now_ms now);
  proof ← lift (new_proof {| p_proof_type := "anet.peer-card"; p_scope := "cryptographic";
                             p_issuer_actor_id := k_node_id card; p_evidence_ref := evidence;
                             p_observed_ms := current |});
  o ← lift (new_observation
              {| o_actor_id := k_node_id card; o_actor_kind := "anet.node";
                 o_actor_label := substring 0 (Z.to_nat MAX_LABEL_LENGTH) (k_label card);
                 o_proof := proof |});
  observe_typed_actor d o confidence current.
Definition record_interaction (d : draws) (i : InteractionEvidence) : BM bool :=
  met ← gets (has_interaction (i_interaction_id i));
  if met : bool then mret false
  else
    actor ← gets (λ b, b_actors b !! i_actor_id i);
    lift (raise_if (bool_decide (actor = None)) (KeyError ("unknown Actor: " +:+ i_actor_id i)));;
    subject ← gets (λ b, b_subjects b !! i_subject_ref i);
    s ← lift (of_option (unknown_subject (i_subject_ref i)) subject);
    lift (raise_if (bool_decide (i_actor_id i ∉ link_ids s))
      (ValueError "interaction Actor is not linked to its Subject"));;
    modify (λ b, set_interactions (<[i_interaction_id i := i]> (b_interactions b)) b);;
    _append_event (event_id d 0) "interaction.observed" (i_actor_id i) (i_subject_ref i) (i_evidence_ref i)
      (i_occurred_ms i) [];;
    save;;
    mret true.
Definition revoke_actor (d : draws) (actor_id evidence_ref : string) (now : Z)
    : BM (option RelationshipRecord) :=
  let actor_key := strip actor_id in
  actor ← gets (λ b, b_actors b !! actor_key);
  match actor with
  | None => mret None
  | Some a =>
      if String.eqb (a_state a) "revoked" then r ← gets (get actor_key); lift r
      else
        evidence ← lift (_bounded_text evidence_ref "Actor revocation evidence reference" MAX_EVIDENCE_LENGTH);
        current ← lift (_now_ms now);
        evidence_refs ← lift (_unique_text (a_evidence_refs a ++ [evidence])
                                "Actor evidence reference" MAX_EVIDENCE_LENGTH);
        a ← lift (new_actor {| a_actor_id := a_actor_id a; a_actor_kind := a_actor_kind a;
                               a_actor_label := a_actor_label a; a_state := "revoked";
                               a_proofs := a_proofs a; a_evidence_refs := evidence_refs;
                               a_first_seen_ms := a_first_seen_ms a; a_updated_ms := current |});
        modify (λ b, set_actors (<[actor_key := a]> (b_actors b)) b);;
        s ← gets (primary_subject actor_key);
        _append_event (event_id d 0) "actor.revoked" actor_key
          (match s with Some s => s_subject_ref s | None => "" end) evidence current [];;
        save;;
        r ← gets (get actor_key);
        lift r
  end.

(** ** Revisions of the subject hypotheses *)

Definition add_refs (label : string) (refs : list string) (evidence : string) : res (list string) :=
  _unique_text (refs ++ [evidence]) label MAX_EVIDENCE_LENGTH.
Definition relationship_refs : list string → string → res (list string) :=
  add_refs "relationship evidence reference".
Definition _replacement_relationship (subject_ref : string) (source : option RelationshipEstimate)
    (evidence_ref : string) (now : Z) : res RelationshipEstimate :=
  match source with
  | None =>
      new_estimate {| r_subject_ref := subject_ref; r_circle := "known"; r_state := "active";
                      r_relationship_labels := []; r_relationship_confidence := 25;
                      r_context_trust := []; r_evidence_refs := [evidence_ref]; r_updated_ms := now |}
  | Some r =>
      refs ← relationship_refs (r_evidence_refs r) evidence_ref;
      new_estimate {| r_subject_ref := subject_ref; r_circle := r_circle r; r_state := r_state r;
                      r_relationship_labels := r_relationship_labels r;
                      r_relationship_confidence := r_relationship_confidence r;
                      r_context_trust := r_context_trust r; r_evidence_refs := refs;
                      r_updated_ms := now |}
  end.
(** The copies of [_subjects], [_relationships] and [_events] that a transition builds *)
Definition parts : Type :=
  gmap string SubjectHypothesis * gmap string RelationshipEstimate * list RelationshipEvent.
(** One turn of the loop over the sources; [n] counts them. *)
Definition retire_source (d : draws) (t : SubjectTransition) (n : nat) (source_ref : string) (x : parts)
    : res parts :=
  let '(subjects, relationships, events) := x in
  s ← of_option (KeyError source_ref) (subjects !! source_ref);
  refs ← add_refs "Subject evidence reference" (s_evidence_refs s) (n_evidence_ref t);
  s' ← new_subject {| s_subject_ref := s_subject_ref s; s_state := "superseded"; s_labels := s_labels s;
                      s_actor_links := s_actor_links s; s_evidence_refs := refs;
                      s_updated_ms := n_observed_ms t |};
  r ← of_option (KeyError source_ref) (relationships !! source_ref);
  refs ← relationship_refs (r_evidence_refs r) (n_evidence_ref t);
  r' ← new_estimate {| r_subject_ref := r_subject_ref r; r_circle := r_circle r;
                       r_state := if String.eqb (r_state r) "active" then "dormant" else r_state r;
                       r_relationship_labels := r_relationship_labels r;
                       r_relationship_confidence := r_relationship_confidence r;
                       r_context_trust := r_context_trust r; r_evidence_refs := refs;
                       r_updated_ms := n_observed_ms t |};
  v ← new_event {| v_event_id := event_id d n; v_event_type := "subject." +:+ n_transition_type t;
                   v_actor_id := ""; v_subject_ref := source_ref; v_evidence_ref := n_evidence_ref t;
                   v_observed_ms := n_observed_ms t; v_details := [] |};
  mret (<[source_ref := s']> subjects, <[source_ref := r']> relationships, events ++ [v]).
Fixpoint retire_sources (d : draws) (t : SubjectTransition) (n : nat) (refs : list string) (x : parts)
    : res parts :=
  match refs with
  | [] => mret x
  | r :: refs => x ← retire_source d t n r x; retire_sources d t (S n) refs x
  end.
(** The loop over the replacements; [before] are the relationships before the transition. *)
Fixpoint add_replacements (t : SubjectTransition) (before : gmap string RelationshipEstimate)
    (inheritance : gmap string string) (new : list SubjectHypothesis) (x : parts) : res parts :=
  match new with
  | [] => mret x
  | s :: new =>
      let '(subjects, relationships, events) := x in
      source ← match inheritance !! s_subject_ref s with
               | Some ref => Some <$> of_option (KeyError ref) (before !! ref)
               | None => mret None
               end;
      r ← _replacement_relationship (s_subject_ref s) source (n_evidence_ref t) (n_observed_ms t);
      add_replacements t before inheritance new
        (<[s_subject_ref s := s]> subjects, <[s_subject_ref s := r]> relationships, events)
  end.
(** [_commit_subject_transition] *)
Definition commit_parts (d : draws) (t : SubjectTransition) (new : list SubjectHypothesis)
    (inheritance : gmap string string) (b : RelationshipBook) : res RelationshipBook :=
  x ← retire_sources d t 0 (n_source_subject_refs t) (b_subjects b, b_relationships b, b_events b);
  x ← add_replacements t (b_relationships b) inheritance new x;
  let '(subjects, relationships, events) := x in
  let transitions := b_transitions b ++ [t] in
  _validate_model own_actor_id (b_actors b) subjects relationships events (b_interactions b) transitions ∅;;
  mret (set_subjects subjects (set_relationships relationships (set_events events
    (set_transitions transitions b)))).
Definition _commit_subject_transition (d : draws) (t : SubjectTransition) (new : list SubjectHypothesis)
    (inheritance : gmap string string) : BM SubjectTransition :=
  next ← gets (commit_parts d t new inheritance);
  b ← lift next;
  modify (λ _, b);;
  save;;
  mret t.

Definition link_refs : list string → string → res (list string) :=
  add_refs "Subject link evidence reference".
Definition active_subject (what source_ref : string) (b : RelationshipBook) : res SubjectHypothesis :=
  s ← of_option (unknown_subject source_ref) (b_subjects b !! source_ref);
  raise_if (negb (String.eqb (s_state s) "active")) (ValueError ("cannot " +:+ what));;
  mret s.
Definition supersede_subject (d : draws) (subject_ref_ : string) (confidence : Z) (evidence_ref : string)
    (labels : list string) (now : Z) : BM SubjectTransition :=
  source_ref ← lift (_bounded_text subject_ref_ "Subject reference" 128);
  source ← gets (active_subject "supersede an inactive Subject hypothesis" source_ref);
  source ← lift source;
  confidence ← lift (_confidence confidence "Subject transition confidence");
  evidence ← lift (_bounded_text evidence_ref "Subject transition evidence reference" MAX_EVIDENCE_LENGTH);
  current ← lift (_now_ms now);
  let replacement_ref := subject_ref d 0 in
  labels ← lift (_unique_text (s_labels source ++ labels) "Subject label" MAX_LABEL_LENGTH);
  links ← lift (map_res (λ l,
    refs ← link_refs (l_evidence_refs l) evidence;
    new_link {| l_actor_id := l_actor_id l; l_confidence := l_confidence l; l_evidence_refs := refs;
                l_updated_ms := current |}) (s_actor_links source));
  refs ← lift (add_refs "Subject evidence reference" (s_evidence_refs source) evidence);
  replacement ← lift (new_subject
    {| s_subject_ref := replacement_ref; s_state := "active"; s_labels := labels; s_actor_links := links;
       s_evidence_refs := refs; s_updated_ms := current |});
  t ← lift (new_transition
    {| n_transition_id := transition_id d; n_transition_type := "supersede";
       n_source_subject_refs := [source_ref]; n_replacement_subject_refs := [replacement_ref];
       n_confidence := confidence; n_evidence_ref := evidence; n_observed_ms := current |});
  _commit_subject_transition d t [replacement] {[replacement_ref := source_ref]}.

(** [links[actor_id] = link] for a dictionary of links by actor *)
Fixpoint put_link (l : SubjectActorLink) (links : list SubjectActorLink) : list SubjectActorLink :=
  match links with
  | [] => [l]
  | l' :: links => if String.eqb (l_actor_id l') (l_actor_id l) then l :: links else l' :: put_link l links
  end.
Definition find_link (actor_id : string) (links : list SubjectActorLink) : option SubjectActorLink :=
  List.find (λ l, String.eqb (l_actor_id l) actor_id) links.
Definition refs_of (l : option SubjectActorLink) : list string :=
  match l with Some l => l_evidence_refs l | None => [] end.
(** The loop of [merge_subjects] over the links of the sources *)
Fixpoint merge_links (evidence : string) (current : Z) (links todo : list SubjectActorLink)
    : res (list SubjectActorLink) :=
  match todo with
  | [] => mret links
  | l :: todo =>
      let previous := find_link (l_actor_id l) links in
      refs ← link_refs (refs_of previous ++ l_evidence_refs l) evidence;
      new ← new_link {| l_actor_id := l_actor_id l;
                        l_confidence := Z.max (l_confidence l) (match previous with
                                                                | Some p => l_confidence p
                                                                | None => 0
                                                                end);
                        l_evidence_refs := refs; l_updated_ms := current |};
      merge_links evidence current (put_link new links) todo
  end.
Definition merge_subjects (d : draws) (subject_refs : list string) (confidence : Z) (evidence_ref : string)
    (inherit_subject_ref : string) (labels : list string) (now : Z) : BM SubjectTransition :=
  let source_refs := fromkeys (strip <$> subject_refs) in
  lift (raise_if (length source_refs <? 2)%nat (ValueError "merge requires at least two Subject hypotheses"));;
  sources ← gets (λ b, map_res (λ r, active_subject "merge an inactive Subject hypothesis" r b) source_refs);
  sources ← lift sources;
  let inherited_ref := strip inherit_subject_ref in
  lift (raise_if (negb (String.eqb inherited_ref "") && bool_decide (inherited_ref ∉ source_refs))
    (ValueError "merge inheritance must name one source Subject"));;
  confidence ← lift (_confidence confidence "Subject transition confidence");
  evidence ← lift (_bounded_text evidence_ref "Subject transition evidence reference" MAX_EVIDENCE_LENGTH);
  current ← lift (_now_ms now);
  links ← lift (merge_links evidence current [] (concat (s_actor_links <$> sources)));
  let replacement_ref := subject_ref d 0 in
  labels ← lift (_unique_text (concat (s_labels <$> sources) ++ labels) "Subject label" MAX_LABEL_LENGTH);
  refs ← lift (add_refs "Subject evidence reference" (concat (s_evidence_refs <$> sources)) evidence);
  replacement ← lift (new_subject
    {| s_subject_ref := replacement_ref; s_state := "active"; s_labels := labels; s_actor_links := links;
       s_evidence_refs := refs; s_updated_ms := current |});
  t ← lift (new_transition
    {| n_transition_id := transition_id d; n_transition_type := "merge";
       n_source_subject_refs := source_refs; n_replacement_subject_refs := [replacement_ref];
       n_confidence := confidence; n_evidence_ref := evidence; n_observed_ms := current |});
  _commit_subject_transition d t [replacement]
    (if String.eqb inherited_ref "" then ∅ else {[replacement_ref := inherited_ref]}).

(** The replacements of [split_subject], one per group *)
Fixpoint split_groups (d : draws) (source : SubjectHypothesis) (labels : list string) (evidence : string)
    (current : Z) (n : nat) (groups : list (list string)) : res (list SubjectHypothesis) :=
  match groups with
  | [] => mret []
  | group :: groups =>
      labels' ← _unique_text (s_labels source ++ labels) "Subject label" MAX_LABEL_LENGTH;
      links ← map_res (λ actor_id,
        l ← of_option (KeyError actor_id) (find_link actor_id (s_actor_links source));
        refs ← link_refs (l_evidence_refs l) evidence;
        new_link {| l_actor_id := actor_id; l_confidence := l_confidence l; l_evidence_refs := refs;
                    l_updated_ms := current |}) group;
      refs ← add_refs "Subject evidence reference" (s_evidence_refs source) evidence;
      s ← new_subject {| s_subject_ref := subject_ref d n; s_state := "active"; s_labels := labels';
                         s_actor_links := links; s_evidence_refs := refs; s_updated_ms := current |};
      rest ← split_groups d source labels evidence current (S n) groups;
      mret (s :: rest)
  end.
Definition split_subject (d : draws) (subject_ref_ : string) (groups : list (list string)) (confidence : Z)
    (evidence_ref : string) (inherit_group : option Z) (labels : list string) (now : Z)
    : BM SubjectTransition :=
  source_ref ← lift (_bounded_text subject_ref_ "Subject reference" 128);
  source ← gets (active_subject "split an inactive Subject hypothesis" source_ref);
  source ← lift source;
  let groups := (λ group, fromkeys (strip <$> group)) <$> groups in
  lift (raise_if ((length groups <? 2)%nat || bool_decide ([] ∈ groups))
    (ValueError "split requires at least two non-empty Actor groups"));;
  let flattened := concat groups in
  lift (raise_if (repeats flattened) (ValueError "split Actor groups overlap"));;
  lift (raise_if (negb (bool_decide (list_to_set flattened =@{gset string} list_to_set (link_ids source))))
    (ValueError "split groups must exactly partition the source Actors"));;
  lift (raise_if (match inherit_group with
                  | Some i => negb ((0 <=? i) && (i <? Z.of_nat (length groups)))
                  | None => false
                  end) (ValueError "split inheritance group is out of range"));;
  confidence ← lift (_confidence confidence "Subject transition confidence");
  evidence ← lift (_bounded_text evidence_ref "Subject transition evidence reference" MAX_EVIDENCE_LENGTH);
  current ← lift (_now_ms now);
  replacements ← lift (split_groups d source labels evidence current 0 groups);
  t ← lift (new_transition
    {| n_transition_id := transition_id d; n_transition_type := "split";
       n_source_subject_refs := [source_ref]; n_replacement_subject_refs := s_subject_ref <$> replacements;
       n_confidence := confidence; n_evidence_ref := evidence; n_observed_ms := current |});
  _commit_subject_transition d t replacements
    (match inherit_group with
     | Some i => {[subject_ref d (Z.to_nat i) := source_ref]}
     | None => ∅
     end).
Definition link_actor (d : draws) (actor_id subject_ref_ : string) (confidence : Z) (evidence_ref : string)
    (now : Z) : BM SubjectHypothesis :=
  actor ← lift (_bounded_text actor_id "Actor ID" 256);
  subject_key ← lift (_bounded_text subject_ref_ "Subject reference" 128);
  known ← gets (λ b, b_actors b !! actor);
  lift (raise_if (bool_decide (known = None)) (KeyError ("unknown Actor: " +:+ actor)));;
  s ← gets (active_subject "link an Actor to a superseded Subject" subject_key);
  s ← lift s;
  confidence ← lift (_confidence confidence "Subject link confidence");
  evidence ← lift (_bounded_text evidence_ref "Subject link evidence reference" MAX_EVIDENCE_LENGTH);
  current ← lift (_now_ms now);
  refs ← lift (link_refs (refs_of (find_link actor (s_actor_links s))) evidence);
  link ← lift (new_link {| l_actor_id := actor; l_confidence := confidence; l_evidence_refs := refs;
                           l_updated_ms := current |});
  refs ← lift (add_refs "Subject evidence reference" (s_evidence_refs s) evidence);
  updated ← lift (new_subject
    {| s_subject_ref := s_subject_ref s; s_state := s_state s; s_labels := s_labels s;
       s_actor_links := put_link link (s_actor_links s); s_evidence_refs := refs;
       s_updated_ms := current |});
  modify (λ b, set_subjects (<[subject_key := updated]> (b_subjects b)) b);;
  _append_event (event_id d 0) "subject.actor-linked" actor subject_key evidence current
    [("confidence", VInt confidence)];;
  save;;
  mret updated.

(** ** Relationships *)

Definition set_circle (d : draws) (n : nat) (subject_ref_ circle : string) (confidence : Z)
    (evidence_ref : string) (labels : list string) (now : Z) : BM RelationshipEstimate :=
  subject_key ← lift (_bounded_text subject_ref_ "Subject reference" 128);
  s ← gets (λ b, b_subjects b !! subject_key);
  lift (raise_if (bool_decide (s = None)) (unknown_subject subject_key));;
  lift (raise_if (outside RELATION_CIRCLES circle) (ValueError "invalid relationship circle"));;
  confidence ← lift (_confidence confidence "relationship confidence");
  evidence ← lift (_bounded_text evidence_ref "relationship evidence reference" MAX_EVIDENCE_LENGTH);
  current ← lift (_now_ms now);
  existing ← gets (λ b, b_relationships b !! subject_key);
  r ← lift (of_option (KeyError subject_key) existing);
  labels ← lift (_unique_text (r_relationship_labels r ++ labels) "relationship label" MAX_LABEL_LENGTH);
  refs ← lift (relationship_refs (r_evidence_refs r) evidence);
  updated ← lift (new_estimate
    {| r_subject_ref := subject_key; r_circle := circle; r_state := "active";
       r_relationship_labels := labels; r_relationship_confidence := confidence;
       r_context_trust := r_context_trust r; r_evidence_refs := refs; r_updated_ms := current |});
  modify (λ b, set_relationships (<[subject_key := updated]> (b_relationships b)) b);;
  _append_event (event_id d n) "relationship.circle-set" "" subject_key evidence current
    [("circle", VStr circle); ("confidence", VInt confidence)];;
  save;;
  mret updated.

(** [contexts[name] = trust] for a dictionary of trust by context *)
Fixpoint put_trust (t : ContextTrust) (l : list ContextTrust) : list ContextTrust :=
  match l with
  | [] => [t]
  | t' :: l => if String.eqb (t_context t') (t_context t) then t :: l else t' :: put_trust t l
  end.
Definition find_trust (context : string) (l : list ContextTrust) : option ContextTrust :=
  List.find (λ t, String.eqb (t_context t) context) l.
(** The relationship with the trust of one context replaced *)
Definition with_trust (r : RelationshipEstimate) (context : string) (estimate confidence : Z)
    (evidence : string) (current : Z) : res RelationshipEstimate :=
  trust_refs ← add_refs "context trust evidence reference"
                 (match find_trust context (r_context_trust r) with
                  | Some t => t_evidence_refs t
                  | None => []
                  end) evidence;
  t ← new_trust {| t_context := context; t_estimate := estimate; t_confidence := confidence;
                   t_evidence_refs := trust_refs; t_updated_ms := current |};
  refs ← relationship_refs (r_evidence_refs r) evidence;
  new_estimate {| r_subject_ref := r_subject_ref r; r_circle := r_circle r; r_state := r_state r;
                  r_relationship_labels := r_relationship_labels r;
                  r_relationship_confidence := r_relationship_confidence r;
                  r_context_trust := put_trust t (r_context_trust r); r_evidence_refs := refs;
                  r_updated_ms := current |}.
Definition set_context_trust (d : draws) (subject_ref_ context : string) (estimate confidence : Z)
    (evidence_ref : string) (now : Z) : BM RelationshipEstimate :=
  subject_key ← lift (_bounded_text subject_ref_ "Subject reference" 128);
  existing ← gets (λ b, b_relationships b !! subject_key);
  r ← lift (of_option (unknown_subject subject_key) existing);
  context ← lift (_bounded_text context "trust context" MAX_CONTEXT_LENGTH);
  evidence ← lift (_bounded_text evidence_ref "context trust evidence reference" MAX_EVIDENCE_LENGTH);
  current ← lift (_now_ms now);
  estimate ← lift (_confidence estimate "context trust estimate");
  confidence ← lift (_confidence confidence "context trust confidence");
  updated ← lift (with_trust r context estimate confidence evidence current);
  modify (λ b, set_relationships (<[subject_key := updated]> (b_relationships b)) b);;
  _append_event (event_id d 0) "relationship.context-trust-set" "" subject_key evidence current
    [("context", VStr context); ("estimate", VInt estimate); ("confidence", VInt confidence)];;
  save;;
  mret updated.
Definition _set_relationship_state (d : draws) (subject_ref_ state event_type evidence_ref : string) (now : Z)
    : BM RelationshipEstimate :=
  lift (raise_if (outside ["dormant"; "ended"] state)
    (ValueError "relationship state transition must be dormant or ended"));;
  subject_key ← lift (_bounded_text subject_ref_ "Subject reference" 128);
  existing ← gets (λ b, b_relationships b !! subject_key);
  r ← lift (of_option (unknown_subject subject_key) existing);
  if String.eqb (r_state r) state then mret r
  else
    lift (raise_if (String.eqb state "dormant" && String.eqb (r_state r) "ended")
      (ValueError "cannot pause an ended relationship; use relation-circle to reactivate it"));;
    evidence ← lift (_bounded_text evidence_ref "relationship state evidence reference" MAX_EVIDENCE_LENGTH);
    current ← lift (_now_ms now);
    refs ← lift (relationship_refs (r_evidence_refs r) evidence);
    updated ← lift (new_estimate
      {| r_subject_ref := r_subject_ref r; r_circle := r_circle r; r_state := state;
         r_relationship_labels := r_relationship_labels r;
         r_relationship_confidence := r_relationship_confidence r;
         r_context_trust := r_context_trust r; r_evidence_refs := refs; r_updated_ms := current |});
    modify (λ b, set_relationships (<[subject_key := updated]> (b_relationships b)) b);;
    _append_event (event_id d 0) event_type "" subject_key evidence current [("state", VStr state)];;
    save;;
    mret updated.
Definition end_relationship (d : draws) (subject_ref_ evidence_ref : string) (now : Z) : BM RelationshipEstimate :=
  _set_relationship_state d subject_ref_ "ended" "relationship.ended" evidence_ref now.
Definition pause_relationship (d : draws) (subject_ref_ evidence_ref : string) (now : Z)
    : BM RelationshipEstimate :=
  _set_relationship_state d subject_ref_ "dormant" "relationship.paused" evidence_ref now.

(** ** Decisions on suggestions *)

Definition decision_id (suggestion_id : string) : string :=
  "rsd_" +:+ blake2s_hexdigest 16 "anetrsdi" (utf8 (own_actor_id +:+ ":" +:+ suggestion_id)).
(** What the two kinds of suggestions may propose *)
Definition check_suggestion (suggestion_type proposed_circle context : string) (estimate : option Z) : res unit :=
  if String.eqb suggestion_type "circle.advance" then
    raise_if (negb (String.eqb proposed_circle "collab") || negb (String.eqb context "") ||
              bool_decide (is_Some estimate)) (ValueError "unsupported circle suggestion")
  else if String.eqb suggestion_type "context-trust.review" then
    raise_if (negb (String.eqb proposed_circle "") || negb (String.eqb context "task.delivery") ||
              bool_decide (estimate = None)) (ValueError "unsupported contextual trust suggestion")
  else Err (ValueError "unsupported relationship suggestion").
(** The branch of an accepted suggestion *)
Definition apply_suggestion (d : draws) (suggestion_type ref proposed_circle context : string)
    (estimate : option Z) (confidence : Z) (evidence : string) (current : Z) : BM unit :=
  existing ← gets (λ b, b_relationships b !! ref);
  r ← lift (of_option (KeyError ref) existing);
  if String.eqb suggestion_type "circle.advance" then
    refs ← lift (relationship_refs (r_evidence_refs r) evidence);
    updated ← lift (new_estimate
      {| r_subject_ref := ref; r_circle := proposed_circle; r_state := "active";
         r_relationship_labels := r_relationship_labels r; r_relationship_confidence := confidence;
         r_context_trust := r_context_trust r; r_evidence_refs := refs; r_updated_ms := current |});
    modify (λ b, set_relationships (<[ref := updated]> (b_relationships b)) b);;
    _append_event (event_id d 0) "relationship.circle-set" "" ref evidence current
      [("circle", VStr proposed_circle); ("confidence", VInt confidence)]
  else
    estimate ← lift (of_option (TypeError "not an integer") estimate);
    updated ← lift (with_trust {| r_subject_ref := ref; r_circle := r_circle r; r_state := r_state r;
                                  r_relationship_labels := r_relationship_labels r;
                                  r_relationship_confidence := r_relationship_confidence r;
                                  r_context_trust := r_context_trust r;
                                  r_evidence_refs := r_evidence_refs r; r_updated_ms := r_updated_ms r |}
                      context estimate confidence evidence current);
    modify (λ b, set_relationships (<[ref := updated]> (b_relationships b)) b);;
    _append_event (event_id d 0) "relationship.context-trust-set" "" ref evidence current
      [("context", VStr context); ("estimate", VInt estimate); ("confidence", VInt confidence)].
Definition decide_suggestion (d : draws) (suggestion : dict) (outcome rationale : string) (now : Z)
    : BM SuggestionDecision :=
  lift (raise_if (outside SUGGESTION_DECISIONS outcome)
    (ValueError "suggestion decision must be accepted or rejected"));;
  suggestion_id ← lift (_bounded_text (text_or "" "suggestion_id" suggestion) "relationship suggestion ID" 64);
  lift (raise_if (negb (startswith "rsg_" suggestion_id)) (ValueError "invalid relationship suggestion ID"));;
  existing ← gets (suggestion_decision suggestion_id);
  match existing with
  | Some c =>
      lift (raise_if (negb (String.eqb (c_decision c) outcome))
        (ValueError "relationship suggestion already has another decision"));;
      mret c
  | None =>
      suggestion_type ← lift (_bounded_text (text_or "" "suggestion_type" suggestion)
                                "relationship suggestion type" MAX_CONTEXT_LENGTH);
      ref ← lift (_bounded_text (text_or "" "subject_ref" suggestion) "Subject reference" 128);
      s ← gets (λ b, b_subjects b !! ref);
      lift (raise_if (match s with Some s => negb (is_active s) | None => true end)
        (ValueError "relationship suggestion Subject is not active"));;
      reason ← lift (_bounded_text rationale "suggestion decision rationale" MAX_EVIDENCE_LENGTH);
      let basis_hash := text_or "" "basis_hash" suggestion in
      confidence ← lift (n ← py_int (dict_get_or (VInt (-1)) "confidence" suggestion);
                         _confidence n "relationship suggestion confidence");
      let proposed_circle := text_or "" "proposed_circle" suggestion in
      let context := text_or "" "context" suggestion in
      estimate ← lift (match dict_get "proposed_estimate" suggestion with
                       | VNone => mret None
                       | v => n ← py_int v; Some <$> _confidence n "relationship suggestion estimate"
                       end);
      lift (raise_if (negb (len basis_hash =? 32)) (ValueError "invalid relationship suggestion basis"));;
      lift (check_suggestion suggestion_type proposed_circle context estimate);;
      current ← lift (_now_ms now);
      let evidence := "suggestion:" +:+ suggestion_id in
      (if String.eqb outcome "accepted"
       then apply_suggestion d suggestion_type ref proposed_circle context estimate confidence evidence current
       else mret tt);;
      c ← lift (new_decision
        {| c_decision_id := decision_id suggestion_id; c_suggestion_id := suggestion_id;
           c_suggestion_type := suggestion_type; c_subject_ref := ref; c_decision := outcome;
           c_rationale := reason; c_basis_hash := basis_hash; c_suggestion_confidence := confidence;
           c_proposed_circle := proposed_circle; c_context := context; c_proposed_estimate := estimate;
           c_applied := String.eqb outcome "accepted"; c_decided_ms := current |});
      modify (λ b, set_decisions (<[suggestion_id := c]> (b_suggestion_decisions b)) b);;
      _append_event (event_id d 1) ("relationship.suggestion-" +:+ outcome) "" ref evidence current [];;
      save;;
      mret c
  end.

(** ** Confirmed and withdrawn relationships *)

(** [RELATION_CIRCLES.index(circle)] *)
Definition circle_index (circle : string) : res nat :=
  of_option (ValueError "tuple.index(x): x not in tuple")
    (fst <$> list_find (λ c, c = circle) RELATION_CIRCLES).
(** The closer of the existing circle and the confirmed one *)
Definition closer_circle (existing circle : string) : res string :=
  i ← circle_index existing;
  j ← circle_index circle;
  mret (if (j <=? i)%nat then existing else circle).
Definition projected (error : string) (actor_id : string) : BM RelationshipRecord :=
  r ← gets (get actor_id);
  r ← lift r;
  lift (of_option (RuntimeError error) r).
Definition confirm_friend (d : draws) (card : PeerCard) (evidence_ref : string) (now : Z)
    : BM RelationshipRecord :=
  current ← lift (_now_ms now);
  s ← observe_actor d card evidence_ref 50 current;
  existing ← gets (λ b, b_relationships b !! s_subject_ref s);
  r ← lift (of_option (KeyError (s_subject_ref s)) existing);
  circle ← lift (closer_circle (r_circle r) "friend");
  set_circle d 1 (s_subject_ref s) circle 100 evidence_ref ["relationship:friend"] current;;
  projected "friend confirmation did not create a relationship" (k_node_id card).
Definition confirm_mutual_relationship (d : draws) (card : PeerCard) (circle evidence_ref : string)
    (labels : list string) (now : Z) : BM RelationshipRecord :=
  lift (raise_if (outside (drop 1 RELATION_CIRCLES) circle)
    (ValueError "mutual relationship circle must be known or closer"));;
  current ← lift (_now_ms now);
  s ← gets (primary_subject (k_node_id card));
  known ← match s with
          | None => mret false
          | Some s =>
              existing ← gets (λ b, b_relationships b !! s_subject_ref s);
              r ← lift (of_option (KeyError (s_subject_ref s)) existing);
              mret (bool_decide (evidence_ref ∈ r_evidence_refs r))
          end;
  if known : bool then projected "mutual relationship projection is missing" (k_node_id card)
  else
    s ← observe_actor d card evidence_ref 50 current;
    existing ← gets (λ b, b_relationships b !! s_subject_ref s);
    r ← lift (of_option (KeyError (s_subject_ref s)) existing);
    projected_circle ← lift (closer_circle (r_circle r) circle);
    set_circle d 1 (s_subject_ref s) projected_circle 100 evidence_ref
      (labels ++ ["relationship:mutual"; "relationship:mutual:" +:+ circle]) current;;
    projected "mutual relationship claim was not projected" (k_node_id card).
Definition WITHDRAWN : string := "relationship.mutual-claim-withdrawn".
Definition record_mutual_relationship_withdrawal (d : draws) (card : PeerCard)
    (claim_id withdrawing_actor_id evidence_ref : string) (now : Z) : BM RelationshipRecord :=
  lift (verify_card card);;
  current ← lift (_now_ms now);
  evidence ← lift (_bounded_text evidence_ref "relationship claim withdrawal evidence reference"
                     MAX_EVIDENCE_LENGTH);
  found ← gets (primary_subject (k_node_id card));
  s ← match found with
      | Some s => mret s
      | None => observe_actor d card evidence 50 current
      end;
  known ← gets (λ b, existsb (λ v, String.eqb (v_event_type v) WITHDRAWN &&
                               String.eqb (v_evidence_ref v) evidence) (b_events b));
  (if known : bool then mret tt
   else
     _append_event (event_id d 1) WITHDRAWN (k_node_id card) (s_subject_ref s) evidence current
       [("claim_id", VStr claim_id); ("withdrawing_actor_id", VStr withdrawing_actor_id);
        ("relationship_changed", VInt 0)];;
     save);;
  projected "relationship claim withdrawal projection is missing" (k_node_id card).
End book.
