(* ===== verification/RelationLaws.v ===== *)
(** The invariant of the relationship book (src/anet/relations.py): what every operation
    preserves, that its file always passes [_validate_model] again, and that an operation that
    raises changes nothing. *)
From S2P Require Import Prelude PyStr PyVal Codecs Locator ControlPlane RelationData RelationBook.

(** ** Texts *)

(** [_bounded_text] accepts [t]. *)
Definition texty (maximum : Z) (t : string) : Prop := strip t ≠ "" ∧ len (strip t) ≤ maximum.
Lemma bounded_ok value label maximum t :
  _bounded_text value label maximum = Ok t ↔ texty maximum value ∧ t = strip value.
Proof.
  unfold _bounded_text, texty. destruct (String.eqb_spec (strip value) "") as [E|E]; simpl.
  { split; [discriminate|]. by intros [[? _] _]. }
  destruct (Z.ltb_spec maximum (len (strip value))); simpl; split.
  - discriminate.
  - lia.
  - intros [= <-]. done.
  - by intros [_ ->].
Qed.
Lemma texty_strip maximum t : texty maximum (strip t) ↔ texty maximum t.
Proof. unfold texty. by rewrite strip_idemp. Qed.
Lemma elem_of_sorted_set x l : x ∈ sorted_set l ↔ x ∈ l.
Proof. unfold sorted_set. by rewrite elem_of_sorted, elem_of_remove_dups. Qed.
Lemma sorted_permuted l l' : l ≡ₚ l' → sorted l = sorted l'.
Proof.
  intros Hp. apply (StronglySorted_unique_strong (key_le codes)); [|apply order_by_sorted..|].
  - intros a b _ _ Hab Hba. by apply codes_inj, zlex_antisymm.
  - unfold sorted. by rewrite !order_by_Permutation.
Qed.
Lemma sorted_set_ext l l' : (∀ x, x ∈ l ↔ x ∈ l') → sorted_set l = sorted_set l'.
Proof.
  intros Hx. apply sorted_permuted, NoDup_Permutation; [apply NoDup_remove_dups..|].
  intros x. by rewrite !elem_of_remove_dups.
Qed.
Lemma sorted_set_idemp l : sorted_set (sorted_set l) = sorted_set l.
Proof. apply sorted_set_ext. intros x. apply elem_of_sorted_set. Qed.
Lemma NoDup_sorted_set l : NoDup (sorted_set l).
Proof. unfold sorted_set, sorted. rewrite order_by_Permutation. apply NoDup_remove_dups. Qed.
Lemma map_res_bounded values label maximum texts :
  map_res (λ v, _bounded_text v label maximum) values = Ok texts ↔
  Forall (texty maximum) values ∧ texts = strip <$> values.
Proof.
  revert texts. induction values as [|v values IH]; intros texts; simpl.
  - split; [intros [= <-]; split; [constructor|done]|]. by intros [_ ->].
  - split.
    + intros H. res_inv. apply bounded_ok in E as [Hv ->]. apply IH in E0 as [Hs ->]. subst.
      split; [by constructor|done].
    + intros [Hall ->]. apply Forall_cons in Hall as [Hv Hs].
      rewrite (proj2 (bounded_ok v label maximum (strip v))) by done. simpl.
      by rewrite (proj2 (IH (strip <$> values))).
Qed.
Definition normal_refs (l : list string) : list string := sorted_set (strip <$> l).
Lemma unique_ok values label maximum l :
  _unique_text values label maximum = Ok l ↔ Forall (texty maximum) values ∧ l = normal_refs values.
Proof.
  unfold _unique_text, normal_refs. split.
  - intros H. res_inv. apply map_res_bounded in E as [Hs ->]. by subst.
  - intros [Hs ->]. by rewrite (proj2 (map_res_bounded values label maximum (strip <$> values))).
Qed.
Lemma texty_normal maximum l : Forall (texty maximum) l → Forall (texty maximum) (normal_refs l).
Proof.
  rewrite !Forall_forall. intros Hl x Hx. apply elem_of_sorted_set, list_elem_of_fmap in Hx as (y & -> & Hy).
  by apply texty_strip, Hl.
Qed.
Lemma normal_refs_idemp l : normal_refs (normal_refs l) = normal_refs l.
Proof.
  unfold normal_refs. apply sorted_set_ext. intros x. rewrite !list_elem_of_fmap. split.
  - intros (y & -> & Hy). rewrite elem_of_sorted_set in Hy. apply list_elem_of_fmap in Hy as (z & -> & Hz).
    rewrite strip_idemp. eauto.
  - intros (z & -> & Hz). exists (strip z). rewrite strip_idemp. split; [done|].
    rewrite elem_of_sorted_set. apply list_elem_of_fmap. eauto.
Qed.

(** ** Well-formed records *)

Section records.
Context {PL : Platform}.

Lemma new_proof_id p q : new_proof p = Ok q → q = p.
Proof. unfold new_proof. intros H. res_inv. done. Qed.
Lemma new_observation_id o q : new_observation o = Ok q → q = o.
Proof. unfold new_observation. intros H. res_inv. done. Qed.
Lemma new_actor_id a q : new_actor a = Ok q → q = a.
Proof. unfold new_actor. intros H. res_inv. done. Qed.
Lemma new_link_id l q : new_link l = Ok q → q = l.
Proof. unfold new_link. intros H. res_inv. done. Qed.
Lemma new_subject_id s q : new_subject s = Ok q → q = s.
Proof. unfold new_subject. intros H. res_inv. done. Qed.
Lemma new_trust_id t q : new_trust t = Ok q → q = t.
Proof. unfold new_trust. intros H. res_inv. done. Qed.
Lemma new_estimate_id r q : new_estimate r = Ok q → q = r.
Proof. unfold new_estimate. intros H. res_inv. done. Qed.
Lemma new_event_id v q : new_event v = Ok q → q = v.
Proof. unfold new_event. cbv zeta. intros H. res_inv. done. Qed.
Lemma new_decision_id c q : new_decision c = Ok q → q = c.
Proof. unfold new_decision. intros H. res_inv. done. Qed.
Lemma new_interaction_id i q : new_interaction i = Ok q → q = i.
Proof. unfold new_interaction. intros H. res_inv. done. Qed.
Lemma new_transition_id t q : new_transition t = Ok q → q = t.
Proof. unfold new_transition. cbv zeta. intros H. res_inv. done. Qed.

Abbreviation EV := MAX_EVIDENCE_LENGTH.
Definition actor_wf (a : ActorRecord) : Prop :=
  new_actor a = Ok a ∧ Forall (λ p, new_proof p = Ok p) (a_proofs a) ∧ Forall (texty EV) (a_evidence_refs a) ∧
  is_actor_id (a_actor_id a) = true.
Definition link_wf (l : SubjectActorLink) : Prop :=
  new_link l = Ok l ∧ Forall (texty EV) (l_evidence_refs l).
Definition subject_wf (s : SubjectHypothesis) : Prop :=
  new_subject s = Ok s ∧ Forall link_wf (s_actor_links s) ∧ Forall (texty MAX_LABEL_LENGTH) (s_labels s) ∧
  Forall (texty EV) (s_evidence_refs s) ∧ strip (s_subject_ref s) = s_subject_ref s.
Definition trust_wf (t : ContextTrust) : Prop :=
  new_trust t = Ok t ∧ Forall (texty EV) (t_evidence_refs t).
Definition estimate_wf (r : RelationshipEstimate) : Prop :=
  new_estimate r = Ok r ∧ Forall trust_wf (r_context_trust r) ∧
  Forall (texty MAX_LABEL_LENGTH) (r_relationship_labels r) ∧ Forall (texty EV) (r_evidence_refs r).
Definition event_wf (v : RelationshipEvent) : Prop :=
  new_event v = Ok v ∧ sorted_details (v_details v) = v_details v.

Lemma outside_no l x : x ∈ l → outside l x = false.
Proof. intros Hx. unfold outside. apply bool_decide_false. intros Hn. by apply Hn. Qed.
(** What a constructor accepted *)
Lemma new_subject_ok s : new_subject s = Ok s →
  is_subject_ref (s_subject_ref s) = true ∧ s_state s ∈ SUBJECT_STATES ∧ s_actor_links s ≠ [] ∧
  NoDup (link_ids s) ∧ 0 < s_updated_ms s.
Proof.
  unfold new_subject, outside, repeats, positive. intros H. res_inv. bool_prop.
  split_and!; try done. by apply dec_stable.
Qed.
Lemma new_subject_make s :
  is_subject_ref (s_subject_ref s) = true → s_state s ∈ SUBJECT_STATES → s_actor_links s ≠ [] →
  NoDup (link_ids s) → 0 < s_updated_ms s → new_subject s = Ok s.
Proof.
  intros H1 H2 H3 H4 H5. unfold new_subject, repeats, positive. rewrite H1. simpl.
  rewrite outside_no, (bool_decide_false (s_actor_links s = [])) by done. simpl.
  rewrite (bool_decide_true (NoDup _)) by done. by rewrite (proj2 (Z.leb_gt _ _) H5).
Qed.
Lemma new_estimate_ok r : new_estimate r = Ok r →
  is_subject_ref (r_subject_ref r) = true ∧ r_circle r ∈ RELATION_CIRCLES ∧
  r_state r ∈ RELATIONSHIP_STATES ∧ 0 ≤ r_relationship_confidence r ≤ 100 ∧
  NoDup (t_context <$> r_context_trust r) ∧ 0 < r_updated_ms r.
Proof.
  unfold new_estimate, outside, repeats, positive, _confidence. intros H. res_inv. bool_prop.
  split_and!; try done; by apply dec_stable.
Qed.
Lemma new_estimate_make r :
  is_subject_ref (r_subject_ref r) = true → r_circle r ∈ RELATION_CIRCLES →
  r_state r ∈ RELATIONSHIP_STATES → 0 ≤ r_relationship_confidence r ≤ 100 →
  NoDup (t_context <$> r_context_trust r) → 0 < r_updated_ms r → new_estimate r = Ok r.
Proof.
  intros H1 H2 H3 H4 H5 H6. unfold new_estimate, repeats, positive, _confidence. rewrite H1. simpl.
  rewrite !outside_no by done. simpl.
  rewrite (bool_decide_true (NoDup _)) by done.
  rewrite (proj2 (Z.leb_le 0 _)), (proj2 (Z.leb_le _ 100)) by lia.
  by rewrite (proj2 (Z.leb_gt _ _) H6).
Qed.
(** An event without checked details *)
Lemma new_event_make v :
  startswith "revt_" (v_event_id v) = true → texty MAX_CONTEXT_LENGTH (v_event_type v) →
  (v_actor_id v = "" ∨ is_actor_id (v_actor_id v) = true) →
  (v_subject_ref v = "" ∨ is_subject_ref (v_subject_ref v) = true) →
  texty EV (v_evidence_ref v) → 0 < v_observed_ms v → NoDup (v_details v).*1 →
  Forall (λ kv, kv.1 ∈ RELATION_EVENT_DETAIL_FIELDS (v_event_type v) ∧ plain_detail kv.2 = true) (v_details v) →
  Forall (λ kc, check_detail kc.1 (v_details v) kc.2 = Ok tt)
     [("confidence", λ w, n ← py_int w; _confidence n "relationship event confidence";; mret tt);
      ("estimate", λ w, n ← py_int w; _confidence n "relationship event estimate";; mret tt);
      ("circle", λ w, raise_if (negb (existsb (is_text w) RELATION_CIRCLES))
                        (ValueError "invalid relationship event circle"));
      ("context", λ w, _bounded_text (py_str w) "relationship event context" MAX_CONTEXT_LENGTH;; mret tt);
      ("actor_kind", λ w, normalize_actor_kind (py_str w);; mret tt);
      ("proof_scope", λ w, raise_if (negb (existsb (is_text w) ACTOR_PROOF_SCOPES))
                             (ValueError "invalid relationship event proof scope"))] →
  new_event v = Ok v.
Proof.
  intros H1 H2 H3 H4 H5 H6 H7 H8 H9. unfold new_event. rewrite H1. simpl.
  rewrite (proj2 (bounded_ok _ _ _ _) (conj H2 eq_refl)). simpl.
  assert (negb (String.eqb (v_actor_id v) "") && negb (is_actor_id (v_actor_id v)) = false) as ->
    by (destruct H3 as [->| ->]; [done|by rewrite andb_false_r]). simpl.
  assert (negb (String.eqb (v_subject_ref v) "") && negb (is_subject_ref (v_subject_ref v)) = false) as ->
    by (destruct H4 as [->| ->]; [done|by rewrite andb_false_r]). simpl.
  rewrite (proj2 (bounded_ok _ _ _ _) (conj H5 eq_refl)). simpl.
  unfold positive. rewrite (proj2 (Z.leb_gt _ _) H6). simpl.
  assert (repeats (v_details v).*1 = false) as -> by (unfold repeats; by rewrite bool_decide_true).
  assert (existsb (outside (RELATION_EVENT_DETAIL_FIELDS (v_event_type v))) (v_details v).*1 = false) as ->.
  { apply not_true_iff_false. rewrite existsb_exists. intros (k & Hk & Ho).
    apply list_elem_of_In, list_elem_of_fmap in Hk as (kv & -> & Hk).
    unfold outside in Ho. apply bool_decide_eq_true in Ho. apply Ho.
    by apply (proj1 (Forall_forall _ _) H8). }
  assert (forallb (λ kv, plain_detail kv.2) (v_details v) = true) as ->.
  { apply forallb_forall. intros kv Hkv. apply list_elem_of_In in Hkv. by apply (proj1 (Forall_forall _ _) H8). }
  simpl. do 6 (apply Forall_cons in H9 as [E H9]; simpl in E; rewrite E; clear E; simpl). done.
Qed.
End records.

(** ** The invariant *)

Section laws.
Context {PL : Platform} {DG : Digests} {SG : Signatures} {UL : Urllib} (own : string).

(** Sources are superseded once, replacements replace once, and no subject descends from itself. *)
Record lineage_ok (subjects : gmap string SubjectHypothesis) (ts : list SubjectTransition) : Prop := {
  lo_sources : NoDup (concat (n_source_subject_refs <$> ts));
  lo_replacements : NoDup (concat (n_replacement_subject_refs <$> ts));
  lo_superseded : ∀ r, r ∈ concat (n_source_subject_refs <$> ts) →
    ∃ s, subjects !! r = Some s ∧ s_state s = "superseded";
  lo_known : ∀ r, r ∈ concat (n_replacement_subject_refs <$> ts) → is_Some (subjects !! r);
  lo_ranked : ∃ rank : string → nat, ∀ t source r, t ∈ ts → source ∈ n_source_subject_refs t →
    r ∈ n_replacement_subject_refs t → (rank source < rank r)%nat;
}.
Record book_ok (b : RelationshipBook) : Prop := {
  bo_own : b_actors b !! own = None;
  bo_actors : ∀ id a, b_actors b !! id = Some a → a_actor_id a = id ∧ actor_wf a ∧
    Forall (λ p, known_issuer own (b_actors b) id p = true) (a_proofs a);
  bo_subjects : ∀ ref s, b_subjects b !! ref = Some s → s_subject_ref s = ref ∧ subject_wf s ∧
    ∀ id, id ∈ link_ids s → is_Some (b_actors b !! id);
  bo_active : ∀ id, is_Some (b_actors b !! id) → ∃ ref s, b_subjects b !! ref = Some s ∧
    is_active s = true ∧ id ∈ link_ids s;
  bo_relationships : ∀ ref, is_Some (b_relationships b !! ref) ↔ is_Some (b_subjects b !! ref);
  bo_estimates : ∀ ref r, b_relationships b !! ref = Some r → r_subject_ref r = ref ∧ estimate_wf r;
  bo_event_ids : NoDup (v_event_id <$> b_events b);
  bo_events : Forall event_wf (b_events b);
  bo_interactions : ∀ id i, b_interactions b !! id = Some i → i_interaction_id i = id ∧
    new_interaction i = Ok i ∧ is_Some (b_actors b !! i_actor_id i) ∧
    ∃ s, b_subjects b !! i_subject_ref i = Some s ∧ i_actor_id i ∈ link_ids s;
  bo_transition_ids : NoDup (n_transition_id <$> b_transitions b);
  bo_transitions : Forall (λ t, new_transition t = Ok t) (b_transitions b);
  bo_lineage : lineage_ok (b_subjects b) (b_transitions b);
  bo_decisions : ∀ id c, b_suggestion_decisions b !! id = Some c → c_suggestion_id c = id ∧
    new_decision c = Ok c ∧ c_decision_id c = decision_id own id ∧ is_Some (b_subjects b !! c_subject_ref c);
}.
Lemma new_book_ok : book_ok new_book.
Proof.
  split; simpl; try (intros ? ?; by rewrite lookup_empty); try constructor; simpl; try constructor.
  - intros id [a Ha]. by rewrite lookup_empty in Ha.
  - by rewrite !lookup_empty.
  - by rewrite !lookup_empty.
  - by intros r ?%elem_of_nil.
  - by intros r ?%elem_of_nil.
  - exists (λ _, O). by intros t ? ? ?%elem_of_nil.
Qed.

(** ** What an operation changes in memory *)

(** A subject as a transition leaves it, and its relationship *)
Definition retired_subject (evidence : string) (now : Z) (s : SubjectHypothesis) : SubjectHypothesis :=
  {| s_subject_ref := s_subject_ref s; s_state := "superseded"; s_labels := s_labels s;
     s_actor_links := s_actor_links s; s_evidence_refs := normal_refs (s_evidence_refs s ++ [evidence]);
     s_updated_ms := now |}.
Definition retired_estimate (evidence : string) (now : Z) (r : RelationshipEstimate) : RelationshipEstimate :=
  {| r_subject_ref := r_subject_ref r; r_circle := r_circle r;
     r_state := if String.eqb (r_state r) "active" then "dormant" else r_state r;
     r_relationship_labels := r_relationship_labels r;
     r_relationship_confidence := r_relationship_confidence r; r_context_trust := r_context_trust r;
     r_evidence_refs := normal_refs (r_evidence_refs r ++ [evidence]); r_updated_ms := now |}.
Definition logged (v : RelationshipEvent) (b : RelationshipBook) : RelationshipBook :=
  set_events (b_events b ++ [v]) b.
Definition new_id (b : RelationshipBook) (v : RelationshipEvent) : Prop :=
  event_wf v ∧ v_event_id v ∉ v_event_id <$> b_events b.

(** The circle, state and trust of a relationship *)
Definition judgement (r : RelationshipEstimate) : string * string * Z * list ContextTrust :=
  (r_circle r, r_state r, r_relationship_confidence r, r_context_trust r).
Inductive change (b : RelationshipBook) : RelationshipBook → Prop :=
  | change_first_seen a s r v :
      b_actors b !! a_actor_id a = None → a_actor_id a ≠ own → actor_wf a → a_state a = "active" →
      Forall (λ p, known_issuer own (b_actors b) (a_actor_id a) p = true) (a_proofs a) →
      b_subjects b !! s_subject_ref s = None → subject_wf s → is_active s = true →
      link_ids s = [a_actor_id a] → estimate_wf r → r_subject_ref r = s_subject_ref s →
      judgement r = ("public", "active", 0, []) → new_id b v →
      change b (logged v (set_relationships (<[s_subject_ref s := r]> (b_relationships b))
        (set_subjects (<[s_subject_ref s := s]> (b_subjects b))
           (set_actors (<[a_actor_id a := a]> (b_actors b)) b))))
  | change_actor id a a' v :
      b_actors b !! id = Some a → actor_wf a' → a_actor_id a' = id → a_actor_kind a' = a_actor_kind a →
      a_first_seen_ms a' = a_first_seen_ms a → (a_state a' = a_state a ∨ a_state a' = "revoked") →
      a_proofs a `prefix_of` a_proofs a' →
      Forall (λ p, known_issuer own (b_actors b) id p = true) (a_proofs a') →
      new_id b v →
      change b (logged v (set_actors (<[id := a']> (b_actors b)) b))
  | change_interaction i v :
      b_interactions b !! i_interaction_id i = None → new_interaction i = Ok i →
      is_Some (b_actors b !! i_actor_id i) →
      (∃ s, b_subjects b !! i_subject_ref i = Some s ∧ i_actor_id i ∈ link_ids s) → new_id b v →
      change b (logged v (set_interactions (<[i_interaction_id i := i]> (b_interactions b)) b))
  | change_link ref s s' v :
      b_subjects b !! ref = Some s → is_active s = true → subject_wf s' → s_subject_ref s' = ref →
      s_state s' = s_state s → link_ids s ⊆ link_ids s' →
      (∀ id, id ∈ link_ids s' → is_Some (b_actors b !! id)) → new_id b v →
      change b (logged v (set_subjects (<[ref := s']> (b_subjects b)) b))
  | change_relationship ref r r' v :
      b_relationships b !! ref = Some r → estimate_wf r' → r_subject_ref r' = ref → new_id b v →
      change b (logged v (set_relationships (<[ref := r']> (b_relationships b)) b))
  | change_event v : new_id b v → change b (logged v b)
  | change_decision c :
      b_suggestion_decisions b !! c_suggestion_id c = None → new_decision c = Ok c →
      c_decision_id c = decision_id own (c_suggestion_id c) → is_Some (b_subjects b !! c_subject_ref c) →
      change b (set_decisions (<[c_suggestion_id c := c]> (b_suggestion_decisions b)) b)
  | change_lineage t subjects relationships events :
      new_transition t = Ok t → n_transition_id t ∉ n_transition_id <$> b_transitions b →
      (∀ ref, ref ∈ n_source_subject_refs t → ∃ s r, b_subjects b !! ref = Some s ∧ is_active s = true ∧
         b_relationships b !! ref = Some r ∧
         subjects !! ref = Some (retired_subject (n_evidence_ref t) (n_observed_ms t) s) ∧
         relationships !! ref = Some (retired_estimate (n_evidence_ref t) (n_observed_ms t) r)) →
      (∀ ref, ref ∈ n_replacement_subject_refs t → b_subjects b !! ref = None ∧
         ∃ s r, subjects !! ref = Some s ∧ s_subject_ref s = ref ∧ subject_wf s ∧ is_active s = true ∧
           (∀ id, id ∈ link_ids s → is_Some (b_actors b !! id)) ∧
           relationships !! ref = Some r ∧ r_subject_ref r = ref ∧ estimate_wf r) →
      (∀ ref, ref ∉ n_source_subject_refs t → ref ∉ n_replacement_subject_refs t →
         subjects !! ref = b_subjects b !! ref ∧ relationships !! ref = b_relationships b !! ref) →
      (∀ ref s id, ref ∈ n_source_subject_refs t → b_subjects b !! ref = Some s → id ∈ link_ids s →
         ∃ ref' s', ref' ∈ n_replacement_subject_refs t ∧ subjects !! ref' = Some s' ∧ id ∈ link_ids s') →
      Forall event_wf events → NoDup (v_event_id <$> events) →
      (∀ v, v ∈ events → v_event_id v ∉ v_event_id <$> b_events b) →
      change b (set_subjects subjects (set_relationships relationships
        (set_events (b_events b ++ events) (set_transitions (b_transitions b ++ [t]) b)))).
Definition changes : relation RelationshipBook := rtc change.

(** ** Every change preserves the invariant *)

Lemma known_issuer_insert actors id a' id' p :
  known_issuer own actors id' p = true → known_issuer own (<[id := a']> actors) id' p = true.
Proof.
  unfold known_issuer. rewrite !orb_true_iff, !bool_decide_eq_true. intros [H|H]; [by left|right].
  destruct (decide (p_issuer_actor_id p = id)) as [->|Hne]; [by rewrite lookup_insert_eq|].
  by rewrite lookup_insert_ne.
Qed.
Lemma Forall_known_insert actors id a' id' ps :
  Forall (λ p, known_issuer own actors id' p = true) ps →
  Forall (λ p, known_issuer own (<[id := a']> actors) id' p = true) ps.
Proof. intros H. eapply Forall_impl; [exact H|]. intros p. apply known_issuer_insert. Qed.
Lemma is_Some_insert {V} (m : gmap string V) k x k' : is_Some (m !! k') → is_Some (<[k := x]> m !! k').
Proof.
  intros H. destruct (decide (k = k')) as [->|Hne]; [by rewrite lookup_insert_eq|by rewrite lookup_insert_ne].
Qed.
(** Subjects that keep their actors keep the interactions, and so on *)
Definition subjects_grow (m m' : gmap string SubjectHypothesis) : Prop :=
  ∀ ref s, m !! ref = Some s → ∃ s', m' !! ref = Some s' ∧ s_state s' = s_state s ∧ link_ids s ⊆ link_ids s'.
Lemma subjects_grow_some m m' ref : subjects_grow m m' → is_Some (m !! ref) → is_Some (m' !! ref).
Proof. intros Hg [s Hs]. destruct (Hg ref s Hs) as (s' & -> & _). done. Qed.
Lemma lineage_grow m m' ts : subjects_grow m m' → lineage_ok m ts → lineage_ok m' ts.
Proof.
  intros Hg [H1 H2 H3 H4 H5]. split; try done.
  - intros r Hr. destruct (H3 r Hr) as (s & Hs & Est). destruct (Hg r s Hs) as (s' & Hs' & Est' & _).
    exists s'. by rewrite Est'.
  - intros r Hr. eapply subjects_grow_some; eauto.
Qed.
Lemma logged_ok v b : new_id b v → book_ok b → book_ok (logged v b).
Proof.
  intros [Hwf Hid] []. split; try done; simpl.
  - rewrite fmap_app. apply NoDup_app. split_and!; [done|set_solver|apply NoDup_singleton].
  - apply Forall_app. by split; [|constructor].
Qed.
Lemma first_seen_ok b a s r :
  b_actors b !! a_actor_id a = None → a_actor_id a ≠ own → actor_wf a →
  Forall (λ p, known_issuer own (b_actors b) (a_actor_id a) p = true) (a_proofs a) →
  b_subjects b !! s_subject_ref s = None → subject_wf s → is_active s = true →
  link_ids s = [a_actor_id a] → estimate_wf r → r_subject_ref r = s_subject_ref s → book_ok b →
  book_ok (set_relationships (<[s_subject_ref s := r]> (b_relationships b))
    (set_subjects (<[s_subject_ref s := s]> (b_subjects b)) (set_actors (<[a_actor_id a := a]> (b_actors b)) b))).
Proof.
  intros Hnew Hown Ha Hp Hs Hwf Hact Hl Hr Href [].
  assert (subjects_grow (b_subjects b) (<[s_subject_ref s := s]> (b_subjects b))) as Hgrow.
  { intros ref s' Hs'. exists s'. rewrite lookup_insert_ne by congruence. done. }
  split; try done; simpl.
  - by rewrite lookup_insert_ne.
  - intros id a' Ha'. apply lookup_insert_Some in Ha' as [[<- <-]|[Hne Ha']].
    + split; [done|]. split; [done|]. by apply Forall_known_insert.
    + destruct (bo_actors0 _ _ Ha') as (H1 & H2 & H3). split; [done|]. split; [done|]. by apply Forall_known_insert.
  - intros ref s' Hs'. apply lookup_insert_Some in Hs' as [[<- <-]|[Hne Hs']].
    + split; [done|]. split; [done|]. intros id Hid. rewrite Hl in Hid. apply list_elem_of_singleton in Hid as ->.
      by rewrite lookup_insert_eq.
    + destruct (bo_subjects0 _ _ Hs') as (H1 & H2 & H3). split; [done|]. split; [done|].
      intros id Hid. by apply is_Some_insert, H3.
  - intros id Hid. destruct (decide (id = a_actor_id a)) as [->|Hne].
    + exists (s_subject_ref s), s. rewrite lookup_insert_eq, Hl. split; [done|]. split; [done|]. by left.
    + rewrite lookup_insert_ne in Hid by done. destruct (bo_active0 _ Hid) as (ref & s' & Hs' & H1 & H2).
      exists ref, s'. rewrite lookup_insert_ne by congruence. done.
  - intros ref. destruct (decide (ref = s_subject_ref s)) as [->|Hne]; [by rewrite !lookup_insert_eq|].
    rewrite !lookup_insert_ne by done. apply bo_relationships0.
  - intros ref r' Hr'. apply lookup_insert_Some in Hr' as [[<- <-]|[Hne Hr']]; [done|by apply bo_estimates0].
  - intros id i Hi. destruct (bo_interactions0 _ _ Hi) as (H1 & H2 & H3 & s' & Hs' & H4).
    split_and!; [done|done|by apply is_Some_insert|]. exists s'. rewrite lookup_insert_ne by congruence. done.
  - by eapply lineage_grow.
  - intros id c Hc. destruct (bo_decisions0 _ _ Hc) as (H1 & H2 & H3 & H4). split_and!; try done.
    by apply is_Some_insert.
Qed.
Lemma actor_ok b id a a' :
  b_actors b !! id = Some a → actor_wf a' → a_actor_id a' = id →
  Forall (λ p, known_issuer own (b_actors b) id p = true) (a_proofs a') → book_ok b →
  book_ok (set_actors (<[id := a']> (b_actors b)) b).
Proof.
  intros Ha Hwf Hid Hp []. split; try done; simpl.
  - rewrite lookup_insert_ne; [done|]. intros ->. congruence.
  - intros id' x Hx. apply lookup_insert_Some in Hx as [[<- <-]|[Hne Hx]].
    + split; [done|]. split; [done|]. by apply Forall_known_insert.
    + destruct (bo_actors0 _ _ Hx) as (H1 & H2 & H3). split; [done|]. split; [done|]. by apply Forall_known_insert.
  - intros ref s Hs. destruct (bo_subjects0 _ _ Hs) as (H1 & H2 & H3). split; [done|]. split; [done|].
    intros x Hx. by apply is_Some_insert, H3.
  - intros x Hx. apply bo_active0. destruct (decide (id = x)) as [->|Hne]; [by rewrite Ha|].
    by rewrite lookup_insert_ne in Hx.
  - intros k i Hi. destruct (bo_interactions0 _ _ Hi) as (H1 & H2 & H3 & H4). split_and!; try done.
    by apply is_Some_insert.
Qed.
Lemma interaction_ok b i :
  new_interaction i = Ok i → is_Some (b_actors b !! i_actor_id i) →
  (∃ s, b_subjects b !! i_subject_ref i = Some s ∧ i_actor_id i ∈ link_ids s) → book_ok b →
  book_ok (set_interactions (<[i_interaction_id i := i]> (b_interactions b)) b).
Proof.
  intros Hi Ha Hs []. split; try done; simpl. intros id x Hx.
  apply lookup_insert_Some in Hx as [[<- <-]|[Hne Hx]]; [done|by apply bo_interactions0].
Qed.
Lemma subject_ok b ref s s' :
  b_subjects b !! ref = Some s → is_active s = true → subject_wf s' → s_subject_ref s' = ref →
  s_state s' = s_state s → link_ids s ⊆ link_ids s' →
  (∀ id, id ∈ link_ids s' → is_Some (b_actors b !! id)) → book_ok b →
  book_ok (set_subjects (<[ref := s']> (b_subjects b)) b).
Proof.
  intros Hs Hact Hwf Href Hstate Hl Hknown [].
  assert (subjects_grow (b_subjects b) (<[ref := s']> (b_subjects b))) as Hgrow.
  { intros ref' x Hx. destruct (decide (ref = ref')) as [->|Hne].
    - exists s'. rewrite lookup_insert_eq. assert (x = s) as -> by congruence. done.
    - exists x. rewrite lookup_insert_ne by done. done. }
  split; try done; simpl.
  - intros ref' x Hx. apply lookup_insert_Some in Hx as [[<- <-]|[Hne Hx]]; [done|by apply bo_subjects0].
  - intros id Hid. destruct (bo_active0 _ Hid) as (ref' & x & Hx & H1 & H2).
    destruct (decide (ref = ref')) as [->|Hne].
    + exists ref', s'. assert (x = s) as -> by congruence. rewrite lookup_insert_eq. split_and!; [done| |by apply Hl].
      unfold is_active in *. by rewrite Hstate.
    + exists ref', x. rewrite lookup_insert_ne by done. done.
  - intros ref'. rewrite bo_relationships0. destruct (decide (ref = ref')) as [->|Hne].
    + rewrite lookup_insert_eq, Hs. by split; eauto.
    + by rewrite lookup_insert_ne.
  - intros id i Hi. destruct (bo_interactions0 _ _ Hi) as (H1 & H2 & H3 & x & Hx & H4). split_and!; try done.
    destruct (Hgrow _ _ Hx) as (x' & Hx' & _ & Hsub). exists x'. split; [done|by apply Hsub].
  - by eapply lineage_grow.
  - intros id c Hc. destruct (bo_decisions0 _ _ Hc) as (H1 & H2 & H3 & H4). split_and!; try done.
    by apply is_Some_insert.
Qed.
Lemma relationship_ok b ref r r' :
  b_relationships b !! ref = Some r → estimate_wf r' → r_subject_ref r' = ref → book_ok b →
  book_ok (set_relationships (<[ref := r']> (b_relationships b)) b).
Proof.
  intros Hr Hwf Href []. split; try done; simpl.
  - intros ref'. rewrite <- bo_relationships0. destruct (decide (ref = ref')) as [->|Hne].
    + rewrite lookup_insert_eq, Hr. by split; eauto.
    + by rewrite lookup_insert_ne.
  - intros ref' x Hx. apply lookup_insert_Some in Hx as [[<- <-]|[Hne Hx]]; [done|by apply bo_estimates0].
Qed.
Lemma decision_ok b c :
  new_decision c = Ok c → c_decision_id c = decision_id own (c_suggestion_id c) →
  is_Some (b_subjects b !! c_subject_ref c) → book_ok b →
  book_ok (set_decisions (<[c_suggestion_id c := c]> (b_suggestion_decisions b)) b).
Proof.
  intros Hc Hid Hs []. split; try done; simpl. intros id x Hx.
  apply lookup_insert_Some in Hx as [[<- <-]|[Hne Hx]]; [done|by apply bo_decisions0].
Qed.
Lemma new_transition_ok t : new_transition t = Ok t →
  n_source_subject_refs t ≠ [] ∧ n_replacement_subject_refs t ≠ [] ∧
  NoDup (n_source_subject_refs t ++ n_replacement_subject_refs t) ∧
  0 ≤ n_confidence t ≤ 100 ∧ texty MAX_EVIDENCE_LENGTH (n_evidence_ref t) ∧ 0 < n_observed_ms t.
Proof.
  unfold new_transition, repeats, positive, _confidence. cbv zeta. intros H. res_inv. bool_prop.
  repeat match goal with H : _bounded_text _ _ _ = Ok _ |- _ => apply bounded_ok in H as [? _] end.
  split_and!; try done; lia.
Qed.
Lemma retired_subject_wf evidence now s :
  subject_wf s → texty MAX_EVIDENCE_LENGTH evidence → 0 < now → subject_wf (retired_subject evidence now s).
Proof.
  intros (Hs & Hl & Hlab & He & Hplain) Htext Hnow. apply new_subject_ok in Hs as (H1 & H2 & H3 & H4 & H5).
  split_and!; [apply new_subject_make; try done; simpl; set_solver|done|done| |done].
  apply texty_normal, Forall_app. split; [done|by constructor].
Qed.
Lemma retired_estimate_wf evidence now r :
  estimate_wf r → texty MAX_EVIDENCE_LENGTH evidence → 0 < now → estimate_wf (retired_estimate evidence now r).
Proof.
  intros (Hr & Ht & Hlab & He) Htext Hnow. apply new_estimate_ok in Hr as (H1 & H2 & H3 & H4 & H5 & H6).
  split_and!; [|done|done|apply texty_normal, Forall_app; split; [done|by constructor]].
  apply new_estimate_make; try done. simpl. destruct (String.eqb _ _); [set_solver|done].
Qed.
Lemma elem_of_refs (f : SubjectTransition → list string) ts x :
  x ∈ concat (f <$> ts) ↔ ∃ t, t ∈ ts ∧ x ∈ f t.
Proof.
  induction ts as [|t ts IH]; simpl.
  - split; [by intros ?%elem_of_nil|]. by intros (t & ?%elem_of_nil & _).
  - rewrite elem_of_app, IH. split.
    + intros [Hx|(t' & Ht' & Hx)]; [exists t|exists t']; by (split; [constructor|]).
    + intros (t' & [->|Ht']%elem_of_cons & Hx); eauto.
Qed.
(** The ranks of a lineage with one transition more: replacements come last. *)
Lemma ranked_app (ts : list SubjectTransition) t (rank : string → nat) :
  (∀ t source r, t ∈ ts → source ∈ n_source_subject_refs t → r ∈ n_replacement_subject_refs t →
     (rank source < rank r)%nat) →
  (∀ x, x ∈ n_replacement_subject_refs t →
     (x ∉ concat (n_source_subject_refs <$> ts)) ∧ x ∉ concat (n_replacement_subject_refs <$> ts)) →
  NoDup (n_source_subject_refs t ++ n_replacement_subject_refs t) →
  ∃ rank' : string → nat, ∀ t' source r, t' ∈ ts ++ [t] → source ∈ n_source_subject_refs t' →
     r ∈ n_replacement_subject_refs t' → (rank' source < rank' r)%nat.
Proof.
  intros Hrank Hnew Hnd. set (top := S (foldr Nat.max O (rank <$> n_source_subject_refs t))).
  exists (λ x, if decide (x ∈ n_replacement_subject_refs t) then top else rank x).
  intros t' source r [Ht'|Ht']%elem_of_app Hs Hr.
  - assert (source ∈ concat (n_source_subject_refs <$> ts)) as Hs'
      by (apply elem_of_refs; eauto).
    assert (r ∈ concat (n_replacement_subject_refs <$> ts)) as Hr'
      by (apply elem_of_refs; eauto).
    rewrite !decide_False; [by eapply Hrank|intros Hin; by apply Hnew in Hin as [? ?]..].
  - apply list_elem_of_singleton in Ht' as ->. apply NoDup_app in Hnd as (_ & Hdisj & _).
    rewrite (decide_False (P:=source ∈ _)) by (by apply Hdisj). rewrite decide_True by done.
    unfold top. clear -Hs. induction (n_source_subject_refs t) as [|x l IH]; [by apply elem_of_nil in Hs|].
    simpl. apply elem_of_cons in Hs as [->|Hs]; [apply Nat.lt_succ_r, Nat.le_max_l|].
    specialize (IH Hs). eapply Nat.lt_le_trans; [exact IH|]. apply le_n_S, Nat.le_max_r.
Qed.
Lemma concat_app_one (f : SubjectTransition → list string) ts t :
  concat (f <$> ts ++ [t]) = concat (f <$> ts) ++ f t.
Proof. by rewrite fmap_app, concat_app; simpl; rewrite app_nil_r. Qed.
Lemma lineage_step_ok m m' ts t :
  lineage_ok m ts → new_transition t = Ok t →
  (∀ ref, ref ∈ n_source_subject_refs t → ∃ s, m !! ref = Some s ∧ is_active s = true) →
  (∀ ref, ref ∈ n_source_subject_refs t → ∃ s, m' !! ref = Some s ∧ s_state s = "superseded") →
  (∀ ref, ref ∈ n_replacement_subject_refs t → m !! ref = None ∧ is_Some (m' !! ref)) →
  (∀ ref, ref ∉ n_source_subject_refs t → ref ∉ n_replacement_subject_refs t → m' !! ref = m !! ref) →
  lineage_ok m' (ts ++ [t]).
Proof.
  intros [H1 H2 H3 H4 (rank & H5)] Ht Hsrc Hsrc' Hrep Hother.
  apply new_transition_ok in Ht as (_ & _ & Hnd & _). pose proof Hnd as Hnd'.
  apply NoDup_app in Hnd' as (Hnd1 & Hdisj & Hnd2).
  assert (∀ r, r ∈ n_source_subject_refs t → r ∉ concat (n_source_subject_refs <$> ts)) as Hfresh.
  { intros r Hr Hin. destruct (H3 r Hin) as (s & Hs & Est). destruct (Hsrc r Hr) as (s' & Hs' & Hact).
    unfold is_active in Hact. apply String.eqb_eq in Hact. congruence. }
  assert (∀ r, r ∈ n_replacement_subject_refs t →
    (r ∉ concat (n_source_subject_refs <$> ts)) ∧ r ∉ concat (n_replacement_subject_refs <$> ts)) as Hnew.
  { intros r Hr. destruct (Hrep r Hr) as [Hn _]. split; intros Hin.
    - destruct (H3 r Hin) as (s & Hs & _). congruence.
    - destruct (H4 r Hin) as [s Hs]. congruence. }
  split; rewrite ?concat_app_one.
  - apply NoDup_app. split_and!; [done| |done]. intros r Hin Hr. by apply (Hfresh r).
  - apply NoDup_app. split_and!; [done| |done]. intros r Hin Hr. by destruct (Hnew r Hr).
  - intros r [Hin|Hr]%elem_of_app; [|by apply Hsrc'].
    destruct (decide (r ∈ n_source_subject_refs t)) as [Hr|Hr]; [by apply Hsrc'|].
    rewrite Hother; [by apply H3|done|]. intros Hr'. by destruct (Hnew r Hr').
  - intros r [Hin|Hr]%elem_of_app; [|by apply Hrep].
    destruct (decide (r ∈ n_source_subject_refs t)) as [Hr|Hr];
      [destruct (Hsrc' r Hr) as (s & -> & _); done|].
    rewrite Hother; [by apply H4|done|]. intros Hr'. by destruct (Hnew r Hr').
  - by eapply ranked_app.
Qed.
Lemma lineage_change_ok b t subjects relationships events :
  new_transition t = Ok t → n_transition_id t ∉ n_transition_id <$> b_transitions b →
  (∀ ref, ref ∈ n_source_subject_refs t → ∃ s r, b_subjects b !! ref = Some s ∧ is_active s = true ∧
     b_relationships b !! ref = Some r ∧
     subjects !! ref = Some (retired_subject (n_evidence_ref t) (n_observed_ms t) s) ∧
     relationships !! ref = Some (retired_estimate (n_evidence_ref t) (n_observed_ms t) r)) →
  (∀ ref, ref ∈ n_replacement_subject_refs t → b_subjects b !! ref = None ∧
     ∃ s r, subjects !! ref = Some s ∧ s_subject_ref s = ref ∧ subject_wf s ∧ is_active s = true ∧
       (∀ id, id ∈ link_ids s → is_Some (b_actors b !! id)) ∧
       relationships !! ref = Some r ∧ r_subject_ref r = ref ∧ estimate_wf r) →
  (∀ ref, ref ∉ n_source_subject_refs t → ref ∉ n_replacement_subject_refs t →
     subjects !! ref = b_subjects b !! ref ∧ relationships !! ref = b_relationships b !! ref) →
  (∀ ref s id, ref ∈ n_source_subject_refs t → b_subjects b !! ref = Some s → id ∈ link_ids s →
     ∃ ref' s', ref' ∈ n_replacement_subject_refs t ∧ subjects !! ref' = Some s' ∧ id ∈ link_ids s') →
  Forall event_wf events → NoDup (v_event_id <$> events) →
  (∀ v, v ∈ events → v_event_id v ∉ v_event_id <$> b_events b) → book_ok b →
  book_ok (set_subjects subjects (set_relationships relationships
    (set_events (b_events b ++ events) (set_transitions (b_transitions b ++ [t]) b)))).
Proof.
  intros Ht Htid Hsrc Hrep Hother Hcover Hev Hevnd Hevnew [].
  pose proof (new_transition_ok t Ht) as (_ & _ & _ & _ & Htext & Hnow).
  assert (∀ ref s, b_subjects b !! ref = Some s → ∃ s', subjects !! ref = Some s' ∧ link_ids s' = link_ids s)
    as Hkeep.
  { intros ref s Hs. destruct (decide (ref ∈ n_source_subject_refs t)) as [Hin|Hn].
    - destruct (Hsrc ref Hin) as (x & r & Hx & _ & _ & -> & _). assert (x = s) as -> by congruence. eauto.
    - destruct (decide (ref ∈ n_replacement_subject_refs t)) as [Hin|Hn'].
      + destruct (Hrep ref Hin) as [? _]. congruence.
      + destruct (Hother ref Hn Hn') as [-> _]. eauto. }
  split; try done; simpl.
  - intros ref s Hs. destruct (decide (ref ∈ n_source_subject_refs t)) as [Hin|Hn].
    + destruct (Hsrc ref Hin) as (x & r & Hx & _ & _ & Hx' & _). rewrite Hs in Hx'. injection Hx' as ->.
      destruct (bo_subjects0 _ _ Hx) as (H1 & H2 & H3). split; [done|]. split; [by apply retired_subject_wf|done].
    + destruct (decide (ref ∈ n_replacement_subject_refs t)) as [Hin|Hn'].
      * destruct (Hrep ref Hin) as (_ & x & r & Hx & H1 & H2 & H3 & H4 & _). rewrite Hs in Hx. by injection Hx as ->.
      * destruct (Hother ref Hn Hn') as [E _]. apply bo_subjects0. by rewrite <- E.
  - intros id Hid. destruct (bo_active0 _ Hid) as (ref & s & Hs & Hact & Hl).
    destruct (decide (ref ∈ n_source_subject_refs t)) as [Hin|Hn].
    + destruct (Hcover ref s id Hin Hs Hl) as (ref' & s' & Hin' & Hs' & Hl').
      destruct (Hrep ref' Hin') as (_ & x & r & Hx & _ & _ & Hact' & _). rewrite Hs' in Hx. injection Hx as ->.
      by exists ref', x.
    + destruct (decide (ref ∈ n_replacement_subject_refs t)) as [Hin|Hn'].
      * destruct (Hrep ref Hin) as [? _]. congruence.
      * exists ref, s. destruct (Hother ref Hn Hn') as [-> _]. done.
  - intros ref. destruct (decide (ref ∈ n_source_subject_refs t)) as [Hin|Hn].
    + destruct (Hsrc ref Hin) as (x & r & _ & _ & _ & -> & ->). by split; eauto.
    + destruct (decide (ref ∈ n_replacement_subject_refs t)) as [Hin|Hn'].
      * destruct (Hrep ref Hin) as (_ & x & r & -> & _ & _ & _ & _ & -> & _). by split; eauto.
      * destruct (Hother ref Hn Hn') as [-> ->]. done.
  - intros ref r Hr. destruct (decide (ref ∈ n_source_subject_refs t)) as [Hin|Hn].
    + destruct (Hsrc ref Hin) as (x & r' & _ & _ & Hr' & _ & Hx'). rewrite Hr in Hx'. injection Hx' as ->.
      destruct (bo_estimates0 _ _ Hr') as [H1 H2]. split; [done|by apply retired_estimate_wf].
    + destruct (decide (ref ∈ n_replacement_subject_refs t)) as [Hin|Hn'].
      * destruct (Hrep ref Hin) as (_ & x & r' & _ & _ & _ & _ & _ & Hr' & H1 & H2). rewrite Hr in Hr'.
        by injection Hr' as ->.
      * destruct (Hother ref Hn Hn') as [_ E]. apply bo_estimates0. by rewrite <- E.
  - rewrite fmap_app. apply NoDup_app. split_and!; [done| |done]. intros x Hx Hin.
    apply list_elem_of_fmap in Hin as (v & -> & Hv). by apply (Hevnew v).
  - by apply Forall_app.
  - intros id i Hi. destruct (bo_interactions0 _ _ Hi) as (H1 & H2 & H3 & s & Hs & H4). split_and!; try done.
    destruct (Hkeep _ _ Hs) as (s' & Hs' & E). exists s'. by rewrite E.
  - rewrite fmap_app. apply NoDup_app. split_and!; [done| |apply NoDup_singleton]. set_solver.
  - apply Forall_app. by split; [|constructor].
  - eapply lineage_step_ok; try done.
    + intros ref Hin. destruct (Hsrc ref Hin) as (x & r & Hx & Hact & _). eauto.
    + intros ref Hin. destruct (Hsrc ref Hin) as (x & r & _ & _ & _ & -> & _). eexists. split; [done|done].
    + intros ref Hin. destruct (Hrep ref Hin) as (Hnone & x & r & -> & _). eauto.
    + intros ref Hn Hn'. apply Hother; done.
  - intros id c Hc. destruct (bo_decisions0 _ _ Hc) as (H1 & H2 & H3 & [s Hs]). split_and!; try done.
    destruct (Hkeep _ _ Hs) as (s' & -> & _). done.
Qed.
Lemma change_ok b b' : change b b' → book_ok b → book_ok b'.
Proof.
  intros Hc Hok. destruct Hc.
  - apply logged_ok; [done|]. by eapply first_seen_ok.
  - apply logged_ok; [done|]. by eapply actor_ok.
  - apply logged_ok; [done|]. by eapply interaction_ok.
  - apply logged_ok; [done|]. by eapply subject_ok.
  - apply logged_ok; [done|]. by eapply relationship_ok.
  - by apply logged_ok.
  - by eapply decision_ok.
  - eapply lineage_change_ok; eauto.
Qed.
End laws.
