(* ===== verification/RelationRun.v ===== *)
(** What the operations of the relationship book (src/anet/relations.py) do: each either raises
    and leaves memory and file alone, or makes one change and saves it. *)
From S2P Require Import Prelude PyStr PyVal Codecs Locator ControlPlane RelationData RelationBook RelationLaws.

(** The next statement is a check: its failure leaves the state alone. *)
Tactic Notation "wp_ok" simple_intropattern(x) simple_intropattern(H) :=
  wp_step; apply wp_lift; intros x H; [|done]; cbv beta iota.
Tactic Notation "wp_guard" simple_intropattern(H) :=
  wp_step; apply wp_lift_raise_if; intros H; [done|]; cbv beta iota.

Section runs.
Context {PL : Platform} {DG : Digests} {SG : Signatures} {UL : Urllib} (own : string).

(** ** Events *)

Definition event_of (event_id event_type actor_id subject_ref evidence_ref : string) (now : Z)
    (details : list (string * value)) : RelationshipEvent :=
  {| v_event_id := event_id; v_event_type := event_type; v_actor_id := actor_id;
     v_subject_ref := subject_ref; v_evidence_ref := evidence_ref; v_observed_ms := now;
     v_details := sorted_details details |}.
Lemma append_event_run eid ty actor ref evidence now details b :
  new_event (event_of eid ty actor ref evidence now details) = Ok (event_of eid ty actor ref evidence now details) →
  _append_event eid ty actor ref evidence now details b =
    (Ok tt, logged (event_of eid ty actor ref evidence now details) b).
Proof.
  intros H. unfold _append_event. cbv [mbind ST_bind lift modify]. fold (event_of eid ty actor ref evidence now details).
  by rewrite H.
Qed.
(** The details of each event type, sorted *)
Definition details_ok (ty : string) (details : list (string * value)) : Prop :=
  NoDup details.*1 ∧
  Forall (λ kv, kv.1 ∈ RELATION_EVENT_DETAIL_FIELDS ty ∧ plain_detail kv.2 = true) details ∧
  (∀ w, detail "confidence" details = Some w → ∃ n, w = VInt n ∧ 0 ≤ n ≤ 100) ∧
  (∀ w, detail "estimate" details = Some w → ∃ n, w = VInt n ∧ 0 ≤ n ≤ 100) ∧
  (∀ w, detail "circle" details = Some w → ∃ c, w = VStr c ∧ c ∈ RELATION_CIRCLES) ∧
  (∀ w, detail "context" details = Some w → ∃ c, w = VStr c ∧ texty MAX_CONTEXT_LENGTH c) ∧
  (∀ w, detail "actor_kind" details = Some w → ∃ c, w = VStr c ∧ is_Ok (normalize_actor_kind c)) ∧
  (∀ w, detail "proof_scope" details = Some w → ∃ c, w = VStr c ∧ c ∈ ACTOR_PROOF_SCOPES).
Lemma is_text_one_of c l : c ∈ l → existsb (is_text (VStr c)) l = true.
Proof.
  intros Hc. apply existsb_exists. exists c. split; [by apply list_elem_of_In|]. apply String.eqb_refl.
Qed.
Lemma confidence_in n label : 0 ≤ n ≤ 100 → _confidence n label = Ok n.
Proof. intros Hn. unfold _confidence. by rewrite (proj2 (Z.leb_le 0 n)), (proj2 (Z.leb_le n 100)) by lia. Qed.
Lemma check_detail_ok k details check :
  (∀ w, detail k details = Some w → check w = Ok tt) → check_detail k details check = Ok tt.
Proof. unfold check_detail. destruct (detail k details) as [w|]; [|done]. intros H. by apply H. Qed.
Lemma sorted_details_idemp details :
  NoDup (sorted_details details).*1 → sorted_details (sorted_details details) = sorted_details details.
Proof.
  intros Hnd. apply (order_by_unique fst); [|done]. unfold sorted_details. by rewrite order_by_Permutation.
Qed.
Lemma event_make eid ty actor ref evidence now details :
  startswith "revt_" eid = true → texty MAX_CONTEXT_LENGTH ty →
  (actor = "" ∨ is_actor_id actor = true) → (ref = "" ∨ is_subject_ref ref = true) →
  texty MAX_EVIDENCE_LENGTH evidence → 0 < now → details_ok ty (sorted_details details) →
  event_wf (event_of eid ty actor ref evidence now details) ∧
  ∀ b, _append_event eid ty actor ref evidence now details b =
    (Ok tt, logged (event_of eid ty actor ref evidence now details) b).
Proof.
  intros H1 H2 H3 H4 H5 H6 (Hnd & Hf & Hc & He & Hci & Hco & Hk & Hp).
  assert (new_event (event_of eid ty actor ref evidence now details) =
    Ok (event_of eid ty actor ref evidence now details)) as Hev.
  { apply new_event_make; try done.
    repeat apply Forall_cons_2; try apply Forall_nil_2; cbn [fst snd]; apply check_detail_ok; intros w E.
    - destruct (Hc _ E) as (n & -> & Hn). cbn. by rewrite confidence_in.
    - destruct (He _ E) as (n & -> & Hn). cbn. by rewrite confidence_in.
    - destruct (Hci _ E) as (c & -> & Hin). by rewrite is_text_one_of.
    - destruct (Hco _ E) as (c & -> & Ht). cbn [py_str].
      by rewrite (proj2 (bounded_ok _ _ _ _) (conj Ht eq_refl)).
    - destruct (Hk _ E) as (c & -> & [k Hkind]). cbn [py_str]. by rewrite Hkind.
    - destruct (Hp _ E) as (c & -> & Hin). by rewrite is_text_one_of. }
  split; [|intros b; by apply append_event_run]. split; [done|]. by apply sorted_details_idemp.
Qed.
Lemma details_none ty : details_ok ty (sorted_details []).
Proof. split_and!; try done; constructor. Qed.
Ltac details_by l :=
  match goal with |- details_ok ?ty (sorted_details ?x) =>
    replace (sorted_details x) with l by (vm_compute; reflexivity)
  end;
  split_and!; [refine (bool_decide_unpack _ _); vm_compute; exact I
              |repeat apply Forall_cons_2; try apply Forall_nil_2; (split; [set_solver|reflexivity])|..];
  intros w E; vm_compute in E; try discriminate E; apply Some_inj in E as <-.
Lemma details_observed ty kind scope :
  ty = "actor.observed" ∨ ty = "actor.observation-refreshed" → is_Ok (normalize_actor_kind kind) →
  scope ∈ ACTOR_PROOF_SCOPES →
  details_ok ty (sorted_details [("actor_kind", VStr kind); ("proof_scope", VStr scope)]).
Proof. intros [->| ->] Hk Hs; details_by [("actor_kind", VStr kind); ("proof_scope", VStr scope)]; eauto. Qed.
Lemma details_linked n : 0 ≤ n ≤ 100 → details_ok "subject.actor-linked" (sorted_details [("confidence", VInt n)]).
Proof. intros Hn. details_by [("confidence", VInt n)]; eauto. Qed.
Lemma details_circle c n :
  c ∈ RELATION_CIRCLES → 0 ≤ n ≤ 100 →
  details_ok "relationship.circle-set" (sorted_details [("circle", VStr c); ("confidence", VInt n)]).
Proof. intros Hc Hn. details_by [("circle", VStr c); ("confidence", VInt n)]; eauto. Qed.
Lemma details_trust c e n :
  texty MAX_CONTEXT_LENGTH c → 0 ≤ e ≤ 100 → 0 ≤ n ≤ 100 →
  details_ok "relationship.context-trust-set"
    (sorted_details [("context", VStr c); ("estimate", VInt e); ("confidence", VInt n)]).
Proof.
  intros Hc He Hn. details_by [("confidence", VInt n); ("context", VStr c); ("estimate", VInt e)]; eauto.
Qed.
Lemma details_state ty state :
  ty = "relationship.ended" ∨ ty = "relationship.paused" →
  details_ok ty (sorted_details [("state", VStr state)]).
Proof. intros [->| ->]; details_by [("state", VStr state)]. Qed.
Lemma details_withdrawn claim_id actor :
  details_ok WITHDRAWN (sorted_details [("claim_id", VStr claim_id); ("withdrawing_actor_id", VStr actor);
    ("relationship_changed", VInt 0)]).
Proof.
  details_by [("claim_id", VStr claim_id); ("relationship_changed", VInt 0); ("withdrawing_actor_id", VStr actor)].
Qed.

(** ** What an operation leaves behind *)

Definition stored (b : RelationshipBook) : RelationshipBook := set_file (Some (VMap (book_to_dict own b))) b.
(** An operation that raises leaves everything alone; one that returns made changes [R] in memory
    and saved them, or had nothing to do. *)
Definition outcome {A} (R : relation RelationshipBook) (b : RelationshipBook) (r : res A)
    (b' : RelationshipBook) : Prop :=
  match r with
  | Err _ => b' = b
  | Ok _ => b' = b ∨ ∃ b1, R b b1 ∧ b' = stored b1
  end.
Definition performed {A} (R : relation RelationshipBook) (b : RelationshipBook) (r : res A)
    (b' : RelationshipBook) : Prop :=
  match r with
  | Err _ => b' = b
  | Ok _ => ∃ b1, R b b1 ∧ b' = stored b1
  end.
Lemma performed_outcome {A} R b (r : res A) b' : performed R b r b' → outcome R b r b'.
Proof. destruct r; [by right|done]. Qed.
(** The random tokens were not used before. *)
Record fresh (d : draws) (b : RelationshipBook) : Prop := {
  fr_subjects : ∀ n, b_subjects b !! subject_ref d n = None;
  fr_subject_tokens : ∀ m n, subject_ref d m = subject_ref d n → m = n;
  fr_events : ∀ n, event_id d n ∉ v_event_id <$> b_events b;
  fr_event_tokens : ∀ m n, event_id d m = event_id d n → m = n;
  fr_plain : ∀ n, strip (subject_ref d n) = subject_ref d n;
  fr_transition : transition_id d ∉ n_transition_id <$> b_transitions b;
}.
Lemma is_subject_ref_new d n : is_subject_ref (subject_ref d n) = true.
Proof. unfold is_subject_ref, subject_ref. apply startswith_spec. by exists (subject_token d n). Qed.
Lemma event_id_prefix d n : startswith "revt_" (event_id d n) = true.
Proof. apply startswith_spec. by exists (event_token d n). Qed.
Lemma wp_append_last eid ty actor ref evidence now details Q b :
  texty MAX_CONTEXT_LENGTH ty → (actor = "" ∨ is_actor_id actor = true) →
  (ref = "" ∨ is_subject_ref ref = true) → texty MAX_EVIDENCE_LENGTH evidence → 0 < now →
  startswith "revt_" eid = true →
  details_ok ty (sorted_details details) → eid ∉ v_event_id <$> b_events b →
  (∀ v, v = event_of eid ty actor ref evidence now details → new_id b v → Q (Ok tt) (logged v b)) →
  wp (_append_event eid ty actor ref evidence now details) Q b.
Proof.
  intros H1 H2 H3 H4 H5 H6 H7 H8 Hk.
  destruct (event_make eid ty actor ref evidence now details) as [Hwf Hrun]; try done.
  unfold wp. rewrite Hrun. cbn [fst snd]. apply (Hk _ eq_refl). by split.
Qed.
Lemma wp_append {A} (k : BM A) d n ty actor ref evidence now details Q b :
  texty MAX_CONTEXT_LENGTH ty → (actor = "" ∨ is_actor_id actor = true) →
  (ref = "" ∨ is_subject_ref ref = true) → texty MAX_EVIDENCE_LENGTH evidence → 0 < now →
  details_ok ty (sorted_details details) → event_id d n ∉ v_event_id <$> b_events b →
  (∀ v, v = event_of (event_id d n) ty actor ref evidence now details → new_id b v → wp k Q (logged v b)) →
  wp (_append_event (event_id d n) ty actor ref evidence now details;; k) Q b.
Proof.
  intros H1 H2 H3 H4 H5 H6 H7 Hk. apply wp_bind, wp_append_last; try done. apply event_id_prefix.
Qed.
Lemma wp_save_then {A} (k : BM A) Q b : wp k Q (stored b) → wp (save own;; k) Q b.
Proof. done. Qed.
Lemma wp_save {A} (x : A) Q b : Q (Ok x) (stored b) → wp (save own;; mret x) Q b.
Proof. done. Qed.
Lemma now_ok now current : _now_ms now = Ok current → current = now ∧ 0 < current.
Proof. unfold _now_ms. intros H. res_inv. bool_prop. subst. split; [done|lia]. Qed.
Lemma confidence_ok n label c : _confidence n label = Ok c → c = n ∧ 0 ≤ c ≤ 100.
Proof. unfold _confidence. intros H. res_inv. bool_prop. subst. split; [done|lia]. Qed.
Lemma texty_le m n t : m ≤ n → texty m t → texty n t.
Proof. unfold texty. intros ? [? ?]. split; [done|lia]. Qed.
Lemma texty_stripped maximum t : texty maximum t → texty maximum (strip t).
Proof. by rewrite texty_strip. Qed.
Ltac texty_now := split; [by vm_compute|by vm_compute].

(** ** The subject of an actor *)

Lemma candidates_spec id b l s :
  (l, s) ∈ candidates id b →
  (∃ ref, b_subjects b !! ref = Some s) ∧ is_active s = true ∧ l ∈ s_actor_links s ∧ l_actor_id l = id.
Proof.
  unfold candidates. intros H. apply list_elem_of_In, in_concat in H as (ls & Hls & H).
  apply list_elem_of_In in Hls, H.
  apply list_elem_of_fmap in Hls as (s' & -> & Hs'). apply list_elem_of_filter in Hs' as [Hact Hs'].
  apply list_elem_of_fmap in H as (l' & [= <- <-] & Hl). apply list_elem_of_filter in Hl as [Hid Hl].
  unfold values in Hs'. apply list_elem_of_fmap in Hs' as ([ref s'] & -> & Hin).
  apply elem_of_map_to_list in Hin. split_and!; eauto.
Qed.
Lemma candidates_elem id b ref s :
  b_subjects b !! ref = Some s → is_active s = true → id ∈ link_ids s → ∃ l, (l, s) ∈ candidates id b.
Proof.
  intros Hs Hact Hid. unfold link_ids in Hid. apply list_elem_of_fmap in Hid as (l & -> & Hl). exists l.
  unfold candidates. apply list_elem_of_In, in_concat.
  exists ((λ l0, (l0, s)) <$> filter (λ l0, l_actor_id l0 = l_actor_id l) (s_actor_links s)).
  split; apply list_elem_of_In, list_elem_of_fmap.
  - exists s. split; [done|]. apply list_elem_of_filter. split; [done|]. unfold values.
    apply list_elem_of_fmap. exists (ref, s). split; [done|]. by apply elem_of_map_to_list.
  - exists l. split; [done|]. by apply list_elem_of_filter.
Qed.
Lemma primary_spec id b s :
  book_ok own b → primary_subject id b = Some s →
  b_subjects b !! s_subject_ref s = Some s ∧ is_active s = true ∧ id ∈ link_ids s.
Proof.
  intros Hok Hp. unfold primary_subject in Hp.
  apply fmap_Some in Hp as ([l s'] & Hlast & ->). apply last_Some_elem_of, elem_of_order_by in Hlast.
  apply candidates_spec in Hlast as ((ref & Hs) & Hact & Hl & Hid). cbn [snd].
  destruct (bo_subjects _ _ Hok _ _ Hs) as (Href & _). rewrite Href. split_and!; [done|done|].
  apply list_elem_of_fmap. by exists l.
Qed.
Lemma primary_some id b :
  book_ok own b → is_Some (b_actors b !! id) → ∃ s, primary_subject id b = Some s.
Proof.
  intros Hok Hid. destruct (bo_active _ _ Hok _ Hid) as (ref & s & Hs & Hact & Hl).
  destruct (candidates_elem _ _ _ _ Hs Hact Hl) as [l Hin].
  unfold primary_subject. rewrite <- (elem_of_order_by candidate_key) in Hin.
  destruct (order_by candidate_key (candidates id b)) as [|c cs] using rev_ind; [by apply elem_of_nil in Hin|].
  rewrite last_snoc. cbn. eauto.
Qed.

(** ** Observation *)

Lemma new_proof_ok p : new_proof p = Ok p →
  p_scope p ∈ ACTOR_PROOF_SCOPES ∧ texty MAX_EVIDENCE_LENGTH (p_evidence_ref p) ∧ 0 < p_observed_ms p.
Proof.
  unfold new_proof, outside, positive. intros H. res_inv. bool_prop.
  apply bounded_ok in E2 as [? _]. split_and!; [by apply dec_stable|done|lia].
Qed.
Lemma check_actor_ok id kind label u : check_actor id kind label = Ok u →
  is_Ok (validate_actor_id id) ∧ is_Ok (normalize_actor_kind kind).
Proof. unfold check_actor. intros H. res_inv. unfold is_Ok. eauto. Qed.
Lemma new_link_make l :
  is_Ok (validate_actor_id (l_actor_id l)) → 0 ≤ l_confidence l ≤ 100 → 0 < l_updated_ms l →
  new_link l = Ok l.
Proof.
  intros [x H1] H2 H3. unfold new_link, positive. rewrite H1. simpl. rewrite confidence_in by done. simpl.
  by rewrite (proj2 (Z.leb_gt _ _)).
Qed.
(** Observations leave every relationship as it is and start new ones at the bottom. *)
Definition unjudged (r : RelationshipEstimate) : Prop := judgement r = ("public", "active", 0, []).
Definition observes (d : draws) (b b' : RelationshipBook) : Prop :=
  changes own b b' ∧ (∀ ref r, b_relationships b !! ref = Some r → b_relationships b' !! ref = Some r) ∧
  (∀ ref r, b_relationships b' !! ref = Some r → b_relationships b !! ref = Some r ∨ unjudged r) ∧
  ∃ v, b_events b' = b_events b ++ [v] ∧ v_event_id v = event_id d 0.
Lemma observes_one d b b' v :
  change own b b' → b_relationships b' = b_relationships b → b_events b' = b_events b ++ [v] →
  v_event_id v = event_id d 0 → observes d b b'.
Proof. intros Hc E Hv Hid. split_and!; [by apply rtc_once|by rewrite E|rewrite E; eauto|by exists v]. Qed.
(** The subject an observation returns is in the book. *)
Definition observed (d : draws) (b : RelationshipBook) (r : res SubjectHypothesis) (b' : RelationshipBook) : Prop :=
  outcome (observes d) b r b' ∧ ∀ s, r = Ok s → b_subjects b' !! s_subject_ref s = Some s.
Lemma observed_err d b e : observed d b (Err e) b.
Proof. done. Qed.
(** Observations as their constructors make them, of an actor id without surrounding blanks *)
Definition observation_built (o : ActorObservation) : Prop :=
  new_observation o = Ok o ∧ new_proof (o_proof o) = Ok (o_proof o) ∧ is_actor_id (o_actor_id o) = true.
Lemma observe_new_run d o confidence current b :
  book_ok own b → fresh d b → observation_built o → o_actor_id o ≠ own → b_actors b !! o_actor_id o = None →
  known_issuer own (b_actors b) (o_actor_id o) (o_proof o) = true → 0 ≤ confidence ≤ 100 → 0 < current →
  wp (observe_new_actor own d o confidence current) (observed d b) b.
Proof.
  intros Hok Hd (Ho & Hp & Hid) Hown Hnew Hknown Hconf Hcur.
  apply new_proof_ok in Hp as Hp'. destruct Hp' as (Hscope & Htext & _).
  assert (is_Ok (validate_actor_id (o_actor_id o)) ∧ is_Ok (normalize_actor_kind (o_actor_kind o))) as [Hval Hkind].
  { unfold new_observation in Ho. res_inv. by eapply check_actor_ok. }
  unfold observe_new_actor. cbv zeta. wp_ok a Ha.
  apply new_actor_id in Ha as Ha'. subst a. do 3 wp_step.
  set (a := Build_ActorRecord _ _ _ _ _ _ _ _) in *.
  rewrite new_link_make by done. set (l := Build_SubjectActorLink _ _ _ _). do 2 wp_step.
  rewrite new_subject_make; [..|done]; [|apply is_subject_ref_new|set_solver|done|by apply NoDup_singleton].
  set (s := Build_SubjectHypothesis _ _ _ _ _ _). do 4 wp_step.
  rewrite new_estimate_make; [..|done];
    [|apply is_subject_ref_new|set_solver|set_solver|cbn; lia|by apply NoDup_nil_2].
  set (r := Build_RelationshipEstimate _ _ _ _ _ _ _ _). do 3 wp_step.
  apply wp_append; try done; [by right|right; apply is_subject_ref_new| |apply (fr_events _ _ Hd)|].
  { apply details_observed; [by left|done..]. }
  intros v Hve Hv. apply wp_save. split; [|by intros ? [= <-]; apply lookup_insert_eq].
  right. eexists. split; [|done]. split_and!.
  - apply rtc_once. refine (change_first_seen _ _ a s r v _ _ _ _ _ _ _ _ _ _ _ _ _); try done.
    + split_and!; [done|by apply Forall_singleton..|done].
    + by apply Forall_singleton.
    + apply (fr_subjects _ _ Hd).
    + split_and!; [|apply Forall_singleton; split; [by apply new_link_make|by apply Forall_singleton]
        |by apply Forall_nil_2|by apply Forall_singleton|apply (fr_plain _ _ Hd)].
      apply new_subject_make; try done; [apply is_subject_ref_new|set_solver|by apply NoDup_singleton].
    + split_and!; [|by apply Forall_nil_2..|by apply Forall_singleton].
      apply new_estimate_make; try done; [apply is_subject_ref_new|set_solver|set_solver|by apply NoDup_nil_2].
  - intros ref x Hx. cbn. rewrite lookup_insert_ne; [done|]. intros <-.
    destruct (proj1 (bo_relationships _ _ Hok (subject_ref d 0)) (ex_intro _ _ Hx)) as [y Hy].
    by rewrite (fr_subjects _ _ Hd) in Hy.
  - intros ref x Hx. cbn in Hx. apply lookup_insert_Some in Hx as [[_ <-]|[_ Hx]]; [by right|by left].
  - exists v. by rewrite Hve.
Qed.
Lemma actor_entry_ok b id a :
  book_ok own b → b_actors b !! id = Some a →
  a_actor_id a = id ∧ actor_wf a ∧ Forall (λ p, known_issuer own (b_actors b) id p = true) (a_proofs a).
Proof. intros Hok Ha. by apply (bo_actors _ _ Hok). Qed.
Lemma primary_ref b id s :
  book_ok own b → primary_subject id b = Some s → is_subject_ref (s_subject_ref s) = true.
Proof.
  intros Hok Hp. apply (primary_spec _ _ _ Hok) in Hp as (Hs & _).
  destruct (bo_subjects _ _ Hok _ _ Hs) as (_ & (Hn & _) & _). by apply new_subject_ok in Hn as (? & _).
Qed.
Lemma observe_known_run d o a current b :
  book_ok own b → fresh d b → observation_built o → b_actors b !! o_actor_id o = Some a →
  known_issuer own (b_actors b) (o_actor_id o) (o_proof o) = true → 0 < current →
  wp (observe_known_actor own d o a current) (observed d b) b.
Proof.
  intros Hok Hd (Ho & Hp & Hid) Ha Hknown Hcur.
  apply new_proof_ok in Hp as Hp'. destruct Hp' as (Hscope & Htext & _).
  assert (is_Ok (normalize_actor_kind (o_actor_kind o))) as Hkind.
  { unfold new_observation in Ho. res_inv. by eapply check_actor_ok. }
  destruct (actor_entry_ok _ _ _ Hok Ha) as (Haid & (Hwa & Hwp & Hwe & _) & Hiss).
  destruct (primary_some (o_actor_id o) b Hok) as [s Hs]; [by rewrite Ha|].
  unfold observe_known_actor. cbv zeta.
  set (isnew := bool_decide _). set (proofs := if isnew then _ else _).
  assert (Forall (λ p, new_proof p = Ok p) proofs ∧
          Forall (λ p, known_issuer own (b_actors b) (o_actor_id o) p = true) proofs ∧
          a_proofs a `prefix_of` proofs) as (Hproofs & Hissuers & Hpre).
  { unfold proofs. destruct isnew; [|done].
    split_and!; [apply Forall_app; by split; [|apply Forall_singleton]..|by eexists]. }
  wp_guard Hk. wp_step.
  { do 2 wp_step. rewrite Hs. apply (wp_lift_ok s). split; [by left|]. intros ? [= <-]. by apply (primary_spec _ _ _ Hok Hs). }
  wp_ok refs Hrefs.
  wp_ok a' Ha'.
  apply new_actor_id in Ha' as E. subst a'. set (a' := Build_ActorRecord _ _ _ _ _ _ _ _) in *.
  do 4 wp_step. change (primary_subject (o_actor_id o) (set_actors _ b)) with (primary_subject (o_actor_id o) b).
  rewrite Hs. apply wp_bind, (wp_lift_ok s). apply unique_ok in Hrefs as [Hall ->].
  apply wp_append; try done; [by right|right; by eapply primary_ref| |apply (fr_events _ _ Hd)|].
  { apply details_observed; [by right|done..]. }
  intros v Hve Hv. apply wp_save. split; [|by intros ? [= <-]; apply (primary_spec _ _ _ Hok Hs)].
  right. eexists. split; [|done]. eapply observes_one; [|done..|by rewrite Hve].
  eapply (change_actor _ _ (o_actor_id o) a a'); try done; [|by left].
  split_and!; [done|done|by apply texty_normal|]. unfold a'. cbn. by rewrite Haid.
Qed.
Lemma observe_typed_run d o confidence now b :
  book_ok own b → fresh d b → observation_built o →
  wp (observe_typed_actor own d o confidence now) (observed d b) b.
Proof.
  intros Hok Hd Ho. unfold observe_typed_actor. wp_guard Hown.
  do 2 wp_step. wp_guard Hknown. apply negb_false_iff in Hknown.
  wp_ok c Hc. apply confidence_ok in Hc as [-> Hc].
  wp_ok current Hnow. apply now_ok in Hnow as [-> Hnow].
  wp_guard Htime. do 2 wp_step.
  apply String.eqb_neq in Hown. destruct (b_actors b !! o_actor_id o) as [a|] eqn:Ha.
  - by apply observe_known_run.
  - by apply observe_new_run.
Qed.
Lemma card_actor_id card u : verify_card card = Ok u → is_actor_id (k_node_id card) = true.
Proof.
  intros Hcard.
  unfold verify_card in Hcard. res_inv. bool_prop. unfold is_actor_id.
  match goal with H : k_node_id card = _ |- _ => rewrite H end.
  apply orb_true_iff. left. apply startswith_spec. unfold derive_node_id. by eexists.
Qed.
Lemma observe_actor_run d card evidence confidence now b :
  book_ok own b → fresh d b → wp (observe_actor own d card evidence confidence now) (observed d b) b.
Proof.
  intros Hok Hd. unfold observe_actor. wp_ok u Hcard.
  wp_guard Hown.
  wp_ok ev Hev.
  wp_ok c Hc.
  wp_ok current Hnow.
  wp_ok p Hp.
  wp_ok o Ho.
  apply new_proof_id in Hp as E. apply new_observation_id in Ho as E'. subst o p.
  apply observe_typed_run; [done|done|]. split_and!; [done..|]. cbn [o_actor_id].
  by eapply card_actor_id.
Qed.
Lemma record_interaction_run d i b :
  book_ok own b → fresh d b → new_interaction i = Ok i →
  wp (record_interaction own d i) (outcome (observes d) b) b.
Proof.
  intros Hok Hd Hi. unfold record_interaction. do 2 wp_step. unfold has_interaction.
  wp_step; [wp_step; by left|]. apply bool_decide_eq_false in Heqb0.
  do 2 wp_step. wp_guard Ha. apply bool_decide_eq_false in Ha.
  do 2 wp_step. wp_ok s Hs. apply of_option_ok in Hs.
  wp_guard Hl. apply bool_decide_eq_false, dec_stable in Hl.
  do 2 wp_step. destruct (b_actors b !! i_actor_id i) as [a|] eqn:Ea; [|done].
  destruct (actor_entry_ok _ _ _ Hok Ea) as (Haid & (_ & _ & _ & Hid) & _). rewrite Haid in Hid.
  assert (texty MAX_EVIDENCE_LENGTH (i_evidence_ref i) ∧ 0 < i_occurred_ms i ∧
          is_subject_ref (i_subject_ref i) = true) as (Htext & Hpos & Href).
  { unfold new_interaction, positive in Hi. res_inv. bool_prop.
    repeat match goal with H : _bounded_text _ _ _ = Ok _ |- _ => apply bounded_ok in H as [? _] end. done. }
  apply wp_append; try done; [by right|by right|by apply details_none|apply (fr_events _ _ Hd)|].
  intros v Hve Hv. apply wp_save. right. eexists. split; [|done]. eapply observes_one; [|done..|by rewrite Hve].
  refine (change_interaction own b i v _ Hi _ _ Hv); [|by eexists|by exists s].
  by apply eq_None_not_Some.
Qed.
Lemma get_ok id b :
  book_ok own b → ∃ r, get id b = Ok r ∧ (r = None ↔ b_actors b !! id = None).
Proof.
  intros Hok. unfold get. destruct (b_actors b !! id) as [a|] eqn:Ha; [|by exists None].
  destruct (actor_entry_ok _ _ _ Hok Ha) as (Haid & (_ & _ & Hea & _) & _). rewrite Haid.
  destruct (primary_some id b Hok) as [s Hs]; [by rewrite Ha|]. rewrite Hs.
  apply (primary_spec _ _ _ Hok) in Hs as (Hs & _ & Hl).
  destruct (bo_subjects _ _ Hok _ _ Hs) as (_ & (_ & _ & _ & Hes & _) & _).
  destruct (proj2 (bo_relationships _ _ Hok (s_subject_ref s)) (ex_intro _ _ Hs)) as [r Hr].
  destruct (bo_estimates _ _ Hok _ _ Hr) as (_ & (_ & _ & _ & Her)).
  destruct (List.find _ (s_actor_links s)) as [l|] eqn:Hf.
  - simpl. rewrite Hr. simpl. set (u := _unique_text _ _ _).
    destruct u as [refs|e] eqn:Hu; [by eexists|]. exfalso.
    assert (u = Ok (normal_refs (a_evidence_refs a ++ s_evidence_refs s ++ r_evidence_refs r))) as E.
    { apply unique_ok. split; [|done]. by repeat (apply Forall_app; split). }
    congruence.
  - exfalso. apply list_elem_of_fmap in Hl as (l & Hid & Hl).
    apply list_elem_of_In, (List.find_none _ _ Hf l), String.eqb_neq in Hl. congruence.
Qed.
Lemma revoke_actor_run d actor_id evidence_ref now b :
  book_ok own b → fresh d b →
  wp (revoke_actor own d actor_id evidence_ref now) (outcome (observes d) b) b.
Proof.
  intros Hok Hd. unfold revoke_actor. cbv zeta. do 2 wp_step. set (id := strip actor_id).
  destruct (b_actors b !! id) as [a|] eqn:Ha; [|by left].
  destruct (actor_entry_ok _ _ _ Hok Ha) as (Haid & (Hwa & Hwp & Hwe & Hid) & Hiss). rewrite Haid in Hid.
  destruct (primary_some id b Hok) as [s Hs]; [by rewrite Ha|]. wp_step.
  { do 2 wp_step. apply wp_lift; intros; [by left|done]. }
  wp_ok ev Hev. apply bounded_ok in Hev as [Hev ->].
  wp_ok current Hnow. apply now_ok in Hnow as [-> Hnow].
  wp_ok refs Hrefs. apply unique_ok in Hrefs as [Hall ->].
  wp_ok a' Ha'.
  apply new_actor_id in Ha' as E. subst a'. set (a' := Build_ActorRecord _ _ _ _ _ _ _ _) in *.
  do 4 wp_step. change (primary_subject id (set_actors _ b)) with (primary_subject id b). rewrite Hs.
  apply wp_append; try done;
    [by right|right; by eapply primary_ref|by apply texty_stripped|by apply details_none|apply (fr_events _ _ Hd)|].
  intros v Hve Hv. set (b1 := logged v _).
  assert (change own b b1) as Hc.
  { eapply (change_actor _ _ id a a'); try done; [|by right].
    split_and!; [done|done|by apply texty_normal, Forall_app; split; [|apply Forall_singleton, texty_stripped]|].
    unfold a'. cbn. by rewrite Haid. }
  apply wp_save_then. do 2 wp_step. change (get id (stored b1)) with (get id b1).
  destruct (get_ok id b1) as (r & -> & _); [by eapply change_ok|]. apply wp_lift_ok. right.
  exists b1. split; [|done]. eapply observes_one; [done..|by rewrite Hve].
Qed.
End runs.
