(* ===== verification/RelationJudge.v ===== *)
(** The judgements of the relationship book (src/anet/relations.py): circles, contextual trust,
    states and decisions on suggestions, each an operation that raises and changes nothing or
    changes one relationship and saves it. *)
From S2P Require Import Prelude PyStr PyVal Codecs Locator ControlPlane RelationData RelationBook RelationLaws RelationRun.

Section judging.
Context {PL : Platform} {DG : Digests} {SG : Signatures} {UL : Urllib} (own : string).

(** Only the relationship of [ref] is touched. *)
Definition judges (ref : string) (b b' : RelationshipBook) : Prop :=
  changes own b b' ∧ b_actors b' = b_actors b ∧ b_subjects b' = b_subjects b ∧
  b_interactions b' = b_interactions b ∧ b_transitions b' = b_transitions b ∧
  ∀ ref', ref' ≠ ref → b_relationships b' !! ref' = b_relationships b !! ref'.
Lemma judges_one b ref r r' v :
  b_relationships b !! ref = Some r → estimate_wf r' → r_subject_ref r' = ref → new_id b v →
  judges ref b (logged v (set_relationships (<[ref := r']> (b_relationships b)) b)).
Proof.
  intros Hr Hwf Href Hv. split_and!; try done; [by eapply rtc_once, change_relationship|].
  intros ref' Hne. cbn. by rewrite lookup_insert_ne.
Qed.
Lemma relationship_refs_ok refs evidence l :
  relationship_refs refs evidence = Ok l →
  Forall (texty MAX_EVIDENCE_LENGTH) l ∧ l = normal_refs (refs ++ [evidence]).
Proof. intros H. apply unique_ok in H as [H ->]. split; [by apply texty_normal|done]. Qed.
Lemma estimate_entry b ref r :
  book_ok own b → b_relationships b !! ref = Some r →
  r_subject_ref r = ref ∧ estimate_wf r ∧ is_subject_ref ref = true.
Proof.
  intros Hok Hr. destruct (bo_estimates _ _ Hok _ _ Hr) as [Href Hwf]. split_and!; [done..|].
  destruct Hwf as [Hn _]. apply new_estimate_ok in Hn as [H _]. by rewrite Href in H.
Qed.
(** The new value of a relationship *)
Definition circle_set (ref circle : string) (confidence : Z) (b b' : RelationshipBook) : Prop :=
  judges ref b b' ∧ ∃ r r', b_relationships b !! ref = Some r ∧ b_relationships b' !! ref = Some r' ∧
    judgement r' = (circle, "active", confidence, r_context_trust r).
Lemma set_circle_run d n subject_ref_ circle confidence evidence_ref labels now b :
  book_ok own b → event_id d n ∉ v_event_id <$> b_events b →
  wp (set_circle own d n subject_ref_ circle confidence evidence_ref labels now)
     (outcome own (circle_set (strip subject_ref_) circle confidence) b) b.
Proof.
  intros Hok Hd. unfold set_circle.
  wp_ok key Hkey. apply bounded_ok in Hkey as [_ ->].
  do 2 wp_step. wp_guard Hs.
  wp_guard Hc.
  wp_ok c Hconf. apply confidence_ok in Hconf as [-> Hconf].
  wp_ok ev Hev. apply bounded_ok in Hev as [Hev ->].
  wp_ok current Hnow. apply now_ok in Hnow as [-> Hnow].
  do 2 wp_step. wp_ok r Hr. apply of_option_ok in Hr.
  destruct (estimate_entry _ _ _ Hok Hr) as (Href & (_ & Ht & Hl & He) & Hsub).
  wp_ok labels' Hlabels. apply unique_ok in Hlabels as [Hlab ->].
  wp_ok refs Hrefs. apply relationship_refs_ok in Hrefs as [Hrefs ->].
  wp_ok r' Hr'.
  apply new_estimate_id in Hr' as E. subst r'. set (r' := Build_RelationshipEstimate _ _ _ _ _ _ _ _) in *.
  do 2 wp_step. apply wp_append; try done; [by left|by right|by apply texty_stripped| |].
  { apply details_circle; [|done]. by apply new_estimate_ok in Hr' as (_ & ? & _). }
  intros v _ Hv. apply wp_save. right. eexists. split; [|done]. split.
  { eapply judges_one; [done| |done|done]. split_and!; [done|done|by apply texty_normal|done]. }
  exists r, r'. cbn. rewrite lookup_insert_eq. split_and!; try done.
Qed.
Lemma put_trust_Forall (P : ContextTrust → Prop) t l : P t → Forall P l → Forall P (put_trust t l).
Proof.
  intros Ht Hl. induction Hl as [|t' l Ht' Hl IH]; simpl; [by apply Forall_singleton|].
  destruct (String.eqb _ _); by apply Forall_cons_2.
Qed.
Lemma put_trust_contexts t l x :
  x ∈ t_context <$> put_trust t l ↔ x = t_context t ∨ x ∈ t_context <$> l.
Proof.
  induction l as [|t' l IH]; simpl; [by rewrite list_elem_of_singleton, elem_of_nil; tauto|].
  destruct (String.eqb_spec (t_context t') (t_context t)) as [E|E]; rewrite !fmap_cons, !elem_of_cons.
  - rewrite E. tauto.
  - rewrite IH. tauto.
Qed.
Lemma find_put_trust t l context :
  find_trust context (put_trust t l) =
    if String.eqb (t_context t) context then Some t else find_trust context l.
Proof.
  unfold find_trust. induction l as [|t' l IH]; simpl; [done|].
  destruct (String.eqb_spec (t_context t') (t_context t)) as [E|E]; simpl.
  - rewrite E. by destruct (String.eqb_spec (t_context t) context).
  - destruct (String.eqb_spec (t_context t') context) as [E'|E']; [|done].
    destruct (String.eqb_spec (t_context t) context); [congruence|done].
Qed.
(** The estimate of one context changes, of the others stays. *)
Definition trust_set (context : string) (estimate confidence : Z) (r r' : RelationshipEstimate) : Prop :=
  (r_circle r', r_state r', r_relationship_confidence r') = (r_circle r, r_state r, r_relationship_confidence r) ∧
  (∃ t, find_trust context (r_context_trust r') = Some t ∧ t_estimate t = estimate ∧ t_confidence t = confidence) ∧
  ∀ other, other ≠ context → find_trust other (r_context_trust r') = find_trust other (r_context_trust r).
Lemma with_trust_ok r context estimate confidence evidence current r' :
  with_trust r context estimate confidence evidence current = Ok r' → estimate_wf r →
  estimate_wf r' ∧ r_subject_ref r' = r_subject_ref r ∧ trust_set context estimate confidence r r'.
Proof.
  unfold with_trust. intros H (Hn & Ht & Hl & He). res_inv.
  apply relationship_refs_ok in E1 as [Hrefs ->]. apply new_estimate_id in H as E'.
  apply unique_ok in E as [Htrefs ->]. apply new_trust_id in E0 as Et. subst. split; [|split; [done|]].
  - split_and!; [done| |done|done]. apply put_trust_Forall; [|done]. split; [done|by apply texty_normal].
  - split_and!; [done| |]; cbn [r_circle r_state r_relationship_confidence r_context_trust].
    + eexists. rewrite find_put_trust. cbn [t_context]. by rewrite String.eqb_refl.
    + intros other Hne. rewrite find_put_trust. cbn [t_context]. by destruct (String.eqb_spec context other); [congruence|].
Qed.
Definition context_set (ref context : string) (estimate confidence : Z) (b b' : RelationshipBook) : Prop :=
  judges ref b b' ∧ ∃ r r', b_relationships b !! ref = Some r ∧ b_relationships b' !! ref = Some r' ∧
    trust_set context estimate confidence r r'.
Lemma set_context_trust_run d subject_ref_ context estimate confidence evidence_ref now b :
  book_ok own b → fresh d b →
  wp (set_context_trust own d subject_ref_ context estimate confidence evidence_ref now)
     (outcome own (context_set (strip subject_ref_) (strip context) estimate confidence) b) b.
Proof.
  intros Hok Hd. unfold set_context_trust.
  wp_ok key Hkey. apply bounded_ok in Hkey as [_ ->].
  do 2 wp_step. wp_ok r Hr. apply of_option_ok in Hr.
  destruct (estimate_entry _ _ _ Hok Hr) as (Href & Hwf & Hsub).
  wp_ok cx Hcx. apply bounded_ok in Hcx as [Hcx ->].
  wp_ok ev Hev. apply bounded_ok in Hev as [Hev ->].
  wp_ok current Hnow. apply now_ok in Hnow as [-> Hnow].
  wp_ok e Hest. apply confidence_ok in Hest as [-> Hest].
  wp_ok c Hconf. apply confidence_ok in Hconf as [-> Hconf].
  wp_ok r' Hr'.
  destruct (with_trust_ok _ _ _ _ _ _ _ Hr' Hwf) as (Hwf' & Href' & Hset).
  do 2 wp_step. apply wp_append; try done;
    [by left|by right|by apply texty_stripped|by apply details_trust; [apply texty_stripped|..]
    |apply (fr_events _ _ Hd)|].
  intros v _ Hv. apply wp_save. right. eexists. split; [|done]. split.
  - eapply judges_one; [done|done|congruence|done].
  - exists r, r'. cbn. by rewrite lookup_insert_eq.
Qed.
Definition state_set (ref state : string) (b b' : RelationshipBook) : Prop :=
  judges ref b b' ∧ ∃ r r', b_relationships b !! ref = Some r ∧ b_relationships b' !! ref = Some r' ∧
    judgement r' = (r_circle r, state, r_relationship_confidence r, r_context_trust r) ∧
    ¬ (state = "dormant" ∧ r_state r = "ended").
Lemma set_state_run d subject_ref_ state ty evidence_ref now b :
  book_ok own b → fresh d b → ty = "relationship.ended" ∨ ty = "relationship.paused" →
  wp (_set_relationship_state own d subject_ref_ state ty evidence_ref now)
     (outcome own (state_set (strip subject_ref_) state) b) b.
Proof.
  intros Hok Hd Hty. unfold _set_relationship_state.
  wp_guard Hstate.
  wp_ok key Hkey. apply bounded_ok in Hkey as [_ ->].
  do 2 wp_step. wp_ok r Hr. apply of_option_ok in Hr.
  destruct (estimate_entry _ _ _ Hok Hr) as (Href & (_ & Ht & Hl & He) & Hsub).
  wp_step; [wp_step; by left|].
  wp_guard Hended.
  wp_ok ev Hev. apply bounded_ok in Hev as [Hev ->].
  wp_ok current Hnow. apply now_ok in Hnow as [-> Hnow].
  wp_ok refs Hrefs. apply relationship_refs_ok in Hrefs as [Hrefs ->].
  wp_ok r' Hr'.
  apply new_estimate_id in Hr' as E. subst r'. set (r' := Build_RelationshipEstimate _ _ _ _ _ _ _ _) in *.
  do 2 wp_step. apply wp_append; try done; [by destruct Hty as [->| ->]|by left|by right|by apply texty_stripped
    |by apply details_state|apply (fr_events _ _ Hd)|].
  intros v _ Hv. apply wp_save. right. eexists. split; [|done]. split.
  - eapply judges_one; [done| |done|done]. split_and!; done.
  - exists r, r'. cbn. rewrite lookup_insert_eq. split_and!; try done. intros [E1 E2]. by rewrite E1, E2 in Hended.
Qed.

(** ** Decisions on suggestions *)

Lemma len_rstrip s : len (rstrip s) ≤ len s.
Proof.
  unfold len. apply inj_le. induction s as [|a s IH]; [done|]. cbn [rstrip].
  destruct (rstrip s) as [|a' s']; [destruct (is_space a); cbn; lia|]. cbn [String.length] in *. lia.
Qed.
(** Text that starts with a visible character *)
Lemma texty_visible maximum a t : is_space a = false → len (String a t) ≤ maximum → texty maximum (String a t).
Proof.
  intros Ha Hlen. unfold texty, strip. cbn [lstrip]. rewrite Ha. pose proof (len_rstrip (String a t)).
  split; [by rewrite rstrip_cons|lia].
Qed.
Lemma texty_suggestion suggestion_id maximum label :
  _bounded_text suggestion_id label 64 = Ok suggestion_id → 256 ≤ maximum →
  texty maximum ("suggestion:" +:+ suggestion_id).
Proof.
  intros H Hmax. apply bounded_ok in H as [[_ Hlen] E]. rewrite <- E in Hlen.
  apply texty_visible; [done|].
  change (len ("suggestion:" +:+ suggestion_id) ≤ maximum). rewrite len_append. change (len _) with 11 at 1. lia.
Qed.
Lemma bounded_idemp value label maximum t :
  _bounded_text value label maximum = Ok t → texty maximum t ∧ strip t = t.
Proof. intros [H ->]%bounded_ok. by rewrite texty_strip, strip_idemp. Qed.
Lemma new_decision_make c :
  startswith "rsd_" (c_decision_id c) = true → startswith "rsg_" (c_suggestion_id c) = true →
  texty MAX_CONTEXT_LENGTH (c_suggestion_type c) → is_subject_ref (c_subject_ref c) = true →
  c_decision c ∈ SUGGESTION_DECISIONS → texty MAX_EVIDENCE_LENGTH (c_rationale c) → len (c_basis_hash c) = 32 →
  0 ≤ c_suggestion_confidence c ≤ 100 →
  (c_proposed_circle c = "" ∨ c_proposed_circle c ∈ RELATION_CIRCLES) →
  (c_context c = "" ∨ texty MAX_CONTEXT_LENGTH (c_context c)) →
  (∀ e, c_proposed_estimate c = Some e → 0 ≤ e ≤ 100) →
  c_applied c = String.eqb (c_decision c) "accepted" → 0 < c_decided_ms c → new_decision c = Ok c.
Proof.
  intros H1 H2 H3 H4 H5 H6 H7 H8 H9 H10 H11 H12 H13. unfold new_decision, positive.
  rewrite H1, H2, H4. simpl. rewrite (proj2 (bounded_ok _ _ _ _) (conj H3 eq_refl)). simpl.
  rewrite (outside_no SUGGESTION_DECISIONS) by done. simpl. rewrite (proj2 (bounded_ok _ _ _ _) (conj H6 eq_refl)). simpl.
  rewrite (proj2 (Z.eqb_eq _ _) H7). simpl. rewrite confidence_in by done. simpl.
  assert (negb (String.eqb (c_proposed_circle c) "") && outside RELATION_CIRCLES (c_proposed_circle c) = false) as ->
    by (destruct H9 as [->|H9]; [done|rewrite outside_no by done; apply andb_false_r]). simpl.
  assert ((if String.eqb (c_context c) "" then mret tt
    else _bounded_text (c_context c) "suggestion decision context" MAX_CONTEXT_LENGTH;; mret tt) = Ok tt) as ->.
  { destruct (String.eqb_spec (c_context c) "") as [E|E]; [done|]. destruct H10 as [H10|H10]; [done|].
    by rewrite (proj2 (bounded_ok _ _ _ _) (conj H10 eq_refl)). }
  simpl. assert (match c_proposed_estimate c with
    | Some e => _confidence e "suggestion decision estimate";; mret tt | None => mret tt end = Ok tt) as ->.
  { destruct (c_proposed_estimate c); [|done]. by rewrite confidence_in by auto. }
  simpl. rewrite H12, Bool.eqb_reflx. simpl. by rewrite (proj2 (Z.leb_gt _ _)).
Qed.
Lemma new_decision_choice c : new_decision c = Ok c → c_decision c ∈ SUGGESTION_DECISIONS.
Proof. unfold new_decision. intros H. res_inv. by eapply bool_decide_eq_false, dec_stable in E3. Qed.
(** What an accepted suggestion does to its relationship *)
Definition applied (type ref circle context : string) (estimate : option Z) (confidence : Z)
    (b b' : RelationshipBook) : Prop :=
  if String.eqb type "circle.advance" then circle_set ref circle confidence b b'
  else ∃ e, estimate = Some e ∧ context_set ref context e confidence b b'.
Lemma apply_suggestion_run {A} (k : BM A) d type ref circle context estimate confidence evidence current Q b :
  book_ok own b → fresh d b → check_suggestion type circle context estimate = Ok tt →
  is_subject_ref ref = true → 0 ≤ confidence ≤ 100 → (∀ e, estimate = Some e → 0 ≤ e ≤ 100) → 0 < current →
  texty MAX_EVIDENCE_LENGTH evidence → (∀ e, Q (Err e) b) →
  (∀ b1, applied type ref circle context estimate confidence b b1 →
     event_id d 1 ∉ v_event_id <$> b_events b1 → b_suggestion_decisions b1 = b_suggestion_decisions b →
     wp k Q b1) →
  wp (apply_suggestion d type ref circle context estimate confidence evidence current;; k) Q b.
Proof.
  intros Hok Hd Hcheck Hsub Hconf Hest Hcur Htext Herr Hk.
  assert (∀ v b1, v_event_id v = event_id d 0 → b_events b1 = b_events b →
    event_id d 1 ∉ v_event_id <$> b_events (logged v b1)) as Hnext.
  { intros v b1 Hv Hev. cbn. rewrite fmap_app, Hev. simpl.
    rewrite elem_of_app, list_elem_of_singleton, Hv. intros [H|H]; [by apply (fr_events _ _ Hd 1)|].
    by apply (fr_event_tokens _ _ Hd) in H. }
  pose proof (event_id_prefix d 0) as Hprefix.
  unfold apply_suggestion. apply wp_bind. do 3 wp_step. apply wp_lift; intros r Hr; [|by apply Herr].
  cbv beta iota. apply of_option_ok in Hr.
  destruct (estimate_entry _ _ _ Hok Hr) as (Href & Hwf & _).
  unfold check_suggestion in Hcheck. unfold applied in Hk. destruct (String.eqb type "circle.advance").
  - wp_step. apply wp_lift; intros refs Hrefs; [|by apply Herr]. cbv beta iota.
    apply relationship_refs_ok in Hrefs as [Hrefs ->].
    wp_step. apply wp_lift; intros r' Hr'; [|by apply Herr]. cbv beta iota.
    apply new_estimate_id in Hr' as E. subst r'. set (r' := Build_RelationshipEstimate _ _ _ _ _ _ _ _) in *.
    do 2 wp_step. apply wp_append_last; try done;
      [by left|by right| |apply (fr_events _ _ Hd)|].
    { apply details_circle; [|done]. by apply new_estimate_ok in Hr' as (_ & ? & _). }
    intros v -> Hv. apply Hk; [|by apply Hnext|done]. split.
    + eapply judges_one; [done| |done|done]. destruct Hwf as (_ & Ht & Hl & He). done.
    + exists r, r'. cbn. by rewrite lookup_insert_eq.
  - destruct (String.eqb type "context-trust.review"); [|discriminate]. res_inv. bool_prop.
    destruct estimate as [e|]; [|done]. apply wp_bind, (wp_lift_ok e).
    wp_step. apply wp_lift; intros r' Hr'; [|by apply Herr]. cbv beta iota.
    assert (estimate_wf {| r_subject_ref := ref; r_circle := r_circle r; r_state := r_state r;
      r_relationship_labels := r_relationship_labels r; r_relationship_confidence := r_relationship_confidence r;
      r_context_trust := r_context_trust r; r_evidence_refs := r_evidence_refs r; r_updated_ms := r_updated_ms r |})
      as Hwf' by (rewrite <- Href; by destruct r).
    destruct (with_trust_ok _ _ _ _ _ _ _ Hr' Hwf') as (Hwf'' & Href' & Hset).
    do 2 wp_step. subst. apply wp_append_last; try done;
      [by left|by right|by apply details_trust; [|auto|]|apply (fr_events _ _ Hd)|].
    intros v -> Hv. apply Hk; [|by apply Hnext|done]. exists e. split; [done|]. split.
    + eapply judges_one; [done|done|done|done].
    + exists r, r'. cbn. by rewrite lookup_insert_eq.
Qed.
(** What is done when [suggestion] is accepted *)
Definition carried_out (suggestion : dict) (b b' : RelationshipBook) : Prop :=
  ∃ estimate confidence b1,
    py_int (dict_get_or (VInt (-1)) "confidence" suggestion) = Ok confidence ∧
    match dict_get "proposed_estimate" suggestion with
    | VNone => estimate = None
    | v => ∃ e, py_int v = Ok e ∧ estimate = Some e
    end ∧
    applied (strip (text_or "" "suggestion_type" suggestion)) (strip (text_or "" "subject_ref" suggestion))
      (text_or "" "proposed_circle" suggestion) (text_or "" "context" suggestion) estimate confidence b b1 ∧
    b_relationships b' = b_relationships b1.
Definition decided (suggestion : dict) (outcome : string) (b b' : RelationshipBook) : Prop :=
  let id := strip (text_or "" "suggestion_id" suggestion) in
  let ref := strip (text_or "" "subject_ref" suggestion) in
  judges ref b b' ∧ b_suggestion_decisions b !! id = None ∧
  (∃ c, b_suggestion_decisions b' = <[id := c]> (b_suggestion_decisions b) ∧ c_decision c = outcome) ∧
  (outcome = "rejected" → b_relationships b' = b_relationships b) ∧
  (outcome = "accepted" → carried_out suggestion b b').
(** The decision that is returned is the stored one. *)
Definition deciding (suggestion : dict) (outcome_ : string) (b : RelationshipBook) (r : res SuggestionDecision)
    (b' : RelationshipBook) : Prop :=
  outcome own (decided suggestion outcome_) b r b' ∧
  ∀ c, r = Ok c → b_suggestion_decisions b' !! strip (text_or "" "suggestion_id" suggestion) = Some c ∧
    c_decision c = outcome_.
Lemma judges_more ref b b1 b2 :
  judges ref b b1 → changes own b1 b2 → b_actors b2 = b_actors b1 → b_subjects b2 = b_subjects b1 →
  b_interactions b2 = b_interactions b1 → b_transitions b2 = b_transitions b1 →
  b_relationships b2 = b_relationships b1 → judges ref b b2.
Proof.
  intros (H1 & H2 & H3 & H4 & H5 & H6) Hc E1 E2 E3 E4 E5.
  split_and!; [by etrans|congruence..|]. intros ref' Hne. rewrite E5. by apply H6.
Qed.
Lemma judges_refl ref b : judges ref b b.
Proof. by split_and!. Qed.
Lemma applied_judges type ref circle context estimate confidence b b' :
  applied type ref circle context estimate confidence b b' → judges ref b b'.
Proof. unfold applied. destruct (String.eqb _ _); [by intros [? _]|by intros (e & _ & ? & _)]. Qed.
Lemma suggestion_fields type circle context estimate :
  check_suggestion type circle context estimate = Ok tt →
  (circle = "" ∨ circle ∈ RELATION_CIRCLES) ∧ (context = "" ∨ texty MAX_CONTEXT_LENGTH context).
Proof.
  unfold check_suggestion. destruct (String.eqb type "circle.advance"); [|destruct (String.eqb type "context-trust.review")];
    [| |discriminate]; intros H; res_inv; bool_prop; subst.
  - split; [right; set_solver|by left].
  - split; [by left|by right].
Qed.
(** The decision and its event are saved after an accepted suggestion was applied. *)
Lemma decision_saved d suggestion c now b b1 :
  let id := strip (text_or "" "suggestion_id" suggestion) in
  let ref := strip (text_or "" "subject_ref" suggestion) in
  new_decision c = Ok c → c_suggestion_id c = id → c_decision_id c = decision_id own id → c_subject_ref c = ref →
  is_Some (b_subjects b !! ref) → is_subject_ref ref = true → 0 < now →
  texty MAX_EVIDENCE_LENGTH ("suggestion:" +:+ id) → b_suggestion_decisions b !! id = None →
  judges ref b b1 → event_id d 1 ∉ v_event_id <$> b_events b1 →
  b_suggestion_decisions b1 = b_suggestion_decisions b →
  (c_decision c = "rejected" → b_relationships b1 = b_relationships b) →
  (c_decision c = "accepted" → carried_out suggestion b b1) →
  wp (c0 ← lift (new_decision c);
      modify (λ b, set_decisions (<[id := c0]> (b_suggestion_decisions b)) b);;
      _append_event (event_id d 1) ("relationship.suggestion-" +:+ c_decision c) "" ref ("suggestion:" +:+ id) now [];;
      save own;; mret c0) (deciding suggestion (c_decision c) b) b1.
Proof.
  intros id ref Hnew Hid Hdid Href Hs Hsub Hnow Htext Hnone Hj Hev Hdec Hrel Hdo.
  rewrite Hnew. apply wp_bind, (wp_lift_ok c). do 2 wp_step.
  apply wp_append; try done; [|by left|by right|by apply details_none|].
  { apply new_decision_choice in Hnew. unfold SUGGESTION_DECISIONS in Hnew.
    repeat (apply elem_of_cons in Hnew as [->|Hnew]; [done|]). by apply elem_of_nil in Hnew. }
  intros v _ Hv. apply wp_save. split; [|intros ? [= <-]; split; [apply lookup_insert_eq|done]].
  right. eexists. split; [|done]. split_and!; [|done| |done|exact Hdo].
  - eapply judges_more; [exact Hj| |done..].
    eapply rtc_l; [|apply rtc_once, (change_event _ _ v); exact Hv].
    rewrite <- Hid. apply change_decision; [by rewrite Hid, Hdec|done|by rewrite Hid|].
    destruct Hj as (_ & _ & -> & _). by rewrite Href.
  - exists c. cbn. by rewrite Hdec.
Qed.
Lemma accepted_carried_out suggestion type ref estimate confidence b l1 l2 :
  _bounded_text (text_or "" "suggestion_type" suggestion) l1 MAX_CONTEXT_LENGTH = Ok type →
  _bounded_text (text_or "" "subject_ref" suggestion) l2 128 = Ok ref →
  (n ← py_int (dict_get_or (VInt (-1)) "confidence" suggestion);
   _confidence n "relationship suggestion confidence") = Ok confidence →
  match dict_get "proposed_estimate" suggestion with
  | VNone => mret None
  | v => n ← py_int v; Some <$> _confidence n "relationship suggestion estimate"
  end = Ok estimate →
  ∀ b1, applied type ref (text_or "" "proposed_circle" suggestion) (text_or "" "context" suggestion) estimate
    confidence b b1 → carried_out suggestion b b1.
Proof.
  intros [_ ->]%bounded_ok [_ ->]%bounded_ok Hconf Hest b1 Happ. exists estimate, confidence, b1.
  split_and!; [| |exact Happ|done].
  - res_inv. apply confidence_ok in Hconf as [-> _]. done.
  - destruct (dict_get "proposed_estimate" suggestion) eqn:E; try (by apply Ok_inj in Hest); res_inv;
      (match goal with H : _ <$> _ = Ok _ |- _ =>
        destruct (_confidence _ _) eqn:E' in H; [|discriminate]; apply Ok_inj in H as <- end;
      apply confidence_ok in E' as [-> _]; eexists; split; [eassumption|done]).
Qed.
Lemma decide_suggestion_run d suggestion outcome_ rationale now b :
  book_ok own b → fresh d b →
  wp (decide_suggestion own d suggestion outcome_ rationale now) (deciding suggestion outcome_ b) b.
Proof.
  intros Hok Hd. unfold decide_suggestion. cbv zeta. wp_guard Hout. wp_ok id Hid. wp_guard Hrsg. do 2 wp_step.
  pose proof (bounded_idemp _ _ _ _ Hid) as [Hidt Hids].
  apply bounded_ok in Hid as [_ ->]. set (id := strip (text_or _ "suggestion_id" _)) in *.
  unfold suggestion_decision. destruct (b_suggestion_decisions b !! id) as [c|] eqn:Hc.
  { wp_guard Heq. apply negb_false_iff, String.eqb_eq in Heq. wp_step. split; [by left|]. by intros ? [= <-]. }
  wp_ok type Htype. wp_ok ref Href. do 2 wp_step. wp_guard Hact. wp_ok reason Hreason. wp_ok conf Hconf.
  wp_ok estimate Hest. wp_guard Hbasis. wp_ok u Hcheck. destruct u. wp_ok current Hnow.
  apply now_ok in Hnow as [-> Hnow].
  assert (0 ≤ conf ≤ 100) as Hconf' by (res_inv; by eapply confidence_ok).
  assert (∀ e, estimate = Some e → 0 ≤ e ≤ 100) as Hest'.
  { intros e ->. destruct (dict_get "proposed_estimate" suggestion); try discriminate; res_inv;
      match goal with H : _ <$> _ = Ok _ |- _ =>
        destruct (_confidence _ _) eqn:E' in H; [|discriminate]; apply Ok_inj, Some_inj in H as <- end;
      by eapply confidence_ok. }
  pose proof (accepted_carried_out _ _ _ _ _ b _ _ Htype Href Hconf Hest) as Hdo.
  apply bounded_idemp in Htype as [Htype _], Hreason as [Hreason _].
  assert (texty MAX_EVIDENCE_LENGTH ("suggestion:" +:+ id)) as Htext.
  { eapply (texty_suggestion id _ ""); [|unfold MAX_EVIDENCE_LENGTH; lia]. apply bounded_ok. by rewrite Hids. }
  apply bounded_ok in Href as [_ ->]. set (ref := strip (text_or _ "subject_ref" _)) in *.
  destruct (b_subjects b !! ref) as [s|] eqn:Hs; [|by rewrite ?Hs in Hact].
  assert (is_subject_ref ref = true) as Hsub.
  { destruct (bo_subjects _ _ Hok _ _ Hs) as (<- & (Hn & _) & _). by apply new_subject_ok in Hn as (? & _). }
  set (c := Build_SuggestionDecision _ _ _ _ _ _ _ _ _ _ _ _ _).
  assert (new_decision c = Ok c) as Hnew.
  { apply negb_false_iff, Z.eqb_eq in Hbasis. apply negb_false_iff in Hrsg.
    apply bool_decide_eq_false, dec_stable in Hout.
    destruct (suggestion_fields _ _ _ _ Hcheck) as [Hcircle Hcontext].
    apply new_decision_make; try done. apply startswith_spec. unfold c, decision_id. cbn. by eexists. }
  pose proof (decision_saved d suggestion c now b) as Hfinish. cbv zeta in Hfinish. fold id ref in Hfinish.
  destruct (String.eqb_spec outcome_ "accepted") as [->|Hrej].
  - apply (apply_suggestion_run _ _ type); try done.
    intros b1 Happ Hev Hdec. apply Hfinish; first [done|by intros; apply Hdo|by eexists|by eapply applied_judges].
  - do 2 wp_step. apply Hfinish; first [done|by eexists|apply judges_refl|apply (fr_events _ _ Hd)].
Qed.
Lemma decided_again d suggestion outcome_ rationale now c b :
  b_suggestion_decisions b !! strip (text_or "" "suggestion_id" suggestion) = Some c →
  wp (decide_suggestion own d suggestion outcome_ rationale now)
     (λ r b', b' = b ∧ ∀ c', r = Ok c' → c' = c ∧ outcome_ = c_decision c) b.
Proof.
  intros Hc. unfold decide_suggestion. cbv zeta. wp_guard Hout. wp_ok id Hid. wp_guard Hrsg. do 2 wp_step.
  apply bounded_ok in Hid as [_ ->]. unfold suggestion_decision. rewrite Hc. wp_guard Heq.
  apply negb_false_iff, String.eqb_eq in Heq. wp_step. split; [done|]. by intros ? [= <-].
Qed.
End judging.
