(* ===== verification/RelationLineage.v ===== *)
(** The revisions of the subject hypotheses (src/anet/relations.py): linking actors, superseding,
    merging and splitting subjects, and what they leave of the old and the new ones. *)
From S2P Require Import Prelude PyStr PyVal Codecs Locator ControlPlane RelationData RelationBook RelationLaws RelationRun.

Section lineage.
Context {PL : Platform} {DG : Digests} {SG : Signatures} {UL : Urllib} (own : string).

(** ** Retired sources *)

(** The events of the retired sources, numbered from [n] *)
Definition retired_event (d : draws) (t : SubjectTransition) (n : nat) (ref : string) : RelationshipEvent :=
  event_of (event_id d n) ("subject." +:+ n_transition_type t) "" ref (n_evidence_ref t) (n_observed_ms t) [].
Lemma retire_source_ok d t n ref x x' :
  retire_source d t n ref x = Ok x' → ∃ s r, x.1.1 !! ref = Some s ∧ x.1.2 !! ref = Some r ∧
    new_event (retired_event d t n ref) = Ok (retired_event d t n ref) ∧
    x' = (<[ref := retired_subject (n_evidence_ref t) (n_observed_ms t) s]> x.1.1,
          <[ref := retired_estimate (n_evidence_ref t) (n_observed_ms t) r]> x.1.2,
          x.2 ++ [retired_event d t n ref]).
Proof.
  destruct x as [[subjects relationships] events]. unfold retire_source. intros H. res_inv.
  apply unique_ok in E0 as [_ ->], E3 as [_ ->]. apply new_subject_id in E1 as ->.
  apply new_estimate_id in E4 as ->. apply new_event_id in E5 as E'. subst. by eexists _, _.
Qed.
Lemma retire_sources_ok d t refs : ∀ n x x',
  NoDup refs → retire_sources d t n refs x = Ok x' →
  (∀ ref, ref ∈ refs → ∃ s r, x.1.1 !! ref = Some s ∧ x.1.2 !! ref = Some r ∧
     x'.1.1 !! ref = Some (retired_subject (n_evidence_ref t) (n_observed_ms t) s) ∧
     x'.1.2 !! ref = Some (retired_estimate (n_evidence_ref t) (n_observed_ms t) r)) ∧
  (∀ ref, ref ∉ refs → x'.1.1 !! ref = x.1.1 !! ref ∧ x'.1.2 !! ref = x.1.2 !! ref) ∧
  ∃ events, x'.2 = x.2 ++ events ∧ Forall event_wf events ∧
    ∀ i v, events !! i = Some v → v_event_id v = event_id d (n + i).
Proof.
  induction refs as [|r refs IH]; intros n x x' Hnd H; cbn in H.
  { apply Ok_inj in H as <-. split; [by intros ref ?%elem_of_nil|]. split; [done|].
    exists []. rewrite app_nil_r. split_and!; [done|constructor|done]. }
  apply NoDup_cons in Hnd as [Hr Hnd]. apply res_bind_ok in H as (y & Hy & H).
  apply retire_source_ok in Hy as (s & e & Hs & He & Hev & ->).
  apply IH in H as (H1 & H2 & events & H3 & H4 & H5); [|done]. cbn [fst snd] in *. split_and!.
  - intros ref [->|Hin]%elem_of_cons.
    + exists s, e. destruct (H2 r Hr) as [-> ->]. by rewrite !lookup_insert_eq.
    + destruct (H1 ref Hin) as (s' & e' & Hs' & He' & Hx). assert (r ≠ ref) as Hne by set_solver.
      rewrite lookup_insert_ne in Hs' by done. rewrite lookup_insert_ne in He' by done. by exists s', e'.
  - intros ref [Hne Hin]%not_elem_of_cons. destruct (H2 ref Hin) as [-> ->]. by rewrite !lookup_insert_ne.
  - exists (retired_event d t n r :: events). rewrite H3, <- app_assoc. split_and!; [done| |].
    + apply Forall_cons_2; [|done]. by split.
    + intros [|i] v Hv; cbn in Hv; [injection Hv as <-; by rewrite Nat.add_0_r|].
      rewrite (H5 _ _ Hv). f_equal. lia.
Qed.

(** ** New subjects *)

(** What the relationship of a new subject takes over, or the default of an unknown past *)
Definition inherited (before : gmap string RelationshipEstimate) (source : option string)
    (r : RelationshipEstimate) : Prop :=
  match source with
  | Some ref => ∃ r0, before !! ref = Some r0 ∧ judgement r = judgement r0
  | None => judgement r = ("known", "active", 25, [])
  end.
Lemma replacement_relationship_ok ref source evidence now r :
  _replacement_relationship ref source evidence now = Ok r → texty MAX_EVIDENCE_LENGTH evidence →
  (∀ r0, source = Some r0 → estimate_wf r0) →
  estimate_wf r ∧ r_subject_ref r = ref ∧
  judgement r = match source with Some r0 => judgement r0 | None => ("known", "active", 25, []) end.
Proof.
  intros H Htext Hwf. destruct source as [r0|]; cbn in H.
  - destruct (Hwf r0 eq_refl) as (_ & Ht & Hl & He). res_inv. apply unique_ok in E as [Hrefs ->].
    apply new_estimate_id in H as E. subst r. split; [|done]. split_and!; [done..|by apply texty_normal].
  - apply new_estimate_id in H as E. subst r. split; [|done].
    split_and!; [done|by apply Forall_nil_2..|by apply Forall_singleton].
Qed.
Lemma add_replacements_ok t before inheritance new : ∀ x x',
  NoDup (s_subject_ref <$> new) → add_replacements t before inheritance new x = Ok x' →
  texty MAX_EVIDENCE_LENGTH (n_evidence_ref t) → (∀ ref r, before !! ref = Some r → estimate_wf r) →
  (∀ s, s ∈ new → x'.1.1 !! s_subject_ref s = Some s ∧ ∃ r, x'.1.2 !! s_subject_ref s = Some r ∧
     r_subject_ref r = s_subject_ref s ∧ estimate_wf r ∧ inherited before (inheritance !! s_subject_ref s) r) ∧
  (∀ ref, ref ∉ s_subject_ref <$> new → x'.1.1 !! ref = x.1.1 !! ref ∧ x'.1.2 !! ref = x.1.2 !! ref) ∧
  x'.2 = x.2.
Proof.
  induction new as [|s new IH]; intros x x' Hnd H Htext Hwf; cbn in H.
  { apply Ok_inj in H as <-. split; [by intros ref ?%elem_of_nil|done]. }
  destruct x as [[subjects relationships] events]. rewrite fmap_cons in Hnd. apply NoDup_cons in Hnd as [Hs Hnd].
  apply res_bind_ok in H as (source & Hsource & H). apply res_bind_ok in H as (r & Hr & H).
  apply IH in H as (H1 & H2 & H3); [|done..]. cbn [fst snd] in *.
  assert (estimate_wf r ∧ r_subject_ref r = s_subject_ref s ∧
          inherited before (inheritance !! s_subject_ref s) r) as (Hr1 & Hr2 & Hr3).
  { apply replacement_relationship_ok in Hr as (A & B & C); [|done|].
    - split_and!; [done..|]. unfold inherited. destruct (inheritance !! s_subject_ref s) as [ref|].
      + destruct (before !! ref) as [r0|] eqn:E; [|discriminate]. apply Ok_inj in Hsource as <-. by exists r0.
      + by apply Ok_inj in Hsource as <-.
    - intros r0 ->. destruct (inheritance !! s_subject_ref s) as [ref|]; [|discriminate].
      destruct (before !! ref) as [r1|] eqn:E; [|discriminate]. apply Ok_inj in Hsource as [= <-]. by eapply Hwf. }
  split_and!; [| |done].
  - intros s' [->|Hin]%elem_of_cons; [|by apply H1].
    destruct (H2 _ Hs) as [-> ->]. rewrite !lookup_insert_eq. split; [done|]. by exists r.
  - intros ref. rewrite fmap_cons, not_elem_of_cons. intros [Hne Hin].
    destruct (H2 ref Hin) as [-> ->]. by rewrite !lookup_insert_ne.
Qed.

(** ** The commit of a transition *)

Record lineage_step (t : SubjectTransition) (new : list SubjectHypothesis) (inheritance : gmap string string)
    (b b' : RelationshipBook) : Prop := {
  ls_change : change own b b';
  ls_transitions : b_transitions b' = b_transitions b ++ [t];
  ls_sources : ∀ ref, ref ∈ n_source_subject_refs t → ∃ s r,
    b_subjects b !! ref = Some s ∧ is_active s = true ∧ b_relationships b !! ref = Some r ∧
    b_subjects b' !! ref = Some (retired_subject (n_evidence_ref t) (n_observed_ms t) s) ∧
    b_relationships b' !! ref = Some (retired_estimate (n_evidence_ref t) (n_observed_ms t) r);
  ls_new : ∀ s, s ∈ new → b_subjects b' !! s_subject_ref s = Some s ∧
    ∃ r, b_relationships b' !! s_subject_ref s = Some r ∧
      inherited (b_relationships b) (inheritance !! s_subject_ref s) r;
  ls_others : ∀ ref, ref ∉ n_source_subject_refs t → ref ∉ s_subject_ref <$> new →
    b_subjects b' !! ref = b_subjects b !! ref ∧ b_relationships b' !! ref = b_relationships b !! ref;
  ls_kept : b_actors b' = b_actors b ∧ b_interactions b' = b_interactions b ∧
    b_suggestion_decisions b' = b_suggestion_decisions b;
}.
(** A subject that a transition may introduce *)
Definition introduced (b : RelationshipBook) (s : SubjectHypothesis) : Prop :=
  subject_wf s ∧ is_active s = true ∧ (∀ id, id ∈ link_ids s → is_Some (b_actors b !! id)) ∧
  b_subjects b !! s_subject_ref s = None.
Lemma commit_parts_ok d t new inheritance b b' :
  book_ok own b → fresh d b → new_transition t = Ok t → n_transition_id t = transition_id d →
  n_replacement_subject_refs t = s_subject_ref <$> new → Forall (introduced b) new →
  (∀ ref, ref ∈ n_source_subject_refs t → ∃ s, b_subjects b !! ref = Some s ∧ is_active s = true ∧
     ∀ id, id ∈ link_ids s → ∃ s', s' ∈ new ∧ id ∈ link_ids s') →
  commit_parts own d t new inheritance b = Ok b' → lineage_step t new inheritance b b'.
Proof.
  intros Hok Hd Ht Hid Hrefs Hnew Hsrc H.
  pose proof (new_transition_ok t Ht) as (_ & _ & Hnd & _ & Htext & _).
  apply NoDup_app in Hnd as (Hnd1 & Hdisj & Hnd2). rewrite Hrefs in Hnd2, Hdisj.
  unfold commit_parts in H. res_inv. destruct x0 as [[subjects relationships] events]. res_inv. subst b'.
  apply retire_sources_ok in E as (Hr1 & Hr2 & vs & Hvs & Hvwf & Hvid); [|done].
  apply add_replacements_ok in E0 as (Ha1 & Ha2 & Ha3); [|done|done|by apply (bo_estimates _ _ Hok)].
  cbn [fst snd] in *.
  assert (∀ ref, ref ∈ n_source_subject_refs t → ∃ s r,
    b_subjects b !! ref = Some s ∧ is_active s = true ∧ b_relationships b !! ref = Some r ∧
    subjects !! ref = Some (retired_subject (n_evidence_ref t) (n_observed_ms t) s) ∧
    relationships !! ref = Some (retired_estimate (n_evidence_ref t) (n_observed_ms t) r)) as Hsources.
  { intros ref Hin. destruct (Hr1 ref Hin) as (s & r & Hs & Hr & Hs' & Hr').
    destruct (Hsrc ref Hin) as (s0 & Hs0 & Hact & _). rewrite Hs in Hs0. injection Hs0 as <-.
    exists s, r. destruct (Ha2 ref (Hdisj _ Hin)) as [-> ->]. done. }
  rewrite Ha3, Hvs. split; cbn; try done.
  - apply change_lineage; try done.
    + rewrite Hid. apply (fr_transition _ _ Hd).
    + intros ref Hin. rewrite Hrefs in Hin. apply list_elem_of_fmap in Hin as (s & -> & Hin).
      apply (proj1 (Forall_forall _ _) Hnew) in Hin as Hi. destruct Hi as (Hwf & Hact & Hknown & Hnone).
      split; [done|]. destruct (Ha1 s Hin) as (Hs & r & Hr & Hr1' & Hr2' & _). by exists s, r.
    + intros ref Hn Hn'. rewrite Hrefs in Hn'. destruct (Ha2 ref Hn') as [-> ->]. by apply Hr2.
    + intros ref s id Hin Hs Hl. destruct (Hsrc ref Hin) as (s0 & Hs0 & _ & Hcover).
      rewrite Hs in Hs0. injection Hs0 as <-. destruct (Hcover id Hl) as (s' & Hin' & Hl').
      exists (s_subject_ref s'), s'. rewrite Hrefs. split_and!; [|by apply Ha1|done].
      apply list_elem_of_fmap. by exists s'.
    + apply NoDup_alt. intros i j e Hi Hj. rewrite list_lookup_fmap in Hi, Hj.
      apply fmap_Some in Hi as (v & Hi & ->), Hj as (w & Hj & Heq). apply Hvid in Hi, Hj.
      assert (0 + i = 0 + j)%nat by (apply (fr_event_tokens _ _ Hd); congruence). lia.
    + intros v Hv. apply list_elem_of_lookup in Hv as [i Hi]. rewrite (Hvid _ _ Hi). apply (fr_events _ _ Hd).
  - intros s Hin. destruct (Ha1 s Hin) as (Hs & r & Hr & _ & _ & Hinh). split; [done|by exists r].
  - intros ref Hn Hn'. destruct (Ha2 ref Hn') as [-> ->]. by apply Hr2.
Qed.
Lemma transition_run d t new inheritance b :
  book_ok own b → fresh d b → new_transition t = Ok t → n_transition_id t = transition_id d →
  n_replacement_subject_refs t = s_subject_ref <$> new → Forall (introduced b) new →
  (∀ ref, ref ∈ n_source_subject_refs t → ∃ s, b_subjects b !! ref = Some s ∧ is_active s = true ∧
     ∀ id, id ∈ link_ids s → ∃ s', s' ∈ new ∧ id ∈ link_ids s') →
  wp (_commit_subject_transition own d t new inheritance) (performed own (lineage_step t new inheritance) b) b.
Proof.
  intros Hok Hd Ht Hid Hrefs Hnew Hsrc. unfold _commit_subject_transition. do 3 wp_step.
  apply wp_lift; intros b' Hb'; [|done]. cbv beta iota. do 2 wp_step. apply wp_save.
  exists b'. split; [|done]. by eapply commit_parts_ok.
Qed.

(** ** Superseding *)

Lemma active_subject_ok what ref b s :
  active_subject what ref b = Ok s → b_subjects b !! ref = Some s ∧ is_active s = true.
Proof. unfold active_subject. intros H. res_inv. subst. by apply negb_false_iff in E0. Qed.
Definition links_of (s : SubjectHypothesis) : list (string * Z) :=
  (λ l, (l_actor_id l, l_confidence l)) <$> s_actor_links s.
Lemma link_refs_ok refs evidence l :
  link_refs refs evidence = Ok l → Forall (texty MAX_EVIDENCE_LENGTH) l.
Proof. intros H. apply unique_ok in H as [H ->]. by apply texty_normal. Qed.
Lemma relink_ok evidence current links links' :
  map_res (λ l, refs ← link_refs (l_evidence_refs l) evidence;
    new_link {| l_actor_id := l_actor_id l; l_confidence := l_confidence l; l_evidence_refs := refs;
                l_updated_ms := current |}) links = Ok links' →
  (λ l, (l_actor_id l, l_confidence l)) <$> links' = (λ l, (l_actor_id l, l_confidence l)) <$> links ∧
  Forall link_wf links'.
Proof.
  intros H. apply map_res_Forall2 in H. induction H as [|l l' links links' Hl _ [IH1 IH2]]; [done|].
  res_inv. apply link_refs_ok in E. apply new_link_id in Hl as El. subst l'.
  rewrite !fmap_cons, IH1. split; [done|]. by apply Forall_cons_2.
Qed.
Lemma links_ids (links links' : list SubjectActorLink) :
  (λ l, (l_actor_id l, l_confidence l)) <$> links' = (λ l, (l_actor_id l, l_confidence l)) <$> links →
  l_actor_id <$> links' = l_actor_id <$> links.
Proof. intros H. apply (f_equal (fmap fst)) in H. by rewrite <- !list_fmap_compose in H. Qed.
Lemma subject_known b ref s :
  book_ok own b → b_subjects b !! ref = Some s →
  subject_wf s ∧ ∀ id, id ∈ link_ids s → is_Some (b_actors b !! id).
Proof. intros Hok Hs. by destruct (bo_subjects _ _ Hok _ _ Hs) as (_ & ? & ?). Qed.
Lemma introduce b d n labels labels' label links refs evidence refs' :
  book_ok own b → fresh d b → Forall (texty MAX_LABEL_LENGTH) labels → labels' = normal_refs labels →
  Forall link_wf links → (∀ id, id ∈ l_actor_id <$> links → is_Some (b_actors b !! id)) →
  add_refs label refs evidence = Ok refs' →
  ∀ s now, new_subject {| s_subject_ref := subject_ref d n; s_state := "active"; s_labels := labels';
    s_actor_links := links; s_evidence_refs := refs'; s_updated_ms := now |} = Ok s →
  introduced b s ∧ s_actor_links s = links ∧ s_subject_ref s = subject_ref d n.
Proof.
  intros Hok Hd Hlab -> Hl Hknown Hrefs s now Hs. apply new_subject_id in Hs as E. subst s.
  apply unique_ok in Hrefs as [Hrefs ->]. split; [|done]. split_and!.
  - split_and!; [done|done|by apply texty_normal|by apply texty_normal|apply (fr_plain _ _ Hd)].
  - done.
  - done.
  - apply (fr_subjects _ _ Hd).
Qed.
(** A subject with the same actors takes the place of another. *)
Definition superseded (ref : string) (b b' : RelationshipBook) : Prop :=
  ∃ t s s', lineage_step t [s'] {[s_subject_ref s' := ref]} b b' ∧
    n_transition_type t = "supersede" ∧ n_source_subject_refs t = [ref] ∧
    b_subjects b !! ref = Some s ∧ links_of s' = links_of s.
Lemma supersede_run d subject_ref_ confidence evidence_ref labels now b :
  book_ok own b → fresh d b →
  wp (supersede_subject own d subject_ref_ confidence evidence_ref labels now)
     (performed own (superseded (strip subject_ref_)) b) b.
Proof.
  intros Hok Hd. unfold supersede_subject. cbv zeta.
  wp_ok ref Href. apply bounded_ok in Href as [_ ->].
  do 2 wp_step. wp_ok source Hsource.
  apply active_subject_ok in Hsource as [Hs Hact]. destruct (subject_known _ _ _ Hok Hs) as [Hwf Hknown].
  wp_ok c Hconf.
  wp_ok ev Hev.
  wp_ok current Hnow.
  wp_ok labels' Hlabels. apply unique_ok in Hlabels as [Hlabels ->].
  wp_ok links Hlinks. apply relink_ok in Hlinks as [Hlinks Hlwf].
  wp_ok refs Hrefs.
  wp_ok s' Hs'.
  wp_ok t Ht.
  pose proof (links_ids _ _ Hlinks) as Hids.
  assert (∀ id, id ∈ l_actor_id <$> links → is_Some (b_actors b !! id)) as Hk by (by rewrite Hids).
  destruct (introduce b d 0 _ _ _ links _ _ _ Hok Hd Hlabels eq_refl Hlwf Hk Hrefs _ _ Hs')
    as (Hintro & Hs'links & Hs'ref).
  apply new_transition_id in Ht as E. subst t. set (t := Build_SubjectTransition _ _ _ _ _ _ _) in *.
  eapply wp_mono.
  - apply transition_run; try done; [cbn; by rewrite Hs'ref|by apply Forall_singleton|].
    intros ref Hin. apply list_elem_of_singleton in Hin as ->. exists source. split_and!; [done..|].
    intros id Hid. exists s'. split; [by left|]. unfold link_ids. rewrite Hs'links. by rewrite Hids.
  - intros [?|?] b'; [|done]. intros (b1 & Hstep & ->). exists b1. split; [|done].
    exists t, source, s'. split_and!; [by rewrite Hs'ref|done|done|done|]. unfold links_of. by rewrite Hs'links.
Qed.

(** ** Merging *)

(** The confidence that an actor belongs to a subject; 0 for other actors *)
Definition link_confidence (id : string) (links : list SubjectActorLink) : Z :=
  match find_link id links with Some l => l_confidence l | None => 0 end.
Definition confidence_of (id : string) (s : SubjectHypothesis) : Z := link_confidence id (s_actor_links s).
Lemma find_put_link l links id :
  find_link id (put_link l links) = if String.eqb (l_actor_id l) id then Some l else find_link id links.
Proof.
  unfold find_link. induction links as [|l' links IH]; simpl; [done|].
  destruct (String.eqb_spec (l_actor_id l') (l_actor_id l)) as [E|E]; simpl.
  - rewrite E. by destruct (String.eqb_spec (l_actor_id l) id).
  - destruct (String.eqb_spec (l_actor_id l') id) as [E'|E']; [|done].
    destruct (String.eqb_spec (l_actor_id l) id); [congruence|done].
Qed.
Lemma put_link_ids l links id :
  id ∈ l_actor_id <$> put_link l links ↔ id = l_actor_id l ∨ id ∈ l_actor_id <$> links.
Proof.
  induction links as [|l' links IH]; simpl; [by rewrite list_elem_of_singleton, elem_of_nil; tauto|].
  destruct (String.eqb_spec (l_actor_id l') (l_actor_id l)) as [E|E]; rewrite !fmap_cons, !elem_of_cons.
  - rewrite E. tauto.
  - rewrite IH. tauto.
Qed.
Lemma put_link_Forall (P : SubjectActorLink → Prop) l links : P l → Forall P links → Forall P (put_link l links).
Proof.
  intros Hl Hlinks. induction Hlinks as [|l' links Hl' Hlinks IH]; simpl; [by apply Forall_singleton|].
  destruct (String.eqb _ _); by apply Forall_cons_2.
Qed.
Lemma find_link_some id links : id ∈ l_actor_id <$> links → ∃ l, find_link id links = Some l.
Proof.
  unfold find_link. intros (l & -> & Hl)%list_elem_of_fmap. destruct (List.find _ links) as [l'|] eqn:Hf; [eauto|].
  apply list_elem_of_In, (List.find_none _ _ Hf l), String.eqb_neq in Hl. congruence.
Qed.
Lemma find_link_spec id links l : find_link id links = Some l → l ∈ links ∧ l_actor_id l = id.
Proof.
  unfold find_link. intros [Hl Hid]%List.find_some. apply String.eqb_eq in Hid. by apply list_elem_of_In in Hl.
Qed.
Lemma find_link_unique id links l :
  NoDup (l_actor_id <$> links) → l ∈ links → l_actor_id l = id → find_link id links = Some l.
Proof.
  intros Hnd Hl Hid. destruct (find_link_some id links) as [l' Hl']; [apply list_elem_of_fmap; by exists l|].
  rewrite Hl'. apply find_link_spec in Hl' as [Hin Hid'].
  apply list_elem_of_lookup in Hl as [i Hi], Hin as [j Hj].
  assert (i = j) as ->; [|congruence].
  eapply (NoDup_lookup (l_actor_id <$> links)); [done|rewrite list_lookup_fmap, Hi; simpl; done|].
  rewrite list_lookup_fmap, Hj. simpl. congruence.
Qed.
Definition links_for (id : string) (links : list SubjectActorLink) : list Z :=
  l_confidence <$> filter (λ l, l_actor_id l = id) links.
Lemma merge_links_ok evidence current todo : ∀ links links',
  merge_links evidence current links todo = Ok links' → Forall link_wf links → Forall link_wf todo →
  Forall link_wf links' ∧ (∀ id, id ∈ l_actor_id <$> links' ↔ id ∈ l_actor_id <$> links ∨ id ∈ l_actor_id <$> todo) ∧
  ∀ id, link_confidence id links' = foldl Z.max (link_confidence id links) (links_for id todo).
Proof.
  induction todo as [|l todo IH]; intros links links' H Hwf Htodo; cbn in H.
  { apply Ok_inj in H as <-. split_and!; [done| |done]. intros id. rewrite elem_of_nil. tauto. }
  apply Forall_cons in Htodo as [Hl Htodo].
  apply res_bind_ok in H as (refs & Hrefs & H). apply res_bind_ok in H as (l' & Hl' & H).
  apply link_refs_ok in Hrefs. apply new_link_id in Hl' as E. subst l'.
  apply IH in H as (H1 & H2 & H3); [|apply put_link_Forall; [by split|done]|done].
  split_and!; [done| |].
  - intros id. rewrite H2, put_link_ids, fmap_cons, elem_of_cons. cbn. tauto.
  - intros id. rewrite H3. unfold links_for, link_confidence at 1. rewrite filter_cons, find_put_link. cbn [l_actor_id].
    destruct (String.eqb_spec (l_actor_id l) id) as [E|E]; [rewrite decide_True by done|by rewrite decide_False].
    rewrite fmap_cons. cbn [foldl l_confidence]. f_equal. unfold link_confidence. rewrite <- E. apply Z.max_comm.
Qed.
Lemma foldl_max_ge l : ∀ a, a ≤ foldl Z.max a l ∧ ∀ x, x ∈ l → x ≤ foldl Z.max a l.
Proof.
  induction l as [|y l IH]; intros a; cbn; [split; [lia|by intros x ?%elem_of_nil]|].
  destruct (IH (Z.max a y)) as [H1 H2]. split; [lia|]. intros x [->|Hx]%elem_of_cons; [lia|by apply H2].
Qed.
Lemma foldl_max_in l : ∀ a, foldl Z.max a l = a ∨ foldl Z.max a l ∈ l.
Proof.
  induction l as [|y l IH]; intros a; cbn; [by left|]. destruct (IH (Z.max a y)) as [E|Hin].
  - rewrite E. destruct (Z.max_spec a y) as [[_ ->]|[_ ->]]; [right; by left|by left].
  - right. by right.
Qed.
Lemma link_confidence_range links id : Forall link_wf links → 0 ≤ link_confidence id links.
Proof.
  intros Hwf. unfold link_confidence. destruct (find_link id links) as [l|] eqn:Hl; [|done].
  apply find_link_spec in Hl as [Hin _]. apply (proj1 (Forall_forall _ _) Hwf) in Hin as [Hn _].
  unfold new_link in Hn. res_inv. apply confidence_ok in E0 as [E0 H0]. lia.
Qed.
Definition merged (refs : list string) (inherited_ref : string) (b b' : RelationshipBook) : Prop :=
  ∃ t s', lineage_step t [s'] (if String.eqb inherited_ref "" then ∅ else {[s_subject_ref s' := inherited_ref]}) b b' ∧
    n_transition_type t = "merge" ∧ n_source_subject_refs t = refs ∧ (2 ≤ length refs)%nat ∧
    (∀ id, id ∈ link_ids s' ↔ ∃ ref s, ref ∈ refs ∧ b_subjects b !! ref = Some s ∧ id ∈ link_ids s) ∧
    (∀ id ref s, ref ∈ refs → b_subjects b !! ref = Some s → confidence_of id s ≤ confidence_of id s') ∧
    ∀ id, id ∈ link_ids s' → ∃ ref s, ref ∈ refs ∧ b_subjects b !! ref = Some s ∧ id ∈ link_ids s ∧
      confidence_of id s = confidence_of id s'.
(** The links of the sources, joined *)
Lemma joined_links (sources : list SubjectHypothesis) id :
  id ∈ l_actor_id <$> concat (s_actor_links <$> sources) ↔ ∃ s, s ∈ sources ∧ id ∈ link_ids s.
Proof.
  induction sources as [|s sources IH]; cbn.
  - split; [by intros ?%elem_of_nil|]. by intros (s & ?%elem_of_nil & _).
  - rewrite fmap_app, elem_of_app, IH. split.
    + intros [Hid|(s' & Hs' & Hid)]; [exists s|exists s']; by (split; [constructor|]).
    + intros (s' & [->|Hs']%elem_of_cons & Hid); [by left|right; by exists s'].
Qed.
Lemma joined_confidences (sources : list SubjectHypothesis) id x :
  Forall subject_wf sources →
  x ∈ links_for id (concat (s_actor_links <$> sources)) ↔
  ∃ s, s ∈ sources ∧ id ∈ link_ids s ∧ confidence_of id s = x.
Proof.
  intros Hwf. unfold links_for. rewrite list_elem_of_fmap. split.
  - intros (l & -> & [Hid Hl]%list_elem_of_filter). apply list_elem_of_In, in_concat in Hl as (ls & Hls & Hl).
    apply list_elem_of_In in Hls, Hl. apply list_elem_of_fmap in Hls as (s & -> & Hs). exists s.
    apply (proj1 (Forall_forall _ _) Hwf) in Hs as Hs'. destruct Hs' as [Hn _].
    apply new_subject_ok in Hn as (_ & _ & _ & Hnd & _). split_and!; [done|apply list_elem_of_fmap; by exists l|].
    unfold confidence_of, link_confidence. by rewrite (find_link_unique id _ l).
  - intros (s & Hs & Hid & <-). apply find_link_some in Hid as [l Hl]. exists l.
    unfold confidence_of, link_confidence. rewrite Hl. split; [done|]. apply find_link_spec in Hl as [Hin Hid].
    apply list_elem_of_filter. split; [done|]. apply list_elem_of_In, in_concat. exists (s_actor_links s).
    split; apply list_elem_of_In; [|done]. apply list_elem_of_fmap. by exists s.
Qed.
(** The sources of a merge as [srefs] and [sources] *)
Section merged_links.
Context (b : RelationshipBook) (srefs : list string) (sources : list SubjectHypothesis) (links : list SubjectActorLink).
Hypothesis Hok : book_ok own b.
Hypothesis Hsrc : Forall2 (λ r s, b_subjects b !! r = Some s ∧ is_active s = true) srefs sources.
Hypothesis Hids : ∀ id, id ∈ l_actor_id <$> links ↔
  id ∈ l_actor_id <$> [] ∨ id ∈ l_actor_id <$> concat (s_actor_links <$> sources).
Hypothesis Hmax : ∀ id, link_confidence id links =
  foldl Z.max (link_confidence id []) (links_for id (concat (s_actor_links <$> sources))).

Lemma source_ref s : s ∈ sources → ∃ r, r ∈ srefs ∧ b_subjects b !! r = Some s.
Proof.
  intros [i Hi]%list_elem_of_lookup. destruct (Forall2_lookup_r _ _ _ _ _ Hsrc Hi) as (r & Hr & Hs & _).
  exists r. split; [by eapply list_elem_of_lookup_2|done].
Qed.
Lemma source_of_ref r : r ∈ srefs → ∃ s, s ∈ sources ∧ b_subjects b !! r = Some s ∧ is_active s = true.
Proof.
  intros [i Hi]%list_elem_of_lookup. destruct (Forall2_lookup_l _ _ _ _ _ Hsrc Hi) as (s & Hs & Hs1 & Hact).
  exists s. split_and!; [by eapply list_elem_of_lookup_2|done..].
Qed.
Lemma sources_wf : Forall subject_wf sources.
Proof.
  apply Forall_forall. intros s Hs. destruct (source_ref s Hs) as (r & _ & Hr).
  by apply (subject_known _ _ _ Hok Hr).
Qed.
Lemma merged_ids id : id ∈ l_actor_id <$> links ↔ ∃ s, s ∈ sources ∧ id ∈ link_ids s.
Proof. rewrite Hids, joined_links, elem_of_nil. tauto. Qed.
Lemma merged_known id : id ∈ l_actor_id <$> links → is_Some (b_actors b !! id).
Proof.
  intros (s & Hs & Hid)%merged_ids. destruct (source_ref s Hs) as (r & _ & Hr).
  by apply (subject_known _ _ _ Hok Hr).
Qed.
Lemma merged_members id :
  id ∈ l_actor_id <$> links ↔ ∃ ref s, ref ∈ srefs ∧ b_subjects b !! ref = Some s ∧ id ∈ link_ids s.
Proof.
  rewrite merged_ids. split.
  - intros (s & Hs & Hid). destruct (source_ref s Hs) as (r & Hr & Hs1). by exists r, s.
  - intros (r & s & Hr & Hs & Hid). destruct (source_of_ref r Hr) as (s0 & Hin & Hs0 & _). exists s0.
    split; [done|congruence].
Qed.
Lemma merged_bound id s : s ∈ sources → confidence_of id s ≤ link_confidence id links.
Proof.
  intros Hs. rewrite Hmax. destruct (decide (id ∈ link_ids s)) as [Hid|Hid].
  - apply (proj2 (foldl_max_ge _ _)), joined_confidences; [apply sources_wf|]. by exists s.
  - unfold confidence_of, link_confidence. destruct (find_link id (s_actor_links s)) as [l|] eqn:Hl.
    { exfalso. apply Hid. apply find_link_spec in Hl as [Hl <-]. apply list_elem_of_fmap. by exists l. }
    apply (proj1 (foldl_max_ge _ _)).
Qed.
Lemma merged_attained id :
  id ∈ l_actor_id <$> links → ∃ s, s ∈ sources ∧ id ∈ link_ids s ∧ confidence_of id s = link_confidence id links.
Proof.
  intros (s & Hs & Hid)%merged_ids.
  destruct (foldl_max_in (links_for id (concat (s_actor_links <$> sources))) (link_confidence id [])) as [E|Hin].
  - exists s. split_and!; [done..|]. apply Z.le_antisymm; [by apply merged_bound|]. rewrite Hmax, E.
    apply link_confidence_range. by apply (proj1 (Forall_forall _ _) sources_wf s Hs).
  - rewrite <- Hmax in Hin. apply joined_confidences in Hin as (s1 & Hs1 & Hid1 & E); [|apply sources_wf].
    by exists s1.
Qed.
End merged_links.
Lemma merge_run d refs confidence evidence_ref inherit_ref labels now b :
  book_ok own b → fresh d b →
  wp (merge_subjects own d refs confidence evidence_ref inherit_ref labels now)
     (performed own (merged (fromkeys (strip <$> refs)) (strip inherit_ref)) b) b.
Proof.
  intros Hok Hd. unfold merge_subjects. cbv zeta. set (srefs := fromkeys (strip <$> refs)).
  wp_guard Hlen. apply Nat.ltb_ge in Hlen.
  do 2 wp_step. wp_ok sources Hsources.
  assert (Forall2 (λ r s, b_subjects b !! r = Some s ∧ is_active s = true) srefs sources) as Hsrc.
  { apply map_res_Forall2 in Hsources. eapply Forall2_impl; [exact Hsources|]. intros r s. apply active_subject_ok. }
  wp_guard Hinh.
  wp_ok c Hconf. wp_ok ev Hev. wp_ok current Hnow. wp_ok links Hlinks. wp_ok labels' Hlabels.
  apply unique_ok in Hlabels as [Hlabels ->]. wp_ok erefs Hrefs. wp_ok s' Hs'. wp_ok t Ht.
  apply merge_links_ok in Hlinks as (Hlwf & Hids & Hmax); [|by apply Forall_nil_2|].
  2: { apply Forall_concat, Forall_fmap. eapply Forall_impl; [by eapply sources_wf|]. by intros s (_ & ? & _). }
  destruct (introduce b d 0 _ _ _ links _ _ _ Hok Hd Hlabels eq_refl Hlwf
    (merged_known _ _ _ _ Hok Hsrc Hids) Hrefs _ _ Hs') as (Hintro & Hs'links & Hs'ref).
  apply new_transition_id in Ht as E. subst t. set (t := Build_SubjectTransition _ _ _ _ _ _ _) in *.
  eapply wp_mono.
  - apply transition_run; try done; [cbn; by rewrite Hs'ref|by apply Forall_singleton|].
    intros ref Hin. cbn in Hin. destruct (source_of_ref _ _ _ Hsrc ref Hin) as (s & Hs & Hs1 & Hact).
    exists s. split_and!; [done..|]. intros id Hid. exists s'. split; [by left|]. unfold link_ids. rewrite Hs'links.
    eapply merged_ids; [done|]. by exists s.
  - intros [?|?] b'; [|done]. intros (b1 & Hstep & ->). exists b1. split; [|done].
    exists t, s'. rewrite <- Hs'ref in Hstep. unfold confidence_of at 2 4, link_ids at 1 3. rewrite Hs'links.
    split_and!; [done|done|done|done|by eapply merged_members| |].
    + intros id r s Hr Hs. destruct (source_of_ref _ _ _ Hsrc r Hr) as (s0 & Hin & Hs0 & _).
      assert (s0 = s) as -> by congruence. by eapply merged_bound.
    + intros id Hid. eapply merged_attained in Hid as (s & Hs & Hid & E); [|done..].
      destruct (source_ref _ _ _ Hsrc s Hs) as (r & Hr & Hs1). by exists r, s.
Qed.

(** ** Splitting *)

(** The actors of a group keep their confidence in the new subject of the group. *)
Definition split_part (source : SubjectHypothesis) (group : list string) (s : SubjectHypothesis) : Prop :=
  link_ids s = group ∧ ∀ id, id ∈ group → confidence_of id s = confidence_of id source.
Lemma group_links_ok links evidence current group links' :
  map_res (λ actor_id,
    l ← of_option (KeyError actor_id) (find_link actor_id links);
    refs ← link_refs (l_evidence_refs l) evidence;
    new_link {| l_actor_id := actor_id; l_confidence := l_confidence l; l_evidence_refs := refs;
                l_updated_ms := current |}) group = Ok links' →
  Forall link_wf links' ∧ l_actor_id <$> links' = group ∧
  Forall (λ l, l_confidence l = link_confidence (l_actor_id l) links) links'.
Proof.
  intros H. apply map_res_Forall2 in H. induction H as [|id l' group links' Hl _ (IH1 & IH2 & IH3)]; [done|].
  res_inv. apply link_refs_ok in E0. apply new_link_id in Hl as El. subst l'. rewrite fmap_cons, IH2.
  split_and!; [by apply Forall_cons_2|done|]. apply Forall_cons_2; [|done]. cbn. unfold link_confidence. by rewrite E.
Qed.
Lemma split_part_make source group s :
  l_actor_id <$> s_actor_links s = group →
  Forall (λ l, l_confidence l = link_confidence (l_actor_id l) (s_actor_links source)) (s_actor_links s) →
  split_part source group s.
Proof.
  intros Hids Hconf. split; [done|]. intros id Hid. rewrite <- Hids in Hid.
  apply find_link_some in Hid as [l Hl]. unfold confidence_of. unfold link_confidence at 1. rewrite Hl.
  apply find_link_spec in Hl as [Hin <-]. by apply (proj1 (Forall_forall _ _) Hconf).
Qed.
Lemma split_groups_ok d b source ref labels evidence current groups : ∀ n new,
  book_ok own b → fresh d b → b_subjects b !! ref = Some source →
  (∀ group id, group ∈ groups → id ∈ group → id ∈ link_ids source) →
  split_groups d source labels evidence current n groups = Ok new →
  Forall2 (split_part source) groups new ∧ Forall (introduced b) new ∧
  s_subject_ref <$> new = subject_ref d <$> seq n (length groups).
Proof.
  induction groups as [|group groups IH]; intros n new Hok Hd Hs Hsub H; cbn in H.
  { by apply Ok_inj in H as <-. }
  destruct (subject_known _ _ _ Hok Hs) as [Hwf Hknown].
  res_inv. apply unique_ok in E as [Hlab ->].
  apply group_links_ok in E0 as (Hlwf & Hids & Hconf).
  assert (∀ id, id ∈ l_actor_id <$> x0 → is_Some (b_actors b !! id)) as Hk.
  { intros id Hid. rewrite Hids in Hid. apply Hknown. eapply Hsub; [by left|done]. }
  destruct (introduce b d n _ _ _ x0 _ _ _ Hok Hd Hlab eq_refl Hlwf Hk E1 _ _ E2) as (Hintro & Hlinks & Href).
  apply IH in E3 as (H1 & H2 & H3); [|done..|intros g id Hg; eapply Hsub; by right].
  subst new. split_and!; [|by apply Forall_cons_2|by rewrite fmap_cons, H3, Href].
  apply Forall2_cons. split; [|done]. apply split_part_make; by rewrite Hlinks.
Qed.
(** The groups, without repetitions and surrounding blanks *)
Definition actor_groups (groups : list (list string)) : list (list string) :=
  (λ group, fromkeys (strip <$> group)) <$> groups.
Definition splitted (ref : string) (groups : list (list string)) (inherit : option Z) (b b' : RelationshipBook) : Prop :=
  ∃ t new source, lineage_step t new
      (match inherit with Some i => from_option (λ s, {[s_subject_ref s := ref]}) ∅ (new !! Z.to_nat i) | None => ∅ end)
      b b' ∧
    n_transition_type t = "split" ∧ n_source_subject_refs t = [ref] ∧ b_subjects b !! ref = Some source ∧
    Forall2 (split_part source) (actor_groups groups) new ∧ concat (actor_groups groups) ≡ₚ link_ids source.
Lemma split_run d subject_ref_ groups confidence evidence_ref inherit labels now b :
  book_ok own b → fresh d b →
  wp (split_subject own d subject_ref_ groups confidence evidence_ref inherit labels now)
     (performed own (splitted (strip subject_ref_) groups inherit) b) b.
Proof.
  intros Hok Hd. unfold split_subject. cbv zeta. fold (actor_groups groups). set (parts := actor_groups groups).
  wp_ok ref Href. apply bounded_ok in Href as [_ ->]. do 2 wp_step. wp_ok source Hsource.
  apply active_subject_ok in Hsource as [Hs Hact]. wp_guard Hparts. wp_guard Hrep. wp_guard Hpart. wp_guard Hinh.
  wp_ok c Hconf. wp_ok ev Hev. wp_ok current Hnow. wp_ok new Hnew. wp_ok t Ht.
  apply negb_false_iff, bool_decide_eq_true in Hrep, Hpart.
  assert (∀ id, id ∈ concat parts ↔ id ∈ link_ids source) as Hcover.
  { intros id. rewrite <- !(elem_of_list_to_set (C:=gset string)). by rewrite Hpart. }
  destruct (subject_known _ _ _ Hok Hs) as [(Hn & _) Hknown].
  apply new_subject_ok in Hn as (_ & _ & _ & Hnd & _).
  apply (split_groups_ok _ b _ (strip subject_ref_)) in Hnew as (Hnew & Hintro & Hrefs); [|done..|].
  2: { intros group id Hg Hid. apply Hcover, list_elem_of_In, in_concat. exists group.
       split; by apply list_elem_of_In. }
  apply new_transition_id in Ht as E. subst t. set (t := Build_SubjectTransition _ _ _ _ _ _ _) in *.
  eapply wp_mono.
  - apply transition_run; try done.
    intros ref Hin. cbn in Hin. apply list_elem_of_singleton in Hin as ->. exists source. split_and!; [done..|].
    intros id Hid. apply Hcover, list_elem_of_In, in_concat in Hid as (group & Hg & Hid).
    apply list_elem_of_In in Hg, Hid. apply list_elem_of_lookup in Hg as [i Hi].
    destruct (Forall2_lookup_l _ _ _ _ _ Hnew Hi) as (s & Hs' & Hids & _). exists s.
    split; [by eapply list_elem_of_lookup_2|]. by rewrite Hids.
  - intros [?|?] b'; [|done]. intros (b1 & Hstep & ->). exists b1. split; [|done].
    exists t, new, source. split_and!; [|done..|by apply NoDup_Permutation].
    destruct inherit as [i|]; [|done]. apply negb_false_iff, andb_true_iff in Hinh as [H0 H1].
    apply Z.leb_le in H0. apply Z.ltb_lt in H1.
    assert (subject_ref d (Z.to_nat i) = from_option s_subject_ref "" (new !! Z.to_nat i) ∧
            is_Some (new !! Z.to_nat i)) as [Hi [s Hsi]].
    { assert (Z.to_nat i < length parts)%nat as Hlt by lia.
      destruct (lookup_lt_is_Some_2 new (Z.to_nat i)) as [s Hsi].
      { by rewrite <- (Forall2_length _ _ _ Hnew). }
      rewrite Hsi. split; [|done]. cbn. apply (f_equal (.!! Z.to_nat i)) in Hrefs.
      rewrite !list_lookup_fmap, Hsi, lookup_seq_lt in Hrefs by done. cbn in Hrefs. by injection Hrefs. }
    rewrite Hsi in *. cbn in Hi |- *. by rewrite <- Hi.
Qed.

(** ** Linking *)

Definition linked_actor (ref actor : string) (confidence : Z) (b b' : RelationshipBook) : Prop :=
  change own b b' ∧ b_relationships b' = b_relationships b ∧ ∃ s s', b_subjects b !! ref = Some s ∧
    is_active s = true ∧ b_subjects b' = <[ref := s']> (b_subjects b) ∧ is_active s' = true ∧
    confidence_of actor s' = confidence ∧ (∀ id, id ∈ link_ids s' ↔ id = actor ∨ id ∈ link_ids s) ∧
    ∀ id, id ≠ actor → confidence_of id s' = confidence_of id s.
Lemma link_run d actor_id subject_ref_ confidence evidence_ref now b :
  book_ok own b → fresh d b →
  wp (link_actor own d actor_id subject_ref_ confidence evidence_ref now)
     (outcome own (linked_actor (strip subject_ref_) (strip actor_id) confidence) b) b.
Proof.
  intros Hok Hd. unfold link_actor.
  wp_ok actor Hactor. apply bounded_ok in Hactor as [_ ->]. wp_ok key Hkey. apply bounded_ok in Hkey as [_ ->].
  do 2 wp_step. wp_guard Hknown. apply bool_decide_eq_false in Hknown.
  do 2 wp_step. wp_ok s Hs. apply active_subject_ok in Hs as [Hs Hact].
  destruct (bo_subjects _ _ Hok _ _ Hs) as (Href & (Hn & Hlwf & Hlab & Hev0 & Hplain) & Hids).
  wp_ok c Hconf. apply confidence_ok in Hconf as [-> Hconf]. wp_ok ev Hev. apply bounded_ok in Hev as [Hev ->].
  wp_ok current Hnow. apply now_ok in Hnow as [-> Hnow]. wp_ok lrefs Hlrefs. apply link_refs_ok in Hlrefs.
  wp_ok l Hl. apply new_link_id in Hl as E. subst l. set (l := Build_SubjectActorLink _ _ _ _) in *.
  wp_ok refs Hrefs. wp_ok s' Hs'. apply new_subject_id in Hs' as E. subst s'.
  set (s' := Build_SubjectHypothesis _ _ _ _ _ _) in *. do 2 wp_step.
  destruct (b_actors b !! strip actor_id) as [a|] eqn:Ha; [|done].
  destruct (actor_entry_ok _ _ _ _ Hok Ha) as (Haid & (_ & _ & _ & Hid) & _). rewrite Haid in Hid.
  apply new_subject_ok in Hn as (Hsub & _). rewrite Href in Hsub.
  assert (∀ id, id ∈ link_ids s' ↔ id = strip actor_id ∨ id ∈ link_ids s) as Hids'.
  { intros id. unfold link_ids, s'. cbn [s_actor_links]. by rewrite put_link_ids. }
  apply wp_append; try done; [by right|by right|by apply texty_stripped|by apply details_linked|apply (fr_events _ _ Hd)|].
  intros v _ Hv. apply wp_save. right. eexists. split; [|done]. split_and!; [|done|exists s, s'; split_and!; try done].
  - refine (change_link own b _ s s' v Hs Hact _ _ _ _ _ Hv); [|done|done|..].
    + split_and!; [done|by apply put_link_Forall|done| |done].
      apply unique_ok in Hrefs as [Hrefs ->]. by apply texty_normal.
    + intros id Hid'. apply Hids'. by right.
    + intros id [->|Hid']%Hids'; [by rewrite Ha|by apply Hids].
  - unfold confidence_of, link_confidence, s'. cbn [s_actor_links]. rewrite find_put_link. cbn [l_actor_id l].
    by rewrite String.eqb_refl.
  - intros id Hne. unfold confidence_of, link_confidence, s'. cbn [s_actor_links]. rewrite find_put_link.
    cbn [l_actor_id l]. by destruct (String.eqb_spec (strip actor_id) id); [congruence|].
Qed.
End lineage.
