(* ===== verification/RelationFile.v ===== *)
(** The file of the relationship book (src/anet/relations.py [save] and [reload]): a consistent
    book passes [_validate_model], and loading what was saved gives the book back. *)
From S2P Require Import Prelude PyStr PyVal Codecs Locator ControlPlane RelationData RelationBook RelationLaws.

Section file.
Context {PL : Platform} {DG : Digests} {SG : Signatures} {UL : Urllib} (own : string).

(** ** [_validate_model] accepts consistent books *)

Lemma check_all_ok {A} (check : A → res unit) l : Forall (λ x, check x = Ok tt) l → check_all check l = Ok tt.
Proof.
  intros H. unfold check_all. assert (map_res check l = Ok ((λ _, tt) <$> l)) as ->; [|done].
  apply map_res_Forall2. induction H; by constructor.
Qed.
Lemma elem_of_values {V} (m : gmap string V) x : x ∈ values m ↔ ∃ k, m !! k = Some x.
Proof.
  unfold values. rewrite list_elem_of_fmap. split.
  - intros ([k y] & -> & H). exists k. by apply elem_of_map_to_list.
  - intros [k H]. exists (k, x). split; [done|]. by apply elem_of_map_to_list.
Qed.
Lemma validate_sources_ok subjects refs : ∀ met,
  NoDup (refs ++ met) → (∀ r, r ∈ refs → ∃ s, subjects !! r = Some s ∧ s_state s = "superseded") →
  validate_sources subjects met refs = Ok (rev_append refs met).
Proof.
  induction refs as [|r refs IH]; intros met Hnd Hs; cbn; [done|].
  apply NoDup_cons in Hnd as [Hr Hnd]. rewrite elem_of_app in Hr. rewrite bool_decide_false by tauto. cbn.
  destruct (Hs r) as (s & -> & E); [by left|]. cbn. rewrite E. cbn. apply IH.
  - apply NoDup_app in Hnd as (H1 & H2 & H3). apply NoDup_app. split_and!; [done| |].
    + intros x Hx [->|Hx']%elem_of_cons; [tauto|by eapply H2].
    + apply NoDup_cons. tauto.
  - intros x Hx. apply Hs. by right.
Qed.
Lemma validate_replacements_ok subjects refs : ∀ met,
  NoDup (refs ++ met) → (∀ r, r ∈ refs → is_Some (subjects !! r)) →
  validate_replacements subjects met refs = Ok (rev_append refs met).
Proof.
  induction refs as [|r refs IH]; intros met Hnd Hs; cbn; [done|].
  apply NoDup_cons in Hnd as [Hr Hnd]. rewrite elem_of_app in Hr. rewrite bool_decide_false by tauto. cbn.
  destruct (Hs r) as [s ->]; [by left|]. cbn. apply IH.
  - apply NoDup_app in Hnd as (H1 & H2 & H3). apply NoDup_app. split_and!; [done| |].
    + intros x Hx [->|Hx']%elem_of_cons; [tauto|by eapply H2].
    + apply NoDup_cons. tauto.
  - intros x Hx. apply Hs. by right.
Qed.
Lemma NoDup_three (l1 l2 met : list string) :
  NoDup ((l1 ++ l2) ++ met) → NoDup (l1 ++ met) ∧ NoDup (l2 ++ rev_append l1 met).
Proof.
  rewrite rev_append_rev. intros H. split.
  - rewrite <- app_assoc, (Permutation_app_comm l1), <- app_assoc in H. apply NoDup_app in H as (_ & _ & H).
    by rewrite Permutation_app_comm.
  - assert (l2 ++ rev l1 ++ met ≡ₚ (l1 ++ l2) ++ met) as E; [|by rewrite E].
    rewrite <- (Permutation_rev l1), app_assoc. by rewrite (Permutation_app_comm l2).
Qed.
Lemma validate_transitions_ok subjects ts : ∀ sources replacements,
  NoDup (concat (n_source_subject_refs <$> ts) ++ sources) →
  NoDup (concat (n_replacement_subject_refs <$> ts) ++ replacements) →
  (∀ r, r ∈ concat (n_source_subject_refs <$> ts) → ∃ s, subjects !! r = Some s ∧ s_state s = "superseded") →
  (∀ r, r ∈ concat (n_replacement_subject_refs <$> ts) → is_Some (subjects !! r)) →
  validate_transitions subjects sources replacements ts = Ok tt.
Proof.
  induction ts as [|t ts IH]; intros sources replacements H1 H2 H3 H4; cbn in *; [done|].
  apply NoDup_three in H1 as [H1 H1'], H2 as [H2 H2'].
  rewrite validate_sources_ok; [|done|intros r Hr; apply H3, elem_of_app; by left]. cbn.
  rewrite validate_replacements_ok; [|done|intros r Hr; apply H4, elem_of_app; by left]. cbn.
  apply IH; [done|done|intros r Hr; apply H3, elem_of_app; by right|intros r Hr; apply H4, elem_of_app; by right].
Qed.
(** The edges of the lineage *)
Lemma lineage_edges ts r c :
  c ∈ default [] (lineage_of ts !! r) → ∃ t, t ∈ ts ∧ r ∈ n_source_subject_refs t ∧ c ∈ n_replacement_subject_refs t.
Proof.
  unfold lineage_of. induction ts as [|t ts IH] using rev_ind; cbn; [by rewrite lookup_empty; intros ?%elem_of_nil|].
  rewrite foldl_app. cbn. set (m := foldl _ ∅ ts) in *.
  assert (∀ refs m', c ∈ default [] (foldl (λ (lineage : gmap string (list string)) r0,
      <[r0 := default [] (lineage !! r0) ++ n_replacement_subject_refs t]> lineage) m' refs !! r) →
    c ∈ default [] (m' !! r) ∨ (r ∈ refs ∧ c ∈ n_replacement_subject_refs t)) as Hfold.
  { induction refs as [|r0 refs IHr]; intros m' Hin; cbn in Hin; [by left|].
    apply IHr in Hin as [Hin|[Hr Hc]]; [|right; split; [by right|done]].
    destruct (decide (r0 = r)) as [->|Hne].
    - rewrite lookup_insert_eq in Hin. cbn in Hin. apply elem_of_app in Hin as [Hin|Hin]; [by left|right].
      split; [by left|done].
    - rewrite lookup_insert_ne in Hin by done. by left. }
  intros [Hin|[Hr Hc]]%Hfold.
  - destruct (IH Hin) as (t' & Ht' & H). exists t'. split; [apply elem_of_app; by left|done].
  - exists t. split; [apply elem_of_app; right; by left|done].
Qed.
(** A lineage whose edges ascend is searched without meeting a cycle or the recursion limit. *)
Lemma visit_ok (lineage : gmap string (list string)) (rank : string → nat) :
  (∀ r c, c ∈ default [] (lineage !! r) → (rank r < rank c)%nat) → ∀ fuel visiting visited r,
  (fuel + length visiting = 2 + size lineage)%nat → NoDup visiting →
  (∀ x, x ∈ visiting → is_Some (lineage !! x)) → (∀ x, x ∈ visiting → (rank x < rank r)%nat) →
  ∃ visited', visit fuel lineage visiting visited r = Ok visited'.
Proof.
  intros Hrank. induction fuel as [|fuel IH]; intros visiting visited r Hfuel Hnd Hdom Hr.
  { assert (length visiting ≤ size lineage)%nat; [|lia].
    rewrite <- size_dom, <- (size_list_to_set (C:=gset string) visiting) by done. apply subseteq_size.
    intros x Hx%elem_of_list_to_set. by apply elem_of_dom, Hdom. }
  cbn. rewrite bool_decide_false by (intros Hin; apply Hr in Hin; lia). cbn.
  destruct (decide (r ∈ visited)); [by eexists|].
  destruct (lineage !! r) as [children|] eqn:Hl; cbn; [|by eexists].
  assert (∀ c, c ∈ children → (rank r < rank c)%nat) as Hc by (intros c Hc; apply Hrank; by rewrite Hl).
  assert (∀ visited, ∃ visited', foldl (λ acc r', acc ≫= λ visited, visit fuel lineage (r :: visiting) visited r')
    (mret visited) children = Ok visited') as Hchildren.
  { assert (is_Some (lineage !! r)) as Hsome by (by rewrite Hl). clear Hl. induction children as [|c children IHc]; intros v; cbn; [by eexists|].
    destruct (IH (r :: visiting) v c) as [v' ->].
    - cbn. lia.
    - apply NoDup_cons. split; [|done]. intros Hin. apply Hr in Hin. lia.
    - intros x [->|Hx]%elem_of_cons; [done|by apply Hdom].
    - intros x [->|Hx]%elem_of_cons; [apply Hc; by left|].
      transitivity (rank r); [by apply Hr|apply Hc; by left].
    - apply IHc. intros x Hx. apply Hc. by right. }
  destruct (Hchildren visited) as [v ->]. by eexists.
Qed.
Lemma validate_lineage_ok subjects ts : lineage_ok subjects ts → validate_lineage ts = Ok tt.
Proof.
  intros [_ _ _ _ [rank Hrank]]. unfold validate_lineage. cbv zeta.
  assert (∀ r c, c ∈ default [] (lineage_of ts !! r) → (rank r < rank c)%nat) as Hedge.
  { intros r c (t & Ht & Hr & Hc)%lineage_edges. by eapply Hrank. }
  assert (∀ l visited, ∃ v, foldl (λ acc r, acc ≫= λ visited,
    visit (2 + size (lineage_of ts)) (lineage_of ts) [] visited r) (mret visited) l = Ok v) as Hall.
  { induction l as [|r l IH]; intros visited; cbn [foldl]; [by eexists|].
    destruct (visit_ok (lineage_of ts) rank Hedge (2 + size (lineage_of ts)) [] visited r) as [v Hv];
      [cbn; lia|by apply NoDup_nil_2|by intros x ?%elem_of_nil..|].
    change (mret visited ≫= _) with (visit (2 + size (lineage_of ts)) (lineage_of ts) [] visited r).
    rewrite Hv. apply IH. }
  by destruct (Hall (map_to_list (lineage_of ts)).*1 []) as [v ->].
Qed.
Lemma elem_of_linked l id : id ∈ linked l ↔ ∃ s, s ∈ l ∧ id ∈ link_ids s.
Proof.
  unfold linked. rewrite elem_of_list_to_set. induction l as [|s l IH]; cbn.
  - split; [by intros ?%elem_of_nil|]. by intros (s & ?%elem_of_nil & _).
  - rewrite elem_of_app, IH. split.
    + intros [H|(s' & Hs' & H)]; [exists s|exists s']; by (split; [constructor|]).
    + intros (s' & [->|Hs']%elem_of_cons & H); [by left|right; by exists s'].
Qed.
(** The decision ids are hashes: no two decided suggestions may share one. *)
Definition collision_free (b : RelationshipBook) : Prop :=
  ∀ x y, is_Some (b_suggestion_decisions b !! x) → is_Some (b_suggestion_decisions b !! y) →
    decision_id own x = decision_id own y → x = y.
Lemma decision_ids_distinct b :
  book_ok own b → collision_free b → NoDup (c_decision_id <$> values (b_suggestion_decisions b)).
Proof.
  intros Hok Hfree. unfold values. rewrite <- list_fmap_compose.
  apply NoDup_fmap_2_strong; [|apply NoDup_map_to_list].
  intros [x c] [y c'] Hc Hc' E. cbn in E. apply elem_of_map_to_list in Hc, Hc'.
  destruct (bo_decisions _ _ Hok _ _ Hc) as (_ & _ & E1 & _).
  destruct (bo_decisions _ _ Hok _ _ Hc') as (_ & _ & E2 & _).
  assert (x = y) as ->; [|congruence]. apply Hfree; [by rewrite Hc|by rewrite Hc'|congruence].
Qed.
Lemma then_ok {A} (m : res unit) (k r : res A) : m = Ok tt → k = r → (m;; k) = r.
Proof. by intros -> ->. Qed.
Lemma repeats_no l e : NoDup l → raise_if (repeats l) e = Ok tt.
Proof. intros H. unfold repeats. by rewrite bool_decide_true. Qed.
Lemma raise_unless b e : b = true → raise_if (negb b) e = Ok tt.
Proof. by intros ->. Qed.
Lemma validate_model_ok b :
  book_ok own b → collision_free b →
  _validate_model own (b_actors b) (b_subjects b) (b_relationships b) (b_events b) (b_interactions b)
    (b_transitions b) (b_suggestion_decisions b) = Ok tt.
Proof.
  intros Hok Hfree. unfold _validate_model.
  assert (∀ l, (∀ s, s ∈ l → s ∈ values (b_subjects b)) →
    (∀ id, is_Some (b_actors b !! id) → ∃ s, s ∈ l ∧ id ∈ link_ids s) → linked l = dom (b_actors b)) as Hlinked.
  { intros l Hl Hall. apply set_eq. intros id. rewrite elem_of_linked, elem_of_dom. split; [|by apply Hall].
    intros (s & Hs & Hid). apply Hl, elem_of_values in Hs as [k Hs].
    by apply (bo_subjects _ _ Hok _ _ Hs). }
  assert (linked (values (b_subjects b)) = dom (b_actors b)) as Hall.
  { apply Hlinked; [done|]. intros id (ref & s & Hs & _ & Hid)%(bo_active _ _ Hok). exists s.
    split; [|done]. apply elem_of_values. by exists ref. }
  rewrite (bo_own _ _ Hok).
  apply then_ok; [done|]. apply then_ok.
  { apply check_all_ok, Forall_forall. intros a [id Ha]%elem_of_values. apply raise_unless, forallb_forall.
    destruct (bo_actors _ _ Hok _ _ Ha) as (<- & _ & Hp). intros p Hin%list_elem_of_In.
    by apply (proj1 (Forall_forall _ _) Hp). }
  apply then_ok; [by apply raise_unless, bool_decide_true; rewrite Hall|].
  apply then_ok; [by apply raise_unless, bool_decide_true|]. apply then_ok.
  { apply raise_unless, bool_decide_true, Hlinked; [by intros s [_ Hs]%list_elem_of_filter|].
    intros id (ref & s & Hs & Hact & Hid)%(bo_active _ _ Hok). exists s. split; [|done].
    apply list_elem_of_filter. split; [done|]. apply elem_of_values. by exists ref. }
  apply then_ok.
  { apply raise_unless, bool_decide_true, set_eq. intros ref. rewrite !elem_of_dom.
    apply (bo_relationships _ _ Hok). }
  apply then_ok; [apply repeats_no, (bo_event_ids _ _ Hok)|]. apply then_ok.
  { apply check_all_ok, Forall_forall. intros i [id Hi]%elem_of_values.
    destruct (bo_interactions _ _ Hok _ _ Hi) as (_ & _ & [a Ha] & s & Hs & Hl). unfold validate_interaction.
    rewrite Ha, Hs. cbn. by rewrite bool_decide_false by (by intros Hn; apply Hn). }
  apply then_ok; [apply repeats_no, (bo_transition_ids _ _ Hok)|].
  destruct (bo_lineage _ _ Hok) as [H1 H2 H3 H4 H5]. apply then_ok.
  { apply validate_transitions_ok; rewrite ?app_nil_r; done. }
  apply then_ok; [eapply validate_lineage_ok, (bo_lineage _ _ Hok)|]. apply then_ok.
  { apply raise_unless, bool_decide_true, set_eq. intros id. rewrite elem_of_dom, elem_of_list_to_set, list_elem_of_fmap.
    split.
    - intros [c Hc]. exists c. split; [by destruct (bo_decisions _ _ Hok _ _ Hc)|].
      apply elem_of_values. by exists id.
    - intros (c & -> & [k Hc]%elem_of_values). destruct (bo_decisions _ _ Hok _ _ Hc) as (-> & _). by rewrite Hc. }
  apply then_ok; [by apply repeats_no, decision_ids_distinct|].
  assert (existsb (λ c, bool_decide (b_subjects b !! c_subject_ref c = None)) (values (b_suggestion_decisions b)) = false)
    as ->; [|done].
  apply not_true_iff_false. rewrite existsb_exists. intros (c & Hc%list_elem_of_In & Hn).
  apply elem_of_values in Hc as [k Hc]. destruct (bo_decisions _ _ Hok _ _ Hc) as (_ & _ & _ & [s Hs]).
  by rewrite Hs in Hn.
Qed.

(** ** Records through JSON *)

Lemma unique_strings k label maximum d l :
  dict_get_or (VList []) k d = strings l → Forall (texty maximum) l →
  unique_item k label maximum d = Ok (normal_refs l).
Proof.
  intros Hd Hl. unfold unique_item. rewrite Hd. cbn. rewrite <- list_fmap_compose.
  assert (py_str ∘ VStr <$> l = l) as -> by (by apply list_fmap_id). by apply unique_ok.
Qed.
Lemma items_list {A} (from : dict → res A) (to : A → dict) (norm : A → A) k d l :
  dict_get_or (VList []) k d = VList (VMap ∘ to <$> l) → Forall (λ x, from (to x) = Ok (norm x)) l →
  items_of from k d = Ok (norm <$> l).
Proof.
  intros Hd Hl. unfold items_of. rewrite Hd. cbn. clear Hd. apply map_res_Forall2.
  induction Hl as [|x l Hx _ IH]; cbn; [by apply List.Forall2_nil|by apply List.Forall2_cons].
Qed.
Lemma texts_strings k d l : dict_get_or (VList []) k d = strings l → texts_of k d = Ok l.
Proof.
  intros Hd. unfold texts_of. rewrite Hd. cbn. clear Hd. f_equal. induction l as [|x l IH]; cbn; [done|by rewrite IH].
Qed.
Lemma proof_roundtrip p : new_proof p = Ok p → proof_from_dict (proof_to_dict p) = Ok p.
Proof. by destruct p. Qed.
Definition norm_actor (a : ActorRecord) : ActorRecord :=
  {| a_actor_id := a_actor_id a; a_actor_kind := a_actor_kind a; a_actor_label := a_actor_label a;
     a_state := a_state a; a_proofs := order_by (tuple_key ∘ proof_key) (a_proofs a);
     a_evidence_refs := normal_refs (a_evidence_refs a); a_first_seen_ms := a_first_seen_ms a;
     a_updated_ms := a_updated_ms a |}.
Lemma new_actor_permuted a proofs refs :
  new_actor a = Ok a → proofs ≡ₚ a_proofs a →
  let a' := {| a_actor_id := a_actor_id a; a_actor_kind := a_actor_kind a; a_actor_label := a_actor_label a;
     a_state := a_state a; a_proofs := proofs; a_evidence_refs := refs; a_first_seen_ms := a_first_seen_ms a;
     a_updated_ms := a_updated_ms a |} in new_actor a' = Ok a'.
Proof.
  intros Hn Hp. unfold new_actor in *. cbn. res_inv. destruct x. rewrite E, E0. cbn.
  assert (bool_decide (proofs = []) = bool_decide (a_proofs a = [])) as ->.
  { apply bool_decide_ext. split; intros H; rewrite H in Hp; [by apply Permutation_nil in Hp|].
    by apply Permutation_nil_r in Hp. }
  assert (bool_decide (NoDup (proof_key <$> proofs)) = bool_decide (NoDup (proof_key <$> a_proofs a))) as ->.
  { apply bool_decide_ext. by rewrite Hp. }
  rewrite E1. cbn. by rewrite E2.
Qed.
Lemma actor_norm_wf a : actor_wf a → actor_wf (norm_actor a).
Proof.
  intros (Hn & Hp & He & Hid). split_and!; [|cbn; by rewrite order_by_Permutation|by apply texty_normal|done].
  apply new_actor_permuted; [done|]. apply order_by_Permutation.
Qed.
Lemma actor_roundtrip a : actor_wf a → actor_from_dict (actor_to_dict a) = Ok (norm_actor a).
Proof.
  intros Hwf. pose proof (actor_norm_wf a Hwf) as (Hn & _). destruct Hwf as (_ & Hp & He & _).
  unfold actor_from_dict.
  rewrite (items_list _ proof_to_dict id "proofs" (actor_to_dict a) (order_by (tuple_key ∘ proof_key) (a_proofs a)) eq_refl).
  2: { rewrite order_by_Permutation. eapply Forall_impl; [exact Hp|]. apply proof_roundtrip. }
  rewrite (unique_strings "evidence_refs" _ _ (actor_to_dict a) (a_evidence_refs a) eq_refl He), list_fmap_id. exact Hn.
Qed.
Definition norm_link (l : SubjectActorLink) : SubjectActorLink :=
  {| l_actor_id := l_actor_id l; l_confidence := l_confidence l;
     l_evidence_refs := normal_refs (l_evidence_refs l); l_updated_ms := l_updated_ms l |}.
Lemma link_norm_wf l : link_wf l → link_wf (norm_link l).
Proof. intros [Hn He]. split; [|by apply texty_normal]. revert Hn. unfold new_link. intros H. res_inv. cbn. 
  rewrite E, E0. cbn. by rewrite E1. Qed.
Lemma link_roundtrip l : link_wf l → link_from_dict (link_to_dict l) = Ok (norm_link l).
Proof.
  intros Hwf. pose proof (link_norm_wf l Hwf) as [Hn _]. destruct Hwf as [_ He]. unfold link_from_dict.
  rewrite (unique_strings "evidence_refs" _ _ (link_to_dict l) (l_evidence_refs l) eq_refl He). exact Hn.
Qed.
Definition norm_subject (s : SubjectHypothesis) : SubjectHypothesis :=
  {| s_subject_ref := s_subject_ref s; s_state := s_state s; s_labels := normal_refs (s_labels s);
     s_actor_links := norm_link <$> order_by (codes ∘ l_actor_id) (s_actor_links s);
     s_evidence_refs := normal_refs (s_evidence_refs s); s_updated_ms := s_updated_ms s |}.
Lemma norm_links links : l_actor_id <$> (norm_link <$> order_by (codes ∘ l_actor_id) links) ≡ₚ l_actor_id <$> links.
Proof. rewrite <- list_fmap_compose. by rewrite order_by_Permutation. Qed.
Lemma norm_link_ids s id : id ∈ link_ids (norm_subject s) ↔ id ∈ link_ids s.
Proof. unfold link_ids, norm_subject. cbn [s_actor_links]. by rewrite norm_links. Qed.
Lemma subject_norm_wf s : subject_wf s → subject_wf (norm_subject s).
Proof.
  intros (Hn & Hl & Hlab & He & Hplain). apply new_subject_ok in Hn as (H1 & H2 & H3 & H4 & H5).
  split_and!; [|cbn|by apply texty_normal..|done].
  - apply new_subject_make; try done.
    + cbn. intros E. apply (f_equal (fmap l_actor_id)) in E. pose proof (norm_links (s_actor_links s)) as Hp.
      rewrite E in Hp. apply Permutation_nil in Hp. by destruct (s_actor_links s).
    + unfold link_ids. cbn [s_actor_links norm_subject]. by rewrite norm_links.
  - apply Forall_fmap. rewrite order_by_Permutation. eapply Forall_impl; [exact Hl|]. apply link_norm_wf.
Qed.
Lemma subject_roundtrip s : subject_wf s → subject_from_dict (subject_to_dict s) = Ok (norm_subject s).
Proof.
  intros Hwf. pose proof (subject_norm_wf s Hwf) as (Hn & _). destruct Hwf as (_ & Hl & Hlab & He & _).
  unfold subject_from_dict.
  rewrite (unique_strings "labels" _ _ (subject_to_dict s) (s_labels s) eq_refl Hlab).
  rewrite (items_list _ link_to_dict norm_link "actor_links" (subject_to_dict s)
    (order_by (codes ∘ l_actor_id) (s_actor_links s)) eq_refl).
  2: { rewrite order_by_Permutation. eapply Forall_impl; [exact Hl|]. apply link_roundtrip. }
  rewrite (unique_strings "evidence_refs" _ _ (subject_to_dict s) (s_evidence_refs s) eq_refl He). exact Hn.
Qed.
Definition norm_trust (t : ContextTrust) : ContextTrust :=
  {| t_context := t_context t; t_estimate := t_estimate t; t_confidence := t_confidence t;
     t_evidence_refs := normal_refs (t_evidence_refs t); t_updated_ms := t_updated_ms t |}.
Lemma trust_norm_wf t : trust_wf t → trust_wf (norm_trust t).
Proof.
  intros [Hn He]. split; [|by apply texty_normal]. revert Hn. unfold new_trust. intros H. res_inv. cbn.
  rewrite E, E0, E1. cbn. by rewrite E2.
Qed.
Lemma trust_roundtrip t : trust_wf t → trust_from_dict (trust_to_dict t) = Ok (norm_trust t).
Proof.
  intros Hwf. pose proof (trust_norm_wf t Hwf) as [Hn _]. destruct Hwf as [_ He]. unfold trust_from_dict.
  rewrite (unique_strings "evidence_refs" _ _ (trust_to_dict t) (t_evidence_refs t) eq_refl He). exact Hn.
Qed.
Definition norm_estimate (r : RelationshipEstimate) : RelationshipEstimate :=
  {| r_subject_ref := r_subject_ref r; r_circle := r_circle r; r_state := r_state r;
     r_relationship_labels := normal_refs (r_relationship_labels r);
     r_relationship_confidence := r_relationship_confidence r;
     r_context_trust := norm_trust <$> order_by (codes ∘ t_context) (r_context_trust r);
     r_evidence_refs := normal_refs (r_evidence_refs r); r_updated_ms := r_updated_ms r |}.
Lemma estimate_norm_wf r : estimate_wf r → estimate_wf (norm_estimate r).
Proof.
  intros (Hn & Ht & Hlab & He). apply new_estimate_ok in Hn as (H1 & H2 & H3 & H4 & H5 & H6).
  split_and!; [|cbn|by apply texty_normal..].
  - apply new_estimate_make; try done. cbn. rewrite <- list_fmap_compose. by rewrite order_by_Permutation.
  - apply Forall_fmap. rewrite order_by_Permutation. eapply Forall_impl; [exact Ht|]. apply trust_norm_wf.
Qed.
Lemma estimate_roundtrip r : estimate_wf r → estimate_from_dict (estimate_to_dict r) = Ok (norm_estimate r).
Proof.
  intros Hwf. pose proof (estimate_norm_wf r Hwf) as (Hn & _). destruct Hwf as (_ & Ht & Hlab & He).
  unfold estimate_from_dict.
  rewrite (unique_strings "relationship_labels" _ _ (estimate_to_dict r) (r_relationship_labels r) eq_refl Hlab).
  rewrite (items_list _ trust_to_dict norm_trust "context_trust" (estimate_to_dict r)
    (order_by (codes ∘ t_context) (r_context_trust r)) eq_refl).
  2: { rewrite order_by_Permutation. eapply Forall_impl; [exact Ht|]. apply trust_roundtrip. }
  rewrite (unique_strings "evidence_refs" _ _ (estimate_to_dict r) (r_evidence_refs r) eq_refl He). exact Hn.
Qed.
Lemma event_roundtrip v : event_wf v → event_from_dict (event_to_dict v) = Ok v.
Proof.
  intros [Hn Hs]. unfold event_from_dict. cbn [event_to_dict].
  change (dict_get_or (VMap []) "details" _) with (VMap (prod_map VStr id <$> v_details v)). cbv iota beta.
  assert (prod_map py_str id <$> (prod_map VStr id <$> v_details v) = v_details v) as E.
  { rewrite <- list_fmap_compose. transitivity (id <$> v_details v); [|apply list_fmap_id].
    apply list_fmap_ext. by intros _ [k w] _. }
  assert (forallb (λ kv, plain_detail kv.2) (prod_map VStr id <$> v_details v) = true) as Hplain.
  { unfold new_event in Hn. cbv zeta in Hn. res_inv. bool_prop. apply forallb_forall. intros [k w] Hin.
    apply list_elem_of_In, list_elem_of_fmap in Hin as ([k' w'] & [= -> ->] & Hin).
    match goal with H : forallb _ (v_details v) = true |- _ => rewrite forallb_forall in H;
      apply (H (k', w')); by apply list_elem_of_In end. }
  rewrite Hplain. cbn [negb raise_if]. rewrite E, Hs. destruct v. exact Hn.
Qed.
Lemma decision_roundtrip c : new_decision c = Ok c → decision_from_dict (decision_to_dict c) = Ok c.
Proof. intros Hn. destruct c as [?? ? ? ? ? ? ? ? ? [e|] ? ?]; exact Hn. Qed.
Lemma interaction_roundtrip i : new_interaction i = Ok i → interaction_from_dict (interaction_to_dict i) = Ok i.
Proof.
  intros Hn. unfold interaction_from_dict.
  rewrite (texts_strings "facets" (interaction_to_dict i) (i_facets i) eq_refl). by destruct i.
Qed.
Lemma transition_roundtrip t : new_transition t = Ok t → transition_from_dict (transition_to_dict t) = Ok t.
Proof.
  intros Hn. unfold transition_from_dict.
  rewrite (texts_strings "source_subject_refs" (transition_to_dict t) (n_source_subject_refs t) eq_refl).
  rewrite (texts_strings "replacement_subject_refs" (transition_to_dict t) (n_replacement_subject_refs t) eq_refl).
  by destruct t.
Qed.

(** ** The whole book *)

Lemma lookup_keyed_by {A} (key : A → string) items k x :
  NoDup (key <$> items) → keyed_by key items !! k = Some x ↔ x ∈ items ∧ key x = k.
Proof.
  unfold keyed_by. induction items as [|y items IH] using rev_ind; cbn.
  - rewrite lookup_empty, elem_of_nil. intros _. split; [done|tauto].
  - intros Hnd. rewrite fmap_app in Hnd. apply NoDup_app in Hnd as (H1 & H2 & _).
    rewrite foldl_app. cbn. rewrite lookup_insert_Some, IH, elem_of_app, list_elem_of_singleton by done.
    split.
    + intros [[<- <-]|(Hne & Hin & Hk)]; auto.
    + intros [[Hin|Hin] Hk]; [|subst; by left]. right. split_and!; [|done|done]. intros E. apply (H2 (key x)).
      * apply list_elem_of_fmap. by exists x.
      * cbn. rewrite Hk, <- E. by left.
Qed.
Lemma lookup_pairs {V} (pairs : list (string * V)) k v :
  NoDup pairs.*1 → foldl (λ m kv, <[kv.1 := kv.2]> m) (∅ : gmap string V) pairs !! k = Some v ↔ (k, v) ∈ pairs.
Proof.
  induction pairs as [|[k' v'] pairs IH] using rev_ind; cbn.
  - rewrite lookup_empty, elem_of_nil. done.
  - rewrite fmap_app, NoDup_app. intros (H1 & H2 & _). rewrite foldl_app. cbn.
    rewrite lookup_insert_Some, IH, elem_of_app, list_elem_of_singleton by done. split.
    + intros [[<- <-]|[_ ?]]; auto.
    + intros [Hin|[= -> ->]]; [|by left]. right. split; [|done]. intros ->. apply (H2 k); [|by left].
      apply list_elem_of_fmap. by exists (k, v).
Qed.
Lemma elem_of_in_order {V} (m : gmap string V) x : x ∈ in_order m ↔ ∃ k, m !! k = Some x.
Proof.
  unfold in_order. rewrite list_elem_of_fmap. split.
  - intros ([k y] & -> & Hin). rewrite elem_of_order_by in Hin. exists k. by apply elem_of_map_to_list.
  - intros [k Hk]. exists (k, x). split; [done|]. rewrite elem_of_order_by. by apply elem_of_map_to_list.
Qed.
Lemma keyed_in_order {V} (key : V → string) (f : V → V) (m : gmap string V) :
  (∀ k x, m !! k = Some x → key (f x) = k) → keyed_by key (f <$> in_order m) = f <$> m.
Proof.
  intros Hkey.
  assert (NoDup (key <$> (f <$> in_order m))) as Hnd.
  { assert (key <$> (f <$> in_order m) = (order_by (codes ∘ fst) (map_to_list m)).*1) as ->.
    { unfold in_order. rewrite <- !list_fmap_compose. apply list_fmap_ext. intros i [k x] Hi. cbn.
      apply list_elem_of_lookup_2, elem_of_order_by, elem_of_map_to_list in Hi. by apply Hkey. }
    rewrite order_by_Permutation. apply NoDup_fst_map_to_list. }
  apply map_eq. intros k. apply option_eq. intros x. rewrite lookup_keyed_by, lookup_fmap, fmap_Some by done.
  rewrite list_elem_of_fmap. setoid_rewrite elem_of_in_order. split.
  - intros [(y & -> & k' & Hy) <-]. exists y. by rewrite (Hkey _ _ Hy).
  - intros (y & Hy & ->). split; [|by apply Hkey]. exists y. split; [done|]. by exists k.
Qed.
Lemma Forall_in_order {V} (P : V → Prop) (m : gmap string V) :
  (∀ k x, m !! k = Some x → P x) → Forall P (in_order m).
Proof. intros H. apply Forall_forall. intros x [k Hk]%elem_of_in_order. by eapply H. Qed.

(** A book as it is read back: the lists of evidence, labels, links and proofs in normal form *)
Definition normalized (b : RelationshipBook) : RelationshipBook :=
  Book (norm_actor <$> b_actors b) (norm_subject <$> b_subjects b) (norm_estimate <$> b_relationships b)
    (b_events b) (b_interactions b) (b_transitions b) (b_suggestion_decisions b) None.
Lemma lookup_norm {V} (f : V → V) (m : gmap string V) k y : (f <$> m) !! k = Some y ↔ ∃ x, m !! k = Some x ∧ y = f x.
Proof. rewrite lookup_fmap, fmap_Some. done. Qed.
Lemma some_norm {V} (f : V → V) (m : gmap string V) k : is_Some ((f <$> m) !! k) ↔ is_Some (m !! k).
Proof. by rewrite lookup_fmap, fmap_is_Some. Qed.
Lemma known_issuer_norm actors id p :
  known_issuer own (norm_actor <$> actors) id p = known_issuer own actors id p.
Proof. unfold known_issuer. do 2 f_equal. apply bool_decide_ext, some_norm. Qed.
Lemma normalized_ok b : book_ok own b → book_ok own (normalized b).
Proof.
  intros Hok. split; cbn.
  - by rewrite lookup_fmap, (bo_own _ _ Hok).
  - intros id y (a & Ha & ->)%lookup_norm. destruct (bo_actors _ _ Hok _ _ Ha) as (H1 & H2 & H3).
    split_and!; [done|by apply actor_norm_wf|]. cbn. rewrite order_by_Permutation.
    eapply Forall_impl; [exact H3|]. intros p. by rewrite known_issuer_norm.
  - intros ref y (s & Hs & ->)%lookup_norm. destruct (bo_subjects _ _ Hok _ _ Hs) as (H1 & H2 & H3).
    split_and!; [done|by apply subject_norm_wf|]. intros id Hid. apply (proj1 (norm_link_ids _ _)) in Hid. by apply (proj2 (some_norm _ _ _)), H3.
  - intros id Hid. apply (proj1 (some_norm _ _ _)) in Hid. destruct (bo_active _ _ Hok _ Hid) as (ref & s & Hs & Hact & Hl).
    exists ref, (norm_subject s). split_and!; [apply lookup_norm; by exists s|done|by apply (proj2 (norm_link_ids _ _))].
  - intros ref. rewrite !some_norm. apply (bo_relationships _ _ Hok).
  - intros ref y (r & Hr & ->)%lookup_norm. destruct (bo_estimates _ _ Hok _ _ Hr) as [H1 H2].
    split; [done|by apply estimate_norm_wf].
  - apply (bo_event_ids _ _ Hok).
  - apply (bo_events _ _ Hok).
  - intros id i Hi. destruct (bo_interactions _ _ Hok _ _ Hi) as (H1 & H2 & H3 & s & Hs & Hl).
    split_and!; [done|done|by apply (proj2 (some_norm _ _ _))|]. exists (norm_subject s).
    split; [apply lookup_norm; by exists s|by apply (proj2 (norm_link_ids _ _))].
  - apply (bo_transition_ids _ _ Hok).
  - apply (bo_transitions _ _ Hok).
  - destruct (bo_lineage _ _ Hok) as [H1 H2 H3 H4 H5]. split; [done|done| | |done].
    + intros r Hr. destruct (H3 r Hr) as (s & Hs & E). exists (norm_subject s). split; [|done].
      apply lookup_norm. by exists s.
    + intros r Hr. by apply (proj2 (some_norm _ _ _)), H4.
  - intros id c Hc. destruct (bo_decisions _ _ Hok _ _ Hc) as (H1 & H2 & H3 & H4). split_and!; [done..|].
    by apply (proj2 (some_norm _ _ _)).
Qed.
Lemma load_dict b :
  book_ok own b → load own (VMap (book_to_dict own b)) =
    (let n := normalized b in
     _validate_model own (b_actors n) (b_subjects n) (b_relationships n) (b_events n) (b_interactions n)
       (b_transitions n) (b_suggestion_decisions n);; mret n).
Proof.
  intros Hok. set (d := book_to_dict own b).
  assert (items_of (_actor_from_dict 7) "actors" d = Ok (norm_actor <$> in_order (b_actors b))) as E1.
  { apply (items_list _ actor_to_dict); [done|]. apply Forall_in_order. intros k a Ha.
    apply actor_roundtrip. by apply (bo_actors _ _ Hok _ _ Ha). }
  assert (items_of subject_from_dict "subjects" d = Ok (norm_subject <$> in_order (b_subjects b))) as E2.
  { apply (items_list _ subject_to_dict); [done|]. apply Forall_in_order. intros k s Hs.
    apply subject_roundtrip. by apply (bo_subjects _ _ Hok _ _ Hs). }
  assert (items_of estimate_from_dict "relationships" d = Ok (norm_estimate <$> in_order (b_relationships b))) as E3.
  { apply (items_list _ estimate_to_dict); [done|]. apply Forall_in_order. intros k r Hr.
    apply estimate_roundtrip. by apply (bo_estimates _ _ Hok _ _ Hr). }
  assert (items_of event_from_dict "events" d = Ok (id <$> b_events b)) as E4.
  { apply (items_list _ event_to_dict); [done|]. eapply Forall_impl; [apply (bo_events _ _ Hok)|].
    apply event_roundtrip. }
  assert (items_of interaction_from_dict "interactions" d = Ok (id <$> in_order (b_interactions b))) as E5.
  { apply (items_list _ interaction_to_dict); [done|]. apply Forall_in_order. intros k i Hi.
    apply interaction_roundtrip. by apply (bo_interactions _ _ Hok _ _ Hi). }
  assert (items_of transition_from_dict "subject_transitions" d = Ok (id <$> b_transitions b)) as E6.
  { apply (items_list _ transition_to_dict); [done|]. eapply Forall_impl; [apply (bo_transitions _ _ Hok)|].
    apply transition_roundtrip. }
  assert (items_of decision_from_dict "suggestion_decisions" d = Ok (id <$> in_order (b_suggestion_decisions b))) as E7.
  { apply (items_list _ decision_to_dict); [done|]. apply Forall_in_order. intros k c Hc.
    apply decision_roundtrip. by apply (bo_decisions _ _ Hok _ _ Hc). }
  unfold load. change (raw_dict (VMap d)) with (@Ok dict d). cbn [mbind res_bind].
  change (py_int (dict_get_or (VInt 0) "version" d)) with (@Ok Z 7). cbn [mbind res_bind].
  change (7 =? 1) with false. cbv iota. change (negb _) with false. cbn [raise_if mbind res_bind].
  rewrite E1, E2, E3, E4, E5, E6, E7. cbn [mbind res_bind].
  rewrite (keyed_in_order a_actor_id norm_actor) by (intros k x Hx; by apply (bo_actors _ _ Hok _ _ Hx)).
  rewrite (keyed_in_order s_subject_ref norm_subject) by (intros k x Hx; by apply (bo_subjects _ _ Hok _ _ Hx)).
  rewrite (keyed_in_order r_subject_ref norm_estimate) by (intros k x Hx; by apply (bo_estimates _ _ Hok _ _ Hx)).
  rewrite (keyed_in_order i_interaction_id id) by (intros k x Hx; by apply (bo_interactions _ _ Hok _ _ Hx)).
  rewrite (keyed_in_order c_suggestion_id id) by (intros k x Hx; by apply (bo_decisions _ _ Hok _ _ Hx)).
  by rewrite !list_fmap_id, !map_fmap_id.
Qed.
Lemma load_saved b :
  book_ok own b → collision_free b → load own (VMap (book_to_dict own b)) = Ok (normalized b).
Proof.
  intros Hok Hfree. rewrite load_dict by done. cbv zeta.
  by rewrite (validate_model_ok (normalized b) (normalized_ok b Hok) Hfree).
Qed.

(** ** Reading back twice changes nothing more *)

Lemma tuple_key_inj l l' : tuple_key l = tuple_key l' → l = l'.
Proof.
  assert (∀ s s' r r', codes s ++ -1 :: r = codes s' ++ -1 :: r' → s = s' ∧ r = r') as Hstep.
  { assert (∀ a, code a ≠ -1) as Hcode by (intros a; unfold code; lia).
    induction s as [|a s IH]; intros [|a' s'] r r' H; cbn in H.
    - by injection H.
    - injection H as H _. by destruct (Hcode a').
    - injection H as H _. by destruct (Hcode a).
    - injection H as Ha H. assert (a = a') as -> by (unfold code in Ha;
        rewrite <- (ascii_N_embedding a), <- (ascii_N_embedding a'); f_equal; lia).
      apply IH in H as [-> ->]. done. }
  unfold tuple_key. revert l'. induction l as [|s l IH]; intros [|s' l'] H; cbn in H; [done|..].
  - by destruct (codes s').
  - by destruct (codes s).
  - rewrite <- !app_assoc in H. apply Hstep in H as [-> H]. f_equal. by apply IH.
Qed.
Lemma order_by_again {A} (key : A → list Z) (l : list A) :
  StronglySorted (key_le key) l → (∀ a b, a ∈ l → b ∈ l → key a = key b → a = b) → order_by key l = l.
Proof.
  intros Hs Hinj. apply (StronglySorted_unique_strong (key_le key)); [|apply order_by_sorted|done|apply order_by_Permutation].
  intros a b Ha Hb Hab Hba. apply Hinj; [by rewrite <- (elem_of_order_by key)|done|by apply zlex_antisymm].
Qed.
Lemma order_by_fmap {A} (key : A → list Z) (f : A → A) (l : list A) :
  (∀ x, key (f x) = key x) → (∀ a b, a ∈ l → b ∈ l → key a = key b → a = b) →
  order_by key (f <$> order_by key l) = f <$> order_by key l.
Proof.
  intros Hf Hinj. apply order_by_again.
  - pose proof (order_by_sorted key l) as Hs. induction Hs as [|a m Hs IH Hall]; cbn; constructor; [done|].
    apply Forall_fmap. eapply Forall_impl; [exact Hall|]. intros b. unfold key_le. cbn. by rewrite !Hf.
  - intros a b (x & -> & Hx)%list_elem_of_fmap (y & -> & Hy)%list_elem_of_fmap. rewrite !Hf. intros E.
    rewrite elem_of_order_by in Hx, Hy. by rewrite (Hinj x y).
Qed.
Lemma NoDup_key_inj {A K} (key : A → K) l a b : NoDup (key <$> l) → a ∈ l → b ∈ l → key a = key b → a = b.
Proof.
  intros Hnd Ha Hb E. apply list_elem_of_lookup in Ha as [i Hi], Hb as [j Hj].
  assert (i = j) as ->; [|congruence].
  eapply (NoDup_lookup (key <$> l)); [done|rewrite list_lookup_fmap, Hi; simpl; done|].
  rewrite list_lookup_fmap, Hj. simpl. congruence.
Qed.
Lemma norm_actor_idemp a : actor_wf a → norm_actor (norm_actor a) = norm_actor a.
Proof.
  intros (Hn & _). unfold norm_actor. cbn [a_actor_id a_actor_kind a_actor_label a_state a_proofs a_evidence_refs
    a_first_seen_ms a_updated_ms]. rewrite normal_refs_idemp. f_equal.
  rewrite <- (list_fmap_id (order_by _ (a_proofs a))) at 1. rewrite order_by_fmap, list_fmap_id; [done|done|].
  intros p q Hp Hq E%tuple_key_inj. unfold new_actor in Hn. res_inv. bool_prop. by eapply NoDup_key_inj.
Qed.
Lemma norm_link_idemp l : norm_link (norm_link l) = norm_link l.
Proof. unfold norm_link. cbn [l_evidence_refs]. by rewrite normal_refs_idemp. Qed.
Lemma norm_trust_idemp t : norm_trust (norm_trust t) = norm_trust t.
Proof. unfold norm_trust. cbn [t_evidence_refs]. by rewrite normal_refs_idemp. Qed.
Lemma fmap_idemp {A} (f : A → A) (l : list A) : (∀ x, f (f x) = f x) → f <$> (f <$> l) = f <$> l.
Proof. intros H. rewrite <- list_fmap_compose. apply list_fmap_ext. intros _ x _. apply H. Qed.
Lemma norm_subject_idemp s : subject_wf s → norm_subject (norm_subject s) = norm_subject s.
Proof.
  intros (Hn & _). apply new_subject_ok in Hn as (_ & _ & _ & Hnd & _). unfold norm_subject.
  cbn [s_subject_ref s_state s_labels s_actor_links s_evidence_refs s_updated_ms].
  rewrite !normal_refs_idemp. f_equal. rewrite order_by_fmap; [by apply fmap_idemp, norm_link_idemp|done|].
  intros l l' Hl Hl' E%codes_inj. by eapply NoDup_key_inj.
Qed.
Lemma norm_estimate_idemp r : estimate_wf r → norm_estimate (norm_estimate r) = norm_estimate r.
Proof.
  intros (Hn & _). apply new_estimate_ok in Hn as (_ & _ & _ & _ & Hnd & _). unfold norm_estimate.
  cbn [r_subject_ref r_circle r_state r_relationship_labels r_relationship_confidence r_context_trust r_evidence_refs
    r_updated_ms].
  rewrite !normal_refs_idemp. f_equal. rewrite order_by_fmap; [by apply fmap_idemp, norm_trust_idemp|done|].
  intros t t' Ht Ht' E%codes_inj. by eapply NoDup_key_inj.
Qed.
Lemma normalized_idemp b : book_ok own b → normalized (normalized b) = normalized b.
Proof.
  intros Hok. unfold normalized. cbn. f_equal; apply map_eq; intros k; rewrite !lookup_fmap.
  - destruct (b_actors b !! k) as [a|] eqn:E; [|done]. cbn. f_equal. apply norm_actor_idemp.
    by apply (bo_actors _ _ Hok _ _ E).
  - destruct (b_subjects b !! k) as [s|] eqn:E; [|done]. cbn. f_equal. apply norm_subject_idemp.
    by apply (bo_subjects _ _ Hok _ _ E).
  - destruct (b_relationships b !! k) as [r|] eqn:E; [|done]. cbn. f_equal. apply norm_estimate_idemp.
    by apply (bo_estimates _ _ Hok _ _ E).
Qed.
End file.
