(* ===== verification/RelationHistory.v ===== *)
(** Histories of the relationship book (src/anet/relations.py): confirmed and withdrawn
    relationships, every operation as a step, and what holds along any sequence of them. *)
From S2P Require Import Prelude PyStr PyVal Codecs Locator ControlPlane RelationData RelationBook RelationLaws RelationRun RelationJudge RelationLineage RelationFile.

Section history.
Context {PL : Platform} {DG : Digests} {SG : Signatures} {UL : Urllib} (own : string).

(** ** Saved changes *)

Definition commit (b b' : RelationshipBook) : Prop := ∃ b1, changes own b b1 ∧ b' = stored own b1.
Definition commits : relation RelationshipBook := rtc commit.
Lemma changes_ok b b' : changes own b b' → book_ok own b → book_ok own b'.
Proof. induction 1 as [|b b1 b' Hc _ IH]; [done|]. intros Hok. by eapply IH, change_ok. Qed.
Lemma file_ok file b : book_ok own b → book_ok own (set_file file b).
Proof. by intros []. Qed.
Lemma stored_ok b : book_ok own b → book_ok own (stored own b).
Proof. apply file_ok. Qed.
Lemma commit_ok b b' : commit b b' → book_ok own b → book_ok own b'.
Proof. intros (b1 & Hc & ->) Hok. by eapply stored_ok, changes_ok. Qed.
Lemma commits_ok b b' : commits b b' → book_ok own b → book_ok own b'.
Proof. induction 1 as [|b b1 b' Hc _ IH]; [done|]. intros Hok. by eapply IH, commit_ok. Qed.
Lemma outcome_commits {A} (R : relation RelationshipBook) b (r : res A) b' :
  (∀ b1, R b b1 → changes own b b1) → outcome own R b r b' → commits b b'.
Proof.
  intros HR. destruct r; cbn; [|by intros ->]. intros [->|(b1 & H & ->)]; [done|].
  apply rtc_once. exists b1. split; [by apply HR|done].
Qed.

(** ** Circles *)

Definition circle_rank (circle : string) : nat :=
  match circle_index circle with Ok n => n | Err _ => O end.
Lemma closer_rank existing circle c :
  closer_circle existing circle = Ok c → circle_rank c = Nat.max (circle_rank existing) (circle_rank circle).
Proof.
  unfold closer_circle, circle_rank. destruct (circle_index existing) as [i|] eqn:Ei; [|done].
  destruct (circle_index circle) as [j|] eqn:Ej; [|done]. cbn. intros [= <-].
  destruct (Nat.leb_spec j i); [rewrite Ei|rewrite Ej]; lia.
Qed.
(** No relationship is lost or moves away from the observer. *)
Definition not_lowered (b b' : RelationshipBook) : Prop :=
  ∀ ref r, b_relationships b !! ref = Some r →
    ∃ r', b_relationships b' !! ref = Some r' ∧ (circle_rank (r_circle r) ≤ circle_rank (r_circle r'))%nat.
#[local] Instance not_lowered_preorder : PreOrder not_lowered.
Proof.
  split; [intros b ref r Hr; by exists r|]. intros b1 b2 b3 H12 H23 ref r Hr.
  destruct (H12 _ _ Hr) as (r2 & Hr2 & Hle). destruct (H23 _ _ Hr2) as (r3 & Hr3 & Hle').
  exists r3. split; [done|lia].
Qed.
Lemma observes_not_lowered d b b' : observes own d b b' → not_lowered b b'.
Proof. intros (_ & H & _) ref r Hr. exists r. split; [by apply H|done]. Qed.
Lemma circle_set_not_lowered ref circle c b b' r :
  circle_set own ref circle c b b' → b_relationships b !! ref = Some r →
  (circle_rank (r_circle r) ≤ circle_rank circle)%nat → not_lowered b b'.
Proof.
  intros ((_ & _ & _ & _ & _ & Hother) & r0 & r1 & Hr0 & Hr1 & Hj) Hr Hle ref' x Hx.
  destruct (decide (ref' = ref)) as [->|Hne].
  - exists r1. split; [done|]. assert (x = r) as -> by congruence. by injection Hj as ->.
  - exists x. by rewrite Hother.
Qed.

(** ** Confirmed and withdrawn relationships *)

(** What a confirmation may leave: nothing new, the observation alone or the whole *)
Definition confirmed (b b' : RelationshipBook) : Prop := commits b b' ∧ not_lowered b b'.
Lemma confirmed_refl b : confirmed b b.
Proof. split; [done|reflexivity]. Qed.
Lemma stored_confirmed d b b' : observes own d b b' → confirmed b (stored own b').
Proof.
  intros H. split; [apply rtc_once; exists b'; split; [by destruct H|done]|].
  transitivity b'; [by eapply observes_not_lowered|]. intros ref r Hr. by exists r.
Qed.
Lemma observed_confirmed d b r b' : observed own d b r b' → confirmed b b'.
Proof.
  intros [H _]. destruct r; cbn in H; [|subst; apply confirmed_refl].
  destruct H as [->|(b1 & H & ->)]; [apply confirmed_refl|by eapply stored_confirmed].
Qed.
Lemma observed_next d b r b' :
  fresh d b → observed own d b r b' → event_id d 1 ∉ v_event_id <$> b_events b'.
Proof.
  intros Hd [H _]. assert (b' = b ∨ ∃ v, b_events b' = b_events b ++ [v] ∧ v_event_id v = event_id d 0) as Hev.
  { destruct r; cbn in H; [|by left]. destruct H as [->|(b1 & (_ & _ & _ & Hv) & ->)]; [by left|by right]. }
  destruct Hev as [->|(v & -> & Hid)]; [apply (fr_events _ _ Hd)|].
  rewrite fmap_app, elem_of_app. cbn. rewrite list_elem_of_singleton, Hid. intros [H1|H1].
  - by apply (fr_events _ _ Hd 1).
  - by apply (fr_event_tokens _ _ Hd) in H1.
Qed.
Lemma projected_run error id b (Q : res RelationshipRecord → RelationshipBook → Prop) :
  (∀ r, Q r b) → wp (projected error id) Q b.
Proof.
  intros HQ. unfold projected. do 3 wp_step. apply wp_lift; intros r Hr; [|apply HQ]. cbv beta iota.
  apply wp_lift; intros; apply HQ.
Qed.
Lemma set_circle_confirmed d s circle evidence labels now b r :
  book_ok own b → event_id d 1 ∉ v_event_id <$> b_events b → strip (s_subject_ref s) = s_subject_ref s →
  b_relationships b !! s_subject_ref s = Some r → (circle_rank (r_circle r) ≤ circle_rank circle)%nat →
  wp (set_circle own d 1 (s_subject_ref s) circle 100 evidence labels now)
     (λ _ : res RelationshipEstimate, confirmed b) b.
Proof.
  intros Hok Hev Hstrip Hr Hle. eapply wp_mono; [by apply set_circle_run|]. rewrite Hstrip. intros [x|e] b'; cbn.
  - intros [->|(b1 & H & ->)]; [apply confirmed_refl|]. split.
    + apply rtc_once. exists b1. split; [by destruct H as ((? & _) & _)|done].
    + transitivity b1; [by eapply circle_set_not_lowered|]. intros ref y Hy. by exists y.
  - intros ->. apply confirmed_refl.
Qed.
Lemma confirmed_trans b b1 b2 : confirmed b b1 → confirmed b1 b2 → confirmed b b2.
Proof. intros [H1 H2] [H3 H4]. split; by etrans. Qed.
(** The part that both confirmations share *)
Lemma raise_circle_run d card evidence circle labels error now b :
  book_ok own b → fresh d b →
  wp (s ← observe_actor own d card evidence 50 now;
      existing ← gets (λ b, b_relationships b !! s_subject_ref s);
      r ← lift (of_option (KeyError (s_subject_ref s)) existing);
      c ← lift (closer_circle (r_circle r) circle);
      set_circle own d 1 (s_subject_ref s) c 100 evidence labels now;;
      projected error (k_node_id card)) (λ _, confirmed b) b.
Proof.
  intros Hok Hd. apply wp_bind. eapply wp_mono; [by apply observe_actor_run|]. intros r0 b1 Hobs.
  pose proof (observed_confirmed _ _ _ _ Hobs) as H1. pose proof (observed_next _ _ _ _ Hd Hobs) as Hev.
  destruct r0 as [s|e]; [|done]. destruct Hobs as [_ Hs]. specialize (Hs s eq_refl).
  assert (book_ok own b1) as Hok1 by (by eapply commits_ok; [apply H1|]).
  do 3 wp_step. apply wp_lift; intros r Hr; [|done]. cbv beta iota. apply of_option_ok in Hr.
  wp_step. apply wp_lift; intros c Hc; [|done]. cbv beta iota. apply closer_rank in Hc.
  apply wp_bind. eapply wp_mono.
  - apply (set_circle_confirmed d s c evidence labels now b1 r); [done|done| |done|lia].
    destruct (bo_subjects _ _ Hok1 _ _ Hs) as (_ & (_ & _ & _ & _ & Hplain) & _). done.
  - intros x b2 H2. assert (confirmed b b2) as H by (by eapply confirmed_trans).
    destruct x; [|done]. by apply projected_run.
Qed.
Lemma confirm_friend_run d card evidence now b :
  book_ok own b → fresh d b → wp (confirm_friend own d card evidence now) (λ _, confirmed b) b.
Proof.
  intros Hok Hd. unfold confirm_friend. wp_step. apply wp_lift; intros c Hc; [|apply confirmed_refl].
  cbv beta iota. by apply raise_circle_run.
Qed.
Lemma confirm_mutual_run d card circle evidence labels now b :
  book_ok own b → fresh d b →
  wp (confirm_mutual_relationship own d card circle evidence labels now) (λ _, confirmed b) b.
Proof.
  intros Hok Hd. unfold confirm_mutual_relationship.
  wp_step. apply wp_lift_raise_if; intros Hcircle; [apply confirmed_refl|]. cbv beta iota.
  wp_step. apply wp_lift; intros current Hnow; [|apply confirmed_refl]. cbv beta iota. do 2 wp_step.
  apply wp_bind. eapply wp_mono with (P := λ _ b', b' = b).
  - destruct (primary_subject (k_node_id card) b) as [s|]; [|by wp_step].
    do 3 wp_step. apply wp_lift; intros r Hr; [|done]. cbv beta iota. by wp_step.
  - intros [known|e] b' ->; [|apply confirmed_refl]. destruct known.
    + apply projected_run. intros _. apply confirmed_refl.
    + by apply raise_circle_run.
Qed.
(** Nothing but observations was saved. *)
Definition kept (b b' : RelationshipBook) : Prop :=
  commits b b' ∧ (∀ ref r, b_relationships b !! ref = Some r → b_relationships b' !! ref = Some r) ∧
  ∀ ref r, b_relationships b' !! ref = Some r → b_relationships b !! ref = Some r ∨ unjudged r.
Lemma kept_refl b : kept b b.
Proof. split_and!; [done|done|by left]. Qed.
Lemma same_kept b b' : commits b b' → b_relationships b' = b_relationships b → kept b b'.
Proof. intros Hc E. split_and!; [done|by rewrite E|rewrite E; by left]. Qed.
Lemma outcome_kept {A} d b (r : res A) b' : outcome own (observes own d) b r b' → kept b b'.
Proof.
  destruct r; cbn; [|intros ->; apply kept_refl]. intros [->|(b1 & (H1 & H2 & H3 & _) & ->)]; [apply kept_refl|].
  split_and!; [apply rtc_once; by exists b1|done..].
Qed.
Lemma withdrawal_run d card claim_id actor evidence_ref now b :
  book_ok own b → fresh d b →
  wp (record_mutual_relationship_withdrawal own d card claim_id actor evidence_ref now) (λ _, kept b) b.
Proof.
  intros Hok Hd. unfold record_mutual_relationship_withdrawal.
  wp_step. apply wp_lift; intros u Hcard; [|apply kept_refl]. cbv beta iota.
  wp_step. apply wp_lift; intros current Hnow; [|apply kept_refl]. cbv beta iota. apply now_ok in Hnow as [-> Hnow].
  wp_step. apply wp_lift; intros ev Hev; [|apply kept_refl]. cbv beta iota. apply bounded_ok in Hev as [Hev ->].
  do 2 wp_step. apply wp_bind. eapply wp_mono with (P := λ r b1,
    kept b b1 ∧ (event_id d 1 ∉ v_event_id <$> b_events b1) ∧ ∀ s, r = Ok s → b_subjects b1 !! s_subject_ref s = Some s).
  - destruct (primary_subject (k_node_id card) b) as [s|] eqn:Hs.
    + wp_step. split_and!; [apply kept_refl|apply (fr_events _ _ Hd)|].
      intros ? [= <-]. by apply (primary_spec _ _ _ _ Hok Hs).
    + eapply wp_mono; [by apply observe_actor_run|]. intros r b1 Hobs.
      pose proof (observed_next _ _ _ _ Hd Hobs) as Hnext. destruct Hobs as [Hobs Hret].
      split_and!; [by eapply outcome_kept|done..].
  - intros [s|e] b1 (Hkept & Hnext & Hs); [|done]. pose proof Hkept as (Hc & H1 & H2). specialize (Hs s eq_refl).
    assert (book_ok own b1) as Hok1 by (by eapply commits_ok). do 2 wp_step.
    apply wp_bind. destruct (existsb _ (b_events b1)); [wp_step; by apply projected_run|].
    assert (is_actor_id (k_node_id card) = true) as Hid by (by eapply card_actor_id).
    destruct (bo_subjects _ _ Hok1 _ _ Hs) as (_ & (Hn & _) & _). apply new_subject_ok in Hn as (Hsub & _).
    apply wp_append; try done; [by right|by right|by apply texty_stripped|by apply details_withdrawn|].
    intros v _ Hv. unfold wp at 1. cbn. apply projected_run. intros _. split_and!; [|done..].
    eapply rtc_r; [exact Hc|]. exists (logged v b1). split; [|done]. by apply rtc_once, change_event.
Qed.

(** ** Every operation as a step *)

Inductive book_call :=
  | ObserveTyped (o : ActorObservation) (confidence now : Z)
  | ObserveCard (card : PeerCard) (evidence_ref : string) (confidence now : Z)
  | RecordInteraction (i : InteractionEvidence)
  | RevokeActor (actor_id evidence_ref : string) (now : Z)
  | LinkActor (actor_id subject_ref : string) (confidence : Z) (evidence_ref : string) (now : Z)
  | SupersedeSubject (subject_ref : string) (confidence : Z) (evidence_ref : string) (labels : list string) (now : Z)
  | MergeSubjects (subject_refs : list string) (confidence : Z) (evidence_ref inherit_subject_ref : string)
      (labels : list string) (now : Z)
  | SplitSubject (subject_ref : string) (groups : list (list string)) (confidence : Z) (evidence_ref : string)
      (inherit_group : option Z) (labels : list string) (now : Z)
  | SetCircle (subject_ref circle : string) (confidence : Z) (evidence_ref : string) (labels : list string) (now : Z)
  | SetContextTrust (subject_ref context : string) (estimate confidence : Z) (evidence_ref : string) (now : Z)
  | EndRelationship (subject_ref evidence_ref : string) (now : Z)
  | PauseRelationship (subject_ref evidence_ref : string) (now : Z)
  | DecideSuggestion (suggestion : dict) (outcome rationale : string) (now : Z)
  | ConfirmFriend (card : PeerCard) (evidence_ref : string) (now : Z)
  | ConfirmMutual (card : PeerCard) (circle evidence_ref : string) (labels : list string) (now : Z)
  | RecordWithdrawal (card : PeerCard) (claim_id actor_id evidence_ref : string) (now : Z)
  | Reload.
Definition run_call (d : draws) (c : book_call) : BM unit :=
  match c with
  | ObserveTyped o confidence now => observe_typed_actor own d o confidence now;; mret tt
  | ObserveCard card evidence confidence now => observe_actor own d card evidence confidence now;; mret tt
  | RecordInteraction i => record_interaction own d i;; mret tt
  | RevokeActor actor evidence now => revoke_actor own d actor evidence now;; mret tt
  | LinkActor actor subject confidence evidence now => link_actor own d actor subject confidence evidence now;; mret tt
  | SupersedeSubject subject confidence evidence labels now =>
      supersede_subject own d subject confidence evidence labels now;; mret tt
  | MergeSubjects subjects confidence evidence inherit labels now =>
      merge_subjects own d subjects confidence evidence inherit labels now;; mret tt
  | SplitSubject subject groups confidence evidence inherit labels now =>
      split_subject own d subject groups confidence evidence inherit labels now;; mret tt
  | SetCircle subject circle confidence evidence labels now =>
      set_circle own d 0 subject circle confidence evidence labels now;; mret tt
  | SetContextTrust subject context estimate confidence evidence now =>
      set_context_trust own d subject context estimate confidence evidence now;; mret tt
  | EndRelationship subject evidence now => end_relationship own d subject evidence now;; mret tt
  | PauseRelationship subject evidence now => pause_relationship own d subject evidence now;; mret tt
  | DecideSuggestion suggestion outcome rationale now =>
      decide_suggestion own d suggestion outcome rationale now;; mret tt
  | ConfirmFriend card evidence now => confirm_friend own d card evidence now;; mret tt
  | ConfirmMutual card circle evidence labels now =>
      confirm_mutual_relationship own d card circle evidence labels now;; mret tt
  | RecordWithdrawal card claim actor evidence now =>
      record_mutual_relationship_withdrawal own d card claim actor evidence now;; mret tt
  | Reload => reload own
  end.
(** Arguments that are objects were made by their constructors; the actor id of an observation
    has no blanks around it, which its constructor does not check ([RelationSamples.padded_run]). *)
Definition built (c : book_call) : Prop :=
  match c with
  | ObserveTyped o _ _ => observation_built o
  | RecordInteraction i => new_interaction i = Ok i
  | _ => True
  end.
Definition book_step (b b' : RelationshipBook) : Prop :=
  ∃ d c r, fresh d b ∧ built c ∧ run_call d c b = (r, b').
(** Calls that commit once, at the end *)
Definition single (c : book_call) : Prop :=
  match c with ConfirmFriend _ _ _ | ConfirmMutual _ _ _ _ _ | RecordWithdrawal _ _ _ _ _ | Reload => False | _ => True end.
Lemma wp_ignore {A} (R : relation RelationshipBook) (m : BM A) b0 b :
  wp m (outcome own R b0) b → wp (m;; mret tt) (outcome own R b0) b.
Proof. intros H. apply wp_bind. eapply wp_mono; [exact H|]. by intros [x|e] b'. Qed.
Lemma outcome_mono {A} (R R' : relation RelationshipBook) b (r : res A) b' :
  (∀ b1, R b b1 → R' b b1) → outcome own R b r b' → outcome own R' b r b'.
Proof. intros HR. destruct r; cbn; [|done]. intros [->|(b1 & H & ->)]; [by left|right; exists b1; eauto]. Qed.
Lemma wp_outcome {A} (R R' : relation RelationshipBook) (m : BM A) b :
  wp m (outcome own R b) b → (∀ b1, R b b1 → R' b b1) → wp (m;; mret tt) (outcome own R' b) b.
Proof. intros H HR. apply wp_ignore. eapply wp_mono; [exact H|]. intros r b'. by apply outcome_mono. Qed.
Lemma single_run d c b :
  book_ok own b → fresh d b → built c → single c → wp (run_call d c) (outcome own (changes own) b) b.
Proof.
  intros Hok Hd Hb Hs. destruct c; try done; cbn [run_call].
  - eapply wp_outcome; [eapply wp_mono; [by apply observe_typed_run|by intros r b' [H _]]|by intros b1 [? _]].
  - eapply wp_outcome; [eapply wp_mono; [by apply observe_actor_run|by intros r b' [H _]]|by intros b1 [? _]].
  - eapply wp_outcome; [by apply record_interaction_run|by intros b1 [? _]].
  - eapply wp_outcome; [by apply revoke_actor_run|by intros b1 [? _]].
  - eapply wp_outcome; [by apply link_run|]. intros b1 [H _]. by apply rtc_once.
  - eapply wp_outcome; [eapply wp_mono; [by apply supersede_run|intros r b'; apply performed_outcome]|]. intros b1 (t & s & s' & H & _). by apply rtc_once, H.
  - eapply wp_outcome; [eapply wp_mono; [by apply merge_run|intros r b'; apply performed_outcome]|]. intros b1 (t & s' & H & _). by apply rtc_once, H.
  - eapply wp_outcome; [eapply wp_mono; [by apply split_run|intros r b'; apply performed_outcome]|]. intros b1 (t & s & s' & H & _). by apply rtc_once, H.
  - eapply wp_outcome; [by apply set_circle_run, fr_events|]. by intros b1 ((? & _) & _).
  - eapply wp_outcome; [by apply set_context_trust_run|]. by intros b1 ((? & _) & _).
  - eapply wp_outcome; [apply set_state_run; [done..|by left]|]. by intros b1 ((? & _) & _).
  - eapply wp_outcome; [apply set_state_run; [done..|by right]|]. by intros b1 ((? & _) & _).
  - eapply wp_outcome; [eapply wp_mono; [by apply decide_suggestion_run|by intros r b' [H _]]|].
    by intros b1 ((? & _) & _).
Qed.

(** ** The invariant of memory and file *)

Definition sound (b : RelationshipBook) : Prop :=
  book_ok own b ∧ match b_file b with
                  | None => b = new_book
                  | Some v => ∃ b0, book_ok own b0 ∧ v = VMap (book_to_dict own b0) ∧ normalized b0 = normalized b
                  end.
Lemma new_book_sound : sound new_book.
Proof. split; [apply new_book_ok|done]. Qed.
Lemma stored_sound b : book_ok own b → sound (stored own b).
Proof. intros Hok. split; [by apply stored_ok|]. by exists b. Qed.
Lemma commits_sound b b' : commits b b' → sound b → sound b'.
Proof.
  induction 1 as [|b b1 b' Hc _ IH]; [done|]. intros [Hok _]. apply IH.
  destruct Hc as (b2 & Hc & ->). by eapply stored_sound, changes_ok.
Qed.
(** [reload] changes nothing but the normal form of the lists; it can fail only when two decisions
    share an id. *)
Definition reloaded (b b' : RelationshipBook) : Prop := b' = set_file (b_file b) (normalized b).
Lemma new_book_normal : set_file None (normalized new_book) = new_book.
Proof. unfold normalized, new_book, set_file. cbn. by rewrite !fmap_empty. Qed.
Lemma reload_run b :
  sound b → wp (reload own) (λ r b', match r with
                                    | Ok _ => reloaded b b'
                                    | Err _ => b' = b ∧ ¬ collision_free own b
                                    end) b.
Proof.
  intros [Hok Hf]. unfold reload. do 2 wp_step. unfold reloaded. destruct (b_file b) as [v|] eqn:E.
  - destruct Hf as (b0 & Hok0 & -> & Hn). wp_step. apply wp_lift.
    + intros b1 Hb1. cbv beta iota. wp_step. rewrite (load_dict own b0 Hok0) in Hb1. cbv zeta in Hb1. res_inv.
      by rewrite <- Hb1, Hn.
    + intros e He. split; [done|]. intros Hfree. rewrite load_saved in He; [done|done|].
      apply (f_equal b_suggestion_decisions) in Hn. cbn in Hn. unfold collision_free. by rewrite Hn.
  - wp_step. subst b. by rewrite new_book_normal.
Qed.
Lemma reloaded_sound b b' : reloaded b b' → sound b → sound b'.
Proof.
  intros -> [Hok Hf]. split; [by apply file_ok, normalized_ok|]. cbn. destruct (b_file b) as [v|].
  - destruct Hf as (b0 & Hok0 & Hv & Hn). exists b0. split_and!; [done..|].
    change (normalized b0 = normalized (normalized b)). by rewrite (normalized_idemp own b).
  - subst b. apply new_book_normal.
Qed.
Lemma call_run d c b :
  sound b → fresh d b → built c → wp (run_call d c) (λ _ b', commits b b' ∨ reloaded b b') b.
Proof.
  intros Hs Hd Hb. pose proof Hs as [Hok _]. destruct c;
    try (eapply wp_mono; [by apply single_run|]; intros r b' H; left; eapply outcome_commits; [|exact H]; done);
    cbn [run_call].
  - apply wp_bind. eapply wp_mono; [by apply confirm_friend_run|]. intros [x|e] b' [H _]; by left.
  - apply wp_bind. eapply wp_mono; [by apply confirm_mutual_run|]. intros [x|e] b' [H _]; by left.
  - apply wp_bind. eapply wp_mono; [by apply withdrawal_run|]. intros [x|e] b' [H _]; by left.
  - eapply wp_mono; [by apply reload_run|]. intros [x|e] b'; [by right|]. intros [-> _]. by left.
Qed.
Lemma step_cases b b' : sound b → book_step b b' → commits b b' ∨ reloaded b b'.
Proof.
  intros Hs (d & c & r & Hd & Hb & Hrun). pose proof (call_run d c b Hs Hd Hb) as H.
  unfold wp in H. by rewrite Hrun in H.
Qed.
Lemma step_sound b b' : sound b → book_step b b' → sound b'.
Proof. intros Hs [H|H]%step_cases; [by eapply commits_sound|by eapply reloaded_sound|done]. Qed.
Lemma steps_sound b b' : rtc book_step b b' → sound b → sound b'.
Proof. induction 1 as [|b b1 b' Hstep _ IH]; [done|]. intros Hs. by eapply IH, step_sound. Qed.
End history.
