(* ===== verification/RelationGuarantees.v ===== *)
(** What the relationship book (src/anet/relations.py) guarantees along any sequence of calls and
    restarts: consistency, a readable file, permanent history, and that evidence alone never
    changes how close a subject is. *)
From S2P Require Import Prelude PyStr PyVal Codecs Locator ControlPlane RelationData RelationBook RelationLaws RelationRun RelationJudge RelationLineage RelationFile RelationHistory.

Section guarantees.
Context {PL : Platform} {DG : Digests} {SG : Signatures} {UL : Urllib} (own : string).

(** ** History *)

(** Nothing recorded is forgotten or taken back. *)
Record grows (b b' : RelationshipBook) : Prop := {
  gr_events : b_events b `prefix_of` b_events b';
  gr_transitions : b_transitions b `prefix_of` b_transitions b';
  gr_interactions : b_interactions b ⊆ b_interactions b';
  gr_decisions : b_suggestion_decisions b ⊆ b_suggestion_decisions b';
  gr_actors : ∀ id a, b_actors b !! id = Some a → ∃ a', b_actors b' !! id = Some a' ∧
    a_actor_kind a' = a_actor_kind a ∧ a_first_seen_ms a' = a_first_seen_ms a ∧
    (a_state a = "revoked" → a_state a' = "revoked") ∧ ∀ p, p ∈ a_proofs a → p ∈ a_proofs a';
  gr_subjects : ∀ ref s, b_subjects b !! ref = Some s → ∃ s', b_subjects b' !! ref = Some s' ∧
    (s_state s = "superseded" → s_state s' = "superseded") ∧ ∀ id, id ∈ link_ids s → id ∈ link_ids s';
  gr_relationships : ∀ ref, is_Some (b_relationships b !! ref) → is_Some (b_relationships b' !! ref);
}.
#[export] Instance grows_preorder : PreOrder grows.
Proof.
  split.
  - intros b. split; eauto 10.
  - intros b1 b2 b3 [] []. split; try (by etrans).
    + intros id a Ha. destruct (gr_actors0 _ _ Ha) as (a2 & Ha2 & K2 & F2 & R2 & P2).
      destruct (gr_actors1 _ _ Ha2) as (a3 & Ha3 & K3 & F3 & R3 & P3). exists a3.
      split_and!; [done|congruence|congruence|auto|auto].
    + intros ref s Hs. destruct (gr_subjects0 _ _ Hs) as (s2 & Hs2 & R2 & L2).
      destruct (gr_subjects1 _ _ Hs2) as (s3 & Hs3 & R3 & L3). exists s3. split_and!; auto.
    + auto.
Qed.
Lemma grows_actors b b' :
  b_subjects b' = b_subjects b → b_relationships b' = b_relationships b → b_events b `prefix_of` b_events b' →
  b_transitions b' = b_transitions b → b_interactions b ⊆ b_interactions b' →
  b_suggestion_decisions b ⊆ b_suggestion_decisions b' →
  (∀ id a, b_actors b !! id = Some a → ∃ a', b_actors b' !! id = Some a' ∧
    a_actor_kind a' = a_actor_kind a ∧ a_first_seen_ms a' = a_first_seen_ms a ∧
    (a_state a = "revoked" → a_state a' = "revoked") ∧ ∀ p, p ∈ a_proofs a → p ∈ a_proofs a') → grows b b'.
Proof. intros E1 E2 H3 E4 H5 H6 H7. split; rewrite ?E1, ?E2, ?E4; eauto. Qed.
Lemma same_actors (m : gmap string ActorRecord) id a : m !! id = Some a → ∃ a', m !! id = Some a' ∧
  a_actor_kind a' = a_actor_kind a ∧ a_first_seen_ms a' = a_first_seen_ms a ∧
  (a_state a = "revoked" → a_state a' = "revoked") ∧ ∀ p, p ∈ a_proofs a → p ∈ a_proofs a'.
Proof. eauto 10. Qed.
Lemma same_subjects (m : gmap string SubjectHypothesis) ref s : m !! ref = Some s → ∃ s', m !! ref = Some s' ∧
  (s_state s = "superseded" → s_state s' = "superseded") ∧ ∀ id, id ∈ link_ids s → id ∈ link_ids s'.
Proof. eauto 10. Qed.
Lemma active_not_superseded s : is_active s = true → s_state s ≠ "superseded".
Proof. unfold is_active. intros H%String.eqb_eq. by rewrite H. Qed.
Lemma change_grows b b' : change own b b' → grows b b'.
Proof.
  intros [a s r v Hnew _ _ _ _ Hs _ _ _ _ _ _ _|id a a' v Ha _ _ Hk Hf Hst Hp _ _|i v Hi _ _ _ _
    |ref s s' v Hs Hact _ _ Hst Hl _ _|ref r r' v Hr _ _ _|v _|c Hc _ _ _
    |t subjects relationships events _ _ Hsrc Hrep Hother _ _ _ _];
    split; cbn; eauto using same_actors, same_subjects, prefix_app_r, is_Some_insert.
  - intros id a' Ha'. exists a'. rewrite lookup_insert_ne by congruence. done.
  - intros ref s' Hs'. exists s'. rewrite lookup_insert_ne by congruence. done.
  - intros id' x Hx. destruct (decide (id = id')) as [->|Hne].
    + rewrite lookup_insert_eq. assert (x = a) as -> by congruence. exists a'. split_and!; [done..| |].
      * destruct Hst as [-> | ->]; done.
      * intros p Hin. by eapply elem_of_prefix.
    + rewrite lookup_insert_ne by done. by apply same_actors.
  - by apply insert_subseteq.
  - intros ref' x Hx. destruct (decide (ref = ref')) as [->|Hne].
    + rewrite lookup_insert_eq. assert (x = s) as -> by congruence. exists s'. split_and!; [done|by rewrite Hst|].
      intros id. apply Hl.
    + rewrite lookup_insert_ne by done. by apply same_subjects.
  - by apply insert_subseteq.
  - intros ref s Hs. destruct (decide (ref ∈ n_source_subject_refs t)) as [Hin|Hin].
    + destruct (Hsrc ref Hin) as (x & r & Hx & Hact & _ & Hx' & _). assert (x = s) as -> by congruence.
      eexists. split_and!; [done| |done]. by intros H%(active_not_superseded _ Hact).
    + destruct (decide (ref ∈ n_replacement_subject_refs t)) as [Hin'|Hin'].
      * destruct (Hrep ref Hin') as [? _]. congruence.
      * destruct (Hother ref Hin Hin') as [-> _]. by apply same_subjects.
  - intros ref Hr. destruct (decide (ref ∈ n_source_subject_refs t)) as [Hin|Hin].
    + destruct (Hsrc ref Hin) as (x & r & _ & _ & _ & _ & ->). by eexists.
    + destruct (decide (ref ∈ n_replacement_subject_refs t)) as [Hin'|Hin'].
      * destruct (Hrep ref Hin') as (_ & x & r & _ & _ & _ & _ & _ & -> & _). by eexists.
      * by destruct (Hother ref Hin Hin') as [_ ->].
Qed.
Lemma file_grows file b b' : grows b b' → grows b (set_file file b').
Proof. by intros []. Qed.
Lemma commits_grow b b' : commits own b b' → grows b b'.
Proof.
  induction 1 as [|b b1 b' (b2 & Hc & ->) _ IH]; [done|]. etrans; [|exact IH]. apply file_grows.
  induction Hc as [|b b1 b2 Hc _ IHc]; [done|]. etrans; [by apply change_grows|]. by apply IHc.
Qed.
Lemma normalized_grows b : grows b (normalized b).
Proof.
  split; cbn; eauto.
  - intros id a Ha. exists (norm_actor a). split_and!; try done; [apply lookup_norm; by exists a|].
    intros p Hp. cbn. by apply elem_of_order_by.
  - intros ref s Hs. exists (norm_subject s). split_and!; try done; [apply lookup_norm; by exists s|].
    intros id Hid. by apply (proj2 (norm_link_ids _ _)).
  - intros ref Hr. by apply (proj2 (some_norm _ _ _)).
Qed.
Lemma steps_grow b b' : sound own b → rtc (book_step own) b b' → grows b b'.
Proof.
  intros Hs Hsteps. induction Hsteps as [|b b1 b' Hstep _ IH]; [done|].
  transitivity b1; [|by eapply IH, step_sound].
  apply (step_cases own _ _ Hs) in Hstep as [H|H]; [by apply commits_grow|].
  rewrite H. apply file_grows, normalized_grows.
Qed.

(** ** The guarantees *)

Lemma reached_sound b : rtc (book_step own) new_book b → sound own b.
Proof. intros H. eapply steps_sound; [exact H|]. apply new_book_sound. Qed.
(** C16: after any sequence of calls, failed ones and restarts included, the book is consistent:
    every record passes the checks of its constructor, every actor belongs to an active subject,
    every subject has exactly one relationship, interactions, events and decisions refer to what
    exists, and the lineage is free of cycles.  [_validate_model] accepts it. *)
Theorem book_consistent b :
  rtc (book_step own) new_book b → collision_free own b →
  book_ok own b ∧
  _validate_model own (b_actors b) (b_subjects b) (b_relationships b) (b_events b) (b_interactions b)
    (b_transitions b) (b_suggestion_decisions b) = Ok tt.
Proof. intros [Hok _]%reached_sound Hfree. split; [done|by apply validate_model_ok]. Qed.

(** C17: a restart loses nothing.  Whatever calls were made, the file that the last of them left can
    be read, and it gives the book of the memory, with the lists inside its records in their
    normal form; reading it again changes nothing more. *)
Theorem reload_reached b v :
  rtc (book_step own) new_book b → collision_free own b → b_file b = Some v →
  load own v = Ok (normalized b) ∧ normalized (normalized b) = normalized b ∧
  reload own b = (Ok tt, set_file (Some v) (normalized b)).
Proof.
  intros Hsteps Hfree Hv. destruct (reached_sound b Hsteps) as [Hok Hf]. rewrite Hv in Hf.
  destruct Hf as (b0 & Hok0 & Hv0 & Hn).
  assert (load own v = Ok (normalized b)) as Hload.
  { rewrite Hv0, <- Hn. apply load_saved; [done|]. apply (f_equal b_suggestion_decisions) in Hn. cbn in Hn.
    unfold collision_free. by rewrite Hn. }
  split_and!; [done|by eapply normalized_idemp|].
  unfold reload, gets, mbind, ST_bind, lift, modify. by rewrite Hv, Hload.
Qed.

(** An operation of the book that raises changes nothing, neither in memory nor in the file;
    only the two confirmations and the withdrawal may have saved the observation they begin
    with.  Observations are built with an actor id without blanks around it. *)
Theorem book_errors_change_nothing d c b e b' :
  rtc (book_step own) new_book b → fresh d b → built c → single c ∨ c = Reload →
  run_call own d c b = (Err e, b') → b' = b.
Proof.
  intros Hsteps Hd Hb Hc Hrun. pose proof (reached_sound b Hsteps) as Hs. destruct Hc as [Hc| ->].
  - pose proof (single_run own d c b (proj1 Hs) Hd Hb Hc) as H. by apply (wp_run _ _ _ _ _ H) in Hrun.
  - pose proof (reload_run own b Hs) as H. by apply (wp_run _ _ _ _ _ H) in Hrun as [? _].
Qed.

(** C19: the history is permanent.  From any reached book on, whatever is called or fails: events and
    transitions are only appended, interactions and decisions never change, actors keep their
    kind, first sighting and proofs, a revoked actor stays revoked, a superseded subject stays
    superseded and subjects keep their actors. *)
Theorem book_history_permanent b b' :
  rtc (book_step own) new_book b → rtc (book_step own) b b' → grows b b'.
Proof. intros Hsteps. by apply steps_grow, reached_sound. Qed.

(** Calls that record evidence or turn a suggestion down *)
Definition evidence_only (c : book_call) : Prop :=
  match c with
  | ObserveTyped _ _ _ | ObserveCard _ _ _ _ | RecordInteraction _ | RevokeActor _ _ _ | LinkActor _ _ _ _ _
  | RecordWithdrawal _ _ _ _ _ => True
  | DecideSuggestion _ outcome _ _ => outcome = "rejected"
  | _ => False
  end.
(** C18: evidence is not trust.  Observing, recording interactions, revoking and linking actors,
    withdrawn claims and rejected suggestions leave every relationship exactly as it was, and a
    relationship they start is public, with confidence 0 and no contextual trust. *)
Theorem evidence_is_not_trust d c b r b' :
  rtc (book_step own) new_book b → fresh d b → built c → evidence_only c → run_call own d c b = (r, b') →
  (∀ ref x, b_relationships b !! ref = Some x → b_relationships b' !! ref = Some x) ∧
  ∀ ref x, b_relationships b' !! ref = Some x → b_relationships b !! ref = Some x ∨ unjudged x.
Proof.
  intros [Hok _]%reached_sound Hd Hb Hc Hrun. cut (wp (run_call own d c) (λ _, kept own b) b).
  { intros H. by apply (wp_run _ _ _ _ _ H) in Hrun as [_ ?]. }
  destruct c; try done; cbn [run_call]; apply wp_bind.
  - eapply wp_mono; [by apply observe_typed_run|]. intros [x|e] b1 [H _]; by eapply outcome_kept.
  - eapply wp_mono; [by apply observe_actor_run|]. intros [x|e] b1 [H _]; by eapply outcome_kept.
  - eapply wp_mono; [by apply record_interaction_run|]. intros [x|e] b1 H; by eapply outcome_kept.
  - eapply wp_mono; [by apply revoke_actor_run|]. intros [x|e] b1 H; by eapply outcome_kept.
  - eapply wp_mono; [by apply link_run|]. intros [x|e] b1; [|intros H; cbn in H; rewrite H; apply kept_refl].
    intros [->|(b2 & [H [E _]] & ->)]; [apply kept_refl|]. apply same_kept; [|done].
    apply rtc_once. exists b2. split; [by apply rtc_once|done].
  - eapply wp_mono; [by apply decide_suggestion_run|]. intros [x|e] b1 [H _]; [|cbn in H; rewrite H; apply kept_refl].
    destruct H as [->|(b2 & (Hj & _ & _ & E) & ->)]; [apply kept_refl|]. apply same_kept; [|by apply E].
    apply rtc_once. exists b2. split; [by destruct Hj|done].
  - eapply wp_mono; [by apply withdrawal_run|]. by intros [x|e] b1.
Qed.

(** A suggestion is decided once.  After a decision was returned, every later call for the same
    suggestion, whatever happened in between, returns that decision or raises, and changes
    nothing. *)
Theorem suggestion_decided_once d suggestion outcome_ rationale now b c b1 b2 d' suggestion' outcome' rationale' now' r b3 :
  rtc (book_step own) new_book b → fresh d b →
  decide_suggestion own d suggestion outcome_ rationale now b = (Ok c, b1) → rtc (book_step own) b1 b2 →
  strip (text_or "" "suggestion_id" suggestion') = strip (text_or "" "suggestion_id" suggestion) →
  decide_suggestion own d' suggestion' outcome' rationale' now' b2 = (r, b3) →
  b3 = b2 ∧ ∀ c', r = Ok c' → c' = c ∧ outcome' = outcome_.
Proof.
  intros Hb Hd Hrun Hsteps Hid Hrun'. pose proof (reached_sound b Hb) as [Hok _].
  pose proof (decide_suggestion_run own d suggestion outcome_ rationale now b Hok Hd) as H.
  pose proof (wp_run _ _ _ _ _ H Hrun) as [_ Hc]. destruct (Hc c eq_refl) as [Hin Hout].
  assert (rtc (book_step own) b b1) as Hb1.
  { apply rtc_once. exists d, (DecideSuggestion suggestion outcome_ rationale now), (Ok tt). split_and!; [done..|].
    cbn [run_call]. unfold mbind, ST_bind. by rewrite Hrun. }
  assert (grows b1 b2) as Hg.
  { eapply steps_grow, Hsteps. apply reached_sound. by etrans. }
  pose proof (lookup_weaken _ _ _ _ Hin (gr_decisions _ _ Hg)) as Hin2. rewrite <- Hid in Hin2.
  pose proof (wp_run _ _ _ _ _ (decided_again own d' _ outcome' rationale' now' _ _ Hin2) Hrun') as [-> Hr].
  split; [done|]. intros c' Hc'. destruct (Hr c' Hc') as [-> E]. by rewrite E.
Qed.

(** A confirmed relationship never gets more distant.  Confirming a friend or a mutual claim, also
    when it raises, leaves no relationship with a lower circle than before. *)
Theorem confirmation_never_lowers d b b' :
  rtc (book_step own) new_book b → fresh d b →
  (∃ card evidence now r, confirm_friend own d card evidence now b = (r, b')) ∨
  (∃ card circle evidence labels now r, confirm_mutual_relationship own d card circle evidence labels now b = (r, b')) →
  not_lowered b b'.
Proof.
  intros [Hok _]%reached_sound Hd [(card & evidence & now & r & Hrun)|(card & circle & evidence & labels & now & r & Hrun)].
  - by apply (wp_run _ _ _ _ _ (confirm_friend_run own d card evidence now b Hok Hd)) in Hrun as [_ ?].
  - by apply (wp_run _ _ _ _ _ (confirm_mutual_run own d card circle evidence labels now b Hok Hd)) in Hrun as [_ ?].
Qed.

(** C20: a merge joins the actors of its sources in one new active subject, each with the highest
    confidence it had in any source, retires the sources and their relationships, and takes over
    the judgement of the named source, or the default of an unknown past; everything else stays. *)
Theorem merge_unites d refs confidence evidence inherit labels now b t b' :
  rtc (book_step own) new_book b → fresh d b →
  merge_subjects own d refs confidence evidence inherit labels now b = (Ok t, b') →
  ∃ b1, merged own (fromkeys (strip <$> refs)) (strip inherit) b b1 ∧ b' = stored own b1.
Proof.
  intros [Hok _]%reached_sound Hd Hrun.
  by apply (wp_run _ _ _ _ _ (merge_run own d refs confidence evidence inherit labels now b Hok Hd)) in Hrun.
Qed.

(** A split distributes the actors of its source over new active subjects, one per group, with
    the confidence they had; the groups are a partition of the actors of the source.  The source is
    retired, the chosen group takes over its judgement, the others start from the default. *)
Theorem split_partitions d ref groups confidence evidence inherit labels now b t b' :
  rtc (book_step own) new_book b → fresh d b →
  split_subject own d ref groups confidence evidence inherit labels now b = (Ok t, b') →
  ∃ b1, splitted own (strip ref) groups inherit b b1 ∧ b' = stored own b1.
Proof.
  intros [Hok _]%reached_sound Hd Hrun.
  by apply (wp_run _ _ _ _ _ (split_run own d ref groups confidence evidence inherit labels now b Hok Hd)) in Hrun.
Qed.
End guarantees.
