(* ===== verification/RelationTyped.v ===== *)
(** What [load] of the relationship book (src/anet/relations.py [reload], [_load_v1]) guarantees for
    a file of any content and version: an accepted book is well-typed. *)
From S2P Require Import Prelude PyStr PyVal Codecs Locator ControlPlane RelationData RelationBook RelationLaws RelationFile.

Section typed.
Context {PL : Platform} {DG : Digests} {SG : Signatures} {UL : Urllib} (own : string).

(** Every record passed its constructor, is stored under its own key, and refers to what exists. *)
Record typed (b : RelationshipBook) : Prop := {
  ty_own : b_actors b !! own = None;
  ty_actors : ∀ id a, b_actors b !! id = Some a → a_actor_id a = id ∧ new_actor a = Ok a ∧
    Forall (λ p, new_proof p = Ok p ∧ known_issuer own (b_actors b) id p = true) (a_proofs a);
  ty_subjects : ∀ ref s, b_subjects b !! ref = Some s → s_subject_ref s = ref ∧ new_subject s = Ok s ∧
    Forall (λ l, new_link l = Ok l ∧ is_Some (b_actors b !! l_actor_id l)) (s_actor_links s);
  ty_active : ∀ id, is_Some (b_actors b !! id) → ∃ ref s, b_subjects b !! ref = Some s ∧
    is_active s = true ∧ id ∈ link_ids s;
  ty_relationships : ∀ ref, is_Some (b_relationships b !! ref) ↔ is_Some (b_subjects b !! ref);
  ty_estimates : ∀ ref r, b_relationships b !! ref = Some r → r_subject_ref r = ref ∧ new_estimate r = Ok r ∧
    Forall (λ t, new_trust t = Ok t) (r_context_trust r);
  ty_events : NoDup (v_event_id <$> b_events b) ∧ Forall (λ v, new_event v = Ok v) (b_events b);
  ty_interactions : ∀ id i, b_interactions b !! id = Some i → i_interaction_id i = id ∧ new_interaction i = Ok i ∧
    is_Some (b_actors b !! i_actor_id i) ∧ ∃ s, b_subjects b !! i_subject_ref i = Some s ∧ i_actor_id i ∈ link_ids s;
  ty_transitions : NoDup (n_transition_id <$> b_transitions b) ∧ Forall (λ t, new_transition t = Ok t) (b_transitions b);
  ty_decisions : ∀ id c, b_suggestion_decisions b !! id = Some c → c_suggestion_id c = id ∧ new_decision c = Ok c ∧
    is_Some (b_subjects b !! c_subject_ref c);
}.

(** ** Records *)

Lemma items_of_ok {A} (from : dict → res A) (P : A → Prop) k d l :
  items_of from k d = Ok l → (∀ d x, from d = Ok x → P x) → Forall P l.
Proof.
  unfold items_of. intros H Hfrom. res_inv. apply map_res_Forall2 in H.
  clear E. induction H as [|v x vs l Hx _ IH]; [by apply Forall_nil_2|]. apply Forall_cons_2; [|done].
  res_inv. by eapply Hfrom.
Qed.
Lemma keyed_by_elem {A} (key : A → string) items k x : keyed_by key items !! k = Some x → x ∈ items ∧ key x = k.
Proof.
  unfold keyed_by. induction items as [|y items IH] using rev_ind; cbn; [by rewrite lookup_empty|].
  rewrite foldl_app. cbn. rewrite lookup_insert_Some, elem_of_app, list_elem_of_singleton.
  intros [[<- <-]|(_ & H)]; [by split; [right|]|]. apply IH in H as [? ?]. by split; [left|].
Qed.
Lemma keyed_by_Forall {A} (key : A → string) (P : A → Prop) items k x :
  Forall P items → keyed_by key items !! k = Some x → key x = k ∧ P x.
Proof.
  intros HP [Hin Hk]%keyed_by_elem. split; [done|]. by apply (proj1 (Forall_forall _ _) HP).
Qed.
Definition actor_typed (a : ActorRecord) : Prop := new_actor a = Ok a ∧ Forall (λ p, new_proof p = Ok p) (a_proofs a).
Definition subject_typed (s : SubjectHypothesis) : Prop :=
  new_subject s = Ok s ∧ Forall (λ l, new_link l = Ok l) (s_actor_links s).
Definition estimate_typed (r : RelationshipEstimate) : Prop :=
  new_estimate r = Ok r ∧ Forall (λ t, new_trust t = Ok t) (r_context_trust r).
Lemma proof_from_typed d p : proof_from_dict d = Ok p → new_proof p = Ok p.
Proof. unfold proof_from_dict. intros H. res_inv. pose proof (new_proof_id _ _ H). by subst. Qed.
Lemma actor_from_typed d a : actor_from_dict d = Ok a → actor_typed a.
Proof.
  unfold actor_from_dict. intros H. res_inv. pose proof (new_actor_id _ _ H). subst. split; [done|].
  cbn. eapply items_of_ok; [done|]. apply proof_from_typed.
Qed.
Lemma version_actor_typed version d a : _actor_from_dict version d = Ok a → actor_typed a.
Proof.
  unfold _actor_from_dict. destruct (5 <=? version); [apply actor_from_typed|]. cbv zeta. intros H. res_inv.
  match goal with H : new_actor _ = Ok _ |- _ => pose proof (new_actor_id _ _ H); subst end. split; [done|]. cbn.
  apply Forall_singleton. match goal with H : new_proof _ = Ok _ |- _ => pose proof (new_proof_id _ _ H); by subst end.
Qed.
Lemma link_from_typed d l : link_from_dict d = Ok l → new_link l = Ok l.
Proof. unfold link_from_dict. intros H. res_inv. pose proof (new_link_id _ _ H). by subst. Qed.
Lemma subject_from_typed d s : subject_from_dict d = Ok s → subject_typed s.
Proof.
  unfold subject_from_dict. intros H. res_inv. pose proof (new_subject_id _ _ H). subst. split; [done|].
  cbn. eapply items_of_ok; [done|]. apply link_from_typed.
Qed.
Lemma trust_from_typed d t : trust_from_dict d = Ok t → new_trust t = Ok t.
Proof. unfold trust_from_dict. intros H. res_inv. pose proof (new_trust_id _ _ H). by subst. Qed.
Lemma estimate_from_typed d r : estimate_from_dict d = Ok r → estimate_typed r.
Proof.
  unfold estimate_from_dict. intros H. res_inv. pose proof (new_estimate_id _ _ H). subst. split; [done|].
  cbn. eapply items_of_ok; [done|]. apply trust_from_typed.
Qed.
Lemma event_from_typed d v : event_from_dict d = Ok v → new_event v = Ok v.
Proof.
  unfold event_from_dict. destruct (dict_get_or (VMap []) "details" d); try discriminate. intros H. res_inv.
  pose proof (new_event_id _ _ H). by subst.
Qed.
Lemma interaction_from_typed d i : interaction_from_dict d = Ok i → new_interaction i = Ok i.
Proof. unfold interaction_from_dict. intros H. res_inv. pose proof (new_interaction_id _ _ H). by subst. Qed.
Lemma transition_from_typed d t : transition_from_dict d = Ok t → new_transition t = Ok t.
Proof. unfold transition_from_dict. intros H. res_inv. pose proof (new_transition_id _ _ H). by subst. Qed.
Lemma decision_from_typed d c : decision_from_dict d = Ok c → new_decision c = Ok c.
Proof.
  unfold decision_from_dict. destruct (dict_get "applied" d); try discriminate. intros H. res_inv.
  pose proof (new_decision_id _ _ H). by subst.
Qed.
Lemma v1_typed d a s r :
  load_v1_item d = Ok (a, s, r) → actor_typed a ∧ subject_typed s ∧ estimate_typed r.
Proof.
  unfold load_v1_item. cbv zeta. intros H. res_inv.
  repeat match goal with
  | H : new_proof _ = Ok _ |- _ => pose proof (new_proof_id _ _ H); revert H
  | H : new_actor _ = Ok _ |- _ => pose proof (new_actor_id _ _ H); revert H
  | H : new_link _ = Ok _ |- _ => pose proof (new_link_id _ _ H); revert H
  | H : new_subject _ = Ok _ |- _ => pose proof (new_subject_id _ _ H); revert H
  | H : new_estimate _ = Ok _ |- _ => pose proof (new_estimate_id _ _ H); revert H
  end. injection H as <- <- <-. intros. subst.
  split_and!; (split; [done|]); cbn; first [by apply Forall_singleton|by apply Forall_nil_2].
Qed.

(** ** The whole book *)

Lemma check_all_inv {A} (check : A → res unit) l u : check_all check l = Ok u → Forall (λ x, ∃ y, check x = Ok y) l.
Proof.
  unfold check_all. intros H. res_inv. apply map_res_Forall2 in E.
  induction E as [|x y l l' Hx _ IH]; [by apply Forall_nil_2|]. apply Forall_cons_2; [by exists y|done].
Qed.
(** What the operations keep as maps *)
Definition records_typed (actors : gmap string ActorRecord) (subjects : gmap string SubjectHypothesis)
    (relationships : gmap string RelationshipEstimate) (events : list RelationshipEvent)
    (interactions : gmap string InteractionEvidence) (transitions : list SubjectTransition)
    (decisions : gmap string SuggestionDecision) : Prop :=
  (∀ id a, actors !! id = Some a → a_actor_id a = id ∧ actor_typed a) ∧
  (∀ ref s, subjects !! ref = Some s → s_subject_ref s = ref ∧ subject_typed s) ∧
  (∀ ref r, relationships !! ref = Some r → r_subject_ref r = ref ∧ estimate_typed r) ∧
  Forall (λ v, new_event v = Ok v) events ∧
  (∀ id i, interactions !! id = Some i → i_interaction_id i = id ∧ new_interaction i = Ok i) ∧
  Forall (λ t, new_transition t = Ok t) transitions ∧
  (∀ id c, decisions !! id = Some c → c_suggestion_id c = id ∧ new_decision c = Ok c).
Lemma validated_typed actors subjects relationships events interactions transitions decisions file u :
  records_typed actors subjects relationships events interactions transitions decisions →
  _validate_model own actors subjects relationships events interactions transitions decisions = Ok u →
  typed (Book actors subjects relationships events interactions transitions decisions file).
Proof.
  intros (Ha & Hs & Hr & Hv & Hi & Ht & Hc) H. unfold _validate_model in H. res_inv.
  repeat match goal with
  | H : negb _ = false |- _ => apply negb_false_iff in H
  | H : bool_decide _ = true |- _ => apply bool_decide_eq_true in H
  | H : repeats _ = false |- _ => unfold repeats in H
  | H : check_all _ _ = Ok _ |- _ => apply check_all_inv in H
  end.
  assert (∀ id, is_Some (actors !! id) ↔ ∃ s, s ∈ values subjects ∧ id ∈ link_ids s) as Hlinked.
  { intros id. rewrite <- elem_of_dom, <- E2, elem_of_linked. done. }
  split; cbn.
  - destruct (actors !! own); [|done]. exfalso. by rewrite bool_decide_true in E by done.
  - intros id a Haa. destruct (Ha id a Haa) as [Hid [Hn Hp]]. split_and!; [done..|].
    apply Forall_forall. intros p Hin. split; [by apply (proj1 (Forall_forall _ _) Hp)|].
    assert (a ∈ values actors) as Hav by (apply elem_of_values; by exists id).
    apply (proj1 (Forall_forall _ _) E0) in Hav as [y Hav]. apply raise_if_ok in Hav.
    apply negb_false_iff in Hav. rewrite forallb_forall in Hav. rewrite <- Hid. apply Hav. by apply list_elem_of_In.
  - intros ref s Hss. destruct (Hs ref s Hss) as [Href [Hn Hl]]. split_and!; [done..|].
    apply Forall_forall. intros l Hin. split; [by apply (proj1 (Forall_forall _ _) Hl)|]. apply Hlinked.
    exists s. split; [apply elem_of_values; by exists ref|]. apply list_elem_of_fmap. by exists l.
  - intros id Hid. apply elem_of_dom in Hid. rewrite <- E3 in Hid. apply elem_of_linked in Hid as (s & Hin & Hl).
    apply list_elem_of_filter in Hin as [Hact Hin]. apply elem_of_values in Hin as [ref Hss]. by exists ref, s.
  - intros ref. by rewrite <- !elem_of_dom, E4.
  - intros ref r Hrr. destruct (Hr ref r Hrr) as [Href [Hn Hl]]. done.
  - done.
  - intros id i Hii. destruct (Hi id i Hii) as [Hid Hn].
    assert (i ∈ values interactions) as Hiv by (apply elem_of_values; by exists id).
    apply (proj1 (Forall_forall _ _) E6) in Hiv as [y Hiv]. unfold validate_interaction in Hiv. res_inv.
    split_and!; [done..| |].
    + destruct (actors !! i_actor_id i); [by eexists|]. by rewrite bool_decide_true in E12.
    + eexists. split; [done|]. apply bool_decide_eq_false, dec_stable in Hiv. done.
  - done.
  - intros id c Hcc. destruct (Hc id c Hcc) as [Hid Hn]. split_and!; [done..|].
    match goal with H : existsb _ (values decisions) = false |- _ => rename H into Hex end.
    destruct (subjects !! c_subject_ref c) eqn:Es; [by eexists|]. exfalso.
    apply not_true_iff_false in Hex. apply Hex, existsb_exists. exists c. split.
    + apply list_elem_of_In, elem_of_values. by exists id.
    + by apply bool_decide_true.
Qed.
Lemma v1_items_typed raws items :
  map_res (λ raw, d ← raw_dict raw; load_v1_item d) raws = Ok items →
  Forall (λ x, actor_typed x.1.1 ∧ subject_typed x.1.2 ∧ estimate_typed x.2) items.
Proof.
  intros H. apply map_res_Forall2 in H. induction H as [|raw x raws xs Hx _ IH]; [by apply Forall_nil_2|].
  apply Forall_cons_2; [|done]. res_inv. destruct x as [[a s] r]. by eapply v1_typed.
Qed.
Lemma load_v1_typed d b : _load_v1 own d = Ok b → typed b.
Proof.
  unfold _load_v1. cbv zeta. intros H. res_inv. subst b.
  pose proof (v1_items_typed _ _ E0) as Hall.
  eapply validated_typed; [|done]. split_and!.
  - intros id a Ha. eapply (keyed_by_Forall _ actor_typed); [|done]. apply Forall_fmap.
    eapply Forall_impl; [exact Hall|]. by intros y (? & _).
  - intros ref s Hs. eapply (keyed_by_Forall _ subject_typed); [|done]. apply Forall_fmap.
    eapply Forall_impl; [exact Hall|]. by intros y (_ & ? & _).
  - intros ref r Hr. eapply (keyed_by_Forall _ estimate_typed); [|done]. apply Forall_fmap.
    eapply Forall_impl; [exact Hall|]. by intros y (_ & _ & ?).
  - by apply Forall_nil_2.
  - done.
  - by apply Forall_nil_2.
  - done.
Qed.
End typed.
