(* ===== verification/RelationSamples.v ===== *)
(** A relationship book with two actors of one person: observed, judged, merged, split and a
    suggestion decided, and the theorems of RelationGuarantees and RelationTyped at the states it
    passes through. *)
From S2P Require Import Prelude PyStr PyVal Codecs Locator ControlPlane ControlStore ControlReads RelationData RelationBook RelationLaws RelationRun RelationJudge RelationLineage RelationFile RelationHistory RelationGuarantees RelationTyped.

#[local] Existing Instances sample_digests sample_signatures sample_urls sample_plain.

(** ** Fresh tokens *)

Fixpoint marks (n : nat) : string := match n with O => "" | S n => String "x" (marks n) end.
(** The tokens of the call named by the character [c] *)
Definition draw (c : ascii) : draws :=
  {| subject_token := λ n, String c (marks n); event_token := λ n, String c (marks n);
     transition_token := String c "" |}.
(** No reference or id of the book has [c] after its prefix. *)
Definition unused (c : ascii) (b : RelationshipBook) : bool :=
  forallb (λ kv : string * SubjectHypothesis, negb (bool_decide (String.get 5 kv.1 = Some c))) (map_to_list (b_subjects b)) &&
  forallb (λ v, negb (bool_decide (String.get 5 (v_event_id v) = Some c))) (b_events b) &&
  forallb (λ t, negb (bool_decide (String.get 5 (n_transition_id t) = Some c))) (b_transitions b).
Lemma marks_inj m n : marks m = marks n → m = n.
Proof. revert n. induction m as [|m IH]; intros [|n] H; try done. f_equal. apply IH. by injection H. Qed.
Lemma marks_nonspace n : str_forall (λ a, negb (is_space a)) (marks n) = true.
Proof. by induction n. Qed.
Lemma unused_fresh c b : is_space c = false → unused c b = true → fresh (draw c) b.
Proof.
  intros Hc Hb. unfold unused in Hb. apply andb_true_iff in Hb as [Hb H3]. apply andb_true_iff in Hb as [H1 H2].
  rewrite forallb_forall in H1, H2, H3. split.
  - intros n. destruct (b_subjects b !! subject_ref (draw c) n) as [s|] eqn:E; [|done].
    apply elem_of_map_to_list, list_elem_of_In, H1, negb_true_iff, bool_decide_eq_false in E. by destruct E.
  - intros m n H. apply marks_inj. by injection H.
  - intros n (v & E & Hv)%list_elem_of_fmap. apply list_elem_of_In, H2, negb_true_iff, bool_decide_eq_false in Hv.
    apply Hv. by rewrite <- E.
  - intros m n H. apply marks_inj. by injection H.
  - intros n. apply strip_nonspace. change (negb (is_space c) && str_forall (λ a, negb (is_space a)) (marks n) = true).
    by rewrite Hc, marks_nonspace.
  - intros (t & E & Ht)%list_elem_of_fmap. apply list_elem_of_In, H3, negb_true_iff, bool_decide_eq_false in Ht.
    apply Ht. by rewrite <- E.
Qed.

(** ** The story *)

Definition me : string := "an1observer".
Definition person : ActorObservation :=
  {| o_actor_id := "act_discord_00112233445566778899aabbccddeeff"; o_actor_kind := "discord.user";
     o_actor_label := "Alice"; o_proof :=
       {| p_proof_type := "discord.message"; p_scope := "platform-observed"; p_issuer_actor_id := me;
          p_evidence_ref := "discord:1"; p_observed_ms := 900 |} |}.
Definition laptop_id : string := derive_node_id (fit 32 "sign") (fit 32 "box").
Definition laptop : PeerCard :=
  {| k_node_id := laptop_id; k_sign_public := fit 32 "sign"; k_box_public := fit 32 "box"; k_label := "laptop";
     k_addresses := []; k_capabilities := []; k_created_ms := 1; k_signature := "sig"; k_version := 1 |}.
Definition talk : InteractionEvidence :=
  {| i_interaction_id := "iev_1"; i_actor_id := o_actor_id person; i_subject_ref := "subj_a";
     i_direction := "incoming"; i_facets := ["message"]; i_context := "chat"; i_outcome := "received";
     i_evidence_ref := "discord:2"; i_occurred_ms := 1100 |}.
Definition advance : dict :=
  [field "suggestion_id" (VStr "rsg_1"); field "suggestion_type" (VStr "circle.advance");
   field "subject_ref" (VStr "subj_f"); field "basis_hash" (VStr "00112233445566778899aabbccddeeff");
   field "confidence" (VInt 70); field "proposed_circle" (VStr "collab")].
Definition after (c : ascii) (call : book_call) (b : RelationshipBook) : RelationshipBook :=
  (run_call me (draw c) call b).2.
Definition book1 : RelationshipBook := after "a" (ObserveTyped person 60 1000) new_book.
Definition book2 : RelationshipBook := after "b" (ObserveCard laptop "card:1" 90 1001) book1.
Definition book3 : RelationshipBook := after "c" (SetCircle "subj_a" "known" 80 "operator:1" [] 1002) book2.
Definition book4 : RelationshipBook := after "d" (RecordInteraction talk) book3.
Abbreviation merge_call := (MergeSubjects ["subj_a"; "subj_b"] 75 "operator:2" "subj_a" [] 1200).
Definition book5 : RelationshipBook := after "e" merge_call book4.
Abbreviation split_call := (SplitSubject "subj_e" [[o_actor_id person]; [laptop_id]] 75 "operator:3" (Some 0) [] 1300).
Definition book6 : RelationshipBook := after "f" split_call book5.
Definition book7 : RelationshipBook := after "g" (DecideSuggestion advance "accepted" "we worked together" 1400) book6.
Definition circle_of (ref : string) (b : RelationshipBook) : option string := r_circle <$> b_relationships b !! ref.
Example story_told :
  (circle_of "subj_a" book3, circle_of "subj_e" book5, circle_of "subj_f" book6, circle_of "subj_fx" book6,
   circle_of "subj_f" book7) = (Some "known", Some "known", Some "known", Some "known", Some "collab").
Proof. vm_compute. reflexivity. Qed.

(** ** The states are reached *)

Lemma step_after c call b : is_space c = false → unused c b = true → built call → book_step me b (after c call b).
Proof.
  intros Hc Hb Hcall. exists (draw c), call, (run_call me (draw c) call b).1.
  split_and!; [by apply unused_fresh|done|]. unfold after. by destruct (run_call me (draw c) call b).
Qed.
Ltac next_step b := unfold b; apply step_after; [reflexivity|vm_compute; reflexivity|try exact I].
Lemma reached1 : rtc (book_step me) new_book book1.
Proof. apply rtc_once. next_step book1. repeat split. Qed.
Lemma reached2 : rtc (book_step me) new_book book2.
Proof. eapply rtc_r; [apply reached1|]. next_step book2. Qed.
Lemma reached3 : rtc (book_step me) new_book book3.
Proof. eapply rtc_r; [apply reached2|]. next_step book3. Qed.
Lemma reached4 : rtc (book_step me) new_book book4.
Proof. eapply rtc_r; [apply reached3|]. next_step book4. reflexivity. Qed.
Lemma later45 : book_step me book4 book5.
Proof. next_step book5. Qed.
Lemma later56 : book_step me book5 book6.
Proof. next_step book6. Qed.
Lemma reached5 : rtc (book_step me) new_book book5.
Proof. eapply rtc_r; [apply reached4|apply later45]. Qed.
Lemma reached6 : rtc (book_step me) new_book book6.
Proof. eapply rtc_r; [apply reached5|apply later56]. Qed.
Lemma later67 : book_step me book6 book7.
Proof. next_step book7. Qed.
Lemma reached7 : rtc (book_step me) new_book book7.
Proof. eapply rtc_r; [apply reached6|apply later67]. Qed.
Lemma later47 : rtc (book_step me) book4 book7.
Proof. eapply rtc_l; [apply later45|]. eapply rtc_l; [apply later56|]. apply rtc_once, later67. Qed.
Lemma one_decision b : (length (map_to_list (b_suggestion_decisions b)) ≤ 1)%nat → collision_free me b.
Proof.
  intros Hlen x y [c Hc] [c' Hc'] _. apply elem_of_map_to_list in Hc, Hc'.
  destruct (map_to_list (b_suggestion_decisions b)) as [|p [|]]; cbn in Hlen; [by apply elem_of_nil in Hc| |lia].
  apply list_elem_of_singleton in Hc, Hc'. congruence.
Qed.
Lemma free7 : collision_free me book7.
Proof. apply one_decision. apply Nat.leb_le. vm_compute. reflexivity. Qed.
(** Draws for one more call *)
Lemma draw_fresh c b : is_space c = false → unused c b = true → fresh (draw c) b.
Proof. apply unused_fresh. Qed.

(** ** The theorems at these states *)

Lemma book_consistent_witness : book_ok me book7 ∧
  _validate_model me (b_actors book7) (b_subjects book7) (b_relationships book7) (b_events book7)
    (b_interactions book7) (b_transitions book7) (b_suggestion_decisions book7) = Ok tt.
Proof. exact (book_consistent me book7 reached7 free7). Defined.
Definition file7 : value := default VNone (b_file book7).
Lemma reload_reached_witness : load me file7 = Ok (normalized book7) ∧
  normalized (normalized book7) = normalized book7 ∧
  reload me book7 = (Ok tt, set_file (Some file7) (normalized book7)).
Proof. apply (reload_reached me book7 file7 reached7 free7). vm_compute. reflexivity. Defined.
(** Pausing a relationship that does not exist *)
Abbreviation bad_call := (PauseRelationship "subj_q" "operator:4" 1500).
Lemma book_errors_change_nothing_witness : (run_call me (draw "h") bad_call book7).2 = book7.
Proof.
  apply (book_errors_change_nothing me (draw "h") bad_call book7 (unknown_subject "subj_q") _ reached7).
  - apply draw_fresh; [reflexivity|vm_compute; reflexivity].
  - exact I.
  - left. exact I.
  - vm_compute. reflexivity.
Defined.
Lemma book_history_permanent_witness : grows book4 book7.
Proof. exact (book_history_permanent me book4 book7 reached4 later47). Defined.
Lemma evidence_is_not_trust_witness :
  (∀ ref x, b_relationships book3 !! ref = Some x → b_relationships book4 !! ref = Some x) ∧
  ∀ ref x, b_relationships book4 !! ref = Some x → b_relationships book3 !! ref = Some x ∨ unjudged x.
Proof.
  apply (evidence_is_not_trust me (draw "d") (RecordInteraction talk) book3 (Ok tt) book4 reached3).
  - apply draw_fresh; [reflexivity|vm_compute; reflexivity].
  - reflexivity.
  - exact I.
  - vm_compute. reflexivity.
Defined.
(** Deciding the accepted suggestion of [book7] again, the other way *)
Abbreviation decided6 := (decide_suggestion me (draw "g") advance "accepted" "we worked together" 1400 book6).
Abbreviation again7 := (decide_suggestion me (draw "h") advance "rejected" "second thoughts" 1500 book7).
Definition no_decision : SuggestionDecision := Build_SuggestionDecision "" "" "" "" "" "" "" 0 "" "" None false 0.
Definition decision6 : SuggestionDecision := match decided6.1 with Ok c => c | Err _ => no_decision end.
Lemma suggestion_decided_once_witness : again7.2 = book7 ∧ ∀ c', again7.1 = Ok c' → c' = decision6 ∧ "rejected" = "accepted".
Proof.
  apply (suggestion_decided_once me (draw "g") advance "accepted" "we worked together" 1400 book6 decision6 book7 book7
    (draw "h") advance "rejected" "second thoughts" 1500 again7.1 again7.2 reached6).
  - apply draw_fresh; [reflexivity|vm_compute; reflexivity].
  - vm_compute. reflexivity.
  - reflexivity.
  - reflexivity.
  - apply surjective_pairing.
Defined.
Abbreviation befriended := (confirm_friend me (draw "h") laptop "friend:1" 1500 book7).
Lemma confirmation_never_lowers_witness : not_lowered book7 befriended.2 ∧ circle_of "subj_fx" befriended.2 = Some "friend".
Proof.
  split; [|vm_compute; reflexivity]. apply (confirmation_never_lowers me (draw "h") book7 _ reached7).
  - apply draw_fresh; [reflexivity|vm_compute; reflexivity].
  - left. exists laptop, "friend:1", 1500, befriended.1. apply surjective_pairing.
Defined.
Definition no_transition : SubjectTransition := Build_SubjectTransition "" "" [] [] 0 "" 0.
Definition made (r : res SubjectTransition) : SubjectTransition := match r with Ok t => t | Err _ => no_transition end.
Abbreviation merged4 := (merge_subjects me (draw "e") ["subj_a"; "subj_b"] 75 "operator:2" "subj_a" [] 1200 book4).
Lemma merge_unites_witness : ∃ b1, merged me (fromkeys (strip <$> ["subj_a"; "subj_b"])) (strip "subj_a") book4 b1 ∧
  merged4.2 = stored me b1.
Proof.
  apply (merge_unites me (draw "e") ["subj_a"; "subj_b"] 75 "operator:2" "subj_a" [] 1200 book4 (made merged4.1) merged4.2 reached4).
  - apply draw_fresh; [reflexivity|vm_compute; reflexivity].
  - vm_compute. reflexivity.
Defined.
Abbreviation groups5 := [[o_actor_id person]; [laptop_id]].
Abbreviation split5 := (split_subject me (draw "f") "subj_e" groups5 75 "operator:3" (Some 0) [] 1300 book5).
Lemma split_partitions_witness : ∃ b1, splitted me (strip "subj_e") groups5 (Some 0) book5 b1 ∧ split5.2 = stored me b1.
Proof.
  apply (split_partitions me (draw "f") "subj_e" groups5 75 "operator:3" (Some 0) [] 1300 book5 (made split5.1) split5.2 reached5).
  - apply draw_fresh; [reflexivity|vm_compute; reflexivity].
  - vm_compute. reflexivity.
Defined.

(** ** A padded actor id *)

(** [ActorObservation] accepts an id with surrounding blanks, [RelationshipEvent] does not: the
    observation raises after it has put the actor, its subject and its relationship into memory. *)
Definition padded : ActorObservation :=
  {| o_actor_id := " " +:+ o_actor_id person; o_actor_kind := o_actor_kind person;
     o_actor_label := o_actor_label person; o_proof := o_proof person |}.
Definition padded_run : res SubjectHypothesis * RelationshipBook :=
  observe_typed_actor me (draw "a") padded 60 1000 new_book.
Lemma padded_observation_left_behind :
  new_observation padded = Ok padded ∧ padded_run.1 = Err (ValueError "invalid relationship event Actor") ∧
  is_Some (b_actors padded_run.2 !! o_actor_id padded) ∧ b_file padded_run.2 = None.
Proof. split_and!; [reflexivity|vm_compute; reflexivity|vm_compute; by eexists|vm_compute; reflexivity]. Qed.
