(* ===== verification/Advisor.v ===== *)
(** Suggestions about relationships (src/anet/relation_advisor.py [RelationshipAdvisor]) computed
    from the snapshot of a relationship book, and the manager that lets a person decide one of
    them (src/anet/relation_decisions.py [RelationshipDecisionManager]). *)
From S2P Require Import Prelude PyStr PyVal Codecs Locator ControlPlane RelationData RelationBook.

Definition SUGGESTION_TYPES : list string := ["circle.advance"; "context-trust.review"].

(** ** Python on rows of a snapshot *)

(** [isinstance(v, Mapping)] *)
Definition mapping (v : value) : option dict := match v with VMap d => Some d | _ => None end.
(** The mappings among [model.get(k, ())] *)
Definition rows_of (k : string) (model : dict) : res (list dict) :=
  l ← py_iter (dict_get_or (VList []) k model); mret (omap (M:=list) mapping l).
(** [item.get(k) == t] *)
Definition has_text (k t : string) (item : dict) : bool := is_text (dict_get k item) t.
Definition unhashable (v : value) : bool := match v with VList _ | VMap _ => true | _ => false end.
Definition not_hashable : exn := TypeError "unhashable type".
(** [t in set(v)] *)
Definition in_set (t : string) (v : value) : res bool :=
  l ← py_iter v;
  raise_if (existsb unhashable l) not_hashable;;
  mret (existsb (key_eqb (VStr t)) l).
(** [v in {...}] for a set of texts *)
Definition text_among (v : value) (l : list string) : res bool :=
  raise_if (unhashable v) not_hashable;;
  mret (existsb (is_text v) l).
(** [[x for x in l if p(x)]] *)
Fixpoint filter_res {A} (p : A → res bool) (l : list A) : res (list A) :=
  match l with
  | [] => mret []
  | x :: l => keep ← p x; rest ← filter_res p l; mret (if keep : bool then x :: rest else rest)
  end.
(** [sum(1 for item in l if item.get(k) == t)] *)
Definition count_text (k t : string) (l : list dict) : Z := Z.of_nat (length (filter (λ i, has_text k t i = true) l)).
(** [round(n / d)] for [0 < d]: the nearest integer, the even one of two *)
Definition round_half_even (n d : Z) : Z :=
  let q := n / d in
  let r := n mod d in
  if 2 * r <? d then q else if d <? 2 * r then q + 1 else if Z.even q then q else q + 1.

(** ** Suggestions *)

Record RelationshipSuggestion := {
  sg_suggestion_id : string;
  sg_suggestion_type : string;
  sg_subject_ref : string;
  sg_confidence : Z;
  sg_proposed_circle : string;
  sg_context : string;
  sg_proposed_estimate : option Z;
  sg_evidence_tags : list string;
  sg_rationale_codes : list string;
  sg_metrics : list (string * Z);
  sg_basis_hash : string;
}.
Definition new_suggestion (x : RelationshipSuggestion) : res RelationshipSuggestion :=
  raise_if (negb (startswith "rsg_" (sg_suggestion_id x))) (ValueError "invalid relationship suggestion ID");;
  raise_if (outside SUGGESTION_TYPES (sg_suggestion_type x)) (ValueError "invalid relationship suggestion type");;
  raise_if (negb (startswith "subj_" (sg_subject_ref x))) (ValueError "invalid relationship suggestion Subject");;
  raise_if (negb ((0 <=? sg_confidence x) && (sg_confidence x <=? 100)))
    (ValueError "invalid relationship suggestion confidence");;
  raise_if (negb (String.eqb (sg_proposed_circle x) "") && outside RELATION_CIRCLES (sg_proposed_circle x))
    (ValueError "invalid suggested relationship circle");;
  raise_if (match sg_proposed_estimate x with Some e => negb ((0 <=? e) && (e <=? 100)) | None => false end)
    (ValueError "invalid suggested contextual trust");;
  raise_if (negb (len (sg_basis_hash x) =? 32)) (ValueError "invalid relationship suggestion basis");;
  mret x.
Definition metrics_dict (metrics : list (string * Z)) : value := VMap (prod_map VStr VInt <$> metrics).
Definition suggestion_to_dict (x : RelationshipSuggestion) : dict :=
  [field "suggestion_id" (VStr (sg_suggestion_id x)); field "suggestion_type" (VStr (sg_suggestion_type x));
   field "subject_ref" (VStr (sg_subject_ref x)); field "confidence" (VInt (sg_confidence x));
   field "proposed_circle" (VStr (sg_proposed_circle x)); field "context" (VStr (sg_context x));
   field "proposed_estimate" (optional_int (sg_proposed_estimate x));
   field "evidence_tags" (strings (sg_evidence_tags x)); field "rationale_codes" (strings (sg_rationale_codes x));
   field "metrics" (metrics_dict (sg_metrics x)); field "basis_hash" (VStr (sg_basis_hash x));
   field "requires_explicit_action" (VBool true); field "authorization_effect" (VStr "none")].

(** ** The advisor *)

Section advisor.
Context {PL : Platform}.

Definition _build (suggestion_type subject_ref : string) (confidence : Z) (proposed_circle context : string)
    (proposed_estimate : option Z) (evidence_tags rationale_codes : list string) (metrics : list (string * Z))
    (basis : list dict) : res RelationshipSuggestion :=
  let source := [field "suggestion_type" (VStr suggestion_type); field "subject_ref" (VStr subject_ref);
                 field "proposed_circle" (VStr proposed_circle); field "context" (VStr context);
                 field "proposed_estimate" (optional_int proposed_estimate);
                 field "interaction_ids" (strings (sorted (text_or "" "interaction_id" <$> basis)))] in
  packed ← canonical_pack (VMap source);
  let basis_hash := blake2s_hexdigest 16 "anet-rsg" packed in
  packed ← canonical_pack (VMap [field "basis_hash" (VStr basis_hash); field "confidence" (VInt confidence);
                                 field "metrics" (metrics_dict metrics)]);
  new_suggestion
    {| sg_suggestion_id := "rsg_" +:+ blake2s_hexdigest 16 "anetrsgi" packed;
       sg_suggestion_type := suggestion_type; sg_subject_ref := subject_ref; sg_confidence := confidence;
       sg_proposed_circle := proposed_circle; sg_context := context; sg_proposed_estimate := proposed_estimate;
       sg_evidence_tags := sorted evidence_tags; sg_rationale_codes := rationale_codes;
       sg_metrics := order_by (codes ∘ fst) metrics; sg_basis_hash := basis_hash |}.

(** ["task" in set(item.get("facets", ()))] *)
Definition is_task (item : dict) : res bool := in_set "task" (dict_get_or (VList []) "facets" item).
(** The set of the directions of [tasks] *)
Definition directions_of (tasks : list dict) : res (list string) :=
  known ← filter_res (λ i, text_among (dict_get "direction" i) INTERACTION_DIRECTIONS) tasks;
  mret (remove_dups (text_or "" "direction" <$> known)).
Definition _circle_suggestion (subject_ref : string) (relationship : dict) (interactions : list dict)
    : res (option RelationshipSuggestion) :=
  if negb (String.eqb (text_or "" "circle" relationship) "known") then mret None
  else
    tasks ← filter_res is_task interactions;
    let submitted := count_text "outcome" "submitted" tasks in
    let completed := count_text "outcome" "completed" tasks in
    directions ← directions_of tasks;
    let directions := Z.of_nat (length directions) in
    let count := Z.of_nat (length tasks) in
    let balanced_events := Z.min submitted completed in
    if (balanced_events <? 2) || (directions <? 2) then mret None
    else
      let confidence := Z.min 85 (38 + balanced_events * 8 + Z.min count 8) in
      Some <$> _build "circle.advance" subject_ref confidence "collab" "" None
        ["activity:reciprocal"; "activity:task-collaboration"]
        ["task.repeated-submission-completion"; "task.bidirectional"; "circle.explicit-review-required"]
        [("task_interactions", count); ("submitted", submitted); ("completed", completed);
         ("balanced_task_events", balanced_events); ("directions", directions)] tasks.

(** The condition of the comprehension [terminal] *)
Definition is_terminal (item : dict) : res bool :=
  if has_text "direction" "incoming" item then
    task ← is_task item;
    if task : bool then text_among (dict_get "outcome" item) ["completed"; "failed"] else mret false
  else mret false.
(** The posterior success rate under a Beta(2, 2) prior, the confidence and the estimate of
    [sample_size] results *)
Definition posterior_of (sample_size completed : Z) : Z := round_half_even (100 * (completed + 2)) (sample_size + 4).
Definition sample_confidence (sample_size : Z) : Z := Z.min 90 (20 + sample_size * 10).
Definition estimate_of (sample_size completed : Z) : Z :=
  round_half_even (50 * 100 + (posterior_of sample_size completed - 50) * sample_confidence sample_size) 100.
(** Whether new results say enough beyond an existing trust *)
Definition worth_review (existing : option dict) (sample_size confidence estimate : Z) : res bool :=
  match existing with
  | None => mret true
  | Some item =>
      if sample_size <? 5 then mret false
      else
        before ← py_int (dict_get_or (VInt 0) "confidence" item);
        if confidence <? before + 10 then mret false
        else
          e ← py_int (dict_get_or (VInt 0) "estimate" item);
          mret (10 <=? Z.abs (estimate - e))
  end.
Definition _task_delivery_suggestion (subject_ref : string) (relationship : dict) (interactions : list dict)
    : res (option RelationshipSuggestion) :=
  terminal ← filter_res is_terminal interactions;
  let sample_size := Z.of_nat (length terminal) in
  if sample_size <? 3 then mret None
  else
    let completed := count_text "outcome" "completed" terminal in
    let confidence := sample_confidence sample_size in
    let estimate := estimate_of sample_size completed in
    contexts ← rows_of "context_trust" relationship;
    let existing := List.find (has_text "context" "task.delivery") contexts in
    review ← worth_review existing sample_size confidence estimate;
    if negb review then mret None
    else
      Some <$> _build "context-trust.review" subject_ref confidence "" "task.delivery" (Some estimate)
        ["evidence:task-delivery"]
        ["task.incoming-terminal-results"; "trust.context-specific"; "trust.explicit-review-required"]
        [("sample_size", sample_size); ("completed", completed); ("failed", sample_size - completed);
         ("posterior_success", posterior_of sample_size completed)] terminal.

(** [{str(item["subject_ref"]): item for item in ... if item.get("state") == "active"}] *)
Definition active_items (k : string) (model : dict) : res (gmap string dict) :=
  rows ← rows_of k model;
  pairs ← map_res (λ item, ref ← text_item "subject_ref" item; mret (ref, item))
            (filter (λ item, has_text "state" "active" item = true) rows);
  mret (foldl (λ m kv, <[kv.1 := kv.2]> m) ∅ pairs).
Definition interactions_of (interactions : list dict) (subject_ref : string) : list dict :=
  filter (λ item, text_or "" "subject_ref" item = subject_ref) interactions.
(** One round of the loop of [advise] *)
Definition advise_subject (relationships : gmap string dict) (interactions : list dict) (key : string)
    : res (list RelationshipSuggestion) :=
  match relationships !! key with
  | None => mret []
  | Some relationship =>
      let evidence := interactions_of interactions key in
      circle ← _circle_suggestion key relationship evidence;
      trust ← _task_delivery_suggestion key relationship evidence;
      mret (option_list circle ++ option_list trust)
  end.
(** The set [decided] *)
Definition decided_ids (model : dict) : res (list string) :=
  decisions ← rows_of "suggestion_decisions" model; mret (List.map (text_or "" "suggestion_id") decisions).
(** The suggestions that are returned, in order *)
Definition undecided (decided : list string) (l : list RelationshipSuggestion) : list RelationshipSuggestion :=
  order_by (λ x, tuple_key [sg_subject_ref x; sg_suggestion_type x])
    (filter (λ x, sg_suggestion_id x ∉ decided) l).
Definition advise (model : dict) (subject_ref : string) : res (list RelationshipSuggestion) :=
  subjects ← active_items "subjects" model;
  relationships ← active_items "relationships" model;
  interactions ← rows_of "interactions" model;
  let selected := strip subject_ref in
  raise_if (negb (String.eqb selected "") && bool_decide ((subjects : gmap string dict) !! selected = None))
    (KeyError ("unknown active Subject hypothesis: " +:+ selected));;
  decided ← decided_ids model;
  suggestions ← map_res (advise_subject relationships interactions)
    (filter (λ key, selected = "" ∨ key = selected) (sorted (map_to_list subjects).*1));
  mret (undecided decided (concat suggestions)).

(** ** The decision manager *)

(** [decide]; of two suggestions with one id the later one is current. *)
Definition manager_decide (own_actor_id : string) (d : draws) (suggestion_id decision rationale : string) (now : Z)
    : BM SuggestionDecision :=
  existing ← gets (suggestion_decision suggestion_id);
  match existing with
  | Some c =>
      lift (raise_if (negb (String.eqb (c_decision c) decision))
        (ValueError "relationship suggestion already has another decision"));;
      mret c
  | None =>
      advice ← gets (λ b, advise (snapshot own_actor_id b) "");
      advice ← lift advice;
      x ← lift (of_option (ValueError "relationship suggestion is unknown, stale, or no longer applicable")
                 (last (filter (λ x, sg_suggestion_id x = suggestion_id) advice)));
      decide_suggestion own_actor_id d (suggestion_to_dict x) decision rationale now
  end.
End advisor.
