(* ===== verification/AdvisorLaws.v ===== *)
(** What the advisor of relationships proposes (src/anet/relation_advisor.py) and what a person's
    decision on it may change (src/anet/relation_decisions.py): advice follows from recorded
    interactions, can be decided, and moves a relationship only by one step or one context. *)
From S2P Require Import Prelude PyStr PyVal Codecs Locator ControlPlane RelationData RelationBook RelationLaws RelationRun RelationJudge RelationLineage RelationFile RelationHistory RelationGuarantees Advisor.

(** ** Rows of a snapshot *)

Lemma omap_maps (l : list dict) : omap mapping (VMap <$> l) = l.
Proof. induction l as [|d l IH]; [done|]. csimpl. by rewrite IH. Qed.
Lemma rows_maps {A} (to : A → dict) k model (l : list A) :
  dict_get_or (VList []) k model = VList (VMap ∘ to <$> l) → rows_of k model = Ok (to <$> l).
Proof. intros H. unfold rows_of. rewrite H, list_fmap_compose. cbn. by rewrite omap_maps. Qed.
Lemma filter_to {A B} (to : A → B) (P : B → Prop) (Q : A → Prop) `{∀ y, Decision (P y), ∀ x, Decision (Q x)} (l : list A) :
  (∀ x, P (to x) ↔ Q x) → filter P (to <$> l) = to <$> filter Q l.
Proof.
  intros HPQ. induction l as [|x l IH]; [done|]. rewrite fmap_cons, !filter_cons, IH.
  destruct (decide (P (to x))) as [HP|HP], (decide (Q x)) as [HQ|HQ]; try done; exfalso; firstorder.
Qed.
Lemma filter_res_to {A B} (to : A → B) (p : B → res bool) (Q : A → Prop) `{∀ x, Decision (Q x)} (l : list A) :
  (∀ x, p (to x) = Ok (bool_decide (Q x))) → filter_res p (to <$> l) = Ok (to <$> filter Q l).
Proof.
  intros Hp. induction l as [|x l IH]; [done|]. rewrite fmap_cons, filter_cons. cbn [filter_res].
  rewrite Hp. simpl. rewrite IH. simpl.
  unfold bool_decide, decide. by destruct (H x).
Qed.
Section advice.
Context {PL : Platform} {DG : Digests} {SG : Signatures} {UL : Urllib} (own : string).

(** The active rows of a table, by their subject *)
Lemma active_items_ok {V} k model (to : V → dict) (key : V → string) (active : V → bool) (m : gmap string V) :
  dict_get_or (VList []) k model = VList (VMap ∘ to <$> in_order m) →
  (∀ x, has_text "state" "active" (to x) = active x) → (∀ x, text_item "subject_ref" (to x) = Ok (key x)) →
  (∀ ref x, m !! ref = Some x → key x = ref) →
  ∃ items, active_items k model = Ok items ∧
    ∀ ref item, items !! ref = Some item ↔ ∃ x, m !! ref = Some x ∧ active x = true ∧ item = to x.
Proof.
  intros Hrows Hactive Hkey Hm. unfold active_items. rewrite (rows_maps to _ _ _ Hrows). simpl.
  rewrite (filter_to to _ (λ x, active x = true)) by (intros x; by rewrite Hactive).
  set (l := filter _ (in_order m)).
  assert (map_res (λ item, ref ← text_item "subject_ref" item; mret (ref, item)) (to <$> l)
    = Ok ((λ x, (key x, to x)) <$> l)) as ->.
  { apply map_res_Forall2, Forall2_fmap, Forall_Forall2_diag, Forall_forall. intros x _. by rewrite Hkey. }
  simpl. eexists. split; [done|]. intros ref item. rewrite lookup_pairs.
  - rewrite list_elem_of_fmap. unfold l. setoid_rewrite list_elem_of_filter. setoid_rewrite elem_of_in_order. split.
    + intros (x & [= -> ->] & Ha & ref0 & Hx). exists x. rewrite (Hm _ _ Hx). done.
    + intros (x & Hx & Ha & ->). exists x. rewrite (Hm _ _ Hx). eauto.
  - rewrite <- list_fmap_compose. unfold l.
    assert (key <$> in_order m = (order_by (codes ∘ fst) (map_to_list m)).*1) as Hkeys.
    { unfold in_order. rewrite <- list_fmap_compose. apply list_fmap_ext. intros i [r x] Hi. cbn.
      apply list_elem_of_lookup_2, elem_of_order_by, elem_of_map_to_list in Hi. by apply Hm. }
    eapply sublist_NoDup; [|apply fmap_sublist, sublist_filter]. change (NoDup (key <$> in_order m)).
    rewrite Hkeys, order_by_Permutation. apply NoDup_fst_map_to_list.
Qed.

(** ** Interactions *)

(** The interactions recorded with the subject [ref] *)
Definition met (ref : string) (b : RelationshipBook) : list InteractionEvidence :=
  filter (λ i, i_subject_ref i = ref) (in_order (b_interactions b)).
Definition with_outcome (outcome : string) (l : list InteractionEvidence) : list InteractionEvidence :=
  filter (λ i, i_outcome i = outcome) l.
Definition tasks (ref : string) (b : RelationshipBook) : list InteractionEvidence :=
  filter (λ i, "task" ∈ i_facets i) (met ref b).
(** The incoming results of tasks *)
Definition is_result (i : InteractionEvidence) : Prop :=
  i_direction i = "incoming" ∧ "task" ∈ i_facets i ∧ i_outcome i ∈ ["completed"; "failed"].
Definition results (ref : string) (b : RelationshipBook) : list InteractionEvidence := filter is_result (met ref b).

Lemma is_text_VStr s t : is_text (VStr s) t = bool_decide (s = t).
Proof. cbn. destruct (String.eqb_spec s t); [by rewrite bool_decide_true|by rewrite bool_decide_false]. Qed.
Lemma in_set_strings t l : in_set t (strings l) = Ok (bool_decide (t ∈ l)).
Proof.
  unfold in_set, strings. cbn [py_iter mbind res_bind].
  assert (existsb unhashable (VStr <$> l) = false) as ->.
  { apply not_true_iff_false. rewrite existsb_exists. intros (v & Hv & Hu).
    apply list_elem_of_In, list_elem_of_fmap in Hv as (s & -> & _). discriminate. }
  simpl. f_equal. apply eq_bool_prop_intro. rewrite !Is_true_true, bool_decide_eq_true, existsb_exists. split.
  - intros (v & Hv & Hk). apply list_elem_of_In, list_elem_of_fmap in Hv as (s & -> & Hs).
    apply key_eqb_str in Hk. congruence.
  - intros Ht. exists (VStr t). split; [|by apply key_eqb_str]. apply list_elem_of_In, list_elem_of_fmap. by exists t.
Qed.
Lemma text_among_VStr s l : text_among (VStr s) l = Ok (bool_decide (s ∈ l)).
Proof.
  unfold text_among. simpl. f_equal. apply eq_bool_prop_intro. rewrite !Is_true_true, bool_decide_eq_true, existsb_exists.
  split.
  - intros (t & Ht & E). apply String.eqb_eq in E as ->. by apply list_elem_of_In.
  - intros Hs. exists s. split; [by apply list_elem_of_In|]. apply String.eqb_refl.
Qed.
Lemma interactions_of_met b ref :
  interactions_of (interaction_to_dict <$> in_order (b_interactions b)) ref = interaction_to_dict <$> met ref b.
Proof. unfold interactions_of. by rewrite (filter_to _ _ (λ i, i_subject_ref i = ref)). Qed.
Lemma is_task_row i : is_task (interaction_to_dict i) = Ok (bool_decide ("task" ∈ i_facets i)).
Proof. apply in_set_strings. Qed.
Lemma is_terminal_row i : is_terminal (interaction_to_dict i) = Ok (bool_decide (is_result i)).
Proof.
  unfold is_terminal. change (has_text "direction" "incoming" (interaction_to_dict i))
    with (is_text (VStr (i_direction i)) "incoming"). rewrite is_text_VStr, is_task_row. simpl.
  change (dict_get "outcome" (interaction_to_dict i)) with (VStr (i_outcome i)). rewrite text_among_VStr.
  unfold is_result. repeat case_bool_decide; try done; tauto.
Qed.
Lemma count_outcome o (l : list InteractionEvidence) :
  count_text "outcome" o (interaction_to_dict <$> l) = Z.of_nat (length (with_outcome o l)).
Proof.
  unfold count_text. rewrite (filter_to _ _ (λ i, i_outcome i = o)), length_fmap; [done|].
  intros i. change (is_text (VStr (i_outcome i)) o = true ↔ i_outcome i = o). rewrite is_text_VStr. apply bool_decide_eq_true.
Qed.
Lemma directions_rows (l : list InteractionEvidence) :
  directions_of (interaction_to_dict <$> l)
  = Ok (remove_dups (i_direction <$> filter (λ i, i_direction i ∈ INTERACTION_DIRECTIONS) l)).
Proof.
  unfold directions_of.
  rewrite (filter_res_to interaction_to_dict _ (λ i, i_direction i ∈ INTERACTION_DIRECTIONS))
    by (intros i; apply text_among_VStr).
  simpl. by rewrite <- list_fmap_compose.
Qed.
(** Two directions are the incoming and the outgoing one. *)
Lemma both_directions (l : list InteractionEvidence) :
  (2 ≤ length (remove_dups (i_direction <$> filter (λ i, i_direction i ∈ INTERACTION_DIRECTIONS) l)))%nat →
  ∀ direction, direction ∈ INTERACTION_DIRECTIONS → ∃ i, i ∈ l ∧ i_direction i = direction.
Proof.
  set (ds := remove_dups _). intros Hlen direction Hdir.
  assert (NoDup ds) as Hnd by apply NoDup_remove_dups.
  assert (∀ x, x ∈ ds ↔ ∃ i, i ∈ l ∧ i_direction i = x ∧ x ∈ INTERACTION_DIRECTIONS) as Hds.
  { intros x. unfold ds. rewrite elem_of_remove_dups, list_elem_of_fmap. setoid_rewrite list_elem_of_filter.
    split; [intros (i & -> & ? & ?); eauto|intros (i & ? & <- & ?); eauto]. }
  destruct (decide (direction ∈ ds)) as [(i & Hi & E & _)%Hds|Hno]; [eauto|]. exfalso.
  assert (NoDup (direction :: ds)) as Hnd' by (by apply NoDup_cons).
  apply (NoDup_submseteq _ INTERACTION_DIRECTIONS) in Hnd'.
  - apply submseteq_length in Hnd'. cbn in Hnd'. lia.
  - intros x [->|Hx]%elem_of_cons; [done|]. by apply Hds in Hx as (_ & _ & _ & ?).
Qed.
(** ** Suggestions *)

Definition proposes (x : RelationshipSuggestion) (type ref circle context : string) (confidence : Z)
    (estimate : option Z) : Prop :=
  new_suggestion x = Ok x ∧ sg_suggestion_type x = type ∧ sg_subject_ref x = ref ∧
  sg_proposed_circle x = circle ∧ sg_context x = context ∧ sg_confidence x = confidence ∧
  sg_proposed_estimate x = estimate ∧ (∃ packed, sg_suggestion_id x = "rsg_" +:+ blake2s_hexdigest 16 "anetrsgi" packed).
Lemma new_suggestion_id x y : new_suggestion x = Ok y → y = x.
Proof. unfold new_suggestion. intros H. res_inv. by subst. Qed.
Lemma build_proposes type ref confidence circle context estimate tags codes metrics basis x :
  Some <$> _build type ref confidence circle context estimate tags codes metrics basis = Ok (Some x) →
  proposes x type ref circle context confidence estimate.
Proof.
  intros H. destruct (_build _ _ _ _ _ _ _ _ _ _) as [y|] eqn:E; [|discriminate].
  assert (y = x) as -> by (injection H; auto). unfold _build in E. res_inv.
  pose proof (new_suggestion_id _ _ E) as ->. split_and!; try done. by eexists.
Qed.
(** Repeated task collaboration in both directions *)
Definition earned (ref : string) (b : RelationshipBook) : Prop :=
  (2 ≤ length (with_outcome "submitted" (tasks ref b)))%nat ∧
  (2 ≤ length (with_outcome "completed" (tasks ref b)))%nat ∧
  ∀ direction, direction ∈ INTERACTION_DIRECTIONS → ∃ i, i ∈ tasks ref b ∧ i_direction i = direction.
Lemma circle_advice ref r b x :
  _circle_suggestion ref (estimate_to_dict r) (interaction_to_dict <$> met ref b) = Ok (Some x) →
  r_circle r = "known" ∧ earned ref b ∧
  ∃ confidence, 0 ≤ confidence ≤ 100 ∧ proposes x "circle.advance" ref "collab" "" confidence None.
Proof.
  unfold _circle_suggestion. change (text_or "" "circle" (estimate_to_dict r)) with (r_circle r).
  destruct (String.eqb_spec (r_circle r) "known") as [->|]; cbn [negb]; [|discriminate].
  rewrite (filter_res_to _ _ (λ i, "task" ∈ i_facets i)) by apply is_task_row. cbn [mbind res_bind]. cbv zeta.
  change (filter _ (met ref b)) with (tasks ref b). rewrite directions_rows. cbn [mbind res_bind]. cbv zeta.
  rewrite !count_outcome.
  destruct (Z.ltb_spec (Z.min (Z.of_nat (length (with_outcome "submitted" (tasks ref b))))
    (Z.of_nat (length (with_outcome "completed" (tasks ref b))))) 2) as [Hb|Hb]; cbn [orb]; [discriminate|].
  destruct (Z.ltb_spec (Z.of_nat (length (remove_dups (i_direction <$>
    filter (λ i, i_direction i ∈ INTERACTION_DIRECTIONS) (tasks ref b))))) 2) as [Hd|Hd]; [discriminate|].
  intros H%build_proposes. split; [done|]. split.
  - split_and!; [lia|lia|]. apply both_directions. lia.
  - eexists. split; [|exact H]. lia.
Qed.
(** What [sample_size] results with [completed] successes say *)
Lemma round_half_even_bounds n d lo hi : 0 < d → lo * d ≤ n ≤ hi * d → lo ≤ round_half_even n d ≤ hi.
Proof.
  intros Hd [Hlo Hhi]. unfold round_half_even.
  pose proof (Z.div_mod n d ltac:(lia)) as E. pose proof (Z.mod_pos_bound n d Hd) as Hr.
  assert (lo ≤ n / d) as H1 by (apply Z.div_le_lower_bound; lia).
  assert (n / d ≤ hi) as H2 by (apply Z.div_le_upper_bound; lia).
  assert (0 < n mod d → n / d + 1 ≤ hi) as H3.
  { intros Hpos. assert (n / d < hi); [|lia]. apply Z.div_lt_upper_bound; [done|].
    destruct (Z.eq_dec n (hi * d)) as [->|]; [rewrite Z.mod_mul in Hpos; lia|lia]. }
  destruct (Z.ltb_spec (2 * (n mod d)) d); [lia|]. assert (0 < n mod d) by lia.
  destruct (d <? 2 * (n mod d)); [lia|]. destruct (Z.even (n / d)); lia.
Qed.
Lemma posterior_bounds n c : 0 ≤ c ≤ n → 0 ≤ posterior_of n c ≤ 100.
Proof. intros H. apply round_half_even_bounds; lia. Qed.
(** The estimate lies between the even chance and the posterior. *)
Lemma estimate_bounds n c : 0 ≤ c ≤ n →
  Z.min 50 (posterior_of n c) ≤ estimate_of n c ≤ Z.max 50 (posterior_of n c).
Proof.
  intros H. pose proof (posterior_bounds n c H) as Hp. apply round_half_even_bounds; [lia|].
  unfold sample_confidence. set (p := posterior_of n c) in *. set (k := Z.min 90 (20 + n * 10)).
  assert (0 ≤ k ≤ 90) as Hk by (unfold k; lia).
  destruct (Z.le_ge_cases p 50).
  - rewrite Z.min_r, Z.max_l by lia. nia.
  - rewrite Z.min_l, Z.max_r by lia. nia.
Qed.
Definition reviewed (ref : string) (b : RelationshipBook) (estimate confidence : Z) : Prop :=
  let n := Z.of_nat (length (results ref b)) in
  let completed := Z.of_nat (length (with_outcome "completed" (results ref b))) in
  3 ≤ n ∧ estimate = estimate_of n completed ∧ confidence = sample_confidence n ∧
  Z.min 50 (posterior_of n completed) ≤ estimate ≤ Z.max 50 (posterior_of n completed) ∧
  0 ≤ posterior_of n completed ≤ 100.
Lemma reviewed_bounds ref b estimate confidence :
  reviewed ref b estimate confidence → 0 ≤ estimate ≤ 100 ∧ 0 ≤ confidence ≤ 100.
Proof. intros (Hn & -> & -> & He & Hp). unfold sample_confidence. lia. Qed.
Lemma delivery_advice ref r b x :
  _task_delivery_suggestion ref (estimate_to_dict r) (interaction_to_dict <$> met ref b) = Ok (Some x) →
  ∃ estimate confidence, reviewed ref b estimate confidence ∧
    proposes x "context-trust.review" ref "" "task.delivery" confidence (Some estimate).
Proof.
  unfold _task_delivery_suggestion.
  rewrite (filter_res_to _ _ is_result) by apply is_terminal_row. cbn [mbind res_bind]. cbv zeta.
  change (filter _ (met ref b)) with (results ref b). rewrite count_outcome, length_fmap.
  destruct (Z.ltb_spec (Z.of_nat (length (results ref b))) 3) as [Hn|Hn]; [discriminate|].
  intros H. res_inv. destruct x1; cbn [negb] in H; [|discriminate]. apply build_proposes in H.
  do 2 eexists. split; [|exact H].
  assert (0 ≤ Z.of_nat (length (with_outcome "completed" (results ref b))) ≤ Z.of_nat (length (results ref b))) as Hc.
  { pose proof (length_filter (λ i, i_outcome i = "completed") (results ref b)). unfold with_outcome. lia. }
  split_and!; [done|done|done|by apply estimate_bounds..|by apply posterior_bounds|by apply posterior_bounds].
Qed.
(** ** Advice on a book *)

Lemma option_list_in {A} (o : option A) x : x ∈ option_list o ↔ o = Some x.
Proof. destruct o; cbn; [rewrite list_elem_of_singleton; naive_solver|rewrite elem_of_nil; naive_solver]. Qed.
(** A suggestion, and the subject and the relationship it is about *)
Record advised (b : RelationshipBook) (x : RelationshipSuggestion) (s : SubjectHypothesis) (r : RelationshipEstimate)
    : Prop := {
  ad_subject : b_subjects b !! sg_subject_ref x = Some s;
  ad_active : is_active s = true;
  ad_relationship : b_relationships b !! sg_subject_ref x = Some r;
  ad_running : r_state r = "active";
  ad_undecided : b_suggestion_decisions b !! sg_suggestion_id x = None;
  ad_grounds :
    (r_circle r = "known" ∧ earned (sg_subject_ref x) b ∧
     ∃ confidence, 0 ≤ confidence ≤ 100 ∧
       proposes x "circle.advance" (sg_subject_ref x) "collab" "" confidence None) ∨
    (∃ estimate confidence, reviewed (sg_subject_ref x) b estimate confidence ∧
       proposes x "context-trust.review" (sg_subject_ref x) "" "task.delivery" confidence (Some estimate));
}.
Lemma subjects_active b : book_ok own b → ∃ items, active_items "subjects" (snapshot own b) = Ok items ∧
  ∀ ref item, items !! ref = Some item ↔ ∃ s, b_subjects b !! ref = Some s ∧ is_active s = true ∧ item = subject_to_dict s.
Proof.
  intros Hok. apply (active_items_ok _ _ _ s_subject_ref); try done.
  intros ref s Hs. by destruct (bo_subjects _ _ Hok _ _ Hs).
Qed.
Lemma relationships_active b : book_ok own b → ∃ items, active_items "relationships" (snapshot own b) = Ok items ∧
  ∀ ref item, items !! ref = Some item ↔
    ∃ r, b_relationships b !! ref = Some r ∧ String.eqb (r_state r) "active" = true ∧ item = estimate_to_dict r.
Proof.
  intros Hok. apply (active_items_ok _ _ _ r_subject_ref); try done.
  intros ref r Hr. by destruct (bo_estimates _ _ Hok _ _ Hr).
Qed.
Lemma decided_ids_ok b : decided_ids (snapshot own b) = Ok (c_suggestion_id <$> in_order (b_suggestion_decisions b)).
Proof.
  unfold decided_ids. rewrite (rows_maps decision_to_dict _ _ (in_order (b_suggestion_decisions b))) by done.
  cbn [mbind res_bind]. unfold mret, res_ret. f_equal. rewrite List.map_map. done.
Qed.
Lemma undecided_spec b l x : book_ok own b →
  x ∈ undecided (c_suggestion_id <$> in_order (b_suggestion_decisions b)) l ↔
  x ∈ l ∧ b_suggestion_decisions b !! sg_suggestion_id x = None.
Proof.
  intros Hok. unfold undecided. rewrite elem_of_order_by, list_elem_of_filter, list_elem_of_fmap.
  setoid_rewrite elem_of_in_order. split.
  - intros [Hno Hx]. split; [done|]. destruct (b_suggestion_decisions b !! sg_suggestion_id x) as [c|] eqn:Hc; [|done].
    destruct Hno. exists c. destruct (bo_decisions _ _ Hok _ _ Hc) as (-> & _). eauto.
  - intros [Hx Hno]. split; [|done]. intros (c & E & ref & Hc).
    destruct (bo_decisions _ _ Hok _ _ Hc) as (Hid & _). congruence.
Qed.
Lemma advise_subject_in relationships interactions key l x :
  advise_subject relationships interactions key = Ok l → x ∈ l → ∃ relationship, relationships !! key = Some relationship ∧
  (_circle_suggestion key relationship (interactions_of interactions key) = Ok (Some x) ∨
   _task_delivery_suggestion key relationship (interactions_of interactions key) = Ok (Some x)).
Proof.
  unfold advise_subject. destruct (relationships !! key) as [relationship|]; [|by intros [= <-] ?%elem_of_nil].
  cbv zeta. intros H Hx. res_inv. subst l. exists relationship. split; [done|].
  rewrite elem_of_app, !option_list_in in Hx. destruct Hx as [->| ->]; auto.
Qed.
Lemma advise_sound b selected l x :
  book_ok own b → advise (snapshot own b) selected = Ok l → x ∈ l → ∃ s r, advised b x s r.
Proof.
  intros Hok H Hx. unfold advise in H.
  destruct (subjects_active b Hok) as (subjects & Esubjects & Hsubjects). rewrite Esubjects in H. cbn [mbind res_bind] in H.
  destruct (relationships_active b Hok) as (relationships & Erel & Hrel). rewrite Erel in H. cbn [mbind res_bind] in H.
  rewrite (rows_maps interaction_to_dict _ _ (in_order (b_interactions b))) in H by done. cbn [mbind res_bind] in H.
  cbv zeta in H. rewrite decided_ids_ok in H. cbn [mbind res_bind] in H. clear Esubjects Erel. res_inv. subst l.
  apply (undecided_spec b _ _ Hok) in Hx as [Hx Hno].
  apply list_elem_of_In, in_concat in Hx as (l & Hl & Hx). apply list_elem_of_In in Hl, Hx.
  match goal with E : map_res _ _ = Ok _ |- _ => apply map_res_Forall2 in E; rename E into Hall end.
  destruct (proj1 (list_elem_of_lookup _ _) Hl) as [i Hi].
  destruct (Forall2_lookup_r _ _ _ _ _ Hall Hi) as (key & Hkey & Hadvice).
  apply list_elem_of_lookup_2, list_elem_of_filter in Hkey as [_ Hkey].
  apply elem_of_sorted, list_elem_of_fmap in Hkey as ([key' item] & -> & Hkey). cbn [fst] in *.
  apply elem_of_map_to_list, Hsubjects in Hkey as (s & Hs & Hact & ->).
  destruct (advise_subject_in _ _ _ _ _ Hadvice Hx) as (row & (r & Hr & Hrun & ->)%Hrel & Hgrounds).
  rewrite interactions_of_met in Hgrounds. apply String.eqb_eq in Hrun. exists s, r.
  destruct Hgrounds as [(Hk & He & c & Hc & Hp)%circle_advice|(e & c & Hrev & Hp)%delivery_advice].
  - pose proof Hp as (_ & _ & Href & _). rewrite <- Href in *. split; try done. left. eauto.
  - pose proof Hp as (_ & _ & Href & _). rewrite <- Href in *. split; try done. right. eauto.
Qed.
(** ** Decisions of the manager *)

(** The decision [outcome_] on the suggestion [x], as the book carries it out *)
Definition managed (outcome_ : string) (b : RelationshipBook) (x : RelationshipSuggestion) (b' : RelationshipBook) : Prop :=
  (∃ s r, advised b x s r) ∧ ∃ b1, decided own (suggestion_to_dict x) outcome_ b b1 ∧ b' = stored own b1.
Lemma last_in {A} (l : list A) x : last l = Some x → x ∈ l.
Proof. intros (l' & ->)%last_Some. apply elem_of_app. right. by left. Qed.
Lemma manager_decide_run d suggestion_id outcome_ rationale now b :
  book_ok own b → fresh d b →
  wp (manager_decide own d suggestion_id outcome_ rationale now)
     (λ _ b', b' = b ∨ ∃ x, sg_suggestion_id x = suggestion_id ∧ managed outcome_ b x b') b.
Proof.
  intros Hok Hd. unfold manager_decide. do 2 wp_step.
  destruct (suggestion_decision suggestion_id b) as [c|].
  { wp_step. apply wp_lift_raise_if; intros Hc; [by left|]. cbv beta iota. wp_step. by left. }
  do 2 wp_step. wp_step. apply wp_lift; intros l Hl; [|by left]. cbv beta iota.
  wp_step. apply wp_lift; intros x Hx; [|by left]. cbv beta iota.
  apply of_option_ok, last_in, list_elem_of_filter in Hx as [Hid Hx].
  eapply wp_mono; [by apply decide_suggestion_run|]. intros [c|e] b' [H _]; [|by left].
  destruct H as [->|(b1 & H & ->)]; [by left|]. right. exists x. split; [done|]. split; [by eapply advise_sound|].
  by exists b1.
Qed.
Definition justified (ref : string) (b : RelationshipBook) (x x' : RelationshipEstimate) : Prop :=
  r_state x = "active" ∧ (∃ s, b_subjects b !! ref = Some s ∧ is_active s = true) ∧
  ((r_circle x = "known" ∧ earned ref b ∧
    ∃ confidence, judgement x' = ("collab", "active", confidence, r_context_trust x)) ∨
   (∃ estimate confidence, reviewed ref b estimate confidence ∧
    trust_set "task.delivery" estimate confidence x x')).
Lemma subject_text b ref s : book_ok own b → b_subjects b !! ref = Some s → strip ref = ref.
Proof. intros Hok Hs. destruct (bo_subjects _ _ Hok _ _ Hs) as (<- & (_ & _ & _ & _ & H) & _). done. Qed.
Lemma managed_outcome outcome_ b x b' : book_ok own b → managed outcome_ b x b' →
  outcome_ = "accepted" ∨ outcome_ = "rejected".
Proof.
  intros Hok [_ (b1 & ((Hc & _) & _ & (c & Hdec & <-) & _) & _)]. apply changes_ok in Hc; [|done].
  set (id := strip _) in Hdec. assert (b_suggestion_decisions b1 !! id = Some c) as Hin by (rewrite Hdec; apply lookup_insert_eq).
  destruct (bo_decisions _ _ Hc _ _ Hin) as (_ & Hn & _). apply new_decision_choice in Hn.
  apply elem_of_cons in Hn as [->|Hn]; [by left|]. right. by apply list_elem_of_singleton in Hn.
Qed.
Lemma managed_rejected b x b' : managed "rejected" b x b' → b_relationships b' = b_relationships b.
Proof. intros [_ (b1 & (_ & _ & _ & H & _) & ->)]. by apply H. Qed.
Lemma managed_accepted b x b' : book_ok own b → managed "accepted" b x b' →
  (∀ ref, ref ≠ sg_subject_ref x → b_relationships b' !! ref = b_relationships b !! ref) ∧
  ∃ r r', b_relationships b !! sg_subject_ref x = Some r ∧ b_relationships b' !! sg_subject_ref x = Some r' ∧
    justified (sg_subject_ref x) b r r'.
Proof.
  intros Hok ((s & r & Hadv) & b1 & (Hj & _ & _ & _ & Hdo) & ->).
  destruct (Hdo eq_refl) as (estimate & confidence & b2 & Hconf & Hest & Happ & Erel).
  change (text_or "" "subject_ref" (suggestion_to_dict x)) with (sg_subject_ref x) in *.
  rewrite (subject_text _ _ _ Hok (ad_subject _ _ _ _ Hadv)) in *. set (ref := sg_subject_ref x) in *.
  change (b_relationships (stored own b1)) with (b_relationships b1). split; [by apply Hj|]. rewrite Erel.
  change (text_or "" "suggestion_type" (suggestion_to_dict x)) with (sg_suggestion_type x) in Happ.
  change (text_or "" "proposed_circle" (suggestion_to_dict x)) with (sg_proposed_circle x) in Happ.
  change (text_or "" "context" (suggestion_to_dict x)) with (sg_context x) in Happ.
  change (Ok (sg_confidence x) = Ok confidence) in Hconf. apply Ok_inj in Hconf as <-.
  change (match optional_int (sg_proposed_estimate x) with
    | VNone => estimate = None | v => ∃ e, py_int v = Ok e ∧ estimate = Some e end) in Hest.
  pose proof (ad_relationship _ _ _ _ Hadv) as Hr. fold ref in Hr.
  assert (∀ r0, b_relationships b !! ref = Some r0 → r0 = r) as Hsame by congruence.
  destruct (ad_grounds _ _ _ _ Hadv) as [(Hk & He & c & _ & Hp)|(e & c & Hrev & Hp)];
    destruct Hp as (_ & Et & _ & Ec & Ex & Econf & Ee & _); rewrite Et, Ec, Ex, ?Econf in Happ.
  - destruct Happ as (_ & r0 & r' & Hr0 & Hr' & Hjudge). apply Hsame in Hr0 as ->. exists r, r'.
    split_and!; [done|done|]. split_and!; [apply (ad_running _ _ _ _ Hadv)| |left; eauto].
    exists s. split; [apply (ad_subject _ _ _ _ Hadv)|apply (ad_active _ _ _ _ Hadv)].
  - rewrite Ee in Hest. cbn in Hest. destruct Hest as (e' & [= <-] & ->).
    destruct Happ as (e' & [= <-] & _ & r0 & r' & Hr0 & Hr' & Hset). apply Hsame in Hr0 as ->. exists r, r'.
    split_and!; [done|done|]. split_and!; [apply (ad_running _ _ _ _ Hadv)| |right; eauto].
    exists s. split; [apply (ad_subject _ _ _ _ Hadv)|apply (ad_active _ _ _ _ Hadv)].
Qed.
(** C21: a suggestion moves a relationship only as far as the record bears it out.  Deciding one
    through the manager leaves every relationship alone, except that an accepted one takes an
    active relationship of an active subject from known to collab, after tasks in both
    directions of which two were submitted and two completed, or sets its trust for task
    delivery to the estimate from at least three incoming results, which lies between the even
    chance and their success rate. *)
Theorem managed_change_earned d suggestion_id outcome_ rationale now b r b' :
  rtc (book_step own) new_book b → fresh d b →
  manager_decide own d suggestion_id outcome_ rationale now b = (r, b') →
  ∀ ref, b_relationships b' !! ref = b_relationships b !! ref ∨
    outcome_ = "accepted" ∧ ∃ x x', b_relationships b !! ref = Some x ∧ b_relationships b' !! ref = Some x' ∧
      justified ref b x x'.
Proof.
  intros [Hok _]%reached_sound Hd Hrun ref.
  pose proof (wp_run _ _ _ _ _ (manager_decide_run d suggestion_id outcome_ rationale now b Hok Hd) Hrun) as H.
  destruct H as [->|(x & _ & H)]; [by left|]. destruct (managed_outcome _ _ _ _ Hok H) as [-> | ->].
  - destruct (managed_accepted _ _ _ Hok H) as [Hother (x0 & x' & H1 & H2 & H3)].
    destruct (decide (ref = sg_subject_ref x)) as [->|Hne]; [right; eauto 10|left; by apply Hother].
  - left. by rewrite (managed_rejected _ _ _ H).
Qed.
(** ** Advice can be decided *)

Lemma guard_passes b e : b = false → raise_if b e = Ok tt.
Proof. by intros ->. Qed.
Lemma bounded_passes t label maximum : texty maximum t → _bounded_text t label maximum = Ok (strip t).
Proof. intros H. by apply bounded_ok. Qed.
Lemma relationship_refs_passes refs evidence :
  Forall (texty MAX_EVIDENCE_LENGTH) refs → texty MAX_EVIDENCE_LENGTH evidence → relationship_refs refs evidence = Ok (normal_refs (refs ++ [evidence])).
Proof. intros H1 H2. apply unique_ok. split; [|done]. apply Forall_app. split; [done|by apply Forall_singleton]. Qed.
Lemma put_trust_keys t l : t_context <$> put_trust t l =
  if bool_decide (t_context t ∈ t_context <$> l) then t_context <$> l else (t_context <$> l) ++ [t_context t].
Proof.
  induction l as [|t' l IH]; [done|]. cbn [put_trust]. destruct (String.eqb_spec (t_context t') (t_context t)) as [E|E].
  - rewrite bool_decide_true by (rewrite fmap_cons, E; by left). by rewrite !fmap_cons, E.
  - rewrite !fmap_cons, IH. destruct (decide (t_context t ∈ t_context <$> l)) as [Hin|Hin].
    + rewrite !bool_decide_true; [done|by right|done].
    + rewrite !bool_decide_false; [done| |done]. intros [?|?]%elem_of_cons; [congruence|done].
Qed.
Lemma put_trust_unique t l : NoDup (t_context <$> l) → NoDup (t_context <$> put_trust t l).
Proof.
  intros Hl. rewrite put_trust_keys. case_bool_decide as Hin; [done|]. apply NoDup_app.
  split_and!; [done| |apply NoDup_singleton]. intros x Hx ->%list_elem_of_singleton. done.
Qed.
Lemma find_trust_in context l t : find_trust context l = Some t → t ∈ l.
Proof. unfold find_trust. intros [H _]%List.find_some. by apply list_elem_of_In. Qed.
Lemma with_trust_passes r context estimate confidence evidence current :
  estimate_wf r → texty MAX_CONTEXT_LENGTH context → 0 ≤ estimate ≤ 100 → 0 ≤ confidence ≤ 100 →
  texty MAX_EVIDENCE_LENGTH evidence → 0 < current → ∃ r', with_trust r context estimate confidence evidence current = Ok r'.
Proof.
  intros (Hn & Ht & Hl & He) Hcx Hest Hconf Hev Hcur. apply new_estimate_ok in Hn as (H1 & H2 & H3 & H4 & H5 & H6).
  unfold with_trust.
  set (refs := match find_trust _ _ with Some t => _ | None => _ end).
  assert (Forall (texty MAX_EVIDENCE_LENGTH) refs) as Hrefs.
  { unfold refs. destruct (find_trust context (r_context_trust r)) as [t|] eqn:E; [|apply Forall_nil_2].
    apply find_trust_in in E. by apply (proj1 (Forall_forall _ _) Ht) in E as [_ ?]. }
  assert (add_refs "context trust evidence reference" refs evidence = Ok (normal_refs (refs ++ [evidence]))) as ->.
  { apply unique_ok. split; [|done]. apply Forall_app. split; [done|by apply Forall_singleton]. }
  cbn [mbind res_bind]. set (t := Build_ContextTrust _ _ _ _ _). assert (new_trust t = Ok t) as ->.
  { unfold new_trust, t, positive. cbn. rewrite bounded_passes, !confidence_in by done. cbn.
    by rewrite (proj2 (Z.leb_gt _ _) Hcur). }
  cbn [mbind res_bind]. rewrite relationship_refs_passes by done. cbn [mbind res_bind].
  eexists. apply new_estimate_make; try done. by apply put_trust_unique.
Qed.
(** The check of the next statement passes. *)
Ltac passes H := wp_step; rewrite H; wp_step; cbv beta iota.
Lemma apply_returns {A} (k : BM A) d x s r evidence current Q b :
  book_ok own b → fresh d b → advised b x s r → 0 < current → texty MAX_EVIDENCE_LENGTH evidence →
  (∀ b1, event_id d 1 ∉ v_event_id <$> b_events b1 → wp k Q b1) →
  wp (apply_suggestion d (sg_suggestion_type x) (sg_subject_ref x) (sg_proposed_circle x) (sg_context x)
        (sg_proposed_estimate x) (sg_confidence x) evidence current;; k) Q b.
Proof.
  intros Hok Hd Hadv Hcur Hev Hk. set (ref := sg_subject_ref x).
  pose proof (ad_relationship _ _ _ _ Hadv) as Hr. fold ref in Hr.
  destruct (estimate_entry _ _ _ _ Hok Hr) as (Href & Hwf & Hsub).
  pose proof Hwf as (Hn & Ht & Hl & He). apply new_estimate_ok in Hn as (H1 & H2 & H3 & H4 & H5 & H6).
  assert (∀ v b1, v_event_id v = event_id d 0 → b_events b1 = b_events b →
    event_id d 1 ∉ v_event_id <$> b_events (logged v b1)) as Hnext.
  { intros v b1 Hv Eb. cbn. rewrite fmap_app, Eb. simpl. rewrite elem_of_app, list_elem_of_singleton, Hv.
    intros [H|H]; [by apply (fr_events _ _ Hd 1)|]. by apply (fr_event_tokens _ _ Hd) in H. }
  unfold apply_suggestion. apply wp_bind. do 2 wp_step. cbv beta iota. rewrite Hr. wp_step. apply (wp_lift_ok r). cbv beta iota.
  destruct (ad_grounds _ _ _ _ Hadv) as [(Hk' & _ & c & Hc & Hp)|(e & c & Hrev & Hp)];
    destruct Hp as (_ & Et & _ & Ec & Ex & Econf & Ee & _); rewrite Et, Ec, Ex, Econf, Ee.
  - change (String.eqb "circle.advance" "circle.advance") with true. cbv beta iota.
    passes (relationship_refs_passes _ _ He Hev). wp_step.
    rewrite new_estimate_make; [|done|set_solver|set_solver|done|done|done]. wp_step. cbv beta iota. do 2 wp_step.
    apply wp_append_last; try done; [by left|by right|apply event_id_prefix|apply details_circle; [set_solver|done]|apply (fr_events _ _ Hd)|].
    intros v -> Hv. apply Hk, Hnext; done.
  - change (String.eqb "context-trust.review" "circle.advance") with false. cbv beta iota.
    wp_step. apply (wp_lift_ok e). cbv beta iota. apply reviewed_bounds in Hrev as [Hest Hconf].
    set (r1 := Build_RelationshipEstimate _ _ _ _ _ _ _ _).
    assert (estimate_wf r1) as Hwf' by (unfold r1; rewrite <- Href; by destruct r).
    destruct (with_trust_passes r1 "task.delivery" e c evidence current) as [r' Er']; try done.
    passes Er'. do 2 wp_step.
    apply wp_append_last; try done; [by left|by right|apply event_id_prefix|by apply details_trust; [split; by vm_compute|..]|apply (fr_events _ _ Hd)|].
    intros v -> Hv. apply Hk, Hnext; done.
Qed.
(** The hexadecimal text of 16 bytes *)
Definition hex_digest (s : string) : Prop := len s = 32 ∧ str_forall is_hex_lower s = true.
Lemma nonspace_hex s : str_forall is_hex_lower s = true → str_forall (λ a, negb (is_space a)) s = true.
Proof.
  apply str_forall_impl. by intros [[] [] [] [] [] [] [] []]; vm_compute.
Qed.
Lemma digest_id_text x b s r :
  advised b x s r → (∀ person raw, hex_digest (blake2s_hexdigest 16 person raw)) →
  texty 64 (sg_suggestion_id x) ∧ strip (sg_suggestion_id x) = sg_suggestion_id x ∧
  startswith "rsg_" (sg_suggestion_id x) = true.
Proof.
  intros Hadv Hdigest. assert (∃ packed, sg_suggestion_id x = "rsg_" +:+ blake2s_hexdigest 16 "anetrsgi" packed) as [packed ->].
  { destruct (ad_grounds _ _ _ _ Hadv) as [(_ & _ & c & _ & Hp)|(e & c & _ & Hp)]; apply Hp. }
  destruct (Hdigest "anetrsgi" packed) as [Hlen Hhex].
  assert (strip ("rsg_" +:+ blake2s_hexdigest 16 "anetrsgi" packed) = "rsg_" +:+ blake2s_hexdigest 16 "anetrsgi" packed) as E.
  { apply strip_nonspace. rewrite str_forall_app. by rewrite (nonspace_hex _ Hhex). }
  split_and!; [|done|apply startswith_spec; by eexists]. unfold texty. rewrite E. split; [done|].
  rewrite len_append, Hlen. by vm_compute.
Qed.
Record decidable_fields (x : RelationshipSuggestion) : Prop := {
  df_type : texty MAX_CONTEXT_LENGTH (sg_suggestion_type x) ∧ strip (sg_suggestion_type x) = sg_suggestion_type x;
  df_check : check_suggestion (sg_suggestion_type x) (sg_proposed_circle x) (sg_context x) (sg_proposed_estimate x) = Ok tt;
  df_confidence : 0 ≤ sg_confidence x ≤ 100;
  df_estimate : ∀ e, sg_proposed_estimate x = Some e → 0 ≤ e ≤ 100;
  df_basis : len (sg_basis_hash x) = 32;
}.
Lemma advised_fields b x s r : advised b x s r → decidable_fields x.
Proof.
  intros Hadv. destruct (ad_grounds _ _ _ _ Hadv) as [(_ & _ & c & Hc & Hp)|(e & c & Hrev & Hp)];
    destruct Hp as (Hn & Et & _ & Ec & Ex & Econf & Ee & _).
  - split; rewrite ?Et, ?Ec, ?Ex, ?Econf, ?Ee; try done.
    unfold new_suggestion in Hn. res_inv. bool_prop. done.
  - apply reviewed_bounds in Hrev as [He Hc]. split; rewrite ?Et, ?Ec, ?Ex, ?Econf, ?Ee; try done; [by intros ? [= <-]|].
    unfold new_suggestion in Hn. res_inv. bool_prop. done.
Qed.
(** The decision that is recorded *)
Definition decision_of (x : RelationshipSuggestion) (outcome_ rationale : string) (now : Z) : SuggestionDecision :=
  {| c_decision_id := decision_id own (sg_suggestion_id x); c_suggestion_id := sg_suggestion_id x;
     c_suggestion_type := sg_suggestion_type x; c_subject_ref := sg_subject_ref x; c_decision := outcome_;
     c_rationale := strip rationale; c_basis_hash := sg_basis_hash x;
     c_suggestion_confidence := sg_confidence x; c_proposed_circle := sg_proposed_circle x;
     c_context := sg_context x; c_proposed_estimate := sg_proposed_estimate x;
     c_applied := String.eqb outcome_ "accepted"; c_decided_ms := now |}.
Lemma decision_of_ok x b s r outcome_ rationale now :
  book_ok own b → advised b x s r → startswith "rsg_" (sg_suggestion_id x) = true →
  outcome_ ∈ SUGGESTION_DECISIONS → texty MAX_EVIDENCE_LENGTH rationale → 0 < now →
  new_decision (decision_of x outcome_ rationale now) = Ok (decision_of x outcome_ rationale now).
Proof.
  intros Hok Hadv Hid Hout Htext Hnow. destruct (advised_fields _ _ _ _ Hadv) as [[Ht Hts] Hcheck Hc He Hb].
  destruct (suggestion_fields _ _ _ _ Hcheck) as [Hcircle Hcontext].
  destruct (estimate_entry _ _ _ _ Hok (ad_relationship _ _ _ _ Hadv)) as (_ & _ & Hsub).
  apply new_decision_make; try done; [|by apply texty_stripped]. apply startswith_spec. by eexists.
Qed.
Lemma suggestion_evidence x : texty 64 (sg_suggestion_id x) → strip (sg_suggestion_id x) = sg_suggestion_id x →
  texty MAX_EVIDENCE_LENGTH ("suggestion:" +:+ sg_suggestion_id x).
Proof.
  intros Hid Hids. eapply (texty_suggestion _ _ ""); [|unfold MAX_EVIDENCE_LENGTH; lia]. apply bounded_ok. by rewrite Hids.
Qed.
Lemma basis_passes s : len s = 32 → negb (len s =? 32) = false.
Proof. by intros ->. Qed.
Lemma now_passes now : 0 < now → _now_ms now = Ok now.
Proof. intros H. unfold _now_ms. by rewrite (proj2 (Z.leb_gt _ _) H). Qed.
Lemma finish_returns d x outcome_ rationale now b :
  let c := decision_of x outcome_ rationale now in
  new_decision c = Ok c → event_id d 1 ∉ v_event_id <$> b_events b → texty 64 (sg_suggestion_id x) →
  strip (sg_suggestion_id x) = sg_suggestion_id x → is_subject_ref (sg_subject_ref x) = true → 0 < now →
  wp (c0 ← lift (new_decision c);
      modify (λ b, set_decisions (<[sg_suggestion_id x := c0]> (b_suggestion_decisions b)) b);;
      _append_event (event_id d 1) ("relationship.suggestion-" +:+ outcome_) "" (sg_subject_ref x)
        ("suggestion:" +:+ sg_suggestion_id x) now [];;
      save own;; mret c0) (λ r _, r = Ok c) b.
Proof.
  intros c Hc Hev Hid Hids Hsub Hnow. passes Hc. do 2 wp_step.
  pose proof (suggestion_evidence x Hid Hids). apply wp_append; try done; [|by left|by right|by apply details_none].
  apply new_decision_choice in Hc. cbn in Hc. unfold SUGGESTION_DECISIONS in Hc.
  repeat (apply elem_of_cons in Hc as [->|Hc]; [done|]). by apply elem_of_nil in Hc.
Qed.
Lemma estimate_passes o :
  (∀ e, o = Some e → 0 ≤ e ≤ 100) →
  match optional_int o with
  | VNone => mret None
  | v => n ← py_int v; Some <$> _confidence n "relationship suggestion estimate"
  end = Ok o.
Proof. intros H. destruct o as [e|]; [|done]. cbn [optional_int py_int mbind res_bind]. by rewrite confidence_in by auto. Qed.
Lemma decide_returns d x s r outcome_ rationale now b :
  book_ok own b → fresh d b → advised b x s r → outcome_ ∈ SUGGESTION_DECISIONS →
  texty MAX_EVIDENCE_LENGTH rationale → 0 < now → len (sg_subject_ref x) ≤ 128 →
  texty 64 (sg_suggestion_id x) → strip (sg_suggestion_id x) = sg_suggestion_id x →
  startswith "rsg_" (sg_suggestion_id x) = true →
  wp (decide_suggestion own d (suggestion_to_dict x) outcome_ rationale now)
     (λ r _, r = Ok (decision_of x outcome_ rationale now)) b.
Proof.
  intros Hok Hd Hadv Hout Htext Hnow Hlen Hid Hids Hrsg.
  pose proof (decision_of_ok _ _ _ _ _ rationale now Hok Hadv Hrsg Hout Htext Hnow) as Hc.
  pose proof (advised_fields _ _ _ _ Hadv) as [[Ht Hts] Hcheck Hconf Hest Hbasis].
  destruct (estimate_entry _ _ _ _ Hok (ad_relationship _ _ _ _ Hadv)) as (_ & _ & Hsub).
  pose proof (subject_text _ _ _ Hok (ad_subject _ _ _ _ Hadv)) as Hrefs.
  assert (texty 128 (sg_subject_ref x)) as Href.
  { unfold texty. rewrite Hrefs. split; [|done]. intros E. by rewrite E in Hsub. }
  unfold decide_suggestion. cbv zeta.
  change (text_or "" "suggestion_id" (suggestion_to_dict x)) with (sg_suggestion_id x).
  change (text_or "" "suggestion_type" (suggestion_to_dict x)) with (sg_suggestion_type x).
  change (text_or "" "subject_ref" (suggestion_to_dict x)) with (sg_subject_ref x).
  change (text_or "" "basis_hash" (suggestion_to_dict x)) with (sg_basis_hash x).
  change (text_or "" "proposed_circle" (suggestion_to_dict x)) with (sg_proposed_circle x).
  change (text_or "" "context" (suggestion_to_dict x)) with (sg_context x).
  passes (guard_passes (outside SUGGESTION_DECISIONS outcome_) (ValueError "suggestion decision must be accepted or rejected") (outside_no _ _ Hout)).
  passes (bounded_passes _ "relationship suggestion ID" _ Hid). rewrite Hids, Hrsg.
  wp_step. apply (wp_lift_ok tt). cbv beta iota. do 2 wp_step. unfold suggestion_decision.
  rewrite (ad_undecided _ _ _ _ Hadv). cbv beta iota.
  passes (bounded_passes _ "relationship suggestion type" _ Ht). rewrite Hts.
  passes (bounded_passes _ "Subject reference" _ Href). rewrite Hrefs. do 2 wp_step.
  rewrite (ad_subject _ _ _ _ Hadv), (ad_active _ _ _ _ Hadv). wp_step. apply (wp_lift_ok tt). cbv beta iota.
  passes (bounded_passes _ "suggestion decision rationale" _ Htext).
  assert (_confidence (sg_confidence x) "relationship suggestion confidence" = Ok (sg_confidence x)) as E
    by (by apply confidence_in).
  wp_step. change (dict_get_or (VInt (-1)) "confidence" (suggestion_to_dict x)) with (VInt (sg_confidence x)).
  cbn [py_int mbind res_bind]. rewrite E. apply (wp_lift_ok (sg_confidence x)). cbv beta iota.
  change (dict_get "proposed_estimate" (suggestion_to_dict x)) with (optional_int (sg_proposed_estimate x)).
  wp_step. lazymatch goal with |- wp (lift ?m) _ _ =>
    replace m with (Ok (sg_proposed_estimate x)) by (symmetry; apply (estimate_passes _ Hest)) end.
  wp_step. cbv beta iota. passes (guard_passes _ (ValueError "invalid relationship suggestion basis") (basis_passes _ Hbasis)).
  passes Hcheck. wp_step. rewrite (now_passes _ Hnow). wp_step. cbv beta iota zeta.
  match goal with |- context [new_decision ?c] => change c with (decision_of x outcome_ rationale now) end.
  destruct (String.eqb_spec outcome_ "accepted") as [->|Hrej].
  - eapply (apply_returns _ d x s r); [done..|by apply suggestion_evidence|]. intros b1 Hev. by apply finish_returns.
  - do 2 wp_step. apply finish_returns; [done|apply (fr_events _ _ Hd)|done..].
Qed.
(** The suggestion that stands for an id is one of those the advisor gave. *)
Lemma current_advice l x : x ∈ l → ∃ y, last (filter (λ y, sg_suggestion_id y = sg_suggestion_id x) l) = Some y ∧
  y ∈ l ∧ sg_suggestion_id y = sg_suggestion_id x.
Proof.
  intros Hx. destruct (last (filter (λ y, sg_suggestion_id y = sg_suggestion_id x) l)) as [y|] eqn:E.
  - exists y. split; [done|]. by apply last_in, list_elem_of_filter in E as [? ?].
  - apply last_None in E. exfalso. assert (x ∈ filter (λ y, sg_suggestion_id y = sg_suggestion_id x) l) as H
      by (by apply list_elem_of_filter). rewrite E in H. by apply elem_of_nil in H.
Qed.
Lemma manager_decide_current d x y l outcome_ rationale now b :
  b_suggestion_decisions b !! sg_suggestion_id x = None → advise (snapshot own b) "" = Ok l →
  last (filter (λ y, sg_suggestion_id y = sg_suggestion_id x) l) = Some y →
  manager_decide own d (sg_suggestion_id x) outcome_ rationale now b =
  decide_suggestion own d (suggestion_to_dict y) outcome_ rationale now b.
Proof.
  intros Hno Hl Hy. unfold manager_decide, suggestion_decision. unfold mbind, ST_bind, gets, lift. rewrite Hno, Hl.
  cbv beta iota. by rewrite Hy.
Qed.
Lemma decided_not_advised id c b b2 selected l : sound own b → b_suggestion_decisions b !! id = Some c →
  rtc (book_step own) b b2 → advise (snapshot own b2) selected = Ok l → id ∉ sg_suggestion_id <$> l.
Proof.
  intros Hb Hc Hsteps Hl (x & -> & Hx)%list_elem_of_fmap.
  pose proof (steps_sound own _ _ Hsteps Hb) as [Hok2 _].
  pose proof (lookup_weaken _ _ _ _ Hc (gr_decisions _ _ (steps_grow own _ _ Hb Hsteps))) as Hc2.
  destruct (advise_sound _ _ _ _ Hok2 Hl Hx) as (s & r & Hadv). pose proof (ad_undecided _ _ _ _ Hadv). congruence.
Qed.
(** C22: every suggestion can be decided, and then it is settled.  Whatever the advisor proposes on a
    reached book, accepting or rejecting it through the manager with a rationale returns the
    decision, and at no later state is it proposed again.  Digests are hexadecimal, and the
    references of the book are not longer than the field of a decision allows. *)
Theorem advice_is_settled d x l outcome_ rationale now b :
  rtc (book_step own) new_book b → fresh d b →
  (∀ person raw, hex_digest (blake2s_hexdigest 16 person raw)) →
  (∀ ref, is_Some (b_subjects b !! ref) → len ref ≤ 128) →
  advise (snapshot own b) "" = Ok l → x ∈ l →
  outcome_ ∈ SUGGESTION_DECISIONS → texty MAX_EVIDENCE_LENGTH rationale → 0 < now →
  ∃ c b', manager_decide own d (sg_suggestion_id x) outcome_ rationale now b = (Ok c, b') ∧
    c_suggestion_id c = sg_suggestion_id x ∧ c_decision c = outcome_ ∧
    ∀ b2 selected l2, rtc (book_step own) b' b2 → advise (snapshot own b2) selected = Ok l2 →
      sg_suggestion_id x ∉ sg_suggestion_id <$> l2.
Proof.
  intros Hb Hd Hdigest Hrefs Hl Hx Hout Htext Hnow. pose proof (reached_sound own b Hb) as Hs. pose proof Hs as [Hok _].
  destruct (current_advice _ _ Hx) as (y & Hy & Hin & Hid).
  destruct (advise_sound _ _ _ _ Hok Hl Hin) as (s & r & Hadv).
  destruct (digest_id_text _ _ _ _ Hadv Hdigest) as (Hidt & Hids & Hrsg).
  pose proof (ad_undecided _ _ _ _ Hadv) as Hno. rewrite Hid in Hno.
  rewrite (manager_decide_current d x y l) by done.
  pose proof (decide_returns d y s r outcome_ rationale now b Hok Hd Hadv Hout Htext Hnow
    (Hrefs _ ltac:(rewrite (ad_subject _ _ _ _ Hadv); by eexists)) Hidt Hids Hrsg) as Hreturns.
  pose proof (decide_suggestion_run own d (suggestion_to_dict y) outcome_ rationale now b Hok Hd) as Hdecides.
  destruct (decide_suggestion own d (suggestion_to_dict y) outcome_ rationale now b) as [res b'] eqn:Hrun.
  pose proof (wp_run _ _ _ _ _ Hreturns Hrun) as ->. destruct (wp_run _ _ _ _ _ Hdecides Hrun) as [_ Hstored].
  destruct (Hstored _ eq_refl) as [Hc _].
  change (text_or "" "suggestion_id" (suggestion_to_dict y)) with (sg_suggestion_id y) in Hc. rewrite Hids, Hid in Hc.
  do 2 eexists. split_and!; [done|by rewrite <- Hid|done|]. intros b2 selected l2 Hsteps Hl2.
  eapply decided_not_advised; [|exact Hc|exact Hsteps|exact Hl2]. eapply step_sound; [exact Hs|].
  exists d, (DecideSuggestion (suggestion_to_dict y) outcome_ rationale now), (Ok tt). split_and!; [done..|].
  cbn [run_call]. unfold mbind, ST_bind. by rewrite Hrun.
Qed.
End advice.
