(* ===== verification/AdvisorSamples.v ===== *)
(** The advisor at work: a known person with whom tasks went in both directions, the two
    suggestions this gives, and the theorems of AdvisorLaws at these states. *)
From S2P Require Import Prelude PyStr PyVal Codecs Locator ControlPlane ControlStore ControlReads RelationData RelationBook RelationLaws RelationRun RelationJudge RelationLineage RelationFile RelationHistory RelationGuarantees RelationTyped RelationSamples Advisor AdvisorLaws.

(** ** A digest of 32 hexadecimal digits *)

Definition hex_digit (k : Z) : ascii := default "0"%char (String.get (Z.to_nat k) "0123456789abcdef").
Fixpoint hex_text (n : nat) (z : Z) : string :=
  match n with O => "" | S n => String (hex_digit (z mod 16)) (hex_text n (z / 16)) end.
Definition checksum (raw : bytes) : Z :=
  foldl (λ h a, (h * 257 + code a) mod 2 ^ 128) 7 (list_ascii_of_string raw).
#[local] Instance digest_platform : Platform :=
  {| platform_float := sample_float; platform_msgpack := @platform_msgpack (sample_platform []);
     platform_hashing := {| sha256_hexdigest := λ raw, hex_text 64 (checksum raw);
       blake2s_hexdigest := λ n person raw, hex_text (Z.to_nat (2 * n)) (checksum (person +:+ raw)) |} |}.
#[local] Existing Instances sample_digests sample_signatures sample_urls.
Lemma hex_text_digest z : hex_digest (hex_text 32 z).
Proof.
  assert (∀ n z, len (hex_text n z) = Z.of_nat n ∧
    str_forall is_hex_lower (hex_text n z) = true) as H; [|apply (H 32%nat)].
  induction n as [|n IH]; intros z'; [done|]. destruct (IH (z' / 16)) as [IH1 IH2]. split.
  - unfold len in *. cbn [hex_text String.length]. lia.
  - cbn [hex_text str_forall]. rewrite IH2, andb_true_r. unfold hex_digit.
    generalize (Z.to_nat (z' mod 16)). intros k. do 16 (destruct k; [done|]). done.
Qed.

(** ** The story *)

Definition met_task (id direction outcome : string) (now : Z) : InteractionEvidence :=
  {| i_interaction_id := id; i_actor_id := o_actor_id person; i_subject_ref := "subj_a"; i_direction := direction;
     i_facets := ["task"]; i_context := "work"; i_outcome := outcome; i_evidence_ref := "task:" +:+ id;
     i_occurred_ms := now |}.
Definition next (c : ascii) (call : book_call) (b : RelationshipBook) : RelationshipBook :=
  (run_call me (draw c) call b).2.
Definition history : list (ascii * book_call) :=
  [("a"%char, ObserveTyped person 60 1000);
   ("b"%char, SetCircle "subj_a" "known" 80 "operator:1" [] 1002);
   ("c"%char, RecordInteraction (met_task "iev_1" "incoming" "submitted" 1101));
   ("d"%char, RecordInteraction (met_task "iev_2" "outgoing" "submitted" 1102));
   ("e"%char, RecordInteraction (met_task "iev_3" "incoming" "completed" 1103));
   ("f"%char, RecordInteraction (met_task "iev_4" "incoming" "completed" 1104));
   ("g"%char, RecordInteraction (met_task "iev_5" "incoming" "failed" 1105))].
Definition run_history (l : list (ascii * book_call)) : RelationshipBook :=
  foldl (λ b kc, next kc.1 kc.2 b) new_book l.
Definition worked : RelationshipBook := run_history history.
Definition advice : list RelationshipSuggestion :=
  match advise (snapshot me worked) "" with Ok l => l | Err _ => [] end.
Example advice_given :
  (λ x, (sg_suggestion_type x, sg_proposed_circle x, sg_confidence x, sg_proposed_estimate x)) <$> advice =
  [("circle.advance", "collab", 59, None); ("context-trust.review", "", 50, Some 54)].
Proof. vm_compute. reflexivity. Qed.

(** ** The states are reached *)

Fixpoint playable (b : RelationshipBook) (l : list (ascii * book_call)) : Prop :=
  match l with
  | [] => True
  | (c, call) :: l => is_space c = false ∧ unused c b = true ∧ built call ∧ playable (next c call b) l
  end.
Lemma played b l : playable b l → rtc (book_step me) b (foldl (λ b kc, next kc.1 kc.2 b) b l).
Proof.
  revert b. induction l as [|[c call] l IH]; intros b; [done|]. intros (Hc & Hu & Hcall & Hl).
  eapply rtc_l; [|by apply IH]. exists (draw c), call, (run_call me (draw c) call b).1.
  split_and!; [by apply unused_fresh|done|]. unfold next. cbn [fst snd]. by destruct (run_call me (draw c) call b).
Qed.
Lemma reached_worked : rtc (book_step me) new_book worked.
Proof.
  apply played. unfold history. cbn [playable].
  split_and!; first [exact I|vm_compute; reflexivity|repeat split].
Qed.
Lemma fresh_worked : fresh (draw "z") worked.
Proof. apply unused_fresh; [reflexivity|vm_compute; reflexivity]. Qed.

(** ** The theorems at these states *)

Definition no_suggestion : RelationshipSuggestion := Build_RelationshipSuggestion "" "" "" 0 "" "" None [] [] [] "".
Definition first_advice : RelationshipSuggestion := hd no_suggestion advice.
Abbreviation accept := (manager_decide me (draw "z") (sg_suggestion_id first_advice) "accepted" "good work" 1200 worked).
Example accepted_circle : circle_of "subj_a" accept.2 = Some "collab".
Proof. vm_compute. reflexivity. Qed.
Lemma managed_change_earned_witness :
  b_relationships accept.2 !! "subj_a" = b_relationships worked !! "subj_a" ∨
    "accepted" = "accepted" ∧ ∃ x x', b_relationships worked !! "subj_a" = Some x ∧
      b_relationships accept.2 !! "subj_a" = Some x' ∧ justified "subj_a" worked x x'.
Proof.
  apply (managed_change_earned me (draw "z") (sg_suggestion_id first_advice) "accepted" "good work" 1200 worked accept.1).
  - exact reached_worked.
  - exact fresh_worked.
  - apply surjective_pairing.
Defined.
Lemma advice_is_settled_witness :
  ∃ c b', accept = (Ok c, b') ∧ c_suggestion_id c = sg_suggestion_id first_advice ∧ c_decision c = "accepted" ∧
    ∀ b2 selected l2, rtc (book_step me) b' b2 → advise (snapshot me b2) selected = Ok l2 →
      sg_suggestion_id first_advice ∉ sg_suggestion_id <$> l2.
Proof.
  apply (advice_is_settled me (draw "z") first_advice advice "accepted" "good work" 1200 worked).
  - exact reached_worked.
  - exact fresh_worked.
  - intros person raw. apply hex_text_digest.
  - intros ref [s Hs]. apply elem_of_map_to_list, list_elem_of_In in Hs.
    assert (forallb (λ kv : string * SubjectHypothesis, len kv.1 <=? 128) (map_to_list (b_subjects worked)) = true) as H
      by (vm_compute; reflexivity).
    exact (proj1 (Z.leb_le _ _) (proj1 (forallb_forall _ _) H _ Hs)).
  - vm_compute. reflexivity.
  - vm_compute. left.
  - by left.
  - split; vm_compute; done.
  - reflexivity.
Defined.
