(* ===== verification/RelationActivity.v ===== *)
(** The activity feed of a relationship book (src/anet/relation_activity.py): pages of events,
    each shown without its content, that a client reads with a cursor. *)
From S2P Require Import Prelude PyStr PyVal Codecs Locator ControlPlane RelationData RelationBook Advisor.

(** [revt_[0-9a-f]{24}] and [_CURSOR_RE] *)
Definition EVENT_ID_RE (s : string) : bool :=
  startswith "revt_" s && fullmatch_hex 24 (substring 5 (String.length s - 5) s).
Definition CURSOR_RE (s : string) : option (string * string) :=
  let scope := substring 4 16 s in
  let event_id := substring 21 (String.length s - 21) s in
  if startswith "rac_" s && fullmatch_hex 16 scope && String.eqb (substring 20 1 s) "_" && EVENT_ID_RE event_id
  then Some (scope, event_id) else None.

Record RelationshipActivity := {
  ac_activity_id : string;
  ac_cursor : string;
  ac_activity_type : string;
  ac_category : string;
  ac_fact_level : string;
  ac_actor_id : string;
  ac_subject_ref : string;
  ac_occurred_ms : Z;
  ac_details : dict;
  ac_evidence_digest : string;
}.
Definition activity_to_dict (x : RelationshipActivity) : dict :=
  [field "activity_id" (VStr (ac_activity_id x)); field "cursor" (VStr (ac_cursor x));
   field "activity_type" (VStr (ac_activity_type x)); field "category" (VStr (ac_category x));
   field "fact_level" (VStr (ac_fact_level x)); field "actor_id" (VStr (ac_actor_id x));
   field "subject_ref" (VStr (ac_subject_ref x)); field "occurred_ms" (VInt (ac_occurred_ms x));
   field "details" (VMap (ac_details x)); field "evidence_digest" (VStr (ac_evidence_digest x));
   field "privacy" (VStr "content-free"); field "authorization_effect" (VStr "none")].
Record RelationshipActivityPage := {
  pg_observer : string;
  pg_activities : list RelationshipActivity;
  pg_next_cursor : string;
  pg_has_more : bool;
}.
Definition page_to_dict (p : RelationshipActivityPage) : dict :=
  [field "observer_actor_id" (VStr (pg_observer p));
   field "activities" (VList (VMap ∘ activity_to_dict <$> pg_activities p));
   field "next_cursor" (VStr (pg_next_cursor p)); field "has_more" (VBool (pg_has_more p));
   field "ordering" (VStr "observer-local-append"); field "privacy" (VStr "content-free");
   field "authorization_effect" (VStr "none")].

Section feed.
Context {PL : Platform}.

Definition _observer_scope (observer : string) : string := blake2s_hexdigest 8 "anet-rac" (utf8 observer).
Definition _evidence_digest (evidence_ref : string) : string := blake2s_hexdigest 16 "anet-rav" (utf8 evidence_ref).
Definition _cursor (observer event_id : string) : res string :=
  raise_if (negb (EVENT_ID_RE event_id)) (ValueError "invalid relationship event ID for cursor");;
  mret ("rac_" +:+ _observer_scope observer +:+ "_" +:+ event_id).
(** The index after the event of the cursor *)
Fixpoint index_after (event_id : string) (index : nat) (events : list dict) : res nat :=
  match events with
  | [] => Err (ValueError "relationship activity cursor is unknown or stale")
  | e :: events => if has_text "event_id" event_id e then mret (S index) else index_after event_id (S index) events
  end.
Definition _start_index (events : list dict) (after observer : string) : res nat :=
  if String.eqb after "" then mret 0%nat
  else
    m ← of_option (ValueError "invalid relationship activity cursor") (CURSOR_RE after);
    raise_if (negb (String.eqb m.1 (_observer_scope observer)))
      (ValueError "relationship activity cursor belongs to another observer");;
    index_after m.2 0 events.

(** [v in c] for a text *)
Definition contains_text (v : string) (c : value) : res bool :=
  match c with
  | VList l => mret (existsb (λ x, is_text x v) l)
  | VMap d => mret (dict_has v d)
  | VStr s => mret (match String.index 0 v s with Some _ => true | None => false end)
  | VBytes _ => Err (TypeError "a bytes-like object is required, not 'str'")
  | _ => Err (TypeError "argument is not iterable")
  end.
(** [s.removeprefix(p)] *)
Definition removeprefix (p s : string) : string :=
  if startswith p s then substring (String.length p) (String.length s - String.length p) s else s.
Definition int_or (default : Z) (k : string) (d : dict) : res Z := py_int (dict_get_or (VInt default) k d).
Definition list_or (k : string) (d : dict) : res value := VList <$> py_iter (dict_get_or (VList []) k d).

(** The first transition that the event reports *)
Fixpoint find_transition (transition_type subject_ref evidence_ref : string) (observed : Z) (l : list dict)
    : res (option dict) :=
  match l with
  | [] => mret None
  | item :: l =>
      source ← (if has_text "transition_type" transition_type item
                then contains_text subject_ref (dict_get_or (VList []) "source_subject_refs" item) else mret false);
      same ← (if (source : bool) && has_text "evidence_ref" evidence_ref item
              then t ← int_or 0 "observed_ms" item; mret (t =? observed) else mret false);
      if same : bool then mret (Some item) else find_transition transition_type subject_ref evidence_ref observed l
  end.
Definition _transition_for_event (event : dict) (transitions : list dict) : res (option dict) :=
  observed ← int_or 0 "observed_ms" event;
  find_transition (removeprefix "subject." (text_or "" "event_type" event)) (text_or "" "subject_ref" event)
    (text_or "" "evidence_ref" event) observed transitions.

(** What the events are shown with *)
Record context := {
  cx_interactions : gmap (string * string * string * Z) dict;
  cx_transitions : list dict;
  cx_decisions : gmap string dict;
  cx_actors : gmap string dict;
}.
(** [details.update(...)] *)
Definition dict_update (d entries : dict) : dict := foldl (λ d kv, dict_set d kv.1 kv.2) d entries.
(** [details.setdefault(k, v)] *)
Definition dict_default (k : string) (v : value) (d : dict) : dict := if dict_has k d then d else dict_set d (VStr k) v.
Definition actor_details (event_type actor_id : string) (cx : context) (details : dict) : dict :=
  let details := match cx_actors cx !! actor_id with
                 | Some actor => dict_default "actor_kind" (VStr (text_or "" "actor_kind" actor)) details
                 | None => details
                 end in
  dict_set details (VStr "actor_state") (VStr (if String.eqb event_type "actor.revoked" then "revoked" else "observed")).
Definition interaction_details (interaction : dict) : res dict :=
  facets ← list_or "facets" interaction;
  mret [field "interaction_id" (VStr (text_or "" "interaction_id" interaction));
        field "direction" (VStr (text_or "" "direction" interaction)); field "facets" facets;
        field "context" (VStr (text_or "" "context" interaction));
        field "outcome" (VStr (text_or "" "outcome" interaction))].
Definition transition_details (transition : dict) : res dict :=
  sources ← list_or "source_subject_refs" transition;
  replacements ← list_or "replacement_subject_refs" transition;
  confidence ← int_or 0 "confidence" transition;
  mret [field "transition_id" (VStr (text_or "" "transition_id" transition));
        field "transition_type" (VStr (text_or "" "transition_type" transition));
        field "source_subject_refs" sources; field "replacement_subject_refs" replacements;
        field "confidence" (VInt confidence)].
Definition decision_details (suggestion_id : string) (decision : dict) : dict :=
  [field "decision_id" (VStr (text_or "" "decision_id" decision)); field "suggestion_id" (VStr suggestion_id);
   field "suggestion_type" (VStr (text_or "" "suggestion_type" decision));
   field "decision" (VStr (text_or "" "decision" decision));
   field "proposed_circle" (VStr (text_or "" "proposed_circle" decision));
   field "context" (VStr (text_or "" "context" decision));
   field "proposed_estimate" (dict_get "proposed_estimate" decision);
   field "applied" (VBool (truthy (dict_get_or (VBool false) "applied" decision)));
   field "rationale_digest" (VStr (_evidence_digest (text_or "" "rationale" decision)))].
(** The category, the level of fact and the details of an event *)
Definition shown (event : dict) (event_type actor_id subject_ref evidence_ref : string) (occurred : Z) (cx : context)
    (details : dict) : res (string * string * dict) :=
  if startswith "actor." event_type then mret ("actor", "verified", actor_details event_type actor_id cx details)
  else if String.eqb event_type "interaction.observed" then
    match cx_interactions cx !! (actor_id, subject_ref, evidence_ref, occurred) with
    | Some interaction => more ← interaction_details interaction; mret ("interaction", "verified", dict_update details more)
    | None => mret ("interaction", "verified", details)
    end
  else if startswith "subject." event_type then
    transition ← _transition_for_event event (cx_transitions cx);
    match transition with
    | Some transition => more ← transition_details transition; mret ("subject", "inference", dict_update details more)
    | None => mret ("subject", "inference", details)
    end
  else if startswith "relationship.suggestion-" event_type then
    let suggestion_id := if startswith "suggestion:" evidence_ref then removeprefix "suggestion:" evidence_ref else "" in
    mret ("decision", "decision",
      match cx_decisions cx !! suggestion_id with
      | Some decision => dict_update details (decision_details suggestion_id decision)
      | None => details
      end)
  else mret ("relationship", "estimate", details).
(** The keys of details are texts, and sorted as such. *)
Definition _project (event : dict) (observer : string) (cx : context) : res RelationshipActivity :=
  let event_id := text_or "" "event_id" event in
  let event_type := text_or "" "event_type" event in
  let actor_id := text_or "" "actor_id" event in
  let subject_ref := text_or "" "subject_ref" event in
  occurred ← int_or 0 "observed_ms" event;
  let evidence_ref := text_or "" "evidence_ref" event in
  details ← py_dict (dict_get_or (VMap []) "details" event);
  s ← shown event event_type actor_id subject_ref evidence_ref occurred cx details;
  cursor ← _cursor observer event_id;
  mret {| ac_activity_id := event_id; ac_cursor := cursor; ac_activity_type := event_type; ac_category := s.1.1;
          ac_fact_level := s.1.2; ac_actor_id := actor_id; ac_subject_ref := subject_ref; ac_occurred_ms := occurred;
          ac_details := order_by (λ kv, codes (py_str kv.1)) s.2; ac_evidence_digest := _evidence_digest evidence_ref |}.

(** [{key(item): item for item in l}] *)
Definition index_by {K} `{Countable K} (key : dict → res K) (l : list dict) : res (gmap K dict) :=
  pairs ← map_res (λ item, k ← key item; mret (k, item)) l;
  mret (foldl (λ m kv, <[kv.1 := kv.2]> m) ∅ pairs).
Definition interaction_key (item : dict) : res (string * string * string * Z) :=
  occurred ← int_or 0 "occurred_ms" item;
  mret (text_or "" "actor_id" item, text_or "" "subject_ref" item, text_or "" "evidence_ref" item, occurred).
Definition context_of (model : dict) : res context :=
  rows ← rows_of "interactions" model;
  interactions ← index_by interaction_key rows;
  transitions ← rows_of "subject_transitions" model;
  rows ← rows_of "suggestion_decisions" model;
  decisions ← index_by (λ item, mret (text_or "" "suggestion_id" item)) rows;
  rows ← rows_of "actors" model;
  actors ← index_by (λ item, mret (text_or "" "actor_id" item)) rows;
  mret {| cx_interactions := interactions; cx_transitions := transitions; cx_decisions := decisions; cx_actors := actors |}.
(** The loop over the events from the start: at most [room] activities, those of [selected] if it
    is given; and the last event the loop reached, and how many are left *)
Fixpoint read_events (events : list dict) (room : nat) (selected observer : string) (cx : context) (last : string)
    : res (list RelationshipActivity * string * nat) :=
  match events, room with
  | e :: events', S room' =>
      let last := text_or "" "event_id" e in
      if negb (String.eqb selected "") && negb (String.eqb (text_or "" "subject_ref" e) selected)
      then read_events events' room selected observer cx last
      else
        x ← _project e observer cx;
        r ← read_events events' room' selected observer cx last;
        mret (x :: r.1.1, r.1.2, r.2)
  | _, _ => mret ([], last, length events)
  end.
Definition read (model : dict) (after : string) (limit : Z) (subject_ref : string) (tail : bool)
    : res RelationshipActivityPage :=
  let observer := text_or "" "observer_actor_id" model in
  raise_if (String.eqb observer "") (ValueError "relationship activity requires an observer Actor");;
  raise_if (negb ((1 <=? limit) && (limit <=? 500))) (ValueError "relationship activity limit must be 1-500");;
  let selected := strip subject_ref in
  raise_if (tail && (negb (String.eqb after "") || negb (String.eqb selected "")))
    (ValueError "relationship activity tail cannot use after or subject filters");;
  subjects ← rows_of "subjects" model;
  raise_if (negb (String.eqb selected "") && outside (List.map (text_or "" "subject_ref") subjects) selected)
    (KeyError ("unknown Subject hypothesis: " +:+ selected));;
  events ← rows_of "events" model;
  start ← (if tail then mret (length events - Z.to_nat limit)%nat else _start_index events (strip after) observer);
  cx ← context_of model;
  r ← read_events (drop start events) (Z.to_nat limit) selected observer cx "";
  next ← (if String.eqb r.1.2 "" then mret (strip after) else _cursor observer r.1.2);
  mret {| pg_observer := observer; pg_activities := r.1.1; pg_next_cursor := next;
          pg_has_more := negb (r.2 =? 0)%nat |}.
End feed.
