(* ===== verification/RelationActivityLaws.v ===== *)
(** A client that reads the activity feed of a relationship book (src/anet/relation_activity.py)
    with the cursors it is given sees every event once and in order, however the book grows. *)
From S2P Require Import Prelude PyStr PyVal Codecs Locator ControlPlane RelationData RelationBook RelationLaws RelationRun RelationJudge RelationLineage RelationFile RelationHistory RelationGuarantees Advisor AdvisorLaws RelationActivity.

(** ** Cursors *)

Lemma cursor_parts scope id :
  fullmatch_hex 16 scope = true → EVENT_ID_RE id = true → CURSOR_RE ("rac_" +:+ scope +:+ "_" +:+ id) = Some (scope, id).
Proof.
  intros Hs Hid. pose proof Hs as Hlen. unfold fullmatch_hex in Hlen. apply andb_true_iff in Hlen as [Hlen%Nat.eqb_eq _].
  set (s := "rac_" +:+ scope +:+ "_" +:+ id).
  assert (substring 4 16 s = scope ∧ substring 20 1 s = "_" ∧ substring 21 (String.length s - 21) s = id) as (E1 & E2 & E3).
  { subst s. clear -Hlen. do 16 (destruct scope as [|? scope]; [discriminate Hlen|]). destruct scope; [|discriminate Hlen].
    split_and!; [reflexivity|by destruct id|]. rewrite !append_cons, !append_nil_l. cbn [substring String.length Nat.sub].
    apply substring_ge. lia. }
  unfold CURSOR_RE. rewrite E1, E2, E3, Hs, Hid. subst s. by rewrite startswith_app.
Qed.

Section feed_laws.
Context {PL : Platform} {DG : Digests} {SG : Signatures} {UL : Urllib} (own : string).

(** ** Every event of a book can be shown *)

Lemma index_by_rows {K} `{Countable K} {A} (to : A → dict) (key : dict → res K) (l : list A) :
  (∀ x, ∃ k, key (to x) = Ok k) → ∃ m, index_by key (to <$> l) = Ok m ∧ ∀ k d, m !! k = Some d → ∃ x, d = to x.
Proof.
  intros Hkey. unfold index_by. assert (∃ pairs, map_res (λ item, k ← key item; mret (k, item)) (to <$> l) = Ok pairs ∧
    Forall (λ kv : K * dict, ∃ x, kv.2 = to x) pairs) as (pairs & -> & Hpairs).
  { induction l as [|x l (pairs & IH & Hp)]; [by exists []|]. destruct (Hkey x) as [k Hk]. exists ((k, to x) :: pairs).
    cbn [fmap list_fmap map_res]. split; [by rewrite Hk; cbn [mbind res_bind]; rewrite IH|]. constructor; [by exists x|done]. }
  eexists. split; [done|]. cut (∀ m : gmap K dict, (∀ k d, m !! k = Some d → ∃ x, d = to x) →
    ∀ k d, foldl (λ m kv, <[kv.1 := kv.2]> m) m pairs !! k = Some d → ∃ x, d = to x).
  { intros Hall. apply Hall. intros k d Hk. by rewrite lookup_empty in Hk. }
  induction Hpairs as [|[k0 d0] pairs Hx _ IH]; intros m Hm; [done|]. cbn [foldl fst snd]. apply IH. intros k d.
  rewrite lookup_insert_Some. intros [[_ <-]|[_ Hk]]; [done|by eapply Hm].
Qed.
(** What a context of rows of the book holds *)
Record rows_of_book (cx : context) : Prop := {
  rb_interactions : ∀ k d, cx_interactions cx !! k = Some d → ∃ i, d = interaction_to_dict i;
  rb_transitions : ∃ l, cx_transitions cx = transition_to_dict <$> l;
}.
Lemma context_ok b : ∃ cx, context_of (snapshot own b) = Ok cx ∧ rows_of_book cx.
Proof.
  unfold context_of. rewrite (rows_maps interaction_to_dict "interactions" (snapshot own b) (in_order (b_interactions b))) by done. cbn [mbind res_bind].
  destruct (index_by_rows interaction_to_dict interaction_key (in_order (b_interactions b))) as (m & -> & Hm); [intros x; eexists; reflexivity|].
  cbn [mbind res_bind]. rewrite (rows_maps transition_to_dict "subject_transitions" (snapshot own b) (b_transitions b)) by done. cbn [mbind res_bind].
  rewrite (rows_maps decision_to_dict "suggestion_decisions" (snapshot own b) (in_order (b_suggestion_decisions b))) by done. cbn [mbind res_bind].
  destruct (index_by_rows decision_to_dict (λ item, mret (text_or "" "suggestion_id" item)) (in_order (b_suggestion_decisions b)))
    as (decisions & -> & _); [intros x; eexists; reflexivity|].
  cbn [mbind res_bind]. rewrite (rows_maps actor_to_dict "actors" (snapshot own b) (in_order (b_actors b))) by done. cbn [mbind res_bind].
  destruct (index_by_rows actor_to_dict (λ item, mret (text_or "" "actor_id" item)) (in_order (b_actors b)))
    as (actors & -> & _); [intros x; eexists; reflexivity|].
  eexists. split; [done|]. split; [exact Hm|by eexists].
Qed.
Lemma find_transition_ok type ref evidence observed l :
  ∃ o, find_transition type ref evidence observed (transition_to_dict <$> l) = Ok o ∧
    ∀ d, o = Some d → ∃ t, d = transition_to_dict t.
Proof.
  induction l as [|t l IH]; [by exists None|]. cbn [fmap list_fmap find_transition].
  destruct (has_text "transition_type" type (transition_to_dict t)); [|exact IH].
  change (contains_text ref _) with (Ok (existsb (λ x, is_text x ref) (VStr <$> n_source_subject_refs t))). cbn [mbind res_bind].
  destruct (existsb _ _ && has_text _ _ _); [|exact IH]. change (int_or 0 "observed_ms" _) with (Ok (n_observed_ms t)).
  cbn [mbind res_bind]. change (mret ?x) with (Ok x). cbn [mbind res_bind]. destruct (n_observed_ms t =? observed); [|exact IH].
  eexists. split; [done|]. intros d [= <-]. by eexists.
Qed.
Lemma shown_ok v cx details : rows_of_book cx → ∃ s, shown (event_to_dict v) (v_event_type v) (v_actor_id v) (v_subject_ref v)
  (v_evidence_ref v) (v_observed_ms v) cx details = Ok s.
Proof.
  intros [Hi [l Hl]]. unfold shown. destruct (startswith "actor." _); [by eexists|].
  destruct (String.eqb _ "interaction.observed").
  { destruct (cx_interactions cx !! _) as [d|] eqn:E; [|by eexists]. apply Hi in E as [i ->]. by eexists. }
  destruct (startswith "subject." _).
  { rewrite Hl. unfold _transition_for_event. change (int_or 0 "observed_ms" _) with (Ok (v_observed_ms v)). cbn [mbind res_bind].
    destruct (find_transition_ok (removeprefix "subject." (text_or "" "event_type" (event_to_dict v)))
      (text_or "" "subject_ref" (event_to_dict v)) (text_or "" "evidence_ref" (event_to_dict v)) (v_observed_ms v) l) as (o & -> & Ho).
    cbn [mbind res_bind]. destruct o as [d|]; [|by eexists]. destruct (Ho d eq_refl) as [t ->]. by eexists. }
  destruct (startswith "relationship.suggestion-" _); by eexists.
Qed.
Lemma project_ok v cx : rows_of_book cx → EVENT_ID_RE (v_event_id v) = true →
  ∃ x, _project (event_to_dict v) own cx = Ok x ∧ ac_activity_id x = v_event_id v.
Proof.
  intros Hcx Hid. unfold _project. change (int_or 0 "observed_ms" _) with (Ok (v_observed_ms v)). cbn [mbind res_bind].
  change (py_dict _) with (Ok (prod_map VStr id <$> v_details v)). cbn [mbind res_bind].
  destruct (shown_ok v cx (prod_map VStr id <$> v_details v) Hcx) as [s Hs].
  change (text_or "" "event_type" (event_to_dict v)) with (v_event_type v).
  change (text_or "" "actor_id" (event_to_dict v)) with (v_actor_id v).
  change (text_or "" "subject_ref" (event_to_dict v)) with (v_subject_ref v).
  change (text_or "" "evidence_ref" (event_to_dict v)) with (v_evidence_ref v).
  change (text_or "" "event_id" (event_to_dict v)) with (v_event_id v).
  rewrite Hs. cbn [mbind res_bind]. unfold _cursor. rewrite Hid. cbn [negb raise_if mbind res_bind]. by eexists.
Qed.

(** ** One page *)

(** The id of the last event that a page covers *)
Definition last_id (last : string) (l : list RelationshipEvent) : string := default last (v_event_id <$> list.last l).
Lemma read_events_ok cx events : rows_of_book cx → Forall (λ v, EVENT_ID_RE (v_event_id v) = true) events →
  ∀ room last, ∃ xs, read_events (event_to_dict <$> events) room "" own cx last =
      Ok (xs, last_id last (take room events), (length events - room)%nat) ∧
    ac_activity_id <$> xs = v_event_id <$> take room events.
Proof.
  intros Hcx Hids. induction Hids as [|v events Hid _ IH]; intros room last.
  { exists []. by destruct room. }
  destruct room as [|room]; [exists []; split; [cbn; by rewrite length_fmap|done]|].
  destruct (project_ok v cx Hcx Hid) as (x & Hx & Hxid). destruct (IH room (v_event_id v)) as (xs & Hxs & Hxids).
  exists (x :: xs). cbn [fmap list_fmap read_events String.eqb negb andb]. rewrite Hx. cbn [mbind res_bind].
  change (text_or "" "event_id" (event_to_dict v)) with (v_event_id v). rewrite Hxs. cbn [mbind res_bind fst snd]. split.
  - unfold last_id. cbn [take]. rewrite last_cons. by destruct (list.last (take room events)).
  - cbn [take fmap list_fmap]. by rewrite Hxid, Hxids.
Qed.
Lemma index_after_ok id events v : NoDup (v_event_id <$> events) →
  ∀ i n, events !! i = Some v → v_event_id v = id → index_after id n (event_to_dict <$> events) = Ok (S (n + i)).
Proof.
  induction events as [|v' events IH]; cbn [fmap list_fmap]; [done|]. intros [Hv' Hnd]%NoDup_cons i n Hi Hid. cbn [index_after].
  change (has_text "event_id" id (event_to_dict v')) with (String.eqb (v_event_id v') id).
  destruct i as [|i]; cbn in Hi.
  - injection Hi as ->. by rewrite Hid, String.eqb_refl, Nat.add_0_r.
  - destruct (String.eqb_spec (v_event_id v') id) as [E|_].
    + destruct Hv'. rewrite E, <- Hid. by eapply list_elem_of_fmap_2, list_elem_of_lookup_2.
    + rewrite (IH Hnd i (S n)) by done. f_equal. lia.
Qed.

(** The cursor after [n] events *)
Definition cursor_after (events : list RelationshipEvent) (n : nat) : string :=
  match list.last (take n events) with
  | Some v => "rac_" +:+ _observer_scope own +:+ "_" +:+ v_event_id v
  | None => ""
  end.
(** The scope of a cursor is a blake2s digest of 8 bytes as hexadecimal digits. *)
Hypothesis hex_scope : ∀ raw, fullmatch_hex 16 (blake2s_hexdigest 8 "anet-rac" raw) = true.
Hypothesis has_own : own ≠ "".

Lemma event_chars id : EVENT_ID_RE id = true → str_forall stable_char id = true.
Proof.
  unfold EVENT_ID_RE. intros [(t & ->)%startswith_spec H]%andb_true_iff.
  rewrite length_append in H. change 5%nat with (String.length "revt_") in H. rewrite substring_suffix, substring_ge in H by lia.
  apply fullmatch_hex_stable in H. by rewrite str_forall_app, H.
Qed.
Lemma cursor_strip events n : Forall (λ v, EVENT_ID_RE (v_event_id v) = true) events →
  strip (cursor_after events n) = cursor_after events n.
Proof.
  intros Hids. unfold cursor_after. destruct (list.last (take n events)) as [v|] eqn:Hv; [|done].
  apply last_Some_elem_of, elem_of_take_elem in Hv. rewrite Forall_forall in Hids. specialize (Hids _ Hv).
  apply strip_stable. rewrite !str_forall_app, (event_chars _ Hids).
  by rewrite (fullmatch_hex_stable _ _ (hex_scope (utf8 own)) : str_forall stable_char (_observer_scope own) = true).
Qed.
Lemma start_ok events n : NoDup (v_event_id <$> events) → Forall (λ v, EVENT_ID_RE (v_event_id v) = true) events →
  (n ≤ length events)%nat → _start_index (event_to_dict <$> events) (cursor_after events n) own = Ok n.
Proof.
  intros Hnd Hids Hn. destruct n as [|n]; [done|].
  destruct (lookup_lt_is_Some_2 events n) as [v Hv]; [lia|]. pose proof (proj1 (Forall_lookup _ _) Hids _ _ Hv) as Hid. cbn in Hid.
  unfold cursor_after. rewrite (take_S_r _ _ v Hv), last_snoc. unfold _start_index.
  destruct (String.eqb_spec ("rac_" +:+ _observer_scope own +:+ "_" +:+ v_event_id v) "") as [E|_]; [discriminate E|].
  rewrite cursor_parts by first [apply hex_scope|done]. cbn [of_option mbind res_bind fst snd]. rewrite String.eqb_refl. cbn [negb raise_if mbind res_bind].
  by rewrite (index_after_ok _ _ v Hnd n 0%nat Hv eq_refl).
Qed.
(** A page after [n] events: the next events, the cursor after them, and whether there are more *)
Lemma read_ok b n limit :
  book_ok own b → Forall (λ v, EVENT_ID_RE (v_event_id v) = true) (b_events b) → (n ≤ length (b_events b))%nat →
  1 ≤ limit ≤ 500 → let events := b_events b in let m := Nat.min (n + Z.to_nat limit) (length events) in
  ∃ page, read (snapshot own b) (cursor_after events n) limit "" false = Ok page ∧
    ac_activity_id <$> pg_activities page = v_event_id <$> take (m - n) (drop n events) ∧
    pg_next_cursor page = cursor_after events m ∧ (pg_has_more page = false ↔ m = length events).
Proof.
  intros Hok Hids Hn Hlimit events m. unfold read. fold events in Hids.
  change (text_or "" "observer_actor_id" (snapshot own b)) with own. destruct (String.eqb_spec own "") as [?|_]; [done|].
  cbn [raise_if mbind res_bind]. rewrite (proj2 (Z.leb_le 1 limit)), (proj2 (Z.leb_le limit 500)) by lia.
  cbn [andb negb raise_if mbind res_bind]. change (strip "") with "". cbn [String.eqb negb andb raise_if mbind res_bind].
  rewrite (rows_maps subject_to_dict "subjects" (snapshot own b) (in_order (b_subjects b))) by done.
  cbn [mbind res_bind]. rewrite (rows_maps event_to_dict "events" (snapshot own b) events) by done. cbn [mbind res_bind].
  rewrite cursor_strip, start_ok by (done || apply (bo_event_ids _ _ Hok)). cbn [mbind res_bind].
  destruct (context_ok b) as (cx & -> & Hcx). cbn [mbind res_bind]. rewrite <- fmap_drop.
  destruct (read_events_ok cx (drop n events) Hcx (Forall_drop _ _ _ Hids) (Z.to_nat limit) "") as (xs & -> & Hxs).
  cbn [mbind res_bind fst snd].
  fold events in Hn. assert (m = Nat.min (n + Z.to_nat limit) (length events)) as Hm0 by done. clearbody m.
  assert (take (Z.to_nat limit) (drop n events) = take (m - n) (drop n events)) as Htake.
  { destruct (decide (Z.to_nat limit ≤ length events - n)%nat).
    - f_equal. lia.
    - rewrite !take_ge; [done|rewrite length_drop; lia..]. }
  assert (take m events = take n events ++ take (m - n) (drop n events)) as Hm.
  { rewrite take_take_drop. f_equal. lia. }
  rewrite Htake in *. rewrite length_drop.
  assert ((length events - n - Z.to_nat limit =? 0)%nat = bool_decide (m = length events)) as ->.
  { apply Bool.eq_iff_eq_true. rewrite Nat.eqb_eq, bool_decide_eq_true. lia. }
  unfold last_id. destruct (list.last (take (m - n) (drop n events))) as [v|] eqn:Hv; cbn [from_option id default option_fmap option_map fmap].
  - assert (EVENT_ID_RE (v_event_id v) = true) as Hid.
    { rewrite Forall_forall in Hids. apply Hids. apply last_Some_elem_of, elem_of_take_elem in Hv.
      rewrite <- (take_drop n events). apply elem_of_app. by right. }
    destruct (String.eqb_spec (v_event_id v) "") as [E|_]; [by rewrite E in Hid|]. unfold _cursor. rewrite Hid.
    cbn [negb raise_if mbind res_bind]. eexists. split; [reflexivity|]. cbn. split_and!; [done| |].
    + unfold cursor_after. by rewrite Hm, last_app, Hv.
    + rewrite negb_false_iff. apply bool_decide_eq_true.
  - apply last_None in Hv. rewrite Hv in *. rewrite app_nil_r in Hm.
    assert (m = n) as Hmn.
    { assert (length (take m events) = length (take n events)) as Hl by (by rewrite Hm). rewrite !length_take in Hl. lia. }
    eexists. split; [reflexivity|]. cbn. split_and!; [done|by rewrite Hmn|].
    rewrite negb_false_iff. apply bool_decide_eq_true.
Qed.

(** ** A client that follows the feed *)

(** The client has read [ids] from the pages so far and holds [cursor]; [more] is what the last page
    said.  Between two pages the book takes any steps. *)
Inductive follows : RelationshipBook → list string → string → bool → Prop :=
  | follows_start b : rtc (book_step own) new_book b → follows b [] "" true
  | follows_book b b' ids cursor more : follows b ids cursor more → book_step own b b' → follows b' ids cursor true
  | follows_page b ids cursor more limit page :
      follows b ids cursor more → read (snapshot own b) cursor limit "" false = Ok page →
      follows b (ids ++ (ac_activity_id <$> pg_activities page)) (pg_next_cursor page) (pg_has_more page).
Lemma follows_reached b ids cursor more : follows b ids cursor more → rtc (book_step own) new_book b.
Proof. induction 1 as [b H|b b' ids cursor more _ IH Hstep|]; [done|by eapply rtc_r|done]. Qed.
Definition well_named (b : RelationshipBook) : Prop := Forall (λ v, EVENT_ID_RE (v_event_id v) = true) (b_events b).
Lemma follows_ok b ids cursor more : follows b ids cursor more → well_named b →
  ∃ n, (n ≤ length (b_events b))%nat ∧ ids = v_event_id <$> take n (b_events b) ∧ cursor = cursor_after (b_events b) n ∧
    (more = false → n = length (b_events b)).
Proof.
  induction 1 as [b H|b b' ids cursor more Hf IH Hstep|b ids cursor more limit page Hf IH Hread]; intros Hids.
  - exists 0%nat. split_and!; [lia|done..].
  - pose proof (steps_grow own _ _ (reached_sound own _ (follows_reached _ _ _ _ Hf)) (rtc_once _ _ Hstep)) as [[l El] _ _ _ _ _ _].
    unfold well_named in *. rewrite El in *. apply Forall_app in Hids as [Hids _].
    destruct (IH Hids) as (n & Hn & -> & -> & _). exists n. rewrite length_app. split_and!; [lia| | |done].
    + by rewrite take_app_le.
    + unfold cursor_after. by rewrite take_app_le.
  - destruct (IH Hids) as (n & Hn & -> & -> & _). pose proof (reached_sound own _ (follows_reached _ _ _ _ Hf)) as [Hok _].
    assert (1 ≤ limit ≤ 500) as Hlimit.
    { clear -Hread. unfold read in Hread. apply res_bind_ok in Hread as (? & _ & Hread). apply res_bind_ok in Hread as (? & Hg & _).
      apply raise_if_ok in Hg. bool_prop. lia. }
    destruct (read_ok b n limit Hok Hids Hn Hlimit) as (page' & Hread' & Hpage & Hnext & Hmore). rewrite Hread in Hread'. injection Hread' as <-.
    exists (Nat.min (n + Z.to_nat limit) (length (b_events b))). split_and!; [lia| |done|by intros ?%Hmore].
    rewrite Hpage, <- fmap_app, take_take_drop. do 2 f_equal. lia.
Qed.
(** C25: the feed loses and repeats nothing.  A client that reads pages of any size with the cursor of
    the last one, while the book goes through any calls and restarts, has read the ids of the
    events from the first on, each once and in order; when a page says there is no more it has read
    all of them; and the next page always succeeds and brings as many of the events that are left
    as fit, so the client catches up.  The tokens of event ids are the 24 hexadecimal digits that
    [secrets.token_hex] makes ([well_named]), and the digest of the observer has 16. *)
Theorem feed_complete b ids cursor more limit :
  follows b ids cursor more → well_named b → 1 ≤ limit ≤ 500 →
  let events := v_event_id <$> b_events b in
  NoDup ids ∧ ids `prefix_of` events ∧ (more = false → ids = events) ∧
  ∃ page, read (snapshot own b) cursor limit "" false = Ok page ∧
    (ac_activity_id <$> pg_activities page) = take (Z.to_nat limit) (drop (length ids) events) ∧
    (pg_has_more page = false ↔ (length events - length ids ≤ Z.to_nat limit)%nat).
Proof.
  intros Hf Hids Hlimit events. pose proof (reached_sound own _ (follows_reached _ _ _ _ Hf)) as [Hok _].
  destruct (follows_ok _ _ _ _ Hf Hids) as (n & Hn & -> & -> & Hmore).
  destruct (read_ok b n limit Hok Hids Hn Hlimit) as (page & Hread & Hpage & _ & Hlast).
  assert (v_event_id <$> take n (b_events b) = take n events) as E by (by rewrite fmap_take). rewrite E.
  assert (length (take n events) = n) as Hlen by (rewrite length_take; subst events; rewrite length_fmap; lia).
  assert (length events = length (b_events b)) as Hall by (subst events; apply length_fmap).
  split_and!.
  - eapply sublist_NoDup; [apply (bo_event_ids _ _ Hok)|apply sublist_take].
  - apply prefix_take.
  - intros ->%Hmore. apply take_ge. lia.
  - exists page. split_and!; [done| |rewrite Hlast, Hlen; lia]. rewrite Hpage, Hlen, fmap_take, fmap_drop. fold events.
    destruct (decide (Z.to_nat limit ≤ length events - n)%nat); [f_equal; lia|].
    rewrite !take_ge; [done|rewrite length_drop; lia..].
Qed.
End feed_laws.
