(* ===== verification/RelationActivitySamples.v ===== *)
(** The activity feed at work: a client reads the three events of a book in two pages, and the
    theorem of RelationActivityLaws at this point. *)
From S2P Require Import Prelude PyStr PyVal Codecs Locator ControlPlane ControlStore ControlReads RelationData RelationBook RelationLaws RelationRun RelationJudge RelationLineage RelationFile RelationHistory RelationGuarantees RelationTyped RelationSamples Advisor AdvisorLaws AdvisorSamples RelationActivity RelationActivityLaws.

#[local] Existing Instances digest_platform sample_digests sample_signatures sample_urls.

(** ** Tokens of 24 hexadecimal digits *)

(** The tokens of a call that appends one event; those it does not use are only different. *)
Definition draw24 (c : ascii) : draws :=
  {| subject_token := λ n, String c (marks n);
     event_token := λ n, match n with O => String c "00000000000000000000000" | S n => String c (marks (S n)) end;
     transition_token := String c "" |}.
Lemma unused_fresh24 c b : is_space c = false → unused c b = true → fresh (draw24 c) b.
Proof.
  intros Hc Hb. destruct (unused_fresh c b Hc Hb) as [H1 H2 _ _ H5 H6]. split; try done.
  - intros n (v & E & Hv)%list_elem_of_fmap. unfold unused in Hb. apply andb_true_iff in Hb as [[_ Hb]%andb_true_iff _].
    rewrite forallb_forall in Hb. apply list_elem_of_In, Hb, negb_true_iff, bool_decide_eq_false in Hv.
    apply Hv. rewrite <- E. by destruct n.
  - intros [|m] [|n] H; try done; try discriminate H. f_equal. apply marks_inj. by injection H.
Qed.
Definition event_history : list (ascii * book_call) :=
  [("a"%char, ObserveTyped person 60 1000);
   ("b"%char, SetCircle "subj_a" "known" 80 "operator:1" [] 1002);
   ("c"%char, RecordInteraction (met_task "iev_1" "incoming" "submitted" 1101))].
Definition next24 (b : RelationshipBook) (kc : ascii * book_call) : RelationshipBook :=
  (run_call me (draw24 kc.1) kc.2 b).2.
Definition observed_book : RelationshipBook := foldl next24 new_book event_history.
Fixpoint playable24 (b : RelationshipBook) (l : list (ascii * book_call)) : Prop :=
  match l with
  | [] => True
  | kc :: l => is_space kc.1 = false ∧ unused kc.1 b = true ∧ built kc.2 ∧ playable24 (next24 b kc) l
  end.
Lemma played24 l : ∀ b, playable24 b l → rtc (book_step me) b (foldl next24 b l).
Proof.
  induction l as [|kc l IH]; intros b; [done|]. intros (Hc & Hu & Hcall & Hl).
  eapply rtc_l; [|by apply IH]. exists (draw24 kc.1), kc.2, (run_call me (draw24 kc.1) kc.2 b).1.
  split_and!; [by apply unused_fresh24|done|]. unfold next24. by destruct (run_call _ _ _ b).
Qed.
Lemma reached_observed : rtc (book_step me) new_book observed_book.
Proof.
  apply played24. unfold event_history. cbn [playable24].
  split_and!; first [exact I|vm_compute; reflexivity|repeat split].
Qed.

(** ** A client *)

Definition no_page : RelationshipActivityPage := Build_RelationshipActivityPage "" [] "" false.
Definition page1 : RelationshipActivityPage :=
  match read (snapshot me observed_book) "" 2 "" false with Ok p => p | Err _ => no_page end.
Definition page2 : RelationshipActivityPage :=
  match read (snapshot me observed_book) (pg_next_cursor page1) 2 "" false with Ok p => p | Err _ => no_page end.
Example pages_read :
  ((λ x, (ac_activity_type x, ac_category x)) <$> pg_activities page1, pg_has_more page1,
   (λ x, (ac_activity_type x, ac_category x)) <$> pg_activities page2, pg_has_more page2) =
  ([("actor.observed", "actor"); ("relationship.circle-set", "relationship")], true,
   [("interaction.observed", "interaction")], false).
Proof. vm_compute. reflexivity. Qed.
Lemma hex_text_16 z : fullmatch_hex 16 (hex_text 16 z) = true.
Proof.
  assert (∀ n z, String.length (hex_text n z) = n ∧ str_forall is_hex_lower (hex_text n z) = true) as H.
  { induction n as [|n IH]; intros z'; [done|]. destruct (IH (z' / 16)) as [IH1 IH2]. split; [cbn; by rewrite IH1|].
    cbn [hex_text str_forall]. rewrite IH2, andb_true_r. unfold hex_digit.
    generalize (Z.to_nat (z' mod 16)). intros k. do 16 (destruct k; [done|]). done. }
  unfold fullmatch_hex. destruct (H 16%nat z) as [-> ->]. done.
Qed.
Lemma feed_complete_witness :
  ∃ page, read (snapshot me observed_book) (pg_next_cursor page1) 2 "" false = Ok page ∧
    (ac_activity_id <$> pg_activities page) = ["revt_c00000000000000000000000"].
Proof.
  destruct (feed_complete (PL := digest_platform) me (λ raw, hex_text_16 (checksum ("anet-rac" +:+ raw))) ltac:(done) observed_book
    ([] ++ (ac_activity_id <$> pg_activities page1)) (pg_next_cursor page1) (pg_has_more page1) 2)
    as (_ & _ & _ & page & Hread & Hids & _).
  - apply (follows_page me observed_book [] "" true 2); [apply follows_start; exact reached_observed|].
    vm_compute. reflexivity.
  - apply Forall_forall. intros v Hv%list_elem_of_In.
    assert (forallb (λ v, EVENT_ID_RE (v_event_id v)) (b_events observed_book) = true) as H by (vm_compute; reflexivity).
    exact (proj1 (forallb_forall _ _) H _ Hv).
  - lia.
  - exists page. split; [exact Hread|]. rewrite Hids. vm_compute. reflexivity.
Defined.
