(* ===== verification/RelationClaims.v ===== *)
(** Mutual relationship claims (src/anet/relationship_claims.py): a proposal signed by one actor,
    its acceptance signed by the other, withdrawals signed by either, and [RelationshipClaimBook],
    which keeps verified ones in memory and in a JSON file.  Clock readings and the random
    proposal id are arguments. *)
From S2P Require Import Prelude PyStr PyVal Codecs Locator Packet ControlPlane RelationData RelationBook.

Definition RELATIONSHIP_CLAIM_VERSION : Z := 1.
Definition RELATIONSHIP_PROPOSAL_TYPE : string := "anet.relationship.proposal.v1".
Definition RELATIONSHIP_ACCEPTANCE_TYPE : string := "anet.relationship.acceptance.v1".
Definition RELATIONSHIP_WITHDRAWAL_TYPE : string := "anet.relationship.withdrawal.v1".
Definition RELATIONSHIP_CLAIM_BOOK_VERSION : Z := 2.
Definition CLAIM_CLOCK_SKEW_MS : Z := 5 * 60 * 1000.
Definition MAX_PROPOSAL_TTL_MS : Z := 7 * 24 * 60 * 60 * 1000.
Definition MAX_RELATIONSHIP_LABELS : Z := 32.

(** ** Fields *)

Definition _circle (v : string) : res string :=
  let circle := lower (strip v) in
  raise_if (outside (drop 1 RELATION_CIRCLES) circle)
    (ValueError "mutual relationship circle must be known or closer");;
  mret circle.
Definition _labels (l : list string) : res (list string) :=
  let labels := sorted_set (filter (λ v, v ≠ "") (strip <$> l)) in
  raise_if (MAX_RELATIONSHIP_LABELS <? Z.of_nat (length labels)) (ValueError "too many mutual relationship labels");;
  raise_if (existsb (λ v, MAX_LABEL_LENGTH <? len v) labels) (ValueError "mutual relationship label is too long");;
  mret labels.
Definition _proposal_id (v : string) : res string :=
  let proposal_id := lower (strip v) in
  raise_if (negb (len proposal_id =? 32)) (ValueError "invalid relationship proposal ID");;
  raise_if (negb (fromhex_ok false proposal_id)) (ValueError "invalid relationship proposal ID");;
  mret proposal_id.
Definition _actor_id (v : string) : res string :=
  let actor_id := lower (strip v) in
  raise_if (negb (NODE_ID_RE actor_id)) (ValueError "invalid relationship claim Actor ID");;
  mret actor_id.
(** [^mrel_[0-9a-f]{64}$] *)
Definition CLAIM_ID_RE (s : string) : bool :=
  startswith "mrel_" s && (String.length s =? 69)%nat && str_forall is_hex_lower (substring 5 64 s).
Definition _claim_id (v : string) : res string :=
  let claim_id := lower (strip v) in
  raise_if (negb (CLAIM_ID_RE claim_id)) (ValueError "invalid mutual relationship claim ID");;
  mret claim_id.
Definition _validate_window (created_ms expires_ms now : Z) (require_active : bool) : res unit :=
  raise_if ((created_ms <=? 0) || (expires_ms <=? created_ms))
    (ValueError "invalid relationship proposal validity window");;
  raise_if (MAX_PROPOSAL_TTL_MS <? expires_ms - created_ms)
    (ValueError "relationship proposal validity window is too long");;
  raise_if (now + CLAIM_CLOCK_SKEW_MS <? created_ms)
    (ValueError "relationship proposal was created too far in the future");;
  raise_if (require_active && (expires_ms <? now)) (ValueError "relationship proposal has expired").

(** [set(value) != expected] *)
Definition unexpected (expected : list string) (d : dict) : bool :=
  negb (forallb (λ kv, existsb (λ k, key_eqb (VStr k) kv.1) expected) d && forallb (λ k, dict_has k d) expected).

Section claims.
Context {PL : Platform} {DG : Digests} {SG : Signatures} {UL : Urllib}.

(** ** Cards and identities (identity.py) *)

Definition card_to_dict (k : PeerCard) : dict :=
  [field "version" (VInt (k_version k)); field "node_id" (VStr (k_node_id k));
   field "sign_public" (VStr (b64e (k_sign_public k))); field "box_public" (VStr (b64e (k_box_public k)));
   field "label" (VStr (k_label k)); field "addresses" (strings (k_addresses k));
   field "capabilities" (strings (k_capabilities k)); field "created_ms" (VInt (k_created_ms k));
   field "signature" (VStr (b64e (k_signature k)))].
(** [b64d(str(value[k]))] *)
Definition bytes_item (k : string) (d : dict) : res bytes := t ← text_item k d; b64d t.
Definition card_from_dict (d : dict) : res PeerCard :=
  version ← py_int (dict_get_or (VInt CARD_VERSION) "version" d);
  node_id ← text_item "node_id" d;
  sign_public ← bytes_item "sign_public" d;
  box_public ← bytes_item "box_public" d;
  addresses ← texts_of "addresses" d;
  capabilities ← texts_of "capabilities" d;
  created ← py_int (dict_get_or (VInt 0) "created_ms" d);
  signature ← bytes_item "signature" d;
  let card := {| k_node_id := node_id; k_sign_public := sign_public; k_box_public := box_public;
                 k_label := text_or "" "label" d; k_addresses := addresses; k_capabilities := capabilities;
                 k_created_ms := created; k_signature := signature; k_version := version |} in
  verify_card card;;
  mret card.
Definition node_id (i : Identity) : string := derive_node_id (i_sign_public i) (i_box_public i).
(** [Ed25519PublicKey.from_public_bytes(card.sign_public).verify(signature, canonical_pack(fields))] *)
Definition verify_by (card : PeerCard) (signature : bytes) (fields : list value) : res unit :=
  raise_if (negb (len (k_sign_public card) =? 32)) (ValueError "An Ed25519 public key is 32 bytes long");;
  packed ← canonical_pack (VList fields);
  raise_if (negb (ed25519_verify (k_sign_public card) signature packed)) InvalidSignature.
(** [canonical_pack([fields, signature])], the bytes that are hashed *)
Definition pack_signed (fields : list value) (signature : bytes) : res bytes :=
  canonical_pack (VList [VList fields; VBytes signature]).

(** ** Proposals *)

Record RelationshipProposal := {
  pr_proposal_id : string;
  pr_proposer_card : PeerCard;
  pr_peer_actor_id : string;
  pr_circle : string;
  pr_labels : list string;
  pr_created_ms : Z;
  pr_expires_ms : Z;
  pr_signature : bytes;
  pr_version : Z;
  pr_object_type : string;
}.
Definition proposal_fields (p : RelationshipProposal) : list value :=
  [VInt (pr_version p); VStr (pr_object_type p); VStr (pr_proposal_id p); VMap (card_to_dict (pr_proposer_card p));
   VStr (pr_peer_actor_id p); VStr (pr_circle p); strings (pr_labels p); VInt (pr_created_ms p);
   VInt (pr_expires_ms p)].
Definition verify_proposal (now : Z) (require_active : bool) (p : RelationshipProposal) : res unit :=
  raise_if (negb (pr_version p =? RELATIONSHIP_CLAIM_VERSION) ||
            negb (String.eqb (pr_object_type p) RELATIONSHIP_PROPOSAL_TYPE))
    (ValueError "unsupported relationship proposal");;
  _proposal_id (pr_proposal_id p);;
  verify_card (pr_proposer_card p);;
  peer ← _actor_id (pr_peer_actor_id p);
  raise_if (negb (String.eqb (pr_peer_actor_id p) peer) ||
            String.eqb (pr_peer_actor_id p) (k_node_id (pr_proposer_card p)))
    (ValueError "invalid relationship proposal peer Actor");;
  circle ← _circle (pr_circle p);
  raise_if (negb (String.eqb (pr_circle p) circle)) (ValueError "relationship proposal circle is not normalized");;
  labels ← _labels (pr_labels p);
  raise_if (negb (bool_decide (pr_labels p = labels)))
    (ValueError "relationship proposal labels are not normalized");;
  _validate_window (pr_created_ms p) (pr_expires_ms p) now require_active;;
  verify_by (pr_proposer_card p) (pr_signature p) (proposal_fields p).
Definition proposal_digest (p : RelationshipProposal) : res bytes :=
  packed ← pack_signed (proposal_fields p) (pr_signature p); mret (sha256 packed).
Definition proposal_to_dict (p : RelationshipProposal) : dict :=
  [field "version" (VInt (pr_version p)); field "type" (VStr (pr_object_type p));
   field "proposal_id" (VStr (pr_proposal_id p)); field "proposer_card" (VMap (card_to_dict (pr_proposer_card p)));
   field "peer_actor_id" (VStr (pr_peer_actor_id p)); field "circle" (VStr (pr_circle p));
   field "labels" (strings (pr_labels p)); field "created_ms" (VInt (pr_created_ms p));
   field "expires_ms" (VInt (pr_expires_ms p)); field "signature" (VStr (b64e (pr_signature p)))].
Definition signed_proposal (signature : bytes) (p : RelationshipProposal) : RelationshipProposal :=
  {| pr_proposal_id := pr_proposal_id p; pr_proposer_card := pr_proposer_card p;
     pr_peer_actor_id := pr_peer_actor_id p; pr_circle := pr_circle p; pr_labels := pr_labels p;
     pr_created_ms := pr_created_ms p; pr_expires_ms := pr_expires_ms p; pr_signature := signature;
     pr_version := pr_version p; pr_object_type := pr_object_type p |}.
Definition create_proposal (token : string) (identity : Identity) (card : PeerCard) (peer_actor_id circle : string)
    (labels : list string) (ttl_seconds now : Z) : res RelationshipProposal :=
  raise_if (negb (String.eqb (k_node_id card) (node_id identity)))
    (ValueError "relationship proposal card is not local");;
  let ttl_ms := Z.max 60000 (Z.min (ttl_seconds * 1000) MAX_PROPOSAL_TTL_MS) in
  peer ← _actor_id peer_actor_id;
  circle ← _circle circle;
  labels ← _labels labels;
  let unsigned := {| pr_proposal_id := token; pr_proposer_card := card; pr_peer_actor_id := peer;
                     pr_circle := circle; pr_labels := labels; pr_created_ms := now; pr_expires_ms := now + ttl_ms;
                     pr_signature := ""; pr_version := RELATIONSHIP_CLAIM_VERSION;
                     pr_object_type := RELATIONSHIP_PROPOSAL_TYPE |} in
  packed ← canonical_pack (VList (proposal_fields unsigned));
  let proposal := signed_proposal (i_sign identity packed) unsigned in
  verify_proposal now true proposal;;
  mret proposal.
Definition proposal_keys : list string :=
  ["version"; "type"; "proposal_id"; "proposer_card"; "peer_actor_id"; "circle"; "labels"; "created_ms";
   "expires_ms"; "signature"].
(** A list of strings *)
Definition string_list (v : value) : option (list string) :=
  match v with VList l => mapM (λ v, match v with VStr s => Some s | _ => None end) l | _ => None end.
(** [PeerCard.from_dict(dict(value[k]))] *)
Definition card_item (k : string) (d : dict) : res PeerCard :=
  v ← dict_item k d; v ← py_dict v; card_from_dict v.
Definition proposal_from_dict (d : dict) : res RelationshipProposal :=
  raise_if (unexpected proposal_keys d) (ValueError "relationship proposal has unexpected fields");;
  labels ← dict_item "labels" d;
  labels ← of_option (ValueError "relationship proposal labels must be a string list") (string_list labels);
  version ← int_item "version" d;
  object_type ← text_item "type" d;
  proposal_id ← text_item "proposal_id" d;
  card ← card_item "proposer_card" d;
  peer ← text_item "peer_actor_id" d;
  circle ← text_item "circle" d;
  created ← int_item "created_ms" d;
  expires ← int_item "expires_ms" d;
  signature ← bytes_item "signature" d;
  mret {| pr_proposal_id := proposal_id; pr_proposer_card := card; pr_peer_actor_id := peer; pr_circle := circle;
          pr_labels := labels; pr_created_ms := created; pr_expires_ms := expires; pr_signature := signature;
          pr_version := version; pr_object_type := object_type |}.
(** [load]: the value of the JSON file *)
Definition load_proposal (now : Z) (v : value) : res RelationshipProposal :=
  match v with
  | VMap d => p ← proposal_from_dict d; verify_proposal now true p;; mret p
  | _ => Err (ValueError "relationship proposal must be a JSON object")
  end.

(** ** Claims *)

Record MutualRelationshipClaim := {
  mc_proposal : RelationshipProposal;
  mc_proposal_digest : bytes;
  mc_accepter_card : PeerCard;
  mc_accepted_ms : Z;
  mc_signature : bytes;
  mc_version : Z;
  mc_object_type : string;
}.
Definition acceptance_fields (c : MutualRelationshipClaim) : list value :=
  [VInt (mc_version c); VStr (mc_object_type c); VBytes (mc_proposal_digest c);
   VMap (card_to_dict (mc_accepter_card c)); VInt (mc_accepted_ms c)].
Definition verify_claim (now : Z) (c : MutualRelationshipClaim) : res unit :=
  raise_if (negb (mc_version c =? RELATIONSHIP_CLAIM_VERSION) ||
            negb (String.eqb (mc_object_type c) RELATIONSHIP_ACCEPTANCE_TYPE))
    (ValueError "unsupported mutual relationship claim");;
  verify_proposal now false (mc_proposal c);;
  digest ← proposal_digest (mc_proposal c);
  raise_if (negb (String.eqb (mc_proposal_digest c) digest))
    (ValueError "relationship acceptance is not bound to its proposal");;
  verify_card (mc_accepter_card c);;
  raise_if (negb (String.eqb (k_node_id (mc_accepter_card c)) (pr_peer_actor_id (mc_proposal c))))
    (ValueError "relationship acceptance came from another Actor");;
  raise_if (mc_accepted_ms c <? pr_created_ms (mc_proposal c) - CLAIM_CLOCK_SKEW_MS)
    (ValueError "relationship acceptance predates its proposal");;
  raise_if (pr_expires_ms (mc_proposal c) <? mc_accepted_ms c)
    (ValueError "relationship acceptance occurred after expiry");;
  raise_if (now + CLAIM_CLOCK_SKEW_MS <? mc_accepted_ms c)
    (ValueError "relationship acceptance was created too far in the future");;
  verify_by (mc_accepter_card c) (mc_signature c) (acceptance_fields c).
Definition claim_id (c : MutualRelationshipClaim) : res string :=
  packed ← pack_signed (acceptance_fields c) (mc_signature c); mret ("mrel_" +:+ sha256_hexdigest packed).
Definition peer_card_for (local_actor_id : string) (c : MutualRelationshipClaim) : res PeerCard :=
  local ← _actor_id local_actor_id;
  if String.eqb local (k_node_id (pr_proposer_card (mc_proposal c))) then mret (mc_accepter_card c)
  else if String.eqb local (k_node_id (mc_accepter_card c)) then mret (pr_proposer_card (mc_proposal c))
  else Err (ValueError "local Actor is not a participant in this relationship claim").
Definition claim_to_dict (c : MutualRelationshipClaim) : dict :=
  [field "version" (VInt (mc_version c)); field "type" (VStr (mc_object_type c));
   field "proposal" (VMap (proposal_to_dict (mc_proposal c)));
   field "proposal_digest" (VStr (b64e (mc_proposal_digest c)));
   field "accepter_card" (VMap (card_to_dict (mc_accepter_card c)));
   field "accepted_ms" (VInt (mc_accepted_ms c)); field "signature" (VStr (b64e (mc_signature c)))].
Definition signed_claim (signature : bytes) (c : MutualRelationshipClaim) : MutualRelationshipClaim :=
  {| mc_proposal := mc_proposal c; mc_proposal_digest := mc_proposal_digest c;
     mc_accepter_card := mc_accepter_card c; mc_accepted_ms := mc_accepted_ms c; mc_signature := signature;
     mc_version := mc_version c; mc_object_type := mc_object_type c |}.
Definition create_claim (p : RelationshipProposal) (identity : Identity) (card : PeerCard) (now : Z)
    : res MutualRelationshipClaim :=
  verify_proposal now true p;;
  raise_if (negb (String.eqb (k_node_id card) (node_id identity)))
    (ValueError "relationship acceptance card is not local");;
  raise_if (negb (String.eqb (k_node_id card) (pr_peer_actor_id p)))
    (ValueError "local Actor is not the proposed relationship peer");;
  digest ← proposal_digest p;
  let unsigned := {| mc_proposal := p; mc_proposal_digest := digest; mc_accepter_card := card;
                     mc_accepted_ms := now; mc_signature := ""; mc_version := RELATIONSHIP_CLAIM_VERSION;
                     mc_object_type := RELATIONSHIP_ACCEPTANCE_TYPE |} in
  packed ← canonical_pack (VList (acceptance_fields unsigned));
  let claim := signed_claim (i_sign identity packed) unsigned in
  verify_claim now claim;;
  mret claim.
Definition claim_keys : list string :=
  ["version"; "type"; "proposal"; "proposal_digest"; "accepter_card"; "accepted_ms"; "signature"].
Definition claim_from_dict (d : dict) : res MutualRelationshipClaim :=
  raise_if (unexpected claim_keys d) (ValueError "mutual relationship claim has unexpected fields");;
  version ← int_item "version" d;
  object_type ← text_item "type" d;
  raw ← dict_item "proposal" d;
  raw ← py_dict raw;
  proposal ← proposal_from_dict raw;
  digest ← bytes_item "proposal_digest" d;
  card ← card_item "accepter_card" d;
  accepted ← int_item "accepted_ms" d;
  signature ← bytes_item "signature" d;
  mret {| mc_proposal := proposal; mc_proposal_digest := digest; mc_accepter_card := card;
          mc_accepted_ms := accepted; mc_signature := signature; mc_version := version;
          mc_object_type := object_type |}.
Definition load_claim (now : Z) (v : value) : res MutualRelationshipClaim :=
  match v with
  | VMap d => c ← claim_from_dict d; verify_claim now c;; mret c
  | _ => Err (ValueError "mutual relationship claim must be a JSON object")
  end.

(** ** Withdrawals *)

Record RelationshipClaimWithdrawal := {
  wd_claim_id : string;
  wd_withdrawing_card : PeerCard;
  wd_withdrawn_ms : Z;
  wd_signature : bytes;
  wd_version : Z;
  wd_object_type : string;
}.
Definition withdrawal_fields (w : RelationshipClaimWithdrawal) : list value :=
  [VInt (wd_version w); VStr (wd_object_type w); VStr (wd_claim_id w);
   VMap (card_to_dict (wd_withdrawing_card w)); VInt (wd_withdrawn_ms w)].
Definition withdrawal_id (w : RelationshipClaimWithdrawal) : res string :=
  packed ← pack_signed (withdrawal_fields w) (wd_signature w); mret ("mrelw_" +:+ sha256_hexdigest packed).
Definition participants (c : MutualRelationshipClaim) : list string :=
  [k_node_id (pr_proposer_card (mc_proposal c)); k_node_id (mc_accepter_card c)].
Definition verify_withdrawal (now : Z) (c : MutualRelationshipClaim) (w : RelationshipClaimWithdrawal) : res unit :=
  raise_if (negb (wd_version w =? RELATIONSHIP_CLAIM_VERSION) ||
            negb (String.eqb (wd_object_type w) RELATIONSHIP_WITHDRAWAL_TYPE))
    (ValueError "unsupported relationship claim withdrawal");;
  id ← _claim_id (wd_claim_id w);
  raise_if (negb (String.eqb (wd_claim_id w) id))
    (ValueError "relationship claim withdrawal ID is not normalized");;
  verify_claim now c;;
  id ← claim_id c;
  raise_if (negb (String.eqb (wd_claim_id w) id))
    (ValueError "relationship claim withdrawal targets another claim");;
  verify_card (wd_withdrawing_card w);;
  raise_if (outside (participants c) (k_node_id (wd_withdrawing_card w)))
    (ValueError "relationship claim withdrawal came from another Actor");;
  raise_if (wd_withdrawn_ms w <? mc_accepted_ms c - CLAIM_CLOCK_SKEW_MS)
    (ValueError "relationship claim withdrawal predates acceptance");;
  raise_if (now + CLAIM_CLOCK_SKEW_MS <? wd_withdrawn_ms w)
    (ValueError "relationship claim withdrawal was created too far in the future");;
  verify_by (wd_withdrawing_card w) (wd_signature w) (withdrawal_fields w).
Definition signed_withdrawal (signature : bytes) (w : RelationshipClaimWithdrawal) : RelationshipClaimWithdrawal :=
  {| wd_claim_id := wd_claim_id w; wd_withdrawing_card := wd_withdrawing_card w;
     wd_withdrawn_ms := wd_withdrawn_ms w; wd_signature := signature; wd_version := wd_version w;
     wd_object_type := wd_object_type w |}.
Definition create_withdrawal (c : MutualRelationshipClaim) (identity : Identity) (card : PeerCard) (now : Z)
    : res RelationshipClaimWithdrawal :=
  verify_claim now c;;
  raise_if (negb (String.eqb (k_node_id card) (node_id identity)))
    (ValueError "relationship claim withdrawal card is not local");;
  raise_if (outside (participants c) (k_node_id card))
    (ValueError "local Actor is not a participant in this relationship claim");;
  id ← claim_id c;
  let unsigned := {| wd_claim_id := id; wd_withdrawing_card := card; wd_withdrawn_ms := now; wd_signature := "";
                     wd_version := RELATIONSHIP_CLAIM_VERSION; wd_object_type := RELATIONSHIP_WITHDRAWAL_TYPE |} in
  packed ← canonical_pack (VList (withdrawal_fields unsigned));
  let withdrawal := signed_withdrawal (i_sign identity packed) unsigned in
  verify_withdrawal now c withdrawal;;
  mret withdrawal.
Definition withdrawal_to_dict (w : RelationshipClaimWithdrawal) : dict :=
  [field "version" (VInt (wd_version w)); field "type" (VStr (wd_object_type w));
   field "claim_id" (VStr (wd_claim_id w)); field "withdrawing_card" (VMap (card_to_dict (wd_withdrawing_card w)));
   field "withdrawn_ms" (VInt (wd_withdrawn_ms w)); field "signature" (VStr (b64e (wd_signature w)))].
Definition withdrawal_keys : list string :=
  ["version"; "type"; "claim_id"; "withdrawing_card"; "withdrawn_ms"; "signature"].
Definition withdrawal_from_dict (d : dict) : res RelationshipClaimWithdrawal :=
  raise_if (unexpected withdrawal_keys d) (ValueError "relationship claim withdrawal has unexpected fields");;
  version ← int_item "version" d;
  object_type ← text_item "type" d;
  id ← text_item "claim_id" d;
  card ← card_item "withdrawing_card" d;
  withdrawn ← int_item "withdrawn_ms" d;
  signature ← bytes_item "signature" d;
  mret {| wd_claim_id := id; wd_withdrawing_card := card; wd_withdrawn_ms := withdrawn; wd_signature := signature;
          wd_version := version; wd_object_type := object_type |}.
Definition load_withdrawal (now : Z) (c : MutualRelationshipClaim) (v : value) : res RelationshipClaimWithdrawal :=
  match v with
  | VMap d => w ← withdrawal_from_dict d; verify_withdrawal now c w;; mret w
  | _ => Err (ValueError "relationship claim withdrawal must be a JSON object")
  end.
End claims.
