(* ===== verification/RelationClaimBook.v ===== *)
(** [RelationshipClaimBook] of src/anet/relationship_claims.py: verified claims and withdrawals in
    memory and in a JSON file.  Each verification reads the clock once; [clock n] is the reading of
    the [n]-th one of a call. *)
From S2P Require Import Prelude PyStr PyVal Codecs Locator Packet ControlPlane RelationData RelationBook RelationClaims.

Record RelationshipClaimBook := ClaimBook {
  kb_claims : gmap string MutualRelationshipClaim;
  kb_withdrawals : gmap string RelationshipClaimWithdrawal;
  kb_file : option value;
}.
Definition new_claim_book : RelationshipClaimBook := ClaimBook ∅ ∅ None.
Abbreviation KM := (ST RelationshipClaimBook).

Section book.
Context {PL : Platform} {DG : Digests} {SG : Signatures} {UL : Urllib}.

Definition claims_to_dict (b : RelationshipClaimBook) : dict :=
  [field "version" (VInt RELATIONSHIP_CLAIM_BOOK_VERSION);
   field "claims" (VList (VMap ∘ claim_to_dict <$> in_order (kb_claims b)));
   field "withdrawals" (VList (VMap ∘ withdrawal_to_dict <$> in_order (kb_withdrawals b)))].
Definition save_claims : KM unit :=
  modify (λ b, ClaimBook (kb_claims b) (kb_withdrawals b) (Some (VMap (claims_to_dict b)))).

(** The loop over [raw_claims] *)
Fixpoint load_claims (clock : nat → Z) (n : nat) (claims : gmap string MutualRelationshipClaim) (l : list value)
    : res (gmap string MutualRelationshipClaim) :=
  match l with
  | [] => mret claims
  | raw :: l =>
      d ← of_option (ValueError "relationship claim book entry must be an object")
            (match raw with VMap d => Some d | _ => None end);
      c ← claim_from_dict d;
      verify_claim (clock n) c;;
      id ← claim_id c;
      raise_if (bool_decide (is_Some (claims !! id))) (ValueError "relationship claim book contains a duplicate");;
      load_claims clock (S n) (<[id := c]> claims) l
  end.
(** The loop over [raw_withdrawals] *)
Fixpoint load_withdrawals (clock : nat → Z) (n : nat) (claims : gmap string MutualRelationshipClaim)
    (withdrawals : gmap string RelationshipClaimWithdrawal) (l : list value)
    : res (gmap string RelationshipClaimWithdrawal) :=
  match l with
  | [] => mret withdrawals
  | raw :: l =>
      d ← of_option (ValueError "relationship claim book withdrawal must be an object")
            (match raw with VMap d => Some d | _ => None end);
      w ← withdrawal_from_dict d;
      c ← of_option (ValueError "relationship claim withdrawal references an unknown claim") (claims !! wd_claim_id w);
      verify_withdrawal (clock n) c w;;
      id ← withdrawal_id w;
      raise_if (bool_decide (is_Some (withdrawals !! id)))
        (ValueError "relationship claim book contains a duplicate withdrawal");;
      load_withdrawals clock (S n) claims (<[id := w]> withdrawals) l
  end.
(** [value.get(k, ())] that must be a list, which the default [()] is not *)
Definition list_of (k message : string) (d : dict) : res (list value) :=
  of_option (ValueError message) (match dict_get k d with VList l => Some l | _ => None end).
(** What [reload] reads from a file.  [raw_withdrawals] of a version 1 file is the tuple [()]. *)
Definition load_claim_book (clock : nat → Z) (v : value)
    : res (gmap string MutualRelationshipClaim * gmap string RelationshipClaimWithdrawal) :=
  d ← of_option (ValueError "relationship claim book must be a JSON object")
        (match v with VMap d => Some d | _ => None end);
  version ← py_int (dict_get_or (VInt 0) "version" d);
  raise_if (negb ((version =? 1) || (version =? RELATIONSHIP_CLAIM_BOOK_VERSION)))
    (ValueError "unsupported relationship claim book version");;
  raw_claims ← list_of "claims" "relationship claim book claims must be a list" d;
  claims ← load_claims clock 0 ∅ raw_claims;
  raw_withdrawals ← list_of "withdrawals" "relationship claim book withdrawals must be a list"
                      (if 2 <=? version then d else []);
  withdrawals ← load_withdrawals clock (length raw_claims) claims ∅ raw_withdrawals;
  mret (claims, withdrawals).
Definition reload_claims (clock : nat → Z) : KM unit :=
  file ← gets kb_file;
  match file with
  | None => modify (λ _, new_claim_book)
  | Some v =>
      x ← lift (load_claim_book clock v);
      modify (λ b, ClaimBook x.1 x.2 (kb_file b))
  end.

Definition add_claim (now : Z) (c : MutualRelationshipClaim) : KM bool :=
  lift (verify_claim now c);;
  id ← lift (claim_id c);
  known ← gets (λ b, bool_decide (is_Some (kb_claims b !! id)));
  if known : bool then mret false
  else
    modify (λ b, ClaimBook (<[id := c]> (kb_claims b)) (kb_withdrawals b) (kb_file b));;
    save_claims;;
    mret true.
Definition all_claims (b : RelationshipClaimBook) : list MutualRelationshipClaim := in_order (kb_claims b).
Definition stored_claim (id : string) (b : RelationshipClaimBook) : res (option MutualRelationshipClaim) :=
  id ← _claim_id id; mret (kb_claims b !! id).
Definition add_withdrawal (now : Z) (w : RelationshipClaimWithdrawal) : KM bool :=
  found ← gets (stored_claim (wd_claim_id w));
  found ← lift found;
  c ← lift (of_option (ValueError "relationship claim withdrawal references an unknown claim") found);
  lift (verify_withdrawal now c w);;
  id ← lift (withdrawal_id w);
  known ← gets (λ b, bool_decide (is_Some (kb_withdrawals b !! id)));
  if known : bool then mret false
  else
    modify (λ b, ClaimBook (kb_claims b) (<[id := w]> (kb_withdrawals b)) (kb_file b));;
    save_claims;;
    mret true.
Definition withdrawals_for (id : string) (b : RelationshipClaimBook) : res (list RelationshipClaimWithdrawal) :=
  id ← _claim_id id; mret (filter (λ w, wd_claim_id w = id) (in_order (kb_withdrawals b))).
Definition claim_active (id : string) (b : RelationshipClaimBook) : res bool :=
  found ← stored_claim id b;
  raise_if (bool_decide (found = None)) (ValueError "relationship claim is not stored");;
  withdrawals ← withdrawals_for id b;
  mret (bool_decide (withdrawals = [])).
End book.
