(* ===== verification/RelationClaimLaws.v ===== *)
(** What the relationship claims guarantee (src/anet/relationship_claims.py): what is verified stays
    verified, the file gives back the book, both participants signed every stored claim, and a
    withdrawal by one of them is final. *)
From S2P Require Import Prelude PyStr PyVal Codecs Locator Packet ControlPlane RelationData RelationBook RelationLaws RelationFile RelationClaims RelationClaimBook.

Section laws.
Context {PL : Platform} {DG : Digests} {SG : Signatures} {UL : Urllib}.

(** ** JSON forms *)

Lemma bytes_item_b64 k raw d : dict_item k d = Ok (VStr (b64e raw)) → bytes_item k d = Ok raw.
Proof. intros H. unfold bytes_item, text_item. rewrite H. apply b64d_b64e. Qed.
Lemma card_roundtrip k : verify_card k = Ok tt → card_from_dict (card_to_dict k) = Ok k.
Proof.
  intros Hk. unfold card_from_dict.
  change (py_int (dict_get_or (VInt CARD_VERSION) "version" (card_to_dict k))) with (Ok (k_version k)).
  change (text_item "node_id" (card_to_dict k)) with (Ok (k_node_id k)). cbn [mbind res_bind].
  rewrite (bytes_item_b64 "sign_public" (k_sign_public k)), (bytes_item_b64 "box_public" (k_box_public k)),
    (bytes_item_b64 "signature" (k_signature k)) by done. cbn [mbind res_bind].
  rewrite (texts_strings "addresses" (card_to_dict k) (k_addresses k)), (texts_strings "capabilities" _ (k_capabilities k)) by done.
  change (py_int (dict_get_or (VInt 0) "created_ms" (card_to_dict k))) with (Ok (k_created_ms k)).
  change (text_or "" "label" (card_to_dict k)) with (k_label k). cbn [mbind res_bind]. cbv zeta.
  destruct k. cbn in *. by rewrite Hk.
Qed.
Lemma card_item_roundtrip key k d :
  verify_card k = Ok tt → dict_item key d = Ok (VMap (card_to_dict k)) → card_item key d = Ok k.
Proof. intros Hk H. unfold card_item. rewrite H. cbn [mbind res_bind py_dict]. by apply card_roundtrip. Qed.
Lemma string_list_strings l : string_list (strings l) = Some l.
Proof. unfold string_list, strings. induction l as [|s l IH]; [done|]. cbn in *. by rewrite IH. Qed.
Lemma proposal_roundtrip p :
  verify_card (pr_proposer_card p) = Ok tt → proposal_from_dict (proposal_to_dict p) = Ok p.
Proof.
  intros Hk. unfold proposal_from_dict.
  change (raise_if _ (ValueError "relationship proposal has unexpected fields")) with (Ok tt : res unit).
  change (dict_item "labels" (proposal_to_dict p)) with (Ok (strings (pr_labels p))). cbn [mbind res_bind].
  rewrite string_list_strings, (card_item_roundtrip _ _ _ Hk) by done.
  rewrite (bytes_item_b64 "signature" (pr_signature p)) by done. by destruct p.
Qed.
Lemma claim_roundtrip c :
  verify_card (pr_proposer_card (mc_proposal c)) = Ok tt → verify_card (mc_accepter_card c) = Ok tt →
  claim_from_dict (claim_to_dict c) = Ok c.
Proof.
  intros Hp Hk. unfold claim_from_dict.
  change (raise_if _ (ValueError "mutual relationship claim has unexpected fields")) with (Ok tt : res unit).
  change (dict_item "proposal" (claim_to_dict c)) with (Ok (VMap (proposal_to_dict (mc_proposal c)))).
  cbn [mbind res_bind py_dict]. rewrite proposal_roundtrip, (card_item_roundtrip _ _ _ Hk) by done.
  rewrite (bytes_item_b64 "proposal_digest" (mc_proposal_digest c)), (bytes_item_b64 "signature" (mc_signature c)) by done.
  by destruct c.
Qed.
Lemma withdrawal_roundtrip w :
  verify_card (wd_withdrawing_card w) = Ok tt → withdrawal_from_dict (withdrawal_to_dict w) = Ok w.
Proof.
  intros Hk. unfold withdrawal_from_dict.
  change (raise_if _ (ValueError "relationship claim withdrawal has unexpected fields")) with (Ok tt : res unit).
  cbn [mbind res_bind]. rewrite (card_item_roundtrip _ _ _ Hk) by done.
  rewrite (bytes_item_b64 "signature" (wd_signature w)) by done. by destruct w.
Qed.
(** ** Verification at a later time *)

Lemma bind_rest {A B} (m : res A) (k k' : A → res B) y :
  (m ≫= k) = Ok y → (∀ x, k x = Ok y → k' x = Ok y) → (m ≫= k') = Ok y.
Proof. intros (x & Hm & Hk)%res_bind_ok H. rewrite Hm. by apply H. Qed.
Lemma bind_first {A B} (m m' : res A) (k k' : A → res B) y :
  (m ≫= k) = Ok y → (∀ x, m = Ok x → m' = Ok x) → (∀ x, k x = Ok y → k' x = Ok y) → (m' ≫= k') = Ok y.
Proof. intros (x & Hm & Hk)%res_bind_ok H H'. rewrite (H _ Hm). by apply H'. Qed.
(** The next check does not depend on the time. *)
Ltac same_check H := apply (bind_rest _ _ _ _ H); clear H; intros ? H.
Lemma guard_later a b e u : raise_if a e = Ok u → (b = true → a = true) → raise_if b e = Ok tt.
Proof. intros H%raise_if_ok Hb. destruct b; [|done]. by rewrite H in Hb; specialize (Hb eq_refl). Qed.
Lemma window_later created expires now now' active u :
  _validate_window created expires now active = Ok u → now ≤ now' → _validate_window created expires now' false = Ok tt.
Proof.
  destruct u. unfold _validate_window. intros H Hle. do 2 same_check H. apply (bind_first _ _ _ _ _ H).
  - intros [] Hx. eapply guard_later; [exact Hx|]. rewrite !Z.ltb_lt. lia.
  - by intros [].
Qed.
Lemma proposal_later p now now' active :
  verify_proposal now active p = Ok tt → now ≤ now' → verify_proposal now' false p = Ok tt.
Proof.
  unfold verify_proposal. intros H Hle. do 9 same_check H. apply (bind_first _ _ _ _ _ H); [|done].
  intros [] Hx. by eapply window_later.
Qed.
Lemma claim_later c now now' : verify_claim now c = Ok tt → now ≤ now' → verify_claim now' c = Ok tt.
Proof.
  unfold verify_claim. intros H Hle. same_check H. apply (bind_first _ _ _ _ _ H); clear H.
  { intros [] Hp. by eapply proposal_later. }
  intros _ H. do 6 same_check H. apply (bind_first _ _ _ _ _ H); [|done].
  intros [] Hx. eapply guard_later; [exact Hx|]. rewrite !Z.ltb_lt. lia.
Qed.
Lemma withdrawal_later c w now now' :
  verify_withdrawal now c w = Ok tt → now ≤ now' → verify_withdrawal now' c w = Ok tt.
Proof.
  unfold verify_withdrawal. intros H Hle. do 3 same_check H. apply (bind_first _ _ _ _ _ H); clear H.
  { intros [] Hc. by eapply claim_later. }
  intros _ H. do 5 same_check H. apply (bind_first _ _ _ _ _ H); [|done].
  intros [] Hx. eapply guard_later; [exact Hx|]. rewrite !Z.ltb_lt. lia.
Qed.

(** ** What a verification shows *)

Definition signed_by (card : PeerCard) (signature : bytes) (fields : list value) : Prop :=
  ∃ packed, canonical_pack (VList fields) = Ok packed ∧ ed25519_verify (k_sign_public card) signature packed = true.
Lemma verify_by_ok card signature fields u : verify_by card signature fields = Ok u → signed_by card signature fields.
Proof. unfold verify_by. intros H. res_inv. bool_prop. by eexists. Qed.
(** A card that names the holder of its keys *)
Definition genuine (card : PeerCard) : Prop :=
  verify_card card = Ok tt ∧ k_node_id card = derive_node_id (k_sign_public card) (k_box_public card) ∧
  signed_by card (k_signature card) (signing_fields card).
Lemma verify_card_genuine card u : verify_card card = Ok u → genuine card.
Proof.
  destruct u. intros H. split; [done|]. unfold verify_card in H. res_inv. bool_prop.
  split; [done|]. by eexists.
Qed.
Record proposal_ok (p : RelationshipProposal) : Prop := {
  po_card : genuine (pr_proposer_card p);
  po_peer : pr_peer_actor_id p ≠ k_node_id (pr_proposer_card p);
  po_circle : pr_circle p ∈ drop 1 RELATION_CIRCLES;
  po_labels : Z.of_nat (length (pr_labels p)) ≤ MAX_RELATIONSHIP_LABELS;
  po_window : 0 < pr_created_ms p < pr_expires_ms p ∧ pr_expires_ms p ≤ pr_created_ms p + MAX_PROPOSAL_TTL_MS;
  po_signed : signed_by (pr_proposer_card p) (pr_signature p) (proposal_fields p);
}.
Lemma verify_proposal_ok now active p u : verify_proposal now active p = Ok u → proposal_ok p.
Proof.
  unfold verify_proposal, _circle, _labels, _validate_window. intros H. res_inv. bool_prop. subst.
  apply verify_by_ok in H. split; try done; try by eapply verify_card_genuine.
  - rewrite E5. by apply bool_decide_eq_false, dec_stable in E14.
  - by rewrite E7.
  - lia.
Qed.
(** A claim that both participants signed: the proposer its terms, the accepter the digest of the
    signed proposal, in time *)
Record claim_ok (c : MutualRelationshipClaim) : Prop := {
  mo_proposal : proposal_ok (mc_proposal c);
  mo_digest : proposal_digest (mc_proposal c) = Ok (mc_proposal_digest c);
  mo_card : genuine (mc_accepter_card c);
  mo_accepter : k_node_id (mc_accepter_card c) = pr_peer_actor_id (mc_proposal c);
  mo_time : pr_created_ms (mc_proposal c) - CLAIM_CLOCK_SKEW_MS ≤ mc_accepted_ms c ≤ pr_expires_ms (mc_proposal c);
  mo_signed : signed_by (mc_accepter_card c) (mc_signature c) (acceptance_fields c);
}.
Lemma verify_claim_ok now c u : verify_claim now c = Ok u → claim_ok c.
Proof.
  unfold verify_claim. intros H. res_inv. bool_prop. subst. apply verify_by_ok in H.
  split; try done; [by eapply verify_proposal_ok|by eapply verify_card_genuine].
Qed.
(** A withdrawal that a participant of the claim signed *)
Record withdrawal_ok (c : MutualRelationshipClaim) (w : RelationshipClaimWithdrawal) : Prop := {
  wo_claim : claim_ok c;
  wo_id : claim_id c = Ok (wd_claim_id w);
  wo_text : _claim_id (wd_claim_id w) = Ok (wd_claim_id w);
  wo_card : genuine (wd_withdrawing_card w);
  wo_participant : k_node_id (wd_withdrawing_card w) ∈ participants c;
  wo_time : mc_accepted_ms c - CLAIM_CLOCK_SKEW_MS ≤ wd_withdrawn_ms w;
  wo_signed : signed_by (wd_withdrawing_card w) (wd_signature w) (withdrawal_fields w);
}.
Lemma verify_withdrawal_ok now c w u : verify_withdrawal now c w = Ok u → withdrawal_ok c w.
Proof.
  unfold verify_withdrawal. intros H. res_inv. bool_prop. subst. apply verify_by_ok in H.
  split; try done; [by eapply verify_claim_ok|by eapply verify_card_genuine|].
  by match goal with E : outside _ _ = false |- _ => apply bool_decide_eq_false, dec_stable in E end.
Qed.

(** ** The book *)

(** What was verified at some time up to [T] is stored under its own id, and in the file. *)
Record book_sound (T : Z) (b : RelationshipClaimBook) : Prop := {
  bs_claims : ∀ id c, kb_claims b !! id = Some c → claim_id c = Ok id ∧ verify_claim T c = Ok tt;
  bs_withdrawals : ∀ id w, kb_withdrawals b !! id = Some w → withdrawal_id w = Ok id ∧
    ∃ c, kb_claims b !! wd_claim_id w = Some c ∧ verify_withdrawal T c w = Ok tt;
  bs_file : match kb_file b with
            | None => kb_claims b = ∅ ∧ kb_withdrawals b = ∅
            | Some v => v = VMap (claims_to_dict b)
            end;
}.
Lemma new_claim_book_sound T : book_sound T new_claim_book.
Proof. split; [by intros ? ? ?|by intros ? ? ?|done]. Qed.
Lemma book_sound_later T T' b : T ≤ T' → book_sound T b → book_sound T' b.
Proof.
  intros Hle [Hc Hw Hf]. split; [| |done].
  - intros id c H. destruct (Hc _ _ H) as [? ?]. split; [done|by eapply claim_later].
  - intros id w H. destruct (Hw _ _ H) as (? & c & ? & ?). split; [done|]. exists c. split; [done|by eapply withdrawal_later].
Qed.
Lemma load_claims_ok clock T (l : list MutualRelationshipClaim) : ∀ n (m : gmap string MutualRelationshipClaim) ids,
  (∀ n, T ≤ clock n) → Forall2 (λ c id, claim_id c = Ok id ∧ verify_claim T c = Ok tt) l ids →
  NoDup ids → (∀ id, id ∈ ids → m !! id = None) →
  load_claims clock n m (VMap ∘ claim_to_dict <$> l) =
    Ok (foldl (λ m kv, <[kv.1 := kv.2]> m) m (zip ids l)).
Proof.
  induction l as [|c l IH]; intros n m ids Hclock Hl Hnd Hm.
  - apply Forall2_nil_inv_l in Hl as ->. done.
  - apply Forall2_cons_inv_l in Hl as (id & ids' & [Hid Hv] & Hl & ->). apply NoDup_cons in Hnd as [Hni Hnd].
    pose proof (verify_claim_ok _ _ _ Hv) as Hok.
    cbn [fmap list_fmap load_claims of_option mbind res_bind compose].
    rewrite claim_roundtrip by apply Hok. cbn [mbind res_bind].
    rewrite (claim_later _ _ (clock n) Hv) by done. cbn [mbind res_bind]. rewrite Hid. cbn [mbind res_bind].
    rewrite bool_decide_false by (rewrite (Hm id) by (by left); by intros [? ?]). cbn [raise_if mbind res_bind zip].
    apply (IH (S n) (<[id := c]> m)); try done. intros id' Hid'. rewrite lookup_insert_ne by (by intros ->). apply Hm. by right.
Qed.
Lemma load_withdrawals_ok clock T claims (l : list RelationshipClaimWithdrawal) :
  ∀ n (m : gmap string RelationshipClaimWithdrawal) ids,
  (∀ n, T ≤ clock n) →
  Forall2 (λ w id, withdrawal_id w = Ok id ∧ ∃ c, claims !! wd_claim_id w = Some c ∧ verify_withdrawal T c w = Ok tt) l ids →
  NoDup ids → (∀ id, id ∈ ids → m !! id = None) →
  load_withdrawals clock n claims m (VMap ∘ withdrawal_to_dict <$> l) =
    Ok (foldl (λ m kv, <[kv.1 := kv.2]> m) m (zip ids l)).
Proof.
  induction l as [|w l IH]; intros n m ids Hclock Hl Hnd Hm.
  - apply Forall2_nil_inv_l in Hl as ->. done.
  - apply Forall2_cons_inv_l in Hl as (id & ids' & (Hid & c & Hc & Hv) & Hl & ->). apply NoDup_cons in Hnd as [Hni Hnd].
    pose proof (verify_withdrawal_ok _ _ _ _ Hv) as Hok.
    cbn [fmap list_fmap load_withdrawals of_option mbind res_bind compose].
    rewrite withdrawal_roundtrip by apply Hok. cbn [mbind res_bind]. rewrite Hc. cbn [of_option mbind res_bind].
    rewrite (withdrawal_later _ _ _ (clock n) Hv) by done. cbn [mbind res_bind]. rewrite Hid. cbn [mbind res_bind].
    rewrite bool_decide_false by (rewrite (Hm id) by (by left); by intros [? ?]). cbn [raise_if mbind res_bind zip].
    apply (IH (S n) (<[id := w]> m)); try done. intros id' Hid'. rewrite lookup_insert_ne by (by intros ->).
    apply Hm. by right.
Qed.
(** Rebuilding a map from its values in key order *)
Definition keys_in_order {V} (m : gmap string V) : list string := (order_by (codes ∘ fst) (map_to_list m)).*1.
Lemma rebuild_in_order {V} (m : gmap string V) :
  foldl (λ m kv, <[kv.1 := kv.2]> m) ∅ (zip (keys_in_order m) (in_order m)) = m.
Proof.
  unfold keys_in_order, in_order. rewrite zip_fst_snd. apply map_eq. intros k. apply option_eq. intros v.
  rewrite lookup_pairs.
  - by rewrite elem_of_order_by, elem_of_map_to_list.
  - rewrite order_by_Permutation. apply NoDup_fst_map_to_list.
Qed.
Lemma Forall2_in_order {V} (P : V → string → Prop) (m : gmap string V) :
  (∀ k v, m !! k = Some v → P v k) → Forall2 P (in_order m) (keys_in_order m).
Proof.
  intros H. unfold keys_in_order, in_order. apply Forall2_fmap, Forall_Forall2_diag, Forall_forall.
  intros [k v] Hin. apply elem_of_order_by, elem_of_map_to_list in Hin. by apply H.
Qed.
Lemma NoDup_keys_in_order {V} (m : gmap string V) : NoDup (keys_in_order m).
Proof. unfold keys_in_order. rewrite order_by_Permutation. apply NoDup_fst_map_to_list. Qed.
Lemma load_claim_book_ok clock T b :
  book_sound T b → (∀ n, T ≤ clock n) →
  load_claim_book clock (VMap (claims_to_dict b)) = Ok (kb_claims b, kb_withdrawals b).
Proof.
  intros [Hc Hw _] Hclock. unfold load_claim_book. cbn [of_option mbind res_bind].
  change (py_int (dict_get_or (VInt 0) "version" (claims_to_dict b))) with (Ok 2). cbn [mbind res_bind].
  change (raise_if _ (ValueError "unsupported relationship claim book version")) with (Ok tt : res unit).
  change (list_of "claims" _ (claims_to_dict b)) with (Ok (VMap ∘ claim_to_dict <$> in_order (kb_claims b)) : res (list value)).
  cbn [mbind res_bind].
  rewrite (load_claims_ok clock T _ _ _ (keys_in_order (kb_claims b))); [|done|by apply Forall2_in_order|apply NoDup_keys_in_order|done].
  rewrite rebuild_in_order. cbn [mbind res_bind].
  change (list_of "withdrawals" _ (if 2 <=? 2 then claims_to_dict b else []))
    with (Ok (VMap ∘ withdrawal_to_dict <$> in_order (kb_withdrawals b)) : res (list value)).
  cbn [mbind res_bind].
  rewrite (load_withdrawals_ok clock T _ _ _ _ (keys_in_order (kb_withdrawals b)));
    [|done|by apply Forall2_in_order|apply NoDup_keys_in_order|done].
  by rewrite rebuild_in_order.
Qed.
(** A reading that succeeded would succeed later. *)
Lemma load_claims_later clock T l : ∀ n n' m m',
  (∀ n, clock n ≤ T) → load_claims clock n m l = Ok m' → load_claims (λ _, T) n' m l = Ok m'.
Proof.
  induction l as [|raw l IH]; intros n n' m m' Hclock H; [done|]. cbn [load_claims] in *.
  do 2 same_check H. apply (bind_first _ _ _ _ _ H); clear H; [intros [] Hv; by eapply claim_later|].
  intros _ H. do 2 same_check H. by eapply IH.
Qed.
Lemma load_withdrawals_later clock T claims l : ∀ n n' m m',
  (∀ n, clock n ≤ T) → load_withdrawals clock n claims m l = Ok m' → load_withdrawals (λ _, T) n' claims m l = Ok m'.
Proof.
  induction l as [|raw l IH]; intros n n' m m' Hclock H; [done|]. cbn [load_withdrawals] in *.
  do 3 same_check H. apply (bind_first _ _ _ _ _ H); clear H; [intros [] Hv; by eapply withdrawal_later|].
  intros _ H. do 2 same_check H. by eapply IH.
Qed.
Lemma load_claim_book_later clock T v x :
  (∀ n, clock n ≤ T) → load_claim_book clock v = Ok x → load_claim_book (λ _, T) v = Ok x.
Proof.
  unfold load_claim_book. intros Hclock H. do 4 same_check H. apply (bind_first _ _ _ _ _ H); clear H.
  { intros m Hm. by eapply load_claims_later. }
  intros claims H. same_check H. apply (bind_first _ _ _ _ _ H); clear H; [|done].
  intros m Hm. by eapply load_withdrawals_later.
Qed.

(** ** Calls *)

Inductive claim_call :=
  | AddClaim (c : MutualRelationshipClaim)
  | AddWithdrawal (w : RelationshipClaimWithdrawal)
  | ReloadClaims.
Definition run_claim_call (clock : nat → Z) (call : claim_call) : KM unit :=
  match call with
  | AddClaim c => add_claim (clock 0%nat) c;; mret tt
  | AddWithdrawal w => add_withdrawal (clock 0%nat) w;; mret tt
  | ReloadClaims => reload_claims clock
  end.
(** A call, returning or raising, whose clock readings are at most [T] *)
Definition claim_step (T : Z) (b b' : RelationshipClaimBook) : Prop :=
  ∃ clock call r, (∀ n, clock n ≤ T) ∧ run_claim_call clock call b = (r, b').
(** What a call leaves: the book as it was, or with one more claim or withdrawal *)
Definition more (T : Z) (b b' : RelationshipClaimBook) : Prop :=
  (∃ id c, kb_claims b !! id = None ∧ claim_id c = Ok id ∧ verify_claim T c = Ok tt ∧
     kb_claims b' = <[id := c]> (kb_claims b) ∧ kb_withdrawals b' = kb_withdrawals b) ∨
  (∃ id c w, kb_withdrawals b !! id = None ∧ withdrawal_id w = Ok id ∧ kb_claims b !! wd_claim_id w = Some c ∧
     verify_withdrawal T c w = Ok tt ∧ kb_claims b' = kb_claims b ∧
     kb_withdrawals b' = <[id := w]> (kb_withdrawals b)).
Lemma wp_save_claims {A} (x : A) (Q : res A → RelationshipClaimBook → Prop) b :
  Q (Ok x) (ClaimBook (kb_claims b) (kb_withdrawals b) (Some (VMap (claims_to_dict b)))) → wp (save_claims;; mret x) Q b.
Proof. done. Qed.
Definition grown (T : Z) (b : RelationshipClaimBook) {A} (_ : res A) (b' : RelationshipClaimBook) : Prop :=
  b' = b ∨ more T b b' ∧ kb_file b' = Some (VMap (claims_to_dict b')).
Lemma add_claim_run now T c b : now ≤ T → wp (add_claim now c) (grown T b) b.
Proof.
  intros Hle. unfold add_claim. wp_step. apply wp_lift; intros u Hv; [|by left]. cbv beta iota. destruct u.
  wp_step. apply wp_lift; intros id Hid; [|by left]. cbv beta iota. do 2 wp_step.
  case_bool_decide as Hk; [wp_step; by left|]. do 2 wp_step. apply wp_save_claims. right. split; [|done]. left.
  exists id, c. split_and!; try done; [|by eapply claim_later].
  destruct (kb_claims b !! id) eqn:E; [|done]. destruct Hk. by eexists.
Qed.
Lemma add_withdrawal_run now T w b : now ≤ T → wp (add_withdrawal now w) (grown T b) b.
Proof.
  intros Hle. unfold add_withdrawal. do 2 wp_step. wp_step. apply wp_lift; intros found Hfound; [|by left]. cbv beta iota.
  wp_step. apply wp_lift; intros c Hc; [|by left]. cbv beta iota. apply of_option_ok in Hc as ->.
  wp_step. apply wp_lift; intros u Hv; [|by left]. cbv beta iota. destruct u.
  wp_step. apply wp_lift; intros id Hid; [|by left]. cbv beta iota. do 2 wp_step.
  case_bool_decide as Hk; [wp_step; by left|]. do 2 wp_step. apply wp_save_claims. right. split; [|done]. right.
  unfold stored_claim in Hfound. res_inv.
  pose proof (wo_text _ _ (verify_withdrawal_ok _ _ _ _ Hv)) as Ht.
  exists id, c, w. split_and!; try done; [|congruence|by eapply withdrawal_later].
  destruct (kb_withdrawals b !! id) eqn:E'; [|done]. destruct Hk. by eexists.
Qed.
Lemma reload_claims_run clock T b :
  book_sound T b → (∀ n, clock n ≤ T) → wp (reload_claims clock) (λ _ b', b' = b) b.
Proof.
  intros Hs Hclock. unfold reload_claims. do 2 wp_step. pose proof (bs_file _ _ Hs) as Hf.
  destruct (kb_file b) as [v|] eqn:E.
  - wp_step. apply wp_lift; intros x Hx; [|done]. cbv beta iota. wp_step.
    apply (load_claim_book_later _ T) in Hx; [|done]. rewrite Hf, (load_claim_book_ok _ T) in Hx by done.
    apply Ok_inj in Hx as <-. destruct b. cbn in *. by rewrite E.
  - wp_step. destruct b. cbn in *. by destruct Hf as [-> ->]; subst.
Qed.
Lemma more_sound T b b' :
  more T b b' → kb_file b' = Some (VMap (claims_to_dict b')) → book_sound T b → book_sound T b'.
Proof.
  intros H Hf' [Hc Hw _]. destruct H as [(id & c & Hno & Hid & Hv & Ec & Ew)|(id & c & w & Hno & Hid & Hin & Hv & Ec & Ew)];
    (split; [| |by rewrite Hf']); rewrite ?Ec, ?Ew; try done.
  - intros id' c' [[<- <-]|[_ H]]%lookup_insert_Some; [done|by apply Hc].
  - intros id' w' H. destruct (Hw _ _ H) as (? & c' & Hc' & ?). split; [done|]. exists c'. split; [|done].
    rewrite lookup_insert_ne; [done|]. intros ->. congruence.
  - intros id' w' [[<- <-]|[_ H]]%lookup_insert_Some; [|by apply Hw]. eauto.
Qed.
Lemma wp_done {A} (m : KM A) Q b : wp m (λ _ b', Q b') b → wp (m;; mret tt) (λ _ b', Q b') b.
Proof. intros H. apply wp_bind. eapply wp_mono; [exact H|]. by intros [x|e]. Qed.
Lemma claim_step_cases T b b' : book_sound T b → claim_step T b b' → book_sound T b' ∧ (b' = b ∨ more T b b').
Proof.
  intros Hs (clock & call & r & Hclock & Hrun).
  assert (wp (run_claim_call clock call) (λ _ b', b' = b ∨ more T b b' ∧ kb_file b' = Some (VMap (claims_to_dict b'))) b) as H.
  { destruct call; cbn [run_claim_call].
    - apply (wp_done _ (λ b', b' = b ∨ more T b b' ∧ kb_file b' = Some (VMap (claims_to_dict b')))). by apply (add_claim_run _ T).
    - apply (wp_done _ (λ b', b' = b ∨ more T b b' ∧ kb_file b' = Some (VMap (claims_to_dict b')))). by apply (add_withdrawal_run _ T).
    - eapply wp_mono; [by apply (reload_claims_run _ T)|]. intros x b2 ->. by left. }
  apply (wp_run _ _ _ _ _ H) in Hrun as [->|[Hm Hf]]; [by split; [|left]|].
  split; [by eapply more_sound|by right].
Qed.
Lemma claim_steps_sound T b b' : rtc (claim_step T) b b' → book_sound T b → book_sound T b'.
Proof. induction 1 as [|b b1 b' H _ IH]; [done|]. intros Hs. by apply IH, (claim_step_cases T b). Qed.
Lemma reached_claims T b : rtc (claim_step T) new_claim_book b → book_sound T b.
Proof. intros H. eapply claim_steps_sound; [exact H|apply new_claim_book_sound]. Qed.
(** Claims and withdrawals are kept. *)
Lemma more_keeps T b b' : more T b b' → kb_claims b ⊆ kb_claims b' ∧ kb_withdrawals b ⊆ kb_withdrawals b'.
Proof.
  intros [(id & c & Hno & _ & _ & -> & ->)|(id & c & w & Hno & _ & _ & _ & -> & ->)]; split; try done; by apply insert_subseteq.
Qed.
Lemma claim_steps_keep T b b' : rtc (claim_step T) b b' → book_sound T b →
  kb_claims b ⊆ kb_claims b' ∧ kb_withdrawals b ⊆ kb_withdrawals b'.
Proof.
  induction 1 as [|b b1 b' H _ IH]; [done|]. intros Hs. destruct (claim_step_cases _ _ _ Hs H) as [Hs1 Hstep].
  destruct (IH Hs1) as [H1 H2]. destruct Hstep as [->|Hm]; [done|]. destruct (more_keeps _ _ _ Hm).
  split; by etrans.
Qed.

(** ** The guarantees *)

(** The file of the claim book gives the book back.  After any calls, restarted at clock readings
    not before those of the calls, the book reads the claims and withdrawals it had. *)
Theorem claim_book_reloads T b clock v :
  rtc (claim_step T) new_claim_book b → (∀ n, T ≤ clock n) → kb_file b = Some v →
  load_claim_book clock v = Ok (kb_claims b, kb_withdrawals b) ∧ reload_claims clock b = (Ok tt, b).
Proof.
  intros Hs%reached_claims Hclock Hv. pose proof (bs_file _ _ Hs) as Hf. rewrite Hv in Hf.
  pose proof (load_claim_book_ok clock T b Hs Hclock) as Hload. rewrite <- Hf in Hload. split; [done|].
  unfold reload_claims, mbind, ST_bind, gets, lift, modify. rewrite Hv, Hload. cbn. destruct b. cbn in *. by rewrite Hv.
Qed.
(** C23: a stored claim is the word of both participants.  Two different actors whose ids are made
    from their keys: one signed the circle, the labels and the peer, the other, who is that peer,
    signed the digest of exactly this signed proposal before it expired, and the claim is stored
    under the hash of both signatures. *)
Theorem stored_claim_authentic T b id c :
  rtc (claim_step T) new_claim_book b → kb_claims b !! id = Some c →
  claim_ok c ∧ claim_id c = Ok id ∧ k_node_id (mc_accepter_card c) ≠ k_node_id (pr_proposer_card (mc_proposal c)).
Proof.
  intros Hs%reached_claims Hc. destruct (bs_claims _ _ Hs _ _ Hc) as [Hid Hv%verify_claim_ok].
  split_and!; [done..|]. rewrite (mo_accepter _ Hv). apply (po_peer _ (mo_proposal _ Hv)).
Qed.
(** A participant's withdrawal of the claim [id] is stored. *)
Definition withdrawn (id : string) (b : RelationshipClaimBook) : Prop :=
  ∃ c key w, kb_claims b !! id = Some c ∧ kb_withdrawals b !! key = Some w ∧ wd_claim_id w = id ∧ withdrawal_ok c w.
Lemma active_spec T b id key : book_sound T b → _claim_id id = Ok key → is_Some (kb_claims b !! key) →
  ∃ active, claim_active id b = Ok active ∧ (active = false ↔ withdrawn key b).
Proof.
  intros Hs Hid [c Hc]. unfold claim_active, stored_claim, withdrawals_for. rewrite Hid. cbn [mbind res_bind].
  unfold mret, res_ret. cbn [mbind res_bind]. rewrite Hc, (bool_decide_false (Some c = None)) by done. cbn [raise_if mbind res_bind].
  eexists. split; [done|]. rewrite bool_decide_eq_false. split.
  - intros Hne. destruct (filter _ _) as [|w l] eqn:E; [done|].
    assert (w ∈ filter (λ w, wd_claim_id w = key) (in_order (kb_withdrawals b))) as Hw by (rewrite E; by left).
    apply list_elem_of_filter in Hw as [Hwid (k & Hw)%elem_of_in_order].
    destruct (bs_withdrawals _ _ Hs _ _ Hw) as (_ & c' & Hc' & Hv%verify_withdrawal_ok).
    exists c, k, w. split_and!; try done. rewrite Hwid in Hc'. congruence.
  - intros (c' & k & w & _ & Hw & Hwid & _) E.
    assert (w ∈ filter (λ w, wd_claim_id w = key) (in_order (kb_withdrawals b))) as Hin.
    { apply list_elem_of_filter. split; [done|]. apply elem_of_in_order. by exists k. }
    rewrite E in Hin. by apply elem_of_nil in Hin.
Qed.
Lemma active_known id b active : claim_active id b = Ok active →
  ∃ key, _claim_id id = Ok key ∧ is_Some (kb_claims b !! key).
Proof.
  unfold claim_active, stored_claim. intros H. res_inv. match goal with E : _claim_id _ = Ok ?k |- _ => exists k; split; [done|] end.
  subst. match goal with E : bool_decide _ = false |- _ => apply bool_decide_eq_false in E end. by apply not_eq_None_Some.
Qed.
(** C24: a withdrawal is final.  A claim is inactive exactly when a withdrawal is stored that one of
    its two participants signed; from then on it stays inactive, whatever is added and however
    often the book is read again. *)
Theorem withdrawal_is_final T b b' id active :
  rtc (claim_step T) new_claim_book b → rtc (claim_step T) b b' → claim_active id b = Ok active →
  ∃ key, _claim_id id = Ok key ∧ (active = false ↔ withdrawn key b) ∧
    (active = false → claim_active id b' = Ok false ∧ withdrawn key b').
Proof.
  intros Hs%reached_claims Hsteps Hactive. pose proof (claim_steps_sound _ _ _ Hsteps Hs) as Hs'.
  destruct (active_known _ _ _ Hactive) as (key & Hkey & Hc). exists key.
  destruct (active_spec _ _ _ _ Hs Hkey Hc) as (a & Ha & Hspec). assert (a = active) as -> by congruence.
  split_and!; [done|done|]. intros (c & k & w & Hcc & Hw & Hwid & Hok)%Hspec.
  destruct (claim_steps_keep _ _ _ Hsteps Hs) as [Kc Kw].
  pose proof (lookup_weaken _ _ _ _ Hcc Kc) as Hcc'. pose proof (lookup_weaken _ _ _ _ Hw Kw) as Hw'.
  assert (withdrawn key b') as Hfinal by (by exists c, k, w).
  destruct (active_spec _ _ id key Hs' Hkey) as (a' & Ha' & Hspec'); [by eexists|]. split; [|done].
  rewrite Ha'. f_equal. by apply Hspec'.
Qed.
(** Files of version 1 have no withdrawals, and the default for them is refused. *)
Lemma version_1_never_loads clock d :
  py_int (dict_get_or (VInt 0) "version" d) = Ok 1 → ∃ e, load_claim_book clock (VMap d) = Err e.
Proof.
  intros Hv. unfold load_claim_book. cbn [of_option mbind res_bind]. rewrite Hv. cbn [mbind res_bind].
  change (raise_if _ (ValueError "unsupported relationship claim book version")) with (Ok tt : res unit).
  cbn [mbind res_bind]. destruct (list_of "claims" _ d) as [l|e]; cbn [mbind res_bind]; [|by eexists].
  destruct (load_claims clock 0 ∅ l) as [m|e]; cbn [mbind res_bind]; by eexists.
Qed.
End laws.
