(* ===== verification/RelationClaimSamples.v ===== *)
(** Claims at work: two nodes propose, accept and withdraw a mutual relationship, and the theorems
    of RelationClaimLaws at the books they keep. *)
From S2P Require Import Prelude PyStr PyVal Codecs Locator Packet ControlPlane ControlStore ControlReads RelationData RelationBook RelationLaws RelationFile RelationClaims RelationClaimBook RelationClaimLaws AdvisorSamples.

#[local] Existing Instances sample_digests sample_signatures sample_urls digest_platform.

Definition identity_of (key : string) : Identity :=
  {| i_sign_public := String.concat "" (repeat key 32); i_box_public := String.concat "" (repeat key 32);
     i_label := "node"; i_sign := λ m, "s" +:+ fit 63 m |}.
(** [Identity.card], with the signature of the sample key *)
Definition card_of (i : Identity) : PeerCard :=
  {| k_node_id := node_id i; k_sign_public := i_sign_public i; k_box_public := i_box_public i;
     k_label := i_label i; k_addresses := []; k_capabilities := []; k_created_ms := 1; k_signature := "s";
     k_version := 1 |}.
Definition alice : Identity := identity_of "a".
Definition bob : Identity := identity_of "b".
Definition token : string := "00112233445566778899aabbccddeeff".
Definition made {A} (dflt : A) (r : res A) : A := match r with Ok x => x | Err _ => dflt end.
Definition no_proposal : RelationshipProposal := Build_RelationshipProposal "" (card_of alice) "" "" [] 0 0 "" 0 "".
Definition no_claim : MutualRelationshipClaim := Build_MutualRelationshipClaim no_proposal "" (card_of bob) 0 "" 0 "".
Definition no_withdrawal : RelationshipClaimWithdrawal := Build_RelationshipClaimWithdrawal "" (card_of bob) 0 "" 0 "".
Abbreviation proposing := (create_proposal token alice (card_of alice) (node_id bob) " Friend" ["climbing"] 60 1000).
Definition proposal : RelationshipProposal := made no_proposal proposing.
Abbreviation accepting := (create_claim proposal bob (card_of bob) 2000).
Definition claim : MutualRelationshipClaim := made no_claim accepting.
Abbreviation withdrawing := (create_withdrawal claim alice (card_of alice) 3000).
Definition withdrawal : RelationshipClaimWithdrawal := made no_withdrawal withdrawing.
Definition succeeds {A} (r : res A) : bool := match r with Ok _ => true | Err _ => false end.
Definition alice_claim_id : string := made "" (claim_id claim).
Example handshake : (succeeds proposing, succeeds accepting, succeeds withdrawing, len alice_claim_id) = (true, true, true, 69).
Proof. vm_compute. reflexivity. Qed.

(** ** The books *)

Definition clock (now : Z) : nat → Z := λ _, now.
Definition after_claim : RelationshipClaimBook := (run_claim_call (clock 2500) (AddClaim claim) new_claim_book).2.
Definition after_withdrawal : RelationshipClaimBook := (run_claim_call (clock 3000) (AddWithdrawal withdrawal) after_claim).2.
Lemma claim_step_at now call b : now ≤ 3000 → claim_step 3000 b (run_claim_call (clock now) call b).2.
Proof. intros H. exists (clock now), call, (run_claim_call (clock now) call b).1. split; [done|]. apply surjective_pairing. Qed.
Lemma reached_claim : rtc (claim_step 3000) new_claim_book after_claim.
Proof. apply rtc_once, claim_step_at. lia. Qed.
Lemma reached_withdrawal : rtc (claim_step 3000) after_claim after_withdrawal.
Proof. apply rtc_once, claim_step_at. lia. Qed.
Lemma reached_both : rtc (claim_step 3000) new_claim_book after_withdrawal.
Proof. etrans; [apply reached_claim|apply reached_withdrawal]. Qed.
Definition claim_file : value := default VNone (kb_file after_withdrawal).

(** ** The theorems at these states *)

Lemma claim_book_reloads_witness :
  load_claim_book (clock 4000) claim_file = Ok (kb_claims after_withdrawal, kb_withdrawals after_withdrawal) ∧
  reload_claims (clock 4000) after_withdrawal = (Ok tt, after_withdrawal).
Proof.
  apply (claim_book_reloads 3000 after_withdrawal (clock 4000) claim_file reached_both).
  - intros n. unfold clock. lia.
  - vm_compute. reflexivity.
Defined.
Lemma stored_claim_authentic_witness :
  claim_ok claim ∧ claim_id claim = Ok alice_claim_id ∧
  k_node_id (mc_accepter_card claim) ≠ k_node_id (pr_proposer_card (mc_proposal claim)).
Proof.
  apply (stored_claim_authentic 3000 after_withdrawal alice_claim_id claim reached_both). vm_compute. reflexivity.
Defined.
Lemma withdrawal_is_final_witness :
  (∃ key, _claim_id alice_claim_id = Ok key ∧ (true = false ↔ withdrawn key after_claim) ∧
    (true = false → claim_active alice_claim_id after_withdrawal = Ok false ∧ withdrawn key after_withdrawal)) ∧
  claim_active alice_claim_id after_withdrawal = Ok false.
Proof.
  split; [|vm_compute; reflexivity].
  apply (withdrawal_is_final 3000 after_claim after_withdrawal alice_claim_id true reached_claim reached_withdrawal).
  vm_compute. reflexivity.
Defined.

(** ** A file of version 1 *)

(** The version 1 file of a book that holds one claim *)
Definition old_file : dict :=
  [field "version" (VInt 1); field "claims" (VList [VMap (claim_to_dict claim)])].
Lemma version_1_book_refused :
  load_claim_book (clock 4000) (VMap old_file) =
    Err (ValueError "relationship claim book withdrawals must be a list").
Proof. vm_compute. reflexivity. Qed.
