(* ===== verification/Consumers.v ===== *)
(** Consumer groups over the inbox in [PacketStore] (src/anet/store.py):
    durable cursors with filters, leases on messages, acknowledgement, retry
    and renewal.  A lease is identified by its claim token. *)
From S2P Require Import Prelude PyStr PyVal Schema Packet Queue.

(** ** Arguments *)

(** [_CONSUMER_ID_RE]; its [$] never matters for a stripped value. *)
Definition consumer_id_re : string → bool :=
  fullmatch is_alnum (λ a, is_alnum a || one_of "._:@/-" a) 0 127.
Definition _consumer_id (value label : string) : res string :=
  let value := strip value in
  raise_if (negb (consumer_id_re value)) (ValueError ("invalid consumer " +:+ label));;
  mret value.
Definition _claim_token (value : string) : res string :=
  let value := lower (strip value) in
  raise_if (negb (fullmatch_hex 32 value)) (ValueError "invalid claim token");;
  mret value.

(** [int(max(lo, min(seconds, hi)) * 1000)] *)
Definition milliseconds (lo hi seconds : Q) : Z :=
  let q := Qmult (Qmax lo (Qmin seconds hi)) 1000 in
  Z.quot (Qnum q) (Zpos (Qden q)).
Definition lease_ms (lease_seconds : Q) : Z := milliseconds 5 86400 lease_seconds.
Definition retry_ms (retry_seconds : Q) : Z := milliseconds 0 86400 retry_seconds.

Lemma milliseconds_bounds (lo hi : Z) q :
  0 ≤ lo ≤ hi → lo * 1000 ≤ milliseconds (inject_Z lo) (inject_Z hi) q ≤ hi * 1000.
Proof.
  intros Hlh. unfold milliseconds.
  set (x := Qmax (inject_Z lo) (Qmin q (inject_Z hi))).
  assert (inject_Z lo <= x)%Q as Hlo by apply Q.le_max_l.
  assert (x <= inject_Z hi)%Q as Hhi.
  { apply Q.max_lub; [by rewrite <- Zle_Qle; lia|]. apply Q.le_min_r. }
  unfold Qle in *. simpl in *. destruct x as [n d]. simpl in *.
  rewrite Pos.mul_1_r. rewrite Z.quot_div_nonneg by nia.
  split; [apply Z.div_le_lower_bound|apply Z.div_le_upper_bound]; nia.
Qed.
Lemma lease_ms_bounds q : 5000 ≤ lease_ms q ≤ 86400000.
Proof. apply (milliseconds_bounds 5 86400). lia. Qed.
Lemma retry_ms_bounds q : 0 ≤ retry_ms q ≤ 86400000.
Proof. apply (milliseconds_bounds 0 86400). lia. Qed.

(** ** Groups *)

Record group_item := GroupItem {
  group_id : string;
  group_row : Groups.row;
  group_created : bool;
}.

Definition same_filters (r : Groups.row) (kind_prefix sender_id : string)
    (trusted_only include_transient : bool) : Prop :=
  Groups.kind_prefix r = kind_prefix ∧ Groups.sender_id r = sender_id ∧
  Groups.trusted_only r = trusted_only ∧ Groups.include_transient r = include_transient.
#[global] Instance same_filters_dec r k i t u : Decision (same_filters r k i t u).
Proof. unfold same_filters. apply _. Defined.

Definition max_rowid (s : db) : Z := max_where (λ _ _, True) Inbox.rowid 0 (inbox s).

Definition open_consumer_group (now : Z) (group_id start kind_prefix sender_id : string)
    (trusted_only include_transient : bool) : M group_item :=
  group_id ← lift (_consumer_id group_id "group ID");
  let start := lower (strip start) in
  lift (raise_if (negb (String.eqb start "latest" || String.eqb start "earliest"))
    (ValueError "consumer start must be latest or earliest"));;
  let kind_prefix := strip kind_prefix in
  let sender_id := strip sender_id in
  lift (raise_if ((128 <? len kind_prefix) || (128 <? len sender_id))
    (ValueError "consumer filter is too long"));;
  existing ← gets (λ s, consumer_groups s !! group_id);
  match existing with
  | Some row =>
      lift (raise_if
        (negb (bool_decide (same_filters row kind_prefix sender_id trusted_only include_transient)))
        (ValueError "consumer group already exists with different filters"));;
      mret (GroupItem group_id row false)
  | None =>
      start_after ← gets (λ s, if String.eqb start "latest" then max_rowid s else 0);
      let row := {|
        Groups.created_ms := now; Groups.start_after_rowid := start_after;
        Groups.kind_prefix := kind_prefix; Groups.sender_id := sender_id;
        Groups.trusted_only := trusted_only; Groups.include_transient := include_transient |} in
      exec consumer_groups set_consumer_groups (insert group_id row);;
      mret (GroupItem group_id row true)
  end.

Definition _require_consumer_group (group_id : string) : M Groups.row :=
  row ← gets (λ s, consumer_groups s !! group_id);
  lift (of_option (KeyError ("unknown consumer group: " +:+ group_id)) row).

(** [_consumer_filters]: the WHERE clause a group puts on the inbox. *)
Definition consumer_filters (group : Groups.row) (i : Inbox.row) : Prop :=
  Groups.start_after_rowid group < Inbox.rowid i ∧
  (Groups.trusted_only group = true → Inbox.trusted i = true) ∧
  (Groups.include_transient group = false → Inbox.visible i = true) ∧
  startswith (Groups.kind_prefix group) (Inbox.kind i) = true ∧
  (Groups.sender_id group ≠ "" → Inbox.sender_id i = Groups.sender_id group).
#[global] Instance consumer_filters_dec g i : Decision (consumer_filters g i).
Proof. unfold consumer_filters. apply _. Defined.

(** The condition on the LEFT JOINed delivery [d]. *)
Definition claimable (now : Z) (d : option Claims.row) : Prop :=
  match d with
  | None => True
  | Some d =>
      (Claims.state d = Claims.Leased ∧ Claims.lease_until_ms d ≤ now) ∨
      (Claims.state d = Claims.Retry ∧ Claims.retry_after_ms d ≤ now)
  end.
#[global] Instance claimable_dec now d : Decision (claimable now d).
Proof. destruct d; simpl; apply _. Defined.

Definition available_for (s : db) (now : Z) (group_id : string) (group : Groups.row)
    (packet_id : string) (i : Inbox.row) : Prop :=
  consumer_filters group i ∧ claimable now (consumer_deliveries s !! (group_id, packet_id)).
#[global] Instance available_for_dec s now g r k i : Decision (available_for s now g r k i).
Proof. unfold available_for. apply _. Defined.

(** ** Claims *)

Record claim_item := ClaimItem {
  claim_message : inbox_item;
  claim_group : string;
  claim_owner : string;
  claim_claim_token : string;
  claim_lease_until_ms : Z;
  claim_delivery_attempt : Z;
}.

(** A statement that writes [row] at [k] under the partial UNIQUE index on
    non-empty claim tokens. *)
Definition put_claim (k : string * string) (row : Claims.row) : M unit :=
  taken ← gets (λ s, count_where (λ k' r, k' ≠ k ∧ Claims.claim_token r ≠ "" ∧
            Claims.claim_token r = Claims.claim_token row) (consumer_deliveries s));
  lift (raise_if (negb (taken =? 0)) IntegrityError);;
  exec consumer_deliveries set_consumer_deliveries (insert k row).

Definition leased_row (owner token : string) (lease_until : Z) (old : option Claims.row)
    : Claims.row :=
  {| Claims.state := Claims.Leased; Claims.owner := owner; Claims.claim_token := token;
     Claims.lease_until_ms := lease_until; Claims.retry_after_ms := 0;
     Claims.attempts := match old with Some r => Claims.attempts r + 1 | None => 1 end;
     Claims.acked_ms := 0; Claims.last_error := "" |}.
Definition prior_attempts (old : option Claims.row) : Z :=
  match old with Some r => Claims.attempts r | None => 0 end.

(** [ORDER BY i.received_ms ASC, i.rowid ASC] *)
Definition inbox_key (kv : string * Inbox.row) : list Z :=
  [Inbox.received_ms kv.2; Inbox.rowid kv.2].

(** What the SELECT of [claim_consumer_messages] returns. *)
Definition claim_rows (s : db) (now : Z) (group_id : string) (group : Groups.row) (limit : Z)
    : list (string * Inbox.row * option Claims.row) :=
  (λ kv, (kv.1, kv.2, consumer_deliveries s !! (group_id, kv.1))) <$>
  take (Z.to_nat (Z.max 1 (Z.min limit 100)))
    (order_by inbox_key (select_where (available_for s now group_id group) (inbox s))).

Section claims.
Context {PL : Platform}.

(** The loop body; [token] is [secrets.token_hex(16)]. *)
Definition claim_one (group_id owner : string) (lease_until : Z) (token : string)
    (row : string * Inbox.row * option Claims.row) : M claim_item :=
  let '(packet_id, i, d) := row in
  old ← gets (λ s, consumer_deliveries s !! (group_id, packet_id));
  put_claim (group_id, packet_id) (leased_row owner token lease_until old);;
  item ← lift (_inbox_item packet_id i);
  mret (ClaimItem item group_id owner token lease_until (prior_attempts d + 1)).

(** [for row in rows: token = secrets.token_hex(16); ...]: [tokens n] is the
    n-th token drawn. *)
Fixpoint claim_loop (group_id owner : string) (lease_until : Z) (tokens : nat → string)
    (n : nat) (rows : list (string * Inbox.row * option Claims.row)) : M (list claim_item) :=
  match rows with
  | [] => mret []
  | row :: rows' =>
      item ← claim_one group_id owner lease_until (tokens n) row;
      items ← claim_loop group_id owner lease_until tokens (S n) rows';
      mret (item :: items)
  end.

Definition claim_consumer_messages (now : Z) (tokens : nat → string) (group_id owner : string)
    (limit : Z) (lease_seconds : Q) : M (list claim_item) :=
  group_id ← lift (_consumer_id group_id "group ID");
  owner ← lift (_consumer_id owner "owner");
  transaction (
    group ← _require_consumer_group group_id;
    rows ← gets (λ s, claim_rows s now group_id group limit);
    claim_loop group_id owner (now + lease_ms lease_seconds) tokens 0 rows).

(** [state IN ('working', 'canceling')] *)
Definition execution_active (r : Executions.row) : Prop :=
  Executions.state r = Executions.Working ∨ Executions.state r = Executions.Canceling.
#[global] Instance execution_active_dec r : Decision (execution_active r).
Proof. unfold execution_active. apply _. Defined.

(** The NOT EXISTS subquery: an active typed task runs under this claim. *)
Definition typed_task (s : db) (group_id claim_token : string) : Prop :=
  select_where (λ k r, k.1.1 = group_id ∧ Executions.claim_token r = claim_token ∧
    execution_active r) (agent_task_executions s) ≠ [].
Definition typed_task_of (s : db) (group_id owner claim_token : string) : Prop :=
  select_where (λ k r, k.1.1 = group_id ∧ Executions.owner r = owner ∧
    Executions.claim_token r = claim_token ∧ execution_active r) (agent_task_executions s) ≠ [].

(** [WHERE group_id = ? AND owner = ? AND claim_token = ? AND state = 'leased'] *)
Definition held_claim (group_id owner claim_token : string)
    (k : string * string) (r : Claims.row) : Prop :=
  k.1 = group_id ∧ Claims.owner r = owner ∧ Claims.claim_token r = claim_token ∧
  Claims.state r = Claims.Leased.
#[global] Instance held_claim_dec g o t k r : Decision (held_claim g o t k r).
Proof. unfold held_claim. apply _. Defined.
Definition settleable_claim (s : db) (group_id owner claim_token : string)
    (k : string * string) (r : Claims.row) : Prop :=
  held_claim group_id owner claim_token k r ∧ ¬ typed_task s k.1 (Claims.claim_token r).
#[global] Instance settleable_claim_dec s g o t k r : Decision (settleable_claim s g o t k r).
Proof. unfold settleable_claim, typed_task. apply _. Defined.

Definition stale_claim : exn :=
  ValueError "claim is stale, unknown, or owned by another worker".

(** The UPDATE and the error report shared by [acknowledge_claim] and [reject_claim]. *)
Definition settle_claim (group_id owner claim_token : string) (f : Claims.row → Claims.row)
    : M unit :=
  rowcount ← gets (λ s,
    count_where (settleable_claim s group_id owner claim_token) (consumer_deliveries s));
  modify (λ s, set_consumer_deliveries
    (update_where (settleable_claim s group_id owner claim_token) f (consumer_deliveries s)) s);;
  if rowcount =? 1 then mret tt
  else
    typed ← gets (λ s, bool_decide (typed_task_of s group_id owner claim_token));
    lift (raise_if typed (ValueError "typed Agent task claims must use settle_agent_task"));;
    mthrow stale_claim.

Definition acked_row (now : Z) (r : Claims.row) : Claims.row :=
  {| Claims.state := Claims.Acked; Claims.owner := ""; Claims.claim_token := "";
     Claims.lease_until_ms := 0; Claims.retry_after_ms := 0;
     Claims.attempts := Claims.attempts r; Claims.acked_ms := now; Claims.last_error := "" |}.
Definition retry_row (retry_after : Z) (error : string) (r : Claims.row) : Claims.row :=
  {| Claims.state := Claims.Retry; Claims.owner := ""; Claims.claim_token := "";
     Claims.lease_until_ms := 0; Claims.retry_after_ms := retry_after;
     Claims.attempts := Claims.attempts r; Claims.acked_ms := 0;
     Claims.last_error := slice 1000 error |}.

(** Each returns the timestamp of its result: acked, retry after, lease until. *)
Definition acknowledge_claim (now : Z) (group_id owner claim_token : string) : M Z :=
  group_id ← lift (_consumer_id group_id "group ID");
  owner ← lift (_consumer_id owner "owner");
  claim_token ← lift (_claim_token claim_token);
  settle_claim group_id owner claim_token (acked_row now);;
  mret now.

Definition reject_claim (now : Z) (group_id owner claim_token : string) (retry_seconds : Q)
    (error : string) : M Z :=
  group_id ← lift (_consumer_id group_id "group ID");
  owner ← lift (_consumer_id owner "owner");
  claim_token ← lift (_claim_token claim_token);
  let retry_after := now + retry_ms retry_seconds in
  settle_claim group_id owner claim_token (retry_row retry_after error);;
  mret retry_after.

Definition renew_claim (now : Z) (group_id owner claim_token : string) (lease_seconds : Q) : M Z :=
  group_id ← lift (_consumer_id group_id "group ID");
  owner ← lift (_consumer_id owner "owner");
  claim_token ← lift (_claim_token claim_token);
  let lease_until := now + lease_ms lease_seconds in
  let target := held_claim group_id owner claim_token in
  rowcount ← gets (λ s, count_where target (consumer_deliveries s));
  exec consumer_deliveries set_consumer_deliveries
    (update_where target (Claims.set_lease_until_ms lease_until));;
  lift (raise_if (negb (rowcount =? 1)) stale_claim);;
  mret lease_until.

Record group_status := GroupStatus {
  status_group : Groups.row;
  status_matching : Z;
  status_available : Z;
  status_states : list (Claims.state_t * Z);
}.
Definition consumer_group_status (now : Z) (group_id : string) : M group_status :=
  group_id ← lift (_consumer_id group_id "group ID");
  group ← _require_consumer_group group_id;
  gets (λ s, GroupStatus group
    (count_where (λ _ i, consumer_filters group i) (inbox s))
    (count_where (available_for s now group_id group) (inbox s))
    (filter (λ e, e.2 ≠ 0) ((λ st, (st, count_where (λ k r, k.1 = group_id ∧ Claims.state r = st)
       (consumer_deliveries s))) <$> [Claims.Leased; Claims.Retry; Claims.Acked; Claims.Revoked]))).
End claims.

(** ** Well-formedness of the claim table *)

(** Exactly the leased deliveries carry a token, and no token is shared. *)
Record claims_ok (s : db) : Prop := {
  co_token : ∀ k r, consumer_deliveries s !! k = Some r →
    (Claims.state r = Claims.Leased ↔ Claims.claim_token r ≠ "");
  co_unique : ∀ k k' r r', consumer_deliveries s !! k = Some r →
    consumer_deliveries s !! k' = Some r' → Claims.claim_token r ≠ "" →
    Claims.claim_token r = Claims.claim_token r' → k = k';
}.

Lemma claims_ok_same s s' :
  consumer_deliveries s' = consumer_deliveries s → claims_ok s → claims_ok s'.
Proof. intros E [H1 H2]. split; rewrite E; eauto. Qed.

(** An UPDATE that ends claims, or leaves their state and token alone. *)
Lemma claims_ok_update (P : string * string → Claims.row → Prop)
    `{!∀ k r, Decision (P k r)} f s :
  (∀ k r, P k r → (Claims.claim_token (f r) = "" ∧ Claims.state (f r) ≠ Claims.Leased) ∨
     (Claims.claim_token (f r) = Claims.claim_token r ∧ Claims.state (f r) = Claims.state r)) →
  claims_ok s →
  claims_ok (set_consumer_deliveries (update_where P f (consumer_deliveries s)) s).
Proof.
  intros Hf [Htok Huniq].
  assert (∀ k r', update_where P f (consumer_deliveries s) !! k = Some r' →
    ∃ r, consumer_deliveries s !! k = Some r ∧
      ((Claims.claim_token r' = "" ∧ Claims.state r' ≠ Claims.Leased) ∨
       (Claims.claim_token r' = Claims.claim_token r ∧ Claims.state r' = Claims.state r))) as Hback.
  { intros k r' (r & Hr & ->)%lookup_update_where_Some. exists r. split; [done|].
    case_decide; [by eapply Hf|by right]. }
  split; simpl.
  - intros k r' (r & Hr & [[Ht Hst]|[Ht Hst]])%Hback; rewrite Ht; [|by rewrite Hst; apply (Htok k)].
    split; [done|congruence].
  - intros k k' r1' r2' (r1 & Hr1 & H1)%Hback (r2 & Hr2 & H2)%Hback Hne Heq.
    apply (Huniq k k' r1 r2 Hr1 Hr2); naive_solver congruence.
Qed.

Lemma claims_ok_put k row s :
  Claims.state row = Claims.Leased → Claims.claim_token row ≠ "" →
  (∀ k' r, consumer_deliveries s !! k' = Some r → k' ≠ k →
     Claims.claim_token r ≠ Claims.claim_token row) →
  claims_ok s → claims_ok (set_consumer_deliveries (<[k := row]> (consumer_deliveries s)) s).
Proof.
  intros Hst Htok Hnew [H1 H2]. split; simpl.
  - intros k' r [[<- <-]|[Hne Hr]]%lookup_insert_Some; [done|by apply (H1 k')].
  - intros k1 k2 r1 r2 [[<- <-]|[Hne1 Hr1]]%lookup_insert_Some
      [[<- <-]|[Hne2 Hr2]]%lookup_insert_Some Hne Heq; [done| | |by eapply H2].
    + exfalso. by eapply (Hnew k2 r2).
    + exfalso. by eapply (Hnew k1 r1).
Qed.

(** ** What the operations do *)

Section claim_lemmas.
Context {PL : Platform}.

(** The effect of a successful UPSERT of one claim. *)
Lemma put_claim_run k row s :
  Claims.claim_token row ≠ "" →
  wp (put_claim k row) (λ r s', match r with
    | Ok _ =>
        s' = set_consumer_deliveries (<[k := row]> (consumer_deliveries s)) s ∧
        ∀ k' r, consumer_deliveries s !! k' = Some r → k' ≠ k →
          Claims.claim_token r ≠ Claims.claim_token row
    | Err e => e = IntegrityError ∧ s' = s ∧ ∃ k' r, consumer_deliveries s !! k' = Some r ∧
        k' ≠ k ∧ Claims.claim_token r = Claims.claim_token row
    end) s.
Proof.
  intros Htok. unfold put_claim, exec. do 4 wp_step; bool_prop.
  - split_and!; [done|done|].
    destruct (select_where (λ k' r, k' ≠ k ∧ Claims.claim_token r ≠ "" ∧
      Claims.claim_token r = Claims.claim_token row) (consumer_deliveries s))
      as [|[k' r] l] eqn:E; [unfold count_where in *; by rewrite E in *|].
    assert ((k', r) ∈ (k', r) :: l) as Hin by set_solver. rewrite <- E in Hin.
    apply elem_of_select_where in Hin as (? & ? & ? & ?). eauto.
  - wp_step. split; [done|]. intros k' r Hr Hne Heq.
    match goal with H : count_where _ _ = 0 |- _ => rewrite count_where_zero in H; apply (H k' r Hr) end.
    split_and!; congruence.
Qed.

(** A page of claims, row by row. *)
Definition claims_of (group_id owner : string) (lease_until : Z) (tokens : nat → string) (n : nat)
    (rows : list (string * Inbox.row * option Claims.row)) (items : list claim_item)
    (s s' : db) : Prop :=
  length items = length rows ∧
  (∀ j row, rows !! j = Some row →
     consumer_deliveries s' !! (group_id, row.1.1) =
       Some (leased_row owner (tokens (n + j)%nat) lease_until row.2) ∧
     ∃ msg, _inbox_item row.1.1 row.1.2 = Ok msg ∧
       items !! j = Some (ClaimItem msg group_id owner (tokens (n + j)%nat) lease_until
                            (prior_attempts row.2 + 1))) ∧
  (∀ k, (∀ row, row ∈ rows → k ≠ (group_id, row.1.1)) →
     consumer_deliveries s' !! k = consumer_deliveries s !! k) ∧
  s' = set_consumer_deliveries (consumer_deliveries s') s.

Lemma claim_loop_run group_id owner lease_until tokens rows n s :
  (∀ n, tokens n ≠ "") →
  NoDup ((λ row, row.1.1) <$> rows) →
  (∀ row, row ∈ rows → row.2 = consumer_deliveries s !! (group_id, row.1.1)) →
  wp (claim_loop group_id owner lease_until tokens n rows) (λ r s',
    (∀ items, r = Ok items →
       claims_of group_id owner lease_until tokens n rows items s s') ∧
    (claims_ok s → claims_ok s')) s.
Proof.
  intros Htok. revert n s. induction rows as [|[[id i] d] rows IH]; intros n s Hnd Hd.
  { split; [|done]. intros items [= <-]. split_and!; [done|done|done|by destruct s]. }
  csimpl in Hnd. apply NoDup_cons in Hnd as [Hid Hnd].
  cbn [claim_loop]. wp_step. unfold claim_one. cbv beta iota. do 3 wp_step.
  assert (d = consumer_deliveries s !! (group_id, id)) as Hdold by (apply (Hd (id, i, d)); left).
  rewrite <- Hdold. eapply wp_mono; [apply put_claim_run, Htok|].
  intros [[]|e] s1; [|intros (-> & -> & _); split; [done|done]].
  intros [-> Hfresh].
  pose proof (claims_ok_put (group_id, id) (leased_row owner (tokens n) lease_until d) s
    eq_refl (Htok n) Hfresh) as Hput.
  do 2 wp_step; [|by split].
  do 2 wp_step.
  eapply wp_mono; [apply IH|]; [done| |].
  - intros row Hrow. simpl. rewrite lookup_insert_ne; [apply Hd; by right|].
    intros [= Heq]. apply Hid, list_elem_of_fmap. eauto.
  - simpl. intros [items|e] s2 [Hitems Hok]; (split; [|intros Hs; by apply Hok, Hput]).
    2: intros ? [=].
    intros items' [= <-]. destruct (Hitems items eq_refl) as (Hlen & Hrows & Hrest & Hframe).
    split_and!; [simpl; lia| | |].
    + intros [|j] row Hj; simplify_eq/=.
      * rewrite Nat.add_0_r. split; [|eauto]. rewrite Hrest.
        { simpl. by rewrite lookup_insert_eq. }
        intros row Hrow [= Heq]. apply Hid, list_elem_of_fmap. eauto.
      * rewrite <- Nat.add_succ_comm. by apply Hrows.
    + intros k Hk. rewrite Hrest.
      * simpl. rewrite lookup_insert_ne; [done|]. apply not_eq_sym, (Hk (id, i, d)). by left.
      * intros row Hrow. apply Hk. by right.
    + by rewrite Hframe.
Qed.

Lemma claim_rows_NoDup s now group_id group limit :
  NoDup ((λ row, row.1.1) <$> claim_rows s now group_id group limit).
Proof.
  unfold claim_rows. rewrite <- list_fmap_compose. unfold compose. simpl.
  apply (NoDup_take_order fst), NoDup_select_where.
Qed.
Lemma claim_rows_delivery s now group_id group limit row :
  row ∈ claim_rows s now group_id group limit →
  row.2 = consumer_deliveries s !! (group_id, row.1.1).
Proof. by intros (kv & -> & _)%list_elem_of_fmap. Qed.

Lemma claims_claim_consumer_messages now tokens group_id owner limit lease :
  (∀ n, tokens n ≠ "") →
  steps (preserves claims_ok)
    (claim_consumer_messages now tokens group_id owner limit lease).
Proof.
  intros Htok. unfold claim_consumer_messages, _require_consumer_group. do 2 steps_step.
  apply steps_transaction; [apply _|]. intros s. do 4 wp_step; [|reflexivity]. do 2 wp_step.
  eapply wp_mono; [apply claim_loop_run|]; [done|apply claim_rows_NoDup|apply claim_rows_delivery|].
  intros r s' [_ Hok] Hs. by apply Hok.
Qed.
End claim_lemmas.

Section settle_lemmas.
Context {PL : Platform}.

(** Under the UNIQUE index a non-empty token selects at most one claim, so an
    UPDATE that names one either hits one row or none. *)
Lemma claim_update s (P : string * string → Claims.row → Prop) `{!∀ k r, Decision (P k r)}
    token f :
  claims_ok s → token ≠ "" → (∀ k r, P k r → Claims.claim_token r = token) →
  (∃ k row, consumer_deliveries s !! k = Some row ∧ P k row ∧
     count_where P (consumer_deliveries s) = 1 ∧
     update_where P f (consumer_deliveries s) = <[k := f row]> (consumer_deliveries s)) ∨
  ((∀ k row, consumer_deliveries s !! k = Some row → ¬ P k row) ∧
   count_where P (consumer_deliveries s) = 0 ∧
   update_where P f (consumer_deliveries s) = consumer_deliveries s).
Proof.
  intros [_ Huniq] Htok HP.
  destruct (select_where P (consumer_deliveries s)) as [|[k row] l] eqn:E.
  - right. assert (count_where P (consumer_deliveries s) = 0) as Hz.
    { unfold count_where. by rewrite E. }
    pose proof Hz as Hno. rewrite count_where_zero in Hno. split_and!; [done|done|].
    apply map_eq. intros k. rewrite lookup_update_where.
    destruct (_ !! k) as [r|] eqn:Hr; simpl; [|done]. by rewrite decide_False by eauto.
  - left. assert ((k, row) ∈ (k, row) :: l) as Hin by set_solver.
    rewrite <- E in Hin. apply elem_of_select_where in Hin as [Hrow HPk].
    assert (∀ k' r, consumer_deliveries s !! k' = Some r → P k' r → k' = k) as Hkey.
    { intros k' r Hr HPr. apply (Huniq k' k r row); [done|done| |].
      - by rewrite (HP _ _ HPr).
      - by rewrite (HP _ _ HPr), (HP _ _ HPk). }
    exists k, row. rewrite (count_where_key _ _ _ Hkey), (update_where_key _ _ _ Hkey), Hrow.
    by rewrite !decide_True.
Qed.

(** The contract of [acknowledge_claim], [reject_claim] and [renew_claim] for a
    row transformer [f]: exactly the claim the token names changes, or the
    operation raises and nothing changes. *)
Definition claim_post {A} (P : string * string → Claims.row → Prop) (f : Claims.row → Claims.row)
    (a : A) (s : db) (result : res A) (s' : db) : Prop :=
  match result with
  | Ok a' => a' = a ∧ ∃ k row, consumer_deliveries s !! k = Some row ∧ P k row ∧
      s' = set_consumer_deliveries (<[k := f row]> (consumer_deliveries s)) s
  | Err _ => s' = s ∧ ∀ k row, consumer_deliveries s !! k = Some row → ¬ P k row
  end.

Lemma settle_claim_run group_id owner token f s :
  claims_ok s → token ≠ "" →
  wp (settle_claim group_id owner token f)
     (claim_post (settleable_claim s group_id owner token) f tt s) s.
Proof.
  intros Hok Htok.
  destruct (claim_update s (settleable_claim s group_id owner token) token f Hok Htok)
    as [(k & row & Hrow & HP & Hcount & Hupd)|(Hno & Hcount & Hupd)].
  { by intros k r [(_ & _ & <- & _) _]. }
  - unfold settle_claim. do 4 wp_step. rewrite Hcount, Hupd. simpl.
    wp_step. split; [done|]. eauto 10.
  - unfold settle_claim. do 4 wp_step. rewrite Hcount, Hupd. simpl.
    replace (set_consumer_deliveries (consumer_deliveries s) s) with s by by destruct s.
    wp_all; done.
Qed.
End settle_lemmas.

Section consumer_theorems.
Context {PL : Platform}.

(** The contract of a claim. *)
Definition claim_page_post (now : Z) (tokens : nat → string) (limit : Z) (lease : Q) (s : db)
    (result : res (list claim_item)) (s' : db) (group_id owner : string) : Prop :=
  match result with
  | Err _ => s' = s
  | Ok items => ∃ group, consumer_groups s !! group_id = Some group ∧
      claims_of group_id owner (now + lease_ms lease) tokens 0
        (claim_rows s now group_id group limit) items s s'
  end.

Lemma claim_run now tokens group_id owner limit lease s g o :
  (∀ n, tokens n ≠ "") →
  _consumer_id group_id "group ID" = Ok g → _consumer_id owner "owner" = Ok o →
  wp (claim_consumer_messages now tokens group_id owner limit lease)
     (λ r s', claim_page_post now tokens limit lease s r s' g o) s.
Proof.
  intros Htok Hg Ho. unfold claim_consumer_messages, _require_consumer_group. rewrite Hg, Ho.
  do 4 wp_step. apply wp_transaction. do 4 wp_step; [|done].
  do 2 wp_step. match goal with H : of_option _ _ = _ |- _ => apply of_option_ok in H end.
  eapply wp_mono; [apply claim_loop_run|];
    [done|apply claim_rows_NoDup|apply claim_rows_delivery|].
  intros [items|e] s' [Hitems _]; [|done]. exists a. eauto.
Qed.

Lemma elem_of_claim_rows s now group_id group limit row :
  row ∈ claim_rows s now group_id group limit →
  inbox s !! row.1.1 = Some row.1.2 ∧ available_for s now group_id group row.1.1 row.1.2.
Proof.
  intros ([id i] & -> & Hin%elem_of_take_elem)%list_elem_of_fmap.
  by apply elem_of_order_by, elem_of_select_where in Hin.
Qed.

(** A claim leaves alone every delivery that is not up for claiming. *)
Lemma claim_untouched now tokens group_id owner limit lease s k row :
  (∀ n, tokens n ≠ "") →
  consumer_deliveries s !! k = Some row → ¬ claimable now (Some row) →
  wp (claim_consumer_messages now tokens group_id owner limit lease)
     (λ r s', consumer_deliveries s' !! k = Some row ∧
        ∀ items item, r = Ok items → item ∈ items →
          k ≠ (claim_group item, in_packet_id (claim_message item))) s.
Proof.
  intros Htok Hk Hno.
  destruct (_consumer_id group_id "group ID") as [g|] eqn:Hg;
    [|unfold claim_consumer_messages; rewrite Hg; by split].
  destruct (_consumer_id owner "owner") as [o|] eqn:Ho;
    [|unfold claim_consumer_messages; rewrite Hg, Ho; by split].
  eapply wp_mono; [by apply claim_run|].
  intros [items|e] s' Hpost; [|simpl in Hpost; subst s'; by split].
  destruct Hpost as (group & Hgroup & Hlen & Hrows & Hrest & _).
  assert (∀ row, row ∈ claim_rows s now g group limit → k ≠ (g, row.1.1)) as Hk'.
  { intros row' (_ & _ & Hcl)%elem_of_claim_rows ->. by rewrite Hk in Hcl. }
  split; [by rewrite Hrest|].
  intros items' item [= <-] (j & Hj)%list_elem_of_lookup.
  destruct (lookup_lt_is_Some_2 (claim_rows s now g group limit) j) as [row' Hrow'].
  { rewrite <- Hlen. by eapply lookup_lt_Some. }
  destruct (Hrows j row' Hrow') as (_ & msg & Hmsg & Hitem). rewrite Hj in Hitem.
  injection Hitem as ->. simpl. unfold _inbox_item in Hmsg. res_inv. subst msg. simpl.
  apply Hk'. by eapply list_elem_of_lookup_2.
Qed.

(** *** Work of the competitors of a lease holder *)

(** Steps other workers, and the receiver, take before [until]: claims in any
    group, settlements under other tokens, new groups and new messages. *)
Inductive competitor_step (until : Z) (token : string) : relation db :=
  | comp_claim now tokens g o limit lease s : now < until → (∀ n, tokens n ≠ "") →
      competitor_step until token s (claim_consumer_messages now tokens g o limit lease s).2
  | comp_ack now g o t s : _claim_token t ≠ Ok token →
      competitor_step until token s (acknowledge_claim now g o t s).2
  | comp_reject now g o t retry error s : _claim_token t ≠ Ok token →
      competitor_step until token s (reject_claim now g o t retry error s).2
  | comp_renew now g o t lease s : _claim_token t ≠ Ok token →
      competitor_step until token s (renew_claim now g o t lease s).2
  | comp_open now g start kind sender trusted transient s :
      competitor_step until token s
        (open_consumer_group now g start kind sender trusted transient s).2
  | comp_add now message trusted visible s :
      competitor_step until token s (add_inbox now message trusted visible s).2.

Definition leased_until (until : Z) (token : string) (k : string * string) (s : db) : Prop :=
  ∃ row, consumer_deliveries s !! k = Some row ∧ Claims.state row = Claims.Leased ∧
    Claims.claim_token row = token ∧ until ≤ Claims.lease_until_ms row.

Lemma leased_until_update until token k s (P : string * string → Claims.row → Prop)
    `{!∀ k r, Decision (P k r)} f :
  (∀ k r, P k r → Claims.claim_token r ≠ token) →
  leased_until until token k s →
  leased_until until token k (set_consumer_deliveries (update_where P f (consumer_deliveries s)) s).
Proof.
  intros HP (row & Hrow & Hst & Htok & Hlease). exists row. split_and!; [|done..].
  simpl. rewrite lookup_update_where, Hrow. simpl. rewrite decide_False; [done|].
  intros HPk. by apply (HP _ _ HPk).
Qed.

Lemma settle_claim_leased until token k g o t f :
  t ≠ token → steps (preserves (leased_until until token k)) (settle_claim g o t f).
Proof.
  intros Hne. unfold settle_claim. steps_all. apply steps_modify. intros s' Hs'.
  apply leased_until_update; [|done]. by intros k' r [(_ & _ & -> & _) _].
Qed.

Lemma competitor_step_leased until token k s s' :
  competitor_step until token s s' → leased_until until token k s → leased_until until token k s'.
Proof.
  intros Hstep. destruct Hstep;
    match goal with |- _ → leased_until _ _ _ (?op ?s0).2 =>
      apply (λ H : steps (preserves (leased_until until token k)) op, H s0) end.
  - intros s0 (row & Hrow & Hst & Htok & Hlease).
    destruct (claim_untouched now tokens g o limit lease s0 k row) as [Hk _]; [done|done| |].
    { intros [[_ ?]|[? _]]; [lia|congruence]. }
    exists row. by split_and!.
  - unfold acknowledge_claim. steps_all. apply settle_claim_leased. congruence.
  - unfold reject_claim. steps_all. apply settle_claim_leased. congruence.
  - unfold renew_claim. steps_all. apply steps_modify. intros s' Hs'.
    apply leased_until_update; [|done]. intros k' r (_ & _ & -> & _). congruence.
  - unfold open_consumer_group. steps_all. apply steps_modify. intros s' Hs'. exact Hs'.
  - unfold add_inbox. steps_all. apply steps_modify. intros s' Hs'. exact Hs'.
Qed.

(** ** Properties *)


(** A claim hands out messages that match the group's filters and are
    unclaimed, expired or due for retry, oldest first, each leased to the
    claimant under its own fresh token with the attempt counted; a claimable
    message is left out only when the page is full of older ones; everything
    else in the database is unchanged, and an error changes nothing at all. *)
Theorem claim_consumer_messages_spec now tokens group_id owner limit lease s :
  (∀ n, tokens n ≠ "") →
  let '(result, s') := claim_consumer_messages now tokens group_id owner limit lease s in
  match result with
  | Err _ => s' = s
  | Ok items => ∃ g o group,
      _consumer_id group_id "group ID" = Ok g ∧ _consumer_id owner "owner" = Ok o ∧
      consumer_groups s !! g = Some group ∧
      let rows := claim_rows s now g group limit in
      claims_of g o (now + lease_ms lease) tokens 0 rows items s s' ∧
      now + 5000 ≤ now + lease_ms lease ∧
      (∀ row, row ∈ rows → inbox s !! row.1.1 = Some row.1.2 ∧
         available_for s now g group row.1.1 row.1.2) ∧
      StronglySorted (key_le (λ row, inbox_key row.1)) rows ∧
      (∀ id i, inbox s !! id = Some i → available_for s now g group id i →
         id ∉ ((λ row, row.1.1) <$> rows) →
         Z.of_nat (length items) = Z.max 1 (Z.min limit 100))
  end.
Proof.
  intros Htok.
  destruct (_consumer_id group_id "group ID") as [g|] eqn:Hg;
    [|unfold claim_consumer_messages; by rewrite Hg].
  destruct (_consumer_id owner "owner") as [o|] eqn:Ho;
    [|unfold claim_consumer_messages; by rewrite Hg, Ho].
  pose proof (claim_run now tokens group_id owner limit lease s g o Htok Hg Ho) as Hpost.
  unfold wp in Hpost. destruct (claim_consumer_messages _ _ _ _ _ _ s) as [[items|e] s']; [|done].
  destruct Hpost as (group & Hgroup & Hclaims). exists g, o, group.
  pose proof (lease_ms_bounds lease) as [Hlo _].
  do 3 (split; [done|]). cbv zeta. split; [done|]. split; [lia|].
  split; [intros row; apply elem_of_claim_rows|]. split.
  - unfold claim_rows. eapply StronglySorted_fmap; [|apply StronglySorted_take, order_by_sorted].
    by intros [] [] ?.
  - intros id i Hi Hav Hn. destruct Hclaims as [-> _]. unfold claim_rows in *.
    rewrite length_fmap, length_take. rewrite <- list_fmap_compose in Hn. unfold compose in Hn.
    simpl in Hn. set (all := order_by _ _) in *. set (n := Z.to_nat _) in *.
    assert ((id, i) ∈ all) as Hall by (by apply elem_of_order_by, elem_of_select_where).
    destruct (decide (n ≤ length all)%nat) as [Hle|Hgt]; [lia|].
    rewrite take_ge in Hn by lia. destruct Hn. apply list_elem_of_fmap. by exists (id, i).
Qed.

(** Settling under a token reaches exactly the leased claim that token names,
    for its group and owner and unless a typed task is active under it; a stale,
    unknown or foreign token raises and changes nothing. *)
Theorem settle_claim_fenced now group_id owner token retry error lease s g o t :
  claims_ok s →
  _consumer_id group_id "group ID" = Ok g → _consumer_id owner "owner" = Ok o →
  _claim_token token = Ok t →
  (let '(r, s') := acknowledge_claim now group_id owner token s in
   claim_post (settleable_claim s g o t) (acked_row now) now s r s') ∧
  (let '(r, s') := reject_claim now group_id owner token retry error s in
   let after := now + retry_ms retry in
   claim_post (settleable_claim s g o t) (retry_row after error) after s r s') ∧
  (let '(r, s') := renew_claim now group_id owner token lease s in
   let until := now + lease_ms lease in
   claim_post (held_claim g o t) (Claims.set_lease_until_ms until) until s r s').
Proof.
  intros Hok Hg Ho Ht.
  assert (t ≠ "") as Htok by (unfold _claim_token in Ht; res_inv; bool_prop; subst t; eauto with pystr).
  pose proof (λ f, settle_claim_run g o t f s Hok Htok) as Hset. unfold wp, claim_post in Hset.
  unfold acknowledge_claim, reject_claim, renew_claim. rewrite Hg, Ho, Ht.
  cbv [mbind ST_bind lift gets]. split_and!.
  - specialize (Hset (acked_row now)). destruct (settle_claim _ _ _ _ _) as [[[]|] s']; simpl in *;
      [by destruct Hset|exact Hset].
  - specialize (Hset (retry_row (now + retry_ms retry) error)).
    destruct (settle_claim _ _ _ _ _) as [[[]|] s']; simpl in *;
      [by destruct Hset|exact Hset].
  - destruct (claim_update s (held_claim g o t) t
      (Claims.set_lease_until_ms (now + lease_ms lease)) Hok Htok)
      as [(k & row & Hrow & HP & -> & Hupd)|(Hno & -> & Hupd)].
    { by intros k r (_ & _ & <- & _). }
    + unfold exec, modify. rewrite Hupd. simpl. split; [done|]. eauto 10.
    + unfold exec, modify. rewrite Hupd. simpl. split; [by destruct s|done].
Qed.

End consumer_theorems.

(** ** Witnesses: one stored message, claimed by one worker *)

Definition consumer_platform : Platform := sample_platform [("null", VNone); ("list", VList [])].
Definition stored_message : Inbox.row := {|
  Inbox.rowid := 1; Inbox.sender_id := "an1aaaaaaaaaaaaaaaaaaaa"; Inbox.kind := "chat.text";
  Inbox.created_ms := 1000; Inbox.received_ms := 1500; Inbox.codec := "json";
  Inbox.body := "null"; Inbox.causal := "list"; Inbox.reply_to := ""; Inbox.trusted := true;
  Inbox.is_read := false; Inbox.qos_class := Normal; Inbox.visible := true |}.
Definition consumer_db : db :=
  (open_consumer_group 1000 "workers" "earliest" "" "" true false
     (set_inbox {[ "p1" := stored_message ]} empty_db)).2.
Definition consumer_token (n : nat) : string := "0123456789abcdef0123456789abcdef".
Definition consumer_claim : res (list claim_item) * db :=
  @claim_consumer_messages consumer_platform 2000 consumer_token "workers" "w1" 5 60 consumer_db.
Lemma consumer_token_ne n : consumer_token n ≠ "".
Proof. discriminate. Qed.

Lemma consumer_claim_runs : match consumer_claim.1 with Ok [_] => True | _ => False end.
Proof. vm_compute. exact I. Qed.

Lemma claim_consumer_messages_spec_witness :
  ∃ item group, consumer_groups consumer_db !! "workers" = Some group ∧
    claims_of (PL := consumer_platform) "workers" "w1" (2000 + lease_ms 60) consumer_token 0
      (claim_rows consumer_db 2000 "workers" group 5) [item] consumer_db consumer_claim.2.
Proof.
  pose proof consumer_claim_runs as Hrun.
  pose proof (@claim_consumer_messages_spec consumer_platform 2000 consumer_token "workers" "w1"
    5 60 consumer_db consumer_token_ne) as H.
  fold consumer_claim in H. destruct consumer_claim as [[[|item [|]]|e] s']; try destruct Hrun.
  destruct H as (g & o & group & Hg & Ho & Hgroup & H). cbv zeta in H. destruct H as [Hclaims _].
  assert (g = "workers") as -> by (vm_compute in Hg; congruence).
  assert (o = "w1") as -> by (vm_compute in Ho; congruence).
  exists item, group. split; [exact Hgroup|exact Hclaims].
Defined.

Lemma claimed_lease : leased_until 62000 (consumer_token 0) ("workers", "p1") consumer_claim.2.
Proof. exists (leased_row "w1" (consumer_token 0) 62000 None). vm_compute. split_and!; congruence. Qed.


Lemma consumer_claims_ok : claims_ok consumer_claim.2.
Proof.
  assert (consumer_deliveries consumer_claim.2 =
    {[ ("workers", "p1") := leased_row "w1" (consumer_token 0) 62000 None ]}) as E
    by (vm_compute; reflexivity).
  split; rewrite E.
  - intros k r (<- & <-)%lookup_singleton_Some. simpl. naive_solver.
  - intros k k' r r' (<- & _)%lookup_singleton_Some (<- & _)%lookup_singleton_Some. done.
Qed.

Lemma settle_claim_fenced_witness :
  claims_ok consumer_claim.2 ∧
  let '(r, s') := acknowledge_claim 3000 "workers" "w1" (consumer_token 0) consumer_claim.2 in
  claim_post (settleable_claim consumer_claim.2 "workers" "w1" (consumer_token 0))
    (acked_row 3000) 3000 consumer_claim.2 r s'.
Proof.
  split; [apply consumer_claims_ok|].
  refine (proj1 (settle_claim_fenced 3000 "workers" "w1" (consumer_token 0) 0 "" 60
    consumer_claim.2 "workers" "w1" (consumer_token 0) consumer_claims_ok _ _ _));
    vm_compute; reflexivity.
Defined.
