(* ===== verification/AgentProtocol.v ===== *)
(** The typed Agent task protocol (src/anet/agent_protocol.py): task messages,
    their validation, and capability policies.  [fresh] is the value of
    [new_task_id()], random hex digits drawn for a request without a task id. *)
From S2P Require Import Prelude PyStr PyVal.

Definition AGENT_PROTOCOL : string := "anet.agent.task".
Definition AGENT_PROTOCOL_VERSION : Z := 1.
Definition TASK_KINDS : list string :=
  ["agent.task.request"; "agent.task.status"; "agent.task.result"; "agent.task.cancel"].
Definition TASK_STATES : list string :=
  ["submitted"; "working"; "input-required"; "auth-required"; "completed"; "failed";
   "canceled"; "rejected"].
Definition TERMINAL_TASK_STATES : list string := ["completed"; "failed"; "canceled"; "rejected"].
Definition _MAX_OBJECTIVE_CHARS : Z := 16384.
Definition _MAX_MESSAGE_CHARS : Z := 8192.
Definition _MAX_CAPABILITIES : Z := 64.

(** [_TASK_ID_RE] and [_CAPABILITY_RE] with [fullmatch] *)
Definition task_id_re : string → bool := fullmatch_hex 32.
Definition cap_char (a : ascii) : bool := is_lower_az a || is_digit a || one_of "_.-" a.
Definition capability_re : string → bool := fullmatch is_lower_az cap_char 0 127.

(** [new_task_id]: [os.urandom(16).hex()] *)
Definition new_task_id (urandom : bytes) : string := hex urandom.

Definition _task_id (value : string) : res string :=
  let normalized := lower (strip value) in
  raise_if (negb (task_id_re normalized))
    (ValueError "task_id must be 32 lowercase hexadecimal characters");;
  mret normalized.

Section protocol.
Context {PF : PyFloat}.

(** The loop of [_capabilities]: [acc] is [normalized]. *)
Fixpoint capabilities_loop (acc : list string) (values : list value) : res (list string) :=
  match values with
  | [] => mret acc
  | value :: values' =>
      let capability := lower (strip (py_str value)) in
      raise_if (negb (capability_re capability))
        (ValueError ("invalid task capability: " +:+ py_repr value));;
      capabilities_loop (if bool_decide (capability ∈ acc) then acc else acc ++ [capability]) values'
  end.
(** [values or ()] iterated *)
Definition iter_or_empty (values : value) : res (list value) :=
  if truthy values then py_iter values else mret [].
Definition _capabilities (values : value) : res (list string) :=
  values ← iter_or_empty values;
  normalized ← capabilities_loop [] values;
  raise_if (_MAX_CAPABILITIES <? Z.of_nat (length normalized))
    (ValueError "too many task capabilities");;
  mret (sorted normalized).

(** [pattern.endswith(".*")] and [pattern[:-2]] *)
Definition is_wildcard (pattern : string) : bool := endswith ".*" pattern.
Definition namespace_of (pattern : string) : string :=
  substring 0 (String.length pattern - 2) pattern.

Definition normalize_pattern (value : value) : res string :=
  let pattern := lower (strip (py_str value)) in
  let error := ValueError ("invalid task capability policy: " +:+ py_repr value) in
  if String.eqb pattern "*" then mret pattern
  else if is_wildcard pattern then
    raise_if (negb (capability_re (namespace_of pattern))) error;;
    mret (namespace_of pattern +:+ ".*")
  else
    raise_if (negb (capability_re pattern)) error;;
    mret pattern.
(** [normalize_capability_policy]: a sorted, duplicate-free list *)
Definition normalize_capability_policy (values : list value) : res (list string) :=
  patterns ← mapM normalize_pattern values;
  mret (sorted (remove_dups patterns)).

(** [granted] in [missing_task_capabilities] *)
Definition granted (policy : list string) (capability : string) : bool :=
  bool_decide (capability ∈ policy) ||
  existsb (λ pattern, is_wildcard pattern &&
                      startswith (namespace_of pattern +:+ ".") capability) policy.
Definition missing_task_capabilities (required : value) (allowed : list value)
    : res (list string) :=
  required_capabilities ← _capabilities required;
  policy ← normalize_capability_policy allowed;
  if bool_decide ("*" ∈ policy) then mret []
  else mret (filter (λ c, granted policy c = false) required_capabilities).

(** ** Messages *)

Definition _base (task_id : string) : res dict :=
  task_id ← _task_id task_id;
  mret [field "protocol" (VStr AGENT_PROTOCOL);
        field "version" (VInt AGENT_PROTOCOL_VERSION);
        field "task_id" (VStr task_id)].

(** [task_request]; [context or {}] *)
Definition task_request (fresh : string) (objective : string) (input required_capabilities : value)
    (task_id : string) (context : value) : res dict :=
  let objective := strip objective in
  raise_if (String.eqb objective "") (ValueError "task objective is required");;
  raise_if (_MAX_OBJECTIVE_CHARS <? len objective) (ValueError "task objective is too long");;
  base ← _base (if String.eqb task_id "" then fresh else task_id);
  capabilities ← _capabilities required_capabilities;
  context ← py_dict (if truthy context then context else VMap []);
  mret (base ++ [field "objective" (VStr objective); field "input" input;
                 field "required_capabilities" (VList (VStr <$> capabilities));
                 field "context" (VMap context)]).

(** [if progress is not None: ...] in [task_status] *)
Definition task_progress (progress : value) : res value :=
  match progress with
  | VNone => mret VNone
  | _ =>
      q ← py_float progress;
      raise_if (negb (Qle_bool 0 q && Qle_bool q 1))
        (ValueError "task progress must be between 0 and 1");;
      mret (VFloat q)
  end.

Definition task_status (task_id state message : string) (progress : value) : res dict :=
  let state := lower (strip state) in
  raise_if (negb (bool_decide (state ∈ TASK_STATES))) (ValueError "invalid task state");;
  raise_if (bool_decide (state ∈ TERMINAL_TASK_STATES))
    (ValueError "terminal task states must use agent.task.result");;
  let message := strip message in
  raise_if (_MAX_MESSAGE_CHARS <? len message) (ValueError "task status message is too long");;
  progress ← task_progress progress;
  base ← _base task_id;
  mret (base ++ [field "state" (VStr state); field "message" (VStr message);
                 field "progress" progress]).

Definition task_result (task_id state : string) (output : value) (error : string) : res dict :=
  let state := lower (strip state) in
  raise_if (negb (bool_decide (state ∈ TERMINAL_TASK_STATES)))
    (ValueError "task result state must be terminal");;
  let error := strip error in
  raise_if (_MAX_MESSAGE_CHARS <? len error) (ValueError "task result error is too long");;
  raise_if (String.eqb state "completed" && negb (String.eqb error ""))
    (ValueError "a completed task cannot contain an error");;
  raise_if (negb (String.eqb state "completed") && String.eqb error "")
    (ValueError "an unsuccessful task result requires an error");;
  base ← _base task_id;
  mret (base ++ [field "state" (VStr state); field "output" output; field "error" (VStr error)]).

Definition task_cancel (task_id reason : string) : res dict :=
  let reason := strip reason in
  raise_if (String.eqb reason "") (ValueError "task cancellation reason is required");;
  raise_if (_MAX_MESSAGE_CHARS <? len reason)
    (ValueError "task cancellation reason is too long");;
  base ← _base task_id;
  mret (base ++ [field "reason" (VStr reason)]).

Definition validate_task_message (fresh kind : string) (body : value) : res dict :=
  let kind := lower (strip kind) in
  raise_if (negb (bool_decide (kind ∈ TASK_KINDS))) (ValueError "unsupported agent task kind");;
  match body with
  | VMap body =>
      raise_if (negb (is_text (dict_get "protocol" body) AGENT_PROTOCOL))
        (ValueError "unsupported agent task protocol");;
      version ← py_int (dict_get_or (VInt 0) "version" body);
      raise_if (negb (version =? AGENT_PROTOCOL_VERSION))
        (ValueError "unsupported agent task protocol version");;
      if String.eqb kind "agent.task.request" then
        task_request fresh (get_text "objective" body) (dict_get "input" body)
          (dict_get "required_capabilities" body) (get_text "task_id" body)
          (dict_get "context" body)
      else if String.eqb kind "agent.task.status" then
        task_status (get_text "task_id" body) (get_text "state" body)
          (get_text "message" body) (dict_get "progress" body)
      else if String.eqb kind "agent.task.result" then
        task_result (get_text "task_id" body) (get_text "state" body)
          (dict_get "output" body) (get_text "error" body)
      else task_cancel (get_text "task_id" body) (get_text "reason" body)
  | _ => Err (ValueError "agent task body must be a map")
  end.

(** ** Normal forms *)

Lemma task_id_stable v id : _task_id v = Ok id → _task_id id = Ok id ∧ id ≠ "".
Proof.
  unfold _task_id. intros H. res_inv. bool_prop. subst id. split; [|eauto with pystr].
  rewrite lower_strip_idemp. match goal with H : task_id_re _ = true |- _ => by rewrite H end.
Qed.
Lemma base_stable v d : _base v = Ok d →
  ∃ id, d = [field "protocol" (VStr AGENT_PROTOCOL);
             field "version" (VInt AGENT_PROTOCOL_VERSION); field "task_id" (VStr id)] ∧
    _base id = Ok d ∧ id ≠ "".
Proof.
  unfold _base. intros H. res_inv. subst d. exists x.
  destruct (task_id_stable _ _ E) as [Hid Hne]. by rewrite Hid.
Qed.

Lemma cap_char_stable a : cap_char a = true → stable_char a = true.
Proof.
  apply implb_true_iff.
  exact (all_chars_sound (λ a, implb (cap_char a) (stable_char a)) eq_refl a).
Qed.
Lemma capability_stable c : capability_re c = true → lower (strip c) = c.
Proof.
  unfold capability_re, fullmatch. destruct c as [|a c]; [done|]. intros H. bool_prop.
  assert (str_forall stable_char (String a c) = true) as Hs.
  { simpl. rewrite andb_true_iff. split.
    - apply cap_char_stable. unfold cap_char. match goal with H : is_lower_az a = true |- _ => by rewrite H end.
    - eapply str_forall_impl; [apply cap_char_stable|done]. }
  by rewrite strip_stable, lower_stable.
Qed.

Definition valid_capabilities (l : list string) : Prop :=
  NoDup l ∧ ∀ c, c ∈ l → capability_re c = true.

Lemma capabilities_loop_valid acc values l :
  valid_capabilities acc → capabilities_loop acc values = Ok l → valid_capabilities l.
Proof.
  revert acc. induction values as [|v values IH]; intros acc Hacc Hok; simpl in Hok; res_inv.
  { by subst l. }
  apply IH in Hok; [done|]. bool_prop. case_bool_decide as Hin; [done|].
  destruct Hacc as [Hnd Hre]. split.
  - apply NoDup_app. split_and!; [done| |apply NoDup_singleton]. set_solver.
  - intros c [Hc|Hc%list_elem_of_singleton]%elem_of_app; [by apply Hre|by subst c].
Qed.
Lemma capabilities_loop_stable acc l :
  valid_capabilities (acc ++ l) → capabilities_loop acc (VStr <$> l) = Ok (acc ++ l).
Proof.
  revert acc. induction l as [|c l IH]; intros acc [Hnd Hre]; csimpl.
  { by rewrite app_nil_r. }
  assert (capability_re c = true) as Hc by (apply Hre; set_solver).
  rewrite (capability_stable c Hc), Hc. cbn.
  rewrite bool_decide_false.
  - rewrite IH; [by rewrite <- app_assoc|]. by rewrite <- app_assoc.
  - apply NoDup_app in Hnd as (_ & Hnd & _). set_solver.
Qed.
Lemma capabilities_valid v l :
  _capabilities v = Ok l →
  valid_capabilities l ∧ Z.of_nat (length l) ≤ _MAX_CAPABILITIES ∧ sorted l = l.
Proof.
  unfold _capabilities. intros H. res_inv. subst l.
  apply capabilities_loop_valid in E0 as [Hnd Hre]; [|split; [constructor|set_solver]].
  split_and!; [split| |apply sorted_idemp].
  - unfold sorted. by rewrite order_by_Permutation.
  - intros c Hc. rewrite elem_of_sorted in Hc. by apply Hre.
  - unfold sorted. rewrite order_by_Permutation. by bool_prop.
Qed.
Lemma capabilities_stable v l :
  _capabilities v = Ok l → _capabilities (VList (VStr <$> l)) = Ok l.
Proof.
  intros (Hval & Hlen & Hsort)%capabilities_valid. unfold _capabilities, iter_or_empty.
  assert ((if truthy (VList (VStr <$> l)) then py_iter (VList (VStr <$> l)) else mret []) =
    Ok (VStr <$> l)) as -> by by destruct l.
  cbn [mbind res_bind]. rewrite (capabilities_loop_stable [] l) by done.
  cbv [mbind res_bind app raise_if mret res_ret].
  rewrite (proj2 (Z.ltb_ge _ _)) by lia. by rewrite Hsort.
Qed.

Lemma elem_of_states_stable (states : list string) v :
  forallb (λ s, String.eqb (lower (strip s)) s) states = true → v ∈ states → lower (strip v) = v.
Proof.
  intros H Hin. rewrite forallb_forall in H. apply String.eqb_eq, H. by apply list_elem_of_In.
Qed.

(** The header every message starts with. *)
Definition has_header (d : dict) : Prop :=
  dict_get "protocol" d = VStr AGENT_PROTOCOL ∧
  dict_get_or (VInt 0) "version" d = VInt AGENT_PROTOCOL_VERSION.

Lemma text_ne (id : string) : id ≠ "" → String.eqb id "" = false.
Proof. by rewrite String.eqb_neq. Qed.
(** Guards that were passed, rewritten to the value they had. *)
Ltac passed :=
  repeat match goal with
  | H : negb ?b = false |- _ => apply negb_false_iff in H
  | H : ?b = true |- context [?b] => rewrite H
  | H : ?b = false |- context [?b] => rewrite H
  end.

Lemma task_request_normal fresh fresh' objective input caps task_id context d :
  task_request fresh objective input caps task_id context = Ok d →
  has_header d ∧
  task_request fresh' (get_text "objective" d) (dict_get "input" d)
    (dict_get "required_capabilities" d) (get_text "task_id" d) (dict_get "context" d) = Ok d.
Proof.
  unfold task_request. intros H. res_inv.
  destruct (base_stable _ _ E1) as (id & -> & Hid & Hne). subst d. split; [done|].
  change (get_text "objective" _) with (strip objective).
  change (get_text "task_id" _) with id.
  change (dict_get "required_capabilities" _) with (VList (VStr <$> x2)).
  change (dict_get "context" _) with (VMap x3).
  rewrite strip_idemp, (text_ne id), Hid, (capabilities_stable _ _ E2) by done.
  assert (py_dict (if truthy (VMap x3) then VMap x3 else VMap []) = Ok x3) as Hctx by by destruct x3.
  cbv [mbind res_bind raise_if]. passed. by rewrite Hctx.
Qed.

Lemma task_progress_stable v w : task_progress v = Ok w → task_progress w = Ok w.
Proof.
  assert (∀ q r, (raise_if (negb (Qle_bool 0 q && Qle_bool q 1))
    (ValueError "task progress must be between 0 and 1");; mret (VFloat q)) = Ok r →
    task_progress r = Ok r) as Hq.
  { intros q r H. res_inv. subst r. unfold task_progress, py_float.
    cbv [raise_if mbind res_bind]. by passed. }
  destruct v; [by intros [= <-]|..]; unfold task_progress at 1;
    intros (x & _ & H)%res_bind_ok; by apply (Hq x).
Qed.

Lemma task_status_normal task_id state message progress d :
  task_status task_id state message progress = Ok d →
  has_header d ∧
  task_status (get_text "task_id" d) (get_text "state" d) (get_text "message" d)
    (dict_get "progress" d) = Ok d.
Proof.
  unfold task_status. intros H. res_inv.
  destruct (base_stable _ _ E3) as (id & -> & Hid & Hne). subst d. split; [done|].
  change (get_text "state" _) with (lower (strip state)).
  change (get_text "message" _) with (strip message).
  change (get_text "task_id" _) with id.
  change (dict_get "progress" _) with x2.
  rewrite lower_strip_idemp, strip_idemp, Hid.
  rewrite (task_progress_stable _ _ E2). cbv [mbind res_bind raise_if]. by passed.
Qed.

Lemma task_result_normal task_id state output error d :
  task_result task_id state output error = Ok d →
  has_header d ∧
  task_result (get_text "task_id" d) (get_text "state" d) (dict_get "output" d)
    (get_text "error" d) = Ok d.
Proof.
  unfold task_result. intros H. res_inv.
  destruct (base_stable _ _ E3) as (id & -> & Hid & Hne). subst d. split; [done|].
  change (get_text "state" _) with (lower (strip state)).
  change (get_text "error" _) with (strip error).
  change (get_text "task_id" _) with id.
  change (dict_get "output" _) with output.
  rewrite lower_strip_idemp, strip_idemp, Hid. cbv [mbind res_bind raise_if]. by passed.
Qed.

Lemma task_cancel_normal task_id reason d :
  task_cancel task_id reason = Ok d →
  has_header d ∧ task_cancel (get_text "task_id" d) (get_text "reason" d) = Ok d.
Proof.
  unfold task_cancel. intros H. res_inv.
  destruct (base_stable _ _ E1) as (id & -> & Hid & Hne). subst d. split; [done|].
  change (get_text "reason" _) with (strip reason).
  change (get_text "task_id" _) with id.
  rewrite strip_idemp, Hid. cbv [mbind res_bind raise_if]. by passed.
Qed.

(** ** Properties of validation *)

(** Validation returns a normal form: validating a validated message again, in
    any spelling of its kind and with any random id at hand, gives the same body. *)
Theorem validate_task_message_normal fresh fresh' kind body d :
  validate_task_message fresh kind body = Ok d →
  validate_task_message fresh' kind (VMap d) = Ok d.
Proof.
  unfold validate_task_message. intros H. res_inv. rewrite E. cbv [raise_if].
  destruct body as [| | | | | | |body]; try discriminate H. res_inv.
  assert (has_header d → ∀ r, r = Ok d →
    (raise_if (negb (is_text (dict_get "protocol" d) AGENT_PROTOCOL))
      (ValueError "unsupported agent task protocol");;
    version ← py_int (dict_get_or (VInt 0) "version" d);
    raise_if (negb (version =? AGENT_PROTOCOL_VERSION))
      (ValueError "unsupported agent task protocol version");; r) = Ok d) as Hheader.
  { intros [-> ->] r ->. done. }
  destruct (String.eqb _ "agent.task.request");
    [|destruct (String.eqb _ "agent.task.status");
      [|destruct (String.eqb _ "agent.task.result")]];
    [eapply task_request_normal in H|eapply task_status_normal in H
    |eapply task_result_normal in H|eapply task_cancel_normal in H];
    destruct H as [Hd Hnormal]; by apply Hheader.
Qed.
(** What a normalised policy grants: everything, the capability itself, or the
    capability's namespace. *)
Definition policy_grants (policy : list string) (capability : string) : Prop :=
  "*" ∈ policy ∨ capability ∈ policy ∨
  ∃ ns rest, (ns +:+ ".*") ∈ policy ∧ capability = (ns +:+ ".") +:+ rest.

Lemma granted_spec policy c :
  granted policy c = true ↔ c ∈ policy ∨
    ∃ ns rest, (ns +:+ ".*") ∈ policy ∧ c = (ns +:+ ".") +:+ rest.
Proof.
  unfold granted. rewrite orb_true_iff, bool_decide_eq_true, existsb_exists.
  apply or_iff_compat_l. split.
  - intros (pattern & Hin & [Hw Hp]%andb_true_iff).
    apply endswith_split in Hw. apply startswith_spec in Hp as [rest ->].
    exists (namespace_of pattern), rest. split; [|done].
    unfold namespace_of. apply list_elem_of_In. change (String.length ".*") with 2%nat in Hw.
    congruence.
  - intros (ns & rest & Hin & ->). exists (ns +:+ ".*"). split; [by apply list_elem_of_In|].
    apply andb_true_iff. split; [apply endswith_app|]. apply startswith_spec.
    exists rest. unfold namespace_of. rewrite length_append.
    replace (String.length ns + String.length ".*" - 2)%nat with (String.length ns) by (simpl; lia).
    by rewrite substring_prefix.
Qed.

(** The capabilities reported missing are exactly the required ones that the
    normalised policy does not grant. *)
Theorem missing_task_capabilities_spec required allowed missing :
  missing_task_capabilities required allowed = Ok missing →
  ∃ req policy, _capabilities required = Ok req ∧
    normalize_capability_policy allowed = Ok policy ∧
    ∀ c, c ∈ missing ↔ c ∈ req ∧ ¬ policy_grants policy c.
Proof.
  unfold missing_task_capabilities. intros H. res_inv. exists x, x0. split_and!; [done..|].
  intros c. unfold policy_grants. case_bool_decide as Hall; res_inv; subst missing.
  - rewrite elem_of_nil. tauto.
  - rewrite list_elem_of_filter, <- granted_spec, <- (not_true_iff_false (granted _ _)). tauto.
Qed.
End protocol.

(** ** Witnesses *)

Definition sample_task_id : string := "0123456789abcdef0123456789abcdef".
Definition spelled_request : value :=
  VMap [field "protocol" (VStr AGENT_PROTOCOL); field "version" (VInt 1);
        field "task_id" (VStr ("  " +:+ sample_task_id)); field "objective" (VStr " read ");
        field "required_capabilities" (VList [VStr " FS.read"; VStr "fs.list"])].
Definition normal_request : dict :=
  match @validate_task_message sample_float "" "agent.task.request" spelled_request with
  | Ok d => d
  | Err _ => []
  end.

Lemma validate_task_message_normal_witness :
  dict_get "required_capabilities" normal_request = VList [VStr "fs.list"; VStr "fs.read"] ∧
  @validate_task_message sample_float "other" "agent.task.request" (VMap normal_request) =
    Ok normal_request.
Proof.
  split; [vm_compute; reflexivity|].
  apply (@validate_task_message_normal sample_float "" "other" "agent.task.request"
           spelled_request normal_request).
  vm_compute. reflexivity.
Defined.

Lemma missing_task_capabilities_spec_witness :
  ∃ req policy, @_capabilities sample_float (VList [VStr "net.get"; VStr "fs.read"]) = Ok req ∧
    @normalize_capability_policy sample_float [VStr "fs.*"] = Ok policy ∧
    ∀ c, c ∈ ["net.get"] ↔ c ∈ req ∧ ¬ policy_grants policy c.
Proof.
  apply (@missing_task_capabilities_spec sample_float (VList [VStr "net.get"; VStr "fs.read"])
           [VStr "fs.*"] ["net.get"]).
  vm_compute. reflexivity.
Defined.
