(* ===== verification/A2A.v ===== *)
(** The A2A 1.0 boundary (src/anet/a2a_v1.py): messages of the public agent protocol
    become Anet task requests, and task events become stream events.  The agent card,
    which only describes the gateway, is not modelled. *)
From S2P Require Import Prelude PyStr PyVal Codecs AgentProtocol.

Definition A2A_PROTOCOL_VERSION : string := "1.0".
(** [A2A_STATE_BY_ANET], in its order *)
Definition A2A_STATE_BY_ANET : list (string * string) :=
  [("submitted", "TASK_STATE_SUBMITTED"); ("working", "TASK_STATE_WORKING");
   ("completed", "TASK_STATE_COMPLETED"); ("failed", "TASK_STATE_FAILED");
   ("canceled", "TASK_STATE_CANCELED"); ("input-required", "TASK_STATE_INPUT_REQUIRED");
   ("rejected", "TASK_STATE_REJECTED"); ("auth-required", "TASK_STATE_AUTH_REQUIRED")].
Definition lookup_text (k : string) (l : list (string * string)) : option string :=
  snd <$> List.find (λ kv, String.eqb kv.1 k) l.
Definition ANET_STATE_BY_A2A : list (string * string) :=
  (λ kv, (kv.2, kv.1)) <$> A2A_STATE_BY_ANET.

Definition _MAX_JSON_BYTES : Z := 7 * 1024 * 1024.
Definition _MAX_PARTS : Z := 64.
Definition _MAX_ID_CHARS : Z := 1024.
Definition A2A_MAX_OBJECTIVE_CHARS : Z := 16000.
Definition _MESSAGE_FIELDS : list string :=
  ["messageId"; "contextId"; "taskId"; "role"; "parts"; "metadata"; "extensions";
   "referenceTaskIds"].
Definition _PART_FIELDS : list string :=
  ["text"; "raw"; "url"; "data"; "metadata"; "filename"; "mediaType"].
Definition _PART_CONTENT_FIELDS : list string := ["text"; "raw"; "url"; "data"].
Definition _REQUEST_FIELDS : list string := ["tenant"; "message"; "configuration"; "metadata"].
Definition _CANCEL_REQUEST_FIELDS : list string := ["tenant"; "id"; "metadata"].
(** [_SAFE_ID_RE.fullmatch], the capability syntax *)
Definition _SAFE_ID_RE : string → bool := capability_re.

(** [_required_string] *)
Definition _required_string (v : value) (name : string) (limit : Z) : res string :=
  match v with
  | VStr s =>
      raise_if (String.eqb (strip s) "") (ValueError (name +:+ " is required"));;
      raise_if (limit <? len (strip s)) (ValueError (name +:+ " is too long"));;
      mret (strip s)
  | _ => Err (ValueError (name +:+ " is required"))
  end.
Definition _string_list (v : value) (name : string) (limit : Z) : res (list string) :=
  match v with
  | VNone => mret []
  | VList l =>
      raise_if (limit <? Z.of_nat (length l)) (ValueError (name +:+ " must be a bounded list"));;
      map_res (λ item, _required_string item (name +:+ " item") _MAX_ID_CHARS) l
  | _ => Err (ValueError (name +:+ " must be a bounded list"))
  end.
Definition _safe_id (v name : string) : res string :=
  s ← _required_string (VStr v) name 128;
  raise_if (negb (_SAFE_ID_RE (lower s)))
    (ValueError (name +:+ " must use lowercase capability-style syntax"));;
  mret (lower s).

(** [base64.b64decode(s, validate=True)] accepts groups of four characters of the
    alphabet, the last one possibly padded, and nothing else. *)
Definition b64_std (a : ascii) : bool := is_alnum a || one_of "+/" a.
Fixpoint b64_strict (s : string) : bool :=
  match s with
  | EmptyString => true
  | String a (String b (String c (String d s'))) =>
      b64_std a && b64_std b &&
      ((b64_std c && b64_std d && b64_strict s') ||
       (b64_std c && (code d =? 61) && String.eqb s' "") ||
       ((code c =? 61) && (code d =? 61) && String.eqb s' ""))
  | _ => false
  end.

Section a2a.
Context {PL : Platform}.

(** [json.dumps(v, allow_nan=False, ensure_ascii=False, separators=(",", ":"))]:
    scalar keys become strings. *)
Definition json_int (z : Z) : res string :=
  raise_if (4300 <? len (str_of_Z (Z.abs z)))
    (ValueError "Exceeds the limit for integer string conversion");;
  mret (str_of_Z z).
Definition json_key (k : value) : res string :=
  match k with
  | VStr s => mret s
  | VNone => mret "null"
  | VBool b => mret (if b then "true" else "false")
  | VInt z => json_int z
  | VFloat q => mret (float_repr q)
  | _ => Err (TypeError "keys must be str, int, float, bool or None")
  end.
Fixpoint json_text (v : value) : res string :=
  match v with
  | VNone => mret "null"
  | VBool b => mret (if b then "true" else "false")
  | VInt z => json_int z
  | VFloat q => mret (float_repr q)
  | VStr s => mret (json_str s)
  | VBytes _ => Err (TypeError "Object of type bytes is not JSON serializable")
  | VList l => items ← map_res json_text l; mret ("[" +:+ join "," items +:+ "]")
  | VMap kvs =>
      members ← map_res (λ kv, match kv with (k, w) =>
                           k ← json_key k; t ← json_text w; mret (member (k, t)) end) kvs;
      mret ("{" +:+ join "," members +:+ "}")
  end.
Definition _json_clone (v : value) (name : string) : res value :=
  match json_text v with
  | Err (TypeError _) | Err (ValueError _) =>
      Err (ValueError (name +:+ " must contain JSON values"))
  | Err e => Err e
  | Ok encoded =>
      raise_if (_MAX_JSON_BYTES <? len (utf8 encoded)) (ValueError (name +:+ " is too large"));;
      json_loads encoded
  end.
(** [isinstance(v, dict)] or the error *)
Definition as_map (v : value) (e : exn) : res dict :=
  match v with VMap d => mret d | _ => Err e end.
Definition _json_map (v : value) (name : string) : res dict :=
  match v with
  | VNone => mret []
  | VMap _ => w ← _json_clone v name; as_map w (ValueError (name +:+ " must be an object"))
  | _ => Err (ValueError (name +:+ " must be an object"))
  end.

(** [sorted(values)] of the keys of a dictionary *)
Definition number_le (a b : value) : Prop :=
  Qle_bool (default 0%Q (as_number a)) (default 0%Q (as_number b)) = true.
#[local] Instance number_le_dec : RelDecision number_le.
Proof. intros a b. unfold number_le. apply _. Defined.
Definition sorted_keys (l : list value) : res (list value) :=
  let text v := match v with VStr s => Some s | _ => None end in
  let raw v := match v with VBytes b => Some b | _ => None end in
  match l with
  | [] | [_] => mret l
  | _ =>
      match mapM text l, mapM raw l, mapM as_number l with
      | Some texts, _, _ => mret (VStr <$> sorted texts)
      | _, Some raws, _ => mret (VBytes <$> sorted raws)
      | _, _, Some _ => mret (merge_sort number_le l)
      | _, _, _ => Err (TypeError "'<' not supported between instances")
      end
  end.
(** [set(d) - allowed] *)
Definition unknown_keys (d : dict) (allowed : list string) : list value :=
  filter (λ k, existsb (λ a, key_eqb (VStr a) k) allowed = false) d.*1.
(** [unknown = set(d) - allowed; if unknown: raise ValueError(...)] *)
Definition reject_unknown (d : dict) (allowed : list string) (what : string) : res unit :=
  match unknown_keys d allowed with
  | [] => mret tt
  | unknown => keys ← sorted_keys unknown;
               Err (ValueError (what +:+ ": " +:+ py_repr (VList keys)))
  end.
(** [1 <= len(parts) <= _MAX_PARTS] for a list *)
Definition bounded_parts (v : value) (e : exn) : res (list value) :=
  match v with
  | VList parts =>
      raise_if (negb ((1 <=? Z.of_nat (length parts)) && (Z.of_nat (length parts) <=? _MAX_PARTS))) e;;
      mret parts
  | _ => Err e
  end.

(** ** Messages *)

Definition _normalize_part (v : value) : res dict :=
  value ← as_map v (ValueError "A2A message parts must be objects");
  reject_unknown value _PART_FIELDS "unsupported A2A Part fields";;
  match filter (λ k, dict_has k value = true) _PART_CONTENT_FIELDS with
  | [content_field] =>
      let content := dict_get content_field value in
      first ← (if String.eqb content_field "data" then
                 data ← _json_clone content "A2A data Part"; mret (field "data" data)
               else match content with
               | VStr s =>
                   raise_if (String.eqb content_field "raw" && negb (b64_strict s))
                     (ValueError "A2A raw Part must be valid base64");;
                   raise_if (String.eqb content_field "url" && String.eqb (strip s) "")
                     (ValueError "A2A URL Part cannot be empty");;
                   mret (field content_field content)
               | _ => Err (ValueError ("A2A Part " +:+ content_field +:+ " must be a string"))
               end);
      metadata ← (if dict_has "metadata" value then
                    m ← _json_map (dict_get "metadata" value) "A2A Part metadata";
                    mret [field "metadata" (VMap m)]
                  else mret []);
      names ← map_res (λ k, s ← _required_string (dict_get k value) ("A2A Part " +:+ k) _MAX_ID_CHARS;
                            mret (field k (VStr s)))
                (filter (λ k, dict_has k value = true) ["filename"; "mediaType"]);
      mret (first :: metadata ++ names)
  | _ => Err (ValueError "A2A Part must contain exactly one content member")
  end.

Definition _normalize_message (v : value) : res dict :=
  value ← as_map v (ValueError "A2A SendMessageRequest.message must be an object");
  reject_unknown value _MESSAGE_FIELDS "unsupported A2A Message fields";;
  message_id ← _required_string (dict_get "messageId" value) "A2A messageId" _MAX_ID_CHARS;
  raise_if (negb (is_text (dict_get "role" value) "ROLE_USER"))
    (ValueError "A2A inbound Message role must be ROLE_USER");;
  raise_if (truthy (dict_get "taskId" value))
    (ValueError "A2A follow-up taskId requires a persisted gateway task mapping");;
  parts ← bounded_parts (dict_get "parts" value)
            (ValueError "A2A Message requires a bounded non-empty parts list");
  parts ← map_res _normalize_part parts;
  context ← (if truthy (dict_get "contextId" value) then
               s ← _required_string (dict_get "contextId" value) "A2A contextId" _MAX_ID_CHARS;
               mret [field "contextId" (VStr s)]
             else mret []);
  metadata ← (if dict_has "metadata" value then
                m ← _json_map (dict_get "metadata" value) "A2A Message metadata";
                mret [field "metadata" (VMap m)]
              else mret []);
  lists ← map_res (λ k, l ← _string_list (dict_get k value) ("A2A Message " +:+ k) 64;
                        mret (field k (VList (VStr <$> l))))
            (filter (λ k, dict_has k value = true) ["extensions"; "referenceTaskIds"]);
  mret ([field "messageId" (VStr message_id); field "role" (VStr "ROLE_USER");
         field "parts" (VList (VMap <$> parts))] ++ context ++ metadata ++ lists).

(** The stripped texts of a normalised message's text parts *)
Definition part_texts (message : dict) : list string :=
  let text p := match p with
                | VMap d => match dict_get "text" d with VStr s => strip s | _ => "" end
                | _ => ""
                end in
  match dict_get "parts" message with
  | VList parts => filter (λ s, s ≠ "") (text <$> parts)
  | _ => []
  end.
(** [_objective]; [ellipsis] is the one-character string of U+2026, which is beyond the
    code points of the model. *)
Definition _objective (ellipsis : string) (message : dict) : string :=
  let text := join (String (chr 10) EmptyString) (part_texts message) in
  if String.eqb text "" then "Handle A2A message " +:+ get_text "messageId" message
  else if len text <=? A2A_MAX_OBJECTIVE_CHARS then text
  else slice (Z.to_nat (A2A_MAX_OBJECTIVE_CHARS - 1)) text +:+ ellipsis.

Definition _derived_id (sender_id external_id person : string) : res string :=
  sender_id ← _required_string (VStr sender_id) "authenticated sender ID" 512;
  external_id ← _required_string (VStr external_id) "A2A messageId" _MAX_ID_CHARS;
  mret (blake2s_hexdigest 16 person (utf8 (sender_id +:+ String Ascii.zero external_id))).

(** The parts of an [A2ASkillBinding] that translation uses *)
Record A2ASkillBinding := {
  skill_id : string;
  skill_required_capabilities : list string;
}.
Record A2AInboundTask := {
  in_task_id : string;
  in_a2a_task_id : string;
  in_context_id : string;
  in_message_id : string;
  in_skill_id : string;
  in_message : dict;
  in_body : dict;
}.

(** The ids of a follow-up, checked against the persisted mapping, and the message
    with the task and context ids written back *)
Definition follow_up (sender skill tenant raw_task_id : string) (existing message : dict)
    : res (string * string * dict) :=
  raise_if (negb (forallb (λ k, dict_has k existing)
      ["a2a_task_id"; "context_id"; "sender_node_id"; "skill_id"; "tenant"; "protocol_version"]))
    (ValueError "incomplete persisted A2A task mapping");;
  a2a_task_id ← _required_string (dict_get "a2a_task_id" existing) "persisted A2A task ID" _MAX_ID_CHARS;
  context_id ← _required_string (dict_get "context_id" existing) "persisted A2A context ID" _MAX_ID_CHARS;
  raise_if (negb (String.eqb raw_task_id a2a_task_id))
    (ValueError "A2A follow-up taskId does not match persisted mapping");;
  raise_if (negb (is_text (dict_get "sender_node_id" existing) sender))
    (PermissionError "A2A follow-up sender does not match persisted task mapping");;
  raise_if (negb (is_text (dict_get "skill_id" existing) skill))
    (PermissionError "A2A follow-up skill does not match persisted task mapping");;
  raise_if (negb (is_text (dict_get "tenant" existing) tenant))
    (PermissionError "A2A follow-up tenant does not match persisted task mapping");;
  raise_if (negb (is_text (dict_get "protocol_version" existing) A2A_PROTOCOL_VERSION))
    (ValueError "persisted A2A task uses another protocol version");;
  raise_if (truthy (dict_get "contextId" message) && negb (is_text (dict_get "contextId" message) context_id))
    (ValueError "A2A follow-up contextId does not match persisted task mapping");;
  mret (a2a_task_id, context_id,
        dict_set (dict_set message (VStr "taskId") (VStr a2a_task_id)) (VStr "contextId") (VStr context_id)).

(** [context["a2a"]] of the task request *)
Definition a2a_context (message_id context_id a2a_task_id skill tenant : string) : dict :=
  [field "protocolVersion" (VStr A2A_PROTOCOL_VERSION); field "messageId" (VStr message_id);
   field "contextId" (VStr context_id); field "taskId" (VStr a2a_task_id);
   field "skillId" (VStr skill); field "tenant" (VStr tenant)].

Definition inbound_message_to_task (ellipsis fresh : string) (request : value) (sender : string)
    (skill : A2ASkillBinding) (expected_tenant : string) (existing_task : option dict)
    : res A2AInboundTask :=
  raw_request ← as_map request (ValueError "A2A SendMessageRequest must be an object");
  reject_unknown raw_request _REQUEST_FIELDS "unsupported A2A SendMessageRequest fields";;
  cloned ← _json_clone request "A2A SendMessageRequest";
  normalized ← as_map cloned (TypeError "object has no attribute 'get'");
  let tenant := get_text "tenant" normalized in
  raise_if (negb (String.eqb tenant expected_tenant))
    (PermissionError "A2A tenant does not match the selected interface");;
  let raw_message := dict_get "message" normalized in
  let raw_task_id := match raw_message with VMap m => strip (get_text "taskId" m) | _ => "" end in
  raise_if (negb (String.eqb raw_task_id "") && bool_decide (existing_task = None))
    (ValueError "A2A follow-up taskId requires a persisted gateway task mapping");;
  raise_if (bool_decide (existing_task ≠ None) && String.eqb raw_task_id "")
    (ValueError "persisted A2A task mapping requires a follow-up taskId");;
  message ← _normalize_message
    (match raw_message with
     | VMap m => if String.eqb raw_task_id "" then raw_message
                 else VMap (filter (λ kv, key_eqb (VStr "taskId") kv.1 = false) m)
     | _ => raw_message
     end);
  let message_id := get_text "messageId" message in
  task_id ← _derived_id sender message_id "a2a-task";
  skill_id ← _safe_id (skill_id skill) "A2A skill id";
  ids ← match existing_task with
        | None =>
            context_id ← (if truthy (dict_get "contextId" message)
                          then mret (get_text "contextId" message)
                          else d ← _derived_id sender message_id "a2a-ctx1"; mret ("anet-" +:+ d));
            mret (task_id, context_id, message)
        | Some existing => follow_up sender skill_id tenant raw_task_id existing message
        end;
  let '(a2a_task_id, context_id, message) := ids in
  configuration ← _json_map (dict_get "configuration" normalized)
                    "A2A SendMessageRequest.configuration";
  metadata ← _json_map (dict_get "metadata" normalized) "A2A SendMessageRequest.metadata";
  body ← task_request fresh (_objective ellipsis message)
    (VMap [field "a2aMessage" (VMap message); field "configuration" (VMap configuration);
           field "metadata" (VMap metadata)])
    (VList (VStr <$> skill_required_capabilities skill)) task_id
    (VMap [field "a2a" (VMap (a2a_context message_id context_id a2a_task_id skill_id tenant))]);
  mret {| in_task_id := task_id; in_a2a_task_id := a2a_task_id; in_context_id := context_id;
          in_message_id := message_id; in_skill_id := skill_id; in_message := message;
          in_body := body |}.

Definition initial_a2a_task (t : A2AInboundTask) : dict :=
  [field "id" (VStr (in_a2a_task_id t)); field "contextId" (VStr (in_context_id t));
   field "status" (VMap [field "state" (VStr "TASK_STATE_SUBMITTED")]);
   field "history" (VList [VMap (in_message t)]);
   field "metadata" (VMap [field "anet" (VMap [field "skillId" (VStr (in_skill_id t))])])].

Definition normalize_cancel_task_request (request : value) (sender : string) (existing : dict)
    (expected_tenant : string) : res dict :=
  raw ← as_map request (ValueError "A2A CancelTaskRequest must be an object");
  reject_unknown raw _CANCEL_REQUEST_FIELDS "unsupported A2A CancelTaskRequest fields";;
  cloned ← _json_clone request "A2A CancelTaskRequest";
  normalized ← as_map cloned (TypeError "object has no attribute 'get'");
  let tenant := get_text "tenant" normalized in
  raise_if (negb (String.eqb tenant expected_tenant))
    (PermissionError "A2A tenant does not match the selected interface");;
  raise_if (negb (forallb (λ k, dict_has k existing)
      ["a2a_task_id"; "sender_node_id"; "tenant"; "state"; "protocol_version"]))
    (ValueError "incomplete persisted A2A task mapping");;
  task_id ← _required_string (dict_get "id" normalized) "A2A task ID" _MAX_ID_CHARS;
  raise_if (negb (is_text (dict_get "a2a_task_id" existing) task_id))
    (ValueError "A2A cancellation task ID does not match persisted mapping");;
  raise_if (negb (is_text (dict_get "sender_node_id" existing) sender))
    (PermissionError "A2A cancellation sender does not match persisted task mapping");;
  raise_if (negb (is_text (dict_get "tenant" existing) tenant))
    (PermissionError "A2A cancellation tenant does not match persisted task mapping");;
  raise_if (negb (is_text (dict_get "protocol_version" existing) A2A_PROTOCOL_VERSION))
    (ValueError "persisted A2A task uses another protocol version");;
  raise_if (existsb (is_text (dict_get "state" existing)) TERMINAL_TASK_STATES &&
            negb (is_text (dict_get "state" existing) "canceled" &&
                  is_text (dict_get "cancel_state" existing) "confirmed"))
    (ValueError "terminal A2A task is not cancelable");;
  metadata ← _json_map (dict_get "metadata" normalized) "A2A CancelTaskRequest.metadata";
  mret [field "tenant" (VStr tenant); field "id" (VStr task_id); field "metadata" (VMap metadata)].

(** ** Stream events *)

Definition _agent_status_message (source_task_id a2a_task_id context_id state text : string) : dict :=
  let nul := String Ascii.zero EmptyString in
  let message_id := blake2s_hexdigest 16 "a2a-msg1"
    (utf8 (source_task_id +:+ nul +:+ state +:+ nul +:+ text)) in
  [field "messageId" (VStr message_id); field "contextId" (VStr context_id);
   field "taskId" (VStr a2a_task_id); field "role" (VStr "ROLE_AGENT");
   field "parts" (VList [VMap [field "text" (VStr text); field "mediaType" (VStr "text/plain")]])].

(** [base64.b64encode(raw).decode("ascii")]: the alphabet with [+] and [/], padded *)
Definition b64encode (raw : bytes) : string :=
  let t := str_map (λ a, if code a =? 45 then chr 43 else if code a =? 95 then chr 47 else a) (b64e raw) in
  t +:+ b64_pad t.
Definition _output_part (output : value) : res dict :=
  match output with
  | VStr _ => mret [field "text" output; field "mediaType" (VStr "text/plain")]
  | VBytes raw => mret [field "raw" (VStr (b64encode raw));
                        field "mediaType" (VStr "application/octet-stream")]
  | _ => data ← _json_clone output "Anet task output";
         mret [field "data" data; field "mediaType" (VStr "application/json")]
  end.

Definition artifact_update (a2a_task_id context_id : string) (output : value) : res value :=
  part ← _output_part output;
  mret (VMap [field "artifactUpdate" (VMap [
    field "taskId" (VStr a2a_task_id); field "contextId" (VStr context_id);
    field "artifact" (VMap [field "artifactId" (VStr "result"); field "name" (VStr "Anet task result");
                            field "parts" (VList [VMap part])]);
    field "append" (VBool false); field "lastChunk" (VBool true)])]).
Definition task_event_to_a2a_stream_events (fresh kind : string) (body : value)
    (context_id a2a_task_id : string) : res (list value) :=
  raise_if (negb (bool_decide (kind ∈ ["agent.task.status"; "agent.task.result"])))
    (ValueError "only Anet task status and result events map to A2A streams");;
  context_id ← _required_string (VStr context_id) "A2A contextId" _MAX_ID_CHARS;
  normalized ← validate_task_message fresh kind body;
  let source_task_id := get_text "task_id" normalized in
  a2a_task_id ← (if String.eqb a2a_task_id "" then mret source_task_id
                 else _required_string (VStr a2a_task_id) "A2A taskId" _MAX_ID_CHARS);
  let state := get_text "state" normalized in
  a2a_state ← of_option (KeyError state) (lookup_text state A2A_STATE_BY_ANET);
  let is_status := String.eqb kind "agent.task.status" in
  let status_text := strip (get_text (if is_status then "message" else "error") normalized) in
  let status :=
    field "state" (VStr a2a_state) ::
    (if String.eqb status_text "" then [] else
     [field "message" (VMap (_agent_status_message source_task_id a2a_task_id context_id state status_text))]) in
  artifact ← (match dict_get "output" normalized with
              | VNone => mret []
              | output => if is_status then mret []
                          else e ← artifact_update a2a_task_id context_id output; mret [e]
              end);
  let progress :=
    match dict_get "progress" normalized with
    | VNone => []
    | p => if is_status then [field "metadata" (VMap [field "anetProgress" p])] else []
    end in
  mret (artifact ++ [VMap [field "statusUpdate" (VMap (
    [field "taskId" (VStr a2a_task_id); field "contextId" (VStr context_id);
     field "status" (VMap status)] ++ progress))]]).

(** [set(d) - allowed] is not empty. *)
Definition has_unknown (d : dict) (allowed : list string) : bool :=
  bool_decide (unknown_keys d allowed ≠ []).
Definition check_metadata (update : dict) (name : string) : res unit :=
  if dict_has "metadata" update then (_json_map (dict_get "metadata" update) name;; mret tt)
  else mret tt.
Definition check_parts (v : value) (error : string) : res unit :=
  parts ← bounded_parts v (ValueError error);
  map_res _normalize_part parts;;
  mret tt.
(** [status.get("state") in ANET_STATE_BY_A2A]; an unhashable value raises. *)
Definition known_state (v : value) : res bool :=
  match v with
  | VStr s => mret (bool_decide (lookup_text s ANET_STATE_BY_A2A ≠ None))
  | VList _ | VMap _ => Err (TypeError "unhashable type")
  | _ => mret false
  end.
Definition check_status_message (task_id context_id : string) (v : value) : res unit :=
  match v with
  | VNone => mret tt
  | _ =>
      message ← as_map v (ValueError "A2A status message must be an object");
      raise_if (negb (is_text (dict_get "role" message) "ROLE_AGENT") ||
                negb (is_text (dict_get "taskId" message) task_id) ||
                negb (is_text (dict_get "contextId" message) context_id))
        (ValueError "A2A status message is not bound to the task");;
      _required_string (dict_get "messageId" message) "A2A status messageId" _MAX_ID_CHARS;;
      check_parts (dict_get "parts" message) "A2A status message requires parts"
  end.
Definition check_status_update (task_id context_id : string) (update : dict) : res unit :=
  raise_if (has_unknown update ["taskId"; "contextId"; "status"; "metadata"])
    (ValueError "unsupported A2A status update fields");;
  status ← as_map (dict_get "status" update) (ValueError "invalid A2A task status");
  raise_if (has_unknown status ["state"; "message"; "timestamp"])
    (ValueError "invalid A2A task status");;
  known ← known_state (dict_get "state" status);
  raise_if (negb known) (ValueError "invalid A2A task state");;
  check_status_message task_id context_id (dict_get "message" status);;
  check_metadata update "A2A status update metadata".
Definition check_artifact_update (update : dict) : res unit :=
  raise_if (has_unknown update ["taskId"; "contextId"; "artifact"; "append"; "lastChunk"; "metadata"])
    (ValueError "unsupported A2A artifact update fields");;
  artifact ← as_map (dict_get "artifact" update) (ValueError "invalid A2A artifact");
  raise_if (has_unknown artifact
      ["artifactId"; "name"; "description"; "parts"; "metadata"; "extensions"])
    (ValueError "invalid A2A artifact");;
  _required_string (dict_get "artifactId" artifact) "A2A artifactId" _MAX_ID_CHARS;;
  check_parts (dict_get "parts" artifact) "A2A artifact requires parts";;
  map_res (λ k, raise_if (dict_has k update &&
                          match dict_get k update with VBool _ => false | _ => true end)
                  (ValueError ("A2A artifact update " +:+ k +:+ " must be boolean")))
    ["append"; "lastChunk"];;
  check_metadata update "A2A artifact update metadata".

Definition validate_a2a_stream_event (v : value) (task_id context_id : string) : res dict :=
  task_id ← _required_string (VStr task_id) "A2A taskId" _MAX_ID_CHARS;
  context_id ← _required_string (VStr context_id) "A2A contextId" _MAX_ID_CHARS;
  normalized ← _json_clone v "A2A stream event";
  match normalized with
  | VMap [(VStr wrapper, inner)] =>
      raise_if (negb (bool_decide (wrapper ∈ ["statusUpdate"; "artifactUpdate"])))
        (ValueError "unsupported A2A stream event wrapper");;
      update ← as_map inner (ValueError "A2A stream event update must be an object");
      raise_if (negb (is_text (dict_get "taskId" update) task_id) ||
                negb (is_text (dict_get "contextId" update) context_id))
        (ValueError "A2A stream event task or context does not match mapping");;
      (if String.eqb wrapper "statusUpdate" then check_status_update task_id context_id update
       else check_artifact_update update);;
      mret [(VStr wrapper, inner)]
  | VMap [_] => Err (ValueError "unsupported A2A stream event wrapper")
  | _ => Err (ValueError "A2A stream event requires exactly one wrapper member")
  end.
(** The state that an accepted event moves its task to *)
Definition event_state (normalized : dict) : option string :=
  match normalized with
  | [(VStr wrapper, VMap update)] =>
      guard (wrapper = "statusUpdate");;
      match dict_get "status" update with
      | VMap status =>
          match dict_get "state" status with
          | VStr s => lookup_text s ANET_STATE_BY_A2A
          | _ => None
          end
      | _ => None
      end
  | _ => None
  end.

(** ** Guarantees *)

Lemma as_map_ok v e d : as_map v e = Ok d ↔ v = VMap d.
Proof. destruct v; split; intros H; try discriminate H; by injection H as ->. Qed.
Lemma lookup_a2a_state s : lookup_text s ANET_STATE_BY_A2A ≠ None →
  ∃ t, lookup_text s ANET_STATE_BY_A2A = Some t ∧ t ∈ TASK_STATES.
Proof.
  unfold lookup_text. intros H.
  destruct (List.find (λ kv, String.eqb kv.1 s) ANET_STATE_BY_A2A) as [[k t]|] eqn:E; [|done].
  exists t. split; [done|]. apply find_some in E as [Hin _].
  assert (Forall (λ kv, kv.2 ∈ TASK_STATES) ANET_STATE_BY_A2A) as Hall.
  { apply (bool_decide_eq_true_1 (Forall _ _)). vm_compute. reflexivity. }
  rewrite Forall_forall in Hall. apply (Hall (k, t)). by apply list_elem_of_In.
Qed.
(** An accepted event is a status update with a known state, or an artifact update. *)
Lemma validate_event_shape v task_id context_id n :
  validate_a2a_stream_event v task_id context_id = Ok n →
  ∃ wrapper update, n = [(VStr wrapper, VMap update)] ∧
    ((wrapper = "statusUpdate" ∧ ∃ s, event_state n = Some s ∧ s ∈ TASK_STATES) ∨
     (wrapper = "artifactUpdate" ∧ event_state n = None)).
Proof.
  unfold validate_a2a_stream_event. intros H. res_inv.
  match goal with H : _json_clone _ _ = Ok ?x |- _ => destruct x as [| | | | | | |kvs]; try discriminate end.
  destruct kvs as [|[k inner] [|]]; try discriminate; destruct k as [| | | |w| | |]; try discriminate.
  res_inv. subst n. bool_prop. match goal with H : as_map _ _ = Ok ?u |- _ =>
    apply as_map_ok in H as ->; exists w, u; rename u into update end.
  split; [done|].
  match goal with H : w ∈ _ |- _ => apply elem_of_cons in H as [->|Hw%list_elem_of_singleton] end;
    [left|right; subst w; by split].
  split; [done|].
  match goal with H : (if String.eqb "statusUpdate" _ then _ else _) = Ok _ |- _ =>
    change (check_status_update x x0 update = Ok x4) in H;
    unfold check_status_update in H end.
  res_inv. bool_prop.
  match goal with H : as_map (dict_get "status" _) _ = Ok ?d |- _ =>
    apply as_map_ok in H; rename H into Hstatus; rename d into status end.
  unfold event_state. rewrite option_guard_True by done. rewrite Hstatus.
  match goal with H : known_state _ = Ok _ |- _ => rename H into Hknown end.
  destruct (dict_get "state" status); simpl in Hknown; res_inv; subst; try discriminate.
  bool_prop. by apply lookup_a2a_state.
Qed.

(** A task request built from its parts, field by field *)
Lemma task_request_fields fresh objective input caps task_id context d :
  task_request fresh objective input caps task_id (VMap context) = Ok d →
  (∃ l, _capabilities caps = Ok l ∧ dict_get "required_capabilities" d = VList (VStr <$> l)) ∧
  dict_get "context" d = VMap context ∧ dict_get "input" d = input ∧
  _task_id (if String.eqb task_id "" then fresh else task_id) = Ok (get_text "task_id" d) ∧
  (∀ fresh', validate_task_message fresh' "agent.task.request" (VMap d) = Ok d).
Proof.
  intros H. pose proof H as Hrun. unfold task_request in H. res_inv.
  pose proof E1 as Hbase. unfold _base in E1. res_inv. subst.
  match goal with H : _capabilities _ = Ok ?l |- _ => rename H into Hcaps; rename l into l' end.
  assert (py_dict (if truthy (VMap context) then VMap context else VMap []) = Ok context) as Hctx
    by by destruct context.
  rewrite Hctx in E3. simplify_eq. split_and!; try done; [by exists l'|].
  intros fresh'. eapply task_request_normal in Hrun as [[Hp Hv] Hnormal].
  unfold validate_task_message. cbv [raise_if].
  change (lower (strip "agent.task.request")) with "agent.task.request".
  rewrite bool_decide_true by (by left). cbn [negb mbind res_bind].
  rewrite Hp, Hv. apply Hnormal.
Qed.

Lemma is_text_true v s : is_text v s = true → v = VStr s.
Proof. destruct v; intros H; try discriminate H. by apply String.eqb_eq in H as ->. Qed.
Lemma follow_up_inv sender skill tenant raw existing message a c m :
  follow_up sender skill tenant raw existing message = Ok (a, c, m) →
  _required_string (dict_get "a2a_task_id" existing) "persisted A2A task ID" _MAX_ID_CHARS = Ok a ∧
  dict_get "sender_node_id" existing = VStr sender ∧
  dict_get "skill_id" existing = VStr skill ∧ dict_get "tenant" existing = VStr tenant.
Proof.
  unfold follow_up. intros H. res_inv. bool_prop. simplify_eq.
  split_and!; by first [assumption|apply is_text_true].
Qed.

End a2a.

(** ** A concrete message *)

(** The platform of the witnesses with hash values of the form of hex digests *)
Definition a2a_platform : Platform :=
  let p := sample_platform [] in
  {| platform_float := @platform_float p; platform_msgpack := @platform_msgpack p;
     platform_hashing := {| sha256_hexdigest := λ d, "sha256:" +:+ d;
       blake2s_hexdigest := λ n _ d, substring 0 (Z.to_nat (2 * n)) (hex d) |} |}.
Definition sample_sender : string := "an1senderaaaaaaaaaaaaaaaaaaaaaaaaaa".
Definition sample_skill : A2ASkillBinding :=
  {| skill_id := "research.web"; skill_required_capabilities := ["net.get"; "fs.read"] |}.
(** A message that asks for more than the skill has *)
Definition greedy_message : value :=
  VMap [field "tenant" (VStr "t1"); field "message" (VMap [
    field "messageId" (VStr "m1"); field "role" (VStr "ROLE_USER");
    field "parts" (VList [VMap [field "text" (VStr " find it ")]]);
    field "metadata" (VMap [field "required_capabilities" (VList [VStr "shell.exec"])])])].
Definition sample_inbound : res A2AInboundTask :=
  @inbound_message_to_task a2a_platform "." "" greedy_message sample_sender sample_skill "t1" None.

