(* ===== verification/Gateway.v ===== *)
(** The A2A gateway tables of [PacketStore] (src/anet/store.py): principals bound to
    Node IDs, tasks with their messages and event logs, and the dispatch queue that
    turns messages and cancellations into packets. *)
From S2P Require Import Prelude PyStr PyVal Codecs Schema Packet Queue Prekeys Consumers AgentProtocol A2A.

(** ** Vocabulary *)

(** [_A2A_STATE_TRANSITIONS] *)
Definition _A2A_STATE_TRANSITIONS (state : string) : option (list string) :=
  if String.eqb state "submitted" then
    Some ["submitted"; "working"; "input-required"; "auth-required"; "completed"; "failed";
          "canceled"; "rejected"]
  else if String.eqb state "working" then
    Some ["working"; "input-required"; "auth-required"; "completed"; "failed"; "canceled"; "rejected"]
  else if String.eqb state "input-required" then
    Some ["input-required"; "auth-required"; "working"; "failed"; "canceled"; "rejected"]
  else if String.eqb state "auth-required" then
    Some ["auth-required"; "input-required"; "working"; "failed"; "canceled"; "rejected"]
  else if bool_decide (state ∈ TERMINAL_TASK_STATES) then Some [] else None.

Definition _a2a_external_id (value label : string) : res string :=
  let value := strip value in
  raise_if (String.eqb value "" || (1024 <? len value) ||
            negb (str_forall (λ a, 32 <=? code a) value)) (ValueError ("invalid " +:+ label));;
  mret value.
Definition _a2a_node_id (value label : string) : res string :=
  let value := strip value in
  raise_if (negb (startswith "an1" value) || (len value <? 20) || (128 <? len value))
    (ValueError ("invalid " +:+ label));;
  mret value.

(** Rows with their keys, as the item builders return them *)
Record a2a_task_item := A2ATaskItem {
  ti_principal_id : string;
  ti_sender_node_id : string;
  ti_a2a_task_id : string;
  ti_row : A2ATasks.row;
}.
Record a2a_message_item := A2AMessageItem {
  mi_principal_id : string;
  mi_message_id : string;
  mi_row : A2AMessages.row;
}.
Record a2a_dispatch_item := A2ADispatchItem {
  di_principal_id : string;
  di_message_id : string;
  di_row : A2ADispatches.row;
}.
Record a2a_event_item := A2AEventItem {
  ei_sequence : Z;
  ei_source_anet_task_id : string;
  ei_event : value;
  ei_created_ms : Z;
}.
(** [_a2a_task_item] as the dictionary it is *)
Definition _a2a_task_item (i : a2a_task_item) : dict :=
  let r := ti_row i in
  [field "principal_id" (VStr (ti_principal_id i)); field "sender_node_id" (VStr (ti_sender_node_id i));
   field "a2a_task_id" (VStr (ti_a2a_task_id i)); field "context_id" (VStr (A2ATasks.context_id r));
   field "destination_peer_id" (VStr (A2ATasks.destination_peer_id r));
   field "skill_id" (VStr (A2ATasks.skill_id r)); field "tenant" (VStr (A2ATasks.tenant r));
   field "protocol_version" (VStr (A2ATasks.protocol_version r));
   field "state" (VStr (A2ATasks.state r));
   field "latest_anet_task_id" (VStr (A2ATasks.latest_anet_task_id r));
   field "message_count" (VInt (A2ATasks.message_count r));
   field "last_sequence" (VInt (A2ATasks.last_sequence r));
   field "last_event_ms" (VInt (A2ATasks.last_event_ms r));
   field "cancel_state" (VStr (A2ATasks.cancel_state r));
   field "cancel_requested_ms" (VInt (A2ATasks.cancel_requested_ms r));
   field "created_ms" (VInt (A2ATasks.created_ms r)); field "updated_ms" (VInt (A2ATasks.updated_ms r))].

Section gateway.
Context {PL : Platform}.

(** The JOIN of a task with its principal *)
Definition task_join (s : db) (principal_id a2a_task_id : string) : option a2a_task_item :=
  row ← a2a_gateway_tasks s !! (principal_id, a2a_task_id);
  principal ← a2a_gateway_principals s !! principal_id;
  Some (A2ATaskItem principal_id (A2APrincipals.sender_node_id principal) a2a_task_id row).

(** ** Principals *)

Record principal_item := PrincipalItem {
  pi_principal_id : string;
  pi_row : A2APrincipals.row;
  pi_duplicate : bool;
}.
Definition put_principal (principal_id : string) (row : A2APrincipals.row) : M unit :=
  exec a2a_gateway_principals set_a2a_gateway_principals (insert principal_id row).

(** [bind_a2a_principal]; the allowed set is given as a list. *)
Definition bind_a2a_principal (current : Z) (principal_id sender_node_id : string)
    (allowed_sender_nodes : list string) : M principal_item :=
  principal_id ← lift (_consumer_id principal_id "A2A principal ID");
  sender_node_id ← lift (_a2a_node_id sender_node_id "A2A sender Node ID");
  allowed ← lift (mapM (λ v, _a2a_node_id v "allowed A2A sender Node ID") allowed_sender_nodes);
  lift (raise_if (negb (bool_decide (sender_node_id ∈ allowed)))
    (PermissionError "A2A principal sender is outside the local binding policy"));;
  transaction (
    existing ← gets (λ s, a2a_gateway_principals s !! principal_id);
    match existing with
    | Some r =>
        lift (raise_if (negb (String.eqb (A2APrincipals.sender_node_id r) sender_node_id))
          (PermissionError "A2A principal is already bound to another Node ID"));;
        let row := A2APrincipals.Row (A2APrincipals.sender_node_id r) (A2APrincipals.created_ms r) current in
        put_principal principal_id row;;
        mret (PrincipalItem principal_id row true)
    | None =>
        let row := A2APrincipals.Row sender_node_id current current in
        put_principal principal_id row;;
        mret (PrincipalItem principal_id row false)
    end).
Definition a2a_principal (principal_id : string) : M (option (string * A2APrincipals.row)) :=
  principal_id ← lift (_consumer_id principal_id "A2A principal ID");
  gets (λ s, (λ r, (principal_id, r)) <$> a2a_gateway_principals s !! principal_id).

(** ** Messages *)

(** UNIQUE(principal_id, anet_task_id) of the messages and of the dispatches *)
Definition message_of_anet (principal_id anet_task_id : string) (k : string * string)
    (r : A2AMessages.row) : Prop :=
  k.1 = principal_id ∧ A2AMessages.anet_task_id r = anet_task_id.
#[global] Instance message_of_anet_dec p a k r : Decision (message_of_anet p a k r).
Proof. unfold message_of_anet. apply _. Defined.
Definition dispatch_of_anet (principal_id anet_task_id : string) (k : string * string)
    (r : A2ADispatches.row) : Prop :=
  k.1 = principal_id ∧ A2ADispatches.anet_task_id r = anet_task_id.
#[global] Instance dispatch_of_anet_dec p a k r : Decision (dispatch_of_anet p a k r).
Proof. unfold dispatch_of_anet. apply _. Defined.

(** A new dispatch: pending, unclaimed; [token] is its reservation id. *)
Definition pending_dispatch (rowid current : Z) (token a2a_task_id anet_task_id destination_peer_id
    kind : string) (body : bytes) : A2ADispatches.row :=
  A2ADispatches.Row rowid a2a_task_id anet_task_id destination_peer_id kind body
    A2ADispatches.Pending "" "" token 0 0 0 "" "" current current 0.
Definition dispatch_taken (key : string * string) (anet_task_id : string) (s : db) : bool :=
  bool_decide (a2a_gateway_dispatches s !! key ≠ None) ||
  negb (count_where (dispatch_of_anet key.1 anet_task_id) (a2a_gateway_dispatches s) =? 0).
(** The INSERT under the primary key and the UNIQUE constraint *)
Definition insert_dispatch (current : Z) (token : string) (key : string * string)
    (a2a_task_id anet_task_id destination_peer_id kind : string) (body : bytes) : M unit :=
  taken ← gets (dispatch_taken key anet_task_id);
  lift (raise_if taken IntegrityError);;
  rowid ← gets (λ s, next_rowid A2ADispatches.rowid (a2a_gateway_dispatches s));
  exec a2a_gateway_dispatches set_a2a_gateway_dispatches (insert key
    (pending_dispatch rowid current token a2a_task_id anet_task_id destination_peer_id kind body)).
(** [INSERT OR IGNORE] *)
Definition insert_dispatch_or_ignore (current : Z) (token : string) (key : string * string)
    (a2a_task_id anet_task_id destination_peer_id kind : string) (body : bytes) : M unit :=
  taken ← gets (dispatch_taken key anet_task_id);
  if (taken : bool) then mret tt
  else insert_dispatch current token key a2a_task_id anet_task_id destination_peer_id kind body.
Definition insert_message (key : string * string) (a2a_task_id anet_task_id request_hash : string)
    (request_body : bytes) (current : Z) : M unit :=
  taken ← gets (λ s, bool_decide (a2a_gateway_messages s !! key ≠ None) ||
    negb (count_where (message_of_anet key.1 anet_task_id) (a2a_gateway_messages s) =? 0));
  lift (raise_if taken IntegrityError);;
  rowid ← gets (λ s, next_rowid A2AMessages.rowid (a2a_gateway_messages s));
  exec a2a_gateway_messages set_a2a_gateway_messages (insert key
    (A2AMessages.Row rowid a2a_task_id anet_task_id request_hash request_body current)).

(** The arguments of [register_a2a_message] after validation *)
Record registering := Registering {
  rg_principal_id : string;
  rg_sender_id : string;
  rg_a2a_task_id : string;
  rg_context_id : string;
  rg_message_id : string;
  rg_destination_peer_id : string;
  rg_skill_id : string;
  rg_tenant : string;
  rg_protocol_version : string;
  rg_anet_task_id : string;
  rg_request_hash : string;
  rg_encoded : bytes;
}.
Definition rg_key (r : registering) : string * string := (rg_principal_id r, rg_message_id r).
Definition rg_task (r : registering) : string * string := (rg_principal_id r, rg_a2a_task_id r).

Definition registration_check (fresh principal_id authenticated_sender_id a2a_task_id context_id
    message_id destination_peer_id skill_id tenant protocol_version : string)
    (request_body : value) : res registering :=
  principal_id ← _consumer_id principal_id "A2A principal ID";
  sender_id ← _a2a_node_id authenticated_sender_id "authenticated A2A sender Node ID";
  a2a_task_id ← _a2a_external_id a2a_task_id "A2A task ID";
  context_id ← _a2a_external_id context_id "A2A context ID";
  message_id ← _a2a_external_id message_id "A2A message ID";
  destination_peer_id ← _a2a_node_id destination_peer_id "A2A destination peer ID";
  skill_id ← _consumer_id skill_id "A2A skill ID";
  let tenant := strip tenant in
  raise_if ((1024 <? len tenant) || negb (str_forall (λ a, 32 <=? code a) tenant))
    (ValueError "invalid A2A tenant");;
  let protocol_version := strip protocol_version in
  raise_if (negb (String.eqb protocol_version "1.0"))
    (ValueError "unsupported A2A gateway protocol version");;
  normalized ← validate_task_message fresh "agent.task.request" request_body;
  context ← as_map (dict_get_or (VMap []) "context" normalized)
              (TypeError "object has no attribute 'get'");
  a2a ← as_map (dict_get "a2a" context) (ValueError "Anet task request lacks A2A gateway context");
  raise_if (existsb (λ e : string * string, negb (is_text (dict_get e.1 a2a) e.2))
      [("protocolVersion", protocol_version); ("messageId", message_id); ("contextId", context_id);
       ("taskId", a2a_task_id); ("skillId", skill_id); ("tenant", tenant)])
    (ValueError "Anet task request does not match A2A gateway mapping");;
  packed ← canonical_pack (VMap normalized);
  encoded ← pack (VMap normalized);
  mret (Registering principal_id sender_id a2a_task_id context_id message_id destination_peer_id
          skill_id tenant protocol_version (get_text "task_id" normalized)
          (blake2s_hexdigest 32 "aneta2a1" packed) encoded).

Record registered_message := RegisteredMessage {
  rm_task : a2a_task_item;
  rm_message : a2a_message_item;
  rm_dispatch : a2a_dispatch_item;
  rm_duplicate : bool;
}.
Definition required {A} (o : option A) : M A :=
  lift (of_option (TypeError "'NoneType' object is not subscriptable") o).
(** The item built after COMMIT; a missing row raises there, and the ROLLBACK then
    fails. *)
Definition registered_item (r : registering) (task : option a2a_task_item)
    (message : option A2AMessages.row) (dispatch : option A2ADispatches.row) (duplicate : bool)
    : res registered_message :=
  match task, message, dispatch with
  | Some t, Some m, Some d =>
      mret (RegisteredMessage t (A2AMessageItem (rg_principal_id r) (rg_message_id r) m)
              (A2ADispatchItem (rg_principal_id r) (rg_message_id r) d) duplicate)
  | _, _, _ => Err OperationalError
  end.

(** The message id is known: the same mapping and body, or an error.  The column
    [request_body] is never NULL in a database of this schema. *)
Definition repeat_message (current : Z) (token : string) (r : registering) (m : A2AMessages.row)
    : M unit :=
  lift (raise_if (negb (String.eqb (A2AMessages.a2a_task_id m) (rg_a2a_task_id r)) ||
                  negb (String.eqb (A2AMessages.anet_task_id m) (rg_anet_task_id r)) ||
                  negb (String.eqb (A2AMessages.request_hash m) (rg_request_hash r)))
    (ValueError "A2A messageId was reused with a different mapping or body"));;
  task ← gets (λ s, task_join s (rg_principal_id r) (rg_a2a_task_id r));
  task ← required task;
  insert_dispatch_or_ignore current token (rg_key r) (rg_a2a_task_id r) (rg_anet_task_id r)
    (A2ATasks.destination_peer_id (ti_row task)) "agent.task.request" (rg_encoded r).

(** A new task, or the checks on a follow-up *)
Definition new_task_row (current : Z) (r : registering) : A2ATasks.row :=
  A2ATasks.Row (rg_context_id r) (rg_destination_peer_id r) (rg_skill_id r) (rg_tenant r)
    (rg_protocol_version r) "submitted" (rg_anet_task_id r) 0 0 0 "" 0 current current.
Definition put_task (key : string * string) (row : A2ATasks.row) : M unit :=
  exec a2a_gateway_tasks set_a2a_gateway_tasks (insert key row).
Definition open_task (current : Z) (r : registering) : M unit :=
  task ← gets (λ s, a2a_gateway_tasks s !! rg_task r);
  match task with
  | None =>
      lift (raise_if (negb (String.eqb (rg_a2a_task_id r) (rg_anet_task_id r)))
        (ValueError "new A2A task ID must match its first Anet task ID"));;
      put_task (rg_task r) (new_task_row current r)
  | Some t =>
      lift (raise_if (bool_decide (A2ATasks.state t ∈ TERMINAL_TASK_STATES))
        (ValueError "terminal A2A task cannot accept a follow-up message"));;
      lift (raise_if (negb (String.eqb (A2ATasks.cancel_state t) ""))
        (ValueError "A2A task with a cancellation request cannot accept a follow-up"));;
      lift (raise_if (negb (String.eqb (A2ATasks.context_id t) (rg_context_id r) &&
                            String.eqb (A2ATasks.destination_peer_id t) (rg_destination_peer_id r) &&
                            String.eqb (A2ATasks.skill_id t) (rg_skill_id r) &&
                            String.eqb (A2ATasks.tenant t) (rg_tenant r) &&
                            String.eqb (A2ATasks.protocol_version t) (rg_protocol_version r)))
        (ValueError "A2A follow-up changed task context, peer, skill, or version"))
  end.
(** [SET latest_anet_task_id = ?, message_count = message_count + 1] *)
Definition with_message (current : Z) (anet_task_id : string) (t : A2ATasks.row) : A2ATasks.row :=
  A2ATasks.Row (A2ATasks.context_id t) (A2ATasks.destination_peer_id t) (A2ATasks.skill_id t)
    (A2ATasks.tenant t) (A2ATasks.protocol_version t) (A2ATasks.state t) anet_task_id
    (A2ATasks.message_count t + 1) (A2ATasks.last_sequence t) (A2ATasks.last_event_ms t)
    (A2ATasks.cancel_state t) (A2ATasks.cancel_requested_ms t) (A2ATasks.created_ms t) current.
Definition new_message (current : Z) (token : string) (r : registering) : M unit :=
  open_task current r;;
  conflicting ← gets (λ s, count_where (message_of_anet (rg_principal_id r) (rg_anet_task_id r))
                             (a2a_gateway_messages s));
  lift (raise_if (negb (conflicting =? 0))
    (ValueError "Anet task ID is already bound to another A2A message"));;
  insert_message (rg_key r) (rg_a2a_task_id r) (rg_anet_task_id r) (rg_request_hash r)
    (rg_encoded r) current;;
  insert_dispatch current token (rg_key r) (rg_a2a_task_id r) (rg_anet_task_id r)
    (rg_destination_peer_id r) "agent.task.request" (rg_encoded r);;
  exec a2a_gateway_tasks set_a2a_gateway_tasks
    (alter (with_message current (rg_anet_task_id r)) (rg_task r)).

(** The transaction: whether the message was known before *)
Definition register_commit (current : Z) (token : string) (r : registering) : M bool :=
  transaction (
    principal ← gets (λ s, a2a_gateway_principals s !! rg_principal_id r);
    principal ← lift (of_option
      (PermissionError "A2A principal has no authenticated Node ID binding") principal);
    lift (raise_if (negb (String.eqb (A2APrincipals.sender_node_id principal) (rg_sender_id r)))
      (PermissionError "authenticated A2A sender does not match principal binding"));;
    existing ← gets (λ s, a2a_gateway_messages s !! rg_key r);
    match existing with
    | Some m => repeat_message current token r m;; mret true
    | None => new_message current token r;; mret false
    end).
(** [token] is [secrets.token_hex(16)], [fresh] the random id of a request without one. *)
Definition register_a2a_message (current : Z) (token fresh principal_id authenticated_sender_id
    a2a_task_id context_id message_id destination_peer_id skill_id tenant protocol_version : string)
    (request_body : value) : M registered_message :=
  r ← lift (registration_check fresh principal_id authenticated_sender_id a2a_task_id context_id
              message_id destination_peer_id skill_id tenant protocol_version request_body);
  duplicate ← register_commit current token r;
  item ← gets (λ s, registered_item r (task_join s (rg_principal_id r) (rg_a2a_task_id r))
                      (a2a_gateway_messages s !! rg_key r) (a2a_gateway_dispatches s !! rg_key r)
                      duplicate);
  lift item.

(** [a2a_gateway_task], [a2a_gateway_message], [a2a_gateway_dispatch]: only the
    principal's own sender reads. *)
Definition owned (s : db) (principal_id sender_id : string) : bool :=
  match a2a_gateway_principals s !! principal_id with
  | Some p => String.eqb (A2APrincipals.sender_node_id p) sender_id
  | None => false
  end.
Definition a2a_gateway_task (principal_id a2a_task_id authenticated_sender_id : string)
    : M (option a2a_task_item) :=
  principal_id ← lift (_consumer_id principal_id "A2A principal ID");
  sender_id ← lift (_a2a_node_id authenticated_sender_id "authenticated A2A sender Node ID");
  a2a_task_id ← lift (_a2a_external_id a2a_task_id "A2A task ID");
  gets (λ s, if owned s principal_id sender_id then task_join s principal_id a2a_task_id else None).
Definition a2a_gateway_message (principal_id message_id authenticated_sender_id : string)
    : M (option a2a_message_item) :=
  principal_id ← lift (_consumer_id principal_id "A2A principal ID");
  sender_id ← lift (_a2a_node_id authenticated_sender_id "authenticated A2A sender Node ID");
  message_id ← lift (_a2a_external_id message_id "A2A message ID");
  gets (λ s, if owned s principal_id sender_id
             then A2AMessageItem principal_id message_id <$>
                    a2a_gateway_messages s !! (principal_id, message_id)
             else None).
Definition a2a_gateway_dispatch (principal_id message_id authenticated_sender_id : string)
    : M (option a2a_dispatch_item) :=
  principal_id ← lift (_consumer_id principal_id "A2A principal ID");
  sender_id ← lift (_a2a_node_id authenticated_sender_id "authenticated A2A sender Node ID");
  message_id ← lift (_a2a_external_id message_id "A2A message ID");
  gets (λ s, if owned s principal_id sender_id
             then A2ADispatchItem principal_id message_id <$>
                    a2a_gateway_dispatches s !! (principal_id, message_id)
             else None).

(** ** Cancellation *)

Definition message_key (kv : string * string * A2AMessages.row) : list Z :=
  [A2AMessages.created_ms kv.2; A2AMessages.rowid kv.2].
Definition dispatch_key (kv : string * string * A2ADispatches.row) : list Z :=
  [A2ADispatches.created_ms kv.2; A2ADispatches.rowid kv.2].
Definition task_messages (s : db) (key : string * string) : list (string * string * A2AMessages.row) :=
  order_by message_key (select_where (λ k r, k.1 = key.1 ∧ A2AMessages.a2a_task_id r = key.2)
                          (a2a_gateway_messages s)).
Definition is_cancel_of (key : string * string) (k : string * string) (d : A2ADispatches.row) : Prop :=
  k.1 = key.1 ∧ A2ADispatches.a2a_task_id d = key.2 ∧ A2ADispatches.kind d = "agent.task.cancel".
#[global] Instance is_cancel_of_dec key k d : Decision (is_cancel_of key k d).
Proof. unfold is_cancel_of. apply _. Defined.
Definition cancel_dispatches (s : db) (key : string * string)
    : list (string * string * A2ADispatches.row) :=
  order_by dispatch_key (select_where (is_cancel_of key) (a2a_gateway_dispatches s)).

(** The intent to cancel one internal task *)
Definition cancel_intent (current : Z) (token : string) (key : string * string)
    (destination_peer_id target_task_id : string) : M unit :=
  packed ← lift (canonical_pack (VList [VStr key.1; VStr key.2; VStr target_task_id]));
  let cancel_id := blake2s_hexdigest 16 "a2acxl1" packed in
  body ← lift (task_cancel target_task_id "A2A task cancellation requested");
  encoded ← lift (pack (VMap body));
  insert_dispatch current token (key.1, "cancel-" +:+ cancel_id) key.2 cancel_id
    destination_peer_id "agent.task.cancel" encoded.
Fixpoint cancel_intents (current : Z) (tokens : nat → string) (n : nat) (key : string * string)
    (destination_peer_id : string) (targets : list string) : M unit :=
  match targets with
  | [] => mret tt
  | target :: targets' =>
      cancel_intent current (tokens n) key destination_peer_id target;;
      cancel_intents current tokens (S n) key destination_peer_id targets'
  end.
Definition cancel_to (cancel_state : string) (requested_ms current : Z) (t : A2ATasks.row)
    : A2ATasks.row :=
  A2ATasks.Row (A2ATasks.context_id t) (A2ATasks.destination_peer_id t) (A2ATasks.skill_id t)
    (A2ATasks.tenant t) (A2ATasks.protocol_version t) (A2ATasks.state t)
    (A2ATasks.latest_anet_task_id t) (A2ATasks.message_count t) (A2ATasks.last_sequence t)
    (A2ATasks.last_event_ms t) cancel_state requested_ms (A2ATasks.created_ms t) current.

Record cancellation_item := CancellationItem {
  cx_task : a2a_task_item;
  cx_duplicate : bool;
  cx_dispatches : list (string * string * A2ADispatches.row);
}.
(** The transaction: the task afterwards, whether it was canceled before, its intents *)
Definition cancel_commit (current : Z) (tokens : nat → string) (principal_id sender_id : string)
    (request : value) : M (option a2a_task_item * bool * list (string * string * A2ADispatches.row)) :=
  transaction (
    a2a_task_id ← lift (_a2a_external_id
      (match request with VMap d => get_text "id" d | _ => "" end) "A2A task ID");
    let key := (principal_id, a2a_task_id) in
    task ← gets (λ s, task_join s principal_id a2a_task_id);
    task ← lift (of_option (ValueError "unknown A2A task") task);
    lift (normalize_cancel_task_request request sender_id (_a2a_task_item task)
            (A2ATasks.tenant (ti_row task)));;
    lift (raise_if (negb (String.eqb (ti_sender_node_id task) sender_id))
      (PermissionError "authenticated A2A sender does not own the task"));;
    if negb (String.eqb (A2ATasks.cancel_state (ti_row task)) "") then
      rows ← gets (λ s, cancel_dispatches s key);
      mret (Some task, true, rows)
    else
      targets ← gets (λ s, (λ kv, A2AMessages.anet_task_id kv.2) <$> task_messages s key);
      lift (raise_if (bool_decide (targets = []))
        (RuntimeError "A2A task has no internal task mapping"));;
      cancel_intents current tokens 0 key (A2ATasks.destination_peer_id (ti_row task)) targets;;
      exec a2a_gateway_tasks set_a2a_gateway_tasks (alter (cancel_to "requested" current current) key);;
      updated ← gets (λ s, task_join s principal_id a2a_task_id);
      rows ← gets (λ s, cancel_dispatches s key);
      mret (updated, false, rows)).
(** [tokens n] is the n-th [secrets.token_hex(16)]; the item is built after COMMIT. *)
Definition request_a2a_task_cancellation (current : Z) (tokens : nat → string) (principal_id : string)
    (request : value) (authenticated_sender_id : string) : M cancellation_item :=
  principal_id ← lift (_consumer_id principal_id "A2A principal ID");
  sender_id ← lift (_a2a_node_id authenticated_sender_id "authenticated A2A sender Node ID");
  r ← cancel_commit current tokens principal_id sender_id request;
  match r with
  | (Some task, duplicate, rows) => mret (CancellationItem task duplicate rows)
  | _ => mthrow OperationalError
  end.

(** ** The dispatch queue *)

Definition dispatch_due (current : Z) (d : A2ADispatches.row) : Prop :=
  ((A2ADispatches.state d = A2ADispatches.Pending ∨ A2ADispatches.state d = A2ADispatches.Retry) ∧
     A2ADispatches.retry_after_ms d ≤ current) ∨
  (A2ADispatches.state d = A2ADispatches.Leased ∧ A2ADispatches.lease_until_ms d ≤ current).
#[global] Instance dispatch_due_dec now d : Decision (dispatch_due now d).
Proof. unfold dispatch_due. apply _. Defined.
(** A statement that writes [row] at [k] under the UNIQUE index on claim tokens *)
Definition put_dispatch (k : string * string) (row : A2ADispatches.row) : M unit :=
  taken ← gets (λ s, count_where (λ k' r, k' ≠ k ∧ A2ADispatches.claim_token r ≠ "" ∧
            A2ADispatches.claim_token r = A2ADispatches.claim_token row) (a2a_gateway_dispatches s));
  lift (raise_if (negb (taken =? 0)) IntegrityError);;
  exec a2a_gateway_dispatches set_a2a_gateway_dispatches (insert k row).
Definition leased_dispatch (current lease_until : Z) (owner token : string) (d : A2ADispatches.row)
    : A2ADispatches.row :=
  A2ADispatches.Row (A2ADispatches.rowid d) (A2ADispatches.a2a_task_id d)
    (A2ADispatches.anet_task_id d) (A2ADispatches.destination_peer_id d) (A2ADispatches.kind d)
    (A2ADispatches.body d) A2ADispatches.Leased owner token
    (A2ADispatches.encryption_reservation_id d) lease_until 0 (A2ADispatches.attempts d + 1)
    (A2ADispatches.packet_id d) "" (A2ADispatches.created_ms d) current
    (A2ADispatches.dispatched_ms d).

Record claimed_dispatch := ClaimedDispatch {
  cd_item : a2a_dispatch_item;
  cd_body : value;
}.
Definition due_dispatches (s : db) (current limit : Z) : list (string * string * A2ADispatches.row) :=
  take (Z.to_nat (Z.max 1 (Z.min limit 128)))
    (order_by dispatch_key (select_where (λ _ d, dispatch_due current d) (a2a_gateway_dispatches s))).
(** The loop of [claim_a2a_dispatches]; the conditional UPDATE always finds its row,
    which the same transaction selected. *)
Fixpoint claim_dispatches (current lease_until : Z) (owner : string) (tokens : nat → string) (n : nat)
    (rows : list (string * string * A2ADispatches.row)) : M (list claimed_dispatch) :=
  match rows with
  | [] => mret []
  | (k, d) :: rows' =>
      let row := leased_dispatch current lease_until owner (tokens n) d in
      put_dispatch k row;;
      body ← lift (unpack (A2ADispatches.body row));
      claimed ← claim_dispatches current lease_until owner tokens (S n) rows';
      mret (ClaimedDispatch (A2ADispatchItem k.1 k.2 row) body :: claimed)
  end.
Definition dispatch_lease_ms (lease_seconds : Q) : Z := milliseconds 5 3600 lease_seconds.
Definition claim_a2a_dispatches (current : Z) (tokens : nat → string) (owner : string) (limit : Z)
    (lease_seconds : Q) : M (list claimed_dispatch) :=
  owner ← lift (_consumer_id owner "A2A dispatch owner");
  transaction (
    rows ← gets (λ s, due_dispatches s current limit);
    claim_dispatches current (current + dispatch_lease_ms lease_seconds) owner tokens 0 rows).

(** [WHERE owner = ? AND claim_token = ? AND state = 'leased'] *)
Definition held_dispatch (owner claim_token : string) (k : string * string) (d : A2ADispatches.row)
    : Prop :=
  A2ADispatches.owner d = owner ∧ A2ADispatches.claim_token d = claim_token ∧
  A2ADispatches.state d = A2ADispatches.Leased.
#[global] Instance held_dispatch_dec o t k d : Decision (held_dispatch o t k d).
Proof. unfold held_dispatch. apply _. Defined.
Definition update_dispatches (P : string * string → A2ADispatches.row → Prop)
    `{!∀ k r, Decision (P k r)} (f : A2ADispatches.row → A2ADispatches.row) : M Z :=
  rowcount ← gets (λ s, count_where P (a2a_gateway_dispatches s));
  exec a2a_gateway_dispatches set_a2a_gateway_dispatches (update_where P f);;
  mret rowcount.

Definition retried_dispatch (current retry_after : Z) (token error : string) (d : A2ADispatches.row)
    : A2ADispatches.row :=
  A2ADispatches.Row (A2ADispatches.rowid d) (A2ADispatches.a2a_task_id d)
    (A2ADispatches.anet_task_id d) (A2ADispatches.destination_peer_id d) (A2ADispatches.kind d)
    (A2ADispatches.body d) A2ADispatches.Retry "" "" token 0 retry_after (A2ADispatches.attempts d)
    (A2ADispatches.packet_id d) (slice 1000 error) (A2ADispatches.created_ms d) current
    (A2ADispatches.dispatched_ms d).
(** [token] is the new reservation id. *)
Definition retry_a2a_dispatch (current : Z) (token owner claim_token error : string) (retry_seconds : Q)
    : M a2a_dispatch_item :=
  owner ← lift (_consumer_id owner "A2A dispatch owner");
  claim_token ← lift (_claim_token claim_token);
  let error := strip error in
  lift (raise_if (String.eqb error "") (ValueError "A2A dispatch retry requires an error"));;
  let retry_after := current + retry_ms retry_seconds in
  transaction (
    claimed ← gets (λ s, head (select_where (held_dispatch owner claim_token) (a2a_gateway_dispatches s)));
    claimed ← lift (of_option
      (ValueError "A2A dispatch claim is stale, unknown, or owned by another worker") claimed);
    let d := claimed.2 in
    exec peer_prekeys set_peer_prekeys (update_where
      (λ k r, k.1 = A2ADispatches.destination_peer_id d ∧ PeerPrekeys.state r = PeerPrekeys.Reserved ∧
              PeerPrekeys.reservation_id r = A2ADispatches.encryption_reservation_id d)
      (λ r, peer_row_to PeerPrekeys.Burned (PeerPrekeys.reservation_id r)
              (PeerPrekeys.packet_id r) current r));;
    rowcount ← update_dispatches (held_dispatch owner claim_token)
                 (retried_dispatch current retry_after token error);
    lift (raise_if (negb (rowcount =? 1)) (RuntimeError "failed to release A2A dispatch claim"));;
    row ← gets (λ s, a2a_gateway_dispatches s !! claimed.1);
    row ← required row;
    mret (A2ADispatchItem claimed.1.1 claimed.1.2 row)).

(** The prekey a packet was sealed to has to be the one of the claim. *)
Definition dispatch_prekey (info : PacketInfo) (prekey_id prekey_reservation_id : string)
    : res (option (string * string)) :=
  let prekey_id := strip prekey_id in
  let reservation_id := strip prekey_reservation_id in
  match info_key_mode info with
  | Opk =>
      prekey_id ← _prekey_id prekey_id;
      reservation_id ← _prekey_id reservation_id;
      raise_if (negb (String.eqb (info_prekey_id info) prekey_id))
        (ValueError "A2A dispatch Packet prekey does not match claim");;
      mret (Some (prekey_id, reservation_id))
  | Static =>
      raise_if (negb (String.eqb prekey_id "" && String.eqb reservation_id ""))
        (ValueError "static A2A dispatch Packet cannot bind a prekey");;
      mret None
  end.
Definition bind_dispatch_prekey (current : Z) (info : PacketInfo) (d : A2ADispatches.row)
    (prekey : option (string * string)) : M unit :=
  match prekey with
  | None => mret tt
  | Some (prekey_id, reservation_id) =>
      lift (raise_if (negb (String.eqb (A2ADispatches.encryption_reservation_id d) reservation_id))
        (ValueError "A2A dispatch prekey reservation does not match intent"));;
      let target := held_where (destination_id info) prekey_id reservation_id in
      rowcount ← gets (λ s, count_where target (peer_prekeys s));
      exec peer_prekeys set_peer_prekeys (update_where target
        (λ r, peer_row_to PeerPrekeys.Used (PeerPrekeys.reservation_id r) (packet_id info) current r));;
      lift (raise_if (negb (rowcount =? 1)) (ValueError "prekey reservation is unavailable"))
  end.
Definition gateway_packet (current : Z) (info : PacketInfo) (raw : bytes) : Packets.row := {|
  Packets.destination_id := destination_id info; Packets.created_ms := created_ms info;
  Packets.expires_ms := expires_ms info; Packets.max_hops := max_hops info; Packets.depth := 0;
  Packets.raw := raw; Packets.origin := "a2a-gateway"; Packets.received_from := "";
  Packets.inserted_ms := current; Packets.delivered := false; Packets.qos_class := info_qos info |}.
(** INSERT INTO packets under its primary key *)
Definition insert_packet (packet_id : string) (row : Packets.row) : M unit :=
  existing ← gets (λ s, packets s !! packet_id);
  lift (raise_if (bool_decide (existing ≠ None)) IntegrityError);;
  exec packets set_packets (insert packet_id row).
Definition settled_dispatch (current : Z) (packet_id : string) (d : A2ADispatches.row)
    : A2ADispatches.row :=
  A2ADispatches.Row (A2ADispatches.rowid d) (A2ADispatches.a2a_task_id d)
    (A2ADispatches.anet_task_id d) (A2ADispatches.destination_peer_id d) (A2ADispatches.kind d)
    (A2ADispatches.body d) A2ADispatches.Dispatched "" ""
    (A2ADispatches.encryption_reservation_id d) 0 0 (A2ADispatches.attempts d) packet_id ""
    (A2ADispatches.created_ms d) current current.
(** The last intent of a cancellation is on its way. *)
Definition cancel_dispatched (current : Z) (t : A2ATasks.row) : A2ATasks.row :=
  if String.eqb (A2ATasks.cancel_state t) "requested"
  then cancel_to "dispatched" (A2ATasks.cancel_requested_ms t) current t else t.
Definition finish_cancellation (current : Z) (key : string * string) : M unit :=
  remaining ← gets (λ s, count_where (λ k d, is_cancel_of key k d ∧
                A2ADispatches.state d ≠ A2ADispatches.Dispatched) (a2a_gateway_dispatches s));
  if remaining =? 0
  then exec a2a_gateway_tasks set_a2a_gateway_tasks (alter (cancel_dispatched current) key)
  else mret tt.

Definition dispatch_commit (current : Z) (info : PacketInfo) (raw : bytes) (owner claim_token : string)
    (prekey : option (string * string)) : M a2a_dispatch_item :=
  transaction (
    dispatch ← gets (λ s, head (select_where
      (λ k d, held_dispatch owner claim_token k d ∧ current < A2ADispatches.lease_until_ms d)
      (a2a_gateway_dispatches s)));
    dispatch ← lift (of_option
      (ValueError "A2A dispatch claim is stale, expired, or owned by another worker") dispatch);
    let '(key, d) := dispatch in
    lift (raise_if (negb (String.eqb (A2ADispatches.destination_peer_id d) (destination_id info)))
      (ValueError "A2A dispatch Packet destination does not match intent"));;
    bind_dispatch_prekey current info d prekey;;
    insert_packet (packet_id info) (gateway_packet current info raw);;
    rowcount ← update_dispatches (λ k r, k = key ∧ held_dispatch owner claim_token k r)
                 (settled_dispatch current (packet_id info));
    lift (raise_if (negb (rowcount =? 1)) (RuntimeError "failed to settle A2A dispatch claim"));;
    (if String.eqb (A2ADispatches.kind d) "agent.task.cancel"
     then finish_cancellation current (key.1, A2ADispatches.a2a_task_id d) else mret tt);;
    row ← gets (λ s, a2a_gateway_dispatches s !! key);
    row ← required row;
    mret (A2ADispatchItem key.1 key.2 row)).
(** [c] and [c'] are the clock readings inside [inspect_packet]. *)
Definition commit_a2a_dispatch_packet (c c' current : Z) (owner claim_token : string) (raw : bytes)
    (prekey_id prekey_reservation_id : string) : M a2a_dispatch_item :=
  owner ← lift (_consumer_id owner "A2A dispatch owner");
  claim_token ← lift (_claim_token claim_token);
  info ← lift (inspect_packet c c' raw false);
  prekey ← lift (dispatch_prekey info prekey_id prekey_reservation_id);
  dispatch_commit current info raw owner claim_token prekey.

(** ** Event logs *)

(** A validated event with its packed form and its hash *)
Record normalized_event := NormalizedEvent {
  ne_event : dict;
  ne_encoded : bytes;
  ne_hash : string;
}.
Fixpoint normalize_events (source a2a_task_id context_id : string) (total : Z) (events : list value)
    : res (list normalized_event) :=
  match events with
  | [] => mret []
  | event :: events' =>
      normalized ← validate_a2a_stream_event event a2a_task_id context_id;
      encoded ← pack (VMap normalized);
      raise_if (MAX_WIRE_BYTES <? total + len encoded) (ValueError "A2A event batch is too large");;
      packed ← canonical_pack (VList [VStr source; VMap normalized]);
      rest ← normalize_events source a2a_task_id context_id (total + len encoded) events';
      mret (NormalizedEvent normalized encoded (blake2s_hexdigest 32 "a2aevt1" packed) :: rest)
  end.

(** The state after an event, or the refusal *)
Definition next_state (state : string) (event : dict) : res string :=
  match event_state event with
  | Some next =>
      allowed ← of_option (KeyError state) (_A2A_STATE_TRANSITIONS state);
      raise_if (negb (bool_decide (next ∈ allowed)))
        (ValueError ("invalid A2A task transition: " +:+ state +:+ " -> " +:+ next));;
      mret next
  | None =>
      raise_if (bool_decide (state ∈ TERMINAL_TASK_STATES))
        (ValueError "terminal A2A task cannot accept a new artifact");;
      mret state
  end.
Definition event_of_hash (key : string * string) (hash : string) (k : string * string * Z)
    (e : A2AEvents.row) : Prop := k.1 = key ∧ A2AEvents.event_hash e = hash.
#[global] Instance event_of_hash_dec key h k e : Decision (event_of_hash key h k e).
Proof. unfold event_of_hash. apply _. Defined.
(** INSERT under (principal, task, sequence) and UNIQUE(principal, task, hash) *)
Definition insert_event (key : string * string) (sequence : Z) (row : A2AEvents.row) : M unit :=
  taken ← gets (λ s, bool_decide (a2a_gateway_events s !! (key, sequence) ≠ None) ||
    negb (count_where (event_of_hash key (A2AEvents.event_hash row)) (a2a_gateway_events s) =? 0));
  lift (raise_if taken IntegrityError);;
  exec a2a_gateway_events set_a2a_gateway_events (insert (key, sequence) row).
(** The loop: state, last sequence, appended, duplicates *)
Fixpoint append_events (current : Z) (key : string * string) (source latest : string)
    (events : list normalized_event) (acc : string * Z * Z * Z) : M (string * Z * Z * Z) :=
  match events with
  | [] => mret acc
  | e :: events' =>
      let '(state, sequence, appended, duplicates) := acc in
      existing ← gets (λ s, count_where (event_of_hash key (ne_hash e)) (a2a_gateway_events s));
      if negb (existing =? 0) then
        append_events current key source latest events' (state, sequence, appended, duplicates + 1)
      else
        lift (raise_if (negb (String.eqb latest source))
          (ValueError "source Anet task is stale after a newer A2A message"));;
        state ← lift (next_state state (ne_event e));
        insert_event key (sequence + 1)
          (A2AEvents.Row source (ne_hash e) (ne_encoded e) current);;
        append_events current key source latest events' (state, sequence + 1, appended + 1, duplicates)
  end.
Definition cancel_outcome (state cancel_state : string) : string :=
  if String.eqb cancel_state "" then ""
  else if String.eqb state "canceled" then "confirmed"
  else if bool_decide (state ∈ TERMINAL_TASK_STATES) then "too_late" else cancel_state.
Definition with_events (current : Z) (state : string) (sequence : Z) (t : A2ATasks.row) : A2ATasks.row :=
  A2ATasks.Row (A2ATasks.context_id t) (A2ATasks.destination_peer_id t) (A2ATasks.skill_id t)
    (A2ATasks.tenant t) (A2ATasks.protocol_version t) state (A2ATasks.latest_anet_task_id t)
    (A2ATasks.message_count t) sequence current (cancel_outcome state (A2ATasks.cancel_state t))
    (A2ATasks.cancel_requested_ms t) (A2ATasks.created_ms t) current.

Record appended_events := AppendedEvents {
  ae_state : string;
  ae_last_sequence : Z;
  ae_appended : Z;
  ae_duplicates : Z;
}.
Definition append_commit (current : Z) (principal_id sender_id a2a_task_id source : string)
    (events : list value) : M appended_events :=
  let key := (principal_id, a2a_task_id) in
  transaction (
    task ← gets (λ s, task_join s principal_id a2a_task_id);
    task ← lift (of_option (ValueError "unknown A2A task") task);
    lift (raise_if (negb (String.eqb (ti_sender_node_id task) sender_id))
      (PermissionError "authenticated A2A sender does not own the task"));;
    bound ← gets (λ s, count_where (λ k m, message_of_anet principal_id source k m ∧
                         A2AMessages.a2a_task_id m = a2a_task_id) (a2a_gateway_messages s));
    lift (raise_if (bound =? 0) (ValueError "source Anet task is not bound to the A2A task"));;
    let t := ti_row task in
    normalized ← lift (normalize_events source a2a_task_id (A2ATasks.context_id t) 0 events);
    r ← append_events current key source (A2ATasks.latest_anet_task_id t) normalized
          (A2ATasks.state t, A2ATasks.last_sequence t, 0, 0);
    let '(state, sequence, appended, duplicates) := r in
    (if negb (appended =? 0)
     then exec a2a_gateway_tasks set_a2a_gateway_tasks (alter (with_events current state sequence) key)
     else mret tt);;
    mret (AppendedEvents state sequence appended duplicates)).
Definition append_a2a_task_events (current : Z) (principal_id authenticated_sender_id a2a_task_id
    source_anet_task_id : string) (events : list value) : M appended_events :=
  principal_id ← lift (_consumer_id principal_id "A2A principal ID");
  sender_id ← lift (_a2a_node_id authenticated_sender_id "authenticated A2A sender Node ID");
  a2a_task_id ← lift (_a2a_external_id a2a_task_id "A2A task ID");
  source ← lift (_a2a_external_id source_anet_task_id "source Anet task ID");
  lift (raise_if (negb ((1 <=? Z.of_nat (length events)) && (Z.of_nat (length events) <=? 64)))
    (ValueError "A2A event append requires a bounded non-empty batch"));;
  append_commit current principal_id sender_id a2a_task_id source events.

Record event_page := EventPage {
  pg_state : string;
  pg_after_sequence : Z;
  pg_next_sequence : Z;
  pg_last_sequence : Z;
  pg_caught_up : bool;
  pg_events : list a2a_event_item;
}.
Definition _a2a_event_item (kv : string * string * Z * A2AEvents.row) : res a2a_event_item :=
  event ← unpack (A2AEvents.event kv.2);
  mret (A2AEventItem kv.1.2 (A2AEvents.source_anet_task_id kv.2) event (A2AEvents.created_ms kv.2)).
Definition page_rows (s : db) (key : string * string) (after limit : Z)
    : list (string * string * Z * A2AEvents.row) :=
  take (Z.to_nat limit) (order_by (λ kv, [kv.1.2])
    (select_where (λ k _, k.1 = key ∧ after < k.2) (a2a_gateway_events s))).
Definition read_a2a_task_events (principal_id a2a_task_id authenticated_sender_id : string)
    (after_sequence limit : Z) : M event_page :=
  principal_id ← lift (_consumer_id principal_id "A2A principal ID");
  sender_id ← lift (_a2a_node_id authenticated_sender_id "authenticated A2A sender Node ID");
  a2a_task_id ← lift (_a2a_external_id a2a_task_id "A2A task ID");
  lift (raise_if (after_sequence <? 0) (ValueError "A2A event cursor cannot be negative"));;
  lift (raise_if (negb ((1 <=? limit) && (limit <=? 1000)))
    (ValueError "A2A event page limit must be between 1 and 1000"));;
  task ← gets (λ s, task_join s principal_id a2a_task_id);
  task ← lift (of_option (ValueError "unknown A2A task") task);
  lift (raise_if (negb (String.eqb (ti_sender_node_id task) sender_id))
    (PermissionError "authenticated A2A sender does not own the task"));;
  lift (raise_if (2 ^ 63 <=? after_sequence) int_too_large);;
  rows ← gets (λ s, page_rows s (principal_id, a2a_task_id) after_sequence limit);
  items ← lift (map_res _a2a_event_item rows);
  let next := match last items with Some i => ei_sequence i | None => after_sequence end in
  let final := A2ATasks.last_sequence (ti_row task) in
  mret (EventPage (A2ATasks.state (ti_row task)) after_sequence next final (final <=? next) items).
End gateway.

(** ** Consistency *)

Definition finished (t : A2ATasks.row) : Prop := A2ATasks.state t ∈ TERMINAL_TASK_STATES.
#[global] Instance finished_dec t : Decision (finished t).
Proof. unfold finished. apply _. Defined.
(** [a → b] in the table of transitions *)
Definition moves (a b : string) : Prop :=
  match _A2A_STATE_TRANSITIONS a with Some l => b ∈ l | None => False end.

(** Where a cancellation stands agrees with the state of the task. *)
Definition cancel_consistent (t : A2ATasks.row) : Prop :=
  A2ATasks.cancel_state t ∈ [""; "requested"; "dispatched"; "confirmed"; "too_late"] ∧
  (A2ATasks.cancel_state t = "confirmed" → A2ATasks.state t = "canceled") ∧
  (A2ATasks.cancel_state t = "too_late" → finished t) ∧
  (finished t → A2ATasks.cancel_state t ∈ [""; "confirmed"; "too_late"]).
Definition message_of_task (key : string * string) (k : string * string) (m : A2AMessages.row) : Prop :=
  k.1 = key.1 ∧ A2AMessages.a2a_task_id m = key.2.
#[global] Instance message_of_task_dec key k m : Decision (message_of_task key k m).
Proof. unfold message_of_task. apply _. Defined.

(** Exactly the leased dispatches carry a token, and no token is shared. *)
Definition dispatches_ok (D : gmap (string * string) A2ADispatches.row) : Prop :=
  (∀ k d, D !! k = Some d → (A2ADispatches.state d = A2ADispatches.Leased ↔ A2ADispatches.claim_token d ≠ "")) ∧
  (∀ k k' d d', D !! k = Some d → D !! k' = Some d' → A2ADispatches.claim_token d ≠ "" →
     A2ADispatches.claim_token d = A2ADispatches.claim_token d' → k = k').

Record gateway_ok (s : db) : Prop := {
  ga_task : ∀ k t, a2a_gateway_tasks s !! k = Some t →
    is_Some (a2a_gateway_principals s !! k.1) ∧ A2ATasks.state t ∈ TASK_STATES ∧
    0 ≤ A2ATasks.last_sequence t ∧ cancel_consistent t ∧
    A2ATasks.message_count t = count_where (message_of_task k) (a2a_gateway_messages s);
  ga_log : ∀ k n, is_Some (a2a_gateway_events s !! (k, n)) ↔
    ∃ t, a2a_gateway_tasks s !! k = Some t ∧ 1 ≤ n ≤ A2ATasks.last_sequence t;
  ga_hash : ∀ k n n' e e', a2a_gateway_events s !! (k, n) = Some e →
    a2a_gateway_events s !! (k, n') = Some e' → A2AEvents.event_hash e = A2AEvents.event_hash e' → n = n';
  ga_message : ∀ k m, a2a_gateway_messages s !! k = Some m →
    is_Some (a2a_gateway_tasks s !! (k.1, A2AMessages.a2a_task_id m)) ∧
    ∃ d, a2a_gateway_dispatches s !! k = Some d ∧
      A2ADispatches.a2a_task_id d = A2AMessages.a2a_task_id m ∧
      A2ADispatches.anet_task_id d = A2AMessages.anet_task_id m ∧
      A2ADispatches.kind d = "agent.task.request";
  ga_dispatches : dispatches_ok (a2a_gateway_dispatches s);
}.

(** ** What no operation undoes *)

Definition principal_advance (p p' : A2APrincipals.row) : Prop :=
  A2APrincipals.sender_node_id p' = A2APrincipals.sender_node_id p ∧
  A2APrincipals.created_ms p' = A2APrincipals.created_ms p.
Definition cancel_rank (c : string) : Z :=
  if String.eqb c "" then 0 else if String.eqb c "requested" then 1
  else if String.eqb c "dispatched" then 2 else 3.
(** A finished task is frozen; another keeps its mapping, and its state moves along the
    transitions while its counters and its cancellation only go forward. *)
Definition task_advance (t t' : A2ATasks.row) : Prop :=
  A2ATasks.context_id t' = A2ATasks.context_id t ∧
  A2ATasks.destination_peer_id t' = A2ATasks.destination_peer_id t ∧
  A2ATasks.skill_id t' = A2ATasks.skill_id t ∧ A2ATasks.tenant t' = A2ATasks.tenant t ∧
  A2ATasks.protocol_version t' = A2ATasks.protocol_version t ∧
  A2ATasks.created_ms t' = A2ATasks.created_ms t ∧
  rtc moves (A2ATasks.state t) (A2ATasks.state t') ∧
  A2ATasks.last_sequence t ≤ A2ATasks.last_sequence t' ∧
  A2ATasks.message_count t ≤ A2ATasks.message_count t' ∧
  cancel_rank (A2ATasks.cancel_state t) ≤ cancel_rank (A2ATasks.cancel_state t') ∧
  (finished t → t' = t).
(** A dispatch keeps its content, and is final once its packet is queued. *)
Definition dispatch_advance (d d' : A2ADispatches.row) : Prop :=
  A2ADispatches.rowid d' = A2ADispatches.rowid d ∧
  A2ADispatches.a2a_task_id d' = A2ADispatches.a2a_task_id d ∧
  A2ADispatches.anet_task_id d' = A2ADispatches.anet_task_id d ∧
  A2ADispatches.destination_peer_id d' = A2ADispatches.destination_peer_id d ∧
  A2ADispatches.kind d' = A2ADispatches.kind d ∧ A2ADispatches.body d' = A2ADispatches.body d ∧
  A2ADispatches.created_ms d' = A2ADispatches.created_ms d ∧
  A2ADispatches.attempts d ≤ A2ADispatches.attempts d' ∧
  (A2ADispatches.state d = A2ADispatches.Dispatched → d' = d).
#[global] Instance principal_advance_preorder : PreOrder principal_advance.
Proof. split; [done|]. unfold principal_advance. intros a b c [] []. split; congruence. Qed.
#[global] Instance task_advance_preorder : PreOrder task_advance.
Proof.
  split; [by intros t; unfold task_advance; split_and!; try done; lia|].
  intros a b c (?&?&?&?&?&?& Hab &?&?&?& Fab) (?&?&?&?&?&?& Hbc &?&?&?& Fbc).
  unfold task_advance. split_and!; try congruence; try lia; [by etrans|].
  intros Ha. pose proof (Fab Ha) as ->. by apply Fbc.
Qed.
#[global] Instance dispatch_advance_preorder : PreOrder dispatch_advance.
Proof.
  split; [by intros t; unfold dispatch_advance; split_and!; try done; lia|].
  intros a b c (?&?&?&?&?&?&?&?& Fab) (?&?&?&?&?&?&?&?& Fbc).
  unfold dispatch_advance. split_and!; try congruence; try lia.
  intros Ha. pose proof (Fab Ha) as ->. by apply Fbc.
Qed.

Record gateway_progress (s s' : db) : Prop := {
  gp_principals : table_progress principal_advance (a2a_gateway_principals s) (a2a_gateway_principals s');
  gp_tasks : table_progress task_advance (a2a_gateway_tasks s) (a2a_gateway_tasks s');
  gp_messages : table_progress eq (a2a_gateway_messages s) (a2a_gateway_messages s');
  gp_events : table_progress eq (a2a_gateway_events s) (a2a_gateway_events s');
  gp_dispatches : table_progress dispatch_advance (a2a_gateway_dispatches s) (a2a_gateway_dispatches s');
}.
#[global] Instance gateway_progress_preorder : PreOrder gateway_progress.
Proof. split; [intros s; split; reflexivity|]. intros a b c [] []. split; by etrans. Qed.
Definition gateway_step (s s' : db) : Prop := gateway_ok s → gateway_ok s' ∧ gateway_progress s s'.
#[global] Instance gateway_step_preorder : PreOrder gateway_step.
Proof.
  split; [by intros s; split; [done|]|]. intros a b c Hab Hbc Ha.
  destruct (Hab Ha) as [Hb ?], (Hbc Hb) as [Hc ?]. split; [done|by etrans].
Qed.

Definition gateway_tables (s : db) :=
  (a2a_gateway_principals s, a2a_gateway_tasks s, a2a_gateway_messages s, a2a_gateway_events s,
   a2a_gateway_dispatches s).
Lemma gateway_step_same s s' : gateway_tables s' = gateway_tables s → gateway_step s s'.
Proof.
  intros [= E1 E2 E3 E4 E5] [H1 H2 H3 H4 H5].
  split; split; rewrite ?E1, ?E2, ?E3, ?E4, ?E5; done || reflexivity.
Qed.

(** ** Writes of one table *)

Lemma table_progress_insert {K V} `{Countable K} (P : relation V) `{!PreOrder P} k v (t : gmap K V) :
  (∀ old, t !! k = Some old → P old v) → table_progress P t (<[k := v]> t).
Proof.
  intros Hold k' v' Hk'. destruct (decide (k = k')) as [->|Hne].
  - exists v. rewrite lookup_insert_eq. by split; [|apply Hold].
  - exists v'. by rewrite lookup_insert_ne.
Qed.

Lemma gateway_step_principal k p s :
  (∀ old, a2a_gateway_principals s !! k = Some old → principal_advance old p) →
  gateway_step s (set_a2a_gateway_principals (<[k := p]> (a2a_gateway_principals s)) s).
Proof.
  intros Hold [H1 H2 H3 H4 H5]. split; [|split; simpl; try reflexivity; by apply (table_progress_insert principal_advance)].
  split; try done. intros k' t Ht. destruct (H1 k' t Ht) as (Hp & ?). split; [|done].
  simpl. apply lookup_insert_is_Some. destruct (decide (k = k'.1)); auto.
Qed.
Lemma gateway_step_dispatches D s :
  table_progress dispatch_advance (a2a_gateway_dispatches s) D →
  (gateway_ok s → dispatches_ok D) →
  gateway_step s (set_a2a_gateway_dispatches D s).
Proof.
  intros Hprog Hok Hs. pose proof Hs as [H1 H2 H3 H4 H5].
  split; [|split; simpl; try reflexivity; done].
  split; try done; [|by apply Hok]. intros k m Hm. destruct (H4 k m Hm) as (Ht & d & Hd & Htask & Hanet & Hkind).
  split; [done|]. simpl. destruct (Hprog k d Hd) as (d' & Hd' & _ & E1 & E2 & _ & E3 & _).
  exists d'. by rewrite E1, E2, E3.
Qed.
(** An update of one task that appends nothing *)
Lemma gateway_step_task k t t' s :
  a2a_gateway_tasks s !! k = Some t → (gateway_ok s → task_advance t t' ∧ cancel_consistent t') →
  A2ATasks.state t' ∈ TASK_STATES → A2ATasks.last_sequence t' = A2ATasks.last_sequence t →
  A2ATasks.message_count t' = A2ATasks.message_count t →
  gateway_step s (set_a2a_gateway_tasks (<[k := t']> (a2a_gateway_tasks s)) s).
Proof.
  intros Ht Hadv Hst Hseq Hcount Hs. destruct (Hadv Hs) as [Hadv' Hcancel].
  pose proof Hs as [H1 H2 H3 H4 H5].
  split; [|split; simpl; try reflexivity].
  2: { apply (table_progress_insert task_advance). intros old Hold. assert (old = t) as -> by congruence. done. }
  split; simpl; try done.
  - intros k' t0 [[<- <-]|[_ Hk']]%lookup_insert_Some; [|by apply H1].
    destruct (H1 k t Ht) as (? & _ & ? & _ & ?). split_and!; try done; [lia|congruence].
  - intros k' n. rewrite H2. destruct (decide (k = k')) as [<-|Hne].
    + rewrite lookup_insert_eq. split; [intros (t0 & Ht0 & ?); exists t'|intros (t0 & [= <-] & ?); exists t].
      * assert (t0 = t) as -> by congruence. split; [done|lia].
      * split; [done|lia].
    + by rewrite lookup_insert_ne.
  - intros k' m Hm. destruct (H4 k' m Hm) as (Htask & ?). split; [|done].
    apply lookup_insert_is_Some. destruct (decide (k = (k'.1, A2AMessages.a2a_task_id m))); auto.
Qed.

(** Tokens are kept apart by an UPDATE that clears them or leaves them alone. *)
Lemma dispatches_ok_update (P : string * string → A2ADispatches.row → Prop)
    `{!∀ k d, Decision (P k d)} f D :
  (∀ d, A2ADispatches.claim_token (f d) = "" ∧ A2ADispatches.state (f d) ≠ A2ADispatches.Leased) →
  dispatches_ok D → dispatches_ok (update_where P f D).
Proof.
  intros Hf [Htok Huniq]. split.
  - intros k d' (d & Hd & ->)%lookup_update_where_Some. case_decide; [|by apply (Htok k)].
    destruct (Hf d) as [-> ?]. by split.
  - intros k k' d1 d2 (e1 & He1 & ->)%lookup_update_where_Some (e2 & He2 & ->)%lookup_update_where_Some.
    do 2 case_decide; intros Hne Heq.
    all: try (destruct (Hf e1) as [E1 _]; congruence).
    all: try (destruct (Hf e2) as [E2 _]; congruence).
    by eapply Huniq.
Qed.
Lemma dispatches_ok_put k d D :
  A2ADispatches.state d = A2ADispatches.Leased ↔ A2ADispatches.claim_token d ≠ "" →
  (∀ k' r, D !! k' = Some r → k' ≠ k → A2ADispatches.claim_token d ≠ "" →
     A2ADispatches.claim_token r ≠ A2ADispatches.claim_token d) →
  dispatches_ok D → dispatches_ok (<[k := d]> D).
Proof.
  intros Hst Hfresh [Htok Huniq]. split.
  - intros k' d' [[<- <-]|[_ Hd']]%lookup_insert_Some; [done|by apply (Htok k')].
  - intros k1 k2 d1 d2 [[<- <-]|[Hn1 H1]]%lookup_insert_Some [[<- <-]|[Hn2 H2]]%lookup_insert_Some Hne Heq.
    + done.
    + by destruct (Hfresh k2 d2 H2 (not_eq_sym Hn2) Hne).
    + rewrite Heq in Hne. by destruct (Hfresh k1 d1 H1 (not_eq_sym Hn1) Hne).
    + by eapply Huniq.
Qed.

(** ** Every operation is a step *)

Section steps.
Context {PL : Platform}.

Lemma gateway_bind_principal current p n allowed :
  steps gateway_step (bind_a2a_principal current p n allowed).
Proof.
  unfold bind_a2a_principal. do 5 steps_step. intros s. do 2 wp_step. wp_step.
  - do 2 wp_step; [done|]. bool_prop. cbv zeta. wp_step. apply wp_modify. wp_step.
    apply gateway_step_principal. intros old Hold.
    match goal with H : _ !! _ = Some ?a |- _ => assert (old = a) as -> by congruence end. done.
  - cbv zeta. wp_step. apply wp_modify. wp_step. apply gateway_step_principal. intros old Hold. congruence.
Qed.

Lemma put_dispatch_run k row s :
  wp (put_dispatch k row) (λ res s', match res with
    | Ok _ => s' = set_a2a_gateway_dispatches (<[k := row]> (a2a_gateway_dispatches s)) s ∧
        (∀ k' r, a2a_gateway_dispatches s !! k' = Some r → k' ≠ k → A2ADispatches.claim_token row ≠ "" →
           A2ADispatches.claim_token r ≠ A2ADispatches.claim_token row)
    | Err _ => s' = s
    end) s.
Proof.
  unfold put_dispatch. do 4 wp_step; [done|]. bool_prop. apply wp_modify. split; [done|].
  rewrite count_where_zero in *. intros k' r Hr Hne Htok Heq.
  match goal with H : ∀ k v, _ → ¬ _ |- _ => apply (H k' r Hr) end. by rewrite Heq.
Qed.
Lemma leased_dispatch_advance current until owner token d :
  A2ADispatches.state d ≠ A2ADispatches.Dispatched →
  dispatch_advance d (leased_dispatch current until owner token d).
Proof. intros Hst. unfold dispatch_advance. simpl. split_and!; try done. lia. Qed.
Lemma gateway_put_dispatch k d row s :
  a2a_gateway_dispatches s !! k = Some d → dispatch_advance d row →
  A2ADispatches.state row = A2ADispatches.Leased → A2ADispatches.claim_token row ≠ "" →
  wp (put_dispatch k row) (λ res s', gateway_step s s' ∧ match res with
    | Ok _ => s' = set_a2a_gateway_dispatches (<[k := row]> (a2a_gateway_dispatches s)) s
    | Err _ => s' = s
    end) s.
Proof.
  intros Hd Hadv Hst Htok. eapply wp_mono; [apply put_dispatch_run|].
  intros [[]|e] s'; [|intros ->; by split]. intros [-> Hfresh]. split; [|done].
  apply gateway_step_dispatches.
  - apply (table_progress_insert dispatch_advance). intros old Hold. by assert (old = d) as -> by congruence.
  - intros Hs. apply dispatches_ok_put; [by rewrite Hst|done|apply Hs].
Qed.
Lemma gateway_claim_loop current until owner tokens rows :
  (∀ n, tokens n ≠ "") → ∀ n s, NoDup rows.*1 →
  (∀ k d, (k, d) ∈ rows → a2a_gateway_dispatches s !! k = Some d ∧
     A2ADispatches.state d ≠ A2ADispatches.Dispatched) →
  wp (claim_dispatches current until owner tokens n rows) (λ _ s', gateway_step s s') s.
Proof.
  intros Htok. induction rows as [|[k d] rows IH]; intros n s Hnd Hrows; simpl; [by wp_step|].
  csimpl in Hnd. apply NoDup_cons in Hnd as [Hk Hnd].
  destruct (Hrows k d) as [Hd Hst]; [by left|]. wp_step.
  eapply wp_mono; [eapply gateway_put_dispatch; [done|by apply leased_dispatch_advance|done|apply Htok]|].
  intros [[]|e] s1 [Hstep Hs1]; [|done]. do 2 wp_step; [|done]. wp_step.
  eapply wp_mono; [apply IH; [done|]|].
  - intros k' d' Hin. destruct (Hrows k' d') as [Hd' ?]; [by right|]. split; [|done]. subst s1. simpl.
    rewrite lookup_insert_ne; [done|]. intros ->. apply Hk. apply list_elem_of_fmap. by exists (k', d').
  - intros [items|e] s2 Hs2; [wp_step|]; by etrans.
Qed.
Lemma due_dispatches_spec s current limit :
  NoDup (due_dispatches s current limit).*1 ∧
  ∀ k d, (k, d) ∈ due_dispatches s current limit →
    a2a_gateway_dispatches s !! k = Some d ∧ dispatch_due current d.
Proof.
  unfold due_dispatches. split; [apply NoDup_take_order, NoDup_select_where|].
  intros k d Hin%elem_of_take_elem. apply elem_of_order_by in Hin. by apply elem_of_select_where in Hin.
Qed.
Lemma due_not_dispatched current d :
  dispatch_due current d → A2ADispatches.state d ≠ A2ADispatches.Dispatched.
Proof. intros [[[E|E] _]|[E _]]; by rewrite E. Qed.
Lemma gateway_claim current tokens owner limit lease :
  (∀ n, tokens n ≠ "") → steps gateway_step (claim_a2a_dispatches current tokens owner limit lease).
Proof.
  intros Htok. unfold claim_a2a_dispatches. do 2 steps_step. intros s. do 2 wp_step.
  destruct (due_dispatches_spec s current limit) as [Hnd Hrows].
  apply gateway_claim_loop; [done|done|]. intros k d Hin. destruct (Hrows k d Hin) as [Hd Hdue].
  split; [done|by eapply due_not_dispatched].
Qed.

(** An UPDATE that ends leases *)
Lemma gateway_update_dispatches P `{!∀ k d, Decision (P k d)} f :
  (∀ k d, P k d → A2ADispatches.state d = A2ADispatches.Leased) →
  (∀ d, A2ADispatches.claim_token (f d) = "" ∧ A2ADispatches.state (f d) ≠ A2ADispatches.Leased) →
  (∀ d, A2ADispatches.state d = A2ADispatches.Leased → dispatch_advance d (f d)) →
  steps gateway_step (update_dispatches P f).
Proof.
  intros HP Hend Hadv. unfold update_dispatches. steps_all. apply steps_modify. intros s'.
  apply gateway_step_dispatches.
  - apply (table_progress_update_where dispatch_advance). intros k d Hd. by apply Hadv, (HP k).
  - intros Hs'. apply dispatches_ok_update; [done|apply Hs'].
Qed.
Lemma gateway_prekeys f : steps gateway_step (exec peer_prekeys set_peer_prekeys f).
Proof. apply steps_modify. intros s. by apply gateway_step_same. Qed.
Lemma gateway_retry current token owner claim_token error retry :
  steps gateway_step (retry_a2a_dispatch current token owner claim_token error retry).
Proof.
  unfold retry_a2a_dispatch, required. steps_all; [apply gateway_prekeys|].
  apply gateway_update_dispatches.
  - by intros k d (_ & _ & Hst).
  - by split.
  - intros d Hst. unfold dispatch_advance. simpl. split_and!; try done; by rewrite Hst.
Qed.

(** *** Cancellation *)

Lemma gateway_step_alter k f s :
  (∀ t, gateway_ok s → a2a_gateway_tasks s !! k = Some t →
     task_advance t (f t) ∧ cancel_consistent (f t)) →
  (∀ t, A2ATasks.state (f t) = A2ATasks.state t ∧ A2ATasks.last_sequence (f t) = A2ATasks.last_sequence t ∧
     A2ATasks.message_count (f t) = A2ATasks.message_count t) →
  gateway_step s (set_a2a_gateway_tasks (alter f k (a2a_gateway_tasks s)) s).
Proof.
  intros Hadv Hsame Hs. destruct (a2a_gateway_tasks s !! k) as [t|] eqn:Ht.
  - assert (alter f k (a2a_gateway_tasks s) = <[k := f t]> (a2a_gateway_tasks s)) as ->.
    { apply map_eq. intros k'. destruct (decide (k = k')) as [<-|Hne].
      - by rewrite lookup_alter_eq, lookup_insert_eq, Ht.
      - by rewrite lookup_alter_ne, lookup_insert_ne. }
    destruct (Hsame t) as (Est & Eseq & Ecount). eapply gateway_step_task; try done.
    + intros _. by apply Hadv.
    + rewrite Est. by destruct (ga_task _ Hs k t Ht) as (_ & ? & _).
  - rewrite alter_id by congruence. by apply gateway_step_same.
Qed.
Lemma cancel_dispatched_advance current t :
  cancel_consistent t →
  task_advance t (cancel_dispatched current t) ∧ cancel_consistent (cancel_dispatched current t).
Proof.
  unfold cancel_dispatched. destruct (String.eqb_spec (A2ATasks.cancel_state t) "requested") as [Ereq|];
    [|by split]. intros (Hin & Hconf & Hlate & Hfin).
  assert (¬ finished t) as Hopen.
  { intros Hf%Hfin. rewrite Ereq in Hf. revert Hf. apply (bool_decide_eq_false_1 (_ ∈ _)). reflexivity. }
  split; unfold task_advance, cancel_consistent; simpl; split_and!; try done; try lia.
  - rewrite Ereq. done.
  - apply (bool_decide_eq_true_1 (_ ∈ _)). reflexivity.
Qed.
Lemma gateway_finish_cancellation current key : steps gateway_step (finish_cancellation current key).
Proof.
  unfold finish_cancellation, exec. steps_all. apply steps_modify. intros s'.
  apply gateway_step_alter.
  - intros t Hs Ht. apply cancel_dispatched_advance. by destruct (ga_task _ Hs key t Ht) as (_ & _ & _ & ? & _).
  - intros t. unfold cancel_dispatched. by destruct (String.eqb _ _).
Qed.
Lemma gateway_dispatch_commit current info raw owner token prekey :
  steps gateway_step (dispatch_commit current info raw owner token prekey).
Proof.
  unfold dispatch_commit, required. steps_all.
  - unfold bind_dispatch_prekey. steps_all. apply gateway_prekeys.
  - unfold insert_packet, exec. steps_all. apply steps_modify. intros s'. by apply gateway_step_same.
  - apply gateway_update_dispatches; [by intros ? ? (_ & _ & _ & ?)|by split|].
    intros d Hst. unfold dispatch_advance. simpl. split_and!; try done; by rewrite Hst.
  - apply gateway_finish_cancellation.
Qed.

(** A new intent is pending and has no token. *)
Lemma gateway_insert_dispatch current token key t a dest kind body :
  steps gateway_step (insert_dispatch current token key t a dest kind body).
Proof.
  unfold insert_dispatch, exec. intros s. do 4 wp_step; [done|]. do 2 wp_step. apply wp_modify.
  unfold dispatch_taken in *. bool_prop.
  match goal with H : ¬ (_ ≠ None) |- _ => apply dec_stable in H; rename H into Hnew end.
  apply gateway_step_dispatches.
  - by apply (table_progress_insert_new dispatch_advance).
  - intros Hs. apply dispatches_ok_put; [by split|done|apply Hs].
Qed.
Lemma keeps_insert_dispatch current token key t a dest kind body :
  steps (keeps (λ s, (a2a_gateway_principals s, a2a_gateway_tasks s, a2a_gateway_messages s,
                      a2a_gateway_events s)))
    (insert_dispatch current token key t a dest kind body).
Proof. unfold insert_dispatch, exec. steps_all. by apply steps_modify. Qed.
Lemma gateway_cancel_intents current tokens key dest targets n s :
  wp (cancel_intents current tokens n key dest targets)
    (λ _ s', gateway_step s s' ∧ keeps (λ s, (a2a_gateway_principals s, a2a_gateway_tasks s,
       a2a_gateway_messages s, a2a_gateway_events s)) s s') s.
Proof.
  apply steps_and; revert n; induction targets as [|target targets IH]; intros n; simpl; steps_all;
    try apply IH; unfold cancel_intent; steps_all;
    apply gateway_insert_dispatch || apply keeps_insert_dispatch.
Qed.
Lemma cancelable request sender task tenant d :
  normalize_cancel_task_request request sender (_a2a_task_item task) tenant = Ok d →
  A2ATasks.cancel_state (ti_row task) = "" → ¬ finished (ti_row task).
Proof.
  unfold normalize_cancel_task_request. intros H Hempty Hfin. res_inv.
  assert (existsb (is_text (VStr (A2ATasks.state (ti_row task)))) TERMINAL_TASK_STATES = true) as Hterm.
  { apply existsb_exists. exists (A2ATasks.state (ti_row task)). split; [by apply list_elem_of_In|].
    apply String.eqb_refl. }
  change (dict_get "state" (_a2a_task_item task)) with (VStr (A2ATasks.state (ti_row task))) in *.
  change (dict_get "cancel_state" (_a2a_task_item task)) with (VStr (A2ATasks.cancel_state (ti_row task))) in *.
  rewrite Hterm, Hempty, andb_false_r in *. discriminate.
Qed.
Lemma task_join_Some s p t i :
  task_join s p t = Some i ↔ ∃ r principal, a2a_gateway_tasks s !! (p, t) = Some r ∧
    a2a_gateway_principals s !! p = Some principal ∧
    i = A2ATaskItem p (A2APrincipals.sender_node_id principal) t r.
Proof.
  unfold task_join. destruct (a2a_gateway_tasks s !! (p, t)) as [r|]; simpl; [|naive_solver].
  destruct (a2a_gateway_principals s !! p) as [q|]; simpl; naive_solver.
Qed.
Lemma cancel_to_requested current t :
  cancel_consistent t → A2ATasks.cancel_state t = "" → ¬ finished t →
  task_advance t (cancel_to "requested" current current t) ∧
  cancel_consistent (cancel_to "requested" current current t).
Proof.
  intros _ Hempty Hopen. split; unfold task_advance, cancel_consistent; simpl; split_and!; try done; try lia.
  - by rewrite Hempty.
  - apply (bool_decide_eq_true_1 (_ ∈ _)). reflexivity.
Qed.
Lemma gateway_cancel_commit current tokens p sender request :
  steps gateway_step (cancel_commit current tokens p sender request).
Proof.
  unfold cancel_commit. do 2 steps_step. intros s. cbv zeta. do 4 wp_step; [|done].
  match goal with H : of_option _ _ = Ok ?t |- _ => rename H into Htask; rename t into task end.
  apply of_option_ok, task_join_Some in Htask as (r & principal & Hr & _ & ->).
  do 2 wp_step; [|done]. do 2 wp_step; [done|]. wp_step; [by do 3 wp_step|]. bool_prop.
  do 4 wp_step; [done|]. wp_step. eapply wp_mono; [apply gateway_cancel_intents|].
  intros [[]|e] s1 [Hstep Hkeep]; [|done]. wp_step. apply wp_modify. do 2 wp_step. do 3 wp_step.
  etrans; [exact Hstep|]. apply gateway_step_alter; [|done].
  intros t Hs1 Ht. injection Hkeep as _ E _ _. rewrite E, Hr in Ht. injection Ht as <-.
  apply cancel_to_requested; [|done|match goal with
    H : normalize_cancel_task_request _ _ _ _ = Ok _, E : _ = "" |- _ => exact (cancelable _ _ _ _ _ H E) end].
  rewrite <- E in Hr. by destruct (ga_task _ Hs1 _ _ Hr) as (_ & _ & _ & ? & _).
Qed.

(** *** Appending to a log *)

(** [E] with the rows of [log] after sequence [seq] of the task [key] *)
Fixpoint insert_log (key : string * string) (seq : Z) (log : list A2AEvents.row)
    (E : gmap (string * string * Z) A2AEvents.row) : gmap (string * string * Z) A2AEvents.row :=
  match log with
  | [] => E
  | r :: log' => insert_log key (seq + 1) log' (<[(key, seq + 1) := r]> E)
  end.
Definition known_hash (E : gmap (string * string * Z) A2AEvents.row) (key : string * string)
    (hash : string) : Prop := ∃ n e, E !! (key, n) = Some e ∧ A2AEvents.event_hash e = hash.
Fixpoint log_fresh (key : string * string) (seq : Z) (log : list A2AEvents.row)
    (E : gmap (string * string * Z) A2AEvents.row) : Prop :=
  match log with
  | [] => True
  | r :: log' => E !! (key, seq + 1) = None ∧ ¬ known_hash E key (A2AEvents.event_hash r) ∧
                 log_fresh key (seq + 1) log' (<[(key, seq + 1) := r]> E)
  end.
Lemma count_known_hash key hash E :
  count_where (event_of_hash key hash) E = 0 ↔ ¬ known_hash E key hash.
Proof.
  rewrite count_where_zero. split.
  - intros Hno (n & e & He & Hh). by apply (Hno (key, n) e He).
  - intros Hno [k n] e He [Hk Hh]. simpl in Hk. subst k. apply Hno. by exists n, e.
Qed.
Lemma count_known key hash E : count_where (event_of_hash key hash) E ≠ 0 → known_hash E key hash.
Proof. intros ([k n] & e & He & Hk & Hh)%count_where_pos. simpl in Hk. subst k. by exists n, e. Qed.
Lemma lookup_insert_log_old key seq log E k n :
  (k = key → n ≤ seq) → insert_log key seq log E !! (k, n) = E !! (k, n).
Proof.
  revert seq E. induction log as [|r log IH]; intros seq E Hk; simpl; [done|].
  rewrite IH by (intros Heq; specialize (Hk Heq); lia). apply lookup_insert_ne.
  intros [= <- <-]. specialize (Hk eq_refl). lia.
Qed.
Lemma lookup_insert_log_new key seq log E i :
  (i < length log)%nat → insert_log key seq log E !! (key, seq + 1 + Z.of_nat i) = log !! i.
Proof.
  revert seq E i. induction log as [|r log IH]; intros seq E i Hi; simpl in *; [lia|].
  destruct i as [|i].
  - replace (seq + 1 + Z.of_nat 0) with (seq + 1) by lia.
    rewrite lookup_insert_log_old by lia. by rewrite lookup_insert_eq.
  - replace (seq + 1 + Z.of_nat (S i)) with (seq + 1 + 1 + Z.of_nat i) by lia. apply IH. lia.
Qed.
Lemma insert_log_progress key seq log E :
  log_fresh key seq log E → table_progress eq E (insert_log key seq log E).
Proof.
  revert seq E. induction log as [|r log IH]; intros seq E; simpl; [reflexivity|].
  intros (Hnew & _ & Hlog). etrans; [by apply (table_progress_insert_new eq)|by apply IH].
Qed.
(** The numbers in use *)
Lemma insert_log_numbers key seq log E :
  0 ≤ seq → (∀ n, is_Some (E !! (key, n)) ↔ 1 ≤ n ≤ seq) →
  ∀ n, is_Some (insert_log key seq log E !! (key, n)) ↔ 1 ≤ n ≤ seq + Z.of_nat (length log).
Proof.
  revert seq E. induction log as [|r log IH]; intros seq E Hseq HE n; simpl.
  { rewrite HE. lia. }
  rewrite IH; [lia|lia|]. intros m. rewrite lookup_insert_is_Some, HE. split.
  - intros [[= Heq]|[Hne Hm]]; lia.
  - intros Hm. destruct (decide (m = seq + 1)) as [->|Hne]; [by left|].
    right. split; [intros [= Heq]; lia|lia].
Qed.
Definition hashes_ok (E : gmap (string * string * Z) A2AEvents.row) : Prop :=
  ∀ k n n' e e', E !! (k, n) = Some e → E !! (k, n') = Some e' →
    A2AEvents.event_hash e = A2AEvents.event_hash e' → n = n'.
Lemma insert_log_hashes key seq log E :
  log_fresh key seq log E → hashes_ok E → hashes_ok (insert_log key seq log E).
Proof.
  revert seq E. induction log as [|r log IH]; intros seq E; simpl; [done|].
  intros (Hnew & Hhash & Hlog) HE. apply IH; [done|].
  intros k n n' e e' [[E1 H1]|[N1 H1]]%lookup_insert_Some [[E2 H2]|[N2 H2]]%lookup_insert_Some Heq.
  - congruence.
  - destruct Hhash. injection E1 as E1 _. exists n', e'. split; congruence.
  - destruct Hhash. injection E2 as E2 _. exists n, e. split; congruence.
  - by apply (HE k n n' e e').
Qed.

(** What appending validated events does *)
Definition event_states_ok (e : normalized_event) : Prop :=
  ∀ st, event_state (ne_event e) = Some st → st ∈ TASK_STATES.
Lemma terminal_no_move a b : a ∈ TERMINAL_TASK_STATES → ¬ moves a b.
Proof.
  unfold moves. intros Ha. assert (_A2A_STATE_TRANSITIONS a = Some []) as ->; [|by intros ?%elem_of_nil].
  unfold TERMINAL_TASK_STATES in Ha.
  do 4 (apply elem_of_cons in Ha as [->|Ha]; [reflexivity|]). by apply elem_of_nil in Ha.
Qed.
Lemma next_state_ok state event next :
  next_state state event = Ok next →
  rtc moves state next ∧ (state ∉ TERMINAL_TASK_STATES) ∧
  (next = state ∨ event_state event = Some next).
Proof.
  unfold next_state. destruct (event_state event) as [n|]; intros H; res_inv; bool_prop.
  - subst next. assert (moves state n) as Hmove.
    { unfold moves. match goal with H : _ = Some ?l |- _ => by rewrite H end. }
    split_and!; [by apply rtc_once| |by right]. intros Hterm. by eapply terminal_no_move.
  - subst next. by split_and!; [|done|left].
Qed.
Lemma insert_event_run key seq row s :
  wp (insert_event key seq row) (λ res s', match res with
    | Ok _ => s' = set_a2a_gateway_events (<[(key, seq) := row]> (a2a_gateway_events s)) s ∧
        a2a_gateway_events s !! (key, seq) = None ∧
        ¬ known_hash (a2a_gateway_events s) key (A2AEvents.event_hash row)
    | Err _ => s' = s
    end) s.
Proof.
  unfold insert_event. do 4 wp_step; [done|]. bool_prop. apply wp_modify.
  rewrite count_known_hash in *.
  match goal with H : ¬ (_ ≠ None) |- _ => by apply dec_stable in H end.
Qed.
Lemma append_events_run current key source latest events state seq a d s :
  Forall event_states_ok events →
  wp (append_events current key source latest events (state, seq, a, d)) (λ res s', match res with
    | Ok (state', seq', a', d') => ∃ log,
        s' = set_a2a_gateway_events (insert_log key seq log (a2a_gateway_events s)) s ∧
        log_fresh key seq log (a2a_gateway_events s) ∧
        seq' = seq + Z.of_nat (length log) ∧ a' = a + Z.of_nat (length log) ∧
        d' = d + (Z.of_nat (length events) - Z.of_nat (length log)) ∧
        rtc moves state state' ∧ (state ∈ TASK_STATES → state' ∈ TASK_STATES) ∧
        (log ≠ [] → latest = source ∧ state ∉ TERMINAL_TASK_STATES) ∧ (log = [] → state' = state) ∧
        Forall (λ r, A2AEvents.source_anet_task_id r = source ∧ A2AEvents.created_ms r = current) log ∧
        Forall (λ e, known_hash (a2a_gateway_events s') key (ne_hash e)) events
    | Err _ => True
    end) s.
Proof.
  intros Hevents. revert state seq a d s.
  induction Hevents as [|e events He Hevents IH]; intros state seq a d s; cbn [append_events].
  { wp_step. exists []. simpl. split_and!; try done; try lia. by destruct s. }
  do 2 wp_step. wp_step; bool_prop.
  - eapply wp_mono; [apply IH|]. intros [[[[state' seq'] a'] d']|err] s'; [|done].
    intros (log & -> & Hfresh & -> & -> & -> & Hst & Hin & Hlatest & Hsame & Hrows & Hknown).
    exists log. split_and!; try done; [rewrite length_cons; lia|]. constructor; [|done].
    assert (known_hash (a2a_gateway_events s) key (ne_hash e)) as (n & r & Hr & Hh).
    { by apply count_known. }
    simpl. exists n, r. split; [|done].
    destruct (insert_log_progress _ _ _ _ Hfresh _ _ Hr) as (r' & Hr' & <-). done.
  - do 2 wp_step; [done|]. bool_prop. do 2 wp_step; [|done]. rename a0 into state1.
    match goal with H : next_state _ _ = Ok _ |- _ =>
      destruct (next_state_ok _ _ _ H) as (Hmove & Hopen & Hwhere) end.
    wp_step. eapply wp_mono; [apply insert_event_run|]. intros [[]|err] s1; [|done].
    intros (-> & Hnew & Hhash). simpl in Hhash.
    eapply wp_mono; [apply IH|]. intros [[[[state' seq'] a'] d']|err] s'; [|done].
    intros (log & -> & Hfresh & -> & -> & -> & Hst & Hin & Hlatest & Hsame & Hrows & Hknown).
    eexists (_ :: log). split; [reflexivity|]. split; [by split|].
    split_and!; try (simpl; lia); try done; [by etrans| |by constructor|].
    + intros Hstate. apply Hin. destruct Hwhere as [->|Hev]; [done|by apply He].
    + constructor; [|done]. simpl.
      destruct (insert_log_progress _ _ _ _ Hfresh (key, seq + 1)
        (A2AEvents.Row source (ne_hash e) (ne_encoded e) current)) as (r' & Hr' & <-);
        [simpl; by rewrite lookup_insert_eq|]. by exists (seq + 1), (A2AEvents.Row source (ne_hash e) (ne_encoded e) current).
Qed.
Lemma normalize_events_ok source task context total events l :
  normalize_events source task context total events = Ok l →
  Forall event_states_ok l ∧ length l = length events.
Proof.
  revert total l. induction events as [|v events IH]; intros total l H; cbn [normalize_events] in H; res_inv.
  { subst l. by split. }
  subst l. match goal with H : normalize_events _ _ _ _ _ = Ok ?r |- _ => apply IH in H as [? ?] end.
  split; [|simpl; congruence]. constructor; [|done]. unfold event_states_ok. simpl.
  match goal with H : validate_a2a_stream_event _ _ _ = Ok _ |- _ =>
    destruct (validate_event_shape _ _ _ _ H) as (w & u & _ & [(_ & st & Hev & Hst)|(_ & Hev)]) end;
    intros st' Hst'; congruence.
Qed.

(** An appended log, with the task row that records it *)
Lemma gateway_step_log key t state log s current :
  a2a_gateway_tasks s !! key = Some t → log_fresh key (A2ATasks.last_sequence t) log (a2a_gateway_events s) →
  rtc moves (A2ATasks.state t) state → (gateway_ok s → state ∈ TASK_STATES) → ¬ finished t →
  gateway_step s
    (set_a2a_gateway_tasks
       (<[key := with_events current state (A2ATasks.last_sequence t + Z.of_nat (length log)) t]>
         (a2a_gateway_tasks s))
       (set_a2a_gateway_events (insert_log key (A2ATasks.last_sequence t) log (a2a_gateway_events s)) s)).
Proof.
  intros Ht Hfresh Hmoves Hstate Hopen Hs. pose proof Hs as [H1 H2 H3 H4 H5].
  destruct (H1 key t Ht) as (Hp & Hst & Hseq & Hcancel & Hcount).
  split; [|split; simpl; try reflexivity].
  - split; simpl; try done.
    + intros k t' [[<- <-]|[_ Hk]]%lookup_insert_Some; [|by apply H1]. simpl.
      split_and!; [done|by apply Hstate|lia| |done].
      destruct Hcancel as (Hin & Hconf & Hlate & _). unfold cancel_consistent, finished, with_events, cancel_outcome. simpl.
      destruct (String.eqb_spec (A2ATasks.cancel_state t) "") as [E|Hne].
      { split_and!; try done; intros; apply (bool_decide_eq_true_1 (_ ∈ _)); reflexivity. }
      destruct (String.eqb_spec state "canceled") as [->|Hnc].
      { split_and!; try done; intros; apply (bool_decide_eq_true_1 (_ ∈ _)); reflexivity. }
      case_bool_decide.
      { split_and!; try done; intros; apply (bool_decide_eq_true_1 (_ ∈ _)); reflexivity. }
      split_and!; try done.
      * intros Ec%Hconf. destruct Hopen. unfold finished. rewrite Ec.
        apply (bool_decide_eq_true_1 (_ ∈ _)); reflexivity.
      * by intros Ec%Hlate.
    + intros k n. destruct (decide (key = k)) as [<-|Hne].
      * rewrite (insert_log_numbers key (A2ATasks.last_sequence t)); [|done|].
        { rewrite lookup_insert_eq. split; [intros ?; eexists; split; [done|simpl; lia]|].
          intros (t' & [= <-] & ?). simpl in *. lia. }
        intros m. rewrite H2. split; [intros (t' & Ht' & ?); by assert (t' = t) as <- by congruence|].
        intros ?. by exists t.
      * rewrite lookup_insert_log_old by congruence. rewrite H2. by rewrite lookup_insert_ne.
    + by apply insert_log_hashes.
    + intros k m Hm. destruct (H4 k m Hm) as (? & ?). split; [|done].
      apply lookup_insert_is_Some. destruct (decide (key = (k.1, A2AMessages.a2a_task_id m))); auto.
  - apply (table_progress_insert task_advance). intros old Hold.
    assert (old = t) as -> by congruence. unfold task_advance. simpl. split_and!; try done; try lia.
    unfold cancel_outcome. destruct (String.eqb_spec (A2ATasks.cancel_state t) "") as [->|]; [done|].
    assert (cancel_rank (A2ATasks.cancel_state t) ≤ 3) by (unfold cancel_rank; repeat case_match; lia).
    destruct (String.eqb state "canceled"); [done|]. by case_bool_decide.
  - by apply insert_log_progress.
Qed.

(** What an append that returns has done: [log] is appended behind the last sequence of
    the task [row], and the row records it. *)
Definition appended (current : Z) (key : string * string) (row : A2ATasks.row)
    (log : list A2AEvents.row) (x : appended_events) (s : db) : db :=
  match log with
  | [] => s
  | _ => set_a2a_gateway_tasks (<[key := with_events current (ae_state x) (ae_last_sequence x) row]>
           (a2a_gateway_tasks s))
         (set_a2a_gateway_events (insert_log key (A2ATasks.last_sequence row) log (a2a_gateway_events s)) s)
  end.
(** The events of [source] that the task [row] of [key] has got, in the order given *)
Record append_result (current : Z) (key : string * string) (source : string) (row : A2ATasks.row)
    (normalized : list normalized_event) (log : list A2AEvents.row) (x : appended_events) (s : db)
    : Prop := {
  ar_fresh : log_fresh key (A2ATasks.last_sequence row) log (a2a_gateway_events s);
  ar_count : ae_appended x = Z.of_nat (length log);
  ar_total : ae_appended x + ae_duplicates x = Z.of_nat (length normalized);
  ar_sequence : ae_last_sequence x = A2ATasks.last_sequence row + ae_appended x;
  ar_state : rtc moves (A2ATasks.state row) (ae_state x);
  ar_states : A2ATasks.state row ∈ TASK_STATES → ae_state x ∈ TASK_STATES;
  ar_open : log ≠ [] → A2ATasks.latest_anet_task_id row = source ∧ ¬ finished row;
  ar_rows : Forall (λ r, A2AEvents.source_anet_task_id r = source ∧ A2AEvents.created_ms r = current) log;
  ar_known : Forall (λ e, known_hash
    (insert_log key (A2ATasks.last_sequence row) log (a2a_gateway_events s)) key (ne_hash e)) normalized;
  ar_same : log = [] → ae_state x = A2ATasks.state row;
}.
Definition source_bound (p t source : string) (s : db) : Prop :=
  count_where (λ k m, message_of_anet p source k m ∧ A2AMessages.a2a_task_id m = t)
    (a2a_gateway_messages s) ≠ 0.
Lemma append_commit_run current p sender t source events s :
  wp (append_commit current p sender t source events) (λ res s', match res with
    | Err _ => s' = s
    | Ok x => ∃ row normalized log, task_join s p t = Some (A2ATaskItem p sender t row) ∧
        source_bound p t source s ∧
        normalize_events source t (A2ATasks.context_id row) 0 events = Ok normalized ∧
        append_result current (p, t) source row normalized log x s ∧
        s' = appended current (p, t) row log x s
    end) s.
Proof.
  unfold append_commit. cbv zeta. apply wp_transaction. do 4 wp_step; [|done].
  match goal with H : of_option _ _ = Ok ?t |- _ => rename H into Htask; rename t into task end.
  apply of_option_ok in Htask. pose proof Htask as (row & principal & Hr & Hp & ->)%task_join_Some.
  do 2 wp_step; [done|]. bool_prop. do 4 wp_step; [done|]. bool_prop. do 2 wp_step; [|done].
  match goal with H : normalize_events _ _ _ _ _ = Ok ?l |- _ => rename H into Hnorm; rename l into normalized end.
  destruct (normalize_events_ok _ _ _ _ _ _ Hnorm) as [Hstates Hlength].
  simpl in *. subst sender. wp_step. eapply wp_mono; [by apply append_events_run|].
  intros [[[[state seq] a] d]|err] s1; [|done].
  intros (log & -> & Hfresh & -> & -> & -> & Hmoves & Hin & Hopen & Hsame & Hrows & Hknown).
  do 2 wp_step.
  - apply wp_modify. wp_step. exists row, normalized, log. bool_prop.
    destruct log as [|r log]; [simpl in *; lia|]. split_and!; try done.
    + split; simpl in *; try done; lia.
    + unfold appended. simpl. f_equal. apply map_eq. intros k. destruct (decide ((p, t) = k)) as [<-|Hne].
      * by rewrite lookup_alter_eq, lookup_insert_eq, Hr.
      * by rewrite lookup_alter_ne, lookup_insert_ne.
  - wp_step. wp_step. exists row, normalized, log. bool_prop.
    destruct log as [|r log]; [|simpl in *; lia]. split_and!; try done; [|by destruct s].
    split; simpl in *; try done; try lia.
Qed.
Lemma gateway_append_commit current p sender t source events :
  steps gateway_step (append_commit current p sender t source events).
Proof.
  intros s. eapply wp_mono; [apply append_commit_run|]. intros [x|e] s'; [|by intros ->].
  intros (row & normalized & log & Htask & _ & _ & Hres & ->). unfold appended.
  apply task_join_Some in Htask as (r & principal & Hr & _ & [= _ ->]).
  destruct log as [|e l]; [done|]. destruct (ar_open _ _ _ _ _ _ _ _ Hres) as [_ Hopen]; [done|].
  rewrite (ar_sequence _ _ _ _ _ _ _ _ Hres), (ar_count _ _ _ _ _ _ _ _ Hres).
  apply gateway_step_log; try done; [by apply Hres|by apply Hres|].
  intros Hs. apply (ar_states _ _ _ _ _ _ _ _ Hres). by destruct (ga_task _ Hs _ _ Hr) as (_ & ? & _).
Qed.

(** *** Registering a message *)

(** The new message [m], its dispatch [d], and the task row that counts it *)
Definition with_new_message (current : Z) (r : registering) (t : A2ATasks.row) (m : A2AMessages.row)
    (d : A2ADispatches.row) (s : db) : db :=
  set_a2a_gateway_tasks (<[rg_task r := with_message current (rg_anet_task_id r) t]> (a2a_gateway_tasks s))
    (set_a2a_gateway_dispatches (<[rg_key r := d]> (a2a_gateway_dispatches s))
      (set_a2a_gateway_messages (<[rg_key r := m]> (a2a_gateway_messages s)) s)).
(** The task a registration goes to: a fresh one, or one that takes follow-ups *)
Definition open_for (current : Z) (r : registering) (t : A2ATasks.row) (s : db) : Prop :=
  match a2a_gateway_tasks s !! rg_task r with
  | None => t = new_task_row current r ∧ rg_a2a_task_id r = rg_anet_task_id r
  | Some old => t = old ∧ ¬ finished t ∧ A2ATasks.cancel_state t = "" ∧
      A2ATasks.context_id t = rg_context_id r ∧
      A2ATasks.destination_peer_id t = rg_destination_peer_id r ∧ A2ATasks.skill_id t = rg_skill_id r ∧
      A2ATasks.tenant t = rg_tenant r ∧ A2ATasks.protocol_version t = rg_protocol_version r
  end.
Lemma count_new_message key k m M :
  M !! k = None →
  count_where (message_of_task key) (<[k := m]> M) =
    count_where (message_of_task key) M + if decide (message_of_task key k m) then 1 else 0.
Proof. intros Hnew. pose proof (count_where_insert (message_of_task key) k m M) as H. rewrite Hnew in H. lia. Qed.
Lemma gateway_step_message current r t m d s :
  is_Some (a2a_gateway_principals s !! rg_principal_id r) → open_for current r t s →
  a2a_gateway_messages s !! rg_key r = None → a2a_gateway_dispatches s !! rg_key r = None →
  A2AMessages.a2a_task_id m = rg_a2a_task_id r → A2AMessages.anet_task_id m = rg_anet_task_id r →
  A2ADispatches.a2a_task_id d = rg_a2a_task_id r → A2ADispatches.anet_task_id d = rg_anet_task_id r →
  A2ADispatches.kind d = "agent.task.request" → A2ADispatches.state d = A2ADispatches.Pending →
  A2ADispatches.claim_token d = "" →
  gateway_step s (with_new_message current r t m d s).
Proof.
  intros Hp Hopen Hm Hd Em1 Em2 Ed1 Ed2 Ekind Est Etok Hs. pose proof Hs as [H1 H2 H3 H4 H5].
  assert (message_of_task (rg_task r) (rg_key r) m) as Hof by (by split).
  assert (∀ k, k ≠ rg_task r → ¬ message_of_task k (rg_key r) m) as Hother.
  { intros [p a] Hne [Hp' Ha']. simpl in *. apply Hne. unfold rg_task. congruence. }
  assert (A2ATasks.state t ∈ TASK_STATES ∧ 0 ≤ A2ATasks.last_sequence t ∧ cancel_consistent t ∧
    A2ATasks.message_count t = count_where (message_of_task (rg_task r)) (a2a_gateway_messages s) ∧
    (∀ n, is_Some (a2a_gateway_events s !! (rg_task r, n)) ↔ 1 ≤ n ≤ A2ATasks.last_sequence t))
    as (Hst & Hseq & Hcancel & Hcount & Hlog).
  { unfold open_for in Hopen. destruct (a2a_gateway_tasks s !! rg_task r) as [old|] eqn:Hold.
    - destruct Hopen as (-> & _). destruct (H1 _ _ Hold) as (_ & ? & ? & ? & ?). split_and!; try done.
      intros n. rewrite H2. split; [intros (t' & Ht' & ?); by assert (t' = old) as <- by congruence|].
      intros ?. by exists old.
    - destruct Hopen as [-> _]. simpl. split_and!; try done.
      + by left.
      + split_and!; try done; intros; apply (bool_decide_eq_true_1 (_ ∈ _)); reflexivity.
      + symmetry. apply count_where_zero. intros k m' Hm' [Ek Et].
        destruct (H4 k m' Hm') as [[t' Ht'] _]. unfold rg_task in *. simpl in *. congruence.
      + intros n. rewrite H2. split; [intros (t' & Ht' & _); congruence|lia]. }
  unfold with_new_message. split; split; simpl.
  - intros k t' [[<- <-]|[Hne Hk]]%lookup_insert_Some; simpl.
    + split_and!; try done. rewrite count_new_message, decide_True by done. lia.
    + destruct (H1 k t' Hk) as (? & ? & ? & ? & ?). split_and!; try done.
      rewrite count_new_message, decide_False by auto. lia.
  - intros k n. destruct (decide (rg_task r = k)) as [<-|Hne].
    + rewrite lookup_insert_eq, Hlog. split; [intros ?; by eexists|]. by intros (t' & [= <-] & ?).
    + rewrite lookup_insert_ne by done. apply H2.
  - done.
  - intros k m' [[<- <-]|[Hne Hk]]%lookup_insert_Some.
    + split; [|exists d; rewrite lookup_insert_eq; by split_and!; try congruence].
      simpl. rewrite Em1. apply lookup_insert_is_Some. by left.
    + destruct (H4 k m' Hk) as (? & d' & ? & ?). split; [|exists d'; by rewrite lookup_insert_ne].
      apply lookup_insert_is_Some. destruct (decide (rg_task r = (k.1, A2AMessages.a2a_task_id m'))); auto.
  - apply dispatches_ok_put; [by rewrite Est, Etok|by rewrite Etok|done].
  - reflexivity.
  - apply (table_progress_insert task_advance). intros old Hold. unfold open_for in Hopen.
    rewrite Hold in Hopen. destruct Hopen as (-> & Hnf & _). unfold task_advance. simpl.
    split_and!; try done; lia.
  - by apply (table_progress_insert_new eq).
  - reflexivity.
  - by apply (table_progress_insert_new dispatch_advance).
Qed.

Lemma insert_message_run key t a hash body current s :
  wp (insert_message key t a hash body current) (λ res s', match res with
    | Ok _ => a2a_gateway_messages s !! key = None ∧ ∃ m, A2AMessages.a2a_task_id m = t ∧
        A2AMessages.anet_task_id m = a ∧ A2AMessages.request_hash m = hash ∧
        s' = set_a2a_gateway_messages (<[key := m]> (a2a_gateway_messages s)) s
    | Err _ => True
    end) s.
Proof.
  unfold insert_message. do 4 wp_step; [done|]. bool_prop. do 2 wp_step. apply wp_modify.
  match goal with H : ¬ (_ ≠ None) |- _ => apply dec_stable in H end.
  split; [done|]. eexists. split_and!; [| | |reflexivity]; done.
Qed.
Lemma insert_dispatch_run current token key t a dest kind body s :
  wp (insert_dispatch current token key t a dest kind body) (λ res s', match res with
    | Ok _ => a2a_gateway_dispatches s !! key = None ∧
        s' = set_a2a_gateway_dispatches (<[key := pending_dispatch
          (next_rowid A2ADispatches.rowid (a2a_gateway_dispatches s)) current token t a dest kind body]>
          (a2a_gateway_dispatches s)) s
    | Err _ => True
    end) s.
Proof.
  unfold insert_dispatch, dispatch_taken. do 4 wp_step; [done|]. bool_prop. do 2 wp_step. apply wp_modify.
  match goal with H : ¬ (_ ≠ None) |- _ => by apply dec_stable in H end.
Qed.
Lemma open_task_run current r s :
  wp (open_task current r) (λ res s', match res with
    | Ok _ => ∃ t, open_for current r t s ∧
        s' = set_a2a_gateway_tasks (<[rg_task r := t]> (a2a_gateway_tasks s)) s
    | Err _ => True
    end) s.
Proof.
  unfold open_task, open_for. do 2 wp_step. wp_step.
  - do 2 wp_step; [done|]. do 2 wp_step; [done|]. wp_step; [done|]. bool_prop.
    match goal with H : _ !! _ = Some ?t |- _ => rename H into Ht; exists t end.
    split; [by split_and!|]. rewrite insert_id by done. by destruct s.
  - do 2 wp_step; [done|]. bool_prop. apply wp_modify. eexists.
    by split.
Qed.
Lemma new_message_run current token r s :
  wp (new_message current token r) (λ res s', match res with
    | Ok _ => a2a_gateway_messages s !! rg_key r = None ∧ a2a_gateway_dispatches s !! rg_key r = None ∧
        ∃ t m, open_for current r t s ∧ A2AMessages.a2a_task_id m = rg_a2a_task_id r ∧
          A2AMessages.anet_task_id m = rg_anet_task_id r ∧
          A2AMessages.request_hash m = rg_request_hash r ∧
          s' = with_new_message current r t m (pending_dispatch
                 (next_rowid A2ADispatches.rowid (a2a_gateway_dispatches s)) current token
                 (rg_a2a_task_id r) (rg_anet_task_id r) (rg_destination_peer_id r)
                 "agent.task.request" (rg_encoded r)) s
    | Err _ => True
    end) s.
Proof.
  unfold new_message. wp_step. eapply wp_mono; [apply open_task_run|]. intros [[]|] s1; [|done].
  intros (t & Hopen & ->). do 4 wp_step; [done|]. wp_step.
  eapply wp_mono; [apply insert_message_run|]. intros [[]|] s1; [|done].
  intros (Hm & m & Em1 & Em2 & Em3 & ->). wp_step.
  eapply wp_mono; [apply insert_dispatch_run|]. intros [[]|] s1; [|done].
  intros (Hd & ->). apply wp_modify. split_and!; try done. exists t, m. split_and!; try done.
  unfold with_new_message. simpl.
  assert (∀ f, alter f (rg_task r) (<[rg_task r := t]> (a2a_gateway_tasks s)) =
    <[rg_task r := f t]> (a2a_gateway_tasks s)) as ->; [|done].
  intros f. apply map_eq. intros k.
  rewrite lookup_alter. case_decide as Hk; [subst k; by rewrite !lookup_insert_eq|].
  by rewrite !lookup_insert_ne.
Qed.
Lemma repeat_message_run current token r m s :
  a2a_gateway_messages s !! rg_key r = Some m →
  wp (repeat_message current token r m) (λ res s', match res with
    | Ok _ => A2AMessages.a2a_task_id m = rg_a2a_task_id r ∧
        A2AMessages.anet_task_id m = rg_anet_task_id r ∧ A2AMessages.request_hash m = rg_request_hash r ∧
        is_Some (task_join s (rg_principal_id r) (rg_a2a_task_id r)) ∧
        (gateway_ok s → s' = s)
    | Err _ => True
    end) s.
Proof.
  intros Hm. unfold repeat_message, required. do 2 wp_step; [done|]. bool_prop. do 4 wp_step; [|done].
  match goal with H : of_option _ _ = Ok _ |- _ => apply of_option_ok in H end.
  unfold insert_dispatch_or_ignore, dispatch_taken. do 2 wp_step. wp_step.
  - wp_step. by split_and!.
  - eapply wp_mono; [apply insert_dispatch_run|]. intros [[]|] s1; [|done]. intros (Hd & _).
    split_and!; try done. intros Hs.
    destruct (ga_message _ Hs _ _ Hm) as (_ & d & Hd' & _). congruence.
Qed.

(** What a registration that returns has done *)
Lemma register_commit_run current token r s :
  wp (register_commit current token r) (λ res s', match res with
    | Err _ => s' = s
    | Ok duplicate => (∃ p, a2a_gateway_principals s !! rg_principal_id r = Some p ∧
          A2APrincipals.sender_node_id p = rg_sender_id r) ∧
        match a2a_gateway_messages s !! rg_key r with
        | Some m => duplicate = true ∧ A2AMessages.a2a_task_id m = rg_a2a_task_id r ∧
            A2AMessages.anet_task_id m = rg_anet_task_id r ∧ A2AMessages.request_hash m = rg_request_hash r ∧
            (gateway_ok s → s' = s)
        | None => duplicate = false ∧ a2a_gateway_dispatches s !! rg_key r = None ∧
            ∃ t m, open_for current r t s ∧ A2AMessages.a2a_task_id m = rg_a2a_task_id r ∧
              A2AMessages.anet_task_id m = rg_anet_task_id r ∧
              A2AMessages.request_hash m = rg_request_hash r ∧
              s' = with_new_message current r t m (pending_dispatch
                     (next_rowid A2ADispatches.rowid (a2a_gateway_dispatches s)) current token
                     (rg_a2a_task_id r) (rg_anet_task_id r) (rg_destination_peer_id r)
                     "agent.task.request" (rg_encoded r)) s
        end
    end) s.
Proof.
  unfold register_commit. apply wp_transaction. do 4 wp_step; [|done].
  match goal with H : of_option _ _ = Ok ?q |- _ => apply of_option_ok in H; rename H into Hp; rename q into p end.
  do 2 wp_step; [done|]. bool_prop. do 2 wp_step. wp_step.
  - wp_step. eapply wp_mono; [by apply repeat_message_run|]. intros [[]|e] s1; [|done].
    intros (? & ? & ? & _ & ?). wp_step. split; [by exists p|]. done.
  - wp_step. eapply wp_mono; [by apply new_message_run|]. intros [[]|e] s1; [|done].
    intros (_ & ? & ?). wp_step. split; [by exists p|]. done.
Qed.
Lemma gateway_register_commit current token r : steps gateway_step (register_commit current token r).
Proof.
  intros s. eapply wp_mono; [apply register_commit_run|]. intros [duplicate|e] s'; [|by intros ->].
  intros ((p & Hp & _) & H). destruct (a2a_gateway_messages s !! rg_key r) as [m|] eqn:Hm.
  - destruct H as (_ & _ & _ & _ & Hsame). intros Hs. by rewrite (Hsame Hs).
  - destruct H as (_ & Hd & t & m & Hopen & Em1 & Em2 & _ & ->). by apply gateway_step_message.
Qed.
End steps.
