(* ===== verification/Companion.v ===== *)
(** Companion approvals on the wire (src/anet/companion_protocol.py): the
    validators of approval requests and decisions and the binding of a decision to
    its request.  The other kinds of message are in CompanionMessages. *)
From S2P Require Import Prelude PyStr PyVal.

Definition COMPANION_PROTOCOL : string := "anet.companion".
Definition COMPANION_PROTOCOL_VERSION : Z := 1.
Definition APPROVAL_REQUEST_KIND : string := "companion.approval.request".
Definition APPROVAL_DECISION_KIND : string := "companion.approval.decision".
Definition APPROVAL_DECISIONS : list string := ["approved"; "rejected"].
Definition _MAX_TEXT_CHARS : Z := 4096.
Definition _MAX_BODY_TTL_MS : Z := 7 * 24 * 60 * 60 * 1000.
Definition _MAX_APPROVAL_REQUEST_TTL_MS : Z := 15 * 60 * 1000.
Definition _MAX_APPROVAL_GRANT_TTL_MS : Z := 60 * 60 * 1000.

(** The regular expressions, with [fullmatch]: [_ID_RE] and [_DIGEST_RE] are
    [fullmatch_hex 32] and [fullmatch_hex 64]. *)
Definition base32_char (a : ascii) : bool := is_lower_az a || in_range 50 55 a.
Definition prefixed_id_re (p s : string) : bool :=
  startswith p s &&
  let rest := substring (String.length p) (String.length s - String.length p) s in
  str_forall base32_char rest && (17 <=? String.length rest)%nat.
Definition _NODE_ID_RE : string → bool := prefixed_id_re "an1".
Definition _HUMAN_ID_RE : string → bool := prefixed_id_re "hu1".
Definition _TOKEN_RE : string → bool :=
  fullmatch is_lower_az (λ a, is_lower_az a || is_digit a || one_of "_.-" a) 0 127.
Definition _RESOURCE_RE : string → bool :=
  fullmatch is_alnum (λ a, is_alnum a || one_of ":/_.@-" a) 0 511.

Section companion.
Context {PF : PyFloat}.

(** ** Fields *)

(** [_exact]: exactly the [required] keys.  Joining a key that is not a string
    into the error message raises TypeError. *)
Definition _exact (value : value) (required : list string) (name : string) : res dict :=
  match value with
  | VMap d =>
      let missing := filter (λ k, dict_has k d = false) required in
      let unknown := filter (λ k, existsb (λ r, key_eqb (VStr r) k) required = false) d.*1 in
      raise_if (bool_decide (missing ≠ []))
        (ValueError (name +:+ " is missing fields: " +:+ join ", " (sorted missing)));;
      match mapM (λ k, match k with VStr s => Some s | _ => None end) unknown with
      | Some [] => mret d
      | Some names => Err (ValueError (name +:+ " has unknown fields: " +:+
                                       join ", " (sorted names)))
      | None => Err (TypeError "sequence item: expected str instance")
      end
  | _ => Err (ValueError (name +:+ " must be a map"))
  end.

(** [str(value).strip().lower()] matched against a pattern *)
Definition matched (re : string → bool) (message : string) (value : value) : res string :=
  let normalized := lower (strip (py_str value)) in
  raise_if (negb (re normalized)) (ValueError message);;
  mret normalized.
Definition _identifier (value : value) (name : string) : res string :=
  matched (fullmatch_hex 32) (name +:+ " must be 32 lowercase hexadecimal characters") value.
Definition _digest (value : value) (name : string) : res string :=
  matched (fullmatch_hex 64) (name +:+ " must be 64 lowercase hexadecimal characters") value.
Definition _node_id (value : value) : res string :=
  matched _NODE_ID_RE "invalid device_node_id" value.
Definition _human_id (value : value) : res string :=
  matched _HUMAN_ID_RE "invalid human_id" value.
Definition _token (value : value) (name : string) : res string :=
  matched _TOKEN_RE ("invalid " +:+ name) value.

Definition _text (value : value) (name : string) (required : bool) (limit : Z) : res string :=
  raise_if (match value with VBytes _ => true | _ => false end)
    (ValueError (name +:+ " must be text"));;
  let normalized := strip (py_str value) in
  raise_if (required && String.eqb normalized "") (ValueError (name +:+ " is required"));;
  raise_if (limit <? len normalized) (ValueError (name +:+ " is too long"));;
  mret normalized.

Definition _integer (value : value) (name : string) (minimum : Z) : res Z :=
  match value with
  | VInt z => raise_if (z <? minimum) (ValueError ("invalid " +:+ name));; mret z
  | _ => Err (ValueError ("invalid " +:+ name))
  end.
Definition _timestamp (value : value) (name : string) : res Z := _integer value name 1.

Definition _lifetime (created_ms expires_ms : value) (max_ttl_ms : Z) : res (Z * Z) :=
  created ← _timestamp created_ms "created_ms";
  expires ← _timestamp expires_ms "expires_ms";
  raise_if ((expires <=? created) || (max_ttl_ms <? expires - created))
    (ValueError "invalid object lifetime");;
  mret (created, expires).

(** [_base] for a given or fresh object id; the lifetime limit is the default. *)
Definition _base (now : Z) (fresh object_type object_id_name object_id : string)
    (created_ms expires_ms : option Z) (ttl_ms : Z) : res dict :=
  let created := default now created_ms in
  let expires := default (created + ttl_ms) expires_ms in
  _lifetime (VInt created) (VInt expires) _MAX_BODY_TTL_MS;;
  id ← _identifier (VStr (if String.eqb object_id "" then fresh else object_id)) object_id_name;
  mret [field "protocol" (VStr COMPANION_PROTOCOL);
        field "version" (VInt COMPANION_PROTOCOL_VERSION);
        field "object_type" (VStr object_type); field object_id_name (VStr id);
        field "created_ms" (VInt created); field "expires_ms" (VInt expires)].

(** [_validate_base]: the map itself, with its creation time.  [version] is
    compared with [==], so [1], [1.0] and [True] are the same version.  The object
    id is checked in normalised spelling and returned as it was. *)
Definition _validate_base (object_type : string) (body : value) (object_id_name : string)
    (additional_fields : list string) (max_ttl_ms : Z) : res (dict * Z) :=
  match body with
  | VMap d =>
      raise_if (negb (is_text (dict_get "protocol" d) COMPANION_PROTOCOL))
        (ValueError "unsupported Companion protocol");;
      raise_if (negb (key_eqb (VInt COMPANION_PROTOCOL_VERSION) (dict_get "version" d)))
        (ValueError "unsupported Companion protocol version");;
      raise_if (negb (is_text (dict_get "object_type" d) object_type))
        (ValueError "Companion kind/object_type mismatch");;
      value ← _exact body
        (["protocol"; "version"; "object_type"; object_id_name; "created_ms"; "expires_ms"]
         ++ additional_fields) object_type;
      _identifier (dict_get object_id_name value) object_id_name;;
      r ← _lifetime (dict_get "created_ms" value) (dict_get "expires_ms" value) max_ttl_ms;
      mret (value, r.1)
  | _ => Err (ValueError (object_type +:+ " must be a map"))
  end.

(** ** Approvals *)

Definition _approval_action (value : value) : res dict :=
  item ← _exact value ["capability"; "resource"; "parameters_digest"; "summary"]
           "approval action";
  let resource := strip (py_str (dict_get "resource" item)) in
  raise_if (negb (_RESOURCE_RE resource)) (ValueError "invalid approval resource");;
  capability ← _token (dict_get "capability" item) "approval capability";
  digest ← _digest (dict_get "parameters_digest" item) "parameters_digest";
  summary ← _text (dict_get "summary" item) "approval action summary" true 512;
  mret [field "capability" (VStr capability); field "resource" (VStr resource);
        field "parameters_digest" (VStr digest); field "summary" (VStr summary)].

Definition _approval_scope (value : value) (created_ms : Z) : res dict :=
  item ← _exact value ["mode"; "max_uses"; "grant_expires_ms"] "approval scope";
  let mode := lower (strip (py_str (dict_get "mode" item))) in
  raise_if (negb (bool_decide (mode ∈ ["once"; "bounded"])))
    (ValueError "approval scope mode must be once or bounded");;
  max_uses ← _integer (dict_get "max_uses" item) "approval max_uses" 1;
  grant_expires ← _timestamp (dict_get "grant_expires_ms" item) "grant_expires_ms";
  raise_if ((grant_expires <=? created_ms) ||
            (_MAX_APPROVAL_GRANT_TTL_MS <? grant_expires - created_ms))
    (ValueError "invalid approval grant lifetime");;
  raise_if (String.eqb mode "once" && negb (max_uses =? 1))
    (ValueError "once approval must have max_uses=1");;
  raise_if (String.eqb mode "bounded" && (100 <? max_uses))
    (ValueError "bounded approval max_uses exceeds limit");;
  mret [field "mode" (VStr mode); field "max_uses" (VInt max_uses);
        field "grant_expires_ms" (VInt grant_expires)].

(** [{**value, ...}] *)
Definition updated (value entries : dict) : dict :=
  foldl (λ d kv, dict_set d kv.1 kv.2) value entries.

Definition request_fields : list string :=
  ["human_id"; "device_node_id"; "action"; "scope"; "risk"; "nonce"].
Definition _validate_approval_request (body : value) : res dict :=
  r ← _validate_base "approval_request" body "request_id" request_fields
        _MAX_APPROVAL_REQUEST_TTL_MS;
  let value := r.1 in
  human ← _human_id (dict_get "human_id" value);
  device ← _node_id (dict_get "device_node_id" value);
  action ← _approval_action (dict_get "action" value);
  scope ← _approval_scope (dict_get "scope" value) r.2;
  risk ← _text (dict_get "risk" value) "approval risk" true 1024;
  nonce ← _identifier (dict_get "nonce" value) "approval nonce";
  mret (updated value
    [field "human_id" (VStr human); field "device_node_id" (VStr device);
     field "action" (VMap action); field "scope" (VMap scope); field "risk" (VStr risk);
     field "nonce" (VStr nonce)]).

Definition decision_fields : list string :=
  ["request_id"; "human_id"; "device_node_id"; "decision"; "reason"; "nonce"; "action"; "scope"].
Definition _validate_approval_decision (body : value) : res dict :=
  r ← _validate_base "approval_decision" body "decision_id" decision_fields
        _MAX_APPROVAL_REQUEST_TTL_MS;
  let value := r.1 in
  let decision := lower (strip (py_str (dict_get "decision" value))) in
  raise_if (negb (bool_decide (decision ∈ APPROVAL_DECISIONS)))
    (ValueError "invalid approval decision");;
  request_id ← _identifier (dict_get "request_id" value) "request_id";
  human ← _human_id (dict_get "human_id" value);
  device ← _node_id (dict_get "device_node_id" value);
  reason ← _text (dict_get "reason" value) "approval decision reason" false 1024;
  nonce ← _identifier (dict_get "nonce" value) "approval nonce";
  action ← _approval_action (dict_get "action" value);
  scope ← _approval_scope (dict_get "scope" value) r.2;
  mret (updated value
    [field "request_id" (VStr request_id); field "human_id" (VStr human);
     field "device_node_id" (VStr device); field "decision" (VStr decision);
     field "reason" (VStr reason); field "nonce" (VStr nonce); field "action" (VMap action);
     field "scope" (VMap scope)]).

(** [normalized_decision[field] != normalized_request[field]] *)
Definition same_field (k : string) (decision request : dict) : bool :=
  match dict_get k decision, dict_get k request with
  | VMap d, VMap r => dict_eqb d r
  | v, w => key_eqb v w
  end.
Definition bound_fields : list string :=
  ["request_id"; "human_id"; "device_node_id"; "nonce"; "action"; "scope"].
Definition get_int (k : string) (d : dict) : Z := default 0 (as_int (dict_get k d)).

Definition validate_approval_decision_binding (request decision : value) : res dict :=
  normalized_request ← _validate_approval_request request;
  normalized_decision ← _validate_approval_decision decision;
  match filter (λ k, same_field k normalized_decision normalized_request = false) bound_fields with
  | k :: _ => Err (ValueError ("approval decision does not match request " +:+ k))
  | [] => mret tt
  end;;
  raise_if (get_int "created_ms" normalized_decision <? get_int "created_ms" normalized_request)
    (ValueError "approval decision predates its request");;
  raise_if (get_int "expires_ms" normalized_request <=? get_int "created_ms" normalized_decision)
    (ValueError "approval decision was created after request expiry");;
  mret normalized_decision.

(** [approval_request] and [approval_decision]: what a device and a node send *)
Definition approval_request (now : Z) (fresh fresh_nonce : string) (human_id device_node_id : value)
    (action scope risk : value) (request_id nonce : string) (created_ms expires_ms : option Z)
    : res dict :=
  base ← _base now fresh "approval_request" "request_id" request_id created_ms expires_ms
           (5 * 60 * 1000);
  _validate_approval_request (VMap (base ++
    [field "human_id" human_id; field "device_node_id" device_node_id; field "action" action;
     field "scope" scope; field "risk" risk;
     field "nonce" (VStr (if String.eqb nonce "" then fresh_nonce else nonce))])).

Definition approval_decision (now : Z) (fresh : string) (request decision reason : value)
    (decision_id : string) (created_ms expires_ms : option Z) : res dict :=
  normalized_request ← _validate_approval_request request;
  base ← _base now fresh "approval_decision" "decision_id" decision_id created_ms expires_ms
           (5 * 60 * 1000);
  let copy := λ k, field k (dict_get k normalized_request) in
  normalized ← _validate_approval_decision (VMap (base ++
    [copy "request_id"; copy "human_id"; copy "device_node_id"; field "decision" decision;
     field "reason" reason; copy "nonce"; copy "action"; copy "scope"]));
  validate_approval_decision_binding (VMap normalized_request) (VMap normalized);;
  mret normalized.
End companion.

(** ** Normal forms *)

Section companion_lemmas.
Context {PF : PyFloat}.

Lemma exact_inv v required name d :
  _exact v required name = Ok d → v = VMap d ∧ ∀ k, k ∈ required → dict_has k d = true.
Proof.
  unfold _exact. destruct v as [| | | | | | |d0]; try discriminate. intros H. res_inv.
  match goal with H : bool_decide _ = false |- _ => rename H into Hmiss end.
  assert (d0 = d) as ->.
  { destruct (mapM _ _) as [[|]|] in H; res_inv; [done|discriminate..]. }
  split; [done|]. apply bool_decide_eq_false, dec_stable in Hmiss.
  intros k Hk. apply not_false_iff_true. intros Hf.
  assert (k ∈ filter (λ k, dict_has k d = false) required) as Hin by (by apply list_elem_of_filter).
  rewrite Hmiss in Hin. by apply elem_of_nil in Hin.
Qed.
Lemma exact_keys d e required name :
  d.*1 = e.*1 → _exact (VMap d) required name = Ok d → _exact (VMap e) required name = Ok e.
Proof.
  intros Hk. unfold _exact. rewrite <- Hk.
  assert (filter (λ k, dict_has k e = false) required = filter (λ k, dict_has k d = false) required)
    as ->.
  { apply list_filter_iff. intros k. by rewrite (dict_has_keys k d e Hk). }
  intros H. res_inv. cbv [mbind res_bind raise_if].
  match goal with H : bool_decide _ = false |- _ => rewrite H end.
  by destruct (mapM _ _) as [[|]|] in H |- *; res_inv.
Qed.

(** [{**value, ...}] keeps the keys when they are all there. *)
Lemma updated_keys value entries :
  (∀ k v, (k, v) ∈ entries → ∃ s, k = VStr s ∧ dict_has s value = true) →
  (updated value entries).*1 = value.*1.
Proof.
  unfold updated. revert value. induction entries as [|[k v] entries IH]; intros value Hall; [done|].
  simpl. destruct (Hall k v) as (s & -> & Hs); [by left|].
  rewrite IH; [by apply dict_has_set|]. intros k' v' Hin.
  destruct (Hall k' v') as (s' & -> & Hs'); [by right|]. exists s'. split; [done|].
  rewrite <- Hs'. apply dict_has_keys. by apply dict_has_set.
Qed.

Lemma dict_set_same k v d :
  dict_has k d = true → dict_get k d = v → dict_set d (VStr k) v = d.
Proof.
  unfold dict_has, dict_get. induction d as [|[x w] d IH]; [done|].
  cbn [existsb fst dict_get_or dict_set]. destruct (key_eqb (VStr k) x); intros ? ?; [congruence|].
  by rewrite IH.
Qed.
Lemma updated_same value entries :
  (∀ k v, (k, v) ∈ entries →
     ∃ s, k = VStr s ∧ dict_has s value = true ∧ dict_get s value = v) →
  updated value entries = value.
Proof.
  unfold updated. induction entries as [|[k v] entries IH]; intros Hall; [done|]. simpl.
  destruct (Hall k v) as (s & -> & Hs & Hv); [by left|]. rewrite dict_set_same by done.
  apply IH. intros k' v' Hin. apply Hall. by right.
Qed.

Lemma matched_stable re message v s :
  matched re message v = Ok s → matched re message (VStr s) = Ok s.
Proof.
  unfold matched. intros H. res_inv. subst s. cbn [py_str]. rewrite lower_strip_idemp.
  match goal with H : _ = false |- _ => by rewrite H end.
Qed.
Lemma text_stable v name required limit s :
  _text v name required limit = Ok s → _text (VStr s) name required limit = Ok s.
Proof.
  unfold _text. intros H. res_inv. subst s. cbn [py_str]. rewrite strip_idemp.
  cbv [mbind res_bind raise_if]. by repeat match goal with H : _ = false |- _ => rewrite H; clear H end.
Qed.

(** Reads a field of a dictionary literal. *)
Ltac read_fields :=
  repeat match goal with |- context [dict_get ?k (cons ?a ?l)] =>
    let v := eval cbv [dict_get dict_get_or key_eqb as_number field String.eqb Ascii.eqb Bool.eqb]
      in (dict_get k (cons a l)) in
    change (dict_get k (cons a l)) with v end.

Lemma action_stable v d : _approval_action v = Ok d → _approval_action (VMap d) = Ok d.
Proof.
  unfold _approval_action at 1. intros H. res_inv. subst d.
  match goal with H : _token _ _ = Ok _ |- _ => apply matched_stable in H; rename H into Htoken end.
  match goal with H : _digest _ _ = Ok _ |- _ => apply matched_stable in H; rename H into Hdigest end.
  match goal with H : _text _ _ _ _ = Ok _ |- _ => apply text_stable in H; rename H into Htext end.
  match goal with H : _RESOURCE_RE _ = true |- _ => rename H into Hre | H : negb _ = false |- _ => rename H into Hre end.
  unfold _approval_action.
  match goal with |- context [_exact (VMap ?d) ?l ?n] =>
    assert (_exact (VMap d) l n = Ok d) as -> by reflexivity end.
  cbn [mbind res_bind].
  set (resource := strip (py_str (dict_get "resource" _))) in *.
  assert (strip resource = resource) as Hstrip by apply strip_idemp.
  read_fields. cbn [py_str]. unfold _token, _digest. rewrite Hstrip, Hre, Htoken, Hdigest, Htext.
  reflexivity.
Qed.

Lemma scope_stable v created d :
  _approval_scope v created = Ok d → _approval_scope (VMap d) created = Ok d.
Proof.
  unfold _approval_scope at 1. intros H. res_inv. subst d. unfold _approval_scope.
  match goal with |- context [_exact (VMap ?d) ?l ?n] =>
    assert (_exact (VMap d) l n = Ok d) as -> by reflexivity end.
  cbn [mbind res_bind].
  set (mode := lower (strip (py_str (dict_get "mode" _)))) in *.
  assert (lower (strip mode) = mode) as Hmode by apply lower_strip_idemp.
  unfold _timestamp in *. read_fields. cbn [py_str]. rewrite Hmode.
  match goal with H : _integer _ _ 1 = Ok ?n, H' : _integer _ "grant_expires_ms" 1 = Ok ?m |- _ =>
    assert (∀ v name z, _integer v name 1 = Ok z → _integer (VInt z) name 1 = Ok z) as Hint;
    [clear; intros v name z Hz; destruct v; simpl in Hz |- *; try discriminate Hz;
     res_inv; subst; by destruct (z <? 1)
    |apply Hint in H, H'; rewrite H, H'] end.
  cbv [mbind res_bind raise_if].
  repeat match goal with H : _ = false |- _ => rewrite H; clear H end. reflexivity.
Qed.

Lemma timestamp_inv v name z : _timestamp v name = Ok z → v = VInt z ∧ 1 ≤ z.
Proof.
  unfold _timestamp, _integer. destruct v; try discriminate. intros H. res_inv. bool_prop. subst.
  split; [done|lia].
Qed.

(** What validation of a request or decision keeps of the body it was given. *)
Lemma base_inv object_type body id_name extra ttl d created :
  _validate_base object_type body id_name extra ttl = Ok (d, created) →
  body = VMap d ∧ dict_get "created_ms" d = VInt created ∧
  (∀ k, k ∈ id_name :: extra → dict_has k d = true) ∧
  ∃ expires, dict_get "expires_ms" d = VInt expires ∧ created < expires ≤ created + ttl ∧
    1 ≤ created.
Proof.
  unfold _validate_base. destruct body as [| | | | | | |d0]; try discriminate. intros H. res_inv.
  match goal with H : _exact _ _ _ = Ok _ |- _ => apply exact_inv in H as [[= ->] Hhas] end.
  simplify_eq/=. unfold _lifetime in *. res_inv.
  repeat match goal with H : _timestamp _ _ = Ok _ |- _ => apply timestamp_inv in H; destruct H end.
  simplify_eq/=. bool_prop. split_and!; [done|done| |].
  - intros k Hk. apply Hhas. set_solver.
  - eexists. split; [done|]. lia.
Qed.

(** The fields [_validate_base] looks at. *)
Definition base_fields (id_name : string) : list string :=
  ["protocol"; "version"; "object_type"; id_name; "created_ms"; "expires_ms"].
Lemma companion_base_stable object_type body id_name extra ttl d created e :
  _validate_base object_type body id_name extra ttl = Ok (d, created) →
  e.*1 = d.*1 → (∀ k, k ∈ base_fields id_name → dict_get k e = dict_get k d) →
  _validate_base object_type (VMap e) id_name extra ttl = Ok (e, created).
Proof.
  unfold _validate_base at 1. destruct body as [| | | | | | |d0]; try discriminate.
  intros H Hkeys Hsame. res_inv. simplify_eq.
  match goal with H : _exact _ _ _ = Ok _ |- _ =>
    destruct (exact_inv _ _ _ _ H) as [? _]; simplify_eq; apply (exact_keys _ e) in H; [|by symmetry];
    rename H into Hexact end.
  unfold _validate_base. rewrite Hexact.
  unfold base_fields in *. rewrite !Hsame by set_solver.
  repeat match goal with H : _ = false |- _ => rewrite H; clear H end.
  cbn [raise_if mbind res_bind]. rewrite !Hsame by set_solver.
  repeat match goal with H : _ = Ok _ |- _ => rewrite H; clear H; cbn [mbind res_bind] end.
  reflexivity.
Qed.

Lemma human_stable v s : _human_id v = Ok s → _human_id (VStr s) = Ok s.
Proof. apply matched_stable. Qed.
Lemma node_stable v s : _node_id v = Ok s → _node_id (VStr s) = Ok s.
Proof. apply matched_stable. Qed.
Lemma identifier_stable v n s : _identifier v n = Ok s → _identifier (VStr s) n = Ok s.
Proof. apply matched_stable. Qed.

(** Reads a field of [{**value, ...}] at concrete keys. *)
Ltac read_updated :=
  unfold updated, dict_get; cbn [foldl field fst snd]; rewrite !dict_get_set;
  cbn [String.eqb Ascii.eqb Bool.eqb].
(** The normal form [d] of a validated body: its keys, what the base check reads of
    it, and that its checked fields validate to themselves. *)
Ltac normal_form d items created :=
  lazymatch goal with H : _validate_base _ _ _ _ _ = Ok ?r |- _ =>
    destruct r as [items created]; cbn [fst snd] in *;
    pose proof (base_inv _ _ _ _ _ _ _ H) as (-> & _ & Hhas & _);
    assert (d.*1 = items.*1) as Hkeys;
    [subst d; apply updated_keys; intros k v Hin;
     repeat (apply elem_of_cons in Hin as [[= -> ->]|Hin];
             [eexists; split; [reflexivity|apply Hhas; repeat (first [by left|right])]|]);
     by apply elem_of_nil in Hin|];
    apply (companion_base_stable _ _ _ _ _ _ _ d) in H; [|exact Hkeys|];
    [|intros k Hk; unfold base_fields in Hk; subst d;
      repeat (apply elem_of_cons in Hk as [->|Hk]; [read_updated; reflexivity|]);
      by apply elem_of_nil in Hk]
  end.
(** Validates a field of the normal form [d] again: it holds the normal form of the
    field, which validates to itself by [stable]. *)
Ltac renormalise d k H stable :=
  apply stable in H;
  lazymatch type of H with context [VStr ?s] =>
    replace (dict_get k d) with (VStr s) by (subst d; read_updated; reflexivity)
  | context [VMap ?m] =>
    replace (dict_get k d) with (VMap m) by (subst d; read_updated; reflexivity) end;
  rewrite H; cbn [mbind res_bind].
Ltac refield := 
  repeat match goal with
  | H : _human_id (dict_get ?k _) = Ok _ |- context [_human_id (dict_get ?k ?d)] =>
      renormalise d k H human_stable
  | H : _node_id (dict_get ?k _) = Ok _ |- context [_node_id (dict_get ?k ?d)] =>
      renormalise d k H node_stable
  | H : _approval_action (dict_get ?k _) = Ok _ |- context [_approval_action (dict_get ?k ?d)] =>
      renormalise d k H action_stable
  | H : _approval_scope (dict_get ?k _) _ = Ok _ |- context [_approval_scope (dict_get ?k ?d) _] =>
      renormalise d k H scope_stable
  | H : _text (dict_get ?k _) _ _ _ = Ok _ |- context [_text (dict_get ?k ?d)] =>
      renormalise d k H text_stable
  | H : _identifier (dict_get ?k _) _ = Ok _ |- context [_identifier (dict_get ?k ?d) _] =>
      renormalise d k H identifier_stable
  end.

(** Writing the checked fields again writes what is there. *)
Ltac rewritten d :=
  f_equal; rewrite updated_same; [reflexivity|]; subst d; intros k v Hin;
  lazymatch goal with Hkeys : _.*1 = ?i.*1, Hhas : ∀ k, _ → dict_has k ?i = true |- _ =>
  repeat (apply elem_of_cons in Hin as [[= -> ->]|Hin];
    [eexists; split; [reflexivity|split; [|read_updated; reflexivity]];
     rewrite (dict_has_keys _ _ _ Hkeys); apply Hhas; repeat (first [by left|right])|])
  end; by apply elem_of_nil in Hin.

(** Validation puts a request or a decision in a normal form. *)
Lemma request_normal body d :
  _validate_approval_request body = Ok d → _validate_approval_request (VMap d) = Ok d.
Proof.
  unfold _validate_approval_request at 1. intros H. res_inv. rename H into Hd.
  symmetry in Hd. normal_form d items created. unfold _validate_approval_request.
  rewrite E; clear E. cbn [mbind res_bind fst snd]. refield. rewritten d.
Qed.
Lemma decision_normal body d :
  _validate_approval_decision body = Ok d → _validate_approval_decision (VMap d) = Ok d.
Proof.
  unfold _validate_approval_decision at 1. intros H. res_inv. rename H into Hd.
  symmetry in Hd. normal_form d items created. unfold _validate_approval_decision.
  rewrite E; clear E. cbn [mbind res_bind fst snd].
  set (verdict := lower (strip (py_str (dict_get "decision" items)))) in *.
  replace (dict_get "decision" d) with (VStr verdict) by (subst d; read_updated; reflexivity).
  assert (lower (strip verdict) = verdict) as Hverdict by apply lower_strip_idemp.
  cbn [py_str]. rewrite Hverdict, E0. cbn [raise_if mbind res_bind].
  refield. rewritten d.
Qed.

(** ** What a bound decision says *)


Lemma matched_inv re message v s :
  matched re message v = Ok s → lower (strip s) = s ∧ re s = true.
Proof.
  unfold matched. intros H. res_inv. bool_prop. subst s. split; [apply lower_strip_idemp|].
  done.
Qed.
Lemma integer_inv v name lo z : _integer v name lo = Ok z → v = VInt z ∧ lo ≤ z.
Proof.
  unfold _integer. destruct v; try discriminate. intros H. res_inv. bool_prop. subst.
  split; [done|lia].
Qed.

(** The use limit and lifetime a scope carries: one use, or up to a hundred. *)
Lemma scope_inv v created s :
  _approval_scope v created = Ok s →
  ∃ mode uses expires, dict_get "mode" s = VStr mode ∧ dict_get "max_uses" s = VInt uses ∧
    dict_get "grant_expires_ms" s = VInt expires ∧
    (mode = "once" ∧ uses = 1 ∨ mode = "bounded" ∧ 1 ≤ uses ≤ 100) ∧
    created < expires ≤ created + _MAX_APPROVAL_GRANT_TTL_MS.
Proof.
  unfold _approval_scope. intros H. res_inv.
  set (mode := lower (strip (py_str (dict_get "mode" _)))) in *. subst s.
  repeat match goal with
  | H : _integer _ _ _ = Ok _ |- _ => apply integer_inv in H as [_ H]
  | H : _timestamp _ _ = Ok _ |- _ => apply timestamp_inv in H as [_ H] end.
  eexists mode, _, _. split; [reflexivity|]. split; [reflexivity|]. split; [reflexivity|]. split.
  - bool_prop. match goal with H : mode ∈ _ |- _ => rename H into Hmode end.
    apply elem_of_cons in Hmode as [Hmode|Hmode%list_elem_of_singleton]; [left|right];
      (split; [done|]); clearbody mode; subst mode; simpl in *; bool_prop; lia.
  - bool_prop. unfold _MAX_APPROVAL_GRANT_TTL_MS in *. lia.
Qed.

Lemma binding_inv request decision d :
  validate_approval_decision_binding request decision = Ok d →
  ∃ r, _validate_approval_request request = Ok r ∧ _validate_approval_decision decision = Ok d ∧
    (∀ k, k ∈ bound_fields → same_field k d r = true) ∧
    get_int "created_ms" r ≤ get_int "created_ms" d < get_int "expires_ms" r.
Proof.
  unfold validate_approval_decision_binding. intros H. res_inv.
  match goal with E : _validate_approval_request request = Ok ?x |- _ => exists x end.
  match goal with H : ?e = d |- _ => subst e | H : d = ?e |- _ => subst e end.
  split; [done|]. split; [done|]. split; [|bool_prop; lia].
  intros k Hk. apply not_false_iff_true. intros Hf.
  destruct (filter _ bound_fields) as [|] eqn:Hfilter; [|done].
  apply (not_elem_of_nil (A := string) k). rewrite <- Hfilter. by apply list_elem_of_filter.
Qed.

Lemma request_life body r :
  _validate_approval_request body = Ok r →
  get_int "expires_ms" r ≤ get_int "created_ms" r + _MAX_APPROVAL_REQUEST_TTL_MS.
Proof.
  intros H%request_normal. unfold _validate_approval_request in H. res_inv.
  match goal with H : _validate_base _ _ _ _ _ = Ok ?b |- _ => destruct b;
    apply base_inv in H as ([= <-] & Hcreated & _ & expires & Hexpires & ? & _) end.
  unfold get_int. rewrite Hcreated, Hexpires. simpl. lia.
Qed.
Lemma decision_scope body d :
  _validate_approval_decision body = Ok d →
  ∃ scope, dict_get "scope" d = VMap scope ∧
  ∃ mode uses expires,
    dict_get "mode" scope = VStr mode ∧ dict_get "max_uses" scope = VInt uses ∧
    dict_get "grant_expires_ms" scope = VInt expires ∧
    (mode = "once" ∧ uses = 1 ∨ mode = "bounded" ∧ 1 ≤ uses ≤ 100) ∧
    get_int "created_ms" d < expires ≤ get_int "created_ms" d + _MAX_APPROVAL_GRANT_TTL_MS.
Proof.
  unfold _validate_approval_decision. intros H. res_inv.
  match goal with H : _validate_base _ _ _ _ _ = Ok ?b |- _ => destruct b;
    apply base_inv in H as (_ & Hcreated & _) end.
  cbn [fst snd] in *. subst d.
  match goal with H : _approval_scope _ _ = Ok ?s |- _ => exists s; apply scope_inv in H;
    rename H into Hscope end.
  split; [read_updated; reflexivity|].
  replace (get_int "created_ms" _) with z; [done|].
  unfold get_int. read_updated. unfold dict_get in Hcreated. by rewrite Hcreated.
Qed.
Lemma decision_request_id body d :
  _validate_approval_decision body = Ok d →
  ∃ s, dict_get "request_id" d = VStr s ∧ lower (strip s) = s.
Proof.
  unfold _validate_approval_decision. intros H. res_inv. subst d.
  match goal with H : _identifier _ "request_id" = Ok ?s |- _ =>
    apply matched_inv in H as [H _]; exists s end.
  split; [read_updated; reflexivity|done].
Qed.

(** Validation of approval requests and decisions yields a normal form: validating
    what a validator returned succeeds and changes nothing, so a stored or forwarded
    body validates to itself. *)
Theorem approval_normal_forms (decision : bool) body d :
  (if decision then _validate_approval_decision else _validate_approval_request) body = Ok d →
  (if decision then _validate_approval_decision else _validate_approval_request) (VMap d) = Ok d.
Proof. destruct decision; [apply decision_normal|apply request_normal]. Qed.

(** A decision bound to a request answers exactly it: request id, human, device,
    nonce, action and scope are those of the validated request, it was created within
    the request's life of at most fifteen minutes, and the scope it grants is one use or
    at most a hundred, for at most an hour from the decision. *)
Theorem approval_binding_sound request decision d :
  validate_approval_decision_binding request decision = Ok d →
  ∃ r scope mode uses expires,
    _validate_approval_request request = Ok r ∧ _validate_approval_decision decision = Ok d ∧
    (∀ k, k ∈ bound_fields → same_field k d r = true) ∧
    get_int "created_ms" r ≤ get_int "created_ms" d < get_int "expires_ms" r ∧
    get_int "expires_ms" r ≤ get_int "created_ms" r + _MAX_APPROVAL_REQUEST_TTL_MS ∧
    dict_get "scope" d = VMap scope ∧
    dict_get "mode" scope = VStr mode ∧ dict_get "max_uses" scope = VInt uses ∧
    dict_get "grant_expires_ms" scope = VInt expires ∧
    (mode = "once" ∧ uses = 1 ∨ mode = "bounded" ∧ 1 ≤ uses ≤ 100) ∧
    get_int "created_ms" d < expires ≤ get_int "created_ms" d + _MAX_APPROVAL_GRANT_TTL_MS.
Proof.
  intros (r & Hr & Hd & Hsame & Htimes)%binding_inv.
  pose proof (request_life _ _ Hr) as Hlife.
  destruct (decision_scope _ _ Hd) as (scope & Hscope & mode & uses & expires & Hin).
  by exists r, scope, mode, uses, expires.
Qed.

(** The decision a device builds for a request binds to that request, for every
    verdict, reason and lifetime the validators accept. *)
Theorem approval_decision_binds now fresh request decision reason id created expires d :
  approval_decision now fresh request decision reason id created expires = Ok d →
  validate_approval_decision_binding request (VMap d) = Ok d.
Proof.
  unfold approval_decision. intros H. res_inv. subst.
  repeat match goal with H : _validate_approval_decision _ = Ok _ |- _ =>
    apply decision_normal in H end.
  match goal with H : validate_approval_decision_binding _ _ = Ok _ |- _ => rename H into Hbind end.
  unfold validate_approval_decision_binding in *.
  match goal with H : _validate_approval_request request = Ok _ |- _ =>
    pose proof (request_normal _ _ H) as Hn; rewrite H; rewrite Hn in Hbind end.
  match goal with H : _validate_approval_decision (VMap d) = Ok d |- _ =>
    rewrite H in Hbind |- * end.
  revert Hbind. cbn [mbind res_bind]. intros Hbind.
  match type of Hbind with _ = Ok ?x => assert (d = x) as Heq by (clear -Hbind; by res_inv) end.
  by rewrite <- Heq in Hbind.
Qed.

(** The validator checks the request id in normalised spelling but keeps it as it
    was sent, while a decision's request id is normalised: a request accepted with an
    id in upper case, or with spaces around it, cannot be decided by anyone. *)
Theorem misspelled_request_never_approved request r id decision :
  _validate_approval_request request = Ok r → dict_get "request_id" r = VStr id →
  lower (strip id) ≠ id →
  ¬ is_Ok (validate_approval_decision_binding request decision).
Proof.
  intros Hr Hid Hspelling [d (r' & Hr' & Hd & Hsame & _)%binding_inv].
  rewrite Hr in Hr'. injection Hr' as <-.
  specialize (Hsame "request_id" ltac:(by left)).
  destruct (decision_request_id _ _ Hd) as (s & Hs & Hnormal).
  unfold same_field in Hsame. rewrite Hs, Hid in Hsame. apply String.eqb_eq in Hsame as ->.
  done.
Qed.
End companion_lemmas.

(** ** Concrete messages *)

Definition approvals_ex : PyFloat := sample_float.
Definition hex32 : string := "0123456789abcdef0123456789abcdef".
Definition shouted : string := "0123456789ABCDEF0123456789ABCDEF".
Definition device_ex : string := "an1abcdefghijklmnopq".
Definition human_ex : string := "hu1abcdefghijklmnopq".
Definition action_ex : value :=
  VMap [field "capability" (VStr "files.write"); field "resource" (VStr "repo/Anet");
        field "parameters_digest" (VStr (hex32 +:+ hex32)); field "summary" (VStr "write a file")].
Definition scope_ex : value :=
  VMap [field "mode" (VStr "bounded"); field "max_uses" (VInt 2);
        field "grant_expires_ms" (VInt 60000)].
(** A request with id [id], of life [1000..61000] *)
Definition request_ex (id : string) : value :=
  VMap [field "protocol" (VStr COMPANION_PROTOCOL); field "version" (VInt 1);
        field "object_type" (VStr "approval_request"); field "request_id" (VStr id);
        field "created_ms" (VInt 1000); field "expires_ms" (VInt 61000);
        field "human_id" (VStr human_ex); field "device_node_id" (VStr device_ex);
        field "action" action_ex; field "scope" scope_ex;
        field "risk" (VStr " overwrites a file "); field "nonce" (VStr hex32)].
Definition decided (request : value) : res dict :=
  @approval_decision approvals_ex 2000 hex32 request (VStr "Approved ") (VStr "") "" None None.
Definition decision_ex : value :=
  match decided (request_ex hex32) with Ok d => VMap d | Err _ => VNone end.

Lemma approval_normal_forms_witness :
  match @_validate_approval_request approvals_ex (request_ex hex32) with
  | Ok d => @_validate_approval_request approvals_ex (VMap d) = Ok d
  | Err _ => False
  end.
Proof.
  destruct (@_validate_approval_request approvals_ex (request_ex hex32)) as [d|e] eqn:H.
  - exact (@approval_normal_forms approvals_ex false (request_ex hex32) d H).
  - vm_compute in H. discriminate H.
Defined.
Lemma approval_binding_sound_witness :
  match @validate_approval_decision_binding approvals_ex (request_ex hex32) decision_ex with
  | Ok d => ∃ scope, dict_get "scope" d = VMap scope
  | Err _ => False
  end.
Proof.
  destruct (@validate_approval_decision_binding approvals_ex (request_ex hex32) decision_ex)
    as [d|e] eqn:H.
  - destruct (@approval_binding_sound approvals_ex (request_ex hex32) decision_ex d H)
      as (r & scope & mode & uses & expires & _ & _ & _ & _ & _ & Hscope & _).
    by exists scope.
  - vm_compute in H. discriminate H.
Defined.
Lemma approval_decision_binds_witness :
  match decided (request_ex hex32) with
  | Ok d => @validate_approval_decision_binding approvals_ex (request_ex hex32) (VMap d) = Ok d
  | Err _ => False
  end.
Proof.
  destruct (decided (request_ex hex32)) as [d|e] eqn:H.
  - exact (@approval_decision_binds approvals_ex 2000 hex32 (request_ex hex32) (VStr "Approved ")
             (VStr "") "" None None d H).
  - vm_compute in H. discriminate H.
Defined.
(** The same request under an id in upper case is accepted, and cannot be decided. *)
Lemma misspelled_request_never_approved_witness :
  match @_validate_approval_request approvals_ex (request_ex shouted) with
  | Ok r => ∀ decision, ¬ is_Ok (@validate_approval_decision_binding approvals_ex
                                   (request_ex shouted) decision)
  | Err _ => False
  end.
Proof.
  destruct (@_validate_approval_request approvals_ex (request_ex shouted))
    as [r|e] eqn:H.
  - intros decision.
    apply (@misspelled_request_never_approved approvals_ex (request_ex shouted) r
             shouted decision H); [vm_compute in H|vm_compute; discriminate].
    by injection H as <-.
  - vm_compute in H. discriminate H.
Defined.
