(* ===== verification/CompanionMessages.v ===== *)
(** The other Companion messages (src/anet/companion_protocol.py): batches of observations,
    episodes derived from them, interventions and the answers to them; the validator of every
    kind and the binding of a message to the endpoints of its packet.  The fields and the
    approvals are those of Companion. *)
From S2P Require Import Prelude PyStr PyVal Codecs Companion.

Definition OBSERVATION_BATCH_KIND : string := "companion.observation.batch".
Definition EPISODE_KIND : string := "companion.episode".
Definition INTERVENTION_KIND : string := "companion.intervention".
Definition USER_RESPONSE_KIND : string := "companion.user-response".
Definition DATA_LEVELS : list string := ["operational"; "personal-low"].
Definition CONSENT_BASES : list string := ["device-essential"; "user-opt-in"; "user-initiated"].
Definition INTERVENTION_PRIORITIES : list string := ["low"; "normal"; "high"; "urgent"].
Definition INTERVENTION_CATEGORIES : list string := ["notification"; "reminder"; "choice"; "report"].
Definition USER_DISPOSITIONS : list string :=
  ["presented"; "ignored"; "snoozed"; "accepted"; "rejected"; "answered"].
Definition _MAX_BATCH_OBSERVATIONS : Z := 256.
Definition _MAX_SOURCE_BATCHES : Z := 64.
Definition _MAX_METRICS : Z := 64.
Definition _MAX_OPTIONS : Z := 16.
Definition _MAX_SELF_REPORT_CHARS : Z := 2048.
Definition _MAX_CLOCK_SKEW_MS : Z := 5 * 60 * 1000.
Definition _OBSERVATION_TYPES : list string :=
  ["device.battery"; "device.network"; "human.presence"; "human.self-report"; "device.app-category-window"].
Definition _EPISODE_TYPES : list string :=
  ["device.battery-window"; "device.connectivity-window"; "human.presence-window"; "human.self-report";
   "device.app-category-window"].
Definition _FORBIDDEN_KEYS : list string :=
  ["audio"; "audio_bytes"; "image"; "image_bytes"; "video"; "video_bytes"; "raw"; "raw_events";
   "precise_location"; "latitude"; "longitude"; "chat_body"; "message_body"; "health_detail"; "diagnosis";
   "emotion"; "mood"; "fatigue"; "human_state"; "state_hypothesis"].

Section messages.
Context {PF : PyFloat}.

(** ** Fields *)

Definition among (values : list string) (v : string) : bool := bool_decide (v ∈ values).
(** [str(v).strip().lower()], one of [values] *)
Definition choice (values : list string) (message : string) (v : value) : res string :=
  matched (among values) message v.
Definition _data_level : value → res string :=
  choice DATA_LEVELS "P0 Companion only permits operational or personal-low data".
(** [_node_id] for a field of another name *)
Definition named_node_id (v : value) (name : string) : res string := matched _NODE_ID_RE ("invalid " +:+ name) v.
(** A list that is not empty *)
Definition some_items (message : string) (v : value) : res (list value) :=
  match v with VList (x :: l) => mret (x :: l) | _ => Err (ValueError message) end.
(** [len(l) != len(set(l))] *)
Definition repeated (l : list string) : bool := bool_decide (¬ NoDup l).

Definition _consent (v : value) : res dict :=
  item ← _exact v ["basis"; "grant_id"; "scope"] "consent";
  basis ← choice CONSENT_BASES "invalid consent basis" (dict_get "basis" item);
  let grant_id := lower (strip (py_str (dict_get "grant_id" item))) in
  grant_id ← (if String.eqb basis "user-opt-in" then _identifier (VStr grant_id) "consent grant_id"
              else raise_if (negb (String.eqb grant_id ""))
                     (ValueError "only user-opt-in consent may carry grant_id");; mret grant_id);
  entries ← some_items "consent scope must be a non-empty list" (dict_get "scope" item);
  scope ← map_res (λ entry, _token entry "consent scope") entries;
  let scope := sorted (remove_dups scope) in
  raise_if (32 <? Z.of_nat (length scope)) (ValueError "too many consent scopes");;
  mret [field "basis" (VStr basis); field "grant_id" (VStr grant_id); field "scope" (VList (VStr <$> scope))].
Definition consent_evidence (basis grant_id : value) (scope : list value) : res dict :=
  _consent (VMap [field "basis" basis; field "grant_id" grant_id; field "scope" (VList scope)]).

(** [path] only shows in the message. *)
Fixpoint _reject_forbidden (v : value) (path : string) {struct v} : res unit :=
  match v with
  | VMap d =>
      (fix items (d : dict) : res unit :=
         match d with
         | [] => mret tt
         | (key, child) :: d =>
             let normalized := lower (strip (py_str key)) in
             raise_if (among _FORBIDDEN_KEYS normalized)
               (ValueError ("forbidden Companion field: " +:+ path +:+ "." +:+ normalized));;
             _reject_forbidden child (path +:+ "." +:+ normalized);;
             items d
         end) d
  | VList l =>
      (fix elements (index : Z) (l : list value) : res unit :=
         match l with
         | [] => mret tt
         | child :: l =>
             _reject_forbidden child (path +:+ "[" +:+ str_of_Z index +:+ "]");;
             elements (index + 1) l
         end) 0 l
  | VBytes _ => Err (ValueError "Companion objects cannot contain binary sensor payloads")
  | _ => mret tt
  end.

(** [{_token(key): f(v) for key, v in d.items()}] and [dict(sorted(...))] of it *)
Definition token_items (name : string) (f : value → res value) (d : dict) : res dict :=
  pairs ← map_res (λ kv, key ← _token kv.1 name; v ← f kv.2; mret (field key v)) d;
  mret (foldl (λ acc kv, dict_set acc kv.1 kv.2) [] pairs).
Definition item_key (kv : value * value) : list Z := codes (py_str kv.1).
Definition sorted_items (d : dict) : dict := order_by item_key d.

(** ** Observations *)

(** [isinstance(v, bool)] *)
Definition a_bool (message : string) (v : value) : res bool :=
  match v with VBool b => mret b | _ => Err (ValueError message) end.
Definition natural (name : string) (v : value) : res value := VInt <$> _integer v name 0.
Definition battery_value (v : value) : res dict :=
  item ← _exact v ["percent"; "charging"] "battery observation";
  percent ← _integer (dict_get "percent" item) "battery percent" 0;
  raise_if (100 <? percent) (ValueError "invalid battery observation");;
  charging ← a_bool "invalid battery observation" (dict_get "charging" item);
  mret [field "percent" (VInt percent); field "charging" (VBool charging)].
Definition network_value (v : value) : res dict :=
  item ← _exact v ["transport"; "metered"] "network observation";
  transport ← choice ["offline"; "wifi"; "cellular"; "ethernet"; "other"] "invalid network transport"
                (dict_get "transport" item);
  metered ← a_bool "invalid network metered flag" (dict_get "metered" item);
  mret [field "transport" (VStr transport); field "metered" (VBool metered)].
Definition presence_value (v : value) : res dict :=
  item ← _exact v ["state"] "presence observation";
  state ← choice ["present"; "away"; "unknown"] "invalid presence state" (dict_get "state" item);
  mret [field "state" (VStr state)].
Definition report_value (v : value) : res dict :=
  item ← _exact v ["text"; "format"] "self-report observation";
  raise_if (negb (is_text (dict_get "format" item) "plain")) (ValueError "self-report format must be plain");;
  text ← _text (dict_get "text" item) "self-report text" true _MAX_SELF_REPORT_CHARS;
  mret [field "text" (VStr text); field "format" (VStr "plain")].
Definition category_value (v : value) : res dict :=
  item ← _exact v ["category_durations_ms"; "switch_count"] "app category window";
  durations ← match dict_get "category_durations_ms" item with
              | VMap (kv :: d) => mret (kv :: d)
              | _ => Err (ValueError "app category durations must be a non-empty map")
              end;
  raise_if (32 <? Z.of_nat (length durations)) (ValueError "too many app categories");;
  durations ← token_items "app category" (natural "app category duration") durations;
  count ← natural "app switch count" (dict_get "switch_count" item);
  mret [field "category_durations_ms" (VMap (sorted_items durations)); field "switch_count" count].
Definition _observation_value (observation_type : string) (v : value) : res dict :=
  if String.eqb observation_type "device.battery" then battery_value v
  else if String.eqb observation_type "device.network" then network_value v
  else if String.eqb observation_type "human.presence" then presence_value v
  else if String.eqb observation_type "human.self-report" then report_value v
  else category_value v.

(** What is read of an observation again: its id, time and type *)
Record observation := Observation { ob_id : string; ob_ms : Z; ob_type : string; ob_value : dict }.
Definition observation_dict (o : observation) : dict :=
  [field "observation_id" (VStr (ob_id o)); field "observed_ms" (VInt (ob_ms o)); field "type" (VStr (ob_type o));
   field "value" (VMap (ob_value o))].
Definition _observation (v : value) : res observation :=
  item ← _exact v ["observation_id"; "observed_ms"; "type"; "value"] "observation";
  observation_type ← choice _OBSERVATION_TYPES "unsupported P0 observation type" (dict_get "type" item);
  id ← _identifier (dict_get "observation_id" item) "observation_id";
  observed_ms ← _timestamp (dict_get "observed_ms" item) "observed_ms";
  v ← _observation_value observation_type (dict_get "value" item);
  let normalized := Observation id observed_ms observation_type v in
  _reject_forbidden (VMap (observation_dict normalized)) "value";;
  mret normalized.

(** [expected] of an observation type *)
Definition required_basis (observation_type : string) : string :=
  if String.eqb observation_type "human.self-report" then "user-initiated"
  else if String.eqb observation_type "human.presence" then "user-opt-in"
  else if String.eqb observation_type "device.app-category-window" then "user-opt-in"
  else "device-essential".
(** The checks of a window that ended before the message was made *)
Definition window (message : string) (d : dict) (created_ms : Z) : res (Z * Z) :=
  start ← _timestamp (dict_get "window_start_ms" d) "window_start_ms";
  stop ← _timestamp (dict_get "window_end_ms" d) "window_end_ms";
  raise_if ((stop <? start) || (created_ms <? stop)) (ValueError message);;
  mret (start, stop).
(** The consent has the [basis] and covers the [entry]. *)
Definition covers (kind what entry basis : string) (consent : dict) : res unit :=
  raise_if (negb (is_text (dict_get "basis" consent) basis))
    (ValueError (what +:+ " requires " +:+ basis +:+ " consent basis"));;
  raise_if (negb (existsb (λ v, is_text v entry) (match dict_get "scope" consent with VList l => l | _ => [] end)))
    (ValueError ("consent scope does not cover " +:+ kind +:+ " type")).

Definition batch_fields : list string :=
  ["source_node_id"; "window_start_ms"; "window_end_ms"; "data_level"; "consent"; "observations"].
(** The types are checked in the order they first occur; the source goes through a set of
    them, whose order only shows in which of the failing checks is reported. *)
Definition _validate_observation_batch (body : value) : res dict :=
  r ← _validate_base "observation_batch" body "batch_id" batch_fields _MAX_BODY_TTL_MS;
  let value := r.1 in
  w ← window "invalid observation window" value r.2;
  items ← some_items "observations must be a non-empty list" (dict_get "observations" value);
  raise_if (_MAX_BATCH_OBSERVATIONS <? Z.of_nat (length items)) (ValueError "too many observations");;
  observations ← map_res _observation items;
  raise_if (repeated (ob_id <$> observations)) (ValueError "duplicate observation_id");;
  raise_if (existsb (λ o, (ob_ms o <? w.1) || (w.2 <? ob_ms o)) observations)
    (ValueError "observation is outside its declared window");;
  consent ← _consent (dict_get "consent" value);
  map_res (λ t, covers "observation" t t (required_basis t) consent) (remove_dups (ob_type <$> observations));;
  source ← named_node_id (dict_get "source_node_id" value) "source_node_id";
  level ← _data_level (dict_get "data_level" value);
  mret (updated value
    [field "source_node_id" (VStr source); field "window_start_ms" (VInt w.1); field "window_end_ms" (VInt w.2);
     field "data_level" (VStr level); field "consent" (VMap consent);
     field "observations" (VList (VMap ∘ observation_dict <$> observations))]).

(** ** Episodes *)

(** Floats are finite here, so the check for that has nothing to do. *)
Fixpoint _metric_value (v : value) : res value :=
  match v with
  | VBytes _ => Err (ValueError "Companion objects cannot contain binary sensor payloads")
  | VNone | VBool _ | VInt _ | VFloat _ => mret v
  | VStr _ => VStr <$> _text v "episode metric" false 512
  | VList l =>
      raise_if (32 <? Z.of_nat (length l)) (ValueError "episode metric list is too long");;
      VList <$> map_res _metric_value l
  | VMap _ => Err (ValueError "episode metrics must contain only bounded scalar values")
  end.
Definition consent_contract (episode_type : string) : string * string :=
  if String.eqb episode_type "device.battery-window" then ("device-essential", "device.battery")
  else if String.eqb episode_type "device.connectivity-window" then ("device-essential", "device.network")
  else if String.eqb episode_type "human.presence-window" then ("user-opt-in", "human.presence")
  else if String.eqb episode_type "human.self-report" then ("user-initiated", "human.self-report")
  else ("user-opt-in", "device.app-category-window").
Definition episode_fields : list string :=
  ["source_node_id"; "source_batch_ids"; "episode_type"; "window_start_ms"; "window_end_ms"; "data_level"; "consent";
   "transform_version"; "metrics"].
Definition _validate_episode (body : value) : res dict :=
  r ← _validate_base "episode" body "episode_id" episode_fields _MAX_BODY_TTL_MS;
  let value := r.1 in
  items ← some_items "source_batch_ids must be a non-empty list" (dict_get "source_batch_ids" value);
  source_ids ← map_res (λ item, _identifier item "source batch ID") items;
  raise_if ((_MAX_SOURCE_BATCHES <? Z.of_nat (length source_ids)) || repeated source_ids)
    (ValueError "invalid source_batch_ids");;
  episode_type ← choice _EPISODE_TYPES "unsupported P0 episode type" (dict_get "episode_type" value);
  w ← window "invalid episode window" value r.2;
  metrics ← match dict_get "metrics" value with
            | VMap d => raise_if (_MAX_METRICS <? Z.of_nat (length d)) (ValueError "invalid episode metrics");; mret d
            | _ => Err (ValueError "invalid episode metrics")
            end;
  metrics ← token_items "episode metric name" _metric_value metrics;
  _reject_forbidden (VMap metrics) "metrics";;
  consent ← _consent (dict_get "consent" value);
  let contract := consent_contract episode_type in
  covers "episode" episode_type contract.2 contract.1 consent;;
  source ← named_node_id (dict_get "source_node_id" value) "source_node_id";
  level ← _data_level (dict_get "data_level" value);
  version ← _token (dict_get "transform_version" value) "transform_version";
  mret (updated value
    [field "source_node_id" (VStr source); field "source_batch_ids" (VList (VStr <$> source_ids));
     field "episode_type" (VStr episode_type); field "window_start_ms" (VInt w.1); field "window_end_ms" (VInt w.2);
     field "data_level" (VStr level); field "consent" (VMap consent); field "transform_version" (VStr version);
     field "metrics" (VMap (sorted_items metrics))]).

(** ** Interventions and answers *)

Definition response_option (v : value) : res (string * string) :=
  item ← _exact v ["action_id"; "label"] "response option";
  action_id ← _token (dict_get "action_id" item) "action_id";
  label ← _text (dict_get "label" item) "response option label" true 128;
  mret (action_id, label).
Definition option_dict (o : string * string) : dict := [field "action_id" (VStr o.1); field "label" (VStr o.2)].
Definition intervention_fields : list string :=
  ["human_id"; "target_device_id"; "category"; "priority"; "title"; "message"; "dedupe_key"; "response_options";
   "related_episode_ids"].
Definition _validate_intervention (body : value) : res dict :=
  r ← _validate_base "intervention" body "intervention_id" intervention_fields _MAX_BODY_TTL_MS;
  let value := r.1 in
  category ← choice INTERVENTION_CATEGORIES "invalid intervention category" (dict_get "category" value);
  priority ← choice INTERVENTION_PRIORITIES "invalid intervention priority" (dict_get "priority" value);
  items ← match dict_get "response_options" value with
          | VList l => mret l
          | _ => Err (ValueError "response_options must be a list")
          end;
  raise_if (_MAX_OPTIONS <? Z.of_nat (length items)) (ValueError "too many response options");;
  options ← map_res response_option items;
  raise_if (repeated options.*1) (ValueError "duplicate response action_id");;
  related ← match dict_get "related_episode_ids" value with
            | VList l => raise_if (64 <? Z.of_nat (length l)) (ValueError "invalid related_episode_ids");; mret l
            | _ => Err (ValueError "invalid related_episode_ids")
            end;
  related_ids ← map_res (λ item, _identifier item "related episode ID") related;
  raise_if (repeated related_ids) (ValueError "duplicate related episode ID");;
  human ← _human_id (dict_get "human_id" value);
  device ← _node_id (dict_get "target_device_id" value);
  title ← _text (dict_get "title" value) "intervention title" true 256;
  message ← _text (dict_get "message" value) "intervention message" true _MAX_TEXT_CHARS;
  dedupe ← _identifier (dict_get "dedupe_key" value) "dedupe_key";
  mret (updated value
    [field "human_id" (VStr human); field "target_device_id" (VStr device); field "category" (VStr category);
     field "priority" (VStr priority); field "title" (VStr title); field "message" (VStr message);
     field "dedupe_key" (VStr dedupe); field "response_options" (VList (VMap ∘ option_dict <$> options));
     field "related_episode_ids" (VList (VStr <$> related_ids))]).

Definition response_fields : list string :=
  ["intervention_id"; "human_id"; "device_node_id"; "disposition"; "action_id"; "text"].
Definition _validate_user_response (body : value) : res dict :=
  r ← _validate_base "user_response" body "response_id" response_fields _MAX_BODY_TTL_MS;
  let value := r.1 in
  disposition ← choice USER_DISPOSITIONS "invalid user response disposition" (dict_get "disposition" value);
  let action_id := lower (strip (py_str (dict_get "action_id" value))) in
  action_id ← (if String.eqb action_id "" then mret "" else _token (VStr action_id) "action_id");
  text ← _text (dict_get "text" value) "user response text" false _MAX_SELF_REPORT_CHARS;
  raise_if (String.eqb disposition "answered" && String.eqb action_id "" && String.eqb text "")
    (ValueError "answered response requires action_id or text");;
  intervention ← _identifier (dict_get "intervention_id" value) "intervention_id";
  human ← _human_id (dict_get "human_id" value);
  device ← _node_id (dict_get "device_node_id" value);
  mret (updated value
    [field "intervention_id" (VStr intervention); field "human_id" (VStr human); field "device_node_id" (VStr device);
     field "disposition" (VStr disposition); field "action_id" (VStr action_id); field "text" (VStr text)]).

(** ** Every kind *)

Inductive kind := ObservationBatch | Episode | Intervention | UserResponse | ApprovalRequest | ApprovalDecision.
#[global] Instance kind_eq_dec : EqDecision kind.
Proof. solve_decision. Defined.
Definition kind_text (k : kind) : string :=
  match k with
  | ObservationBatch => OBSERVATION_BATCH_KIND
  | Episode => EPISODE_KIND
  | Intervention => INTERVENTION_KIND
  | UserResponse => USER_RESPONSE_KIND
  | ApprovalRequest => APPROVAL_REQUEST_KIND
  | ApprovalDecision => APPROVAL_DECISION_KIND
  end.
Definition COMPANION_KINDS : list kind :=
  [ObservationBatch; Episode; Intervention; UserResponse; ApprovalRequest; ApprovalDecision].
Definition kind_of (k : string) : res kind :=
  of_option (ValueError "unsupported Companion kind")
    (List.find (λ c, String.eqb (kind_text c) (lower (strip k))) COMPANION_KINDS).
Definition validator (k : kind) : value → res dict :=
  match k with
  | ObservationBatch => _validate_observation_batch
  | Episode => _validate_episode
  | Intervention => _validate_intervention
  | UserResponse => _validate_user_response
  | ApprovalRequest => _validate_approval_request
  | ApprovalDecision => _validate_approval_decision
  end.
Definition validate_companion_message (k : string) (body : value) : res dict := c ← kind_of k; validator c body.

(** The field that names the sender of the packet, and the one that names its destination *)
Definition source_field (k : kind) : option string :=
  match k with
  | ObservationBatch | Episode => Some "source_node_id"
  | UserResponse | ApprovalDecision => Some "device_node_id"
  | _ => None
  end.
Definition target_field (k : kind) : option string :=
  match k with Intervention => Some "target_device_id" | ApprovalRequest => Some "device_node_id" | _ => None end.
(** [if field and normalized[field] != endpoint] *)
Definition bound_to (c : kind) (f : option string) (endpoint role : string) (d : dict) : res unit :=
  match f with
  | Some f => raise_if (negb (is_text (dict_get f d) endpoint))
                (ValueError (kind_text c +:+ " " +:+ f +:+ " does not match Packet " +:+ role))
  | None => mret tt
  end.
Definition validate_companion_endpoint_binding (now : Z) (k : string) (body : value)
    (sender_node_id destination_node_id : value) (now_ms : option value) : res dict :=
  normalized ← validate_companion_message k body;
  c ← kind_of k;
  sender ← named_node_id sender_node_id "Packet sender_node_id";
  destination ← named_node_id destination_node_id "Packet destination_node_id";
  current ← match now_ms with None => mret now | Some t => _timestamp t "current time" end;
  raise_if (current + _MAX_CLOCK_SKEW_MS <? get_int "created_ms" normalized)
    (ValueError "Companion object creation time is too far in the future");;
  raise_if (get_int "expires_ms" normalized <=? current) (ValueError "Companion object expired");;
  bound_to c (source_field c) sender "sender" normalized;;
  bound_to c (target_field c) destination "destination" normalized;;
  mret normalized.

(** ** What the sender builds *)

Definition observation_batch (now : Z) (fresh : string)
    (source_node_id window_start_ms window_end_ms data_level consent : value) (observations : list value)
    (batch_id : string) (created_ms expires_ms : option Z) : res dict :=
  base ← _base now fresh "observation_batch" "batch_id" batch_id created_ms expires_ms (24 * 60 * 60 * 1000);
  _validate_observation_batch (VMap (base ++
    [field "source_node_id" source_node_id; field "window_start_ms" window_start_ms;
     field "window_end_ms" window_end_ms; field "data_level" data_level; field "consent" consent;
     field "observations" (VList observations)])).
Definition episode (now : Z) (fresh : string) (source_node_id : value) (source_batch_ids : list value)
    (episode_type window_start_ms window_end_ms data_level consent transform_version metrics : value)
    (episode_id : string) (created_ms expires_ms : option Z) : res dict :=
  base ← _base now fresh "episode" "episode_id" episode_id created_ms expires_ms (24 * 60 * 60 * 1000);
  _validate_episode (VMap (base ++
    [field "source_node_id" source_node_id; field "source_batch_ids" (VList source_batch_ids);
     field "episode_type" episode_type; field "window_start_ms" window_start_ms;
     field "window_end_ms" window_end_ms; field "data_level" data_level; field "consent" consent;
     field "transform_version" transform_version; field "metrics" metrics])).
Definition intervention (now : Z) (fresh : string) (human_id target_device_id category priority title message : value)
    (response_options related_episode_ids : list value) (intervention_id : string) (dedupe_key : value)
    (created_ms expires_ms : option Z) : res dict :=
  base ← _base now fresh "intervention" "intervention_id" intervention_id created_ms expires_ms (24 * 60 * 60 * 1000);
  _validate_intervention (VMap (base ++
    [field "human_id" human_id; field "target_device_id" target_device_id; field "category" category;
     field "priority" priority; field "title" title; field "message" message;
     field "dedupe_key" (if truthy dedupe_key then dedupe_key else dict_get "intervention_id" base);
     field "response_options" (VList response_options); field "related_episode_ids" (VList related_episode_ids)])).
Definition user_response (now : Z) (fresh : string)
    (intervention_id human_id device_node_id disposition action_id text : value) (response_id : string)
    (created_ms expires_ms : option Z) : res dict :=
  base ← _base now fresh "user_response" "response_id" response_id created_ms expires_ms (24 * 60 * 60 * 1000);
  _validate_user_response (VMap (base ++
    [field "intervention_id" intervention_id; field "human_id" human_id; field "device_node_id" device_node_id;
     field "disposition" disposition; field "action_id" action_id; field "text" text])).
End messages.
