(* ===== verification/CompanionLaws.v ===== *)
(** What an accepted Companion message is: no forbidden data at any depth, a normal form, and
    observations only as far as the consent it carries covers them. *)
From S2P Require Import Prelude PyStr PyVal Codecs Companion CompanionMessages.

(** ** Values without forbidden data *)

(** [within x v]: [x] is [v] or somewhere inside of it. *)
Inductive within : value → value → Prop :=
  | within_here v : within v v
  | within_item x v l : v ∈ l → within x v → within x (VList l)
  | within_entry x k v d : (k, v) ∈ d → within x v → within x (VMap d).

Create HintDb clean.
Section clean.
Context {PF : PyFloat}.

Definition key_allowed (k : value) : Prop := lower (strip (py_str k)) ∉ _FORBIDDEN_KEYS.
Lemma key_allowed_str s : among _FORBIDDEN_KEYS (lower (strip s)) = false → key_allowed (VStr s).
Proof. by intros ?%bool_decide_eq_false. Qed.
(** No binary data and no forbidden field at any depth *)
Record clean (v : value) : Prop := {
  clean_bytes b : ¬ within (VBytes b) v;
  clean_keys d k w : within (VMap d) v → (k, w) ∈ d → key_allowed k;
}.

Lemma clean_atom v : match v with VBytes _ | VList _ | VMap _ => False | _ => True end → clean v.
Proof. intros Hv. split; [intros b H|intros d k w H]; inversion H; subst; done. Qed.
Lemma clean_list l : Forall clean l ↔ clean (VList l).
Proof.
  rewrite Forall_forall. split.
  - intros Hl. split.
    + intros b H. inversion H; subst. by eapply clean_bytes; [apply Hl|].
    + intros d k w H. inversion H; subst. eapply clean_keys; [by apply Hl|done].
  - intros [Hb Hk] v Hv. split.
    + intros b H. eapply Hb, within_item; eauto.
    + intros d k w H. eapply Hk, within_item; eauto.
Qed.
Definition clean_entry (kv : value * value) : Prop := key_allowed kv.1 ∧ clean kv.2.
Lemma clean_map d : Forall clean_entry d ↔ clean (VMap d).
Proof.
  rewrite Forall_forall. split.
  - intros Hd. split.
    + intros b H. inversion H as [|? ? ? ? H'|? k v ? Hin H']; subst. by eapply clean_bytes; [apply (Hd _ Hin)|].
    + intros d' k w H Hin. inversion H as [|? ? ? ? H'|? k' v ? Hin' H']; subst; [apply (Hd _ Hin)|].
      eapply clean_keys; [apply (Hd _ Hin')|done..].
  - intros [Hb Hk] [k v] Hkv. split; [by eapply (Hk d k v); [apply within_here|]|]. split; cbn.
    + intros b H. eapply Hb, within_entry; eauto.
    + intros d' k' w H. eapply Hk, within_entry; eauto.
Qed.
Lemma clean_strings l : clean (VList (VStr <$> l)).
Proof. apply clean_list, Forall_fmap, Forall_true. intros s. by apply clean_atom. Qed.

(** [_reject_forbidden] lets exactly these pass. *)
Lemma reject_clean v : ∀ path, _reject_forbidden v path = Ok tt ↔ clean v.
Proof.
  induction v as [| | | | |b|l IH|d IH] using value_ind'; intros path.
  1-5: split; [intros _; by apply clean_atom|done].
  - split; [done|]. intros [Hb _]. destruct (Hb b). constructor.
  - rewrite <- clean_list. cbn [_reject_forbidden]. generalize 0. induction IH as [|v l Hv _ IHl]; intros i; [done|].
    rewrite Forall_cons, <- (Hv (path +:+ "[" +:+ str_of_Z i +:+ "]")), <- (IHl (i + 1)).
    destruct (_reject_forbidden v _) as [[]|e]; cbn [mbind res_bind]; naive_solver.
  - rewrite <- clean_map. cbn [_reject_forbidden]. induction IH as [|[k v] d Hv _ IHd]; [done|].
    rewrite Forall_cons, <- IHd. unfold clean_entry at 1, key_allowed, among. cbn [fst snd] in *.
    rewrite <- (Hv (path +:+ "." +:+ lower (strip (py_str k)))).
    case_bool_decide; cbn [raise_if mbind res_bind]; [naive_solver|].
    destruct (_reject_forbidden v _) as [[]|e]; cbn [mbind res_bind]; naive_solver.
Qed.

(** ** Dictionaries that are written field by field *)

Lemma exact_known v required name d k w :
  _exact v required name = Ok d → (k, w) ∈ d → ∃ s, k = VStr s ∧ s ∈ required.
Proof.
  intros H Hin. destruct (exact_inv _ _ _ _ H) as [-> _]. unfold _exact in H. res_inv.
  destruct (mapM _ _) as [[|? ?]|] eqn:Hm in H; [|done..]. clear H.
  assert (filter (λ k, existsb (λ r, key_eqb (VStr r) k) required = false) d.*1 = []) as Hnone.
  { apply mapM_Some in Hm. inversion Hm. congruence. }
  destruct (existsb (λ r, key_eqb (VStr r) k) required) eqn:Hk.
  - apply existsb_exists in Hk as (r & Hr & ->%key_eqb_str). exists r. split; [done|by apply list_elem_of_In].
  - assert (k ∈ filter (λ k, existsb (λ r, key_eqb (VStr r) k) required = false) d.*1) as Hf.
    { apply list_elem_of_filter. split; [done|]. by apply (list_elem_of_fmap_2 fst _ (k, w)). }
    rewrite Hnone in Hf. by apply elem_of_nil in Hf.
Qed.
Lemma dict_get_in d k v : NoDup d.*1 → (VStr k, v) ∈ d → dict_get k d = v.
Proof.
  unfold dict_get. induction d as [|[x w] d IH]; [by intros _ ?%elem_of_nil|]. cbn [fmap list_fmap fst].
  intros [Hx Hd]%NoDup_cons [[= <- <-]|Hin]%elem_of_cons; cbn [dict_get_or].
  - by rewrite (proj2 (key_eqb_str _ _) eq_refl).
  - destruct (key_eqb (VStr k) x) eqn:Hk; [|by apply IH]. apply key_eqb_str in Hk as ->.
    destruct Hx. by apply (list_elem_of_fmap_2 fst _ (VStr k, v)).
Qed.
Lemma dict_set_in d k v kv :
  NoDup d.*1 → kv ∈ dict_set d (VStr k) v → kv = (VStr k, v) ∨ kv ∈ d ∧ kv.1 ≠ VStr k.
Proof.
  induction d as [|[x w] d IH]; cbn [dict_set fmap list_fmap fst].
  { intros _ ->%list_elem_of_singleton. by left. }
  intros [Hx Hd]%NoDup_cons. destruct (key_eqb (VStr k) x) eqn:Hk.
  - apply key_eqb_str in Hk as ->. intros [->|Hin]%elem_of_cons; [by left|]. right. split; [by right|].
    intros E. apply Hx. rewrite <- E. by apply list_elem_of_fmap_2.
  - intros [->|Hin]%elem_of_cons.
    + right. split; [by left|]. cbn. intros ->. by rewrite (proj2 (key_eqb_str k (VStr k)) eq_refl) in Hk.
    + destruct (IH Hd Hin) as [->|[? ?]]; [by left|right; split; [by right|done]].
Qed.
Lemma dict_set_nodup d k v : NoDup d.*1 → NoDup (dict_set d (VStr k) v).*1.
Proof.
  induction d as [|[x w] d IH]; cbn [dict_set fmap list_fmap fst]; [intros _; apply NoDup_singleton|].
  intros [Hx Hd]%NoDup_cons. destruct (key_eqb (VStr k) x) eqn:Hk; cbn [fmap list_fmap fst].
  - apply key_eqb_str in Hk as ->. by constructor.
  - constructor; [|by apply IH]. intros ([k' v'] & -> & Hin)%list_elem_of_fmap.
    destruct (dict_set_in _ _ _ _ Hd Hin) as [[= -> ->]|[Hin' _]].
    + cbn in Hk. by rewrite String.eqb_refl in Hk.
    + destruct Hx. by apply (list_elem_of_fmap_2 fst _ (k', v')).
Qed.
(** Fields that were fine, or are written with something fine *)
Lemma updated_clean value entries ks :
  NoDup value.*1 → entries.*1 = VStr <$> ks → Forall clean_entry entries →
  (∀ kv, kv ∈ value → kv.1 ∈ entries.*1 ∨ clean_entry kv) → clean (VMap (updated value entries)).
Proof.
  unfold updated. revert value ks.
  induction entries as [|[k v] entries IH]; intros value ks Hnd Hks Hgood Hvalue; cbn [foldl fst snd].
  - apply clean_map, Forall_forall. intros kv Hkv. destruct (Hvalue kv Hkv) as [?%elem_of_nil|?]; done.
  - destruct ks as [|s ks]; [done|]. cbn in Hks. injection Hks as -> Hks. apply Forall_cons in Hgood as [Hkv Hgood].
    apply (IH _ ks); [by apply dict_set_nodup|done..|]. intros kv Hin.
    apply dict_set_in in Hin as [->|[Hin Hne]]; [by right|..|done].
    destruct (Hvalue kv Hin) as [Hk|?]; [|by right]. left. cbn in Hk. by apply elem_of_cons in Hk as [?|?].
Qed.

(** *** Identifiers are texts or numbers *)

Lemma hex_head n a s : fullmatch_hex n (lower (strip (String a s))) = true → is_space a = false → is_hex_lower (lower_char a) = true.
Proof.
  intros H Ha. unfold strip, lower in H. cbn [lstrip] in H. rewrite Ha, rstrip_cons in H by done.
  unfold fullmatch_hex in H. apply andb_true_iff in H as [_ H]. cbn [str_map str_forall] in H. by bool_prop.
Qed.
Lemma identifier_clean v name s : _identifier v name = Ok s → clean v.
Proof.
  unfold _identifier, matched. intros H. res_inv. bool_prop. apply clean_atom. destruct v; try done; exfalso.
  - cbn [py_str py_repr] in *. unfold repr_bytes, quoted in *. revert E.
    set (q := quote_for b). assert (is_space q = false ∧ is_hex_lower (lower_char q) = false) as [Hs Hq].
    { subst q. unfold quote_for. by destruct (_ && _). }
    rewrite !append_cons, append_nil_l. unfold strip, lower. cbn [lstrip]. change (is_space "b"%char) with false.
    cbv iota. rewrite !rstrip_cons by done. unfold fullmatch_hex. cbn [str_map str_forall]. rewrite Hq.
    intros [_ [_ E]%andb_true_iff]%andb_true_iff. done.
  - by apply hex_head in E.
  - by apply hex_head in E.
Qed.
Lemma key_eqb_clean z v : key_eqb (VInt z) v = true → clean v.
Proof. intros H. apply clean_atom. by destruct v. Qed.
Lemma is_text_clean v t : is_text v t = true → clean v.
Proof. intros H. apply clean_atom. by destruct v. Qed.
Lemma base_clean object_type body id extra ttl d created :
  _validate_base object_type body id extra ttl = Ok (d, created) → NoDup d.*1 → key_allowed (VStr id) →
  ∀ kv, kv ∈ d → kv.1 ∈ VStr <$> extra ∨ clean_entry kv.
Proof.
  unfold _validate_base. destruct body as [| | | | | | |d0]; try discriminate. intros H Hnd Hid. res_inv.
  injection H as -> _. bool_prop. intros [k w] Hin. cbn [fst].
  match goal with H : _exact _ _ _ = Ok d |- _ => pose proof (exact_inv _ _ _ _ H) as [[= ->] _];
    destruct (exact_known _ _ _ _ _ _ H Hin) as (s & -> & Hs) end.
  pose proof (dict_get_in _ _ _ Hnd Hin) as Hw. apply elem_of_app in Hs as [Hs|Hs]; [right|left; by apply list_elem_of_fmap_2].
  unfold _lifetime in *. res_inv.
  repeat match goal with H : _timestamp _ _ = Ok _ |- _ => apply timestamp_inv in H as [? _] end.
  repeat (apply elem_of_cons in Hs as [->|Hs];
    [subst w; split; cbn [fst snd];
     [first [exact Hid|by apply key_allowed_str]
     |first [by eapply is_text_clean|by eapply key_eqb_clean|by eapply identifier_clean|
             match goal with H : dict_get ?k _ = VInt _ |- clean (dict_get ?k _) => rewrite H end; by apply clean_atom]]|]).
  by apply elem_of_nil in Hs.
Qed.

(** *** The parts of messages *)

Ltac clean_entries :=
  repeat (apply Forall_cons; split;
    [split; cbn [fst snd field]; [by apply key_allowed_str|first [by apply clean_atom|apply clean_strings|by auto with clean|idtac]]|]);
  try (apply Forall_nil; exact I).
Lemma consent_clean v d : _consent v = Ok d → clean (VMap d).
Proof. unfold _consent. intros H. res_inv. subst. apply clean_map.
clean_entries. Qed.
Lemma observation_clean v o : _observation v = Ok o → clean (VMap (observation_dict o)).
Proof.
  unfold _observation. intros H. res_inv. subst.
  match goal with H : _reject_forbidden _ _ = Ok ?u |- _ => destruct u; by apply reject_clean in H end.
Qed.
Lemma option_clean o : clean (VMap (option_dict o)).
Proof. apply clean_map. unfold option_dict. clean_entries. Qed.
Lemma action_clean v d : _approval_action v = Ok d → clean (VMap d).
Proof. unfold _approval_action. intros H. res_inv. subst. apply clean_map. clean_entries. Qed.
Lemma scope_clean v created d : _approval_scope v created = Ok d → clean (VMap d).
Proof. unfold _approval_scope. intros H. res_inv. subst. apply clean_map. clean_entries. Qed.
Lemma clean_permuted d d' : d ≡ₚ d' → clean (VMap d) → clean (VMap d').
Proof. rewrite <- !clean_map. by intros ->. Qed.
Lemma clean_maps {A} (f : A → dict) l : Forall (λ x, clean (VMap (f x))) l → clean (VList (VMap ∘ f <$> l)).
Proof. intros H. by apply clean_list, Forall_fmap. Qed.
Lemma observations_clean l l' : map_res _observation l = Ok l' → clean (VList (VMap ∘ observation_dict <$> l')).
Proof.
  intros H%map_res_Forall2. apply clean_maps. induction H as [|v o l l' Ho _ IH]; constructor; [|done].
  by eapply observation_clean.
Qed.

(** An accepted message whose keys differ: the base fields, and those that validation writes *)
Lemma accepted_clean object_type body id extra ttl items created entries :
  _validate_base object_type body id extra ttl = Ok (items, created) → NoDup items.*1 →
  key_allowed (VStr id) → entries.*1 = VStr <$> extra → Forall clean_entry entries →
  clean (VMap (updated items entries)).
Proof.
  intros Hbase Hnd Hid Hks Hgood. eapply updated_clean; [done..|]. intros kv Hkv.
  destruct (base_clean _ _ _ _ _ _ _ Hbase Hnd Hid kv Hkv); [left; by rewrite Hks|by right].
Qed.

(** An accepted message of any kind, of a body whose keys differ as those of a Python dict do *)
Lemma validator_clean c d0 d : NoDup d0.*1 → validator c (VMap d0) = Ok d → clean (VMap d).
Proof.
  intros Hnd H. destruct c; cbn [validator] in H;
    unfold _validate_observation_batch, _validate_episode, _validate_intervention, _validate_user_response,
      _validate_approval_request, _validate_approval_decision in H; res_inv; subst d;
    match goal with H : _validate_base _ _ _ _ _ = Ok ?r |- _ => destruct r as [items created];
      pose proof (base_inv _ _ _ _ _ _ _ H) as ([= ->] & _ & _); cbn [fst snd] in * end;
    (eapply accepted_clean; [eassumption|done|by apply key_allowed_str|reflexivity|];
     clean_entries);
    eauto using consent_clean, observations_clean, action_clean, scope_clean.
  - eapply clean_permuted; [symmetry; apply order_by_Permutation|].
    match goal with H : _reject_forbidden _ _ = Ok ?u |- _ => destruct u; by apply reject_clean in H end.
  - apply clean_maps, Forall_true. intros o. apply option_clean.
Qed.
End clean.

(** ** Consent *)

Section consent.
Context {PF : PyFloat}.

Lemma matched_in re message v s : matched re message v = Ok s → re s = true.
Proof. intros H. by apply matched_inv in H as [_ H]. Qed.
Lemma choice_in values message v s : choice values message v = Ok s → s ∈ values.
Proof. intros H%matched_in. by apply bool_decide_eq_true in H. Qed.
Lemma some_items_ok message v l : some_items message v = Ok l → v = VList l ∧ l ≠ [].
Proof. destruct v as [| | | | | |[|x l']|]; cbn; try discriminate. intros [= <-]. done. Qed.
Lemma window_ok message d created w :
  window message d created = Ok w →
  dict_get "window_start_ms" d = VInt w.1 ∧ dict_get "window_end_ms" d = VInt w.2 ∧ w.1 ≤ w.2 ≤ created.
Proof.
  unfold window. intros H. res_inv. subst w. cbn [fst snd].
  repeat match goal with H : _timestamp _ _ = Ok _ |- _ => apply timestamp_inv in H as [? _] end.
  bool_prop. split_and!; [done..|lia|lia].
Qed.
(** The consent a person or a device gave *)
Record consent_of (d : dict) (basis grant_id : string) (scope : list string) : Prop := {
  cn_basis : dict_get "basis" d = VStr basis;
  cn_grant : dict_get "grant_id" d = VStr grant_id;
  cn_scope : dict_get "scope" d = VList (VStr <$> scope);
  cn_known : basis ∈ CONSENT_BASES;
  (** Exactly opting in has a grant. *)
  cn_opt_in : if String.eqb basis "user-opt-in" then fullmatch_hex 32 grant_id = true else grant_id = "";
  cn_order : sorted scope = scope ∧ NoDup scope ∧ scope ≠ [] ∧ Z.of_nat (length scope) ≤ 32;
  cn_tokens : Forall (λ s, _TOKEN_RE s = true ∧ lower (strip s) = s) scope;
}.
Lemma consent_ok v d : _consent v = Ok d → ∃ basis grant_id scope, consent_of d basis grant_id scope ∧
  d = [field "basis" (VStr basis); field "grant_id" (VStr grant_id); field "scope" (VList (VStr <$> scope))].
Proof.
  unfold _consent. intros H. res_inv. subst d. do 3 eexists. split; [|reflexivity].
  match goal with H : choice _ _ _ = Ok ?b |- _ => rename H into Hb, b into basis end.
  match goal with H : some_items _ _ = Ok _ |- _ => apply some_items_ok in H as [_ Hne] end.
  match goal with H : map_res _ _ = Ok ?l |- _ => apply map_res_Forall2 in H; rename H into Hl, l into scope end.
  split; [reflexivity..| | | |].
  - by eapply choice_in.
  - destruct (String.eqb basis "user-opt-in"); [by eapply matched_in|]. res_inv. bool_prop. by subst.
  - split_and!; [apply sorted_idemp| | |by bool_prop].
    + unfold sorted. rewrite order_by_Permutation. apply NoDup_remove_dups.
    + intros Hnil. destruct scope as [|s scope]; [by apply Forall2_nil_inv_r in Hl|].
      assert (s ∈ sorted (remove_dups (s :: scope))) as Hin by (apply elem_of_sorted, elem_of_remove_dups; by left).
      rewrite Hnil in Hin. by apply elem_of_nil in Hin.
  - apply Forall_forall. intros s Hs. rewrite elem_of_sorted, elem_of_remove_dups in Hs. clear -Hl Hs.
    induction Hl as [|v s' l scope H _ IH]; [by apply elem_of_nil in Hs|]. apply elem_of_cons in Hs as [->|Hs]; [|by apply IH].
    by apply matched_inv in H as [? ?].
Qed.
Lemma texts_has entry scope : existsb (λ v, is_text v entry) (VStr <$> scope) = bool_decide (entry ∈ scope).
Proof.
  induction scope as [|s l IH]; [done|]. cbn [fmap list_fmap existsb is_text]. rewrite IH, (String.eqb_sym s).
  apply eq_bool_prop_intro. rewrite orb_True, bool_decide_spec, bool_decide_spec, elem_of_cons, Is_true_true, String.eqb_eq. done.
Qed.
Lemma covers_ok kind what entry basis d b g scope :
  consent_of d b g scope → covers kind what entry basis d = Ok tt → b = basis ∧ entry ∈ scope.
Proof.
  intros [Hb _ Hs _ _ _ _] H. unfold covers in H. rewrite Hb, Hs in H. res_inv. bool_prop.
  rewrite texts_has in *. bool_prop. by apply String.eqb_eq in E.
Qed.
End consent.

(** ** Reading what validation wrote *)

Section again.
Context {PF : PyFloat}.

Lemma updated_get value entries ks k :
  entries.*1 = VStr <$> ks →
  (k ∉ ks → dict_get k (updated value entries) = dict_get k value) ∧
  (NoDup ks → ∀ v, (VStr k, v) ∈ entries → dict_get k (updated value entries) = v).
Proof.
  unfold updated, dict_get. revert value ks. induction entries as [|[k0 v0] entries IH]; intros value ks Hks; cbn [foldl fst snd].
  { split; [done|]. by intros _ v ?%elem_of_nil. }
  destruct ks as [|s ks]; [done|]. cbn in Hks. injection Hks as -> Hks. destruct (IH (dict_set value (VStr s) v0) ks Hks) as [H1 H2].
  split.
  - intros [Hs Hk]%not_elem_of_cons. rewrite H1, dict_get_set by done. by destruct (String.eqb_spec k s).
  - intros [Hs Hnd]%NoDup_cons v [[= -> ->]|Hv]%elem_of_cons; [|by apply H2].
    rewrite H1, dict_get_set by done. by rewrite String.eqb_refl.
Qed.
(** Validating the result of a validation: the base is accepted again, every field that was
    written is read back, and writing it again changes nothing. *)
Lemma message_again object_type body id extra ttl items created entries :
  _validate_base object_type body id extra ttl = Ok (items, created) →
  entries.*1 = VStr <$> extra → NoDup extra → Forall (λ k, k ∉ extra) (base_fields id) →
  let d := updated items entries in
  _validate_base object_type (VMap d) id extra ttl = Ok (d, created) ∧
  (∀ k v, (VStr k, v) ∈ entries → dict_get k d = v) ∧
  (∀ k, k ∈ base_fields id → dict_get k d = dict_get k items) ∧ updated d entries = d.
Proof.
  intros Hbase Hks Hnd Hextra d. rewrite Forall_forall in Hextra.
  assert (∀ k v, (VStr k, v) ∈ entries → dict_get k d = v) as Hread.
  { intros k v. by apply (proj2 (updated_get items entries extra k Hks)). }
  assert (∀ k, k ∈ base_fields id → dict_get k d = dict_get k items) as Hkeep.
  { intros k Hk. by apply (proj1 (updated_get items entries extra k Hks)), Hextra. }
  pose proof (base_inv _ _ _ _ _ _ _ Hbase) as (_ & _ & Hhas & _).
  assert (∀ k v, (k, v) ∈ entries → ∃ s, k = VStr s ∧ dict_has s items = true) as Hentries.
  { intros k v Hin. apply (list_elem_of_fmap_2 fst) in Hin. rewrite Hks in Hin.
    apply list_elem_of_fmap in Hin as (s & Hs & Hin). exists s. split; [done|]. apply Hhas. by right. }
  pose proof (updated_keys items entries Hentries) as Hkeys. split_and!; [|done|done|].
  - by eapply companion_base_stable.
  - apply updated_same. intros k v Hin. destruct (Hentries k v Hin) as (s & -> & Hs). exists s.
    split_and!; [done| |by apply Hread]. by rewrite (dict_has_keys _ _ _ Hkeys).
Qed.
End again.
(** ** What the validators read again *)

Section stable.
Context {PF : PyFloat}.

Lemma choice_again values message v s : choice values message v = Ok s → choice values message (VStr s) = Ok s.
Proof. apply matched_stable. Qed.
Lemma named_again v name s : named_node_id v name = Ok s → named_node_id (VStr s) name = Ok s.
Proof. apply matched_stable. Qed.
Lemma token_again v name s : _token v name = Ok s → _token (VStr s) name = Ok s.
Proof. apply matched_stable. Qed.
Lemma integer_again v name lo z : _integer v name lo = Ok z → _integer (VInt z) name lo = Ok z.
Proof. unfold _integer. destruct v; try discriminate. intros H. res_inv. subst. by rewrite E. Qed.
Lemma window_again message d created w d' :
  window message d created = Ok w → dict_get "window_start_ms" d' = VInt w.1 → dict_get "window_end_ms" d' = VInt w.2 →
  window message d' created = Ok w.
Proof.
  intros H. pose proof (window_ok _ _ _ _ H) as (H1 & H2 & _). intros H1' H2'. rewrite <- H. unfold window. by rewrite H1, H2, H1', H2'.
Qed.
Lemma some_items_again message l : l ≠ [] → some_items message (VList l) = Ok l.
Proof. by destruct l. Qed.
Lemma map_res_again {A} (f : value → res A) (g : A → value) l l' :
  map_res f l = Ok l' → (∀ v a, f v = Ok a → f (g a) = Ok a) → map_res f (g <$> l') = Ok l'.
Proof.
  intros H%map_res_Forall2 Hf. apply map_res_Forall2. induction H as [|v a l l' H _ IH]; constructor; [by eapply Hf|done].
Qed.
Lemma map_res_same (f : value → res value) l l' :
  map_res f l = Ok l' → (∀ v a, v ∈ l → f v = Ok a → f a = Ok a) → map_res f l' = Ok l'.
Proof.
  intros H%map_res_Forall2 Hf. apply map_res_Forall2. induction H as [|v a l l' H _ IH]; constructor.
  - eapply Hf; [by left|done].
  - apply IH. intros w b Hw. apply Hf. by right.
Qed.

(** *** Dictionaries with tokens as keys *)

Lemma dict_set_size d k v : dict_set d k v ≠ [] ∧ (length (dict_set d k v) ≤ S (length d))%nat.
Proof.
  induction d as [|[x w] d [_ IH]]; cbn [dict_set]; [by split|]. destruct (key_eqb k x); cbn [length]; split; try done; lia.
Qed.
Lemma dict_of_ok (P : value * value → Prop) x : Forall (λ kv, (∃ s, kv.1 = VStr s) ∧ P kv) x →
  ∀ acc, NoDup acc.*1 → Forall P acc → let r := foldl (λ acc kv, dict_set acc kv.1 kv.2) acc x in
  NoDup r.*1 ∧ Forall P r ∧ (r = [] → acc = [] ∧ x = []) ∧ (length r ≤ length acc + length x)%nat.
Proof.
  induction 1 as [|[k v] x [[s Hs] Hkv] _ IH]; intros acc Hnd Hacc; cbn [foldl].
  { split_and!; [done..|cbn; lia]. }
  cbn in Hs. subst k. cbn [fst snd]. destruct (dict_set_size acc (VStr s) v) as [Hne Hlen].
  destruct (IH (dict_set acc (VStr s) v)) as (H1 & H2 & H3 & H4).
  - by apply dict_set_nodup.
  - rewrite Forall_forall in *. intros kv [->|[Hin _]]%dict_set_in; [done|by apply Hacc|done].
  - split_and!; [done..| |cbn; lia]. intros Hr. by destruct (H3 Hr).
Qed.
(** A dictionary whose keys are tokens, and whose values are left alone by [f] *)
Record token_dict (name : string) (f : value → res value) (d : dict) : Prop := {
  td_keys : NoDup d.*1;
  td_items : Forall (λ kv, (∃ s, kv.1 = VStr s) ∧ _token kv.1 name = Ok (py_str kv.1) ∧ f kv.2 = Ok kv.2) d;
}.
Lemma token_items_ok name f d d' :
  token_items name f d = Ok d' → (∀ v w, f v = Ok w → f w = Ok w) →
  token_dict name f d' ∧ (d' = [] → d = []) ∧ (length d' ≤ length d)%nat.
Proof.
  unfold token_items. intros H Hf. res_inv. subst d'. rename x into pairs. apply map_res_Forall2 in E.
  pose proof (Forall2_length _ _ _ E) as Hlen.
  destruct (dict_of_ok (λ kv, (∃ s, kv.1 = VStr s) ∧ _token kv.1 name = Ok (py_str kv.1) ∧ f kv.2 = Ok kv.2) pairs)
    with (acc := [] : dict) as (H1 & H2 & H3 & H4); [|by constructor|by constructor|].
  - induction E as [|kv kv' d pairs H _ IH]; constructor; [|apply IH; by injection Hlen]. res_inv. subst kv'. cbn [fst snd field].
    split_and!; [by eexists..| |by eapply Hf]. by eapply token_again.
  - split; [by split|]. split; [|cbn in H4; lia]. intros Hr. apply nil_length_inv. rewrite Hlen. by rewrite (proj2 (H3 Hr)).
Qed.
Lemma token_dict_permuted name f d d' : d ≡ₚ d' → token_dict name f d → token_dict name f d'.
Proof. intros Hp [H1 H2]. split; by rewrite <- Hp. Qed.
Lemma dict_of_new x : ∀ acc, NoDup (acc ++ x).*1 → Forall (λ kv, ∃ s, kv.1 = VStr s) x →
  foldl (λ acc kv, dict_set acc kv.1 kv.2) acc x = acc ++ x.
Proof.
  induction x as [|[k v] x IH]; intros acc Hnd Hx; [by rewrite app_nil_r|]. apply Forall_cons in Hx as [[s Hs] Hx].
  cbn in Hs. subst k. cbn [foldl fst snd]. assert (dict_set acc (VStr s) v = acc ++ [(VStr s, v)]) as ->.
  { rewrite fmap_app in Hnd. apply NoDup_app in Hnd as (_ & Hnd & _). clear IH Hx.
    assert (VStr s ∉ acc.*1) as Hs by (intros Hin; apply (Hnd _ Hin); by left). clear Hnd.
    induction acc as [|[k w] acc IH]; [done|]. cbn [fmap list_fmap fst] in Hs. apply not_elem_of_cons in Hs as [Hk Hs]. cbn [dict_set app].
    destruct (key_eqb (VStr s) k) eqn:E; [by apply key_eqb_str in E|]. by rewrite IH. }
  rewrite IH; [by rewrite <- app_assoc|by rewrite <- app_assoc|done].
Qed.
Lemma token_items_again name f d : token_dict name f d → token_items name f d = Ok d.
Proof.
  intros [Hnd Hd]. unfold token_items. assert (map_res (λ kv, key ← _token kv.1 name; v ← f kv.2; mret (field key v)) d = Ok d) as ->.
  { apply map_res_Forall2. clear Hnd. induction Hd as [|[k v] d ([s Hs] & Hk & Hv) _ IH]; constructor; [|done].
    cbn in Hs, Hk, Hv. subst k. cbn [fst snd]. by rewrite Hk, Hv. }
  cbn [mbind res_bind]. rewrite (dict_of_new d []); [done|done|]. eapply Forall_impl; [exact Hd|]. by intros kv [? _].
Qed.
(** A sorted dictionary of tokens is read again as it is. *)
Lemma sorted_again name f d : token_dict name f d →
  token_items name f (sorted_items d) = Ok (sorted_items d) ∧ sorted_items (sorted_items d) = sorted_items d.
Proof.
  intros H. assert (sorted_items d ≡ₚ d) as Hp by apply order_by_Permutation.
  assert (token_dict name f (sorted_items d)) as Hs by (by eapply token_dict_permuted).
  split; [by apply token_items_again|]. apply (order_by_unique (λ kv : value * value, py_str kv.1)); [done|].
  destruct Hs as [Hnd Hi]. 
  change (NoDup ((λ kv : value * value, py_str kv.1) <$> sorted_items d)) with (NoDup (py_str ∘ fst <$> sorted_items d)).
  rewrite (list_fmap_compose fst py_str). apply NoDup_fmap_2_strong; [|done].
  intros x y (kv & -> & Hx)%list_elem_of_fmap (kv' & -> & Hy)%list_elem_of_fmap. rewrite Forall_forall in Hi.
  destruct (Hi _ Hx) as [[s ->] _], (Hi _ Hy) as [[t ->] _]. cbn. congruence.
Qed.

(** *** Fields *)

Lemma metric_again v : ∀ w, _metric_value v = Ok w → _metric_value w = Ok w.
Proof.
  induction v as [| | | |s| |l IH|d _] using value_ind'; intros w; cbn [_metric_value]; try discriminate;
    try by intros [= <-].
  - destruct (_text (VStr s) "episode metric" false 512) as [t|] eqn:E; cbn; [|done]. intros [= <-].
    cbn [_metric_value]. by rewrite (text_stable _ _ _ _ _ E).
  - intros H. res_inv. destruct (map_res _metric_value l) as [l'|] eqn:El; cbn in H; [|done]. injection H as <-.
    cbn [_metric_value]. pose proof El as Hlen%map_res_Forall2%Forall2_length. rewrite <- Hlen, E. cbn [raise_if mbind res_bind].
    rewrite (map_res_same _ l l'); [done|done|]. rewrite Forall_forall in IH. intros v a Hv. by apply IH.
Qed.
Lemma natural_again name v w : natural name v = Ok w → natural name w = Ok w.
Proof.
  unfold natural. destruct (_integer v name 0) as [z|] eqn:E; cbn; [|done]. intros [= <-]. by rewrite (integer_again _ _ _ _ E).
Qed.
Lemma remove_dups_same (l : list string) : NoDup l → remove_dups l = l.
Proof.
  induction 1 as [|x l Hx _ IH]; [done|]. cbn [remove_dups]. case_decide; [done|by rewrite IH].
Qed.
Lemma choice_member values message s : s ∈ values → lower (strip s) = s → choice values message (VStr s) = Ok s.
Proof.
  intros Hin Hs. unfold choice, matched, among. cbn [py_str]. by rewrite Hs, (bool_decide_true _ Hin).
Qed.
Lemma matched_member re message s : re s = true → lower (strip s) = s → matched re message (VStr s) = Ok s.
Proof. intros Hre Hs. unfold matched. cbn [py_str]. by rewrite Hs, Hre. Qed.
Lemma hex_normal n s : fullmatch_hex n s = true → lower (strip s) = s.
Proof. intros H%fullmatch_hex_stable. by rewrite strip_stable, lower_stable. Qed.
Ltac exact_again :=
  match goal with |- context [_exact (VMap ?d) ?l ?n] => assert (_exact (VMap d) l n = Ok d) as -> by reflexivity end;
  cbn [mbind res_bind].
Lemma consent_again v d : _consent v = Ok d → _consent (VMap d) = Ok d.
Proof.
  intros (basis & grant & scope & [_ _ _ Hb Hg (Hs & Hnd & Hne & Hlen) Ht] & ->)%consent_ok.
  unfold _consent. exact_again.
  match goal with |- context [dict_get "basis" ?d] => change (dict_get "basis" d) with (VStr basis);
    change (dict_get "grant_id" d) with (VStr grant); change (dict_get "scope" d) with (VList (VStr <$> scope)) end.
  rewrite choice_member; [|done|].
  2:{ repeat (apply elem_of_cons in Hb as [->|Hb]; [reflexivity|]). by apply elem_of_nil in Hb. }
  assert (lower (strip grant) = grant) as Hgrant.
  { destruct (String.eqb basis _); [by eapply hex_normal|by subst]. }
  cbn [mbind res_bind py_str]. rewrite Hgrant.
  assert ((if String.eqb basis "user-opt-in" then _identifier (VStr grant) "consent grant_id"
           else raise_if (negb (String.eqb grant "")) (ValueError "only user-opt-in consent may carry grant_id");; mret grant)
          = Ok grant) as ->.
  { destruct (String.eqb basis _); [by apply matched_member|by subst]. }
  cbn [mbind res_bind]. rewrite some_items_again by (by destruct scope). cbn [mbind res_bind].
  assert (map_res (λ entry, _token entry "consent scope") (VStr <$> scope) = Ok scope) as ->.
  { apply map_res_Forall2. clear -Ht. induction Ht as [|s l [H1 H2] _ IH]; constructor; [by apply matched_member|done]. }
  cbn [mbind res_bind]. rewrite remove_dups_same, Hs by done. by rewrite (proj2 (Z.ltb_ge _ _) Hlen).
Qed.

(** *** Observations *)

Ltac read_fields :=
  repeat match goal with |- context [dict_get ?k (cons ?a ?l)] =>
    let v := eval cbv [dict_get dict_get_or key_eqb as_number field String.eqb Ascii.eqb Bool.eqb]
      in (dict_get k (cons a l)) in
    change (dict_get k (cons a l)) with v end.
Lemma observation_value_again t v d : _observation_value t v = Ok d → _observation_value t (VMap d) = Ok d.
Proof.
  unfold _observation_value.
  destruct (String.eqb t "device.battery"); [|destruct (String.eqb t "device.network");
    [|destruct (String.eqb t "human.presence"); [|destruct (String.eqb t "human.self-report")]]]; intros H.
  - unfold battery_value in H. res_inv. subst d. unfold battery_value. exact_again. read_fields.
    rewrite (integer_again _ _ _ _ E0). cbn [mbind res_bind]. by rewrite E1.
  - unfold network_value in H. res_inv. subst d. unfold network_value. exact_again. read_fields.
    by rewrite (choice_again _ _ _ _ E0).
  - unfold presence_value in H. res_inv. subst d. unfold presence_value. exact_again. read_fields.
    by rewrite (choice_again _ _ _ _ E0).
  - unfold report_value in H. res_inv. subst d. unfold report_value. exact_again. read_fields.
    cbn [is_text String.eqb negb raise_if mbind res_bind]. by rewrite (text_stable _ _ _ _ _ E1).
  - unfold category_value in H. res_inv. subst d.
    match goal with H : token_items _ _ _ = Ok ?m |- _ => rename H into Hm, m into items end.
    match goal with H : natural _ _ = Ok ?m |- _ => rename H into Hn end.
    destruct (token_items_ok _ _ _ _ Hm) as (Hd & Hne & Hlen); [intros ? ?; apply natural_again|].
    destruct (sorted_again _ _ _ Hd) as [Hagain Hsame]. unfold category_value. exact_again. read_fields.
    assert (length (sorted_items items) = length items) as Hsize by (apply Permutation_length, order_by_Permutation).
    destruct (sorted_items items) as [|kv l] eqn:Es.
    { destruct (dict_get "category_durations_ms" _) as [| | | | | | |[|]] in *; res_inv; try discriminate. subst.
      destruct items; [|done]. by discriminate Hne. }
    change (mret (kv :: l)) with (Ok (kv :: l)). cbn [mbind res_bind]. rewrite Hsize.
    replace (32 <? Z.of_nat (length items)) with false by (symmetry; apply Z.ltb_ge; bool_prop; lia).
    cbn [raise_if mbind res_bind]. rewrite Hagain. cbn [mbind res_bind]. rewrite (natural_again _ _ _ Hn).
    cbn [mbind res_bind]. by rewrite Hsame.
Qed.
Lemma observation_again v o : _observation v = Ok o → _observation (VMap (observation_dict o)) = Ok o.
Proof.
  intros H. unfold _observation in H. res_inv. subst o. unfold _observation, observation_dict. cbn [ob_id ob_ms ob_type ob_value].
  exact_again. read_fields. rewrite (choice_again _ _ _ _ E0). cbn [mbind res_bind].
  rewrite (identifier_stable _ _ _ E1). cbn [mbind res_bind]. unfold _timestamp in *. rewrite (integer_again _ _ _ _ E2).
  cbn [mbind res_bind]. rewrite (observation_value_again _ _ _ E3). cbn [mbind res_bind].
  unfold observation_dict in *. cbn [ob_id ob_ms ob_type ob_value] in *. by rewrite E4.
Qed.
Lemma option_again v o : response_option v = Ok o → response_option (VMap (option_dict o)) = Ok o.
Proof.
  unfold response_option. intros H. res_inv. subst o. unfold option_dict. cbn [fst snd]. exact_again. read_fields.
  rewrite (token_again _ _ _ E0). cbn [mbind res_bind]. by rewrite (text_stable _ _ _ _ _ E1).
Qed.

(** ** Normal forms *)

(** Sets up the second validation of [d], the result of the first. *)
Ltac validate_again :=
  lazymatch goal with H : _validate_base _ _ _ _ _ = Ok ?r |- _ => destruct r as [items created]; cbn [fst snd] in *;
    lazymatch goal with Hd : updated items ?entries = ?d |- _ =>
      destruct (message_again _ _ _ _ _ _ _ entries H) as (Hb & Hread & _ & Hsame);
        [reflexivity|apply (bool_decide_unpack _); reflexivity|apply (bool_decide_unpack _); reflexivity|];
      rewrite Hd in Hb, Hread, Hsame; clear Hd; rewrite Hb; cbn [mbind res_bind fst snd] end end.
(** Replaces a field of the result by what was written. *)
Ltac reread :=
  repeat match goal with Hread : ∀ k v, _ ∈ _ → dict_get k ?d = v |- context [dict_get ?k ?d] =>
    erewrite (Hread k) by (repeat first [by left|right]) end.
(** Checks that pass again *)
Ltac pass :=
  repeat match goal with
  | H : choice ?vs ?m _ = Ok ?s |- context [choice ?vs ?m (VStr ?s)] => rewrite (choice_again _ _ _ _ H)
  | H : _data_level _ = Ok ?s |- context [_data_level (VStr ?s)] => rewrite (choice_again _ _ _ _ H : _data_level (VStr s) = Ok s)
  | H : named_node_id _ ?n = Ok ?s |- context [named_node_id (VStr ?s) ?n] => rewrite (named_again _ _ _ H)
  | H : _token _ ?n = Ok ?s |- context [_token (VStr ?s) ?n] => rewrite (token_again _ _ _ H)
  | H : _node_id _ = Ok ?s |- context [_node_id (VStr ?s)] => rewrite (node_stable _ _ H)
  | H : _human_id _ = Ok ?s |- context [_human_id (VStr ?s)] => rewrite (human_stable _ _ H)
  | H : _identifier _ ?n = Ok ?s |- context [_identifier (VStr ?s) ?n] => rewrite (identifier_stable _ _ _ H)
  | H : _text _ ?n ?r ?l = Ok ?s |- context [_text (VStr ?s) ?n ?r ?l] => rewrite (text_stable _ _ _ _ _ H)
  | H : _consent _ = Ok ?s |- context [_consent (VMap ?s)] => rewrite (consent_again _ _ H)
  | H : ?x = false |- context [raise_if ?x _] => rewrite H
  | H : ?x = Ok ?r |- context [?x ≫= _] => rewrite H
  end; cbn [mbind res_bind raise_if fst snd].
Ltac finish := repeat pass; match goal with H : updated _ _ = _ |- _ => rewrite H end; reflexivity.
Lemma batch_again body d : _validate_observation_batch body = Ok d → _validate_observation_batch (VMap d) = Ok d.
Proof.
  unfold _validate_observation_batch at 1. intros H. res_inv. unfold _validate_observation_batch. validate_again.
  rewrite (window_again _ _ _ _ d E0) by (by reread). cbn [mbind res_bind]. reread.
  match goal with H : map_res _observation _ = Ok _ |- _ => rename H into Ho end.
  pose proof Ho as Hlen%map_res_Forall2%Forall2_length.
  match goal with H : some_items _ _ = Ok _ |- _ => apply some_items_ok in H as [_ Hne] end.
  rewrite some_items_again by (intros ->%fmap_nil_inv; by destruct x1). cbn [mbind res_bind].
  rewrite length_fmap, <- Hlen, E2. cbn [raise_if mbind res_bind].
  rewrite (map_res_again _ (VMap ∘ observation_dict) _ _ Ho observation_again). cbn [mbind res_bind]. finish.
Qed.
Lemma identifiers_again name l l' :
  map_res (λ item, _identifier item name) l = Ok l' → map_res (λ item, _identifier item name) (VStr <$> l') = Ok l'.
Proof. intros H. apply (map_res_again _ VStr _ _ H). intros v s. apply identifier_stable. Qed.
Lemma episode_again body d : _validate_episode body = Ok d → _validate_episode (VMap d) = Ok d.
Proof.
  unfold _validate_episode at 1. intros H. res_inv. unfold _validate_episode. validate_again.
  match goal with H : window _ _ _ = Ok _ |- _ => rename H into Hw end.
  match goal with H : some_items _ _ = Ok _ |- _ => apply some_items_ok in H as [_ Hne] end.
  match goal with H : map_res _ _ = Ok _ |- _ => rename H into Hids end.
  match goal with H : token_items _ _ _ = Ok ?m |- _ => rename H into Hm, m into metrics end.
  match goal with H : _reject_forbidden _ _ = Ok ?u |- _ => destruct u; rename H into Hclean end.
  pose proof Hids as Hlen%map_res_Forall2%Forall2_length.
  rewrite (window_again _ _ _ _ d Hw) by (by reread). reread.
  rewrite some_items_again by (intros ->%fmap_nil_inv; by destruct x0). cbn [mbind res_bind].
  rewrite (identifiers_again _ _ _ Hids). cbn [mbind res_bind]. pass.
  destruct (token_items_ok _ _ _ _ Hm) as (Hd & _ & Hsize); [intros ? ?; apply metric_again|].
  destruct (sorted_again _ _ _ Hd) as [Hagain Hsorted]. assert (sorted_items metrics ≡ₚ metrics) as Hp by apply order_by_Permutation.
  rewrite Hp.
  match goal with H : match dict_get "metrics" _ with _ => _ end = Ok ?m |- _ =>
    destruct (dict_get "metrics" items) as [| | | | | | |raw] in H; try discriminate; rename H into Hraw end.
  res_inv. subst raw. replace (_MAX_METRICS <? Z.of_nat (length metrics)) with false by (symmetry; apply Z.ltb_ge; bool_prop; lia).
  cbn [raise_if mbind res_bind]. change (mret (sorted_items metrics)) with (Ok (sorted_items metrics)). cbn [mbind res_bind].
  rewrite Hagain. cbn [mbind res_bind].
  apply reject_clean, (clean_permuted _ (sorted_items metrics)), (reject_clean _ "metrics") in Hclean; [|by symmetry].
  rewrite Hclean. cbn [mbind res_bind]. rewrite Hsorted. finish.
Qed.
Lemma intervention_again body d : _validate_intervention body = Ok d → _validate_intervention (VMap d) = Ok d.
Proof.
  unfold _validate_intervention at 1. intros H. res_inv. unfold _validate_intervention. validate_again.
  match goal with H : map_res response_option _ = Ok _ |- _ => rename H into Ho end.
  match goal with H : map_res (λ item, _identifier item _) _ = Ok _ |- _ => rename H into Hids end.
  pose proof Ho as Hlen%map_res_Forall2%Forall2_length. pose proof Hids as Hlen'%map_res_Forall2%Forall2_length.
  reread. pass. change (mret (VMap ∘ option_dict <$> x4)) with (Ok (VMap ∘ option_dict <$> x4)). cbn [mbind res_bind].
  rewrite (length_fmap (VMap ∘ option_dict)), <- Hlen, E3. cbn [raise_if mbind res_bind].
  rewrite (map_res_again _ (VMap ∘ option_dict) _ _ Ho option_again). cbn [mbind res_bind]. pass.
  match goal with H : match dict_get "related_episode_ids" _ with _ => _ end = Ok _ |- _ =>
    destruct (dict_get "related_episode_ids" items) as [| | | | | |raw|] in H; try discriminate; rename H into Hraw end.
  res_inv. subst raw. rewrite length_fmap, <- Hlen'. pass.
  change (mret (VStr <$> x7)) with (Ok (VStr <$> x7)). cbn [mbind res_bind]. rewrite (identifiers_again _ _ _ Hids).
  cbn [mbind res_bind]. finish.
Qed.
Lemma response_again body d : _validate_user_response body = Ok d → _validate_user_response (VMap d) = Ok d.
Proof.
  unfold _validate_user_response at 1. intros H. res_inv. unfold _validate_user_response. validate_again.
  reread. pass. cbn [py_str].
  match goal with H : (if ?b then mret "" else _) = Ok x1 |- _ => destruct b in H; rename H into Ha end.
  - injection Ha as <-. change (lower (strip "")) with "". cbn [String.eqb]. change (mret "") with (Ok ""). cbn [mbind res_bind]. finish.
  - pose proof (token_again _ _ _ Ha) as Ht. apply matched_inv in Ha as [Hs _]. rewrite Hs.
    destruct (String.eqb x1 "") eqn:Hx; [apply String.eqb_eq in Hx as ->; by vm_compute in Ht|].
    rewrite Ht. cbn [mbind res_bind]. rewrite Hx. finish.
Qed.
Lemma validator_again c body d : validator c body = Ok d → validator c (VMap d) = Ok d.
Proof.
  destruct c; [apply batch_again|apply episode_again|apply intervention_again|apply response_again|
               apply request_normal|apply decision_normal].
Qed.
End stable.

(** ** The guarantees *)

Section guarantees.
Context {PF : PyFloat}.

(** C26: an accepted message holds nothing forbidden, and is in normal form.  Whatever a body with
    distinct keys contains, what validation of any kind returns holds no binary data and no field
    with a forbidden name at any depth, and validating it again returns it unchanged. *)
Theorem accepted_message_clean k body d :
  NoDup body.*1 → validate_companion_message k (VMap body) = Ok d →
  clean (VMap d) ∧ validate_companion_message k (VMap d) = Ok d.
Proof.
  unfold validate_companion_message. intros Hnd H. res_inv. rewrite E. cbn [mbind res_bind].
  split; [by eapply validator_clean|by eapply validator_again].
Qed.

(** Observations that a consent covers: each in its window, of a type the consent names and whose
    basis it has *)
Definition observed_with (basis : string) (scope : list string) (start stop : Z) (o : observation) : Prop :=
  ob_type o ∈ scope ∧ required_basis (ob_type o) = basis ∧ start ≤ ob_ms o ≤ stop.
Lemma batch_consented body d :
  _validate_observation_batch body = Ok d →
  ∃ observations consent basis grant scope start stop,
    dict_get "observations" d = VList (VMap ∘ observation_dict <$> observations) ∧ dict_get "consent" d = VMap consent ∧
    dict_get "window_start_ms" d = VInt start ∧ dict_get "window_end_ms" d = VInt stop ∧
    consent_of consent basis grant scope ∧ NoDup (ob_id <$> observations) ∧ stop ≤ get_int "created_ms" d ∧
    Forall (observed_with basis scope start stop) observations.
Proof.
  unfold _validate_observation_batch. intros H. res_inv.
  lazymatch goal with H : _validate_base _ _ _ _ _ = Ok ?r |- _ => destruct r as [items created]; cbn [fst snd] in *;
    pose proof (base_inv _ _ _ _ _ _ _ H) as (_ & Hcreated & _);
    lazymatch goal with Hd : updated items ?entries = d |- _ =>
      destruct (message_again _ _ _ _ _ _ _ entries H) as (_ & Hread & Hkeep & _);
        [reflexivity|apply (bool_decide_unpack _); reflexivity|apply (bool_decide_unpack _); reflexivity|];
      rewrite Hd in Hread, Hkeep end end.
  match goal with H : _consent _ = Ok ?c |- _ => destruct (consent_ok _ _ H) as (basis & grant & scope & Hc & _) end.
  match goal with H : window _ _ _ = Ok _ |- _ => pose proof (window_ok _ _ _ _ H) as (_ & _ & Hw) end.
  match goal with H : map_res (λ t, covers _ _ _ _ _) _ = Ok _ |- _ => apply map_res_Forall2 in H; rename H into Hcovers end.
  do 7 eexists. split_and!; try (apply Hread; repeat first [by left|right]); [exact Hc| | |].
  - unfold repeated in *. bool_prop. by apply dec_stable.
  - unfold get_int. rewrite Hkeep by (repeat first [by left|right]). rewrite Hcreated. cbn. lia.
  - apply Forall_forall. intros o Ho.
    assert (ob_type o ∈ scope ∧ required_basis (ob_type o) = basis) as [Hscope Hbasis].
    { assert (ob_type o ∈ remove_dups (ob_type <$> x3)) as Hin by (by apply elem_of_remove_dups, list_elem_of_fmap_2).
      apply list_elem_of_lookup in Hin as [i Hi]. destruct (Forall2_lookup_l _ _ _ _ _ Hcovers Hi) as ([] & _ & Hcov).
      destruct (covers_ok _ _ _ _ _ _ _ _ Hc Hcov). by split. }
    split_and!; [done..| |]; match goal with H : existsb _ _ = false |- _ => rename H into Hall end;
      apply not_true_iff_false in Hall; destruct (decide (x0.1 ≤ ob_ms o ∧ ob_ms o ≤ x0.2)) as [[? ?]|Hn]; try done;
      destruct Hall; apply existsb_exists; exists o; (split; [by apply list_elem_of_In|]); apply orb_true_iff; lia.
Qed.
(** C27: observations reach a node only with consent.  A batch that is accepted from the packet of a
    sender comes from that sender and is alive; each of its observations, with ids of their own,
    lies in the window that ended before the batch was made, and its type is named in the consent
    and asks for exactly the basis of the consent; only opting in has a grant. *)
Theorem observations_consented now k body sender destination t d :
  validate_companion_endpoint_binding now k body sender destination t = Ok d → kind_of k = Ok ObservationBatch →
  ∃ observations consent basis grant scope start stop current,
    dict_get "observations" d = VList (VMap ∘ observation_dict <$> observations) ∧ dict_get "consent" d = VMap consent ∧
    dict_get "window_start_ms" d = VInt start ∧ dict_get "window_end_ms" d = VInt stop ∧
    consent_of consent basis grant scope ∧ NoDup (ob_id <$> observations) ∧ stop ≤ get_int "created_ms" d ∧
    Forall (observed_with basis scope start stop) observations ∧
    dict_get "source_node_id" d = VStr (lower (strip (py_str sender))) ∧
    current = from_option (λ v, default 0 (as_int v)) now t ∧
    get_int "created_ms" d ≤ current + _MAX_CLOCK_SKEW_MS ∧ current < get_int "expires_ms" d.
Proof.
  unfold validate_companion_endpoint_binding, validate_companion_message. intros H Hk. rewrite Hk in H. res_inv. subst.
  cbn [validator] in *.
  match goal with H : _validate_observation_batch _ = Ok _ |- _ => destruct (batch_consented _ _ H) as
    (observations & consent & basis & grant & scope & start & stop & Hbatch) end.
  destruct Hbatch as (? & ? & ? & ? & ? & ? & ? & ?).
  do 8 eexists. split_and!; try done.
  - match goal with H : bound_to ObservationBatch (source_field _) _ _ _ = Ok _ |- _ => cbn [bound_to source_field] in H end.
    res_inv. bool_prop. unfold is_text in *. match goal with H : named_node_id sender _ = Ok _ |- _ => unfold named_node_id, matched in H end.
    res_inv. destruct (dict_get "source_node_id" d); try done. bool_prop. by subst.
  - destruct t as [t|]; cbn; res_inv; bool_prop; [|lia].
    match goal with H : _timestamp _ _ = Ok _ |- _ => apply timestamp_inv in H as [-> _] end. cbn. lia.
  - destruct t as [t|]; cbn; res_inv; bool_prop; [|by subst].
    match goal with H : _timestamp _ _ = Ok _ |- _ => apply timestamp_inv in H as [-> _] end. cbn. lia.
Qed.
End guarantees.

(** ** Concrete messages *)

Definition batch_ex (id state basis : string) : dict :=
  [field "protocol" (VStr COMPANION_PROTOCOL); field "version" (VInt 1);
   field "object_type" (VStr "observation_batch"); field "batch_id" (VStr id);
   field "created_ms" (VInt 2000); field "expires_ms" (VInt 61000); field "source_node_id" (VStr device_ex);
   field "window_start_ms" (VInt 1000); field "window_end_ms" (VInt 1900); field "data_level" (VStr " Personal-Low ");
   field "consent" (VMap [field "basis" (VStr basis); field "grant_id" (VStr shouted);
                          field "scope" (VList [VStr "Human.Presence"; VStr "device.app-category-window"])]);
   field "observations" (VList
     [VMap [field "observation_id" (VStr hex32); field "observed_ms" (VInt 1500); field "type" (VStr "human.presence");
            field "value" (VMap [field "state" (VStr state)])];
      VMap [field "observation_id" (VStr "ffffffffffffffffffffffffffffffff"); field "observed_ms" (VInt 1900);
            field "type" (VStr "device.app-category-window");
            field "value" (VMap [field "category_durations_ms" (VMap [field "Work" (VInt 5); field "games" (VInt 7)]);
                                 field "switch_count" (VInt 3)])]])].
Definition accepted_ex : res dict :=
  @validate_companion_endpoint_binding approvals_ex 2500 OBSERVATION_BATCH_KIND (VMap (batch_ex hex32 "Away" "user-opt-in"))
    (VStr device_ex) (VStr device_ex) None.
Lemma text_keys l : NoDup l → NoDup (VStr <$> l).
Proof. apply NoDup_fmap_2. by intros s t [= ->]. Qed.
Lemma accepted_message_clean_witness :
  match @validate_companion_message approvals_ex " Companion.Observation.Batch" (VMap (batch_ex shouted "present" "user-opt-in")) with
  | Ok d => @clean approvals_ex (VMap d) ∧ @validate_companion_message approvals_ex " Companion.Observation.Batch" (VMap d) = Ok d
  | Err _ => False
  end.
Proof.
  destruct (@validate_companion_message approvals_ex _ _) as [d|e] eqn:H.
  - refine (@accepted_message_clean approvals_ex _ (batch_ex shouted "present" "user-opt-in") d _ H).
    apply (text_keys (base_fields "batch_id" ++ batch_fields)), (bool_decide_unpack _). exact I.
  - vm_compute in H. discriminate H.
Defined.
Lemma observations_consented_witness :
  match accepted_ex with
  | Ok d => ∃ observations, dict_get "observations" d = VList (VMap ∘ observation_dict <$> observations)
  | Err _ => False
  end.
Proof.
  destruct accepted_ex as [d|e] eqn:H.
  - destruct (@observations_consented approvals_ex 2500 OBSERVATION_BATCH_KIND
      (VMap (batch_ex hex32 "Away" "user-opt-in")) (VStr device_ex) (VStr device_ex) None d H eq_refl)
      as (observations & consent & basis & grant & scope & start & stop & current & Hobs & _).
    by exists observations.
  - vm_compute in H. discriminate H.
Defined.
(** Only opting in has a grant, and a mood is never accepted. *)
Example essential_presence_refused :
  @validate_companion_message approvals_ex OBSERVATION_BATCH_KIND (VMap (batch_ex hex32 "away" "device-essential")) =
  Err (ValueError "only user-opt-in consent may carry grant_id").
Proof. reflexivity. Qed.
Definition episode_ex (metric : string) : dict :=
  [field "protocol" (VStr COMPANION_PROTOCOL); field "version" (VInt 1);
   field "object_type" (VStr "episode"); field "episode_id" (VStr hex32);
   field "created_ms" (VInt 2000); field "expires_ms" (VInt 61000); field "source_node_id" (VStr device_ex);
   field "source_batch_ids" (VList [VStr hex32]); field "episode_type" (VStr "human.self-report");
   field "window_start_ms" (VInt 1000); field "window_end_ms" (VInt 1900); field "data_level" (VStr "personal-low");
   field "consent" (VMap [field "basis" (VStr "user-initiated"); field "grant_id" (VStr "");
                          field "scope" (VList [VStr "human.self-report"])]);
   field "transform_version" (VStr "v1"); field "metrics" (VMap [field metric (VList [VInt 1; VStr " two "])])].
Example report_episode_accepted :
  is_Ok (@validate_companion_message approvals_ex EPISODE_KIND (VMap (episode_ex "words"))).
Proof. by eexists. Qed.
Example mood_refused :
  @validate_companion_message approvals_ex EPISODE_KIND (VMap (episode_ex " Mood")) =
  Err (ValueError "forbidden Companion field: metrics.mood").
Proof. reflexivity. Qed.
