(* ===== verification/Tasks.v ===== *)
(** Typed Agent tasks in [PacketStore] (src/anet/store.py): starting, settling and
    cancelling the task behind a consumer claim.  A task is identified by
    (consumer group, authenticated sender, task id) and is fenced by the
    execution token drawn when it starts.  [fresh] and [token] are the values of
    [new_task_id()] and [secrets.token_hex(16)]. *)
From S2P Require Import Prelude PyStr PyVal Schema Packet Queue Consumers AgentProtocol.

Abbreviation task_key := (string * string * string)%type.

(** ** Shared queries and updates *)

(** [state in TERMINAL_TASK_STATES] *)
Definition terminal_state (st : Executions.state_t) : bool :=
  match st with
  | Executions.Completed | Executions.Failed | Executions.Canceled | Executions.Rejected => true
  | _ => false
  end.
Definition state_text (st : Executions.state_t) : string :=
  match st with
  | Executions.Working => "working" | Executions.Canceling => "canceling"
  | Executions.Retry => "retry" | Executions.Completed => "completed"
  | Executions.Failed => "failed" | Executions.Canceled => "canceled"
  | Executions.Rejected => "rejected"
  end.

Record task_item := TaskItem {
  task_key_of : task_key;
  task_request_packet_id : string;
  task_state : Executions.state_t;
  task_attempts : Z;
  task_started_ms : Z;
  task_updated_ms : Z;
  task_completed_ms : Z;
  task_output : value;
  task_error : string;
}.

(** [{str(sender).strip() for sender in allowed_senders if str(sender).strip()}]
    and its test *)
Definition sender_policy (allowed_senders : list string) : list string :=
  filter (λ x, x ≠ "") (strip <$> allowed_senders).
Definition sender_allowed (allowed_senders : list string) (sender_id : string) : bool :=
  bool_decide ("*" ∈ sender_policy allowed_senders) ||
  bool_decide (sender_id ∈ sender_policy allowed_senders).

(** The claim JOIN inbox query of a live lease: (packet id, inbox row). *)
Definition live_claim (now : Z) (group_id owner claim_token : string)
    (k : string * string) (r : Claims.row) : Prop :=
  held_claim group_id owner claim_token k r ∧ now < Claims.lease_until_ms r.
#[global] Instance live_claim_dec now g o t k r : Decision (live_claim now g o t k r).
Proof. unfold live_claim. apply _. Defined.
Definition claimed_message (s : db) (now : Z) (group_id owner claim_token : string)
    : option (string * Inbox.row) :=
  head (omap (λ kv, pair kv.1.2 <$> inbox s !! kv.1.2)
    (select_where (live_claim now group_id owner claim_token) (consumer_deliveries s))).

(** [UPDATE consumer_deliveries SET state = 'acked', ... WHERE group_id = ? AND
    owner = ? AND claim_token = ? AND state = 'leased'], with its rowcount *)
Definition ack_claim (now : Z) (group_id owner claim_token : string) : M Z :=
  rowcount ← gets (λ s,
    count_where (held_claim group_id owner claim_token) (consumer_deliveries s));
  exec consumer_deliveries set_consumer_deliveries
    (update_where (held_claim group_id owner claim_token) (acked_row now));;
  mret rowcount.

(** The UPDATEs of one execution. *)
Definition canceled_execution (now : Z) (reason : string) (r : Executions.row) : Executions.row :=
  Executions.Row (Executions.request_packet_id r) (Executions.request_hash r) Executions.Canceled
    "" "" "" (Executions.attempts r) (Executions.started_ms r) now now None reason.
Definition canceling_execution (now : Z) (reason : string) (r : Executions.row) : Executions.row :=
  Executions.Row (Executions.request_packet_id r) (Executions.request_hash r) Executions.Canceling
    (Executions.owner r) (Executions.claim_token r) (Executions.execution_token r)
    (Executions.attempts r) (Executions.started_ms r) now (Executions.completed_ms r)
    (Executions.output r) reason.
Definition restarted_execution (packet_id owner claim_token token : string) (now : Z)
    (r : Executions.row) : Executions.row :=
  Executions.Row packet_id (Executions.request_hash r) Executions.Working owner claim_token token
    (Executions.attempts r + 1) (Executions.started_ms r) now 0 None "".
Definition new_execution (packet_id request_hash owner claim_token token : string) (now : Z)
    : Executions.row :=
  Executions.Row packet_id request_hash Executions.Working owner claim_token token 1 now now 0
    None "".
Definition stillborn_execution (packet_id request_hash reason : string) (now : Z)
    : Executions.row :=
  Executions.Row packet_id request_hash Executions.Canceled "" "" "" 0 0 now now None reason.
Definition retry_execution (now : Z) (error : string) (r : Executions.row) : Executions.row :=
  Executions.Row (Executions.request_packet_id r) (Executions.request_hash r) Executions.Retry
    "" "" "" (Executions.attempts r) (Executions.started_ms r) now (Executions.completed_ms r)
    (Executions.output r) error.
Definition settled_execution (st : Executions.state_t) (now : Z) (output : bytes) (error : string)
    (r : Executions.row) : Executions.row :=
  Executions.Row (Executions.request_packet_id r) (Executions.request_hash r) st
    "" "" "" (Executions.attempts r) (Executions.started_ms r) now now (Some output) error.

Definition put_execution (key : task_key) (row : Executions.row) : M unit :=
  exec agent_task_executions set_agent_task_executions (insert key row).
(** The same under the partial UNIQUE index on non-empty execution tokens. *)
Definition put_working (key : task_key) (row : Executions.row) : M unit :=
  taken ← gets (λ s, count_where (λ k' r, k' ≠ key ∧ Executions.execution_token r ≠ "" ∧
            Executions.execution_token r = Executions.execution_token row)
            (agent_task_executions s));
  lift (raise_if (negb (taken =? 0)) IntegrityError);;
  put_execution key row.

(** [SET state = ?, terminal_state = ?, updated_ms = ?, applied_ms = ?] *)
Definition cancel_to (st : Cancels.state_t) (terminal_state : string) (now applied_ms : Z)
    (c : Cancels.row) : Cancels.row :=
  Cancels.Row (Cancels.cancel_packet_id c) (Cancels.cancel_hash c) (Cancels.reason c) st
    terminal_state (Cancels.requested_ms c) now applied_ms.
Definition apply_cancel (now : Z) (key : task_key) : M unit :=
  exec agent_task_cancellations set_agent_task_cancellations
    (alter (cancel_to Cancels.Applied "canceled" now now) key).

(** [state IN ('requested', 'applied')] *)
Definition effective_cancel (c : Cancels.row) : Prop := Cancels.state c ≠ Cancels.TooLate.
#[global] Instance effective_cancel_dec c : Decision (effective_cancel c).
Proof. unfold effective_cancel. apply _. Defined.
Definition cancellation_of (s : db) (key : task_key) : option Cancels.row :=
  c ← agent_task_cancellations s !! key; guard (effective_cancel c);; Some c.

Section tasks.
Context {PL : Platform}.

(** [hashlib.blake2s(canonical_pack(v), digest_size=32, person=p).hexdigest()] *)
Definition body_hash (person : bytes) (normalized : dict) : res string :=
  packed ← canonical_pack (VMap normalized);
  mret (blake2s_hexdigest 32 person packed).

(** [_agent_task_item]; its callers run it after COMMIT, so that an exception is
    followed by a ROLLBACK without a transaction. *)
Definition _agent_task_item (key : task_key) (row : Executions.row) : res task_item :=
  output ← match Executions.output row with
           | None => mret VNone
           | Some raw => unpack raw
           end;
  mret (TaskItem key (Executions.request_packet_id row) (Executions.state row)
    (Executions.attempts row) (Executions.started_ms row) (Executions.updated_ms row)
    (Executions.completed_ms row) output (Executions.error row)).
Definition item_after_commit (key : task_key) (row : Executions.row) : res task_item :=
  match _agent_task_item key row with Ok item => Ok item | Err _ => Err OperationalError end.

Record begin_flags := BeginFlags {
  execute : bool;
  duplicate : bool;
  claim_acked : bool;
  execution_token : string;
  cancel_requested : bool;
}.

(** The message behind a live claim, checked and normalised: its packet id,
    sender and body.  [expected] is the kind and [what] names the operation. *)
Definition claimed_task (s : db) (now : Z) (fresh group_id owner claim_token expected : string)
    (untrusted wrong_kind : exn) : res (string * string * dict) :=
  '(packet_id, i) ← of_option
    (ValueError "claim is stale, expired, unknown, or owned by another worker")
    (claimed_message s now group_id owner claim_token);
  raise_if (negb (Inbox.trusted i)) untrusted;;
  raise_if (negb (String.eqb (Inbox.kind i) expected)) wrong_kind;;
  body ← unpack (Inbox.body i);
  normalized ← validate_task_message fresh (Inbox.kind i) body;
  mret (packet_id, Inbox.sender_id i, normalized).

(** The checks of [begin_agent_task] up to the execution lookup: the packet id,
    the task's key and its request hash. *)
Definition begin_request (s : db) (now : Z) (fresh group_id owner claim_token : string)
    (allowed_senders policy : list string) : res (string * task_key * string) :=
  '(packet_id, sender_id, normalized) ←
    claimed_task s now fresh group_id owner claim_token "agent.task.request"
      (PermissionError "typed Agent task execution requires a trusted sender")
      (ValueError "claim does not contain an Agent task request");
  raise_if (negb (sender_allowed allowed_senders sender_id))
    (PermissionError "task sender is outside the local execution policy");;
  missing ← missing_task_capabilities (dict_get "required_capabilities" normalized)
              (VStr <$> policy);
  raise_if (bool_decide (missing ≠ []))
    (PermissionError ("task requires capabilities outside the local execution policy: " +:+
       join "," missing));;
  request_hash ← body_hash "anettsk1" normalized;
  mret (packet_id, (group_id, sender_id, get_text "task_id" normalized), request_hash).

(** The lease behind an execution is still running. *)
Definition lease_active (s : db) (now : Z) (group_id : string) (r : Executions.row) : bool :=
  bool_decide (select_where
    (live_claim now group_id (Executions.owner r) (Executions.claim_token r))
    (consumer_deliveries s) ≠ []).
Definition same_claim (owner claim_token : string) (r : Executions.row) : bool :=
  String.eqb (Executions.owner r) owner && String.eqb (Executions.claim_token r) claim_token.

(** The UPDATEs that end a task because it was cancelled. *)
Definition finish_canceled (now : Z) (key : task_key) (row : Executions.row)
    (owner claim_token : string) (duplicate : bool) : M (Executions.row * begin_flags) :=
  put_execution key row;;
  apply_cancel now key;;
  ack_claim now key.1.1 owner claim_token;;
  mret (row, BeginFlags false duplicate true "" true).
(** A duplicate of a task someone else holds or has finished. *)
Definition ack_duplicate (now : Z) (group_id owner claim_token : string) (row : Executions.row)
    (cancel_requested : bool) : M (Executions.row * begin_flags) :=
  ack_claim now group_id owner claim_token;;
  mret (row, BeginFlags false true true "" cancel_requested).
(** The final INSERT or UPDATE: the claimant becomes the task's executor. *)
Definition start_execution (key : task_key) (row : Executions.row) (duplicate : bool)
    : M (Executions.row * begin_flags) :=
  put_working key row;;
  mret (row, BeginFlags true duplicate false (Executions.execution_token row) false).

(** The decision of [begin_agent_task] on the stored execution. *)
Definition begin_decide (now : Z) (token packet_id owner claim_token : string) (key : task_key)
    (request_hash : string) : M (Executions.row * begin_flags) :=
  existing ← gets (λ s, agent_task_executions s !! key);
  lift (raise_if (match existing with
                  | Some r => negb (String.eqb (Executions.request_hash r) request_hash)
                  | None => false end)
    (ValueError "task_id was reused with a different request body"));;
  cancellation ← gets (λ s, cancellation_of s key);
  match existing with
  | None =>
      match cancellation with
      | Some c => finish_canceled now key
          (stillborn_execution packet_id request_hash (Cancels.reason c) now)
          owner claim_token false
      | None => start_execution key
          (new_execution packet_id request_hash owner claim_token token now) false
      end
  | Some r =>
      active ← gets (λ s, lease_active s now key.1.1 r);
      let restart := start_execution key
        (restarted_execution packet_id owner claim_token token now r) true in
      match Executions.state r with
      | Executions.Completed | Executions.Failed | Executions.Canceled | Executions.Rejected =>
          ack_duplicate now key.1.1 owner claim_token r false
      | Executions.Canceling =>
          if same_claim owner claim_token r then
            mret (r, BeginFlags false false false (Executions.execution_token r) true)
          else if (active : bool) then ack_duplicate now key.1.1 owner claim_token r true
          else
            let reason := match cancellation with
              | Some c => Cancels.reason c
              | None => if String.eqb (Executions.error r) "" then "task cancellation requested"
                        else Executions.error r
              end in
            finish_canceled now key (canceled_execution now reason r) owner claim_token true
      | Executions.Retry =>
          match cancellation with
          | Some c => finish_canceled now key (canceled_execution now (Cancels.reason c) r)
                        owner claim_token true
          | None => restart
          end
      | Executions.Working =>
          if same_claim owner claim_token r then
            mret (r, BeginFlags true false false (Executions.execution_token r) false)
          else if (active : bool) then ack_duplicate now key.1.1 owner claim_token r false
          else restart
      end
  end.

(** The transaction of [begin_agent_task]. *)
Definition begin_commit (now : Z) (fresh token group_id owner claim_token : string)
    (allowed_senders policy : list string) : M (task_key * Executions.row * begin_flags) :=
  transaction (
    request ← gets (λ s,
      begin_request s now fresh group_id owner claim_token allowed_senders policy);
    r ← lift request;
    x ← begin_decide now token r.1.1 owner claim_token r.1.2 r.2;
    mret (r.1.2, x.1, x.2)).

Definition begin_agent_task (now : Z) (fresh token group_id owner claim_token : string)
    (allowed_senders allowed_capabilities : list string) : M (task_item * begin_flags) :=
  group_id ← lift (_consumer_id group_id "group ID");
  owner ← lift (_consumer_id owner "owner");
  claim_token ← lift (_claim_token claim_token);
  policy ← lift (normalize_capability_policy (VStr <$> allowed_capabilities));
  r ← begin_commit now fresh token group_id owner claim_token allowed_senders policy;
  item ← lift (item_after_commit r.1.1 r.1.2);
  mret (item, r.2).

(** ** Cancellation *)

Record cancel_item := CancelItem {
  cancel_key : task_key;
  cancel_row : Cancels.row;
  cancel_claim_acked : bool;
  cooperative_stop_required : bool;
}.

(** The checks of [apply_agent_task_cancellation] up to the first write: packet
    id, key, hash and reason. *)
Definition cancel_request (s : db) (now : Z) (fresh group_id owner claim_token : string)
    (allowed_senders : list string) : res (string * task_key * string * string) :=
  '(packet_id, sender_id, normalized) ←
    claimed_task s now fresh group_id owner claim_token "agent.task.cancel"
      (PermissionError "typed Agent task cancellation requires a trusted sender")
      (ValueError "claim does not contain an Agent task cancellation");
  raise_if (negb (sender_allowed allowed_senders sender_id))
    (PermissionError "task cancellation sender is outside the local execution policy");;
  cancel_hash ← body_hash "anetcxl1" normalized;
  mret (packet_id, (group_id, sender_id, get_text "task_id" normalized), cancel_hash,
        get_text "reason" normalized).

(** [INSERT INTO agent_task_cancellations] of the first request *)
Definition record_cancel (now : Z) (packet_id : string) (key : task_key) (hash reason : string)
    : M unit :=
  existing ← gets (λ s, agent_task_cancellations s !! key);
  lift (raise_if (match existing with
                  | Some c => negb (String.eqb (Cancels.cancel_hash c) hash)
                  | None => false end)
    (ValueError "task cancellation was repeated with a different body"));;
  match existing with
  | Some _ => mret tt
  | None => exec agent_task_cancellations set_agent_task_cancellations (insert key
      (Cancels.Row packet_id hash reason Cancels.Requested "" now now 0))
  end.

(** [UPDATE consumer_deliveries ... WHERE group_id = ? AND packet_id = ? AND state != 'acked'] *)
Definition ack_packet (now : Z) (group_id packet_id : string) : M unit :=
  exec consumer_deliveries set_consumer_deliveries
    (update_where (λ k r, k = (group_id, packet_id) ∧ Claims.state r ≠ Claims.Acked)
       (acked_row now)).

(** The effect on the execution: the cancellation's state, the terminal state it
    found or caused, and whether a running worker has to stop. *)
Definition cancel_execution (now : Z) (key : task_key) (reason : string)
    : M (Cancels.state_t * string * bool) :=
  execution ← gets (λ s, agent_task_executions s !! key);
  match execution with
  | None => mret (Cancels.Requested, "", false)
  | Some r =>
      match Executions.state r with
      | Executions.Canceled => mret (Cancels.Applied, "canceled", false)
      | Executions.Completed | Executions.Failed | Executions.Rejected =>
          mret (Cancels.TooLate, state_text (Executions.state r), false)
      | Executions.Working | Executions.Canceling =>
          put_execution key (canceling_execution now reason r);;
          mret (Cancels.Requested, "", true)
      | Executions.Retry =>
          put_execution key (canceled_execution now reason r);;
          ack_packet now key.1.1 (Executions.request_packet_id r);;
          mret (Cancels.Applied, "canceled", false)
      end
  end.

(** [UPDATE agent_task_cancellations SET ..., applied_ms = CASE ...] *)
Definition update_cancel (now : Z) (key : task_key) (st : Cancels.state_t) (terminal : string)
    : M unit :=
  exec agent_task_cancellations set_agent_task_cancellations (alter (λ c,
    cancel_to st terminal now
      (if bool_decide (st = Cancels.Applied) then now else Cancels.applied_ms c) c) key).

Definition apply_agent_task_cancellation (now : Z) (fresh group_id owner claim_token : string)
    (allowed_senders : list string) : M cancel_item :=
  group_id ← lift (_consumer_id group_id "group ID");
  owner ← lift (_consumer_id owner "owner");
  claim_token ← lift (_claim_token claim_token);
  transaction (
    request ← gets (λ s, cancel_request s now fresh group_id owner claim_token allowed_senders);
    r ← lift request;
    let '(packet_id, key, hash, reason) := (r : string * task_key * string * string) in
    record_cancel now packet_id key hash reason;;
    outcome ← cancel_execution now key reason;
    let '(st, terminal, cooperative) := (outcome : Cancels.state_t * string * bool) in
    update_cancel now key st terminal;;
    rowcount ← ack_claim now group_id owner claim_token;
    lift (raise_if (negb (rowcount =? 1))
      (RuntimeError "failed to acknowledge task cancellation"));;
    row ← gets (λ s, agent_task_cancellations s !! key);
    row ← lift (of_option (TypeError "'NoneType' object is not subscriptable") row);
    mret (CancelItem key row true cooperative)).

(** [agent_task_cancellation]: the cancellation of the task an executor is running. *)
Definition agent_task_cancellation (group_id owner token : string)
    : M (option (task_key * Cancels.row)) :=
  group_id ← lift (_consumer_id group_id "group ID");
  owner ← lift (_consumer_id owner "owner");
  token ← lift (_claim_token token);
  gets (λ s, head (omap (λ kv, pair kv.1 <$> agent_task_cancellations s !! kv.1)
    (select_where (λ k r, k.1.1 = group_id ∧ Executions.owner r = owner ∧
       Executions.execution_token r = token ∧ Executions.state r = Executions.Canceling)
       (agent_task_executions s)))).

(** ** Settlement *)

(** [state in {*TERMINAL_TASK_STATES, "retry"}] *)
Definition settlement_of_string (state : string) : option Executions.state_t :=
  if String.eqb state "completed" then Some Executions.Completed
  else if String.eqb state "failed" then Some Executions.Failed
  else if String.eqb state "canceled" then Some Executions.Canceled
  else if String.eqb state "rejected" then Some Executions.Rejected
  else if String.eqb state "retry" then Some Executions.Retry else None.

(** [WHERE group_id = ? AND owner = ? AND claim_token = ? AND execution_token = ?
    AND state IN ('working', 'canceling')] *)
Definition held_execution (group_id owner claim_token token : string)
    (k : task_key) (r : Executions.row) : Prop :=
  k.1.1 = group_id ∧ Executions.owner r = owner ∧ Executions.claim_token r = claim_token ∧
  Executions.execution_token r = token ∧ execution_active r.
#[global] Instance held_execution_dec g o t x k r : Decision (held_execution g o t x k r).
Proof. unfold held_execution. apply _. Defined.

(** The writes of [settle_agent_task] on the execution found. *)
Definition settle_writes (now : Z) (key : task_key) (r : Executions.row)
    (group_id owner claim_token : string) (st : Executions.state_t) (encoded_output : bytes)
    (error : string) (retry_after : Z) : M Executions.row :=
  if bool_decide (st = Executions.Retry) then
    let row := retry_execution now (slice (Z.to_nat 8192) error) r in
    put_execution key row;;
    exec consumer_deliveries set_consumer_deliveries
      (update_where (held_claim group_id owner claim_token) (retry_row retry_after error));;
    mret row
  else
    let row := settled_execution st now encoded_output (slice (Z.to_nat 8192) error) r in
    put_execution key row;;
    ack_claim now group_id owner claim_token;;
    (if bool_decide (st = Executions.Canceled) then
       exec agent_task_cancellations set_agent_task_cancellations
         (alter (λ c, if bool_decide (Cancels.state c = Cancels.Requested)
                      then cancel_to Cancels.Applied "canceled" now now c else c) key)
     else mret tt);;
    mret row.

Definition settle_commit (now : Z) (group_id owner claim_token token : string)
    (st : Executions.state_t) (encoded_output : bytes) (error : string) (retry_after : Z)
    : M (task_key * Executions.row) :=
  transaction (
    execution ← gets (λ s, head
      (select_where (held_execution group_id owner claim_token token) (agent_task_executions s)));
    claim ← gets (λ s, head
      (select_where (held_claim group_id owner claim_token) (consumer_deliveries s)));
    match execution, claim with
    | Some kr, Some _ =>
        lift (raise_if
          (bool_decide (Executions.state kr.2 = Executions.Canceling) &&
           negb (bool_decide (st = Executions.Canceled)))
          (ValueError "task cancellation is pending; only canceled settlement is allowed"));;
        row ← settle_writes now kr.1 kr.2 group_id owner claim_token st encoded_output error
                retry_after;
        mret (kr.1, row)
    | _, _ => mthrow
        (ValueError "task execution is stale, unknown, or owned by another worker")
    end).

(** [settle_agent_task]: the task, its claim state ("retry" or "acked") and, for a
    retry, [retry_after_ms]. *)
Definition settle_agent_task (now : Z) (group_id owner claim_token token state : string)
    (output : value) (error : string) (retry_seconds : Q)
    : M (task_item * Claims.state_t * option Z) :=
  group_id ← lift (_consumer_id group_id "group ID");
  owner ← lift (_consumer_id owner "owner");
  claim_token ← lift (_claim_token claim_token);
  token ← lift (_claim_token token);
  let state := lower (strip state) in
  st ← lift (of_option (ValueError
    "task settlement state must be completed, failed, canceled, rejected, or retry")
    (settlement_of_string state));
  let error := strip error in
  lift (raise_if (bool_decide (st = Executions.Completed) && negb (String.eqb error ""))
    (ValueError "a completed task cannot contain an error"));;
  lift (raise_if (terminal_state st && negb (bool_decide (st = Executions.Completed))
                  && String.eqb error "")
    (ValueError "an unsuccessful task settlement requires an error"));;
  lift (raise_if (8192 <? len error) (ValueError "task settlement error is too long"));;
  encoded_output ← lift (pack output);
  lift (raise_if (MAX_WIRE_BYTES <? len encoded_output)
    (ValueError "task settlement output is too large"));;
  let retry_after := now + retry_ms retry_seconds in
  r ← settle_commit now group_id owner claim_token token st encoded_output error retry_after;
  item ← lift (item_after_commit r.1 r.2);
  mret (if bool_decide (st = Executions.Retry) then (item, Claims.Retry, Some retry_after)
        else (item, Claims.Acked, None)).
End tasks.

(** ** What task operations never undo *)

(** A task keeps the request it was started with; a terminal execution is final;
    a canceling one can only become canceled; attempts never decrease. *)
Definition exec_progress (r r' : Executions.row) : Prop :=
  Executions.request_hash r' = Executions.request_hash r ∧
  (terminal_state (Executions.state r) = true → r' = r) ∧
  (Executions.state r = Executions.Canceling →
     Executions.state r' = Executions.Canceling ∨ Executions.state r' = Executions.Canceled) ∧
  Executions.attempts r ≤ Executions.attempts r'.
#[global] Instance exec_progress_preorder : PreOrder exec_progress.
Proof.
  split; [intros r; unfold exec_progress; auto with lia|].
  intros a b c (H1 & H2 & H3 & H4) (H1' & H2' & H3' & H4'). unfold exec_progress.
  split_and!; [congruence| | |lia].
  - intros Ht. rewrite (H2 Ht) in H2'. rewrite <- (H2 Ht) at 1. by rewrite H2', (H2 Ht).
  - intros Hc. destruct (H3 Hc) as [Hb|Hb]; [auto|].
    right. rewrite (H2' ltac:(by rewrite Hb)). done.
Qed.

Definition task_progress_rel (s s' : db) : Prop :=
  table_progress exec_progress (agent_task_executions s) (agent_task_executions s').
#[global] Instance task_progress_rel_preorder : PreOrder task_progress_rel.
Proof.
  unfold task_progress_rel. split; [intros s; reflexivity|]. intros a b c Hab Hbc. by etrans.
Qed.

(** ** Well-formedness *)

(** A task that a cancellation has reached. *)
Definition stopped (r : Executions.row) : Prop :=
  Executions.state r = Executions.Canceling ∨ Executions.state r = Executions.Canceled.

(** Exactly the active executions carry a token, no token is shared, and a task
    whose cancellation was accepted is neither running freely nor restartable. *)
Record tasks_ok (s : db) : Prop := {
  to_token : ∀ k r, agent_task_executions s !! k = Some r →
    (execution_active r ↔ Executions.execution_token r ≠ "");
  to_unique : ∀ k k' r r', agent_task_executions s !! k = Some r →
    agent_task_executions s !! k' = Some r' → Executions.execution_token r ≠ "" →
    Executions.execution_token r = Executions.execution_token r' → k = k';
  to_cancel : ∀ k c r, agent_task_cancellations s !! k = Some c → effective_cancel c →
    agent_task_executions s !! k = Some r →
    stopped r;
}.

(** The part of the database the two definitions above depend on. *)
Definition task_tables (s : db) : gmap task_key Executions.row * gmap task_key Cancels.row :=
  (agent_task_executions s, agent_task_cancellations s).
Lemma keeps_task_progress s s' : keeps agent_task_executions s s' → task_progress_rel s s'.
Proof. intros E. unfold task_progress_rel. rewrite E. reflexivity. Qed.
Lemma keeps_tasks_ok s s' : keeps task_tables s s' → tasks_ok s → tasks_ok s'.
Proof. intros [= E1 E2] [H1 H2 H3]. split; rewrite ?E1, ?E2; eauto. Qed.

(** Writing one execution. *)
Lemma tasks_ok_put key row s :
  (execution_active row ↔ Executions.execution_token row ≠ "") →
  (∀ k r, agent_task_executions s !! k = Some r → k ≠ key → Executions.execution_token row ≠ "" →
     Executions.execution_token r ≠ Executions.execution_token row) →
  (∀ c, agent_task_cancellations s !! key = Some c → effective_cancel c →
     stopped row) →
  tasks_ok s →
  tasks_ok (set_agent_task_executions (<[key := row]> (agent_task_executions s)) s).
Proof.
  intros Htok Huniq Hcancel [H1 H2 H3]. split; simpl.
  - intros k r [[<- <-]|[Hne Hr]]%lookup_insert_Some; [done|by apply (H1 k)].
  - intros k k' r r' [[<- <-]|[Hne Hr]]%lookup_insert_Some
      [[<- <-]|[Hne' Hr']]%lookup_insert_Some Htk Heq; [done| | |by eapply H2].
    + exfalso. by eapply (Huniq k' r').
    + exfalso. eapply (Huniq k r); [done|done|by rewrite <- Heq|done].
  - intros k c r Hc Heff [[<- <-]|[Hne Hr]]%lookup_insert_Some; [by apply (Hcancel c)|by apply (H3 k c r)].
Qed.

(** Writing one cancellation. *)
Lemma tasks_ok_cancel key c s :
  (effective_cancel c → ∀ r, agent_task_executions s !! key = Some r →
     stopped r) →
  tasks_ok s →
  tasks_ok (set_agent_task_cancellations (<[key := c]> (agent_task_cancellations s)) s).
Proof.
  intros Hc [H1 H2 H3]. split; simpl; [done|done|].
  intros k c' r [[<- <-]|[Hne Hr]]%lookup_insert_Some Heff Hk; [by apply Hc|by apply (H3 k c' r)].
Qed.

(** ** The statements *)

(** What every statement of this file does to the two tables. *)
Record task_step (s s' : db) : Prop := {
  ts_progress : task_progress_rel s s';
  ts_tasks_ok : tasks_ok s → tasks_ok s';
  ts_claims_ok : claims_ok s → claims_ok s';
  ts_cancel : tasks_ok s → ∀ k c, agent_task_cancellations s !! k = Some c → effective_cancel c →
    ∃ c', agent_task_cancellations s' !! k = Some c' ∧ effective_cancel c';
}.
#[global] Instance task_step_preorder : PreOrder task_step.
Proof.
  split; [intros s; split; [reflexivity|done|done|eauto]|].
  intros a b c [? ? ? Hab] [? ? ? Hbc]. split; [by etrans|auto|auto|].
  intros Ha k c1 Hc1 Heff. destruct (Hab Ha k c1 Hc1 Heff) as (c2 & Hc2 & Heff2). eauto.
Qed.

Lemma task_step_claims (P : string * string → Claims.row → Prop) `{!∀ k r, Decision (P k r)} f s :
  (∀ r, Claims.claim_token (f r) = "" ∧ Claims.state (f r) ≠ Claims.Leased) →
  task_step s (set_consumer_deliveries (update_where P f (consumer_deliveries s)) s).
Proof.
  intros Hf. split; [by apply keeps_task_progress|by apply keeps_tasks_ok| |by eauto].
  apply claims_ok_update. intros k r _. left. apply Hf.
Qed.

Lemma task_step_put key row s :
  (∀ r, agent_task_executions s !! key = Some r → exec_progress r row) →
  (tasks_ok s →
    (execution_active row ↔ Executions.execution_token row ≠ "") ∧
    (∀ k r, agent_task_executions s !! k = Some r → k ≠ key → Executions.execution_token row ≠ "" →
       Executions.execution_token r ≠ Executions.execution_token row) ∧
    (∀ c, agent_task_cancellations s !! key = Some c → effective_cancel c →
       stopped row)) →
  task_step s (set_agent_task_executions (<[key := row]> (agent_task_executions s)) s).
Proof.
  intros Hp Hok. split.
  - intros k r Hr. simpl. destruct (decide (key = k)) as [<-|Hne].
    + rewrite lookup_insert_eq. eauto.
    + rewrite lookup_insert_ne by done. exists r. split; [done|reflexivity].
  - intros Hs. destruct (Hok Hs) as (Htok & Huniq & Hcancel). by apply tasks_ok_put.
  - by apply claims_ok_same.
  - simpl. eauto.
Qed.

(** Ending an execution: an inactive row without token; only [canceled] ends a
    task whose cancellation was accepted. *)
Lemma task_step_end key row s :
  (∀ r, agent_task_executions s !! key = Some r → exec_progress r row) →
  Executions.execution_token row = "" → terminal_state (Executions.state row) = true →
  (Executions.state row = Executions.Canceled ∨
   ∃ r, agent_task_executions s !! key = Some r ∧ ¬ stopped r) →
  task_step s (set_agent_task_executions (<[key := row]> (agent_task_executions s)) s).
Proof.
  intros Hp Htok Hst Hcl. apply task_step_put; [done|]. intros Hok. rewrite Htok.
  split_and!; [|done|].
  - split; [|done]. by intros [E|E]; rewrite E in Hst.
  - intros c Hc Heff. destruct Hcl as [?|(r & Hr & Hn)]; [by right|].
    destruct Hn. by apply (to_cancel s Hok key c).
Qed.

(** Replacing a cancellation of a task that is not running freely. *)
Lemma task_step_cancel key c s :
  (effective_cancel c → ∀ r, agent_task_executions s !! key = Some r → stopped r) →
  (∀ c0, agent_task_cancellations s !! key = Some c0 → effective_cancel c0 → effective_cancel c) →
  task_step s (set_agent_task_cancellations (<[key := c]> (agent_task_cancellations s)) s).
Proof.
  intros Hc Heff.
  split; [by apply keeps_task_progress|by apply tasks_ok_cancel|by apply claims_ok_same|].
  intros _ k c0 Hc0 Heff0. simpl. destruct (decide (key = k)) as [<-|Hne].
  - rewrite lookup_insert_eq. eauto.
  - rewrite lookup_insert_ne by done. eauto.
Qed.
Lemma task_step_alter_cancel key f s :
  (∀ c, agent_task_cancellations s !! key = Some c → effective_cancel (f c) →
     ∀ r, agent_task_executions s !! key = Some r → stopped r) →
  (∀ c, effective_cancel c → effective_cancel (f c)) →
  task_step s (set_agent_task_cancellations (alter f key (agent_task_cancellations s)) s).
Proof.
  intros Hf Heff. destruct (agent_task_cancellations s !! key) as [c|] eqn:Hc.
  - replace (alter f key (agent_task_cancellations s)) with
      (<[key := f c]> (agent_task_cancellations s)).
    { apply task_step_cancel; [eauto|]. intros c0. rewrite Hc. intros [= <-]. apply Heff. }
    apply map_eq. intros k. destruct (decide (key = k)) as [<-|Hne].
    + by rewrite lookup_insert_eq, lookup_alter_eq, Hc.
    + by rewrite lookup_insert_ne, lookup_alter_ne.
  - replace (alter f key (agent_task_cancellations s)) with (agent_task_cancellations s).
    + destruct s. reflexivity.
    + apply map_eq. intros k. destruct (decide (key = k)) as [<-|Hne].
      * by rewrite lookup_alter_eq, Hc.
      * by rewrite lookup_alter_ne.
Qed.

Section task_lemmas.
Context {PL : Platform}.

(** The acknowledgement never fails and touches only the claims. *)
Lemma ack_claim_run now g o t s :
  wp (ack_claim now g o t) (λ r s', (task_step s s' ∧
    consumer_deliveries s' =
      update_where (held_claim g o t) (acked_row now) (consumer_deliveries s)) ∧
    task_tables s' = task_tables s ∧
    r = Ok (count_where (held_claim g o t) (consumer_deliveries s))) s.
Proof.
  unfold ack_claim, exec. wp_all. split_and!; [|done..]. by apply task_step_claims.
Qed.
Lemma ack_packet_step now g id : steps task_step (ack_packet now g id).
Proof. apply steps_modify. intros s. by apply task_step_claims. Qed.

(** [put_working] either hits the UNIQUE index or writes a fresh token. *)
Lemma put_working_run key row s :
  Executions.execution_token row ≠ "" →
  wp (put_working key row) (λ r s', match r with
    | Ok _ =>
        s' = set_agent_task_executions (<[key := row]> (agent_task_executions s)) s ∧
        ∀ k r, agent_task_executions s !! k = Some r → k ≠ key →
          Executions.execution_token r ≠ Executions.execution_token row
    | Err _ => s' = s
    end) s.
Proof.
  intros Htok. unfold put_working, put_execution, exec. do 4 wp_step; bool_prop; [done|].
  wp_step. split; [done|]. intros k r Hr Hne Heq.
  match goal with H : count_where _ _ = 0 |- _ => rewrite count_where_zero in H; apply (H k r Hr) end.
  split_and!; congruence.
Qed.

(** *** [begin_agent_task] *)

(** What a successful decision leaves: the stored row with the task's request
    hash, and, when the claimant may execute, the conditions for that. *)
Definition may_start (s : db) (now : Z) (owner claim_token : string) (key : task_key) : Prop :=
  match agent_task_executions s !! key with
  | None => cancellation_of s key = None
  | Some r =>
      (Executions.state r = Executions.Retry ∧ cancellation_of s key = None) ∨
      (Executions.state r = Executions.Working ∧
       (same_claim owner claim_token r = true ∨ lease_active s now key.1.1 r = false))
  end.
Definition begin_post (now : Z) (owner claim_token : string) (key : task_key) (hash : string)
    (s : db) (row : Executions.row) (flags : begin_flags) (s' : db) : Prop :=
  agent_task_executions s' !! key = Some row ∧ Executions.request_hash row = hash ∧
  (execute flags = true →
     Executions.state row = Executions.Working ∧ Executions.owner row = owner ∧
     Executions.claim_token row = claim_token ∧
     Executions.execution_token row = execution_token flags ∧
     may_start s now owner claim_token key).

Lemma finish_canceled_run now key row o t dup s :
  (∀ r, agent_task_executions s !! key = Some r → exec_progress r row) →
  Executions.execution_token row = "" → Executions.state row = Executions.Canceled →
  wp (finish_canceled now key row o t dup) (λ r s', task_step s s' ∧
    r = Ok (row, BeginFlags false dup true "" true) ∧
    agent_task_executions s' !! key = Some row) s.
Proof.
  intros Hp Htok Hst. unfold finish_canceled, put_execution, apply_cancel, exec. do 5 wp_step.
  eapply wp_mono; [apply ack_claim_run|]. intros r s' ([Hstep _] & Htables & ->).
  assert (terminal_state (Executions.state row) = true) as Hterm by by rewrite Hst.
  wp_step. split_and!; [|done|].
  - etrans; [by apply (task_step_end key row); auto|]. etrans; [|exact Hstep].
    apply (task_step_alter_cancel key); [|done]. intros c Hc _ r Hr. simpl in Hr.
    rewrite lookup_insert_eq in Hr. injection Hr as <-. by right.
  - injection Htables as -> _. simpl. by rewrite lookup_insert_eq.
Qed.

Lemma start_execution_run now key row dup o t hash s :
  (∀ r, agent_task_executions s !! key = Some r → exec_progress r row) →
  Executions.execution_token row ≠ "" → Executions.state row = Executions.Working →
  Executions.owner row = o → Executions.claim_token row = t → Executions.request_hash row = hash →
  may_start s now o t key →
  (tasks_ok s → ∀ c, agent_task_cancellations s !! key = Some c → ¬ effective_cancel c) →
  wp (start_execution key row dup) (λ res s', match res with
    | Ok x => task_step s s' ∧ begin_post now o t key hash s x.1 x.2 s'
    | Err _ => s' = s
    end) s.
Proof.
  intros Hp Htok Hst Ho Ht Hhash Hmay Hcancel. unfold start_execution. wp_step.
  eapply wp_mono; [by apply put_working_run|]. intros [[]|e] s'; [|done].
  intros [-> Hfresh]. wp_step. split.
  - apply task_step_put; [done|]. intros Hok. split_and!.
    + split; [done|]. intros _. left. done.
    + intros k r Hr Hne _. by apply (Hfresh k).
    + intros c Hc Heff. by destruct (Hcancel Hok c Hc).
  - split_and!; simpl; [by rewrite lookup_insert_eq|done|]. intros _. by split_and!.
Qed.

Lemma ack_duplicate_run now key o t hash row cr s :
  agent_task_executions s !! key = Some row → Executions.request_hash row = hash →
  wp (ack_duplicate now key.1.1 o t row cr) (λ res s', match res with
    | Ok x => task_step s s' ∧ begin_post now o t key hash s x.1 x.2 s'
    | Err _ => s' = s
    end) s.
Proof.
  intros Hrow Hhash. unfold ack_duplicate. wp_step.
  eapply wp_mono; [apply ack_claim_run|]. intros r s' ([Hstep _] & [= Hexec _] & ->). wp_step.
  split; [done|]. split_and!; [by rewrite Hexec|done|done].
Qed.

Lemma finish_canceled_post now key row o t dup hash s :
  (∀ r, agent_task_executions s !! key = Some r → exec_progress r row) →
  Executions.execution_token row = "" → Executions.state row = Executions.Canceled →
  Executions.request_hash row = hash →
  wp (finish_canceled now key row o t dup) (λ res s', match res with
    | Ok x => task_step s s' ∧ begin_post now o t key hash s x.1 x.2 s'
    | Err _ => s' = s
    end) s.
Proof.
  intros Hp Htok Hst Hhash. eapply wp_mono; [by apply finish_canceled_run|].
  intros res s' (Hstep & -> & Hrow). split; [done|]. by split_and!.
Qed.

Lemma cancellation_of_none s key c :
  cancellation_of s key = None → agent_task_cancellations s !! key = Some c →
  ¬ effective_cancel c.
Proof.
  unfold cancellation_of. intros Hn Hk Heff. rewrite Hk in Hn. simpl in Hn. by case_guard.
Qed.

Lemma exec_progress_active r row :
  terminal_state (Executions.state r) = false →
  Executions.request_hash row = Executions.request_hash r →
  (Executions.state r = Executions.Canceling → Executions.state row = Executions.Canceled) →
  Executions.attempts r ≤ Executions.attempts row → exec_progress r row.
Proof. intros Ht Hh Hc Ha. split_and!; [done|by rewrite Ht|auto|done]. Qed.

Lemma begin_decide_run now token id o t key hash s :
  token ≠ "" →
  wp (begin_decide now token id o t key hash) (λ res s', match res with
    | Ok x => task_step s s' ∧ begin_post now o t key hash s x.1 x.2 s'
    | Err _ => s' = s
    end) s.
Proof.
  intros Htok. unfold begin_decide. do 4 wp_step; [done|]. do 2 wp_step.
  destruct (agent_task_executions s !! key) as [r|] eqn:Hr.
  2: { destruct (cancellation_of s key) as [c|] eqn:Hc.
    - apply finish_canceled_post; try done. intros r. by rewrite Hr.
    - apply start_execution_run; try done; [intros r; by rewrite Hr| |].
      + unfold may_start. by rewrite Hr.
      + intros _ c Hk. by apply (cancellation_of_none s key). }
  bool_prop. do 2 wp_step.
  assert (∀ row : Executions.row, Some r = Some row → row = r) as Hsome by congruence.
  assert (∀ rest, terminal_state (Executions.state r) = false →
    Executions.state r ≠ Executions.Canceling →
    may_start s now o t key →
    (tasks_ok s → ∀ c, agent_task_cancellations s !! key = Some c → ¬ effective_cancel c) →
    rest = start_execution key (restarted_execution id o t token now r) true →
    wp rest (λ res s', match res with
    | Ok x => task_step s s' ∧ begin_post now o t key hash s x.1 x.2 s'
    | Err _ => s' = s
    end) s) as Hrestart.
  { intros rest Hterm Hncl Hmay Hcancel ->. apply start_execution_run; try done.
    intros row. rewrite Hr. intros [= <-]. apply exec_progress_active; simpl; [done..|lia]. }
  assert (∀ reason, terminal_state (Executions.state r) = false →
    ∀ row, agent_task_executions s !! key = Some row →
    exec_progress row (canceled_execution now reason r)) as Hcanceled.
  { intros reason Hterm row. rewrite Hr. intros [= <-].
    apply exec_progress_active; simpl; [done..|lia]. }
  destruct (Executions.state r) eqn:Hst.
  - wp_step.
    + wp_step. split; [reflexivity|]. split_and!; [done|done|]. intros _.
      unfold same_claim in *. bool_prop. split_and!; [done..|].
      unfold may_start. rewrite Hr. right. split; [done|]. left. unfold same_claim.
      subst. by rewrite !String.eqb_refl.
    + wp_step; [by apply ack_duplicate_run|]. apply Hrestart; [done..| | |done].
      * unfold may_start. rewrite Hr. auto.
      * intros Hok c Hc Heff. destruct (to_cancel s Hok key c r Hc Heff Hr) as [E|E];
          by rewrite Hst in E.
  - wp_step; [wp_step; split; [reflexivity|]; by split_and!|].
    wp_step; [by apply ack_duplicate_run|]. apply finish_canceled_post; auto.
  - destruct (cancellation_of s key) as [c|] eqn:Hc; [by apply finish_canceled_post; auto|].
    apply Hrestart; [done..| | |done].
    + unfold may_start. rewrite Hr. auto.
    + intros _ c Hk. by apply (cancellation_of_none s key).
  - by apply ack_duplicate_run.
  - by apply ack_duplicate_run.
  - by apply ack_duplicate_run.
  - by apply ack_duplicate_run.
Qed.

Lemma begin_commit_run now fresh token g o t senders policy s :
  token ≠ "" →
  wp (begin_commit now fresh token g o t senders policy) (λ res s', match res with
    | Ok x => ∃ id hash,
        begin_request s now fresh g o t senders policy = Ok (id, x.1.1, hash) ∧
        task_step s s' ∧ begin_post now o t x.1.1 hash s x.1.2 x.2 s'
    | Err _ => s' = s
    end) s.
Proof.
  intros Htok. unfold begin_commit. apply wp_transaction. do 4 wp_step; [|done].
  destruct a as [[id key] hash]. wp_step.
  eapply wp_mono; [by apply begin_decide_run|].
  intros [x|e] s'; [|done]. intros [Hstep Hpost]. wp_step. simpl. eauto.
Qed.

Lemma begin_agent_task_step now fresh token g o t senders caps :
  token ≠ "" → steps task_step (begin_agent_task now fresh token g o t senders caps).
Proof.
  intros Htok. unfold begin_agent_task. steps_all. intros s'.
  eapply wp_mono; [by apply begin_commit_run|].
  intros [x|e] s''; [|by intros ->]. by intros (id & hash & _ & Hstep & _).
Qed.

(** *** [apply_agent_task_cancellation] *)

Lemma record_cancel_run now id key hash reason s :
  wp (record_cancel now id key hash reason) (λ res s', match res with
    | Ok _ => (∃ c, agent_task_cancellations s' !! key = Some c) ∧
        agent_task_executions s' = agent_task_executions s ∧
        consumer_deliveries s' = consumer_deliveries s ∧
        (s' = s ∨ ∃ c, s' = set_agent_task_cancellations
                              (<[key := c]> (agent_task_cancellations s)) s)
    | Err _ => s' = s
    end) s.
Proof.
  unfold record_cancel, exec. do 4 wp_step; [done|].
  destruct (agent_task_cancellations s !! key) as [c|] eqn:Hc; wp_step.
  - split_and!; eauto.
  - simpl. rewrite lookup_insert_eq. split_and!; eauto.
Qed.

(** The database without cancellations: [tasks_ok] of it is about tokens only. *)
Definition no_cancels (s : db) : db := set_agent_task_cancellations ∅ s.
Lemma tasks_ok_drop s : tasks_ok s → tasks_ok (no_cancels s).
Proof. intros [H1 H2 _]. split; simpl; [done|done|]. intros k c r Hc. by rewrite lookup_empty in Hc. Qed.
Lemma tasks_ok_join s :
  tasks_ok (no_cancels s) →
  (∀ k c r, agent_task_cancellations s !! k = Some c → effective_cancel c →
     agent_task_executions s !! k = Some r →
     stopped r) →
  tasks_ok s.
Proof. intros [H1 H2 _] H3. by split. Qed.

(** The effect on the execution, and what it allows the cancellation to become. *)
Record cancel_post (key : task_key) (st : Cancels.state_t) (s s' : db) : Prop := {
  cp_step : task_step s s';
  cp_tokens : task_step (no_cancels s) (no_cancels s');
  cp_cancels : agent_task_cancellations s' = agent_task_cancellations s;
  cp_others : ∀ k, k ≠ key → agent_task_executions s' !! k = agent_task_executions s !! k;
  cp_late : st = Cancels.TooLate →
    ∃ r, agent_task_executions s !! key = Some r ∧ ¬ stopped r;
  cp_stopped : st ≠ Cancels.TooLate → ∀ r, agent_task_executions s' !! key = Some r →
    stopped r;
}.

Lemma cancel_post_same key st s :
  (st = Cancels.TooLate → ∃ r, agent_task_executions s !! key = Some r ∧ ¬ stopped r) →
  (st ≠ Cancels.TooLate → ∀ r, agent_task_executions s !! key = Some r →
    stopped r) →
  cancel_post key st s s.
Proof. by split. Qed.

Lemma canceling_step now key reason r s :
  agent_task_executions s !! key = Some r → execution_active r →
  task_step s (set_agent_task_executions
    (<[key := canceling_execution now reason r]> (agent_task_executions s)) s).
Proof.
  intros Hr Hact. apply task_step_put.
  - intros r'. rewrite Hr. intros [= <-]. split_and!; simpl; [done| |auto|lia].
    by destruct Hact as [E|E]; rewrite E.
  - intros Hok. split_and!; [|intros k r' Hr' Hne Htok Heq|by left].
    + split; [|intros _; by right]. intros _. by apply (to_token s Hok key r Hr).
    + apply Hne. by apply (to_unique s Hok k key r' r Hr' Hr); rewrite Heq.
Qed.

Lemma cancel_execution_run now key reason s :
  wp (cancel_execution now key reason) (λ res s', ∃ st terminal coop,
    res = Ok (st, terminal, coop) ∧ cancel_post key st s s') s.
Proof.
  unfold cancel_execution, put_execution, exec. do 2 wp_step.
  destruct (agent_task_executions s !! key) as [r|] eqn:Hr.
  2: { wp_step. do 3 eexists. split; [done|]. apply cancel_post_same; [done|]. by rewrite Hr. }
  assert (∀ row, agent_task_executions (set_agent_task_executions
    (<[key := row]> (agent_task_executions s)) s) !! key = Some row) as Hput.
  { intros row. simpl. by rewrite lookup_insert_eq. }
  assert (∀ row k, k ≠ key → agent_task_executions (set_agent_task_executions
    (<[key := row]> (agent_task_executions s)) s) !! k = agent_task_executions s !! k) as Hother.
  { intros row k Hk. simpl. by rewrite lookup_insert_ne. }
  assert (execution_active r → cancel_post key Cancels.Requested s (set_agent_task_executions
    (<[key := canceling_execution now reason r]> (agent_task_executions s)) s)) as Hcanceling.
  { intros Hact. split; [by apply canceling_step|by apply (canceling_step now key reason r (no_cancels s))
      |done|apply Hother|done|]. intros _ r'. rewrite Hput. intros [= <-]. by left. }
  assert (∀ b, agent_task_executions b = agent_task_executions s →
    Executions.state r = Executions.Retry →
    task_step b (set_consumer_deliveries
      (update_where (λ k d, k = (key.1.1, Executions.request_packet_id r) ∧
          Claims.state d ≠ Claims.Acked) (acked_row now) (consumer_deliveries b))
      (set_agent_task_executions
        (<[key := canceled_execution now reason r]> (agent_task_executions b)) b))) as Hretry.
  { intros b Hb Hst.
    etrans; [|by refine (task_step_claims _ (acked_row now) (set_agent_task_executions _ b) _)]. apply task_step_end; [|done|done|by left].
    intros r'. rewrite Hb, Hr. intros [= <-]. apply exec_progress_active; simpl; [|done|done|lia].
    by rewrite Hst. }
  destruct (Executions.state r) eqn:Hst.
  1,2: do 3 wp_step; do 3 eexists; (split; [done|]); apply Hcanceling; (by left) || (by right).
  - do 3 wp_step. unfold ack_packet, exec. wp_step. wp_step.
    do 3 eexists. split; [done|].
    split; [by refine (Hretry s _ _)|by refine (Hretry (no_cancels s) _ _)|done|apply Hother|done|].
    intros _ r'. simpl. rewrite lookup_insert_eq. intros [= <-]. by right.
  - wp_step. do 3 eexists. split; [done|]. apply cancel_post_same; [|done].
    intros _. exists r. split; [done|]. by intros [E|E]; rewrite Hst in E.
  - wp_step. do 3 eexists. split; [done|]. apply cancel_post_same; [|done].
    intros _. exists r. split; [done|]. by intros [E|E]; rewrite Hst in E.
  - wp_step. do 3 eexists. split; [done|]. apply cancel_post_same; [done|].
    intros _ r'. rewrite Hr. intros [= <-]. by right.
  - wp_step. do 3 eexists. split; [done|]. apply cancel_post_same; [|done].
    intros _. exists r. split; [done|]. by intros [E|E]; rewrite Hst in E.
Qed.

(** What an accepted cancellation leaves. *)
Definition cancel_accepted (key : task_key) (s : db) : Prop :=
  ∃ c, agent_task_cancellations s !! key = Some c ∧
    (effective_cancel c → ∀ r, agent_task_executions s !! key = Some r →
       stopped r).

Lemma alter_cancel_lookup f key s k :
  agent_task_cancellations (set_agent_task_cancellations
    (alter f key (agent_task_cancellations s)) s) !! k =
  if decide (key = k) then f <$> agent_task_cancellations s !! k
  else agent_task_cancellations s !! k.
Proof. simpl. case_decide; subst; [apply lookup_alter_eq|by apply lookup_alter_ne]. Qed.

(** The writes of an accepted cancellation up to the acknowledgement. *)
Lemma cancel_writes_run key st f s s1 s2 :
  (s1 = s ∨ ∃ c, s1 = set_agent_task_cancellations
                        (<[key := c]> (agent_task_cancellations s)) s) →
  is_Some (agent_task_cancellations s1 !! key) →
  cancel_post key st s1 s2 → (∀ c, Cancels.state (f c) = st) →
  let s3 := set_agent_task_cancellations (alter f key (agent_task_cancellations s2)) s2 in
  task_step s s3 ∧ cancel_accepted key s3.
Proof.
  intros Hs1 [c1 Hc1] [Hstep Htok Hcancels Hothers Hlate Hstopped] Hf s3.
  assert (agent_task_executions s1 = agent_task_executions s ∧
    consumer_deliveries s1 = consumer_deliveries s ∧ no_cancels s1 = no_cancels s ∧
    ∀ k, k ≠ key → agent_task_cancellations s1 !! k = agent_task_cancellations s !! k)
    as (Hexec & Hclaims & Hnc & Hcs).
  { destruct Hs1 as [->|[c ->]]; [done|]. split_and!; try done.
    intros k Hk. simpl. by rewrite lookup_insert_ne. }
  split; [split|].
  - assert (task_progress_rel s s1) as H1 by by apply keeps_task_progress.
    etrans; [exact H1|]. etrans; [apply Hstep|]. by apply keeps_task_progress.
  - intros Hok. apply tasks_ok_join.
    + apply (keeps_tasks_ok (no_cancels s2)); [done|]. apply Htok. rewrite Hnc. by apply tasks_ok_drop.
    + intros k c r. unfold s3. rewrite alter_cancel_lookup. case_decide as Hk.
      * subst k. rewrite Hcancels, Hc1. intros [= <-] Heff Hr. unfold effective_cancel in Heff.
        rewrite Hf in Heff. by apply Hstopped.
      * simpl. rewrite Hcancels, Hcs, Hothers, Hexec by done. apply (to_cancel s Hok k c r).
  - intros Hok. apply (claims_ok_same s2); [done|]. apply Hstep. by apply (claims_ok_same s).
  - intros Hok k c Hc Heff. unfold s3. rewrite alter_cancel_lookup, Hcancels. case_decide as Hk.
    + subst k. rewrite Hc1. exists (f c1). split; [done|]. unfold effective_cancel. rewrite Hf.
      intros Hst. destruct (Hlate Hst) as (r & Hr & Hn). rewrite Hexec in Hr.
      destruct Hn. by apply (to_cancel s Hok key c).
    + rewrite Hcs by done. eauto.
  - exists (f c1). split.
    { unfold s3. by rewrite alter_cancel_lookup, decide_True, Hcancels, Hc1. }
    unfold effective_cancel. rewrite Hf. exact Hstopped.
Qed.

Lemma apply_cancellation_run now fresh group_id owner claim_token senders s :
  wp (apply_agent_task_cancellation now fresh group_id owner claim_token senders)
     (λ res s', match res with
      | Ok item => task_step s s' ∧ cancel_accepted (cancel_key item) s' ∧
          agent_task_cancellations s' !! cancel_key item = Some (cancel_row item) ∧
          ∃ g o t packet hash reason,
            _consumer_id group_id "group ID" = Ok g ∧ _consumer_id owner "owner" = Ok o ∧
            _claim_token claim_token = Ok t ∧
            cancel_request s now fresh g o t senders =
              Ok (packet, cancel_key item, hash, reason)
      | Err _ => s' = s
      end) s.
Proof.
  unfold apply_agent_task_cancellation. do 3 (wp_step; wp_step; [|done]).
  rename a into g, a0 into o, a1 into t. apply wp_transaction.
  do 4 wp_step; [|done]. destruct a as [[[packet key] hash] reason].
  wp_step. eapply wp_mono; [apply record_cancel_run|].
  intros [[]|e] s1; [|done]. intros (Hc & _ & _ & Hs1). wp_step.
  eapply wp_mono; [apply cancel_execution_run|].
  intros res s2 (st & terminal & coop & -> & Hpost). cbv beta iota. unfold update_cancel, exec. do 2 wp_step.
  match goal with |- wp _ _ (set_agent_task_cancellations (alter ?f _ _) _) =>
    destruct (cancel_writes_run key st f s s1 s2 Hs1 Hc Hpost (λ _, eq_refl)) as [Hstep Hacc] end.
  wp_step. eapply wp_mono; [apply ack_claim_run|].
  intros res s4 ([Hstep4 _] & [= Hexec4 Hcancel4] & ->). do 2 wp_step; [done|]. do 4 wp_step; [|done].
  wp_step. match goal with H : of_option _ _ = _ |- _ => apply of_option_ok in H end.
  split_and!; [by etrans| |done|].
  - destruct Hacc as (c & Hck & Hrest). exists c. by rewrite Hcancel4, Hexec4.
  - exists g, o, t, packet, hash, reason. by split_and!.
Qed.

(** *** [settle_agent_task] *)

Lemma settlement_cases state st :
  settlement_of_string state = Some st → terminal_state st = true ∨ st = Executions.Retry.
Proof. unfold settlement_of_string. repeat case_match; intros [= <-]; auto. Qed.

(** The rows a settlement writes. *)
Definition outcome_row (now : Z) (st : Executions.state_t) (output : bytes) (error : string)
    (r : Executions.row) : Executions.row :=
  if bool_decide (st = Executions.Retry) then retry_execution now (slice (Z.to_nat 8192) error) r
  else settled_execution st now output (slice (Z.to_nat 8192) error) r.
Definition outcome_claim (now : Z) (st : Executions.state_t) (error : string) (retry_after : Z)
    (c : Claims.row) : Claims.row :=
  if bool_decide (st = Executions.Retry) then retry_row retry_after error c else acked_row now c.

Lemma settle_writes_run now key r g o t st output error retry_after s :
  agent_task_executions s !! key = Some r → execution_active r →
  (terminal_state st = true ∨ st = Executions.Retry) →
  (Executions.state r = Executions.Canceling → st = Executions.Canceled) →
  wp (settle_writes now key r g o t st output error retry_after) (λ res s',
    res = Ok (outcome_row now st output error r) ∧ task_step s s' ∧
    agent_task_executions s' =
      <[key := outcome_row now st output error r]> (agent_task_executions s) ∧
    consumer_deliveries s' =
      update_where (held_claim g o t) (outcome_claim now st error retry_after)
        (consumer_deliveries s)) s.
Proof.
  intros Hr Hact Hst Hcl. unfold settle_writes, put_execution, outcome_row, outcome_claim, exec.
  assert (terminal_state (Executions.state r) = false) as Hterm by (by destruct Hact as [E|E]; rewrite E).
  case_bool_decide as Hretry.
  - subst st. assert (Executions.state r = Executions.Working) as Hw
      by (destruct Hact as [E|E]; [done|by specialize (Hcl E)]).
    do 5 wp_step. split_and!; [done| |done|done].
    etrans; [|by refine (task_step_claims _ (retry_row retry_after error)
      (set_agent_task_executions _ s) _)].
    apply task_step_put; [|intros Hok; split_and!].
    + intros r'. rewrite Hr. intros [= <-]. apply exec_progress_active; simpl; (done || lia).
    + split; [|done]. by intros [E|E].
    + done.
    + intros c Hc Heff. destruct (to_cancel s Hok key c r Hc Heff Hr) as [E|E]; by rewrite Hw in E.
  - destruct Hst as [Hst|?]; [|done]. do 3 wp_step.
    eapply wp_mono; [apply ack_claim_run|].
    intros res s1 ([Hstep Hclaims] & [= Hexec Hcancels] & ->). cbv beta iota.
    assert (task_step s s1) as Hs1.
    { etrans; [|exact Hstep]. apply task_step_end; [|done|done|].
      2: { destruct Hact as [E|E]; [right|by left; apply Hcl].
        exists r. split; [done|]. by intros [E'|E']; rewrite E in E'. }
      intros r'. rewrite Hr. intros [= <-]. apply exec_progress_active; simpl; [done|done|auto|lia]. }
    rename Hexec into Hexec1. simpl in Hexec1.
    case_bool_decide as Hcanceled; unfold exec; wp_all.
    + split_and!; [done| |done|done]. etrans; [exact Hs1|].
      refine (task_step_alter_cancel key _ s1 _ _).
      * intros c Hc _ r'. rewrite Hexec1, lookup_insert_eq. intros [= <-]. by right.
      * intros c Heff. by case_bool_decide.
    + by split_and!.
Qed.

Lemma settle_commit_run now g o t x st output error retry_after s :
  (terminal_state st = true ∨ st = Executions.Retry) →
  wp (settle_commit now g o t x st output error retry_after) (λ res s',
    task_step s s' ∧
    match res with
    | Ok kr => ∃ r, agent_task_executions s !! kr.1 = Some r ∧ held_execution g o t x kr.1 r ∧
        (∃ k c, consumer_deliveries s !! k = Some c ∧ held_claim g o t k c) ∧
        (Executions.state r = Executions.Canceling → st = Executions.Canceled) ∧
        kr.2 = outcome_row now st output error r ∧
        agent_task_executions s' = <[kr.1 := kr.2]> (agent_task_executions s) ∧
        consumer_deliveries s' =
          update_where (held_claim g o t) (outcome_claim now st error retry_after)
            (consumer_deliveries s)
    | Err _ => s' = s
    end) s.
Proof.
  intros Hst. unfold settle_commit. apply wp_transaction. do 4 wp_step.
  destruct (head (select_where (held_execution g o t x) (agent_task_executions s)))
    as [[key r]|] eqn:He; [|wp_step; by split; [reflexivity|]].
  destruct (head (select_where (held_claim g o t) (consumer_deliveries s)))
    as [[k c]|] eqn:Hc; [|wp_step; by split; [reflexivity|]].
  apply head_Some_elem_of, elem_of_select_where in He as [Hr Hheld].
  apply head_Some_elem_of, elem_of_select_where in Hc as [Hc Hclaim].
  do 2 wp_step; [by split; [reflexivity|]|]. wp_step. simpl.
  assert (Executions.state r = Executions.Canceling → st = Executions.Canceled) as Hcl.
  { intros E. match goal with H : _ && _ = false |- _ => simpl in H; rewrite E in H end.
    simpl in *. by bool_prop. }
  pose proof Hheld as (_ & _ & _ & _ & Hact).
  eapply wp_mono; [by apply settle_writes_run|].
  intros res s1 (-> & Hstep & Hexec & Hclaims). wp_step. split; [done|].
  exists r. split_and!; eauto.
Qed.

Lemma settle_agent_task_step now g o t x state output error retry :
  steps task_step (settle_agent_task now g o t x state output error retry).
Proof.
  unfold settle_agent_task. steps_all. intros s'.
  match goal with H : of_option _ _ = Ok _ |- _ => apply of_option_ok, settlement_cases in H end.
  eapply wp_mono; [by apply settle_commit_run|]. by intros r s'' [Hs _].
Qed.
Lemma apply_cancellation_step now fresh g o t senders :
  steps task_step (apply_agent_task_cancellation now fresh g o t senders).
Proof.
  intros s. eapply wp_mono; [apply apply_cancellation_run|].
  intros [item|e] s'; [by intros [Hs _]|by intros ->].
Qed.
End task_lemmas.

(** ** Properties *)

Section task_theorems.
Context {PL : Platform}.

(** What [begin_agent_task] demands of the message behind the claim. *)
Record authorized_request (s : db) (now : Z) (fresh g o t : string) (senders policy : list string)
    (key : task_key) (hash : string) (packet sender : string) (normalized : dict) : Prop := {
  ar_message : ∃ i body, claimed_message s now g o t = Some (packet, i) ∧
    Inbox.trusted i = true ∧ Inbox.kind i = "agent.task.request" ∧
    Inbox.sender_id i = sender ∧ unpack (Inbox.body i) = Ok body ∧
    validate_task_message fresh "agent.task.request" body = Ok normalized;
  ar_sender : sender_allowed senders sender = true;
  ar_capabilities : missing_task_capabilities (dict_get "required_capabilities" normalized)
    (VStr <$> policy) = Ok [];
  ar_hash : body_hash "anettsk1" normalized = Ok hash;
  ar_key : key = (g, sender, get_text "task_id" normalized);
}.

Lemma begin_request_authorized s now fresh g o t senders policy packet key hash :
  begin_request s now fresh g o t senders policy = Ok (packet, key, hash) →
  ∃ sender normalized,
    authorized_request s now fresh g o t senders policy key hash packet sender normalized.
Proof.
  unfold begin_request, claimed_task. intros H.
  apply res_bind_ok in H as ([[packet' sender] normalized] & Hclaim & H).
  apply res_bind_ok in Hclaim as ([packet'' i] & Hi & Hclaim). res_inv. simplify_eq. bool_prop.
  exists (Inbox.sender_id i), normalized.
  match goal with H : Inbox.kind i = _ |- _ => pose proof H as Hkind; rewrite H in * end.
  split; [eauto 10|done| |done|done]. by replace x0 with (@nil string) in * by (symmetry; by apply dec_stable).
Qed.

Lemma item_key key row item : item_after_commit key row = Ok item → task_key_of item = key.
Proof.
  unfold item_after_commit, _agent_task_item. case_match eqn:E; [|done]. intros [= ->].
  res_inv. by subst.
Qed.
Lemma may_start_no_cancel s now o t key :
  tasks_ok s → may_start s now o t key → cancellation_of s key = None.
Proof.
  intros Hok Hmay. unfold may_start in Hmay.
  destruct (agent_task_executions s !! key) as [r|] eqn:Hr; [|done].
  destruct Hmay as [[_ ?]|[Hst _]]; [done|].
  unfold cancellation_of. destruct (agent_task_cancellations s !! key) as [c|] eqn:Hc; [|done].
  simpl. case_guard as Heff; [|done].
  destruct (to_cancel s Hok key c r Hc Heff Hr) as [E|E]; by rewrite Hst in E.
Qed.

(** Nothing that an accepted cancellation reached is executed. *)
Lemma begin_no_cancel now fresh token group_id owner claim_token senders caps s item flags s' :
  tasks_ok s → token ≠ "" →
  begin_agent_task now fresh token group_id owner claim_token senders caps s =
    (Ok (item, flags), s') →
  execute flags = true → cancellation_of s (task_key_of item) = None.
Proof.
  intros Hok Htok Hrun Hexec. unfold begin_agent_task in Hrun. st_inv.
  match goal with H : begin_commit _ _ _ ?g ?o ?t _ ?p _ = (Ok ?r, ?s1) |- _ =>
    pose proof (begin_commit_run now fresh token g o t senders p s Htok) as Hpost;
    unfold wp in Hpost; rewrite H in Hpost end.
  simpl in Hpost. destruct Hpost as (packet & hash & _ & _ & _ & _ & Hexe).
  match goal with H : item_after_commit _ _ = Ok _ |- _ => rewrite (item_key _ _ _ H) end.
  destruct (Hexe Hexec) as (_ & _ & _ & _ & Hmay). by eapply may_start_no_cancel.
Qed.

(** C3: a claimant is told to execute only for a trusted request from an allowed
    sender whose capabilities the policy grants, when the task is new, due for a
    retry, its own, or held under a lapsed lease, and no cancellation of it was
    accepted; the task is then stored as working under this claim and the
    returned execution token, with the hash of this request. *)
Theorem begin_agent_task_authorized now fresh token group_id owner claim_token senders caps s
    item flags s' :
  tasks_ok s → token ≠ "" →
  begin_agent_task now fresh token group_id owner claim_token senders caps s =
    (Ok (item, flags), s') →
  execute flags = true →
  ∃ g o t policy hash packet sender normalized row,
    _consumer_id group_id "group ID" = Ok g ∧ _consumer_id owner "owner" = Ok o ∧
    _claim_token claim_token = Ok t ∧
    normalize_capability_policy (VStr <$> caps) = Ok policy ∧
    authorized_request s now fresh g o t senders policy (task_key_of item) hash packet sender
      normalized ∧
    may_start s now o t (task_key_of item) ∧ cancellation_of s (task_key_of item) = None ∧
    agent_task_executions s' !! task_key_of item = Some row ∧
    Executions.request_hash row = hash ∧ Executions.state row = Executions.Working ∧
    Executions.owner row = o ∧ Executions.claim_token row = t ∧
    Executions.execution_token row = execution_token flags.
Proof.
  intros Hok Htok Hrun Hexec. unfold begin_agent_task in Hrun. st_inv.
  match goal with H : begin_commit _ _ _ ?g ?o ?t _ ?p _ = (Ok ?r, ?s1) |- _ =>
    rename g into g', o into o', t into t', p into policy; rename H into Hcommit; rename r into r' end.
  pose proof (begin_commit_run now fresh token g' o' t' senders policy s Htok) as Hpost.
  unfold wp in Hpost. rewrite Hcommit in Hpost. simpl in Hpost.
  destruct Hpost as (packet & hash & Hreq & _ & Hrow & Hhash & Hexe).
  destruct (begin_request_authorized _ _ _ _ _ _ _ _ _ _ _ Hreq) as (sender & normalized & Hauth).
  pose proof (item_key _ _ _ E4) as ->.
  destruct (Hexe Hexec) as (Hst & Ho & Ht & Hx & Hmay).
  exists g', o', t', policy, hash, packet, sender, normalized, r'.1.2.
  split_and!; try done. by eapply may_start_no_cancel.
Qed.

(** A settlement that took effect: the execution [r] under [key] was held by this
    claim and token, and exactly its row and its claim changed. *)
Record settlement (s : db) (now : Z) (g o t x : string) (st : Executions.state_t)
    (packed : bytes) (error : string) (retry_after : Z) (key : task_key) (r : Executions.row)
    (s' : db) : Prop := {
  st_error : (st = Executions.Completed → error = "") ∧
    (terminal_state st = true → st ≠ Executions.Completed → error ≠ "");
  st_row : agent_task_executions s !! key = Some r;
  st_held : held_execution g o t x key r;
  st_only : ∀ k r', agent_task_executions s !! k = Some r' → held_execution g o t x k r' → k = key;
  st_claim : ∃ k c, consumer_deliveries s !! k = Some c ∧ held_claim g o t k c;
  st_canceling : Executions.state r = Executions.Canceling → st = Executions.Canceled;
  st_executions : agent_task_executions s' =
    <[key := outcome_row now st packed error r]> (agent_task_executions s);
  st_claims : consumer_deliveries s' =
    update_where (held_claim g o t) (outcome_claim now st error retry_after) (consumer_deliveries s);
}.

Lemma held_execution_unique s g o t x k k' r r' :
  tasks_ok s → agent_task_executions s !! k = Some r → agent_task_executions s !! k' = Some r' →
  held_execution g o t x k r → held_execution g o t x k' r' → k' = k.
Proof.
  intros Hok Hr Hr' (_ & _ & _ & Hx & Hact) (_ & _ & _ & Hx' & _).
  apply (to_unique s Hok k' k r' r); [done|done| |congruence].
  rewrite Hx', <- Hx. by apply (to_token s Hok k r).
Qed.

Definition settlement_effect (now : Z) (group_id owner claim_token token state : string)
    (output : value) (error : string) (retry : Q) (s s' : db) : Prop :=
  ∃ g o t x st packed key r,
    _consumer_id group_id "group ID" = Ok g ∧ _consumer_id owner "owner" = Ok o ∧
    _claim_token claim_token = Ok t ∧ _claim_token token = Ok x ∧
    settlement_of_string (lower (strip state)) = Some st ∧ pack output = Ok packed ∧
    settlement s now g o t x st packed (strip error) (now + retry_ms retry) key r s'.

(** A settlement succeeds only for the current claim and execution token of an
    active execution whose claim is leased, and for a task under cancellation
    only as canceled; it then stores the outcome and settles the claim in one
    transaction.  Any other settlement changes nothing (an [OperationalError]
    can only come from reading the stored output back after the commit). *)
Theorem settle_agent_task_fenced now group_id owner claim_token token state output error retry s :
  tasks_ok s →
  wp (settle_agent_task now group_id owner claim_token token state output error retry)
    (λ result s',
      let effect := settlement_effect now group_id owner claim_token token state output error retry
                      s s' in
      match result with
      | Ok _ => effect
      | Err e => s' = s ∨ (e = OperationalError ∧ effect)
      end) s.
Proof.
  intros Hok. unfold settle_agent_task.
  do 4 (wp_step; wp_step; [|by left]). rename a into g, a0 into o, a1 into t, a2 into x.
  wp_step. wp_step; [|by left]. match goal with H : of_option _ _ = Ok ?a |- _ =>
    apply of_option_ok in H; rename H into Hst; rename a into st end.
  do 3 (wp_step; wp_step; [by left|]). wp_step. wp_step; [|by left].
  wp_step. wp_step; [by left|]. wp_step.
  eapply wp_mono; [by apply settle_commit_run; eapply settlement_cases|].
  intros res s' [_ Hpost]. destruct res as [kr|e]; [|by left].
  destruct Hpost as (r & Hr & Hheld & Hclaim & Hcl & Hrow & Hexec & Hclaims).
  assert (settlement_effect now group_id owner claim_token token state output error retry s s')
    as Heffect.
  { do 8 eexists. do 6 (split; [eassumption|]).
    split; [split|eassumption|eassumption| |eassumption|eassumption|by rewrite Hexec, Hrow|eassumption].
    - intros ->. by destruct (String.eqb_spec (strip error) "").
    - intros Hterm Hne He. rewrite Hterm, He, bool_decide_false in * by done. done.
    - intros k r' Hk Hh. by eapply held_execution_unique. }
  wp_step. wp_step; [by wp_step|].
  right. split; [|done].
  match goal with H : item_after_commit _ _ = Err _ |- _ => unfold item_after_commit in H end.
  by destruct (_agent_task_item _ _); simplify_eq.
Qed.
End task_theorems.

(** ** Witnesses: one request received, claimed, started and settled *)

Definition sample_task : string := "0123456789abcdef0123456789abcdef".
Definition sample_token : string := "aaaaaaaaaaaaaaaaaaaaaaaaaaaaaaaa".
Definition sample_execution : string := "bbbbbbbbbbbbbbbbbbbbbbbbbbbbbbbb".
Definition sample_sender : string := "an1aaaaaaaaaaaaaaaaaaaa".
Definition request_body (task_id : dict) : value :=
  VMap ([field "protocol" (VStr AGENT_PROTOCOL); field "version" (VInt 1);
         field "objective" (VStr "read"); field "required_capabilities" (VList [VStr "fs.read"])]
        ++ task_id).
Definition sample_request : value := request_body [field "task_id" (VStr sample_task)].
(** A request that names no task. *)
Definition anonymous_request : value := request_body [].
Definition sample_cancel : value :=
  VMap [field "protocol" (VStr AGENT_PROTOCOL); field "version" (VInt 1);
        field "task_id" (VStr sample_task); field "reason" (VStr "stop")].
Definition task_platform : Platform :=
  sample_platform ((λ v, (@py_repr sample_float v, v)) <$>
    [sample_request; anonymous_request; sample_cancel; VList []; VNone]).
Definition sample_message (packet kind : string) (body : value) : OpenedMessage := {|
  msg_packet_id := packet; msg_sender_id := sample_sender; msg_sender_sign_public := "";
  msg_sender_box_public := ""; msg_kind := kind; msg_created_ms := 1000; msg_body := body;
  msg_causal := []; msg_codec := "json"; msg_reply_to := ""; msg_qos := Normal;
  msg_key_mode := "static"; msg_prekey_id := "" |}.

(** The database after receiving [messages] and one claim of a batch by "w1". *)
Definition claimed_db (messages : list OpenedMessage) : db :=
  let s := foldl (λ s m, (@add_inbox task_platform 1000 m true true s).2) empty_db messages in
  let s := (open_consumer_group 1000 "workers" "earliest" "" "" true false s).2 in
  (@claim_consumer_messages task_platform 2000
     (λ n, match n with O => sample_token | _ => "cccccccccccccccccccccccccccccccc" end)
     "workers" "w1" 2 60 s).2.
Definition request_db : db := claimed_db [sample_message "p1" "agent.task.request" sample_request].
Definition sample_begin (fresh : string) (s : db) : res (task_item * begin_flags) * db :=
  @begin_agent_task task_platform 3000 fresh sample_execution "workers" "w1" sample_token
    [sample_sender] ["fs.*"] s.
Definition started_db : db := (sample_begin "" request_db).2.

Lemma tasks_ok_no_executions s : agent_task_executions s = ∅ → tasks_ok s.
Proof. intros E. split; rewrite E; intros; by rewrite lookup_empty in *. Qed.
Lemma started_ok : tasks_ok started_db.
Proof.
  assert (tasks_ok request_db) as Hok by (apply tasks_ok_no_executions; by vm_compute).
  unfold started_db, sample_begin. revert Hok. generalize request_db. intros s Hok.
  pose proof (begin_agent_task_step (PL := task_platform) 3000 "" sample_execution
    "workers" "w1" sample_token [sample_sender] ["fs.*"] ltac:(discriminate) s) as [_ H _ _].
  exact (H Hok).
Qed.

Lemma begin_agent_task_authorized_witness :
  ∃ item flags, (sample_begin "" request_db).1 = Ok (item, flags) ∧ execute flags = true ∧
    ∃ row, agent_task_executions started_db !! task_key_of item = Some row ∧
      Executions.state row = Executions.Working.
Proof.
  assert (tasks_ok request_db) as Hok by (apply tasks_ok_no_executions; by vm_compute).
  assert (∃ item flags, (sample_begin "" request_db).1 = Ok (item, flags) ∧ execute flags = true)
    as (item & flags & Hrun & Hx) by (do 2 eexists; split; by vm_compute).
  exists item, flags. split; [exact Hrun|]. split; [exact Hx|].
  assert (sample_begin "" request_db = (Ok (item, flags), started_db)) as E.
  { unfold started_db. rewrite <- Hrun. apply surjective_pairing. }
  unfold sample_begin in E.
  pose proof (@begin_agent_task_authorized task_platform 3000 "" sample_execution "workers" "w1"
    sample_token [sample_sender] ["fs.*"] request_db item flags started_db Hok
    ltac:(discriminate) E Hx) as
    (g & o & t & policy & hash & packet & sender & normalized & row & H).
  exists row. destruct H as (_ & _ & _ & _ & _ & _ & _ & Hrow & _ & Hst & _). by split.
Defined.

Lemma settle_agent_task_fenced_witness :
  tasks_ok started_db ∧
  settlement_effect (PL := task_platform) 4000 "workers" "w1" sample_token sample_execution
    "completed" VNone "" 0 started_db
    (@settle_agent_task task_platform 4000 "workers" "w1" sample_token sample_execution
       "completed" VNone "" 0 started_db).2.
Proof.
  split; [apply started_ok|].
  pose proof (@settle_agent_task_fenced task_platform 4000 "workers" "w1" sample_token
    sample_execution "completed" VNone "" 0 started_db started_ok) as H.
  assert (match (@settle_agent_task task_platform 4000 "workers" "w1" sample_token sample_execution
    "completed" VNone "" 0 started_db).1 with Ok _ => true | Err _ => false end = true) as Hx
    by (vm_compute; reflexivity).
  unfold wp in H. revert H Hx.
  generalize (@settle_agent_task task_platform 4000 "workers" "w1" sample_token sample_execution
    "completed" VNone "" 0 started_db).
  intros [[y|e] s'] H Hx; [exact H|discriminate Hx].
Defined.

(** A request without a task id is given a new one each time it is validated, so
    the same claim starts the same request again as another task, while the first
    execution is still working under its lease: for such a request the claim is
    not idempotent. *)
Definition anonymous_db : db :=
  claimed_db [sample_message "p1" "agent.task.request" anonymous_request].
Definition first_fresh : string := "11111111111111111111111111111111".
Definition second_fresh : string := "22222222222222222222222222222222".
(** A request without a task id is started twice under one live claim, as two
    tasks, while the first execution is still working. *)
Theorem anonymous_request_runs_twice :
  let '(r1, s1) := @begin_agent_task task_platform 3000 first_fresh sample_execution "workers"
    "w1" sample_token [sample_sender] ["fs.*"] anonymous_db in
  let '(r2, s2) := @begin_agent_task task_platform 3001 second_fresh
    "dddddddddddddddddddddddddddddddd" "workers" "w1" sample_token [sample_sender] ["fs.*"] s1 in
  match r1, r2 with
  | Ok (item1, flags1), Ok (item2, flags2) =>
      execute flags1 = true ∧ execute flags2 = true ∧ duplicate flags2 = false ∧
      task_request_packet_id item1 = task_request_packet_id item2 ∧
      bool_decide (task_key_of item1 = task_key_of item2) = false ∧
      Executions.state <$> agent_task_executions s2 !! task_key_of item1 =
        Some Executions.Working
  | _, _ => False
  end.
Proof. vm_compute. by split_and!. Qed.
