(* ===== verification/Approvals.v ===== *)
(** Companion approvals in [PacketStore] (src/anet/store.py): registering the
    request, activating the decision a device sent, and running the approved effect
    under a lease, a bounded number of times.  The control plane, which knows the
    devices of a human, is an interface ([ApprovalGrants]). *)
From S2P Require Import Prelude PyStr PyVal Schema Packet Queue Consumers Tasks Companion.

(** [ControlPlaneStore] as [_require_approval_grant] uses it: whether a device is
    revoked, and the capabilities of its current grant. *)
Class ApprovalGrants := {
  is_human_device_revoked : string → string → res bool;
  human_device_grant : string → string → Z → res (option (list string));
}.

Definition _companion_approval_id (value label : string) : res string :=
  let normalized := lower (strip value) in
  raise_if (negb (fullmatch_hex 32 normalized))
    (ValueError (label +:+ " must be 32 lowercase hexadecimal characters"));;
  mret normalized.

(** A value bound to a TEXT column; an integer of 32 digits does not fit. *)
Definition sql_text (v : value) : res string :=
  match v with VStr s => Ok s | _ => Err int_too_large end.

Section approvals.
Context {PL : Platform} {AG : ApprovalGrants}.

Definition _companion_approval_hash (value : dict) : res string :=
  packed ← canonical_pack (VMap value);
  mret (sha256_hexdigest packed).

Definition _require_approval_grant (human_id device_node_id : string) (current : Z) : res unit :=
  revoked ← is_human_device_revoked human_id device_node_id;
  raise_if (revoked : bool) (PermissionError "approval device is revoked");;
  grant ← match human_device_grant human_id device_node_id current with
          | Err (ValueError _) => Err (PermissionError "approval device grant is not current")
          | r => r
          end;
  capabilities ← of_option (PermissionError "approval device has no current grant") grant;
  raise_if (negb (bool_decide ("approval.sign" ∈ capabilities)))
    (PermissionError "approval device grant lacks approval.sign").

(** ** Requests *)

Record registration := Registration {
  reg_request_id : string;
  registered : bool;
  reg_request_hash : string;
}.
(** The INSERT under UNIQUE(human_id, device_node_id, nonce) *)
Definition insert_request (request_id : string) (row : ApprovalRequests.row) : M unit :=
  taken ← gets (λ s, count_where (λ _ r,
    ApprovalRequests.human_id r = ApprovalRequests.human_id row ∧
    ApprovalRequests.device_node_id r = ApprovalRequests.device_node_id row ∧
    ApprovalRequests.nonce r = ApprovalRequests.nonce row) (companion_approval_requests s));
  lift (raise_if (negb (taken =? 0)) IntegrityError);;
  exec companion_approval_requests set_companion_approval_requests (insert request_id row).

Definition register_companion_approval_request (current : Z) (request_body : value)
    : M registration :=
  normalized ← lift (_validate_approval_request request_body);
  lift (raise_if (current + MAX_CLOCK_SKEW_MS <? get_int "created_ms" normalized)
    (ValueError "approval request creation time is too far in the future"));;
  lift (raise_if (get_int "expires_ms" normalized <=? current)
    (ValueError "approval request expired"));;
  request_hash ← lift (_companion_approval_hash normalized);
  encoded ← lift (pack (VMap normalized));
  transaction (
    request_id ← lift (sql_text (dict_get "request_id" normalized));
    existing ← gets (λ s, companion_approval_requests s !! request_id);
    match existing with
    | Some r =>
        lift (raise_if (negb (String.eqb (ApprovalRequests.request_hash r) request_hash))
          (ValueError "approval request ID conflicts with another body"));;
        mret (Registration request_id false request_hash)
    | None =>
        on_integrity_error (ValueError "approval nonce is already bound to another request")
          (insert_request request_id
            (ApprovalRequests.Row (get_text "human_id" normalized)
              (get_text "device_node_id" normalized) (get_text "nonce" normalized) request_hash
              encoded (get_int "created_ms" normalized) (get_int "expires_ms" normalized) current));;
        mret (Registration request_id true request_hash)
    end).

(** ** Decisions *)

Definition get_dict (k : string) (d : dict) : dict :=
  match dict_get k d with VMap e => e | _ => [] end.

(** What the checks of [activate_companion_approval] carry over to its transaction. *)
Record activation := Activation {
  act_group : string;
  act_owner : string;
  act_claim_token : string;
  act_decision : dict;
  act_sender_id : string;
  act_decision_hash : string;
  act_request_hash : string;
}.

(** The first half: nothing is written, and the lock is released between its
    queries and the transaction.  The index on claim tokens allows one row per
    token, so the lease test that follows the first query is part of it. *)
Definition activation_check (s : db) (current : Z) (group_id owner claim_token : string)
    : res activation :=
  group_id ← _consumer_id group_id "group ID";
  owner ← _consumer_id owner "owner";
  claim_token ← _claim_token claim_token;
  claim ← of_option (ValueError "approval claim is stale, expired, or unknown")
            (claimed_message s current group_id owner claim_token);
  let i := claim.2 in
  raise_if (negb (Inbox.trusted i))
    (PermissionError "approval decision requires a trusted sender");;
  raise_if (negb (String.eqb (Inbox.kind i) APPROVAL_DECISION_KIND))
    (ValueError "claim does not contain an ApprovalDecision");;
  body ← unpack (Inbox.body i);
  decision ← _validate_approval_decision body;
  let sender_id := Inbox.sender_id i in
  raise_if (negb (is_text (dict_get "device_node_id" decision) sender_id))
    (PermissionError "approval decision device does not match Packet sender");;
  raise_if (get_int "expires_ms" decision <=? current)
    (ValueError "approval decision expired");;
  request_row ← of_option (PermissionError "approval decision has no local request")
    (companion_approval_requests s !! get_text "request_id" decision);
  request_body ← unpack (ApprovalRequests.request_body request_row);
  request ← _validate_approval_request request_body;
  validate_approval_decision_binding (VMap request) (VMap decision);;
  raise_if (get_int "grant_expires_ms" (get_dict "scope" decision) <=? current)
    (ValueError "approval grant scope expired");;
  _require_approval_grant (get_text "human_id" decision) (get_text "device_node_id" decision)
    current;;
  decision_hash ← _companion_approval_hash decision;
  mret (Activation group_id owner claim_token decision sender_id decision_hash
          (ApprovalRequests.request_hash request_row)).

Definition approved (decision : dict) : bool := String.eqb (get_text "decision" decision) "approved".
Definition decided_uses (decision : dict) : Z :=
  if approved decision then get_int "max_uses" (get_dict "scope" decision) else 0.
Definition authorization_row (current : Z) (a : activation) (decision_id packet_id : string)
    : Approvals.row :=
  let d := act_decision a in
  Approvals.Row decision_id packet_id (act_decision_hash a) (act_sender_id a)
    (get_text "human_id" d) (get_text "device_node_id" d) (get_text "nonce" d)
    (get_text "decision" d) (if approved d then Approvals.Active else Approvals.Rejected)
    (decided_uses d) (get_int "grant_expires_ms" (get_dict "scope" d)) current.
(** The INSERT under UNIQUE(decision_id) and the index on the nonce *)
Definition insert_authorization (request_id : string) (row : Approvals.row) : M unit :=
  taken ← gets (λ s, count_where (λ _ r,
    Approvals.decision_id r = Approvals.decision_id row ∨
    (Approvals.human_id r = Approvals.human_id row ∧
     Approvals.device_node_id r = Approvals.device_node_id row ∧
     Approvals.nonce r = Approvals.nonce row)) (companion_approval_authorizations s));
  lift (raise_if (negb (taken =? 0)) IntegrityError);;
  exec companion_approval_authorizations set_companion_approval_authorizations
    (insert request_id row).

Record activated := Activated {
  actd_request_id : string;
  actd_state : Approvals.state_t;
  actd_activated : bool;
  actd_max_uses : Z;
  actd_grant_expires_ms : Z;
}.

(** The checks the transaction repeats on the claim and the request. *)
Definition activation_recheck (s : db) (current : Z) (a : activation) : res string :=
  let changed := ValueError "approval claim changed before activation" in
  claim ← of_option changed
    (claimed_message s current (act_group a) (act_owner a) (act_claim_token a));
  body ← unpack (Inbox.body claim.2);
  live_decision ← _validate_approval_decision body;
  raise_if (negb (String.eqb (Inbox.sender_id claim.2) (act_sender_id a))) changed;;
  live_hash ← _companion_approval_hash live_decision;
  raise_if (negb (String.eqb live_hash (act_decision_hash a))) changed;;
  live_request ← of_option (ValueError "approval request changed before activation")
    (companion_approval_requests s !! get_text "request_id" (act_decision a));
  raise_if (negb (String.eqb (ApprovalRequests.request_hash live_request) (act_request_hash a)))
    (ValueError "approval request changed before activation");;
  mret claim.1.

(** The second half of [activate_companion_approval]. *)
Definition activation_commit (current : Z) (a : activation) : M activated :=
  let decision := act_decision a in
  let request_id := get_text "request_id" decision in
  transaction (
    check ← gets (λ s, activation_recheck s current a);
    packet_id ← lift check;
    existing ← gets (λ s, companion_approval_authorizations s !! request_id);
    match existing with
    | Some r =>
        lift (raise_if
          (negb (String.eqb (Approvals.decision_hash r) (act_decision_hash a)) ||
           negb (String.eqb (Approvals.sender_node_id r) (act_sender_id a)))
          (ValueError "approval request already has another decision"))
    | None =>
        decision_id ← lift (sql_text (dict_get "decision_id" decision));
        on_integrity_error (ValueError "approval decision or nonce is already consumed")
          (insert_authorization request_id (authorization_row current a decision_id packet_id))
    end;;
    rowcount ← ack_claim current (act_group a) (act_owner a) (act_claim_token a);
    lift (raise_if (negb (rowcount =? 1))
      (ValueError "approval claim changed before acknowledgement"));;
    mret (Activated request_id (if approved decision then Approvals.Active else Approvals.Rejected)
            (bool_decide (existing = None)) (decided_uses decision)
            (get_int "grant_expires_ms" (get_dict "scope" decision)))).

Definition activate_companion_approval (current : Z) (group_id owner claim_token : string)
    : M activated :=
  check ← gets (λ s, activation_check s current group_id owner claim_token);
  a ← lift check;
  activation_commit current a.

(** ** Effects *)

Record effect_item := EffectItem {
  eff_key : string * string;
  eff_row : Effects.row;
  eff_result : value;
  eff_execution_token : string;
  eff_acquired : bool;
}.
(** [_companion_effect_item]; it runs after COMMIT, where the handler of an
    exception fails to roll back. *)
Definition _companion_effect_item (key : string * string) (row : Effects.row)
    (token : string) (acquired : bool) : res effect_item :=
  result ← match Effects.result row with None => mret VNone | Some raw => unpack raw end;
  mret (EffectItem key row result token acquired).
Definition effect_item_after_commit (key : string * string) (row : Effects.row)
    (token : string) (acquired : bool) : res effect_item :=
  match _companion_effect_item key row token acquired with
  | Ok item => Ok item
  | Err _ => Err OperationalError
  end.

(** A write of one effect under UNIQUE(effect_idempotency_key) and the partial
    index on execution tokens. *)
Definition put_effect (key : string * string) (row : Effects.row) : M unit :=
  taken ← gets (λ s, count_where (λ k r, k ≠ key ∧
      (Effects.effect_idempotency_key r = Effects.effect_idempotency_key row ∨
       (Effects.execution_token r ≠ "" ∧
        Effects.execution_token r = Effects.execution_token row)))
    (companion_approval_effects s));
  lift (raise_if (negb (taken =? 0)) IntegrityError);;
  exec companion_approval_effects set_companion_approval_effects (insert key row).

Definition restarted_effect (current lease : Z) (owner token : string) (r : Effects.row)
    : Effects.row :=
  Effects.Row (Effects.effect_idempotency_key r) Effects.Working owner token (current + lease) 0
    (Effects.attempts r + 1) (Effects.started_ms r) current (Effects.completed_ms r)
    (Effects.result r) "".
Definition new_effect (current lease : Z) (owner token effect_key : string) : Effects.row :=
  Effects.Row effect_key Effects.Working owner token (current + lease) 0 1 current current 0 None "".

(** [WHERE request_id = ? AND state IN ('working', 'retry', 'executed')] *)
Definition reserved_use (request_id : string) (k : string * string) (r : Effects.row) : Prop :=
  k.1 = request_id ∧ Effects.state r ≠ Effects.Rejected.
#[global] Instance reserved_use_dec i k r : Decision (reserved_use i k r).
Proof. unfold reserved_use. apply _. Defined.

(** The authorization both halves of [begin_companion_approval_effect] demand. *)
Definition active_authorization (s : db) (request_id : string) : option Approvals.row :=
  a ← companion_approval_authorizations s !! request_id;
  guard (Approvals.state a = Approvals.Active);; Some a.

Definition effect_check (s : db) (current : Z) (request_id effect_id : string) : res string :=
  a ← of_option (PermissionError "approval request is not active")
        (active_authorization s request_id);
  raise_if (Approvals.grant_expires_ms a <=? current)
    (PermissionError "approval authorization expired");;
  _require_approval_grant (Approvals.human_id a) (Approvals.device_node_id a) current;;
  packed ← canonical_pack (VList [VStr "anet.companion.approval-effect.v1"; VStr request_id;
                                  VStr effect_id]);
  mret (sha256_hexdigest packed).

(** The decision on a stored effect: the row to return, its token and whether a
    new lease was acquired. *)
Definition resume_effect (current lease : Z) (owner token : string) (key : string * string)
    (r : Effects.row) : M (Effects.row * string * bool) :=
  let restart :=
    let row := restarted_effect current lease owner token r in
    put_effect key row;; mret (row, token, true) in
  match Effects.state r with
  | Effects.Executed | Effects.Rejected => mret (r, "", false)
  | Effects.Working =>
      if current <? Effects.lease_until_ms r then
        lift (raise_if (negb (String.eqb (Effects.owner r) owner))
          (ValueError "approval effect is leased by another worker"));;
        mret (r, Effects.execution_token r, false)
      else restart
  | Effects.Retry =>
      lift (raise_if (current <? Effects.retry_after_ms r)
        (ValueError "approval effect retry is not due"));;
      restart
  end.

(** The transaction of [begin_companion_approval_effect]; [token] is
    [secrets.token_hex(16)]. *)
Definition effect_commit (current lease : Z) (token owner effect_key : string)
    (key : string * string) : M (Effects.row * string * bool) :=
  transaction (
    authorization ← gets (λ s, active_authorization s key.1);
    a ← lift (of_option (PermissionError "approval authorization expired") authorization);
    lift (raise_if (Approvals.grant_expires_ms a <=? current)
      (PermissionError "approval authorization expired"));;
    existing ← gets (λ s, companion_approval_effects s !! key);
    match existing with
    | Some r => resume_effect current lease owner token key r
    | None =>
        reserved ← gets (λ s, count_where (reserved_use key.1) (companion_approval_effects s));
        lift (raise_if (Approvals.max_uses a <=? reserved)
          (PermissionError "approval use limit exhausted"));;
        let row := new_effect current lease owner token effect_key in
        put_effect key row;;
        mret (row, token, true)
    end).

Definition begin_companion_approval_effect (current : Z) (token request_id effect_id owner : string)
    (lease_seconds : Q) : M effect_item :=
  request_id ← lift (_companion_approval_id request_id "request_id");
  effect_id ← lift (_companion_approval_id effect_id "effect_id");
  owner ← lift (_consumer_id owner "owner");
  check ← gets (λ s, effect_check s current request_id effect_id);
  effect_key ← lift check;
  r ← effect_commit current (lease_ms lease_seconds) token owner effect_key (request_id, effect_id);
  lift (effect_item_after_commit (request_id, effect_id) r.1.1 r.1.2 r.2).

(** [outcome in {"executed", "retry", "rejected"}] *)
Definition outcome_of_string (outcome : string) : option Effects.state_t :=
  if String.eqb outcome "executed" then Some Effects.Executed
  else if String.eqb outcome "retry" then Some Effects.Retry
  else if String.eqb outcome "rejected" then Some Effects.Rejected else None.
(** The three UPDATEs of [settle_companion_approval_effect]. *)
Definition settled_effect (outcome : Effects.state_t) (current retry_after : Z)
    (result : option bytes) (error : string) (r : Effects.row) : Effects.row :=
  let settle := λ retry completed result error,
    Effects.Row (Effects.effect_idempotency_key r) outcome "" "" 0 retry (Effects.attempts r)
      (Effects.started_ms r) current completed result error in
  match outcome with
  | Effects.Executed => settle 0 current result ""
  | Effects.Retry => settle retry_after (Effects.completed_ms r) None (slice 1000 error)
  | _ => settle 0 current None (slice 1000 error)
  end.

Definition settle_effect_commit (current retry_after : Z) (key : string * string) (token : string)
    (outcome : Effects.state_t) (result : option bytes) (error : string) : M Effects.row :=
  transaction (
    row ← gets (λ s, companion_approval_effects s !! key);
    match row with
    | Some r =>
        lift (raise_if (negb (String.eqb (Effects.execution_token r) token &&
                              bool_decide (Effects.state r = Effects.Working)))
          (ValueError "approval execution token is stale or fenced"));;
        let row := settled_effect outcome current retry_after result error r in
        exec companion_approval_effects set_companion_approval_effects (insert key row);;
        mret row
    | None => mthrow (ValueError "approval execution token is stale or fenced")
    end).

(** [result] is [None] in Python for [VNone]. *)
Definition settle_companion_approval_effect (current : Z)
    (request_id effect_id token outcome : string) (result : value) (error : string)
    (retry_seconds : Q) : M effect_item :=
  request_id ← lift (_companion_approval_id request_id "request_id");
  effect_id ← lift (_companion_approval_id effect_id "effect_id");
  token ← lift (_claim_token token);
  outcome ← lift (of_option (ValueError "invalid approval effect outcome")
    (outcome_of_string (lower (strip outcome))));
  let error := strip error in
  lift (raise_if (bool_decide (outcome = Effects.Executed) && negb (String.eqb error ""))
    (ValueError "executed approval effect cannot contain an error"));;
  lift (raise_if (bool_decide (outcome = Effects.Rejected) && String.eqb error "")
    (ValueError "rejected approval effect requires an error"));;
  encoded ← lift (match result with VNone => mret None | _ => Some <$> pack result end);
  lift (raise_if (match encoded with Some raw => MAX_WIRE_BYTES <? len raw | None => false end)
    (ValueError "approval effect result is too large"));;
  row ← settle_effect_commit current (current + retry_ms retry_seconds) (request_id, effect_id)
          token outcome encoded error;
  lift (effect_item_after_commit (request_id, effect_id) row "" false).

Definition companion_approval_effect (request_id effect_id : string) : M (option effect_item) :=
  request_id ← lift (_companion_approval_id request_id "request_id");
  effect_id ← lift (_companion_approval_id effect_id "effect_id");
  row ← gets (λ s, companion_approval_effects s !! (request_id, effect_id));
  match row with
  | None => mret None
  | Some r => item ← lift (_companion_effect_item (request_id, effect_id) r "" false);
              mret (Some item)
  end.
End approvals.

(** ** What approval operations never undo *)

(** An effect keeps its idempotency key; executed and rejected ones are final. *)
Definition effect_progress (r r' : Effects.row) : Prop :=
  Effects.effect_idempotency_key r' = Effects.effect_idempotency_key r ∧
  Effects.started_ms r' = Effects.started_ms r ∧
  Effects.attempts r ≤ Effects.attempts r' ∧
  (Effects.state r = Effects.Executed ∨ Effects.state r = Effects.Rejected → r' = r).
#[global] Instance effect_progress_preorder : PreOrder effect_progress.
Proof.
  split; [intros r; by split_and!|].
  intros a b c (H1 & H2 & H3 & H4) (H1' & H2' & H3' & H4').
  split_and!; [congruence|congruence|lia|]. intros Hf. pose proof (H4 Hf) as ->. by apply H4'.
Qed.

Definition approval_tables (s : db) :=
  (companion_approval_requests s, companion_approval_authorizations s,
   companion_approval_effects s).

(** The uses an effect table takes of one request. *)
Definition uses (s : db) (request_id : string) : Z :=
  count_where (reserved_use request_id) (companion_approval_effects s).

(** Exactly the working effects carry a token, no token is shared; every effect
    belongs to an active authorization with room for it, and every authorization
    to a registered request. *)
Record approvals_ok (s : db) : Prop := {
  ao_token : ∀ k r, companion_approval_effects s !! k = Some r →
    (Effects.state r = Effects.Working ↔ Effects.execution_token r ≠ "");
  ao_unique : ∀ k k' r r', companion_approval_effects s !! k = Some r →
    companion_approval_effects s !! k' = Some r' → Effects.execution_token r ≠ "" →
    Effects.execution_token r = Effects.execution_token r' → k = k';
  ao_limit : ∀ k r, companion_approval_effects s !! k = Some r →
    ∃ a, active_authorization s k.1 = Some a ∧ uses s k.1 ≤ Approvals.max_uses a;
  ao_request : ∀ id a, companion_approval_authorizations s !! id = Some a →
    is_Some (companion_approval_requests s !! id);
}.

Record approval_step (s s' : db) : Prop := {
  as_requests : table_progress eq (companion_approval_requests s) (companion_approval_requests s');
  as_decisions : table_progress eq (companion_approval_authorizations s)
    (companion_approval_authorizations s');
  as_effects : table_progress effect_progress (companion_approval_effects s)
    (companion_approval_effects s');
  as_ok : preserves approvals_ok s s';
}.
#[global] Instance approval_step_preorder : PreOrder approval_step.
Proof.
  split; [intros s; split; reflexivity|]. intros a b c [] []. split; by etrans.
Qed.

Lemma approvals_ok_same s s' : approval_tables s' = approval_tables s → preserves approvals_ok s s'.
Proof.
  intros [= E1 E2 E3] [H1 H2 H3 H4].
  split; unfold uses, active_authorization; rewrite ?E1, ?E2, ?E3; eauto.
Qed.
Lemma approval_step_same s s' : approval_tables s' = approval_tables s → approval_step s s'.
Proof.
  intros E. pose proof (approvals_ok_same _ _ E). injection E as E1 E2 E3.
  split; [by rewrite ?E1, ?E2, ?E3..|done].
Qed.

(** *** The writes *)

Lemma active_authorization_Some s id a :
  active_authorization s id = Some a ↔
  companion_approval_authorizations s !! id = Some a ∧ Approvals.state a = Approvals.Active.
Proof.
  unfold active_authorization. destruct (companion_approval_authorizations s !! id) as [a'|];
    simpl; [|naive_solver]. case_guard; naive_solver.
Qed.

Lemma approval_step_request id row s :
  companion_approval_requests s !! id = None →
  approval_step s (set_companion_approval_requests
    (<[id := row]> (companion_approval_requests s)) s).
Proof.
  intros Hnew. split; simpl; [apply table_progress_insert_new; [apply _|done]|reflexivity..|].
  intros [H1 H2 H3 H4]. split; simpl; [done..|]. intros id' a Ha. rewrite lookup_insert.
  case_decide; [by eexists|eauto].
Qed.
Lemma approval_step_authorization id row s :
  companion_approval_authorizations s !! id = None →
  is_Some (companion_approval_requests s !! id) →
  approval_step s (set_companion_approval_authorizations
    (<[id := row]> (companion_approval_authorizations s)) s).
Proof.
  intros Hnew Hreq. split; simpl; [reflexivity|apply table_progress_insert_new; [apply _|done]|reflexivity|].
  intros [H1 H2 H3 H4]. split; simpl; [done..| |].
  - intros k r Hr. destruct (H3 k r Hr) as (a & Ha & Hle). exists a. split; [|done].
    apply active_authorization_Some in Ha as [Ha Hst]. apply active_authorization_Some.
    simpl. rewrite lookup_insert_ne by congruence. done.
  - intros id' a [[<- <-]|[_ Ha]]%lookup_insert_Some; eauto.
Qed.

(** A write of one effect: [room] says that it takes no use, or that there is one. *)
Lemma approval_step_effect key row s :
  (Effects.state row = Effects.Working ↔ Effects.execution_token row ≠ "") →
  (∀ k r, companion_approval_effects s !! k = Some r → k ≠ key →
     Effects.execution_token row ≠ "" →
     Effects.execution_token r ≠ Effects.execution_token row) →
  match companion_approval_effects s !! key with
  | Some r => effect_progress r row ∧ Effects.state r ≠ Effects.Rejected
  | None => ∃ a, active_authorization s key.1 = Some a ∧ uses s key.1 < Approvals.max_uses a
  end →
  approval_step s (set_companion_approval_effects
    (<[key := row]> (companion_approval_effects s)) s).
Proof.
  intros Htok Huniq Hold. split; simpl; [reflexivity..| |].
  - intros k r Hr. destruct (decide (key = k)) as [<-|Hne].
    + rewrite Hr in Hold. rewrite lookup_insert_eq. exists row. by destruct Hold.
    + rewrite lookup_insert_ne by done. exists r. split; [done|reflexivity].
  - intros [H1 H2 H3 H4].
    assert (∀ id, uses (set_companion_approval_effects
      (<[key := row]> (companion_approval_effects s)) s) id ≤
      uses s id + match companion_approval_effects s !! key with
                  | None => if decide (key.1 = id) then 1 else 0 | Some _ => 0 end) as Huses.
    { intros id. unfold uses. simpl. pose proof (count_where_insert (reserved_use id) key row
        (companion_approval_effects s)) as Hc. unfold reserved_use in *.
      destruct (companion_approval_effects s !! key) as [r|]; repeat case_decide; tauto || lia. }
    split; simpl; [| | |done].
    + intros k r [[<- <-]|[_ Hr]]%lookup_insert_Some; [done|by apply (H1 k)].
    + intros k k' r r' [[<- <-]|[Hne Hr]]%lookup_insert_Some
        [[<- <-]|[Hne' Hr']]%lookup_insert_Some Hnz Heq; [done| | |by eapply H2].
      * exfalso. by eapply (Huniq k' r').
      * exfalso. eapply (Huniq k r); [done|done|by rewrite <- Heq|done].
    + intros k r Hk. change (active_authorization (set_companion_approval_effects _ s) k.1) with
        (active_authorization s k.1).
      assert (∃ a, active_authorization s k.1 = Some a ∧ uses s k.1 +
        match companion_approval_effects s !! key with
        | None => if decide (key.1 = k.1) then 1 else 0 | Some _ => 0 end ≤ Approvals.max_uses a)
        as (a & Ha & Hle).
      { destruct (companion_approval_effects s !! key) as [r0|] eqn:Hkey.
        - apply lookup_insert_Some in Hk as [[<- <-]|[_ Hr]];
            [destruct (H3 key r0 Hkey) as (a & ? & ?)|destruct (H3 k r Hr) as (a & ? & ?)];
            exists a; (split; [done|lia]).
        - destruct Hold as (a & Ha & Hlt). apply lookup_insert_Some in Hk as [[<- <-]|[_ Hr]].
          + exists a. split; [done|]. case_decide; lia.
          + case_decide as Heq; [rewrite <- Heq; exists a; split; [done|lia]|].
            destruct (H3 k r Hr) as (a' & ? & ?). exists a'. split; [done|lia]. }
      exists a. split; [done|]. specialize (Huses k.1). lia.
Qed.

(** ** The operations *)

Section approval_lemmas.
Context {PL : Platform} {AG : ApprovalGrants}.

Lemma put_effect_run key row s :
  wp (put_effect key row) (λ res s', match res with
    | Ok _ => s' = set_companion_approval_effects (<[key := row]> (companion_approval_effects s)) s ∧
        ∀ k r, companion_approval_effects s !! k = Some r → k ≠ key →
          Effects.execution_token row ≠ "" →
          Effects.execution_token r ≠ Effects.execution_token row
    | Err _ => s' = s
    end) s.
Proof.
  unfold put_effect, exec. do 4 wp_step; [done|]. wp_step. split; [done|].
  bool_prop. intros k r Hr Hne Htok Heq.
  match goal with H : count_where _ _ = 0 |- _ => rewrite count_where_zero in H; apply (H k r Hr) end.
  split; [done|]. right. split; congruence.
Qed.

(** The lease of a stored effect ended, or its retry is due. *)
Definition effect_due (current : Z) (r : Effects.row) : Prop :=
  (Effects.state r = Effects.Working ∧ Effects.lease_until_ms r ≤ current) ∨
  (Effects.state r = Effects.Retry ∧ Effects.retry_after_ms r ≤ current).
(** A new lease on [key], and the reasons that allow it. *)
Definition effect_acquired (current lease : Z) (token owner : string) (key : string * string)
    (a : Approvals.row) (s : db) (row : Effects.row) (s' : db) : Prop :=
  s' = set_companion_approval_effects (<[key := row]> (companion_approval_effects s)) s ∧
  Effects.state row = Effects.Working ∧ Effects.owner row = owner ∧
  Effects.execution_token row = token ∧ Effects.lease_until_ms row = current + lease ∧
  match companion_approval_effects s !! key with
  | None => uses s key.1 < Approvals.max_uses a
  | Some r => effect_due current r ∧ effect_progress r row
  end.
(** The answer about an effect that is finished, or that the caller already runs. *)
Definition effect_known (current : Z) (owner tok : string) (row : Effects.row) : Prop :=
  (Effects.state row = Effects.Working ∧ Effects.owner row = owner ∧
     current < Effects.lease_until_ms row ∧ tok = Effects.execution_token row) ∨
  ((Effects.state row = Effects.Executed ∨ Effects.state row = Effects.Rejected) ∧ tok = "").

Definition effect_post (current lease : Z) (token owner : string) (key : string * string) (s : db)
    (result : res (Effects.row * string * bool)) (s' : db) : Prop :=
  match result with
  | Err _ => s' = s
  | Ok (row, tok, acquired) =>
      ∃ a, active_authorization s key.1 = Some a ∧ current < Approvals.grant_expires_ms a ∧
        companion_approval_effects s' !! key = Some row ∧
        if (acquired : bool) then tok = token ∧ effect_acquired current lease token owner key a s row s'
        else s' = s ∧ effect_known current owner tok row
  end.

Lemma acquired_step current lease token owner key a s row s' :
  effect_acquired current lease token owner key a s row s' →
  active_authorization s key.1 = Some a → token ≠ "" →
  (∀ k r, companion_approval_effects s !! k = Some r → k ≠ key →
     Effects.execution_token row ≠ "" →
     Effects.execution_token r ≠ Effects.execution_token row) →
  approval_step s s'.
Proof.
  intros (-> & Hst & _ & Hx & _ & Hold) Ha Htok Huniq.
  apply approval_step_effect; [by rewrite Hst, Hx|done|].
  destruct (companion_approval_effects s !! key) as [r|]; [|by exists a].
  destruct Hold as [Hdue Hp]. split; [done|]. by destruct Hdue as [[-> _]|[-> _]].
Qed.

Lemma resume_effect_run current lease owner token key r a s :
  companion_approval_effects s !! key = Some r →
  active_authorization s key.1 = Some a → current < Approvals.grant_expires_ms a →
  wp (resume_effect current lease owner token key r) (λ res s',
    match res with
    | Err _ => True
    | Ok _ => effect_post current lease token owner key s res s' ∧
        (token ≠ "" → approval_step s s')
    end) s.
Proof.
  intros Hr Ha Hexp.
  assert (effect_due current r →
    wp (put_effect key (restarted_effect current lease owner token r);;
        mret (restarted_effect current lease owner token r, token, true))
      (λ res s', match res with
        | Err _ => True
        | Ok _ => effect_post current lease token owner key s res s' ∧
            (token ≠ "" → approval_step s s')
        end) s) as Hrestart.
  { intros Hdue. wp_step. eapply wp_mono; [apply put_effect_run|].
    intros [[]|e] s'; [|done]. intros [-> Huniq]. wp_step.
    assert (effect_acquired current lease token owner key a s
      (restarted_effect current lease owner token r)
      (set_companion_approval_effects (<[key := restarted_effect current lease owner token r]>
        (companion_approval_effects s)) s)) as Hacq.
    { unfold effect_acquired, effect_progress. rewrite Hr.
      split_and!; simpl; try done; try lia.
      destruct Hdue as [[E _]|[E _]]; rewrite E; by intros [?|?]. }
    split; [|by intros Htok; eapply acquired_step].
    exists a. simpl. by rewrite lookup_insert_eq. }
  unfold resume_effect. destruct (Effects.state r) eqn:Hst.
  - destruct (current <? Effects.lease_until_ms r) eqn:Hlt; bool_prop.
    + wp_step. wp_step; [done|]. wp_step. split; [|reflexivity]. exists a. bool_prop.
      split_and!; try done. by left.
    + apply Hrestart. left. by split.
  - wp_step. wp_step; [done|]. bool_prop. apply Hrestart. right. by split.
  - wp_step. split; [|reflexivity]. exists a. split_and!; try done. right. auto.
  - wp_step. split; [|reflexivity]. exists a. split_and!; try done. right. auto.
Qed.

Lemma effect_commit_run current lease token owner effect_key key s :
  wp (effect_commit current lease token owner effect_key key) (λ res s',
    effect_post current lease token owner key s res s' ∧
    (token ≠ "" → approval_step s s')) s.
Proof.
  unfold effect_commit. apply wp_transaction. do 4 wp_step; [|by split].
  match goal with H : of_option _ _ = Ok ?a |- _ =>
    apply of_option_ok in H; rename H into Hauth; rename a into auth end.
  wp_step. wp_step; [by split|]. bool_prop. do 3 wp_step.
  - eapply wp_mono; [by eapply resume_effect_run|]. by intros [x|e] s'.
  - do 3 wp_step. wp_step; [by split|]. bool_prop. wp_step.
    eapply wp_mono; [apply put_effect_run|]. intros [[]|e] s'; [|by split].
    intros [-> Huniq]. wp_step.
    assert (effect_acquired current lease token owner key auth s
      (new_effect current lease owner token effect_key)
      (set_companion_approval_effects (<[key := new_effect current lease owner token effect_key]>
        (companion_approval_effects s)) s)) as Hacq.
    { unfold effect_acquired. match goal with H : _ = None |- _ => rewrite H end. by split_and!. }
    split; [|by intros Htok; eapply acquired_step].
    exists auth. simpl. by rewrite lookup_insert_eq.
Qed.

Lemma begin_effect_run current token request_id effect_id owner lease s :
  wp (begin_companion_approval_effect current token request_id effect_id owner lease)
    (λ res s', (token ≠ "" → approval_step s s') ∧ match res with
      | Ok item => ∃ i e o,
          _companion_approval_id request_id "request_id" = Ok i ∧
          _companion_approval_id effect_id "effect_id" = Ok e ∧
          _consumer_id owner "owner" = Ok o ∧ eff_key item = (i, e) ∧
          is_Ok (effect_check s current i e) ∧
          effect_post current (lease_ms lease) token o (i, e) s
            (Ok (eff_row item, eff_execution_token item, eff_acquired item)) s'
      | Err OperationalError => True
      | Err _ => s' = s
      end) s.
Proof.
  unfold begin_companion_approval_effect.
  do 2 (wp_step; wp_step; [|destruct e; by split]).
  wp_step. wp_step; [|destruct e; by split]. rename a into i, a0 into e, a1 into o.
  do 3 wp_step. wp_step; [|destruct e0; by split]. wp_step.
  eapply wp_mono; [apply effect_commit_run|]. intros [[[row tok] acq]|err] s'.
  2: { intros [Hpost Hstep]. split; [done|]. by destruct err. }
  intros [Hpost Hstep]. wp_step; (split; [done|]).
  - exists i, e, o.
    match goal with H : effect_item_after_commit _ _ _ _ = Ok ?item |- _ =>
      rename H into Hitem; rename item into it end.
    unfold effect_item_after_commit, _companion_effect_item in Hitem.
    assert (it = EffectItem (i, e) row (eff_result it) tok acq) as ->.
    { cbn [fst snd] in Hitem. destruct (Effects.result row) as [raw|];
        [destruct (unpack raw)|]; simpl in Hitem; try discriminate Hitem; by injection Hitem as <-. }
    split_and!; try done. by eexists.
  - match goal with H : effect_item_after_commit _ _ _ _ = Err ?err |- _ =>
      unfold effect_item_after_commit in H; destruct (_companion_effect_item _ _ _ _);
      by simplify_eq end.
Qed.

Lemma settle_effect_commit_run current retry_after key token outcome result error s :
  outcome ≠ Effects.Working →
  wp (settle_effect_commit current retry_after key token outcome result error) (λ res s',
    approval_step s s' ∧ match res with
    | Ok row => ∃ r, companion_approval_effects s !! key = Some r ∧
        Effects.state r = Effects.Working ∧ Effects.execution_token r = token ∧
        row = settled_effect outcome current retry_after result error r ∧
        s' = set_companion_approval_effects (<[key := row]> (companion_approval_effects s)) s
    | Err e => s' = s ∧ e = ValueError "approval execution token is stale or fenced" ∧
        ∀ r, companion_approval_effects s !! key = Some r →
          ¬ (Effects.state r = Effects.Working ∧ Effects.execution_token r = token)
    end) s.
Proof.
  intros Hout. unfold settle_effect_commit, exec. apply wp_transaction. do 3 wp_step.
  - wp_step. wp_step.
    + split; [reflexivity|]. split_and!; [done|done|]. intros r' [= <-] [Hst Htok].
      rewrite Hst, Htok, String.eqb_refl, bool_decide_true in * by done. done.
    + bool_prop. do 3 wp_step. split; [|eexists; by split_and!].
      apply approval_step_effect.
      * destruct outcome; simpl; split; done.
      * intros k r' _ _ Hne. by destruct outcome.
      * match goal with H : _ = Some ?r |- _ => rewrite H; rename r into r0 end.
        match goal with H : Effects.state r0 = _ |- _ => rename H into Hst end.
        split; [|by rewrite Hst].
        split_and!; [by destruct outcome..|destruct outcome; simpl; lia|].
        rewrite Hst. by intros [?|?].
  - wp_step. split; [reflexivity|]. split_and!; done.
Qed.

Lemma outcome_not_working text outcome :
  outcome_of_string text = Some outcome → outcome ≠ Effects.Working.
Proof. unfold outcome_of_string. repeat case_match; congruence. Qed.

Lemma settle_effect_step current request_id effect_id token outcome result error retry :
  steps approval_step
    (settle_companion_approval_effect current request_id effect_id token outcome result error retry).
Proof.
  unfold settle_companion_approval_effect. steps_all; intros s'.
  all: match goal with H : of_option _ _ = Ok _ |- _ =>
      apply of_option_ok, outcome_not_working in H; eapply wp_mono; [by apply settle_effect_commit_run|] end.
  all: by intros r s'' [? _].
Qed.

(** *** Requests and decisions *)

Lemma register_run current body s :
  wp (register_companion_approval_request current body) (λ res s', approval_step s s' ∧
    match res with
    | Ok reg => ∃ d row, _validate_approval_request body = Ok d ∧
        get_int "created_ms" d ≤ current + MAX_CLOCK_SKEW_MS ∧ current < get_int "expires_ms" d ∧
        dict_get "request_id" d = VStr (reg_request_id reg) ∧
        _companion_approval_hash d = Ok (reg_request_hash reg) ∧
        companion_approval_requests s' !! reg_request_id reg = Some row ∧
        ApprovalRequests.request_hash row = reg_request_hash reg ∧
        if registered reg then
          companion_approval_requests s !! reg_request_id reg = None ∧
          s' = set_companion_approval_requests
            (<[reg_request_id reg := row]> (companion_approval_requests s)) s
        else s' = s
    | Err _ => s' = s
    end) s.
Proof.
  unfold register_companion_approval_request. wp_step. wp_step; [|by split].
  rename a into d. wp_step. wp_step; [by split|]. wp_step. wp_step; [by split|]. bool_prop.
  wp_step. wp_step; [|by split]. wp_step. wp_step; [|by split]. apply wp_transaction.
  wp_step. wp_step; [|by split].
  match goal with H : sql_text _ = Ok ?x |- _ => rename H into Hid; rename x into id end.
  assert (dict_get "request_id" d = VStr id) as Hget.
  { destruct (dict_get "request_id" d); simpl in Hid; try discriminate Hid. congruence. }
  do 3 wp_step.
  - wp_step. wp_step; [by split|]. bool_prop. wp_step. split; [reflexivity|].
    exists d. eexists. by split_and!.
  - wp_step. apply wp_on_integrity_error. unfold insert_request, exec.
    do 4 wp_step; [by split|]. do 2 wp_step. split; [by apply approval_step_request|].
    exists d. eexists. simpl. rewrite lookup_insert_eq. by split_and!.
Qed.

Lemma ack_claim_exact now g o t s :
  wp (ack_claim now g o t) (λ r s', r = Ok (count_where (held_claim g o t) (consumer_deliveries s)) ∧
    s' = set_consumer_deliveries
      (update_where (held_claim g o t) (acked_row now) (consumer_deliveries s)) s) s.
Proof. unfold ack_claim, exec. by wp_all. Qed.
Lemma approval_step_claims v s : approval_step s (set_consumer_deliveries v s).
Proof. by apply approval_step_same. Qed.
Lemma insert_authorization_run id row s :
  wp (insert_authorization id row) (λ res s', match res with
    | Ok _ => s' = set_companion_approval_authorizations
        (<[id := row]> (companion_approval_authorizations s)) s
    | Err _ => s' = s
    end) s.
Proof. unfold insert_authorization, exec. do 4 wp_step; [done|]. by wp_step. Qed.

(** The decision of [a] is on record: for the first time, or as it was. *)
Definition decision_recorded (current : Z) (a : activation) (packet : string) (first : bool)
    (s : db) (row : Approvals.row) (auths : gmap string Approvals.row) : Prop :=
  let id := get_text "request_id" (act_decision a) in
  if first then
    companion_approval_authorizations s !! id = None ∧
    (∃ decision_id, dict_get "decision_id" (act_decision a) = VStr decision_id ∧
       row = authorization_row current a decision_id packet) ∧
    auths = <[id := row]> (companion_approval_authorizations s)
  else
    companion_approval_authorizations s !! id = Some row ∧
    Approvals.decision_hash row = act_decision_hash a ∧
    Approvals.sender_node_id row = act_sender_id a ∧
    auths = companion_approval_authorizations s.

Lemma activation_commit_run current a s :
  wp (activation_commit current a) (λ res s', approval_step s s' ∧
    match res with
    | Ok x => ∃ packet row, activation_recheck s current a = Ok packet ∧
        actd_request_id x = get_text "request_id" (act_decision a) ∧
        decision_recorded current a packet (actd_activated x) s row
          (companion_approval_authorizations s') ∧
        s' = set_consumer_deliveries (update_where
               (held_claim (act_group a) (act_owner a) (act_claim_token a)) (acked_row current)
               (consumer_deliveries s))
             (set_companion_approval_authorizations (companion_approval_authorizations s') s)
    | Err _ => s' = s
    end) s.
Proof.
  unfold activation_commit. apply wp_transaction. do 4 wp_step; [|by split].
  match goal with H : activation_recheck _ _ _ = Ok ?p |- _ => rename H into Hre; rename p into packet end.
  assert (is_Some (companion_approval_requests s !! get_text "request_id" (act_decision a))) as Hreq.
  { unfold activation_recheck in Hre. res_inv. by eexists. }
  do 3 wp_step. wp_step.
  - wp_step; [by split|]. bool_prop. wp_step.
    eapply wp_mono; [apply ack_claim_exact|]. intros res s' [-> ->]. do 2 wp_step; [by split|].
    wp_step. split; [apply approval_step_claims|].
    match goal with H : _ = Some ?r |- _ => rename H into Hrow; rename r into row end.
    exists packet, row. rewrite bool_decide_false by done.
    by split_and!.
  - wp_step. wp_step; [|by split].
    match goal with H : sql_text _ = Ok ?x |- _ => rename H into Hid; rename x into did end.
    assert (dict_get "decision_id" (act_decision a) = VStr did) as Hget.
    { destruct (dict_get "decision_id" (act_decision a)); simpl in Hid; try discriminate Hid. congruence. }
    apply wp_on_integrity_error. eapply wp_mono; [apply insert_authorization_run|].
    intros [[]|e] s'; [|destruct e; by split]. intros ->. wp_step.
    eapply wp_mono; [apply ack_claim_exact|]. intros res s' [-> ->]. do 2 wp_step; [by split|].
    wp_step. split.
    { etrans; [by apply approval_step_authorization|apply approval_step_claims]. }
    match goal with H : _ = None |- _ => rename H into Hnone end.
    exists packet. eexists. rewrite bool_decide_true by done.
    split_and!; try done. split_and!; [done| |done]. by exists did.
Qed.
End approval_lemmas.

(** ** Properties *)

Section approval_theorems.
Context {PL : Platform} {AG : ApprovalGrants}.

(** What a decision behind a claim has to be to take effect. *)
Record valid_decision (s : db) (current : Z) (g o t : string) (a : activation) : Prop := {
  vd_claim : ∃ packet i body, claimed_message s current g o t = Some (packet, i) ∧
    Inbox.trusted i = true ∧ Inbox.kind i = APPROVAL_DECISION_KIND ∧
    Inbox.sender_id i = act_sender_id a ∧ unpack (Inbox.body i) = Ok body ∧
    _validate_approval_decision body = Ok (act_decision a);
  vd_device : dict_get "device_node_id" (act_decision a) = VStr (act_sender_id a);
  vd_unexpired : current < get_int "expires_ms" (act_decision a) ∧
    current < get_int "grant_expires_ms" (get_dict "scope" (act_decision a));
  vd_request : ∃ row body request,
    companion_approval_requests s !! get_text "request_id" (act_decision a) = Some row ∧
    unpack (ApprovalRequests.request_body row) = Ok body ∧
    _validate_approval_request body = Ok request ∧
    is_Ok (validate_approval_decision_binding (VMap request) (VMap (act_decision a)));
  vd_grant : _require_approval_grant (get_text "human_id" (act_decision a))
    (get_text "device_node_id" (act_decision a)) current = Ok tt;
  vd_hash : _companion_approval_hash (act_decision a) = Ok (act_decision_hash a);
}.

Lemma activation_check_valid s current group_id owner claim_token a :
  activation_check s current group_id owner claim_token = Ok a →
  _consumer_id group_id "group ID" = Ok (act_group a) ∧
  _consumer_id owner "owner" = Ok (act_owner a) ∧
  _claim_token claim_token = Ok (act_claim_token a) ∧
  valid_decision s current (act_group a) (act_owner a) (act_claim_token a) a.
Proof.
  unfold activation_check. intros H. res_inv. subst a. bool_prop. cbn [act_group act_owner
    act_claim_token act_decision act_sender_id act_decision_hash act_request_hash].
  match goal with H : claimed_message _ _ _ _ _ = Some ?c |- _ => destruct c as [packet i] end.
  split_and!; try done. split; cbn [act_group act_owner act_claim_token act_decision act_sender_id
    act_decision_hash act_request_hash fst snd] in *.
  - do 3 eexists. by split_and!.
  - match goal with H : is_text ?v ?x = true |- _ => destruct v; simpl in H; try discriminate H;
      by apply String.eqb_eq in H as -> end.
  - lia.
  - do 3 eexists. split_and!; try done. by eexists.
  - match goal with H : _require_approval_grant _ _ _ = Ok ?u |- _ => by destruct u end.
  - done.
Qed.

(** A decision is activated only for the trusted message behind the caller's live
    claim, sent by the very device it names, unexpired, bound to the registered
    request, and while the control plane holds a current grant with approval.sign
    for that device; the authorization is then on record with the hash and sender
    of this decision, first or unchanged, the claim is acknowledged, and nothing
    else is written; a refused activation writes nothing. *)
Theorem activate_companion_approval_spec current group_id owner claim_token s :
  let '(result, s') := activate_companion_approval current group_id owner claim_token s in
  match result with
  | Err _ => s' = s
  | Ok x => ∃ a packet row,
      _consumer_id group_id "group ID" = Ok (act_group a) ∧
      _consumer_id owner "owner" = Ok (act_owner a) ∧
      _claim_token claim_token = Ok (act_claim_token a) ∧
      valid_decision s current (act_group a) (act_owner a) (act_claim_token a) a ∧
      actd_request_id x = get_text "request_id" (act_decision a) ∧
      decision_recorded current a packet (actd_activated x) s row
        (companion_approval_authorizations s') ∧
      s' = set_consumer_deliveries (update_where
             (held_claim (act_group a) (act_owner a) (act_claim_token a)) (acked_row current)
             (consumer_deliveries s))
           (set_companion_approval_authorizations (companion_approval_authorizations s') s)
  end.
Proof.
  unfold activate_companion_approval. cbv [mbind ST_bind gets lift].
  destruct (activation_check s current group_id owner claim_token) as [a|e] eqn:Hcheck; [|done].
  apply activation_check_valid in Hcheck as (Hg & Ho & Ht & Hvalid).
  pose proof (activation_commit_run current a s) as Hpost. unfold wp in Hpost.
  destruct (activation_commit current a s) as [[x|e] s']; destruct Hpost as [_ Hpost]; [|done].
  destruct Hpost as (packet & row & _ & Hid & Hrec & Hs'). by exists a, packet, row.
Qed.

(** The lease of an approved effect is granted only under an active, unexpired
    authorization whose device still holds its grant: to a new effect while uses
    remain, or to a known one whose lease ended or whose retry is due; the caller
    otherwise gets the finished result or the lease it already holds, and a refusal
    changes nothing. *)
Theorem begin_companion_approval_effect_spec current token request_id effect_id owner lease s :
  let '(result, s') :=
    begin_companion_approval_effect current token request_id effect_id owner lease s in
  match result with
  | Ok item => ∃ i e o a,
      _companion_approval_id request_id "request_id" = Ok i ∧
      _companion_approval_id effect_id "effect_id" = Ok e ∧ _consumer_id owner "owner" = Ok o ∧
      eff_key item = (i, e) ∧ active_authorization s i = Some a ∧
      current < Approvals.grant_expires_ms a ∧
      _require_approval_grant (Approvals.human_id a) (Approvals.device_node_id a) current = Ok tt ∧
      if eff_acquired item then
        eff_execution_token item = token ∧
        effect_acquired current (lease_ms lease) token o (i, e) a s (eff_row item) s'
      else s' = s ∧ effect_known current o (eff_execution_token item) (eff_row item)
  | Err OperationalError => True
  | Err _ => s' = s
  end.
Proof.
  pose proof (begin_effect_run current token request_id effect_id owner lease s) as H.
  unfold wp in H. destruct (begin_companion_approval_effect _ _ _ _ _ _ s) as [[item|e] s'];
    destruct H as [_ H]; [|exact H].
  destruct H as (i & e & o & Hi & He & Ho & Hkey & [h Hcheck] & a & Ha & Hexp & _ & Hpost).
  exists i, e, o, a. unfold effect_check in Hcheck. simpl in Ha. rewrite Ha in Hcheck.
  cbn [of_option mbind res_bind] in Hcheck. res_inv.
  match goal with H : _require_approval_grant _ _ _ = Ok ?u |- _ => destruct u end.
  by split_and!.
Qed.

(** A settlement that took effect on [r] and wrote [row]. *)
Definition effect_settled (current : Z) (key : string * string) (token : string)
    (st : Effects.state_t) (error : string) (s s' : db) (r row : Effects.row) : Prop :=
  companion_approval_effects s !! key = Some r ∧
  Effects.state r = Effects.Working ∧ Effects.execution_token r = token ∧
  s' = set_companion_approval_effects (<[key := row]> (companion_approval_effects s)) s ∧
  Effects.state row = st ∧ Effects.execution_token row = "" ∧ Effects.owner row = "" ∧
  Effects.attempts row = Effects.attempts r ∧
  (st = Effects.Retry → current ≤ Effects.retry_after_ms row ≤ current + 86400000) ∧
  (st = Effects.Rejected → error ≠ "") ∧ (st = Effects.Executed → error = "").

Lemma settled_effect_fields current key token st retry result error s r :
  companion_approval_effects s !! key = Some r →
  Effects.state r = Effects.Working → Effects.execution_token r = token →
  (st = Effects.Rejected → error ≠ "") → (st = Effects.Executed → error = "") →
  let row := settled_effect st current (current + retry_ms retry) result error r in
  effect_settled current key token st error s (set_companion_approval_effects
    (<[key := row]> (companion_approval_effects s)) s) r row.
Proof.
  intros Hr Hst Htok Hrej Hexe. pose proof (retry_ms_bounds retry). unfold effect_settled.
  split_and!; try done; destruct st; simpl; done || lia.
Qed.

(** An approved effect is settled only by the execution token of its current
    lease: the settlement writes exactly that effect's row, without owner and token,
    in the state of the outcome; with any other token it raises and changes nothing.
    A rejection carries an error, an execution none, a retry waits at most a day. *)
Theorem settle_companion_approval_effect_fenced current request_id effect_id token outcome
    result error retry s :
  let '(res, s') := settle_companion_approval_effect current request_id effect_id token outcome
    result error retry s in
  (∃ i e t st r row, _companion_approval_id request_id "request_id" = Ok i ∧
     _companion_approval_id effect_id "effect_id" = Ok e ∧ _claim_token token = Ok t ∧
     outcome_of_string (lower (strip outcome)) = Some st ∧
     effect_settled current (i, e) t st (strip error) s s' r row ∧
     match res with
     | Ok item => eff_key item = (i, e) ∧ eff_row item = row ∧ eff_execution_token item = ""
     | Err err => err = OperationalError
     end) ∨
  (s' = s ∧ ∃ err, res = Err err).
Proof.
  match goal with |- let '(res, s') := ?m s in @?Q res s' => enough (wp m Q s) as H
    by (unfold wp in H; by destruct (m s)) end.
  unfold settle_companion_approval_effect.
  do 3 (wp_step; wp_step; [|by right; eauto]). rename a into i, a0 into e, a1 into t.
  wp_step. wp_step; [|by right; eauto].
  match goal with H : of_option _ _ = Ok ?a |- _ => apply of_option_ok in H; rename a into st end.
  wp_step. wp_step; [by right; eauto|]. wp_step. wp_step; [by right; eauto|].
  wp_step. wp_step; [|by right; eauto]. wp_step. wp_step; [by right; eauto|]. wp_step.
  eapply wp_mono; [by eapply settle_effect_commit_run, outcome_not_working|].
  intros [row|err] s' [_ Hpost]; [|destruct Hpost as (-> & _); right; eauto].
  destruct Hpost as (r & Hr & Hw & Htok & -> & ->).
  assert ((st = Effects.Rejected → strip error ≠ "") ∧ (st = Effects.Executed → strip error = ""))
    as [Hrej Hexe].
  { split; intros ->; rewrite bool_decide_true in * by done; simpl in *; by bool_prop. }
  wp_step; left; exists i, e, t, st, r; eexists; (do 4 (split; [done|]));
    (split; [by apply settled_effect_fields|]);
    match goal with H : effect_item_after_commit _ _ _ _ = _ |- _ =>
      unfold effect_item_after_commit, _companion_effect_item in H; rename H into Hitem end.
  - destruct (Effects.result _) as [raw|]; [destruct (unpack raw)|]; simpl in Hitem;
      try discriminate Hitem; by injection Hitem as <-.
  - destruct (Effects.result _) as [raw|]; [destruct (unpack raw)|]; simpl in Hitem; by simplify_eq.
Qed.
End approval_theorems.

(** ** A concrete approval *)

(** A control plane in which the device of the examples may sign approvals. *)
Definition sample_grants : ApprovalGrants :=
  {| is_human_device_revoked := λ _ device, Ok (negb (String.eqb device device_ex));
     human_device_grant := λ _ _ _, Ok (Some ["approval.sign"]) |}.
Definition registered_ex : value :=
  match @_validate_approval_request sample_float (request_ex hex32) with
  | Ok d => VMap d | Err _ => VNone
  end.
Definition approval_platform : Platform :=
  sample_platform ((λ v, (@py_repr sample_float v, v)) <$>
    [registered_ex; decision_ex; VList []; VNone]).
Definition decision_message : OpenedMessage := {|
  msg_packet_id := "p1"; msg_sender_id := device_ex; msg_sender_sign_public := "";
  msg_sender_box_public := ""; msg_kind := APPROVAL_DECISION_KIND; msg_created_ms := 2000;
  msg_body := decision_ex; msg_causal := []; msg_codec := "json"; msg_reply_to := "";
  msg_qos := Normal; msg_key_mode := "static"; msg_prekey_id := "" |}.
Definition register_ex (s : db) : res registration * db :=
  @register_companion_approval_request approval_platform 1500 (request_ex hex32) s.
(** The request registered, the decision received and claimed *)
Definition decision_db : db :=
  let s := (register_ex empty_db).2 in
  let s := (@add_inbox approval_platform 2500 decision_message true true s).2 in
  let s := (open_consumer_group 2500 "signers" "earliest" "" "" true false s).2 in
  (@claim_consumer_messages approval_platform 2600 (λ _, "aaaaaaaaaaaaaaaaaaaaaaaaaaaaaaaa")
     "signers" "w1" 1 50 s).2.
Definition activate_ex (s : db) : res activated * db :=
  @activate_companion_approval approval_platform sample_grants 3000 "signers" "w1"
    "aaaaaaaaaaaaaaaaaaaaaaaaaaaaaaaa" s.
Definition approved_db : db := (activate_ex decision_db).2.
(** Begins the effect of id [e] under the lease token [token]. *)
Definition run_effect_ex (token e : string) (s : db) : res effect_item * db :=
  @begin_companion_approval_effect approval_platform sample_grants 4000 token hex32 e "w1" 30 s.
Definition effect_id_ex (digit : string) : string := String.concat "" (repeat digit 32).

(** Two effects run under a decision of two uses; a third is refused. *)
Example two_uses_granted :
  let run e s := run_effect_ex e e s in
  let s1 := (run (effect_id_ex "1") approved_db).2 in
  let s2 := (run (effect_id_ex "2") s1).2 in
  (match (activate_ex decision_db).1 with Ok x => actd_activated x | _ => false end,
   match (run (effect_id_ex "1") approved_db).1 with Ok x => eff_acquired x | _ => false end,
   match (run (effect_id_ex "2") s1).1 with Ok x => eff_acquired x | _ => false end,
   match (run (effect_id_ex "3") s2).1 with Err (PermissionError _) => true | _ => false end) =
  (true, true, true, true).
Proof. vm_compute. reflexivity. Qed.
