(* ===== verification/Devices.v ===== *)
(** Approvals against the real control plane: [_require_approval_grant] of
    src/anet/store.py asks the [ControlPlaneStore] of src/anet/control_plane.py, so what
    is proved of approvals for any [ApprovalGrants] holds with its tables behind it. *)
From S2P Require Import Prelude PyStr PyVal Codecs Locator ControlPlane ControlStore ControlReads.
From S2P Require Import Schema Packet Queue Consumers Companion Tasks Approvals.

Section devices.
Context {PL : Platform} {DG : Digests} {SG : Signatures} {UL : Urllib}.

(** The control store behind the checks of an approval *)
Definition control_grants (c : control_db) : ApprovalGrants := {|
  Approvals.is_human_device_revoked := λ human device,
    ControlStore.is_human_device_revoked human device c;
  Approvals.human_device_grant := λ human device current,
    match ControlStore.human_device_grant current human device c with
    | Ok grant => Ok (g_capabilities <$> grant)
    | Err e => Err e
    end |}.

(** A device that passes the check holds an unrevoked grant, for it and signed by the
    human, of a descriptor that is current, and with the capability to approve. *)
Lemma require_grant_inv c human device current :
  @_require_approval_grant (control_grants c) human device current = Ok tt →
  ControlStore.is_human_device_revoked human device c = Ok false ∧
  ∃ g, ControlStore.human_device_grant current human device c = Ok (Some g) ∧
    "approval.sign" ∈ g_capabilities g.
Proof.
  unfold _require_approval_grant. cbn [Approvals.is_human_device_revoked
    Approvals.human_device_grant control_grants]. intros H. res_inv. bool_prop.
  destruct x; [done|]. split; [done|].
  match goal with H : match ?m with _ => _ end = Ok _ |- _ => rename H into Hgrant end.
  destruct (ControlStore.human_device_grant current human device c) as [g|[]] eqn:Hg;
    cbn [mbind res_bind] in Hgrant; res_inv; try discriminate.
  destruct g as [g|]; simplify_eq/=. by exists g.
Qed.
Lemma human_device_grant_inv now human device c g :
  ControlStore.human_device_grant now human device c = Ok (Some g) →
  ∃ d, current_descriptor now device c = Ok (Some d) ∧ verify_grant now g d = Ok tt.
Proof.
  unfold ControlStore.human_device_grant. intros H. res_inv.
  match goal with H : current_descriptor _ _ _ = Ok ?o |- _ => destruct o as [d|]; [|discriminate] end.
  res_inv. repeat case_match; try discriminate; res_inv.
  match goal with H : (if ?b then _ else _) = Ok (Some g) |- _ => destruct b; [discriminate|] end.
  res_inv. simplify_eq. exists d. split; [done|].
  match goal with H : grant_from_dict _ _ _ = Ok _ |- _ => unfold grant_from_dict in H end.
  res_inv. subst. by match goal with u : () |- _ => destruct u end.
Qed.

(** A device revoked in [c] fails the check. *)
Lemma require_grant_revoked c human device current :
  ControlStore.is_human_device_revoked human device c = Ok true →
  @_require_approval_grant (control_grants c) human device current =
    Err (PermissionError "approval device is revoked").
Proof. intros H. unfold _require_approval_grant. simpl. by rewrite H. Qed.

(** An authorization that names a device of a human *)
Definition authorizes (human device : string) (row : Approvals.row) : Prop :=
  Approvals.human_id row = human ∧ Approvals.device_node_id row = device.

(** Without a check that passes, no authorization of a device is added ... *)
Lemma activate_not_added c current group_id owner claim_token human device s :
  ControlStore.is_human_device_revoked human device c = Ok true →
  let '(_, s') := @activate_companion_approval _ (control_grants c) current group_id owner
    claim_token s in
  ∀ i row, companion_approval_authorizations s' !! i = Some row → authorizes human device row →
    companion_approval_authorizations s !! i = Some row.
Proof.
  intros Hrev. unfold activate_companion_approval. cbv [mbind ST_bind gets lift].
  destruct (@activation_check _ (control_grants c) s current group_id owner claim_token) as [a|e]
    eqn:Hcheck; [|done].
  apply activation_check_valid in Hcheck as (_ & _ & _ & Hvalid).
  pose proof (activation_commit_run current a s) as Hpost. unfold wp in Hpost.
  destruct (activation_commit current a s) as [[x|e] s']; destruct Hpost as [_ Hpost];
    cbn [fst snd] in Hpost; [|by subst].
  destruct Hpost as (packet & row & _ & _ & Hrec & _). intros i row' Hin [Hh Hd].
  unfold decision_recorded in Hrec. destruct (actd_activated x).
  - destruct Hrec as (_ & (id & _ & ->) & E). rewrite E in Hin.
    apply lookup_insert_Some in Hin as [[_ <-]|[_ ?]]; [|done]. simpl in Hh, Hd. exfalso.
    pose proof (vd_grant _ _ _ _ _ _ Hvalid) as Hgrant. rewrite Hh, Hd in Hgrant.
    by rewrite require_grant_revoked in Hgrant.
  - destruct Hrec as (_ & _ & _ & E). by rewrite E in Hin.
Qed.
(** ... and no effect of one begins. *)
Lemma begin_refused c current token request_id effect_id owner lease human device i a s :
  ControlStore.is_human_device_revoked human device c = Ok true →
  _companion_approval_id request_id "request_id" = Ok i →
  companion_approval_authorizations s !! i = Some a → authorizes human device a →
  ∃ e, @begin_companion_approval_effect _ (control_grants c) current token request_id effect_id
    owner lease s = (Err e, s).
Proof.
  intros Hrev Hi Ha [Hh Hd]. unfold begin_companion_approval_effect. cbv [mbind ST_bind lift gets].
  rewrite Hi. destruct (_companion_approval_id effect_id "effect_id") as [e|e]; [|by eexists].
  destruct (_consumer_id owner "owner") as [o|]; [|by eexists].
  assert (∃ err, @effect_check _ (control_grants c) s current i e = Err err) as [err ->]; [|by eexists].
  unfold effect_check. destruct (active_authorization s i) as [a'|] eqn:Hact; [|by eexists].
  assert (a' = a) as ->.
  { apply active_authorization_Some in Hact as [Hact _]. congruence. }
  cbn [of_option mbind res_bind]. unfold raise_if at 1.
  destruct (Approvals.grant_expires_ms a <=? current); [by eexists|].
  cbn [mbind res_bind]. rewrite Hh, Hd, require_grant_revoked by done. by eexists.
Qed.

(** C29: once a human has revoked a device, whatever the control plane accepts afterwards,
    no decision of that device is ever activated again, and no effect of an
    authorization it gave earlier, active as it may be, begins or is resumed: the call
    raises and the database is unchanged. *)
Theorem revoked_device_never_approves now v d c c1 c2 :
  accept_human_revocation now v d c = (Ok true, c1) → control_run c1 c2 →
  let mine := authorizes (v_human_id v) (v_device_node_id v) in
  (∀ current group_id owner claim_token s,
     let '(_, s') := @activate_companion_approval _ (control_grants c2) current group_id owner
       claim_token s in
     ∀ i row, companion_approval_authorizations s' !! i = Some row → mine row →
       companion_approval_authorizations s !! i = Some row) ∧
  (∀ current token request_id effect_id owner lease i a s,
     _companion_approval_id request_id "request_id" = Ok i →
     companion_approval_authorizations s !! i = Some a → mine a →
     ∃ e, @begin_companion_approval_effect _ (control_grants c2) current token request_id effect_id
       owner lease s = (Err e, s)).
Proof.
  intros Hrev Hlater mine. destruct (revocation_recorded _ _ _ _ _ Hrev) as (Hrow & Hh & Hn).
  pose proof (revoked_reads _ _ _ (revoked_forever _ _ _ _ Hlater Hrow) Hh Hn) as Hreads.
  split; intros; [by apply activate_not_added|by eapply begin_refused].
Qed.

(** An approved effect begins only while the control plane shows the authority for
    it: the authorization is active and unexpired, its device is not revoked, the
    device's current descriptor verifies, and a grant of that descriptor, signed by the
    human of the authorization and verifying now, has approval.sign. *)
Theorem approved_effect_authorized c current token request_id effect_id owner lease s s' item :
  control_run new_control_db c →
  @begin_companion_approval_effect _ (control_grants c) current token request_id effect_id owner
    lease s = (Ok item, s') →
  ∃ a d g, active_authorization s (eff_key item).1 = Some a ∧
    current < Approvals.grant_expires_ms a ∧
    ControlStore.is_human_device_revoked (Approvals.human_id a) (Approvals.device_node_id a) c = Ok false ∧
    current_descriptor current (Approvals.device_node_id a) c = Ok (Some d) ∧
    d_node_id d = Approvals.device_node_id a ∧
    g_human_id g = Approvals.human_id a ∧ g_device_node_id g = Approvals.device_node_id a ∧
    verify_grant current g d = Ok tt ∧ "approval.sign" ∈ g_capabilities g.
Proof.
  intros Hc%control_run_ok Hrun.
  pose proof (@begin_effect_run _ (control_grants c) current token request_id effect_id owner lease s)
    as H. unfold wp in H. rewrite Hrun in H.
  destruct H as (_ & i & e & o & _ & _ & _ & -> & [h Hcheck] & a & Ha & Hexp & _).
  unfold effect_check in Hcheck. cbn [fst] in Ha |- *. rewrite Ha in Hcheck.
  cbn [of_option mbind res_bind] in Hcheck. res_inv.
  match goal with H : _require_approval_grant _ _ _ = Ok ?u |- _ => destruct u;
    apply require_grant_inv in H as (Hrev & g & Hg & Hcap) end.
  destruct (human_device_grant_sound _ _ _ _ _ Hc Hg) as (Hgh & Hgd & d & Hcur & Hnode & Hv).
  by exists a, d, g.
Qed.
End devices.

(** ** The concrete device, approving *)

Section sample_devices.
#[local] Existing Instances sample_digests sample_signatures sample_urls sample_plain.

(** An authorization of the laptop of [ControlReads], with two uses *)
Definition laptop_authorization : Approvals.row :=
  Approvals.Row "d1" "p1" "h1" (d_node_id laptop) (g_human_id laptop_grant) (d_node_id laptop) "n1"
    "approved" Approvals.Active 2 40000 1800.
Definition authorized_db : db :=
  set_companion_approval_authorizations {[hex32 := laptop_authorization]} empty_db.
Definition laptop_effect (c : control_db) : res effect_item * db :=
  @begin_companion_approval_effect _ (control_grants c) 4000 "t1" hex32 (effect_id_ex "1") "w1" 30
    authorized_db.

(** The effect runs while the grant stands and is refused once it is revoked. *)
Example laptop_effect_runs :
  match (laptop_effect granted_db).1, (laptop_effect revoked_db).1 with
  | Ok item, Err (PermissionError _) => eff_acquired item
  | _, _ => false
  end = true.
Proof. vm_compute. reflexivity. Qed.

Lemma revoked_device_never_approves_witness :
  ∃ e, laptop_effect revoked_db = (Err e, authorized_db).
Proof.
  refine (proj2 (revoked_device_never_approves _ _ _ _ _ revoked_db revoked (rtc_refl _ _))
    4000 "t1" hex32 (effect_id_ex "1") "w1" 30%Q hex32 laptop_authorization authorized_db _ _ _).
  - vm_compute. reflexivity.
  - vm_compute. reflexivity.
  - vm_compute. by split.
Defined.
Lemma control_run_granted : control_run new_control_db granted_db.
Proof.
  apply (rtc_l _ _ described_db).
  - exists (OfferDescriptor 1500 laptop). cbn [store_accept]. by rewrite described.
  - apply rtc_once. exists (OfferGrant 1500 laptop_grant laptop). cbn [store_accept].
    by rewrite granted.
Qed.
Lemma approved_effect_authorized_witness :
  ∃ g, g_human_id g = Approvals.human_id laptop_authorization ∧
    "approval.sign" ∈ g_capabilities g.
Proof.
  assert (∃ item s', laptop_effect granted_db = (Ok item, s')) as (item & s' & Hrun).
  { exists (unwrap (EffectItem ("", "") (new_effect 0 0 "" "" "") VNone "" false)
      (laptop_effect granted_db).1), (laptop_effect granted_db).2. vm_compute. reflexivity. }
  destruct (approved_effect_authorized granted_db 4000 "t1" hex32 (effect_id_ex "1") "w1" 30%Q
    authorized_db s' item control_run_granted Hrun) as (a & d & g & Ha & _ & _ & _ & _ & Hh & _ & _ & Hc).
  exists g. split; [|exact Hc]. rewrite Hh.
  assert (eff_key item = (hex32, effect_id_ex "1")) as Hkey.
  { change item with (unwrap item (@Ok effect_item item)).
    replace (@Ok effect_item item) with (laptop_effect granted_db).1 by (by rewrite Hrun).
    vm_compute. reflexivity. }
  rewrite Hkey in Ha. change (Some laptop_authorization = Some a) in Ha. by injection Ha as <-.
Defined.
End sample_devices.
