(* ===== verification/Maintenance.v ===== *)
(** Housekeeping of [PacketStore] (src/anet/store.py): the data repairs of
    [_init_schema], revocation of a peer, purging, path metrics, route state and
    the status counters. *)
From S2P Require Import Prelude PyStr PyVal Schema Packet Queue Prekeys Consumers Tasks.

(** ** Opening an existing database *)

(** The two data repairs at the end of [_init_schema]: receipts and probes are
    never visible, and a packet its destination acknowledged is delivered. *)
Definition acked_by_destination (s : db) (packet_id : string) (p : Packets.row) : Prop :=
  Packets.delivered p = false ∧
  ∃ d, deliveries s !! (packet_id, Packets.destination_id p) = Some d ∧
       Deliveries.state d = Deliveries.Acked.
#[global] Instance acked_by_destination_dec s k p : Decision (acked_by_destination s k p).
Proof.
  unfold acked_by_destination. destruct (deliveries s !! _) as [d|] eqn:E.
  - destruct (decide (Packets.delivered p = false)); [|right; tauto].
    destruct (decide (Deliveries.state d = Deliveries.Acked)); [left; eauto|right].
    by intros (_ & d' & [= <-] & ?).
  - right. by intros (_ & d' & ? & _).
Defined.
Definition init_reconcile : M unit :=
  exec inbox set_inbox
    (update_where (λ _ i, Inbox.kind i ∈ ["receipt"; "network.probe"]) (Inbox.set_visible false));;
  modify (λ s, set_packets
    (update_where (acked_by_destination s) (Packets.set_delivered true) (packets s)) s).

(** ** Revocation *)

Record revocation := Revocation {
  rev_peer_id : string;
  expired_pending_packets : Z;
  reclassified_inbox : Z;
  revoked_consumer_deliveries : Z;
  retired_local_prekeys : Z;
  retired_peer_prekeys : Z;
  removed_routes : Z;
  removed_path_metrics : Z;
}.

Definition revoked_claim (r : Claims.row) : Claims.row :=
  Claims.Row Claims.Revoked (Claims.owner r) "" 0 0 (Claims.attempts r) (Claims.acked_ms r)
    "peer trust revoked".

(** The WHERE clauses of [revoke_peer]. *)
Definition rv_packet (peer_id : string) (now : Z) (k : string) (p : Packets.row) : Prop :=
  Packets.destination_id p = peer_id ∧ Packets.delivered p = false ∧ now < Packets.expires_ms p.
Definition rv_inbox (peer_id : string) (k : string) (i : Inbox.row) : Prop :=
  Inbox.sender_id i = peer_id ∧ Inbox.trusted i = true.
Definition rv_claim (messages : gmap string Inbox.row) (peer_id : string)
    (k : string * string) (r : Claims.row) : Prop :=
  (Inbox.sender_id <$> messages !! k.2) = Some peer_id ∧
  Claims.state r ≠ Claims.Acked ∧ Claims.state r ≠ Claims.Revoked.
Definition rv_local (peer_id : string) (k : string) (r : LocalPrekeys.row) : Prop :=
  LocalPrekeys.peer_id r = peer_id ∧ LocalPrekeys.state r ≠ LocalPrekeys.Revoked.
Definition rv_peer (peer_id : string) (k : string * string) (r : PeerPrekeys.row) : Prop :=
  k.1 = peer_id ∧ PeerPrekeys.state r ≠ PeerPrekeys.Revoked.
#[global] Instance rv_packet_dec p n k r : Decision (rv_packet p n k r).
Proof. unfold rv_packet. apply _. Defined.
#[global] Instance rv_inbox_dec p k r : Decision (rv_inbox p k r).
Proof. unfold rv_inbox. apply _. Defined.
#[global] Instance rv_claim_dec s p k r : Decision (rv_claim s p k r).
Proof. unfold rv_claim. apply _. Defined.
#[global] Instance rv_local_dec p k r : Decision (rv_local p k r).
Proof. unfold rv_local. apply _. Defined.
#[global] Instance rv_peer_dec p k r : Decision (rv_peer p k r).
Proof. unfold rv_peer. apply _. Defined.

(** [UPDATE t SET f WHERE P] and [DELETE FROM t WHERE P] with their rowcount;
    the clause may read other tables. *)
Section counted.
Context {K V : Type} `{Countable K} (get : db → gmap K V) (put : gmap K V → db → db).
Context (P : db → K → V → Prop) `{!∀ s k v, Decision (P s k v)}.
Definition update_count (f : V → V) : M Z :=
  n ← gets (λ s, count_where (P s) (get s));
  modify (λ s, put (update_where (P s) f (get s)) s);;
  mret n.
Definition delete_count : M Z :=
  n ← gets (λ s, count_where (P s) (get s));
  modify (λ s, put (delete_where (P s) (get s)) s);;
  mret n.
End counted.

Definition revoke_peer (now : Z) (peer_id : string) : M revocation :=
  peer_id ← lift (_prekey_peer_id peer_id);
  transaction (
    pending ← update_count packets set_packets (λ _, rv_packet peer_id now)
      (λ p, Packets.set_expires_ms (Z.min (Packets.expires_ms p) now) p);
    inbox_rows ← update_count inbox set_inbox (λ _, rv_inbox peer_id) (Inbox.set_trusted false);
    claims ← update_count consumer_deliveries set_consumer_deliveries
      (λ s, rv_claim (inbox s) peer_id) revoked_claim;
    local ← update_count local_prekeys set_local_prekeys (λ _, rv_local peer_id)
      (erase_private LocalPrekeys.Revoked now);
    peer ← update_count peer_prekeys set_peer_prekeys (λ _, rv_peer peer_id)
      (λ r, peer_row_to PeerPrekeys.Revoked "" (PeerPrekeys.packet_id r) now r);
    routes ← delete_count route_state set_route_state (λ _ k _, k = peer_id);
    metrics ← delete_count path_metrics set_path_metrics (λ _ k _, k.1 = peer_id);
    mret (Revocation peer_id pending inbox_rows claims local peer routes metrics)).

(** ** Purging *)

Record purge_report := PurgeReport {
  expired_packets : Z;
  orphan_deliveries : Z;
  orphan_delivery_paths : Z;
  orphan_receipts : Z;
  orphan_rejections : Z;
  old_transient_inbox : Z;
  orphan_consumer_deliveries : Z;
  expired_local_prekeys : Z;
  expired_peer_prekeys : Z;
}.

(** [packet_id NOT IN (SELECT packet_id FROM packets)] *)
Definition no_packet (s : db) (packet_id : string) : Prop := packets s !! packet_id = None.

Definition purge (now transient_retention_ms : Z) : M purge_report :=
  let transient_cutoff := now - Z.max 60000 transient_retention_ms in
  let local_prekey_cutoff := now - MAX_TTL_SECONDS * 1000 - MAX_CLOCK_SKEW_MS in
  expired ← delete_count packets set_packets (λ _ _ p, Packets.expires_ms p ≤ now);
  orphan_d ← delete_count deliveries set_deliveries (λ s k _, no_packet s k.1);
  orphan_p ← delete_count delivery_paths set_delivery_paths (λ s k _, no_packet s k.1.1);
  orphan_r ← delete_count receipts set_receipts (λ s k _, no_packet s k);
  orphan_j ← delete_count packet_rejections set_packet_rejections (λ s k _, no_packet s k);
  transient ← delete_count inbox set_inbox
    (λ _ _ i, Inbox.visible i = false ∧ Inbox.received_ms i ≤ transient_cutoff);
  orphan_c ← delete_count consumer_deliveries set_consumer_deliveries
    (λ s k _, inbox s !! k.2 = None);
  local ← update_count local_prekeys set_local_prekeys
    (λ _ _ r, LocalPrekeys.state r = LocalPrekeys.Available ∧
       LocalPrekeys.expires_ms r ≤ local_prekey_cutoff ∧ is_Some (LocalPrekeys.private_key r))
    (erase_private LocalPrekeys.Expired now);
  peer ← update_count peer_prekeys set_peer_prekeys
    (λ _ _ r, PeerPrekeys.state r = PeerPrekeys.Available ∧ PeerPrekeys.expires_ms r ≤ now)
    (λ r, peer_row_to PeerPrekeys.Expired (PeerPrekeys.reservation_id r)
            (PeerPrekeys.packet_id r) now r);
  mret (PurgeReport expired orphan_d orphan_p orphan_r orphan_j transient orphan_c local peer).

(** ** Paths and routes *)

(** [0.25 * latency_ms + 0.75 * previous], on exact rationals *)
Definition ewma_step (latency previous : Q) : Q :=
  if Qle_bool previous 0 then latency else (1 # 4) * latency + (3 # 4) * previous.
Definition b2z (b : bool) : Z := if b then 1 else 0.

Definition record_path_result (now : Z) (peer_id path_id : string) (success : bool)
    (latency_ms : Q) (error : string) : M unit :=
  let latency_ms := Qmax 0 latency_ms in
  row ← gets (λ s, path_metrics s !! (peer_id, path_id));
  let previous := match row with Some r => PathMetrics.ewma_rtt_ms r | None => 0%Q end in
  let ewma := if success then ewma_step latency_ms previous else previous in
  let error := if success then "" else slice 1000 error in
  exec path_metrics set_path_metrics (upsert (peer_id, path_id)
    (PathMetrics.Row 1 (b2z success) (b2z (negb success)) (b2z success) (b2z (negb success)) ewma
       now (if success then now else 0) (if success then 0 else now) error)
    (λ m, PathMetrics.Row
       (PathMetrics.attempts m + 1)
       (PathMetrics.successes m + b2z success)
       (PathMetrics.failures m + b2z (negb success))
       (if success then PathMetrics.consecutive_successes m + 1 else 0)
       (if success then 0 else PathMetrics.consecutive_failures m + 1)
       ewma now
       (if success then now else PathMetrics.last_ok_ms m)
       (if success then PathMetrics.last_failure_ms m else now)
       error)).

Definition path_metric (peer_id path_id : string) : M (option PathMetrics.row) :=
  gets (λ s, path_metrics s !! (peer_id, path_id)).
(** [path_metrics]; ORDER BY peer_id, path_id *)
Definition list_path_metrics (peer_id : string) : M (list ((string * string) * PathMetrics.row)) :=
  gets (λ s, order_by (λ kv, codes kv.1.1 ++ [-1] ++ codes kv.1.2)
    (select_where (λ k _, peer_id ≠ "" → k.1 = peer_id) (path_metrics s))).

Definition set_route (now : Z) (peer_id selected_path reason : string) : M Routes.row :=
  existing ← gets (λ s, route_state s !! peer_id);
  let row := match existing with
    | Some r => if String.eqb (Routes.selected_path r) selected_path
                then Routes.set_reason (slice 500 reason) r
                else Routes.Row selected_path now (slice 500 reason)
    | None => Routes.Row selected_path now (slice 500 reason)
    end in
  exec route_state set_route_state (insert peer_id row);;
  mret row.
Definition route (peer_id : string) : M (option Routes.row) := gets (λ s, route_state s !! peer_id).
Definition list_routes : M (list (string * Routes.row)) :=
  gets (λ s, order_by (λ kv, codes kv.1) (map_to_list (route_state s))).

(** ** Status *)

Record status_report := StatusReport {
  st_packets : Z; st_pending : Z; st_inbox : Z; st_unread : Z; st_untrusted : Z;
  st_receipts : Z; st_rejections : Z; st_transient : Z; st_consumer_groups : Z;
  st_active_claims : Z; st_agent_tasks : Z; st_active_agent_tasks : Z;
  st_agent_task_cancellations : Z; st_pending_agent_task_cancellations : Z;
  st_companion_requests : Z; st_companion_active : Z;
  st_companion_effects : list (Effects.state_t * Z);
  st_a2a_principals : Z; st_a2a_tasks : Z; st_a2a_messages : Z; st_a2a_events : Z;
  st_a2a_dispatches : Z; st_pending_a2a_dispatches : Z;
  st_pending_by_qos : list (qos * Z);
}.
(** [SELECT COUNT( * )]; GROUP BY lists the groups that occur. *)
Definition count_rows {K V} `{Countable K} (t : gmap K V) : Z := count_where (λ _ _, True) t.
Definition group_count {K V G} `{Countable K} `{EqDecision G} (groups : list G) (key : V → G)
    (P : V → Prop) `{!∀ v, Decision (P v)} (t : gmap K V) : list (G * Z) :=
  filter (λ e, e.2 ≠ 0)
    ((λ g, (g, count_where (λ _ v, P v ∧ key v = g) t)) <$> groups).

(** [now1 .. now4] are the clock readings of the four queries that take one. *)
Definition status (now1 now2 now3 now4 : Z) : M status_report :=
  gets (λ s, {|
    st_packets := count_rows (packets s);
    st_pending := count_where (λ _ p, Packets.delivered p = false ∧ now1 < Packets.expires_ms p)
      (packets s);
    st_inbox := count_where (λ _ i, Inbox.visible i = true) (inbox s);
    st_transient := count_where (λ _ i, Inbox.visible i = false) (inbox s);
    st_unread := count_where (λ _ i, Inbox.is_read i = false ∧ Inbox.visible i = true) (inbox s);
    st_untrusted := count_where (λ _ i, Inbox.trusted i = false ∧ Inbox.visible i = true) (inbox s);
    st_receipts := count_rows (receipts s);
    st_rejections := count_rows (packet_rejections s);
    st_consumer_groups := count_rows (consumer_groups s);
    st_active_claims := count_where
      (λ _ r, Claims.state r = Claims.Leased ∧ now2 < Claims.lease_until_ms r)
      (consumer_deliveries s);
    st_agent_tasks := count_rows (agent_task_executions s);
    st_active_agent_tasks := count_where (λ _ r, execution_active r) (agent_task_executions s);
    st_agent_task_cancellations := count_rows (agent_task_cancellations s);
    st_pending_agent_task_cancellations := count_where
      (λ _ c, Cancels.state c = Cancels.Requested) (agent_task_cancellations s);
    st_companion_requests := count_rows (companion_approval_requests s);
    st_companion_active := count_where
      (λ _ a, Approvals.state a = Approvals.Active ∧ now3 < Approvals.grant_expires_ms a)
      (companion_approval_authorizations s);
    st_companion_effects := group_count
      [Effects.Working; Effects.Retry; Effects.Executed; Effects.Rejected] Effects.state
      (λ _, True) (companion_approval_effects s);
    st_a2a_principals := count_rows (a2a_gateway_principals s);
    st_a2a_tasks := count_rows (a2a_gateway_tasks s);
    st_a2a_messages := count_rows (a2a_gateway_messages s);
    st_a2a_events := count_rows (a2a_gateway_events s);
    st_a2a_dispatches := count_rows (a2a_gateway_dispatches s);
    st_pending_a2a_dispatches := count_where
      (λ _ d, A2ADispatches.state d ≠ A2ADispatches.Dispatched) (a2a_gateway_dispatches s);
    st_pending_by_qos := group_count [Control; Interactive; Normal; Bulk] Packets.qos_class
      (λ p, Packets.delivered p = false ∧ now4 < Packets.expires_ms p) (packets s) |}).

(** ** What housekeeping establishes *)

Section counted_wp.
Context {K V : Type} `{Countable K} (get : db → gmap K V) (put : gmap K V → db → db).
Context (P : db → K → V → Prop) `{!∀ s k v, Decision (P s k v)}.

(** The new state is a variable with an equation, so that a sequence of
    statements does not nest its states. *)
Lemma wp_update_count f Q s :
  (∀ n s', s' = put (update_where (P s) f (get s)) s → Q (Ok n) s') →
  wp (update_count get put P f) Q s.
Proof. intros HQ. unfold update_count. wp_all. by apply HQ. Qed.
Lemma wp_delete_count Q s :
  (∀ n s', s' = put (delete_where (P s) (get s)) s → Q (Ok n) s') →
  wp (delete_count get put P) Q s.
Proof. intros HQ. unfold delete_count. wp_all. by apply HQ. Qed.
Lemma steps_update_count (R : relation db) `{!PreOrder R} f :
  (∀ s, R s (put (update_where (P s) f (get s)) s)) → steps R (update_count get put P f).
Proof. intros HR s. apply wp_update_count. by intros n s' ->. Qed.
Lemma steps_delete_count (R : relation db) `{!PreOrder R} :
  (∀ s, R s (put (delete_where (P s) (get s)) s)) → steps R (delete_count get put P).
Proof. intros HR s. apply wp_delete_count. by intros n s' ->. Qed.
End counted_wp.

Ltac wp_counted :=
  repeat (lazymatch goal with
    | |- wp (mbind _ _) _ _ => apply wp_bind
    | |- wp (update_count _ _ _ _) _ _ => apply wp_update_count
    | |- wp (delete_count _ _ _) _ _ => apply wp_delete_count
    | |- wp (mret _) _ _ => apply wp_ret
    | |- ∀ _ _, _ = _ → wp _ _ _ => intros ? ? ?
    end; cbv beta iota).
(** Follows a table back through the states of [wp_counted]. *)
Ltac follow_states :=
  repeat match goal with
  | H : ?s' = _ ?s |- context [?s'] => is_var s'; rewrite H; clear H s';
      cbn [packets deliveries inbox consumer_deliveries local_prekeys peer_prekeys receipts
        packet_rejections path_metrics route_state delivery_paths
        set_packets set_deliveries set_inbox set_consumer_deliveries set_local_prekeys
        set_peer_prekeys set_receipts set_packet_rejections set_path_metrics set_route_state
        set_delivery_paths]
  end.

(** No row the database keeps for [peer_id] allows further work at [now]. *)
Record peer_stopped (peer_id : string) (now : Z) (s : db) : Prop := {
  pst_packets : ∀ k p, packets s !! k = Some p → Packets.destination_id p = peer_id →
    Packets.delivered p = true ∨ Packets.expires_ms p ≤ now;
  pst_inbox : ∀ k i, inbox s !! k = Some i → Inbox.sender_id i = peer_id →
    Inbox.trusted i = false;
  pst_claims : ∀ g k i r, inbox s !! k = Some i → Inbox.sender_id i = peer_id →
    consumer_deliveries s !! (g, k) = Some r →
    Claims.state r = Claims.Acked ∨ Claims.state r = Claims.Revoked;
  pst_local : ∀ k r, local_prekeys s !! k = Some r → LocalPrekeys.peer_id r = peer_id →
    LocalPrekeys.state r = LocalPrekeys.Revoked ∧ LocalPrekeys.private_key r = None;
  pst_peer : ∀ k r, peer_prekeys s !! (peer_id, k) = Some r →
    PeerPrekeys.state r = PeerPrekeys.Revoked;
  pst_routes : route_state s !! peer_id = None;
  pst_metrics : ∀ path, path_metrics s !! (peer_id, path) = None;
}.
(** Nothing that belongs to someone else changed. *)
Record others_kept (peer_id : string) (s s' : db) : Prop := {
  ok_packets : ∀ k p, packets s !! k = Some p → Packets.destination_id p ≠ peer_id →
    packets s' !! k = Some p;
  ok_inbox : ∀ k i, inbox s !! k = Some i → Inbox.sender_id i ≠ peer_id →
    inbox s' !! k = Some i ∧ ∀ g, consumer_deliveries s' !! (g, k) = consumer_deliveries s !! (g, k);
  ok_local : ∀ k r, local_prekeys s !! k = Some r → LocalPrekeys.peer_id r ≠ peer_id →
    local_prekeys s' !! k = Some r;
  ok_peer : ∀ p k, p ≠ peer_id → peer_prekeys s' !! (p, k) = peer_prekeys s !! (p, k);
  ok_routes : ∀ p, p ≠ peer_id → route_state s' !! p = route_state s !! p;
  ok_metrics : ∀ p path, p ≠ peer_id → path_metrics s' !! (p, path) = path_metrics s !! (p, path);
}.

(** An erased key stays erased: only available keys have private bytes. *)
Definition keys_ok (s : db) : Prop :=
  ∀ k r, local_prekeys s !! k = Some r → LocalPrekeys.state r ≠ LocalPrekeys.Available →
    LocalPrekeys.private_key r = None.

Lemma lookup_delete_where_keep {K V} `{Countable K} (P : K → V → Prop)
    `{!∀ k v, Decision (P k v)} (t : gmap K V) k :
  (∀ v, ¬ P k v) → delete_where P t !! k = t !! k.
Proof.
  intros Hno. destruct (t !! k) as [v|] eqn:Hk.
  - apply lookup_delete_where_Some. eauto.
  - destruct (delete_where P t !! k) as [v|] eqn:E; [|done].
    apply lookup_delete_where_Some in E as [E _]. congruence.
Qed.
Lemma lookup_update_where_keep {K V} `{Countable K} (P : K → V → Prop)
    `{!∀ k v, Decision (P k v)} f (t : gmap K V) k :
  (∀ v, t !! k = Some v → ¬ P k v) → update_where P f t !! k = t !! k.
Proof.
  intros Hno. rewrite lookup_update_where. destruct (t !! k) as [v|] eqn:Hk; [|done]. simpl.
  by rewrite decide_False by (by apply Hno).
Qed.
Lemma lookup_delete_where_None {K V} `{Countable K} (P : K → V → Prop)
    `{!∀ k v, Decision (P k v)} (t : gmap K V) k :
  (∀ v, P k v) → delete_where P t !! k = None.
Proof.
  intros Hall. destruct (delete_where P t !! k) as [v|] eqn:E; [|done].
  apply lookup_delete_where_Some in E as [_ Hno]. by destruct (Hno (Hall v)).
Qed.

Section maintenance_lemmas.

(** The tables after a revocation. *)
Record revoked_tables (p : string) (now : Z) (s s' : db) : Prop := {
  rt_packets : packets s' = update_where (rv_packet p now)
    (λ r, Packets.set_expires_ms (Z.min (Packets.expires_ms r) now) r) (packets s);
  rt_inbox : inbox s' = update_where (rv_inbox p) (Inbox.set_trusted false) (inbox s);
  rt_claims : consumer_deliveries s' =
    update_where (rv_claim (inbox s') p) revoked_claim (consumer_deliveries s);
  rt_local : local_prekeys s' =
    update_where (rv_local p) (erase_private LocalPrekeys.Revoked now) (local_prekeys s);
  rt_peer : peer_prekeys s' = update_where (rv_peer p)
    (λ r, peer_row_to PeerPrekeys.Revoked "" (PeerPrekeys.packet_id r) now r) (peer_prekeys s);
  rt_routes : route_state s' = delete_where (λ k _, k = p) (route_state s);
  rt_metrics : path_metrics s' = delete_where (λ k _, k.1 = p) (path_metrics s);
}.

Lemma revoke_peer_tables now peer_id s :
  wp (revoke_peer now peer_id) (λ r s', match r with
    | Ok rev => ∃ p, _prekey_peer_id peer_id = Ok p ∧ rev_peer_id rev = p ∧
        revoked_tables p now s s'
    | Err _ => s' = s
    end) s.
Proof.
  unfold revoke_peer. wp_step. wp_step; [|done]. apply wp_transaction. wp_counted.
  eexists. split; [done|]. split; [done|].
  split; follow_states; reflexivity.
Qed.

Lemma revoked_tables_stopped p now s s' :
  keys_ok s → revoked_tables p now s s' → peer_stopped p now s'.
Proof.
  intros Hkeys [Hpackets Hinbox Hclaims Hlocal Hpeer Hroutes Hmetrics]. split.
  - rewrite Hpackets. intros k r (r0 & Hr0 & ->)%lookup_update_where_Some.
    unfold rv_packet. case_decide as Hd; simpl; [right; lia|]. intros Hdst.
    destruct (Packets.delivered r0); [by left|right].
    destruct (decide (Packets.expires_ms r0 ≤ now)); [done|]. destruct Hd. split_and!; [done|done|lia].
  - rewrite Hinbox. intros k i (i0 & Hi0 & ->)%lookup_update_where_Some.
    unfold rv_inbox. case_decide as Hd; [done|].
    intros Hs. destruct (Inbox.trusted i0) eqn:E; [|done]. by destruct Hd.
  - intros g k i r Hi Hs. rewrite Hclaims. intros (r0 & Hr0 & ->)%lookup_update_where_Some.
    case_decide as Hd; [by right|]. unfold rv_claim in Hd. simpl in Hd. rewrite Hi in Hd.
    simpl in Hd. rewrite Hs in Hd. destruct (Claims.state r0); auto; by destruct Hd.
  - rewrite Hlocal. intros k r (r0 & Hr0 & ->)%lookup_update_where_Some.
    unfold rv_local. case_decide as Hd; [done|].
    intros Hs. destruct (decide (LocalPrekeys.state r0 = LocalPrekeys.Revoked)) as [E|E];
      [|by destruct Hd]. split; [done|]. apply (Hkeys k r0); [done|by rewrite E].
  - rewrite Hpeer. intros k r (r0 & Hr0 & ->)%lookup_update_where_Some.
    unfold rv_peer. case_decide as Hd; [done|].
    destruct (decide (PeerPrekeys.state r0 = PeerPrekeys.Revoked)) as [E|E]; [done|by destruct Hd].
  - rewrite Hroutes. by apply lookup_delete_where_None.
  - rewrite Hmetrics. intros path. by apply lookup_delete_where_None.
Qed.

Lemma revoked_tables_others p now s s' : revoked_tables p now s s' → others_kept p s s'.
Proof.
  intros [Hpackets Hinbox Hclaims Hlocal Hpeer Hroutes Hmetrics].
  assert (∀ k i, inbox s !! k = Some i → Inbox.sender_id i ≠ p → inbox s' !! k = Some i) as Hsame.
  { intros k i Hi Hne. rewrite Hinbox, lookup_update_where_keep; [done|].
    intros i' Hi'. rewrite Hi in Hi'. injection Hi' as <-. by intros [? _]. }
  split.
  - intros k r Hr Hne. rewrite Hpackets, lookup_update_where_keep; [done|].
    intros r' Hr'. rewrite Hr in Hr'. injection Hr' as <-. by intros [? _].
  - intros k i Hi Hne. pose proof (Hsame k i Hi Hne) as Hi'. split; [done|].
    intros g. rewrite Hclaims, lookup_update_where_keep; [done|].
    intros r Hr [Hj _]. simpl in Hj. rewrite Hi' in Hj. simpl in Hj. congruence.
  - intros k r Hr Hne. rewrite Hlocal, lookup_update_where_keep; [done|].
    intros r' Hr'. rewrite Hr in Hr'. injection Hr' as <-. by intros [? _].
  - intros q k Hne. rewrite Hpeer. apply lookup_update_where_keep. intros r _ [? _]. simpl in *. congruence.
  - intros q Hne. rewrite Hroutes. by apply lookup_delete_where_keep.
  - intros q path Hne. rewrite Hmetrics. by apply lookup_delete_where_keep.
Qed.

(** The tables after a purge at [now] with [cutoff] for hidden messages. *)
Record purged_tables (now cutoff local_cutoff : Z) (s s' : db) : Prop := {
  pt_packets : packets s' = delete_where (λ _ p, Packets.expires_ms p ≤ now) (packets s);
  pt_deliveries : deliveries s' = delete_where (λ k _, no_packet s' k.1) (deliveries s);
  pt_paths : delivery_paths s' = delete_where (λ k _, no_packet s' k.1.1) (delivery_paths s);
  pt_receipts : receipts s' = delete_where (λ k _, no_packet s' k) (receipts s);
  pt_rejections : packet_rejections s' =
    delete_where (λ k _, no_packet s' k) (packet_rejections s);
  pt_inbox : inbox s' =
    delete_where (λ _ i, Inbox.visible i = false ∧ Inbox.received_ms i ≤ cutoff) (inbox s);
  pt_claims : consumer_deliveries s' =
    delete_where (λ k _, inbox s' !! k.2 = None) (consumer_deliveries s);
  pt_local : local_prekeys s' = update_where
    (λ _ r, LocalPrekeys.state r = LocalPrekeys.Available ∧
       LocalPrekeys.expires_ms r ≤ local_cutoff ∧ is_Some (LocalPrekeys.private_key r))
    (erase_private LocalPrekeys.Expired now) (local_prekeys s);
  pt_peer : peer_prekeys s' = update_where
    (λ _ r, PeerPrekeys.state r = PeerPrekeys.Available ∧ PeerPrekeys.expires_ms r ≤ now)
    (λ r, peer_row_to PeerPrekeys.Expired (PeerPrekeys.reservation_id r)
            (PeerPrekeys.packet_id r) now r) (peer_prekeys s);
}.

Lemma purge_tables now retention s :
  wp (purge now retention) (λ r s', is_Ok r ∧
    purged_tables now (now - Z.max 60000 retention)
      (now - MAX_TTL_SECONDS * 1000 - MAX_CLOCK_SKEW_MS) s s') s.
Proof.
  unfold purge. wp_counted. split; [by eexists|].
  split; unfold no_packet; follow_states; reflexivity.
Qed.

(** A row that refers to a packet survives exactly when its packet does. *)
Lemma lookup_orphan {K V} `{Countable K} (packet_of : K → string) (s' : db) (t : gmap K V) k v :
  delete_where (λ k _, no_packet s' (packet_of k)) t !! k = Some v ↔
  t !! k = Some v ∧ is_Some (packets s' !! packet_of k).
Proof.
  rewrite lookup_delete_where_Some. unfold no_packet.
  destruct (packets s' !! packet_of k); naive_solver.
Qed.
End maintenance_lemmas.

Section maintenance_theorems.

(** Revoking a peer stops it and nobody else.  Afterwards no undelivered
    packet to it is live, none of its messages is trusted, every claim on its
    messages is settled, every prekey it or we hold for the other is revoked with
    the private bytes erased, and its route and path metrics are gone; the rows
    of every other peer are the ones from before, and an invalid peer id changes
    nothing. *)
Theorem revoke_peer_spec now peer_id s :
  keys_ok s →
  let '(r, s') := revoke_peer now peer_id s in
  match r with
  | Ok rev => ∃ p, _prekey_peer_id peer_id = Ok p ∧ rev_peer_id rev = p ∧
      peer_stopped p now s' ∧ others_kept p s s'
  | Err _ => s' = s
  end.
Proof.
  intros Hok. pose proof (revoke_peer_tables now peer_id s) as H. unfold wp in H.
  destruct (revoke_peer now peer_id s) as [[rev|e] s']; [|done].
  destruct H as (p & Hp & Hrev & Ht).
  eauto 10 using revoked_tables_stopped, revoked_tables_others.
Qed.

(** A purge always succeeds and removes only what is dead: exactly the packets
    that have not expired stay, with every delivery, path, receipt and rejection
    row that refers to one of them and no other; visible messages and recent
    hidden ones stay with their claims; a private prekey is erased only once no
    message for it can still be accepted, and an unused peer prekey is given up
    once it expired. *)
Theorem purge_spec now retention s :
  let '(r, s') := purge now retention s in
  is_Ok r ∧
  (∀ k p, packets s' !! k = Some p ↔ packets s !! k = Some p ∧ now < Packets.expires_ms p) ∧
  (∀ k d, deliveries s' !! k = Some d ↔
     deliveries s !! k = Some d ∧ is_Some (packets s' !! k.1)) ∧
  (∀ k d, delivery_paths s' !! k = Some d ↔
     delivery_paths s !! k = Some d ∧ is_Some (packets s' !! k.1.1)) ∧
  (∀ k d, receipts s' !! k = Some d ↔ receipts s !! k = Some d ∧ is_Some (packets s' !! k)) ∧
  (∀ k d, packet_rejections s' !! k = Some d ↔
     packet_rejections s !! k = Some d ∧ is_Some (packets s' !! k)) ∧
  (∀ k i, inbox s' !! k = Some i ↔ inbox s !! k = Some i ∧
     (Inbox.visible i = true ∨ now - Z.max 60000 retention < Inbox.received_ms i)) ∧
  (∀ k c, consumer_deliveries s' !! k = Some c ↔
     consumer_deliveries s !! k = Some c ∧ is_Some (inbox s' !! k.2)) ∧
  (∀ k r, local_prekeys s !! k = Some r →
     now < LocalPrekeys.expires_ms r + MAX_TTL_SECONDS * 1000 + MAX_CLOCK_SKEW_MS →
     local_prekeys s' !! k = Some r) ∧
  (∀ k r', peer_prekeys s' !! k = Some r' → PeerPrekeys.state r' = PeerPrekeys.Available →
     now < PeerPrekeys.expires_ms r' ∧ peer_prekeys s !! k = Some r').
Proof.
  pose proof (purge_tables now retention s) as H. unfold wp in H.
  destruct (purge now retention s) as [r s']. simpl in H. destruct H as [Hr Ht].
  split; [done|]. destruct Ht as [Hpk Hd Hp Hrc Hrj Hin Hc Hl Hpr]. split_and!.
  - intros k p. rewrite Hpk, lookup_delete_where_Some, Z.nle_gt. done.
  - intros k d. rewrite Hd. apply (lookup_orphan (λ k, k.1)).
  - intros k d. rewrite Hp. apply (lookup_orphan (λ k, k.1.1)).
  - intros k d. rewrite Hrc. apply (lookup_orphan (λ k, k)).
  - intros k d. rewrite Hrj. apply (lookup_orphan (λ k, k)).
  - intros k i. rewrite Hin, lookup_delete_where_Some. simpl.
    destruct (Inbox.visible i); naive_solver lia.
  - intros k c. rewrite Hc, lookup_delete_where_Some. destruct (inbox s' !! k.2); naive_solver.
  - intros k r0 Hr0 Hlive. rewrite Hl, lookup_update_where_keep; [done|].
    intros v Hv. rewrite Hr0 in Hv. injection Hv as <-. intros (_ & ? & _). lia.
  - intros k r'. rewrite Hpr. intros (r0 & Hr0 & ->)%lookup_update_where_Some.
    case_decide as Hd'; simpl; [done|]. intros Hst. split; [|done].
    apply Z.nle_gt. intros Hle. by destruct Hd'.
Qed.
End maintenance_theorems.

(** ** Witness: revoking a sender whose message is being worked on *)

Definition revoked_sender : string := "an1aaaaaaaaaaaaaaaaaaaa".
Lemma revoke_peer_spec_witness :
  keys_ok started_db ∧
  (revoke_peer 5000 revoked_sender started_db).1 =
    Ok (Revocation revoked_sender 0 1 1 0 0 0 0) ∧
  peer_stopped revoked_sender 5000 (revoke_peer 5000 revoked_sender started_db).2.
Proof.
  assert (keys_ok started_db) as Hok.
  { assert (local_prekeys started_db = ∅) as E by (vm_compute; reflexivity).
    intros k r. rewrite E, lookup_empty. discriminate. }
  assert ((revoke_peer 5000 revoked_sender started_db).1 =
    Ok (Revocation revoked_sender 0 1 1 0 0 0 0)) as Hrun by (vm_compute; reflexivity).
  split; [exact Hok|]. split; [exact Hrun|].
  pose proof (revoke_peer_spec 5000 revoked_sender started_db Hok) as H.
  revert H Hrun. generalize (revoke_peer 5000 revoked_sender started_db).
  intros [r s'] H Hrun. simpl in Hrun. subst r. destruct H as (p & _ & Hp & H & _).
  simpl in Hp. subst p. exact H.
Defined.
