(* ===== verification/Routing.v ===== *)
(** Choice of paths (src/anet/routing.py) and the schedules of background work
    (src/anet/scheduling.py).  Scores, seconds and samples are exact rationals. *)
From Stdlib Require Import QArith Qminmax Qround Lqa.
From S2P Require Import Prelude PyStr PyVal Schema Maintenance.
#[local] Open Scope Z_scope.

(** ** Carriers and the configuration the router reads *)

(** The classes of config.py by the prefix of their [path_id] *)
Inductive carrier_kind := Directory | Webdav | Ahub.
Record carrier := Carrier {
  carrier_class : carrier_kind;
  name : string;
  mode : string;
  priority : Z;
  enabled : bool;
}.
Definition path_id (c : carrier) : string :=
  (match carrier_class c with Directory => "directory:" | Webdav => "webdav:" | Ahub => "ahub:" end)
    +:+ name c.
Record RoutingConfig := {
  direct_failure_threshold : Z;
  direct_recovery_threshold : Z;
  carrier_failure_threshold : Z;
  carrier_recovery_threshold : Z;
  carrier_replica_count : Z;
  switch_cooldown : Q;
}.
(** [from_dict] on the fields the router reads, once they are numbers *)
Definition routing_config (direct_failure direct_recovery carrier_failure carrier_recovery replicas : Z)
    (cooldown : Q) : RoutingConfig :=
  let clamp hi n := Z.max 1 (Z.min n hi) in {|
    direct_failure_threshold := clamp 20 direct_failure;
    direct_recovery_threshold := clamp 20 direct_recovery;
    carrier_failure_threshold := clamp 20 carrier_failure;
    carrier_recovery_threshold := clamp 20 carrier_recovery;
    carrier_replica_count := clamp 4 replicas;
    switch_cooldown := Qmax 0 cooldown |}.

Definition FAST_FAILOVER_QOS : list qos := [Control; Interactive].
Definition all_qos : list qos := [Control; Interactive; Normal; Bulk].
Record RouteDecision := {
  peer_id : string;
  selected_path : string;
  reason : string;
  push_qos : gmap string (list qos);
  changed : bool;
}.

(** [int(q)] *)
Definition trunc_Q (q : Q) : Z := Z.quot (Qnum q) (Zpos (Qden q)).

(** ** Reading the metrics of a peer *)

Definition consecutive_failures (s : db) (peer path : string) : Z :=
  match path_metrics s !! (peer, path) with Some m => PathMetrics.consecutive_failures m | None => 0 end.
Definition consecutive_successes (s : db) (peer path : string) : Z :=
  match path_metrics s !! (peer, path) with Some m => PathMetrics.consecutive_successes m | None => 0 end.
Definition ewma_rtt (s : db) (peer path : string) : Q :=
  match path_metrics s !! (peer, path) with Some m => PathMetrics.ewma_rtt_ms m | None => 0%Q end.
Definition _score (s : db) (peer : string) (c : carrier) : Q :=
  (inject_Z (priority c) * 100 + inject_Z (consecutive_failures s peer (path_id c)) * 10000 +
     ewma_rtt s peer (path_id c))%Q.

(** [key=lambda carrier: (self._score(peer_id, carrier), carrier.name)] *)
Definition score_le (s : db) (peer : string) (a b : carrier) : Prop :=
  match (_score s peer a ?= _score s peer b)%Q with
  | Lt => True
  | Eq => zlex (codes (name a)) (codes (name b)) = true
  | Gt => False
  end.
#[global] Instance score_le_dec s peer : RelDecision (score_le s peer).
Proof. intros a b. unfold score_le. destruct (_ ?= _)%Q; apply _. Defined.

Definition pushable (c : carrier) : Prop := enabled c = true ∧ mode c ≠ "receive-only".
#[global] Instance pushable_dec c : Decision (pushable c).
Proof. unfold pushable. apply _. Defined.
Definition usable_carriers (s : db) (peer : string) (carriers : list carrier) : list carrier :=
  merge_sort (score_le s peer) (filter pushable carriers).
Definition is_healthy (config : RoutingConfig) (s : db) (peer : string) (c : carrier) : Prop :=
  consecutive_failures s peer (path_id c) < carrier_failure_threshold config.
#[global] Instance is_healthy_dec config s peer c : Decision (is_healthy config s peer c).
Proof. unfold is_healthy. apply _. Defined.

(** ** The decision *)

(** [next((c for c in usable if c.path_id == path), None)] *)
Definition carrier_of (path : string) (usable : list carrier) : option carrier :=
  head (filter (λ c, path_id c = path) usable).
Definition or_path (best : option carrier) (otherwise : string) : string :=
  match best with Some c => path_id c | None => otherwise end.

(** A fallback [current] is selected. *)
Definition from_fallback (config : RoutingConfig) (s : db) (peer current : string) (has_direct cooled : bool)
    (usable healthy : list carrier) (best : option carrier) : string * string :=
  let successes := consecutive_successes s peer "direct" in
  match carrier_of current usable with
  | None => (or_path best (if has_direct then "direct" else "none"), "selected fallback disappeared")
  | Some _ =>
      let failures := consecutive_failures s peer current in
      let failed := carrier_failure_threshold config <=? failures in
      match head (filter (λ c, path_id c ≠ current) healthy), failed with
      | Some c, true =>
          (path_id c, "fallback " +:+ current +:+ " failed " +:+ str_of_Z failures +:+ " consecutive probes")
      | _, _ =>
          if has_direct && (direct_recovery_threshold config <=? successes) && cooled then
            ("direct", "direct recovered for " +:+ str_of_Z successes +:+ " consecutive probes")
          else
            match best with
            | Some b =>
                if negb (String.eqb (path_id b) current) && cooled &&
                   (carrier_recovery_threshold config <=? consecutive_successes s peer (path_id b))
                then (path_id b, "preferred fallback " +:+ path_id b +:+ " recovered for " +:+
                        str_of_Z (carrier_recovery_threshold config) +:+ " probes")
                else (current, if failed then "fallback held; all alternatives unhealthy"
                               else "fallback held by recovery hysteresis")
            | None => (current, if failed then "fallback held; all alternatives unhealthy"
                                else "fallback held by recovery hysteresis")
            end
      end
  end.
(** The direct path, "none" or nothing is selected. *)
Definition from_direct (config : RoutingConfig) (s : db) (peer current : string) (has_direct : bool)
    (best : option carrier) : string * string :=
  let failures := consecutive_failures s peer "direct" in
  let down := "direct failed " +:+ str_of_Z failures +:+ " consecutive probes" in
  if negb has_direct then (or_path best "none", "direct path unavailable")
  else match best, direct_failure_threshold config <=? failures with
       | Some b, true => (path_id b, down)
       | _, _ => ("direct", if String.eqb current "none" then "direct available"
                            else "direct healthy or below failure threshold")
       end.
Definition is_fallback (path : string) : Prop := path ∉ [""; "direct"; "none"].
#[global] Instance is_fallback_dec path : Decision (is_fallback path).
Proof. unfold is_fallback. apply _. Defined.

(** Adds the classes [qs] to what the named carriers get. *)
Definition push_to (names : list string) (qs : list qos) (push : gmap string (list qos))
    : gmap string (list qos) :=
  foldl (λ push n, let old := default [] (push !! n) in <[n := old ++ filter (λ q, q ∉ old) qs]> push)
    push names.
(** The traffic classes pushed to each carrier, by name; the replica count is positive, as
    [from_dict] makes it. *)
Definition pushes (config : RoutingConfig) (s : db) (peer selected : string) (carriers usable healthy : list carrier)
    (best : option carrier) : gmap string (list qos) :=
  let candidates := match healthy with [] => usable | _ => healthy end in
  let always := push_to (name <$> filter (λ c, pushable c ∧ mode c = "always") carriers) all_qos ∅ in
  let replicas l := name <$> take (Z.to_nat (carrier_replica_count config)) l in
  match carrier_of selected usable with
  | Some c =>
      push_to (replicas (c :: filter (λ d, path_id d ≠ path_id c) candidates)) all_qos always
  | None =>
      if String.eqb selected "direct" && (1 <=? consecutive_failures s peer "direct") &&
         bool_decide (best ≠ None)
      then push_to (replicas candidates) FAST_FAILOVER_QOS always
      else always
  end.
(** [healthy[0] if healthy else (usable[0] if usable else None)] *)
Definition best_of (usable healthy : list carrier) : option carrier :=
  match healthy with c :: _ => Some c | [] => head usable end.
(** The selected path and the reason, at the clock reading [now] *)
Definition choose (now : Z) (config : RoutingConfig) (s : db) (peer : string) (has_direct : bool)
    (carriers : list carrier) : string * string :=
  let usable := usable_carriers s peer carriers in
  let healthy := filter (is_healthy config s peer) usable in
  let best := best_of usable healthy in
  let current := match route_state s !! peer with Some r => Routes.selected_path r | None => "" end in
  let switched := match route_state s !! peer with Some r => Routes.switched_ms r | None => 0 end in
  let cooled := trunc_Q (switch_cooldown config * 1000) <=? now - switched in
  if bool_decide (is_fallback current)
  then from_fallback config s peer current has_direct cooled usable healthy best
  else from_direct config s peer current has_direct best.
(** [now'] is the reading of [set_route]; the metrics are read one after the other by the
    thread that decides. *)
Definition decide (now now' : Z) (config : RoutingConfig) (peer : string) (has_direct : bool)
    (carriers : list carrier) : M RouteDecision :=
  s ← gets id;
  let usable := usable_carriers s peer carriers in
  let healthy := filter (is_healthy config s peer) usable in
  let current := match route_state s !! peer with Some r => Routes.selected_path r | None => "" end in
  let '(selected, reason) := choose now config s peer has_direct carriers in
  state ← set_route now' peer selected reason;
  mret {| peer_id := peer; selected_path := Routes.selected_path state; reason := reason;
          push_qos := pushes config s peer (Routes.selected_path state) carriers usable healthy
                        (best_of usable healthy);
          changed := negb (String.eqb current selected) |}.

(** ** Schedules *)

Record AdaptiveSchedule := Schedule {
  base_interval : Q;
  jitter : Q;
  max_backoff : Q;
  idle_rounds : Z;
  next_due : Q;
  last_delay : Q;
}.
Definition new_schedule (base_interval jitter max_backoff : Q) : res AdaptiveSchedule :=
  raise_if (Qle_bool base_interval 0) (ValueError "schedule interval must be positive");;
  raise_if (negb (Qle_bool 0 jitter && Qle_bool jitter (9 # 10)))
    (ValueError "schedule jitter must be between 0 and 0.9");;
  raise_if (negb (Qle_bool 1 max_backoff)) (ValueError "schedule max backoff must be at least 1");;
  mret (Schedule base_interval jitter max_backoff 0 0 0).
Definition due (sch : AdaptiveSchedule) (now : Q) (force newly_pending : bool) : bool :=
  force || newly_pending || Qle_bool (next_due sch) now.
Definition with_idle (rounds : Z) (sch : AdaptiveSchedule) : AdaptiveSchedule :=
  Schedule (base_interval sch) (jitter sch) (max_backoff sch) rounds (next_due sch) (last_delay sch).
Definition reset_backoff : ST AdaptiveSchedule unit := modify (with_idle 0).
(** [multiplier * jitter_factor] *)
Definition multiplier (sch : AdaptiveSchedule) : Q :=
  Qmin (max_backoff sch) (inject_Z (2 ^ Z.min (Z.max 0 (idle_rounds sch - 1)) 30)).
Definition jitter_factor (sch : AdaptiveSchedule) (sample : Q) : Q :=
  (1 - jitter sch + 2 * jitter sch * Qmax 0 (Qmin 1 sample))%Q.
(** [sample] is the value the sampling function returns; the round is counted before an
    interval that is not positive is refused. *)
Definition record (now : Q) (activity : bool) (interval : option Q) (sample : Q) : ST AdaptiveSchedule Q :=
  modify (λ sch, with_idle (if activity then 0 else Z.min (idle_rounds sch + 1) 1000000) sch);;
  sch ← gets id;
  let interval := default (base_interval sch) interval in
  lift (raise_if (Qle_bool interval 0) (ValueError "schedule interval override must be positive"));;
  let delay := Qmax (1 # 20) (interval * multiplier sch * jitter_factor sch sample)%Q in
  modify (λ sch, Schedule (base_interval sch) (jitter sch) (max_backoff sch) (idle_rounds sch)
                   (now + delay)%Q delay);;
  mret delay.

(** ** Lemmas on the decision *)

Lemma score_le_total s peer : Total (score_le s peer).
Proof.
  intros a b. unfold score_le. rewrite <- (Qcompare_antisym (_score s peer b) (_score s peer a)).
  destruct (_score s peer b ?= _score s peer a)%Q; simpl; auto. apply zlex_total.
Qed.
Lemma elem_of_usable s peer carriers c :
  c ∈ usable_carriers s peer carriers ↔ pushable c ∧ c ∈ carriers.
Proof. unfold usable_carriers. by rewrite merge_sort_Permutation, list_elem_of_filter. Qed.
Lemma head_filter_Some {A} (P : A → Prop) `{!∀ x, Decision (P x)} l x :
  head (filter P l) = Some x → P x ∧ x ∈ l.
Proof.
  intros Hhead. apply (proj1 (list_elem_of_filter P l x)). destruct (filter P l) as [|y l']; [done|].
  injection Hhead as ->. by left.
Qed.
Lemma carrier_of_Some path usable c : carrier_of path usable = Some c → path_id c = path ∧ c ∈ usable.
Proof. apply (head_filter_Some (λ c, path_id c = path)). Qed.
Lemma carrier_of_known path usable c : path_id c = path → c ∈ usable → carrier_of path usable ≠ None.
Proof.
  intros Hp Hc. unfold carrier_of. assert (c ∈ filter (λ c, path_id c = path) usable) as Hin
    by by apply list_elem_of_filter.
  destruct (filter _ usable) as [|d l]; [by apply not_elem_of_nil in Hin|done].
Qed.
Lemma path_id_fallback c : is_fallback (path_id c).
Proof.
  unfold is_fallback, path_id. rewrite !elem_of_cons, elem_of_nil.
  destruct (carrier_class c); simpl; intros [H|[H|[H|[]]]]; discriminate H.
Qed.

(** The choice: [direct], a usable carrier, or neither *)
Inductive sound (has_direct : bool) (usable : list carrier) (selected : string) : Prop :=
  | sound_direct : selected = "direct" → has_direct = true → sound has_direct usable selected
  | sound_none : selected = "none" → has_direct = false → usable = [] → sound has_direct usable selected
  | sound_carrier c : selected = path_id c → c ∈ usable → sound has_direct usable selected.
Lemma best_of_Some usable healthy b :
  (∀ c, c ∈ healthy → c ∈ usable) → best_of usable healthy = Some b → b ∈ usable.
Proof.
  intros Hsub. destruct healthy as [|h l]; simpl.
  - destruct usable; [done|]. intros [= ->]. by left.
  - intros [= ->]. apply Hsub. by left.
Qed.
Lemma best_of_None usable healthy : best_of usable healthy = None → usable = [].
Proof. destruct healthy; [|done]. by destruct usable. Qed.
Lemma or_path_sound has_direct usable healthy :
  (∀ c, c ∈ healthy → c ∈ usable) →
  sound has_direct usable (or_path (best_of usable healthy) (if has_direct then "direct" else "none")).
Proof.
  intros Hsub. destruct (best_of usable healthy) as [b|] eqn:E; simpl.
  - eapply sound_carrier; [done|]. by eapply best_of_Some.
  - apply best_of_None in E. destruct has_direct; [by apply sound_direct|by apply sound_none].
Qed.
Lemma from_fallback_sound config s peer current has_direct cooled usable healthy :
  (∀ c, c ∈ healthy → c ∈ usable) →
  sound has_direct usable
    (from_fallback config s peer current has_direct cooled usable healthy (best_of usable healthy)).1.
Proof.
  intros Hsub. unfold from_fallback.
  destruct (carrier_of current usable) as [c|] eqn:Hc; [|by apply or_path_sound].
  apply carrier_of_Some in Hc as [Hp Hc].
  assert (sound has_direct usable current) as Hheld by by eapply sound_carrier.
  destruct (head (filter (λ c, path_id c ≠ current) healthy)) as [a|] eqn:Ha;
    [apply head_filter_Some in Ha as [_ Ha]|];
    destruct (_ <=? consecutive_failures _ _ _); simpl;
    try (eapply sound_carrier; [done|by apply Hsub]);
    destruct (has_direct && _ && _) eqn:Hd; simpl;
    try (rewrite !andb_true_iff in Hd; apply sound_direct; tauto);
    destruct (best_of usable healthy) as [b|] eqn:Hb; try done;
    destruct (negb _ && _ && _); try done; eapply sound_carrier; try done; by eapply best_of_Some.
Qed.
Lemma from_direct_sound config s peer current has_direct usable healthy :
  (∀ c, c ∈ healthy → c ∈ usable) →
  sound has_direct usable (from_direct config s peer current has_direct (best_of usable healthy)).1.
Proof.
  intros Hsub. unfold from_direct. destruct has_direct; simpl; [|by apply (or_path_sound false)].
  destruct (best_of usable healthy) as [b|] eqn:Hb; [|by apply sound_direct].
  destruct (_ <=? _); [|by apply sound_direct]. eapply sound_carrier; [done|]. by eapply best_of_Some.
Qed.

Lemma choose_sound now config s peer has_direct carriers :
  sound has_direct (usable_carriers s peer carriers) (choose now config s peer has_direct carriers).1.
Proof.
  unfold choose. cbv zeta.
  case_bool_decide; [apply from_fallback_sound|apply from_direct_sound]; intros c Hc;
    by apply list_elem_of_filter in Hc as [_ ?].
Qed.
(** The row [set_route] leaves *)
Definition routed (now : Z) (selected reason : string) (old : option Routes.row) : Routes.row :=
  match old with
  | Some r => if String.eqb (Routes.selected_path r) selected
              then Routes.set_reason (slice 500 reason) r
              else Routes.Row selected now (slice 500 reason)
  | None => Routes.Row selected now (slice 500 reason)
  end.
Lemma routed_path now selected reason old : Routes.selected_path (routed now selected reason old) = selected.
Proof. destruct old as [r|]; simpl; [|done]. destruct (String.eqb_spec (Routes.selected_path r) selected); by simpl. Qed.
Lemma decide_run now now' config peer has_direct carriers s :
  let '(selected, reason) := choose now config s peer has_direct carriers in
  ∃ d, decide now now' config peer has_direct carriers s =
      (Ok d, set_route_state (<[peer := routed now' selected reason (route_state s !! peer)]> (route_state s)) s) ∧
    selected_path d = selected ∧
    push_qos d = pushes config s peer selected carriers (usable_carriers s peer carriers)
      (filter (is_healthy config s peer) (usable_carriers s peer carriers))
      (best_of (usable_carriers s peer carriers)
         (filter (is_healthy config s peer) (usable_carriers s peer carriers))).
Proof.
  destruct (choose now config s peer has_direct carriers) as [selected reason] eqn:E.
  unfold decide, set_route, exec. cbv [mbind ST_bind gets modify mret ST_ret id]. rewrite E.
  fold (routed now' selected reason (route_state s !! peer)). eexists. split; [done|].
  cbn [selected_path push_qos]. by rewrite routed_path.
Qed.

(** What is pushed *)
Lemma push_to_covers names qs push n q :
  n ∈ names → q ∈ qs → q ∈ default [] (push_to names qs push !! n).
Proof.
  intros Hn Hq. unfold push_to.
  assert (∀ names push, q ∈ default [] (push !! n) → q ∈ default [] (push_to names qs push !! n)) as Hkeep.
  { clear names push Hn. induction names as [|m names IH]; intros push Hin; [done|]. apply IH.
    destruct (base.decide (m = n)) as [->|Hne]; [|by rewrite lookup_insert_ne].
    rewrite lookup_insert_eq. simpl. apply elem_of_app. by left. }
  revert push Hn. induction names as [|m names IH]; intros push Hn; [by apply not_elem_of_nil in Hn|].
  apply elem_of_cons in Hn as [<-|Hn]; [|by apply IH]. apply Hkeep. rewrite lookup_insert_eq. simpl.
  apply elem_of_app. rewrite list_elem_of_filter.
  destruct (base.decide (q ∈ default [] (push !! n))); auto.
Qed.

Lemma push_to_names names qs push n :
  push_to names qs push !! n ≠ None → n ∈ names ∨ push !! n ≠ None.
Proof.
  unfold push_to. revert push. induction names as [|m names IH]; intros push Hn; [by right|].
  destruct (IH _ Hn) as [Hin|Hin]; [left; by right|].
  destruct (base.decide (m = n)) as [->|Hne]; [left; by left|]. right. by rewrite lookup_insert_ne in Hin.
Qed.
Lemma candidates_in config s peer usable c :
  c ∈ match filter (is_healthy config s peer) usable with
      | [] => usable | _ => filter (is_healthy config s peer) usable end → c ∈ usable.
Proof.
  destruct (filter (is_healthy config s peer) usable) as [|h l] eqn:E; [done|].
  rewrite <- E. by intros [_ ?]%list_elem_of_filter.
Qed.
Lemma push_to_grows names qs push n q :
  q ∈ default [] (push !! n) → q ∈ default [] (push_to names qs push !! n).
Proof.
  intros Hin. destruct (base.decide (n ∈ names)) as [Hn|Hn].
  - revert push Hin. unfold push_to. clear Hn. induction names as [|m names IH]; intros push Hin; [done|]. apply IH.
    destruct (base.decide (m = n)) as [->|Hne]; [|by rewrite lookup_insert_ne].
    rewrite lookup_insert_eq. simpl. apply elem_of_app. by left.
  - revert push Hin. unfold push_to. induction names as [|m names IH]; intros push Hin; [done|].
    apply not_elem_of_cons in Hn as [Hne Hn]. apply IH; [done|]. by rewrite lookup_insert_ne.
Qed.

Section pushes.
Context (config : RoutingConfig) (s : db) (peer : string) (carriers : list carrier).
Let usable := usable_carriers s peer carriers.
Let healthy := filter (is_healthy config s peer) usable.
Let sent selected := pushes config s peer selected carriers usable healthy (best_of usable healthy).
Hypothesis Hreplicas : 1 ≤ carrier_replica_count config.

Lemma all_classes q : q ∈ all_qos.
Proof. unfold all_qos. rewrite !elem_of_cons. destruct q; tauto. Qed.
Lemma replica_head (c : carrier) l : c ∈ take (Z.to_nat (carrier_replica_count config)) (c :: l).
Proof.
  replace (Z.to_nat (carrier_replica_count config)) with (S (Z.to_nat (carrier_replica_count config - 1))) by lia.
  simpl. by left.
Qed.
Lemma pushes_names selected n : sent selected !! n ≠ None → ∃ c, c ∈ carriers ∧ pushable c ∧ name c = n.
Proof.
  assert (∀ k l, (∀ c, c ∈ l → c ∈ usable) → n ∈ name <$> take k l →
    ∃ c, c ∈ carriers ∧ pushable c ∧ name c = n) as Htake.
  { intros k l Hl (c & -> & Hc%elem_of_take_elem)%list_elem_of_fmap. exists c.
    apply Hl, elem_of_usable in Hc as [? ?]. done. }
  assert (push_to (name <$> filter (λ c, pushable c ∧ mode c = "always") carriers) all_qos ∅ !! n ≠ None →
    ∃ c, c ∈ carriers ∧ pushable c ∧ name c = n) as Halways.
  { intros [(c & -> & Hc)%list_elem_of_fmap|Hn]%push_to_names; [|by rewrite lookup_empty in Hn].
    apply list_elem_of_filter in Hc as [[? ?] ?]. by exists c. }
  unfold sent, pushes. cbv zeta. pose proof (candidates_in config s peer usable) as Hin. fold healthy in Hin.
  destruct (carrier_of selected usable) as [c|] eqn:Hc.
  - apply carrier_of_Some in Hc as [_ Hc]. intros [Hn|Hn]%push_to_names; [|by apply Halways].
    eapply Htake; [|exact Hn]. intros d [->|Hd]%elem_of_cons; [done|].
    apply list_elem_of_filter in Hd as [_ Hd]. by apply Hin.
  - destruct (_ && _); [|done]. intros [Hn|Hn]%push_to_names; [by eapply Htake|by apply Halways].
Qed.
Lemma pushes_always selected c q :
  c ∈ carriers → pushable c → mode c = "always" → q ∈ default [] (sent selected !! name c).
Proof.
  intros Hc Hp Hm. assert (q ∈ default [] (push_to (name <$> filter (λ c, pushable c ∧ mode c = "always") carriers)
    all_qos ∅ !! name c)) as Hq.
  { apply push_to_covers; [|apply all_classes]. apply list_elem_of_fmap. exists c. split; [done|].
    by apply list_elem_of_filter. }
  unfold sent, pushes. cbv zeta. destruct (carrier_of selected usable); [by apply push_to_grows|].
  destruct (_ && _); [by apply push_to_grows|done].
Qed.
Lemma pushes_selected selected c q :
  carrier_of selected usable = Some c → q ∈ default [] (sent selected !! name c).
Proof.
  intros Hc. unfold sent, pushes. cbv zeta. rewrite Hc. apply push_to_covers; [|apply all_classes].
  apply list_elem_of_fmap. exists c. split; [done|]. apply replica_head.
Qed.
Lemma pushes_failover c :
  1 ≤ consecutive_failures s peer "direct" → c ∈ usable →
  ∃ c', c' ∈ usable ∧ ∀ q, q ∈ FAST_FAILOVER_QOS → q ∈ default [] (sent "direct" !! name c').
Proof.
  intros Hfailed Hc. unfold sent, pushes. cbv zeta.
  destruct (carrier_of "direct" usable) as [d|] eqn:Hd.
  { apply carrier_of_Some in Hd as [Hd _]. destruct (path_id_fallback d). rewrite Hd.
    right; left. }
  rewrite (proj2 (Z.leb_le _ _) Hfailed). simpl.
  pose proof (candidates_in config s peer usable) as Hin. fold healthy in Hin.
  set (candidates := match healthy with [] => usable | _ => healthy end) in *.
  assert (best_of usable healthy = head candidates) as -> by (unfold candidates; by destruct healthy).
  destruct candidates as [|c' l] eqn:E.
  { unfold candidates in E. destruct healthy; [|done]. rewrite E in Hc. by apply not_elem_of_nil in Hc. }
  exists c'. split; [apply Hin; by left|]. intros q Hq. simpl. apply push_to_covers; [|done].
  apply list_elem_of_fmap. exists c'. split; [done|]. apply replica_head.
Qed.
End pushes.

(** ** Properties of the router *)

(** What a peer is sent over carriers is enough for the path chosen. *)
Definition delivers (has_direct : bool) (carriers : list carrier) (d : RouteDecision) : Prop :=
  (selected_path d = "direct" ∧ has_direct = true) ∨
  (selected_path d = "none" ∧ has_direct = false ∧ ∀ c, c ∈ carriers → ¬ pushable c) ∨
  ∃ c, c ∈ carriers ∧ pushable c ∧ path_id c = selected_path d ∧
    ∀ q, q ∈ default [] (push_qos d !! name c).

(** A decision never strands traffic: it selects the direct path only where there is one,
    a carrier that is enabled and may send, which then gets every traffic class, and
    nothing only where there is neither; packets go to no other carriers than such, and to
    all of those in mode "always"; and as soon as one direct attempt has failed, control
    and interactive traffic also goes to some carrier, if there is one. *)
Theorem decide_delivers now now' config peer has_direct carriers s d s' :
  1 ≤ carrier_replica_count config →
  decide now now' config peer has_direct carriers s = (Ok d, s') →
  delivers has_direct carriers d ∧
  (∀ n, push_qos d !! n ≠ None → ∃ c, c ∈ carriers ∧ pushable c ∧ name c = n) ∧
  (∀ c q, c ∈ carriers → pushable c → mode c = "always" → q ∈ default [] (push_qos d !! name c)) ∧
  (selected_path d = "direct" → 1 ≤ consecutive_failures s peer "direct" →
   ∀ c, c ∈ carriers → pushable c →
   ∃ c', c' ∈ carriers ∧ pushable c' ∧ ∀ q, q ∈ FAST_FAILOVER_QOS → q ∈ default [] (push_qos d !! name c')).
Proof.
  intros Hreplicas Hrun. pose proof (decide_run now now' config peer has_direct carriers s) as Hdecide.
  pose proof (choose_sound now config s peer has_direct carriers) as Hsound.
  destruct (choose now config s peer has_direct carriers) as [selected reason]. simpl in Hsound.
  destruct Hdecide as (d' & Hrun' & Hsel & Hpush). rewrite Hrun' in Hrun. injection Hrun as -> <-.
  unfold delivers. rewrite Hsel, Hpush. split_and!.
  - destruct Hsound as [Hsel2 Hd|Hsel2 Hd Hnone|c Hsel2 Hc]; subst selected; [by left|right; left|right; right].
    + split_and!; [done..|]. intros c Hc Hp. pose proof (proj2 (elem_of_usable s peer carriers c) (conj Hp Hc)) as Hin.
      rewrite Hnone in Hin. by apply not_elem_of_nil in Hin.
    + destruct (carrier_of (path_id c) (usable_carriers s peer carriers)) as [c'|] eqn:E;
        [|by destruct (carrier_of_known (path_id c) _ c eq_refl Hc)].
      pose proof E as [Hp Hin]%carrier_of_Some. apply elem_of_usable in Hin as [? ?].
      exists c'. rewrite Hsel2. do 3 (split; [done|]). intros q. by apply pushes_selected.
  - apply pushes_names.
  - apply pushes_always.
  - intros -> Hfailed c Hc Hp. destruct (pushes_failover config s peer carriers Hreplicas c Hfailed) as (c' & Hc' & Hq).
    { by apply elem_of_usable. }
    apply elem_of_usable in Hc' as [? ?]. by exists c'.
Qed.

(** ** Hysteresis over a run *)

(** What happens to the state of one peer between two looks at it *)
Inductive router_event :=
  | Probe (now : Z) (path : string) (success : bool) (latency_ms : Q) (error : string)
  | Decision (now now' : Z) (has_direct : bool) (carriers : list carrier).
Definition router_step (config : RoutingConfig) (peer : string) (e : router_event) (s : db) : db :=
  match e with
  | Probe now path success latency error => (record_path_result now peer path success latency error s).2
  | Decision now now' has_direct carriers => (decide now now' config peer has_direct carriers s).2
  end.
(** [path] keeps working: no probe of it fails, it stays configured, and the cooldown
    since [switched] is not over. *)
Definition steady (config : RoutingConfig) (path : string) (switched : Z) (e : router_event) : Prop :=
  match e with
  | Probe _ path' success _ _ => path' = path → success = true
  | Decision now _ _ carriers => now - switched < trunc_Q (switch_cooldown config * 1000) ∧
      ∃ c, c ∈ carriers ∧ pushable c ∧ path_id c = path
  end.

Lemma record_path_result_run now peer path success latency error s :
  let s' := (record_path_result now peer path success latency error s).2 in
  route_state s' = route_state s ∧
  consecutive_failures s' peer path = (if success then 0 else consecutive_failures s peer path + 1) ∧
  (∀ path', path' ≠ path → consecutive_failures s' peer path' = consecutive_failures s peer path').
Proof.
  cbv zeta. unfold record_path_result, exec. cbv [mbind ST_bind gets modify]. cbn [snd].
  unfold consecutive_failures. simpl. split; [done|]. split.
  - rewrite lookup_upsert_eq. destruct (path_metrics s !! (peer, path)); by destruct success.
  - intros path' Hne. rewrite lookup_upsert_ne; [done|]. by intros [= ->].
Qed.
Lemma choose_held now config s peer has_direct carriers r :
  route_state s !! peer = Some r → is_fallback (Routes.selected_path r) →
  consecutive_failures s peer (Routes.selected_path r) < carrier_failure_threshold config →
  now - Routes.switched_ms r < trunc_Q (switch_cooldown config * 1000) →
  (∃ c, c ∈ carriers ∧ pushable c ∧ path_id c = Routes.selected_path r) →
  (choose now config s peer has_direct carriers).1 = Routes.selected_path r.
Proof.
  intros Hr Hfallback Hhealthy Hcool (c & Hc & Hp & Hpath). unfold choose. cbv zeta. rewrite Hr.
  rewrite bool_decide_true by done. rewrite (proj2 (Z.leb_gt _ _) Hcool). unfold from_fallback.
  destruct (carrier_of (Routes.selected_path r) (usable_carriers s peer carriers)) as [c'|] eqn:E.
  2: { by destruct (carrier_of_known (Routes.selected_path r) (usable_carriers s peer carriers) c Hpath
         (proj2 (elem_of_usable _ _ _ _) (conj Hp Hc))). }
  rewrite (proj2 (Z.leb_gt _ _) Hhealthy), andb_false_r.
  destruct (head _), (best_of _ _); by rewrite ?andb_false_r.
Qed.

(** ** Schedules *)

Definition schedule_ok (sch : AdaptiveSchedule) : Prop :=
  (0 < base_interval sch)%Q ∧ (0 <= jitter sch <= 9 # 10)%Q ∧ (1 <= max_backoff sch)%Q ∧ 0 ≤ idle_rounds sch ≤ 1000000.
Lemma new_schedule_ok b j m sch : new_schedule b j m = Ok sch → schedule_ok sch.
Proof.
  unfold new_schedule. intros H. res_inv. subst sch. unfold schedule_ok. simpl. bool_prop.
  repeat match goal with H : Qle_bool _ _ = true |- _ => apply Qle_bool_iff in H end.
  repeat match goal with H : Qle_bool _ _ = false |- _ => apply not_true_iff_false in H; rewrite Qle_bool_iff in H end.
  split_and!; try done; [by apply Qnot_le_lt|lia..].
Qed.
Lemma jitter_bounds sch sample : schedule_ok sch →
  (1 - jitter sch <= jitter_factor sch sample <= 1 + jitter sch)%Q.
Proof.
  intros (_ & [Hj _] & _). unfold jitter_factor. set (x := Qmax 0 (Qmin 1 sample)).
  assert (0 <= x)%Q as H0 by apply Q.le_max_l.
  assert (x <= 1)%Q as H1 by (apply Q.max_lub; [discriminate|apply Q.le_min_l]).
  assert (0 <= jitter sch * x)%Q by by apply Qmult_le_0_compat.
  assert (jitter sch * x <= jitter sch * 1)%Q by (rewrite !(Qmult_comm (jitter sch)); by apply Qmult_le_compat_r).
  split; lra.
Qed.
Lemma multiplier_bounds sch : schedule_ok sch → (1 <= multiplier sch <= max_backoff sch)%Q.
Proof.
  intros (_ & _ & Hm & Hidle). unfold multiplier. split; [|apply Q.le_min_l].
  apply Q.min_glb; [done|]. change 1%Q with (inject_Z 1). rewrite <- Zle_Qle.
  assert (0 < 2 ^ Z.min (Z.max 0 (idle_rounds sch - 1)) 30) by (apply Z.pow_pos_nonneg; lia). lia.
Qed.
(** The delay between two rounds stays within its limits: never under a twentieth of a
    second nor under the jittered interval, never over the jittered interval times the
    largest backoff, and without backoff after a round that found work; the next round is
    due after exactly that delay, or at once when something is pending or forced. *)
Theorem record_delay_bounds now activity interval sample sch delay sch' :
  schedule_ok sch → record now activity interval sample sch = (Ok delay, sch') →
  let i := default (base_interval sch) interval in
  schedule_ok sch' ∧ (1 # 20 <= delay)%Q ∧ (i * (1 - jitter sch) <= delay)%Q ∧
  (delay <= Qmax (1 # 20) (i * max_backoff sch * (1 + jitter sch)))%Q ∧
  (activity = true → (delay <= Qmax (1 # 20) (i * (1 + jitter sch)))%Q) ∧
  (∀ now' force newly, due sch' now' force newly = true ↔
     force = true ∨ newly = true ∨ (now + delay <= now')%Q).
Proof.
  intros Hok Hrun i. unfold record in Hrun. cbv [mbind ST_bind modify gets lift id mret ST_ret] in Hrun.
  set (sch1 := with_idle _ sch) in Hrun.
  assert (schedule_ok sch1) as Hok1.
  { destruct Hok as (? & ? & ? & ?). unfold sch1, schedule_ok, with_idle. simpl.
    split; [done|]. split; [done|]. split; [done|]. destruct activity; lia. }
  change (from_option (λ x : Q, x) (base_interval sch1) interval) with i in Hrun.
  destruct (Qle_bool i 0) eqn:Hi; [discriminate Hrun|].
  injection Hrun as <- <-. apply not_true_iff_false in Hi. rewrite Qle_bool_iff in Hi. apply Qnot_le_lt in Hi.
  pose proof (jitter_bounds sch1 sample Hok1) as [Hj0 Hj1]. pose proof (multiplier_bounds sch1 Hok1) as [Hm0 Hm1].
  change (jitter sch1) with (jitter sch) in *. change (max_backoff sch1) with (max_backoff sch) in *.
  assert (activity = true → multiplier sch1 == 1)%Q as Hactive.
  { intros ->. unfold multiplier, sch1. simpl. apply Q.min_r. apply Hok. }
  destruct Hok as (Hb & [Hjl Hjh] & Hmax & Hidle).
  set (m := multiplier sch1) in *. set (f := jitter_factor sch1 sample) in *.
  assert (0 <= f)%Q by lra. assert (0 <= i * m)%Q by (apply Qmult_le_0_compat; lra).
  split; [|split; [|split; [|split; [|split]]]].
  - exact Hok1.
  - apply Q.le_max_l.
  - eapply Qle_trans; [|apply Q.le_max_r]. apply Qmult_le_compat_nonneg; split; try lra.
    rewrite <- (Qmult_1_r i) at 1. apply Qmult_le_compat_nonneg; split; lra.
  - apply Q.max_le_compat_l. apply Qmult_le_compat_nonneg; split; try lra.
    apply Qmult_le_compat_nonneg; split; lra.
  - intros Ha. apply Q.max_le_compat_l. rewrite (Hactive Ha), Qmult_1_r. apply Qmult_le_compat_nonneg; split; lra.
  - intros now' force newly. unfold due. simpl. rewrite !orb_true_iff, Qle_bool_iff. tauto.
Qed.

(** ** Concrete routes *)

Definition sample_config : RoutingConfig := routing_config 2 3 2 3 1 30.
Definition hub : carrier := Carrier Ahub "hub" "fallback" 50 true.
Definition disk : carrier := Carrier Directory "disk" "fallback" 100 true.
Definition failed_direct (now : Z) (s : db) : db :=
  (record_path_result now "peer" "direct" false 0 "refused" s).2.
(** Two failed probes of the direct path, and the decision after them *)
Definition on_hub : db :=
  (decide 1000 1000 sample_config "peer" true [disk; hub] (failed_direct 900 (failed_direct 800 empty_db))).2.

Lemma decide_delivers_witness :
  ∃ d, (decide 1000 1000 sample_config "peer" true [disk; hub]
      (failed_direct 900 (failed_direct 800 empty_db))).1 = Ok d ∧
    selected_path d = "ahub:hub" ∧ delivers true [disk; hub] d.
Proof.
  assert (match (decide 1000 1000 sample_config "peer" true [disk; hub]
      (failed_direct 900 (failed_direct 800 empty_db))).1 with
    | Ok d => selected_path d = "ahub:hub" | Err _ => False end) as Hsel by (vm_compute; reflexivity).
  revert Hsel. generalize (failed_direct 900 (failed_direct 800 empty_db)). intros s Hsel.
  destruct (decide 1000 1000 sample_config "peer" true [disk; hub] s) as [[d|e] s'] eqn:E; [|destruct Hsel].
  exists d. split; [reflexivity|]. split; [exact Hsel|].
  apply (decide_delivers 1000 1000 sample_config "peer" true [disk; hub] s d s'); [vm_compute; discriminate|exact E].
Defined.
(** The direct path recovers, but the route stays for the cooldown. *)
Definition recovery : list router_event :=
  [Probe 1100 "direct" true 5 ""; Probe 1200 "direct" true 5 ""; Probe 1300 "direct" true 5 "";
   Probe 1400 "ahub:hub" true 5 ""; Decision 1500 1500 true [disk; hub]].
Definition sample_schedule : AdaptiveSchedule := Schedule 60 (1 # 4) 4 3 0 0.
Lemma record_delay_bounds_witness :
  ∃ delay, (record 10 false None (1 # 2) sample_schedule).1 = Ok delay ∧ (delay == 240)%Q ∧
    (60 * (1 - (1 # 4)) <= delay)%Q.
Proof.
  destruct (record 10 false None (1 # 2) sample_schedule) as [r sch'] eqn:E.
  assert (match r with Ok delay => (delay == 240)%Q | Err _ => False end) as Hr.
  { change r with (r, sch').1. rewrite <- E. vm_compute. reflexivity. }
  destruct r as [delay|e]; [|destruct Hr]. exists delay. split; [reflexivity|]. split; [exact Hr|].
  assert (schedule_ok sample_schedule) as Hok by (vm_compute; repeat split; discriminate).
  exact (proj1 (proj2 (proj2 (record_delay_bounds 10 false None (1 # 2) sample_schedule delay sch' Hok E)))).
Defined.
