(* ===== verification/Lifecycle.v ===== *)
(** The life of one database: every operation that writes as a step, what no
    sequence of steps undoes, and the guarantees of [PacketStore]
    (src/anet/store.py) that only show across operations. *)
From S2P Require Import Prelude PyStr PyVal Schema Packet Queue Prekeys Consumers.
From S2P Require Import AgentProtocol A2A Gateway Companion Tasks Approvals Maintenance.

(** ** The operations *)

Section operations.
Context {PL : Platform} {AG : ApprovalGrants}.

(** The calls of [PacketStore] that write; the others are reads.  A random token is
    never empty. *)
Inductive store_call : ∀ A : Type, M A → Prop :=
  | call_init_reconcile : store_call _ init_reconcile
  | call_add_packet c c' now raw depth origin from :
      store_call _ (add_packet c c' now raw depth origin from)
  | call_mark_attempt now ids peer error path :
      store_call _ (mark_attempt now ids peer error path)
  | call_mark_custodied now ids peer path : store_call _ (mark_custodied now ids peer path)
  | call_mark_acked now ids peer path : store_call _ (mark_acked now ids peer path)
  | call_mark_local_delivered id : store_call _ (mark_local_delivered id)
  | call_mark_local_rejected now id peer reason :
      store_call _ (mark_local_rejected now id peer reason)
  | call_record_receipt now id recipient : store_call _ (record_receipt now id recipient)
  | call_add_inbox now message trusted visible :
      store_call _ (add_inbox now message trusted visible)
  | call_mark_read ids : store_call _ (mark_read ids)
  | call_add_local_prekey_batch keys peer version generation created expires :
      store_call _ (add_local_prekey_batch keys peer version generation created expires)
  | call_scope_legacy_local_prekeys peer : store_call _ (scope_legacy_local_prekeys peer)
  | call_retire_unscoped_local_prekeys now peers :
      store_call _ (retire_unscoped_local_prekeys now peers)
  | call_commit_local_message now message trusted visible :
      store_call _ (commit_local_message now message trusted visible)
  | call_import_peer_prekey_bundle now now' peer keys v intended g hash c e :
      store_call _ (import_peer_prekey_bundle now now' peer keys v intended g hash c e)
  | call_reserve_peer_prekey now token peer reservation min :
      store_call _ (reserve_peer_prekey now token peer reservation min)
  | call_bind_peer_prekey now peer prekey reservation packet :
      store_call _ (bind_peer_prekey now peer prekey reservation packet)
  | call_burn_peer_prekey now peer prekey reservation :
      store_call _ (burn_peer_prekey now peer prekey reservation)
  | call_record_prekey_request now peer known requested :
      store_call _ (record_prekey_request now peer known requested)
  | call_open_consumer_group now g start kind sender trusted transient :
      store_call _ (open_consumer_group now g start kind sender trusted transient)
  | call_claim_consumer_messages now tokens g o limit lease :
      (∀ n, tokens n ≠ "") →
      store_call _ (claim_consumer_messages now tokens g o limit lease)
  | call_acknowledge_claim now g o t : store_call _ (acknowledge_claim now g o t)
  | call_reject_claim now g o t retry error : store_call _ (reject_claim now g o t retry error)
  | call_renew_claim now g o t lease : store_call _ (renew_claim now g o t lease)
  | call_begin_agent_task now fresh token g o t senders caps :
      token ≠ "" → store_call _ (begin_agent_task now fresh token g o t senders caps)
  | call_apply_agent_task_cancellation now fresh g o t senders :
      store_call _ (apply_agent_task_cancellation now fresh g o t senders)
  | call_settle_agent_task now g o t x state output error retry :
      store_call _ (settle_agent_task now g o t x state output error retry)
  | call_register_companion_approval_request now body :
      store_call _ (register_companion_approval_request now body)
  | call_activate_companion_approval now g o t :
      store_call _ (activate_companion_approval now g o t)
  | call_begin_companion_approval_effect now token request effect o lease :
      token ≠ "" → store_call _ (begin_companion_approval_effect now token request effect o lease)
  | call_settle_companion_approval_effect now request effect t outcome result error retry :
      store_call _ (settle_companion_approval_effect now request effect t outcome result error retry)
  | call_revoke_peer now peer : store_call _ (revoke_peer now peer)
  | call_purge now retention : store_call _ (purge now retention)
  | call_record_path_result now peer path success latency error :
      store_call _ (record_path_result now peer path success latency error)
  | call_set_route now peer selected reason : store_call _ (set_route now peer selected reason)
  | call_bind_a2a_principal now p n allowed : store_call _ (bind_a2a_principal now p n allowed)
  | call_register_a2a_message now token fresh p n t c i d k tenant v body :
      store_call _ (register_a2a_message now token fresh p n t c i d k tenant v body)
  | call_request_a2a_task_cancellation now tokens p request n :
      store_call _ (request_a2a_task_cancellation now tokens p request n)
  | call_claim_a2a_dispatches now tokens o limit lease :
      (∀ n, tokens n ≠ "") → store_call _ (claim_a2a_dispatches now tokens o limit lease)
  | call_retry_a2a_dispatch now token o t error retry :
      store_call _ (retry_a2a_dispatch now token o t error retry)
  | call_commit_a2a_dispatch_packet c c' now o t raw prekey reservation :
      store_call _ (commit_a2a_dispatch_packet c c' now o t raw prekey reservation)
  | call_append_a2a_task_events now p n t source events :
      store_call _ (append_a2a_task_events now p n t source events).

(** One call, whether it returns or raises. *)
Definition store_step (s s' : db) : Prop := ∃ A (m : M A), store_call A m ∧ s' = (m s).2.
End operations.

(** ** What every step preserves *)

(** SQLite's row ids of the inbox are distinct. *)
Definition inbox_ok (s : db) : Prop := ∀ k k' i i',
  inbox s !! k = Some i → inbox s !! k' = Some i' → Inbox.rowid i = Inbox.rowid i' → k = k'.

Record store_progress (s s' : db) : Prop := {
  sp_prekeys : prekey_progress s s';
  sp_tasks : task_step s s';
  sp_approvals : approval_step s s';
  sp_keys : preserves keys_ok s s';
  sp_inbox : preserves inbox_ok s s';
}.
#[global] Instance store_progress_preorder : PreOrder store_progress.
Proof.
  split; [intros s; split; reflexivity|]. intros a b c [] []. split; by etrans.
Qed.

Definition prekey_part (s : db) :=
  (local_prekeys s, peer_prekeys s, peer_prekey_bundles s, store_metadata s).
Definition work_part (s : db) := (task_tables s, consumer_deliveries s).
(** What an operation on work, or on prekeys, leaves alone. *)
Definition prekey_tables (s : db) := (prekey_part s, approval_tables s).
Definition work_tables (s : db) := (work_part s, approval_tables s).

Lemma prekey_progress_same s s' : prekey_part s' = prekey_part s → prekey_progress s s'.
Proof. intros [= E1 E2 E3 E4]. split; unfold metadata; rewrite ?E1, ?E2, ?E3, ?E4; reflexivity. Qed.
Lemma keys_ok_same s s' : local_prekeys s' = local_prekeys s → preserves keys_ok s s'.
Proof. intros E Hs k r. rewrite E. apply Hs. Qed.
Lemma keys_ok_part s s' : prekey_part s' = prekey_part s → preserves keys_ok s s'.
Proof. intros [= E1 _ _ _]. by apply keys_ok_same. Qed.
Lemma inbox_ok_same s s' : inbox s' = inbox s → preserves inbox_ok s s'.
Proof. intros E Hs k k' i i'. rewrite E. apply Hs. Qed.
Lemma task_step_same s s' : work_part s' = work_part s → task_step s s'.
Proof.
  intros [= E1 E2 E3]. split.
  - by apply keeps_task_progress.
  - apply keeps_tasks_ok. unfold keeps, task_tables. congruence.
  - by apply claims_ok_same.
  - intros _ k c Hc Heff. rewrite E2. eauto.
Qed.
Lemma tables_split {A B} (f : db → A) (g : db → B) s s' :
  (f s', g s') = (f s, g s) → f s' = f s ∧ g s' = g s.
Proof. intros E. split; [exact (f_equal fst E)|exact (f_equal snd E)]. Qed.
(** A statement that touches none of the tables the relation is about. *)
Lemma store_progress_same s s' :
  prekey_tables s' = prekey_tables s → work_tables s' = work_tables s → inbox s' = inbox s →
  store_progress s s'.
Proof.
  intros [Hp _]%tables_split [Hw Ha]%tables_split Hi.
  split; auto using prekey_progress_same, task_step_same, approval_step_same, keys_ok_part, inbox_ok_same.
Qed.
(** Statements on one group of tables. *)
Lemma store_progress_prekeys s s' :
  prekey_progress s s' → preserves keys_ok s s' → work_tables s' = work_tables s →
  inbox s' = inbox s → store_progress s s'.
Proof.
  intros ? ? [Hw Ha]%tables_split Hi.
  split; auto using task_step_same, approval_step_same, inbox_ok_same.
Qed.
Lemma store_progress_work s s' :
  task_step s s' → prekey_tables s' = prekey_tables s → inbox s' = inbox s → store_progress s s'.
Proof.
  intros Ht [Hp Ha]%tables_split Hi.
  split; auto using prekey_progress_same, approval_step_same, keys_ok_part, inbox_ok_same.
Qed.
Lemma store_progress_approvals s s' :
  approval_step s s' → task_step s s' → prekey_part s' = prekey_part s → inbox s' = inbox s →
  store_progress s s'.
Proof. intros. split; auto using prekey_progress_same, keys_ok_part, inbox_ok_same. Qed.
Lemma store_progress_inbox s s' :
  preserves inbox_ok s s' → prekey_tables s' = prekey_tables s → work_tables s' = work_tables s →
  store_progress s s'.
Proof.
  intros Hi [Hp _]%tables_split [Hw Ha]%tables_split.
  split; auto using prekey_progress_same, task_step_same, approval_step_same, keys_ok_part.
Qed.
Lemma task_step_only_claims s s' :
  preserves claims_ok s s' → task_tables s' = task_tables s → task_step s s'.
Proof.
  intros Hc [= E1 E2]. split; [by apply keeps_task_progress| |done|].
  - apply keeps_tasks_ok. unfold keeps, task_tables. congruence.
  - intros _ k c Hck Heff. rewrite E2. eauto.
Qed.

(** The same for a whole program: it keeps a part of the state. *)
Lemma steps_prekeys {A} (m : M A) :
  steps prekey_progress m → steps (preserves keys_ok) m → steps (keeps work_tables) m →
  steps (keeps inbox) m → steps store_progress m.
Proof. intros H1 H2 H3 H4 s. apply store_progress_prekeys; [apply H1|apply H2|apply H3|apply H4]. Qed.
Lemma steps_work {A} (m : M A) :
  steps task_step m → steps (keeps prekey_tables) m → steps (keeps inbox) m →
  steps store_progress m.
Proof. intros H1 H2 H3 s. apply store_progress_work; [apply H1|apply H2|apply H3]. Qed.

(** *** Writes of one table *)

Lemma inbox_ok_update (P : string → Inbox.row → Prop) `{!∀ k i, Decision (P k i)} f s :
  (∀ i, Inbox.rowid (f i) = Inbox.rowid i) →
  preserves inbox_ok s (set_inbox (update_where P f (inbox s)) s).
Proof.
  intros Hf Hok k k' i i'. simpl.
  intros (j & Hj & ->)%lookup_update_where_Some (j' & Hj' & ->)%lookup_update_where_Some Heq.
  apply (Hok k k' j j' Hj Hj'). by do 2 case_decide; rewrite ?Hf in Heq.
Qed.
Lemma inbox_ok_alter k0 f s :
  (∀ i, Inbox.rowid (f i) = Inbox.rowid i) →
  preserves inbox_ok s (set_inbox (alter f k0 (inbox s)) s).
Proof.
  intros Hf Hok k k' i i'. simpl. rewrite !lookup_alter_Some. intros Hi Hi' Heq.
  assert (∀ k i, k0 = k ∧ (∃ j, inbox s !! k = Some j ∧ i = f j) ∨ k0 ≠ k ∧ inbox s !! k = Some i →
    ∃ j, inbox s !! k = Some j ∧ Inbox.rowid j = Inbox.rowid i) as Hback.
  { intros ? ? [(_ & j & ? & ->)|[_ ?]]; eauto. }
  destruct (Hback k i Hi) as (j & Hj & Ej), (Hback k' i' Hi') as (j' & Hj' & Ej').
  apply (Hok k k' j j' Hj Hj'). congruence.
Qed.
Lemma inbox_ok_delete (P : string → Inbox.row → Prop) `{!∀ k i, Decision (P k i)} s :
  preserves inbox_ok s (set_inbox (delete_where P (inbox s)) s).
Proof.
  intros Hok k k' i i'. simpl. rewrite !lookup_delete_where_Some.
  intros [? _] [? _]. by apply Hok.
Qed.
Lemma inbox_ok_new k0 i0 s :
  (∀ k i, inbox s !! k = Some i → Inbox.rowid i < Inbox.rowid i0) →
  preserves inbox_ok s (set_inbox (<[k0 := i0]> (inbox s)) s).
Proof.
  intros Hmax Hok k k' i i'. simpl.
  intros [[<- <-]|[Hne Hi]]%lookup_insert_Some [[<- <-]|[Hne' Hi']]%lookup_insert_Some Heq; [done|..].
  - specialize (Hmax _ _ Hi'). lia.
  - specialize (Hmax _ _ Hi). lia.
  - by eapply Hok.
Qed.

Lemma keys_ok_update (P : string → LocalPrekeys.row → Prop) `{!∀ k r, Decision (P k r)} f s :
  (∀ r, LocalPrekeys.private_key (f r) = None ∨
     (LocalPrekeys.state (f r) = LocalPrekeys.state r ∧
      LocalPrekeys.private_key (f r) = LocalPrekeys.private_key r)) →
  preserves keys_ok s (set_local_prekeys (update_where P f (local_prekeys s)) s).
Proof.
  intros Hf Hok k r. simpl. intros (r0 & Hr0 & ->)%lookup_update_where_Some.
  case_decide; [|by apply (Hok k)].
  destruct (Hf r0) as [->|[-> ->]]; [done|by apply (Hok k)].
Qed.
Lemma keys_ok_new k0 r0 s :
  LocalPrekeys.state r0 = LocalPrekeys.Available →
  preserves keys_ok s (set_local_prekeys (<[k0 := r0]> (local_prekeys s)) s).
Proof.
  intros Hst Hok k r. simpl. intros [[<- <-]|[_ Hr]]%lookup_insert_Some; [done|by apply (Hok k)].
Qed.

Lemma claims_ok_delete (P : string * string → Claims.row → Prop) `{!∀ k r, Decision (P k r)} s :
  preserves claims_ok s (set_consumer_deliveries (delete_where P (consumer_deliveries s)) s).
Proof.
  intros [H1 H2]. split; simpl.
  - intros k r [Hr _]%lookup_delete_where_Some. by apply (H1 k).
  - intros k k' r r' [Hr _]%lookup_delete_where_Some [Hr' _]%lookup_delete_where_Some.
    by apply (H2 k k').
Qed.

(** ** Every operation makes progress *)

(** The leaves of a program whose writes the relation does not see. *)
Ltac frame :=
  steps_all; try (apply steps_modify; intros ?; first [reflexivity | exact (λ H, H)]).

Ltac counted :=
  lazymatch goal with
  | |- steps _ (update_count _ _ _ _) => apply steps_update_count; [apply _|intros s]
  | |- steps _ (delete_count _ _ _) => apply steps_delete_count; [apply _|intros s]
  end.

Section progress.
Context {PL : Platform} {AG : ApprovalGrants}.

Lemma progress_unrelated {A} (m : M A) :
  steps (keeps (λ s, (prekey_tables s, work_tables s, inbox s))) m → steps store_progress m.
Proof.
  intros Hm s. specialize (Hm s). unfold wp in *. revert Hm. generalize (m s).2. intros s' Hm.
  apply store_progress_same; [exact (f_equal (λ x, x.1.1) Hm)|exact (f_equal (λ x, x.1.2) Hm)
    |exact (f_equal snd Hm)].
Qed.

Lemma inbox_row_new s now message body causal trusted visible k i :
  inbox s !! k = Some i →
  Inbox.rowid i < Inbox.rowid (inbox_row s now message body causal trusted visible).
Proof.
  intros Hi. simpl. unfold next_rowid.
  pose proof (max_where_ge (λ _ _, True) Inbox.rowid 0 (inbox s) k i Hi I). lia.
Qed.
Lemma progress_add_inbox now message trusted visible :
  steps store_progress (add_inbox now message trusted visible).
Proof.
  unfold add_inbox. steps_all. apply steps_modify. intros s'.
  apply store_progress_inbox; [|reflexivity..]. apply inbox_ok_new. apply inbox_row_new.
Qed.
Lemma progress_mark_read ids : steps store_progress (mark_read ids).
Proof.
  unfold mark_read. steps_all. apply steps_modify. intros s.
  apply store_progress_inbox; [|reflexivity..]. by apply inbox_ok_alter.
Qed.
Lemma progress_init_reconcile : steps store_progress init_reconcile.
Proof.
  unfold init_reconcile. steps_all; apply steps_modify; intros s.
  - apply store_progress_inbox; [|reflexivity..]. by apply inbox_ok_update.
  - by apply store_progress_same.
Qed.

(** *** Prekeys *)

Lemma progress_add_local_prekey_batch keys peer version generation created expires :
  steps store_progress (add_local_prekey_batch keys peer version generation created expires).
Proof.
  apply steps_prekeys; [apply prekeys_add_local_prekey_batch|..];
    unfold add_local_prekey_batch, raise_metadata, exec; frame;
    (apply steps_sum_each; [apply _|]; intros [id [pub priv]]; unfold add_local_prekey; frame).
  apply steps_modify. intros s'. by apply keys_ok_new.
Qed.
Lemma progress_scope_legacy peer : steps store_progress (scope_legacy_local_prekeys peer).
Proof.
  apply steps_prekeys; [apply prekeys_scope_legacy|..];
    unfold scope_legacy_local_prekeys, raise_metadata, exec; frame.
  apply steps_modify. intros s'. apply keys_ok_update. by right.
Qed.
Lemma progress_retire_unscoped now peers :
  steps store_progress (retire_unscoped_local_prekeys now peers).
Proof.
  apply steps_prekeys; [apply prekeys_retire_unscoped|..];
    unfold retire_unscoped_local_prekeys, raise_metadata, exec; frame.
  apply steps_modify. intros s'. apply keys_ok_update. by left.
Qed.
Lemma progress_commit_local_message now message trusted visible :
  steps store_progress (commit_local_message now message trusted visible).
Proof.
  intros s. split.
  - apply prekeys_commit_local_message.
  - apply task_step_same. revert s. change (steps (keeps work_part)
      (commit_local_message now message trusted visible)).
    unfold commit_local_message, mark_local_delivered, set_packet_row, exec. frame.
  - apply approval_step_same. revert s. change (steps (keeps approval_tables)
      (commit_local_message now message trusted visible)).
    unfold commit_local_message, mark_local_delivered, set_packet_row, exec. frame.
  - revert s. change (steps (preserves keys_ok) (commit_local_message now message trusted visible)).
    unfold commit_local_message, mark_local_delivered, set_packet_row, exec. frame.
    apply steps_modify. intros s'. apply keys_ok_update. by left.
  - revert s. change (steps (preserves inbox_ok) (commit_local_message now message trusted visible)).
    unfold commit_local_message, mark_local_delivered, set_packet_row, exec. frame.
    apply steps_modify. intros s'. apply inbox_ok_new, inbox_row_new.
Qed.

(** Peer keys and requests. *)
Lemma progress_import_peer_prekey_bundle now now' peer keys v intended g hash c e :
  steps store_progress (import_peer_prekey_bundle now now' peer keys v intended g hash c e).
Proof.
  apply steps_prekeys; [apply prekeys_import_peer_prekey_bundle|..];
    unfold import_peer_prekey_bundle, insert_peer_bundle, exec; frame;
    (apply steps_sum_each; [apply _|]; intros [id pub]; unfold add_peer_prekey; frame).
Qed.
Lemma progress_reserve_peer_prekey now token peer reservation min :
  steps store_progress (reserve_peer_prekey now token peer reservation min).
Proof.
  apply steps_prekeys; [apply prekeys_reserve_peer_prekey|..];
    unfold reserve_peer_prekey, reserve_available, exec; frame.
Qed.
Lemma progress_bind_peer_prekey now peer prekey reservation packet :
  steps store_progress (bind_peer_prekey now peer prekey reservation packet).
Proof.
  apply steps_prekeys; [apply prekeys_bind_peer_prekey|..]; unfold bind_peer_prekey, exec; frame.
Qed.
Lemma progress_burn_peer_prekey now peer prekey reservation :
  steps store_progress (burn_peer_prekey now peer prekey reservation).
Proof.
  apply steps_prekeys; [apply prekeys_burn_peer_prekey|..]; unfold burn_peer_prekey, exec; frame.
Qed.
Lemma progress_record_prekey_request now peer known requested :
  steps store_progress (record_prekey_request now peer known requested).
Proof.
  apply steps_prekeys; [apply prekeys_record_prekey_request|..];
    unfold record_prekey_request, exec; frame.
Qed.

(** *** Claims and tasks *)

Lemma steps_claims {A} (m : M A) :
  steps (preserves claims_ok) m → steps (keeps task_tables) m →
  steps (keeps prekey_tables) m → steps (keeps inbox) m → steps store_progress m.
Proof.
  intros H1 H2 H3 H4. apply steps_work; [|done|done].
  intros s. apply task_step_only_claims; [apply H1|apply H2].
Qed.
(** Claiming writes nothing but claims. *)
Lemma claim_keeps now tokens g o limit lease :
  steps (keeps (λ s, (task_tables s, prekey_tables s, inbox s)))
    (claim_consumer_messages now tokens g o limit lease).
Proof.
  assert (∀ g o until n rows, steps (keeps (λ s, (task_tables s, prekey_tables s, inbox s)))
    (claim_loop g o until tokens n rows)) as Hloop.
  { intros g' o' until n rows. revert n.
    induction rows as [|[[id i] d] rows IH]; intros n; simpl; frame; [|apply IH].
    unfold put_claim, exec. frame. }
  unfold claim_consumer_messages, _require_consumer_group. steps_all. apply Hloop.
Qed.
Lemma progress_claim_consumer_messages now tokens g o limit lease :
  (∀ n, tokens n ≠ "") →
  steps store_progress (claim_consumer_messages now tokens g o limit lease).
Proof.
  intros Htok. apply steps_claims.
  - intros s. by apply claims_claim_consumer_messages.
  - intros s. exact (f_equal (λ x, x.1.1) (claim_keeps _ _ _ _ _ _ s)).
  - intros s. exact (f_equal (λ x, x.1.2) (claim_keeps _ _ _ _ _ _ s)).
  - intros s. exact (f_equal snd (claim_keeps _ _ _ _ _ _ s)).
Qed.
Lemma progress_settle_claim g o t f :
  (∀ r, Claims.claim_token (f r) = "" ∧ Claims.state (f r) ≠ Claims.Leased) →
  steps store_progress (settle_claim g o t f).
Proof.
  intros Hf. unfold settle_claim. steps_all. apply steps_modify. intros s'.
  apply store_progress_work; [|reflexivity..]. by apply task_step_claims.
Qed.
Lemma progress_renew_claim now g o t lease : steps store_progress (renew_claim now g o t lease).
Proof.
  apply steps_claims; unfold renew_claim, exec; frame.
  apply steps_modify. intros s' Hs'. apply claims_ok_update; [|done]. by right.
Qed.
Lemma begin_keeps now fresh token g o t senders caps :
  steps (keeps (λ s, (prekey_tables s, inbox s)))
    (begin_agent_task now fresh token g o t senders caps).
Proof.
  unfold begin_agent_task, begin_commit, begin_decide, finish_canceled, ack_duplicate,
    start_execution, put_working, put_execution, apply_cancel, ack_claim, exec. frame.
Qed.
Lemma settle_keeps now g o t x state output error retry :
  steps (keeps (λ s, (prekey_tables s, inbox s)))
    (settle_agent_task now g o t x state output error retry).
Proof.
  unfold settle_agent_task, settle_commit, settle_writes, put_execution, ack_claim, exec. frame.
Qed.
Lemma cancel_keeps now fresh g o t senders :
  steps (keeps (λ s, (prekey_tables s, inbox s)))
    (apply_agent_task_cancellation now fresh g o t senders).
Proof.
  unfold apply_agent_task_cancellation, record_cancel, cancel_execution, update_cancel, ack_claim,
    ack_packet, put_execution, exec. frame.
Qed.
Lemma progress_task {A} (m : M A) :
  steps task_step m → steps (keeps (λ s, (prekey_tables s, inbox s))) m →
  steps store_progress m.
Proof.
  intros H1 H2. apply steps_work; [done|..]; intros s;
    [exact (f_equal fst (H2 s))|exact (f_equal snd (H2 s))].
Qed.

(** *** Approvals *)

Lemma progress_approval {A} (m : M A) :
  steps approval_step m → steps (keeps (λ s, (work_part s, (prekey_part s, inbox s)))) m →
  steps store_progress m.
Proof.
  intros H1 H2 s. destruct (tables_split work_part (λ s, (prekey_part s, inbox s)) _ _ (H2 s)) as [Hw Hpi].
  destruct (tables_split prekey_part inbox _ _ Hpi) as [Hp Hi].
  apply store_progress_approvals; [apply H1|by apply task_step_same|done..].
Qed.
Lemma progress_register now body :
  steps store_progress (register_companion_approval_request now body).
Proof.
  apply progress_approval.
  - intros s. eapply wp_mono; [apply register_run|]. by intros r s' [? _].
  - unfold register_companion_approval_request, insert_request, exec. frame.
Qed.
Lemma progress_begin_effect now token request effect o lease :
  token ≠ "" →
  steps store_progress (begin_companion_approval_effect now token request effect o lease).
Proof.
  intros Htok. apply progress_approval.
  - intros s. eapply wp_mono; [apply begin_effect_run|]. intros r s' [Hs _]. by apply Hs.
  - unfold begin_companion_approval_effect, effect_commit, resume_effect, put_effect, exec. frame.
Qed.
Lemma progress_settle_effect now request effect t outcome result error retry :
  steps store_progress
    (settle_companion_approval_effect now request effect t outcome result error retry).
Proof.
  apply progress_approval; [apply settle_effect_step|].
  unfold settle_companion_approval_effect, settle_effect_commit, put_effect, exec. frame.
Qed.
Lemma progress_activate now g o t : steps store_progress (activate_companion_approval now g o t).
Proof.
  unfold activate_companion_approval. steps_all. intros s0.
  eapply wp_mono; [apply activation_commit_run|]. intros [x|e] s' [Hstep Hpost]; [|rewrite Hpost; reflexivity].
  destruct Hpost as (packet & row & _ & _ & _ & Hs').
  apply store_progress_approvals; [exact Hstep|rewrite Hs'|rewrite Hs'; reflexivity..].
  set (s1 := set_companion_approval_authorizations _ s0).
  transitivity s1; [by apply task_step_same|].
  change (consumer_deliveries s0) with (consumer_deliveries s1). by apply task_step_claims.
Qed.

(** *** Housekeeping *)

Lemma progress_revoke_peer now peer : steps store_progress (revoke_peer now peer).
Proof.
  unfold revoke_peer. steps_all; counted.
  - by apply store_progress_same.
  - apply store_progress_inbox; [|reflexivity..]. by apply inbox_ok_update.
  - apply store_progress_work; [|reflexivity..]. by apply task_step_claims.
  - apply store_progress_prekeys; [| |reflexivity..].
    + apply prekey_progress_local, table_progress_update_where; [apply _|].
      intros _ r _. by apply erase_private_progress.
    + apply keys_ok_update. by left.
  - apply store_progress_prekeys; [|by apply keys_ok_same|reflexivity..].
    apply prekey_progress_peer, table_progress_update_where; [apply _|].
    intros k r [_ Hst]. apply peer_row_to_progress. by destruct (PeerPrekeys.state r).
  - by apply store_progress_same.
  - by apply store_progress_same.
Qed.
Lemma progress_purge now retention : steps store_progress (purge now retention).
Proof.
  unfold purge. steps_all; counted.
  1-5: by apply store_progress_same.
  - apply store_progress_inbox; [|reflexivity..]. by apply inbox_ok_delete.
  - apply store_progress_work; [|reflexivity..]. apply task_step_only_claims; [|done].
    apply claims_ok_delete.
  - apply store_progress_prekeys; [| |reflexivity..].
    + apply prekey_progress_local, table_progress_update_where; [apply _|].
      intros _ r _. by apply erase_private_progress.
    + apply keys_ok_update. by left.
  - apply store_progress_prekeys; [|by apply keys_ok_same|reflexivity..].
    apply prekey_progress_peer, table_progress_update_where; [apply _|].
    intros k r [Hst _]. apply peer_row_to_progress. by rewrite Hst.
Qed.

(** *** The gateway *)

(** The gateway writes its own tables, packets and peer keys. *)
Definition outside_gateway (s : db) := (local_prekeys s, work_tables s, inbox s).
Lemma progress_gateway {A} (m : M A) :
  steps prekey_progress m → steps (keeps outside_gateway) m → steps store_progress m.
Proof.
  intros H1 H2 s. specialize (H1 s). specialize (H2 s). unfold wp in *. revert H1 H2.
  generalize (m s).2. intros s' Hp Hk.
  apply store_progress_prekeys; [exact Hp|apply keys_ok_same|..];
    [exact (f_equal (λ x, x.1.1) Hk)|exact (f_equal (λ x, x.1.2) Hk)|exact (f_equal snd Hk)].
Qed.
Lemma prekeys_unrelated {A} (m : M A) : steps (keeps prekey_part) m → steps prekey_progress m.
Proof. intros H s. apply prekey_progress_same, H. Qed.
Ltac frame_unrelated := apply prekeys_unrelated; frame.

Lemma insert_dispatch_keeps {B} (f : db → B) now token key t a d k body :
  (∀ D s, f (set_a2a_gateway_dispatches D s) = f s) →
  steps (keeps f) (insert_dispatch now token key t a d k body).
Proof. intros Hf. unfold insert_dispatch, exec. steps_all. apply steps_modify. intros s'. apply Hf. Qed.
Lemma register_keeps {B} (f : db → B) now token r :
  (∀ D s, f (set_a2a_gateway_dispatches D s) = f s) → (∀ T s, f (set_a2a_gateway_tasks T s) = f s) →
  (∀ T s, f (set_a2a_gateway_messages T s) = f s) → steps (keeps f) (register_commit now token r).
Proof.
  intros Hd Ht Hm. unfold register_commit, repeat_message, required, new_message, open_task, put_task,
    insert_message, insert_dispatch_or_ignore, exec.
  steps_all; first [by apply insert_dispatch_keeps | apply steps_modify; intros s'; first [apply Ht|apply Hm]].
Qed.
Lemma cancel_intents_keeps {B} (f : db → B) now tokens n key d targets :
  (∀ D s, f (set_a2a_gateway_dispatches D s) = f s) →
  steps (keeps f) (cancel_intents now tokens n key d targets).
Proof.
  intros Hf. revert n. induction targets as [|target targets IH]; intros n; simpl; steps_all; [|apply IH].
  unfold cancel_intent. steps_all. by apply insert_dispatch_keeps.
Qed.
Lemma claim_dispatches_keeps {B} (f : db → B) now until o tokens n rows :
  (∀ D s, f (set_a2a_gateway_dispatches D s) = f s) →
  steps (keeps f) (claim_dispatches now until o tokens n rows).
Proof.
  intros Hf. revert n. induction rows as [|[k d] rows IH]; intros n; simpl; steps_all; [|apply IH].
  unfold put_dispatch, exec. steps_all. apply steps_modify. intros s'. apply Hf.
Qed.
Lemma append_events_keeps {B} (f : db → B) now key source latest events acc :
  (∀ T s, f (set_a2a_gateway_events T s) = f s) →
  steps (keeps f) (append_events now key source latest events acc).
Proof.
  intros Hf. revert acc. induction events as [|e events IH]; intros [[[state n] a] d];
    cbn [append_events]; steps_all; try apply IH.
  unfold insert_event, exec. steps_all. apply steps_modify. intros s'. apply Hf.
Qed.
Lemma progress_gateway_calls :
  (∀ now p n allowed, steps store_progress (bind_a2a_principal now p n allowed)) ∧
  (∀ now token fresh p n t c i d k tenant v body,
     steps store_progress (register_a2a_message now token fresh p n t c i d k tenant v body)) ∧
  (∀ now tokens p request n, steps store_progress (request_a2a_task_cancellation now tokens p request n)) ∧
  (∀ now tokens o limit lease, steps store_progress (claim_a2a_dispatches now tokens o limit lease)) ∧
  (∀ now p n t source events, steps store_progress (append_a2a_task_events now p n t source events)).
Proof.
  split_and!; intros; (apply progress_gateway; [apply prekeys_unrelated|]).
  1-2: unfold bind_a2a_principal, put_principal, exec; frame.
  1-2: unfold register_a2a_message; steps_all; by apply register_keeps.
  1-2: unfold request_a2a_task_cancellation, cancel_commit, exec; frame; by apply cancel_intents_keeps.
  1-2: unfold claim_a2a_dispatches; steps_all; by apply claim_dispatches_keeps.
  all: unfold append_a2a_task_events, append_commit, exec; frame; by apply append_events_keeps.
Qed.
Lemma progress_retry_a2a_dispatch now token o t error retry :
  steps store_progress (retry_a2a_dispatch now token o t error retry).
Proof.
  apply progress_gateway; unfold retry_a2a_dispatch, required, update_dispatches; steps_all.
  - apply prekeys_update_peer. intros k r (_ & Hst & _). apply peer_row_to_progress. by rewrite Hst.
  - apply prekeys_unrelated. by apply steps_modify.
  - by apply steps_modify.
  - by apply steps_modify.
Qed.
Lemma progress_commit_a2a_dispatch_packet c c' now o t raw prekey reservation :
  steps store_progress (commit_a2a_dispatch_packet c c' now o t raw prekey reservation).
Proof.
  apply progress_gateway; unfold commit_a2a_dispatch_packet, dispatch_commit, required, update_dispatches,
    bind_dispatch_prekey, insert_packet, finish_cancellation; steps_all;
    try (apply prekeys_unrelated; by apply steps_modify); try by apply steps_modify.
  apply prekeys_update_peer. intros k0 r0 (_ & Hst & _). apply peer_row_to_progress. by rewrite Hst.
Qed.

Lemma store_call_progress {A} (m : M A) : store_call A m → steps store_progress m.
Proof.
  destruct 1; eauto using progress_init_reconcile, progress_add_inbox, progress_mark_read,
    progress_add_local_prekey_batch, progress_scope_legacy, progress_retire_unscoped,
    progress_commit_local_message, progress_import_peer_prekey_bundle,
    progress_reserve_peer_prekey, progress_bind_peer_prekey, progress_burn_peer_prekey,
    progress_record_prekey_request, progress_claim_consumer_messages, progress_renew_claim,
    progress_revoke_peer, progress_purge, progress_register, progress_begin_effect,
    progress_settle_effect, progress_activate, progress_retry_a2a_dispatch,
    progress_commit_a2a_dispatch_packet.
  1-8: apply progress_unrelated.
  - unfold add_packet, set_packet_row, exec. frame.
  - unfold mark_attempt, mark_attempt_one, exec. frame.
  - unfold mark_custodied, mark_custodied_one, exec. frame.
  - unfold mark_acked, mark_acked_one, exec. frame.
  - unfold mark_local_delivered, set_packet_row, exec. frame.
  - unfold mark_local_rejected, mark_local_delivered, set_packet_row, exec. frame.
  - unfold record_receipt, exec. frame.
  - unfold open_consumer_group, exec. frame.
  - unfold acknowledge_claim. steps_all. by apply progress_settle_claim.
  - unfold reject_claim. steps_all. by apply progress_settle_claim.
  - apply progress_task; [by apply begin_agent_task_step|apply begin_keeps].
  - apply progress_task; [apply apply_cancellation_step|apply cancel_keeps].
  - apply progress_task; [apply settle_agent_task_step|apply settle_keeps].
  - apply progress_unrelated. unfold record_path_result, exec. frame.
  - apply progress_unrelated. unfold set_route, exec. frame.
  - apply progress_gateway_calls.
  - apply progress_gateway_calls.
  - apply progress_gateway_calls.
  - apply progress_gateway_calls.
  - apply progress_gateway_calls.
Qed.

Lemma store_step_progress s s' : store_step s s' → store_progress s s'.
Proof. intros (A & m & Hm & ->). by apply store_call_progress. Qed.
Lemma store_run_progress s s' : rtc store_step s s' → store_progress s s'.
Proof. apply rtc_preorder; [apply _|apply store_step_progress]. Qed.
End progress.

(** ** Guarantees over whole runs *)

Section guarantees.
Context {PL : Platform} {AG : ApprovalGrants}.

(** Uses are within the limit whether or not there are any. *)
Lemma uses_bounded s id a :
  approvals_ok s → companion_approval_authorizations s !! id = Some a →
  uses s id ≤ Z.max 0 (Approvals.max_uses a).
Proof.
  intros Hok Ha. destruct (decide (uses s id = 0)) as [->|Hne]; [lia|].
  assert (∃ k r, companion_approval_effects s !! k = Some r ∧ k.1 = id) as (k & r & Hr & Hk).
  { apply dec_stable. intros Hnone. apply Hne. unfold uses. apply count_where_zero.
    intros k r Hr [Hid _]. apply Hnone. by exists k, r. }
  destruct (ao_limit _ Hok k r Hr) as (a' & Ha' & Hle). rewrite Hk in *.
  apply active_authorization_Some in Ha' as [Ha' _]. simplify_eq. lia.
Qed.

Lemma store_run_tasks_ok s s' : rtc store_step s s' → tasks_ok s → tasks_ok s'.
Proof. intros Hrun. exact (ts_tasks_ok _ _ (sp_tasks _ _ (store_run_progress _ _ Hrun))). Qed.

(** C36: every database reached from an empty one is well formed: leased claims and
    active executions, and only those, carry a token, and no token is shared; a
    task with an accepted cancellation is stopped; a private prekey exists only
    while its key is available; inbox row ids are distinct; an approval's effects
    keep within the uses of its active authorization, whose request is registered. *)
Theorem store_invariants s :
  rtc store_step empty_db s →
  claims_ok s ∧ tasks_ok s ∧ keys_ok s ∧ inbox_ok s ∧ approvals_ok s.
Proof.
  intros Hrun%store_run_progress. destruct Hrun as [_ [_ Ht Hc _] [_ _ _ Ha] Hk Hi]. split_and!.
  - apply Hc. split; simpl; intros; by rewrite lookup_empty in *.
  - apply Ht. split; simpl; intros; by rewrite lookup_empty in *.
  - apply Hk. intros k r. simpl. by rewrite lookup_empty.
  - apply Hi. intros k k' i i'. simpl. by rewrite lookup_empty.
  - apply Ha. split; simpl; intros; by rewrite lookup_empty in *.
Qed.

(** C38: an approval is decided once and spent at most as often as it says: along any
    run the authorization of a request and the request itself never change, the
    effects under it that were not rejected never outnumber its uses, and a finished
    effect keeps its outcome. *)
Theorem approval_spent_within_limit s s' id a :
  rtc store_step empty_db s → rtc store_step s s' →
  companion_approval_authorizations s !! id = Some a →
  companion_approval_authorizations s' !! id = Some a ∧
  (∃ r, companion_approval_requests s !! id = Some r ∧
     companion_approval_requests s' !! id = Some r) ∧
  uses s' id ≤ Z.max 0 (Approvals.max_uses a) ∧
  (∀ e r, companion_approval_effects s !! (id, e) = Some r →
     Effects.state r = Effects.Executed ∨ Effects.state r = Effects.Rejected →
     companion_approval_effects s' !! (id, e) = Some r).
Proof.
  intros Hs Hrun Ha.
  assert (approvals_ok empty_db) as Hempty by (split; simpl; intros; by rewrite lookup_empty in *).
  pose proof (sp_approvals _ _ (store_run_progress _ _ Hs)) as [_ _ _ Hok].
  pose proof (sp_approvals _ _ (store_run_progress _ _ Hrun)) as [Hreq Hauth Heff Hok'].
  specialize (Hok Hempty). specialize (Hok' Hok).
  destruct (Hauth _ _ Ha) as (a' & Ha' & <-).
  destruct (ao_request _ Hok _ _ Ha) as [r Hr]. destruct (Hreq _ _ Hr) as (r' & Hr' & <-).
  split_and!; [done|by exists r| |].
  - by apply uses_bounded.
  - intros e x Hx Hfin. destruct (Heff _ _ Hx) as (x' & Hx' & _ & _ & _ & Hfinal).
    by rewrite (Hfinal Hfin) in Hx'.
Qed.

(** C1: a one-time prekey opens one message.  Once a message was committed with it,
    then at any later time the key is unavailable, its private bytes are gone and
    it is recorded under that message; it can no longer be loaded, and a commit of
    any other message that names it raises and changes nothing. *)
Theorem prekey_consumed_once now message trusted visible s s1 s2 :
  commit_local_message now message trusted visible s = (Ok true, s1) →
  msg_key_mode message = "opk" →
  rtc store_step s1 s2 →
  (∃ r, local_prekeys s2 !! msg_prekey_id message = Some r ∧
     LocalPrekeys.state r ≠ LocalPrekeys.Available ∧ LocalPrekeys.private_key r = None ∧
     LocalPrekeys.packet_id r = msg_packet_id message) ∧
  (∀ id, _prekey_id id = Ok (msg_prekey_id message) →
     local_prekey_material id s2 = (Ok None, s2)) ∧
  (∀ now' other trusted' visible',
     msg_key_mode other = "opk" → msg_prekey_id other = msg_prekey_id message →
     inbox s2 !! msg_packet_id other = None →
     ∃ e, commit_local_message now' other trusted' visible' s2 = (Err e, s2)).
Proof.
  intros Hrun Hmode Hlater.
  pose proof (commit_run now message trusted visible s) as Hpost.
  unfold wp in Hpost. rewrite Hrun in Hpost. simpl in Hpost.
  destruct Hpost as (_ & _ & [_ Hkey] & _). rewrite Hmode in Hkey. simpl in Hkey.
  destruct Hkey as (r0 & _ & _ & _ & _ & Hs1).
  destruct (kp_local _ _ (sp_prekeys _ _ (store_run_progress _ _ Hlater)) (msg_prekey_id message)
    (consume_row now (msg_packet_id message) r0)) as (r & Hr & Hp).
  { by rewrite Hs1, lookup_insert_eq. }
  destruct Hp as (_ & _ & _ & _ & _ & _ & Hpriv & _ & Hst).
  specialize (Hpriv eq_refl). destruct (Hst ltac:(done)) as [Hst' Hpk]. split_and!.
  - exists r. by split_and!.
  - intros id Hid. unfold local_prekey_material. cbv [mbind ST_bind lift gets]. rewrite Hid.
    cbv [option_bind]. by rewrite Hr, Hpriv.
  - intros now' other trusted' visible' Hmode' Hsame Hnew.
    pose proof (commit_run now' other trusted' visible' s2) as Hpost. unfold wp in Hpost.
    destruct (commit_local_message now' other trusted' visible' s2) as [[[]|e] s3]; simpl in Hpost.
    + destruct Hpost as (_ & _ & [_ Hkey] & _). rewrite Hmode' in Hkey. simpl in Hkey.
      rewrite Hsame in Hkey. destruct Hkey as (r' & Hr' & Hav & _). by simplify_eq.
    + destruct Hpost as [Hin _]. rewrite Hnew in Hin. by destruct Hin.
    + exists e. by destruct Hpost as [-> _].
Qed.

(** A peer's one-time key is never handed to two reservations: whenever a
    reservation of a key was granted, any later reservation that is given the same
    key has the same reservation id. *)
Theorem reservation_exclusive now token peer rid min s res s1 s2 now' token' peer' rid' min' res' s3 :
  reserve_peer_prekey now token peer rid min s = (Ok (Some res), s1) →
  rtc store_step s1 s2 →
  reserve_peer_prekey now' token' peer' rid' min' s2 = (Ok (Some res'), s3) →
  res_peer_id res' = res_peer_id res → res_prekey_id res' = res_prekey_id res →
  res_reservation_id res' = res_reservation_id res ∧ res_public_key res' = res_public_key res.
Proof.
  intros Hrun Hlater Hrun' Hpeer Hid.
  assert (∀ now token peer rid min s res s', reserve_peer_prekey now token peer rid min s =
    (Ok (Some res), s') → holds_key now min res s') as Hholds.
  { clear. intros now token peer rid min s res s' Hrun.
    pose proof (reserve_run now token peer rid min s) as Hpost. unfold wp in Hpost.
    rewrite Hrun in Hpost. simpl in Hpost. by destruct Hpost as (_ & _ & ? & _). }
  destruct (Hholds _ _ _ _ _ _ _ _ Hrun) as (row & Hrow & Hst & <- & <- & _).
  destruct (Hholds _ _ _ _ _ _ _ _ Hrun') as (row' & Hrow' & Hst' & <- & <- & _).
  assert (store_progress s1 s3) as Hprog.
  { etrans; [by apply store_run_progress|]. replace s3 with
      (reserve_peer_prekey now' token' peer' rid' min' s2).2 by by rewrite Hrun'.
    apply progress_reserve_peer_prekey. }
  destruct (kp_peer _ _ (sp_prekeys _ _ Hprog) _ _ Hrow) as (row2 & Hrow2 & Hp).
  rewrite Hpeer, Hid, Hrow2 in Hrow'. injection Hrow' as ->.
  destruct Hp as (_ & _ & _ & _ & _ & [->|Hrank]); [done|].
  rewrite Hst, Hst' in Hrank. simpl in Hrank. lia.
Qed.

(** A peer's prekey bundles can neither be rolled back nor replaced: of two
    imports accepted for one peer the later one has at least the generation of the
    earlier, and with the same generation it is the same bundle. *)
Theorem bundle_no_rollback now1 now1' peer1 keys1 v1 intended1 g1 hash1 c1 e1 i1
    now2 now2' peer2 keys2 v2 intended2 g2 hash2 c2 e2 i2 s s1 s2 s3 :
  import_peer_prekey_bundle now1 now1' peer1 keys1 v1 intended1 g1 hash1 c1 e1 s = (Ok i1, s1) →
  rtc store_step s1 s2 →
  import_peer_prekey_bundle now2 now2' peer2 keys2 v2 intended2 g2 hash2 c2 e2 s2 = (Ok i2, s3) →
  strip peer1 = strip peer2 →
  g1 ≤ g2 ∧
  (g1 = g2 → v1 = v2 ∧ strip intended1 = strip intended2 ∧
     lower (strip hash1) = lower (strip hash2)).
Proof.
  intros Hrun Hlater Hrun' Hpeer.
  pose proof (import_run now1 now1' peer1 keys1 v1 intended1 g1 hash1 c1 e1 s) as H1.
  pose proof (import_run now2 now2' peer2 keys2 v2 intended2 g2 hash2 c2 e2 s2) as H2.
  unfold wp in H1, H2. rewrite Hrun in H1. rewrite Hrun' in H2. simpl in H1, H2.
  destruct H1 as (_ & (r1 & Hr1 & <- & <- & <-) & _).
  destruct H2 as (Hmax & (r2 & Hr2 & <- & <- & <-) & _).
  destruct (kp_bundles _ _ (sp_prekeys _ _ (store_run_progress _ _ Hlater)) _ _ Hr1)
    as (r & Hr & <-).
  rewrite Hpeer in *. split; [by apply (Hmax g1 r1)|]. intros <-.
  assert (prekey_progress s2 s3) as [_ _ Hb _].
  { replace s3 with (import_peer_prekey_bundle now2 now2' peer2 keys2
      (PeerBundles.bundle_version r2) intended2 g1 hash2 c2 e2 s2).2 by by rewrite Hrun'.
    apply prekeys_import_peer_prekey_bundle. }
  destruct (Hb _ _ Hr) as (r' & Hr' & <-). by simplify_eq.
Qed.

(** C2: an accepted cancellation is final: from then on the task is only ever being
    canceled or canceled, and no claimant is told to execute it. *)
Theorem cancellation_final now fresh group_id owner claim_token senders s item s1 s2 :
  tasks_ok s →
  apply_agent_task_cancellation now fresh group_id owner claim_token senders s = (Ok item, s1) →
  Cancels.state (cancel_row item) ≠ Cancels.TooLate →
  rtc store_step s1 s2 →
  (∀ r, agent_task_executions s2 !! cancel_key item = Some r → stopped r) ∧
  (∀ now' fresh' token g o t senders' caps begun flags s3, token ≠ "" →
     begin_agent_task now' fresh' token g o t senders' caps s2 = (Ok (begun, flags), s3) →
     task_key_of begun = cancel_key item → execute flags = false).
Proof.
  intros Hok Hrun Heff Hlater.
  pose proof (apply_cancellation_run now fresh group_id owner claim_token senders s) as Hpost.
  unfold wp in Hpost. rewrite Hrun in Hpost. simpl in Hpost.
  destruct Hpost as (Hstep & _ & Hc & _).
  pose proof (ts_tasks_ok _ _ Hstep Hok) as Hok1.
  pose proof (store_run_tasks_ok _ _ Hlater Hok1) as Hok2.
  destruct (ts_cancel _ _ (sp_tasks _ _ (store_run_progress _ _ Hlater)) Hok1 _ _ Hc Heff)
    as (c2 & Hc2 & Heff2). split.
  - intros r Hr. exact (to_cancel s2 Hok2 _ c2 r Hc2 Heff2 Hr).
  - intros now' fresh' token g o t senders' caps begun flags s3 Htok Hbegin Hkey.
    apply not_true_iff_false. intros Hx.
    pose proof (begin_no_cancel _ _ _ _ _ _ _ _ _ _ _ _ Hok2 Htok Hbegin Hx) as Hnone.
    rewrite Hkey in Hnone. unfold cancellation_of in Hnone. rewrite Hc2 in Hnone.
    simpl in Hnone. by rewrite option_guard_True in Hnone.
Qed.

(** A task keeps its request and its outcome: along any run an execution keeps
    the hash of the request it was started for and never loses an attempt, a
    terminal one does not change any more, and a canceling one can only become
    canceled. *)
Theorem task_outcome_final s s' key r :
  rtc store_step s s' → agent_task_executions s !! key = Some r →
  ∃ r', agent_task_executions s' !! key = Some r' ∧
    Executions.request_hash r' = Executions.request_hash r ∧
    Executions.attempts r ≤ Executions.attempts r' ∧
    (terminal_state (Executions.state r) = true → r' = r) ∧
    (Executions.state r = Executions.Canceling → stopped r').
Proof.
  intros Hrun Hr.
  destruct (ts_progress _ _ (sp_tasks _ _ (store_run_progress _ _ Hrun)) key r Hr)
    as (r' & Hr' & Hhash & Hterm & Hcanc & Hatt).
  exists r'. by split_and!.
Qed.
End guarantees.

(** ** Witnesses: one prekey, one bundle and one task through their lives *)

Definition thirty_two : bytes := "0123456789abcdef0123456789abcdef".
Definition other_key : bytes := "fedcba9876543210fedcba9876543210".
Definition life_prekey : string := "00000000000000000000000000000001".
Definition other_prekey : string := "00000000000000000000000000000002".

(** *** A local prekey *)
Definition keyed_db : db :=
  (add_local_prekey_batch [PrekeyItem life_prekey (thirty_two, other_key)] sample_sender
     2 1 1000 90000 empty_db).2.
Definition keyed_message (packet : string) : OpenedMessage := {|
  msg_packet_id := packet; msg_sender_id := sample_sender; msg_sender_sign_public := "";
  msg_sender_box_public := ""; msg_kind := "chat.text"; msg_created_ms := 1000;
  msg_body := VNone; msg_causal := []; msg_codec := "json"; msg_reply_to := "";
  msg_qos := Normal; msg_key_mode := "opk"; msg_prekey_id := life_prekey |}.
Definition commit_keyed (packet : string) (s : db) : res bool * db :=
  @commit_local_message task_platform 2000 (keyed_message packet) true true s.

Lemma prekey_consumed_once_witness :
  (local_prekey_material life_prekey keyed_db).1 ≠ Ok None ∧
  (commit_keyed "p1" keyed_db).1 = Ok true ∧
  local_prekey_material life_prekey (commit_keyed "p1" keyed_db).2 =
    (Ok None, (commit_keyed "p1" keyed_db).2) ∧
  ∃ e, commit_keyed "p2" (commit_keyed "p1" keyed_db).2 = (Err e, (commit_keyed "p1" keyed_db).2).
Proof.
  split; [vm_compute; discriminate|].
  assert ((commit_keyed "p1" keyed_db).1 = Ok true) as Hok by (vm_compute; reflexivity).
  assert (inbox (commit_keyed "p1" keyed_db).2 !! "p2" = None) as Hnew by (vm_compute; reflexivity).
  split; [exact Hok|].
  pose proof (@prekey_consumed_once task_platform sample_grants 2000 (keyed_message "p1") true true keyed_db) as H.
  fold (commit_keyed "p1" keyed_db) in H.
  destruct (commit_keyed "p1" keyed_db) as [r s1]. simpl in Hok, Hnew. subst r.
  destruct (H s1 s1 eq_refl eq_refl (rtc_refl _ _)) as (_ & Hmaterial & Hcommit).
  split; [by apply Hmaterial|].
  exact (Hcommit 2000 (keyed_message "p2") true true eq_refl eq_refl Hnew).
Defined.

(** *** A peer's bundle *)
Definition bundle_hash_of (digit : string) : string :=
  String.concat "" (repeat digit 64).
Definition import_life (generation : Z) (prekey : string) (s : db) : res import_result * db :=
  import_peer_prekey_bundle 1000 1000 sample_sender [PrekeyItem prekey thirty_two] 2 sample_sender
    generation (bundle_hash_of "a") 500 90000 s.
Definition bundle_db : db := (import_life 1 life_prekey empty_db).2.
Definition reserve_life (s : db) : res (option reservation) * db :=
  reserve_peer_prekey 2000 "" sample_sender other_prekey 1 s.

Lemma reservation_exclusive_witness :
  match reserve_life bundle_db with
  | (Ok (Some res), s) =>
      match reserve_life s with
      | (Ok (Some res'), _) => res_reservation_id res' = res_reservation_id res
      | _ => False
      end
  | _ => False
  end.
Proof.
  destruct (reserve_life bundle_db) as [r1 s1] eqn:E1.
  assert (match r1 with
    | Ok (Some res) => match reserve_life s1 with
        | (Ok (Some res'), _) => res_peer_id res' = res_peer_id res ∧
            res_prekey_id res' = res_prekey_id res
        | _ => False end
    | _ => False end) as Hrun.
  { assert (r1 = (reserve_life bundle_db).1) as -> by by rewrite E1.
    assert (s1 = (reserve_life bundle_db).2) as -> by by rewrite E1.
    vm_compute. by split. }
  destruct r1 as [[res|]|]; try destruct Hrun.
  destruct (reserve_life s1) as [[[res'|]|] s3] eqn:E2; [|by destruct Hrun..].
  unfold reserve_life in E1, E2.
  exact (proj1 (@reservation_exclusive task_platform sample_grants _ _ _ _ _ _ _ _ _ _ _ _ _ _ _ _
    E1 (rtc_refl _ _) E2 (proj1 Hrun) (proj2 Hrun))).
Defined.

Lemma bundle_no_rollback_witness :
  match import_life 1 life_prekey empty_db with
  | (Ok _, s1) => match import_life 2 other_prekey s1 with (Ok _, _) => 1 ≤ 2 | _ => False end
  | _ => False
  end.
Proof.
  destruct (import_life 1 life_prekey empty_db) as [r1 s1] eqn:E1.
  assert (match r1, (import_life 2 other_prekey s1).1 with Ok _, Ok _ => True | _, _ => False end)
    as Hrun.
  { assert (r1 = (import_life 1 life_prekey empty_db).1) as -> by by rewrite E1.
    assert (s1 = (import_life 1 life_prekey empty_db).2) as -> by by rewrite E1.
    vm_compute. exact I. }
  destruct r1 as [i1|]; [|destruct Hrun].
  destruct (import_life 2 other_prekey s1) as [[i2|] s3] eqn:E2; [|destruct Hrun].
  unfold import_life in E1, E2.
  exact (proj1 (@bundle_no_rollback task_platform sample_grants _ _ _ _ _ _ _ _ _ _ _
    _ _ _ _ _ _ _ _ _ _ _ _ _ _ _ E1 (rtc_refl _ _) E2 eq_refl)).
Defined.

(** *** A task *)

Lemma run_step {A} (m : M A) s : @store_call task_platform sample_grants A m →
  rtc (@store_step task_platform sample_grants) s (m s).2.
Proof. intros Hm. apply rtc_once. by exists A, m. Qed.
Lemma claimed_reachable messages : rtc (@store_step task_platform sample_grants) empty_db (claimed_db messages).
Proof.
  unfold claimed_db. etrans; [|apply run_step; constructor; by intros []].
  etrans; [|apply run_step; constructor].
  induction messages as [|m messages IH] using rev_ind; [reflexivity|].
  rewrite foldl_app. simpl. etrans; [exact IH|]. apply run_step. constructor.
Qed.
Lemma begun_reachable fresh messages :
  rtc (@store_step task_platform sample_grants) empty_db (sample_begin fresh (claimed_db messages)).2.
Proof.
  etrans; [apply claimed_reachable|]. unfold sample_begin.
  apply run_step, call_begin_agent_task. discriminate.
Qed.

Lemma store_invariants_witness :
  bool_decide (agent_task_executions started_db = ∅) = false ∧
  claims_ok started_db ∧ tasks_ok started_db ∧ keys_ok started_db ∧ inbox_ok started_db ∧
  approvals_ok started_db.
Proof.
  split; [vm_compute; reflexivity|].
  apply (@store_invariants task_platform sample_grants). unfold started_db, request_db. apply begun_reachable.
Defined.

Definition settle_sample (s : db) : res (task_item * Claims.state_t * option Z) * db :=
  @settle_agent_task task_platform 4000 "workers" "w1" sample_token sample_execution
    "completed" VNone "" 0 s.
Definition completed_db : db := (settle_sample started_db).2.
Definition sample_key : task_key := ("workers", sample_sender, sample_task).

Lemma task_outcome_final_witness :
  ∃ r, agent_task_executions completed_db !! sample_key = Some r ∧
    Executions.state r = Executions.Completed ∧
    agent_task_executions (purge 9000000 0 completed_db).2 !! sample_key = Some r.
Proof.
  assert (Executions.state <$> agent_task_executions completed_db !! sample_key =
    Some Executions.Completed) as Hst by (vm_compute; reflexivity).
  revert Hst. generalize completed_db. intros s Hst.
  destruct (agent_task_executions s !! sample_key) as [r|] eqn:Hr; [|discriminate Hst].
  exists r. injection Hst as Hst. split; [reflexivity|]. split; [exact Hst|].
  destruct (@task_outcome_final task_platform sample_grants s (purge 9000000 0 s).2 sample_key r
    (run_step _ _ (call_purge _ _)) Hr) as (r' & Hr' & _ & _ & Hfinal & _).
  rewrite Hr', (Hfinal ltac:(rewrite Hst; reflexivity)). reflexivity.
Defined.

Definition cancel_token : string := "cccccccccccccccccccccccccccccccc".
Definition working_db : db := (sample_begin "" (claimed_db
  [sample_message "p1" "agent.task.request" sample_request;
   sample_message "p2" "agent.task.cancel" sample_cancel])).2.
Definition cancel_sample (s : db) : res cancel_item * db :=
  @apply_agent_task_cancellation task_platform 3500 "" "workers" "w1" cancel_token
    [sample_sender] s.

Lemma cancellation_final_witness :
  ∃ item s1, cancel_sample working_db = (Ok item, s1) ∧ cooperative_stop_required item = true ∧
    ∀ r, agent_task_executions s1 !! cancel_key item = Some r → stopped r.
Proof.
  assert (tasks_ok working_db) as Hok.
  { apply (store_run_tasks_ok (PL := task_platform) (AG := sample_grants) empty_db); [unfold working_db; apply begun_reachable|].
    by apply tasks_ok_no_executions. }
  assert (match (cancel_sample working_db).1 with
    | Ok item => cooperative_stop_required item = true ∧
        Cancels.state (cancel_row item) = Cancels.Requested
    | Err _ => False end) as Hrun by (vm_compute; split; reflexivity).
  revert Hok Hrun. generalize working_db. intros s Hok Hrun.
  destruct (cancel_sample s) as [[item|e] s1] eqn:E; [|destruct Hrun].
  destruct Hrun as [Hcoop Hst]. exists item, s1. split; [reflexivity|]. split; [exact Hcoop|].
  unfold cancel_sample in E. simpl in Hst.
  exact (proj1 (@cancellation_final task_platform sample_grants _ _ _ _ _ _ s item s1 s1 Hok E
    ltac:(rewrite Hst; discriminate) (rtc_refl _ _))).
Defined.

(** *** An approval *)

Lemma approval_run_step {A} (m : M A) s : @store_call approval_platform sample_grants A m →
  rtc (@store_step approval_platform sample_grants) s (m s).2.
Proof. intros Hm. apply rtc_once. by exists A, m. Qed.
Lemma approved_reachable : rtc (@store_step approval_platform sample_grants) empty_db approved_db.
Proof.
  unfold approved_db, activate_ex, decision_db, register_ex.
  etrans; [|apply approval_run_step, call_activate_companion_approval].
  etrans; [|apply approval_run_step, call_claim_consumer_messages; discriminate].
  etrans; [|apply approval_run_step, call_open_consumer_group].
  etrans; [|apply approval_run_step, call_add_inbox].
  apply approval_run_step, call_register_companion_approval_request.
Qed.
Definition spent_db : db := (run_effect_ex sample_token (effect_id_ex "1") approved_db).2.
Lemma spent_reachable : rtc (@store_step approval_platform sample_grants) approved_db spent_db.
Proof.
  unfold spent_db, run_effect_ex.
  apply approval_run_step, call_begin_companion_approval_effect. discriminate.
Qed.

Lemma approval_spent_within_limit_witness :
  ∃ a, companion_approval_authorizations approved_db !! hex32 = Some a ∧
    Approvals.max_uses a = 2 ∧ uses spent_db hex32 = 1 ∧
    companion_approval_authorizations spent_db !! hex32 = Some a ∧
    uses spent_db hex32 ≤ Z.max 0 (Approvals.max_uses a).
Proof.
  assert (match companion_approval_authorizations approved_db !! hex32 with
    | Some a => Approvals.max_uses a = 2 | None => False end ∧ uses spent_db hex32 = 1)
    as [Ha Huses] by (vm_compute; by split).
  pose proof approved_reachable as H1. pose proof spent_reachable as H2.
  revert Ha Huses H1 H2. generalize approved_db, spent_db. intros s s' Ha Huses H1 H2.
  destruct (companion_approval_authorizations s !! hex32) as [a|] eqn:Hs; [|destruct Ha].
  exists a. split; [reflexivity|]. split; [exact Ha|]. split; [exact Huses|].
  destruct (@approval_spent_within_limit approval_platform sample_grants s s' hex32 a H1 H2 Hs)
    as (H & _ & Hle & _). split; [exact H|exact Hle].
Defined.

(** ** Row ids that come back *)

(** [open_consumer_group] with [start='latest'] remembers the largest row id of the
    inbox; SQLite gives the row id of the newest row to the next message once
    [purge] has deleted that row. *)
Definition hidden_receipt : OpenedMessage := sample_message "p1" "receipt" VNone.
Definition later_message : OpenedMessage := sample_message "p2" "chat.text" VNone.
Definition latest_group (s : db) : db :=
  (open_consumer_group 2000 "workers" "latest" "" "" true false s).2.
(** A group that starts at the latest message misses a later one when the
    newest row at its start was a hidden message that a purge removed: the later
    message gets that row id again and no claim of the group ever matches it,
    while without the purge the group receives it. *)
Theorem reused_rowid_hides_message :
  let receive := λ m visible s, (@add_inbox task_platform 2500 m true visible s).2 in
  let opened := latest_group (receive hidden_receipt false empty_db) in
  let purged := receive later_message true (purge 9000000 60000 opened).2 in
  let kept := receive later_message true opened in
  (Inbox.rowid <$> inbox purged !! "p2", Inbox.visible <$> inbox purged !! "p2",
   status_available <$> (consumer_group_status 9000001 "workers" purged).1,
   status_available <$> (consumer_group_status 9000001 "workers" kept).1) =
  (Some 1, Some true, Ok 0, Ok 1).
Proof. vm_compute. reflexivity. Qed.
