(* ===== verification/GatewayRun.v ===== *)
(** The A2A gateway over the life of a database: what every operation of [PacketStore]
    (src/anet/store.py) keeps of principals, tasks, messages, event logs and dispatches,
    and the guarantees a gateway builds on. *)
From S2P Require Import Prelude PyStr PyVal Codecs Schema Packet Queue Prekeys Consumers AgentProtocol A2A Gateway.
From S2P Require Import Companion Tasks Approvals Maintenance Lifecycle.

(** ** Every operation is a gateway step *)

Section operations.
Context {PL : Platform} {AG : ApprovalGrants}.

Lemma gateway_unrelated {A} (m : M A) : steps (keeps gateway_tables) m → steps gateway_step m.
Proof. intros H s. apply gateway_step_same, H. Qed.
Ltac unrelated := apply gateway_unrelated; frame.

Lemma claim_loop_keeps {B} (f : db → B) g o until tokens n rows :
  (∀ D s, f (set_consumer_deliveries D s) = f s) →
  steps (keeps f) (claim_loop g o until tokens n rows).
Proof.
  intros Hf. revert n. induction rows as [|[[id i] d] rows IH]; intros n; simpl; steps_all; [|apply IH].
  unfold put_claim, exec. steps_all. apply steps_modify. intros s'. apply Hf.
Qed.
Lemma gateway_prekey_calls :
  (∀ keys peer version generation created expires,
     steps gateway_step (add_local_prekey_batch keys peer version generation created expires)) ∧
  (∀ peer, steps gateway_step (scope_legacy_local_prekeys peer)) ∧
  (∀ now peers, steps gateway_step (retire_unscoped_local_prekeys now peers)) ∧
  (∀ now message trusted visible, steps gateway_step (commit_local_message now message trusted visible)) ∧
  (∀ now now' peer keys v intended g hash c e,
     steps gateway_step (import_peer_prekey_bundle now now' peer keys v intended g hash c e)) ∧
  (∀ now token peer reservation min, steps gateway_step (reserve_peer_prekey now token peer reservation min)) ∧
  (∀ now peer prekey reservation packet, steps gateway_step (bind_peer_prekey now peer prekey reservation packet)) ∧
  (∀ now peer prekey reservation, steps gateway_step (burn_peer_prekey now peer prekey reservation)) ∧
  (∀ now peer known requested, steps gateway_step (record_prekey_request now peer known requested)).
Proof.
  split_and!; intros.
  - unfold add_local_prekey_batch, raise_metadata, exec. unrelated.
    apply steps_sum_each; [apply _|]. intros [id [pub priv]]. unfold add_local_prekey, exec. frame.
  - unfold scope_legacy_local_prekeys, raise_metadata, exec. unrelated.
  - unfold retire_unscoped_local_prekeys, raise_metadata, exec. unrelated.
  - unfold commit_local_message, mark_local_delivered, set_packet_row, exec. unrelated.
  - unfold import_peer_prekey_bundle, insert_peer_bundle, exec. unrelated;
    (apply steps_sum_each; [apply _|]; intros [id pub]; unfold add_peer_prekey; frame).
  - unfold reserve_peer_prekey, reserve_available, exec. unrelated.
  - unfold bind_peer_prekey, exec. unrelated.
  - unfold burn_peer_prekey, exec. unrelated.
  - unfold record_prekey_request, exec. unrelated.
Qed.
Lemma gateway_work_calls :
  (∀ now g start kind sender trusted transient,
     steps gateway_step (open_consumer_group now g start kind sender trusted transient)) ∧
  (∀ now tokens g o limit lease, steps gateway_step (claim_consumer_messages now tokens g o limit lease)) ∧
  (∀ now g o t, steps gateway_step (acknowledge_claim now g o t)) ∧
  (∀ now g o t retry error, steps gateway_step (reject_claim now g o t retry error)) ∧
  (∀ now g o t lease, steps gateway_step (renew_claim now g o t lease)) ∧
  (∀ now fresh token g o t senders caps,
     steps gateway_step (begin_agent_task now fresh token g o t senders caps)) ∧
  (∀ now fresh g o t senders, steps gateway_step (apply_agent_task_cancellation now fresh g o t senders)) ∧
  (∀ now g o t x state output error retry,
     steps gateway_step (settle_agent_task now g o t x state output error retry)).
Proof.
  split_and!; intros.
  - unfold open_consumer_group, exec. unrelated.
  - unfold claim_consumer_messages, _require_consumer_group. unrelated. by apply claim_loop_keeps.
  - unfold acknowledge_claim, settle_claim. unrelated.
  - unfold reject_claim, settle_claim. unrelated.
  - unfold renew_claim, exec. unrelated.
  - unfold begin_agent_task, begin_commit, begin_decide, finish_canceled, ack_duplicate,
      start_execution, put_working, put_execution, apply_cancel, ack_claim, exec. unrelated.
  - unfold apply_agent_task_cancellation, record_cancel, cancel_execution, update_cancel, ack_claim,
      ack_packet, put_execution, exec. unrelated.
  - unfold settle_agent_task, settle_commit, settle_writes, put_execution, ack_claim, exec. unrelated.
Qed.
Lemma gateway_approval_calls :
  (∀ now body, steps gateway_step (register_companion_approval_request now body)) ∧
  (∀ now g o t, steps gateway_step (activate_companion_approval now g o t)) ∧
  (∀ now token request effect o lease,
     steps gateway_step (begin_companion_approval_effect now token request effect o lease)) ∧
  (∀ now request effect t outcome result error retry,
     steps gateway_step (settle_companion_approval_effect now request effect t outcome result error retry)).
Proof.
  split_and!; intros.
  - unfold register_companion_approval_request, insert_request, exec. unrelated.
  - unfold activate_companion_approval, activation_commit, insert_authorization, ack_claim, exec. unrelated.
  - unfold begin_companion_approval_effect, effect_commit, resume_effect, put_effect, exec. unrelated.
  - unfold settle_companion_approval_effect, settle_effect_commit, put_effect, exec. unrelated.
Qed.
Lemma gateway_housekeeping_calls :
  (∀ now peer, steps gateway_step (revoke_peer now peer)) ∧
  (∀ now retention, steps gateway_step (purge now retention)).
Proof.
  split_and!; intros; [unfold revoke_peer|unfold purge]; steps_all; counted; by apply gateway_step_same.
Qed.

Lemma store_call_gateway {A} (m : M A) : store_call A m → steps gateway_step m.
Proof.
  destruct gateway_prekey_calls as (P1 & P2 & P3 & P4 & P5 & P6 & P7 & P8 & P9).
  destruct gateway_work_calls as (W1 & W2 & W3 & W4 & W5 & W6 & W7 & W8).
  destruct gateway_approval_calls as (A1 & A2 & A3 & A4).
  destruct gateway_housekeeping_calls as (H1 & H2).
  destruct 1; eauto using gateway_bind_principal, gateway_claim, gateway_retry.
  - unfold init_reconcile. unrelated.
  - unfold add_packet, set_packet_row, exec. unrelated.
  - unfold mark_attempt, mark_attempt_one, exec. unrelated.
  - unfold mark_custodied, mark_custodied_one, exec. unrelated.
  - unfold mark_acked, mark_acked_one, exec. unrelated.
  - unfold mark_local_delivered, set_packet_row, exec. unrelated.
  - unfold mark_local_rejected, mark_local_delivered, set_packet_row, exec. unrelated.
  - unfold record_receipt, exec. unrelated.
  - unfold add_inbox. unrelated.
  - unfold mark_read. unrelated.
  - unfold record_path_result, exec. unrelated.
  - unfold set_route, exec. unrelated.
  - unfold register_a2a_message. steps_all. apply gateway_register_commit.
  - unfold request_a2a_task_cancellation. steps_all. apply gateway_cancel_commit.
  - unfold commit_a2a_dispatch_packet. steps_all. apply gateway_dispatch_commit.
  - unfold append_a2a_task_events. steps_all. apply gateway_append_commit.
Qed.
Lemma store_run_gateway s s' : rtc store_step s s' → gateway_step s s'.
Proof. apply rtc_preorder; [apply _|]. intros x y (A & m & Hm & ->). by apply store_call_gateway. Qed.
Lemma empty_gateway_ok : gateway_ok empty_db.
Proof.
  split; simpl.
  - intros k t. by rewrite lookup_empty.
  - intros k n. rewrite lookup_empty. split; [by intros []|]. intros (t & Ht & _). by rewrite lookup_empty in Ht.
  - intros k n n' e e'. by rewrite lookup_empty.
  - intros k m. by rewrite lookup_empty.
  - split; intros k; intros *; by rewrite lookup_empty.
Qed.
Lemma reachable_gateway_ok s : rtc store_step empty_db s → gateway_ok s.
Proof. intros Hrun. apply (store_run_gateway _ _ Hrun), empty_gateway_ok. Qed.
End operations.

(** ** Lemmas *)

Section gateway_lemmas.
Context {PL : Platform}.

Lemma append_events_known current key source latest events state seq a d s :
  Forall (λ e, known_hash (a2a_gateway_events s) key (ne_hash e)) events →
  append_events current key source latest events (state, seq, a, d) s =
    (Ok (state, seq, a, d + Z.of_nat (length events)), s).
Proof.
  intros Hevents. revert d. induction Hevents as [|e events He _ IH]; intros d; cbn [append_events].
  { simpl. by rewrite Z.add_0_r. }
  cbv [mbind ST_bind gets].
  assert ((count_where (event_of_hash key (ne_hash e)) (a2a_gateway_events s) =? 0) = false) as ->.
  { apply Z.eqb_neq. intros Hc. by apply count_known_hash in Hc. }
  cbn [negb]. rewrite IH. do 3 f_equal. rewrite length_cons. lia.
Qed.
Lemma task_join_appended current p sender t row log x s :
  task_join s p t = Some (A2ATaskItem p sender t row) →
  task_join (appended current (p, t) row log x s) p t = Some (A2ATaskItem p sender t
    (match log with [] => row | _ => with_events current (ae_state x) (ae_last_sequence x) row end)).
Proof.
  intros Htask. destruct log as [|e log]; [done|].
  apply task_join_Some in Htask as (r & q & Hr & Hq & [= -> ->]). apply task_join_Some.
  eexists. exists q. split_and!; [simpl; by rewrite lookup_insert_eq|done|done].
Qed.
(** What a commit of a dispatch that returns has done *)
Lemma head_select_where {K V} `{Countable K} (P : K → V → Prop) `{!∀ k v, Decision (P k v)} t k v :
  head (select_where P t) = Some (k, v) → t !! k = Some v ∧ P k v.
Proof.
  intros Hhead. apply (elem_of_select_where P). destruct (select_where P t) as [|kv l]; [done|].
  injection Hhead as ->. by left.
Qed.
Definition prekey_bound (current : Z) (info : PacketInfo) (d : A2ADispatches.row)
    (prekey : option (string * string)) (s s' : db) : Prop :=
  match prekey with
  | None => peer_prekeys s' = peer_prekeys s
  | Some (id, reservation) => A2ADispatches.encryption_reservation_id d = reservation ∧
      ∃ r, peer_prekeys s !! (destination_id info, id) = Some r ∧
        PeerPrekeys.state r = PeerPrekeys.Reserved ∧ PeerPrekeys.reservation_id r = reservation ∧
        peer_prekeys s' = <[(destination_id info, id) :=
          peer_row_to PeerPrekeys.Used reservation (packet_id info) current r]> (peer_prekeys s)
  end.
Lemma bind_dispatch_prekey_run current info d prekey s :
  wp (bind_dispatch_prekey current info d prekey) (λ res s', match res with
    | Ok _ => prekey_bound current info d prekey s s' ∧ s' = set_peer_prekeys (peer_prekeys s') s
    | Err _ => True
    end) s.
Proof.
  unfold bind_dispatch_prekey. destruct prekey as [[id reservation]|]; [|wp_step; by destruct s].
  do 2 wp_step; [done|]. bool_prop. do 2 wp_step. wp_step. apply wp_modify. wp_step; [done|]. bool_prop.
  split; [|done]. split; [done|]. simpl.
  pose proof (λ k v, λ (_ : peer_prekeys s !! k = Some v) (HP : held_where (destination_id info) id reservation k v),
    proj1 HP) as Hkey.
  match goal with H : count_where _ _ = 1 |- _ => rewrite (count_where_key _ _ _ Hkey) in H; rename H into Hc end.
  rewrite (update_where_key _ _ _ Hkey).
  destruct (peer_prekeys s !! (destination_id info, id)) as [r|]; [|done].
  case_decide as Hheld; [|done]. destruct Hheld as (_ & Hst & Hres). exists r. by rewrite Hres.
Qed.
Lemma insert_packet_run id row s :
  wp (insert_packet id row) (λ res s', match res with
    | Ok _ => packets s !! id = None ∧ s' = set_packets (<[id := row]> (packets s)) s
    | Err _ => True
    end) s.
Proof.
  unfold insert_packet. do 4 wp_step; [done|]. bool_prop. apply wp_modify.
  match goal with H : ¬ (_ ≠ None) |- _ => by apply dec_stable in H end.
Qed.
(** The dispatch behind the caller's live lease, settled by one packet for the peer the
    intent names *)
Definition dispatched (current : Z) (info : PacketInfo) (raw : bytes) (owner claim_token : string)
    (prekey : option (string * string)) (item : a2a_dispatch_item) (s s' : db) : Prop :=
  ∃ d, let key := (di_principal_id item, di_message_id item) in
    a2a_gateway_dispatches s !! key = Some d ∧ held_dispatch owner claim_token key d ∧
    current < A2ADispatches.lease_until_ms d ∧
    A2ADispatches.destination_peer_id d = destination_id info ∧
    prekey_bound current info d prekey s s' ∧
    packets s !! packet_id info = None ∧
    packets s' = <[packet_id info := gateway_packet current info raw]> (packets s) ∧
    di_row item = settled_dispatch current (packet_id info) d ∧
    a2a_gateway_dispatches s' = <[key := di_row item]> (a2a_gateway_dispatches s) ∧
    (A2ADispatches.kind d ≠ "agent.task.cancel" → a2a_gateway_tasks s' = a2a_gateway_tasks s).
Lemma finish_cancellation_keeps current key :
  steps (keeps (λ s, (peer_prekeys s, packets s, a2a_gateway_dispatches s))) (finish_cancellation current key).
Proof. unfold finish_cancellation, exec. steps_all. by apply steps_modify. Qed.
Lemma dispatch_commit_run current info raw owner token prekey s :
  wp (dispatch_commit current info raw owner token prekey) (λ res s', match res with
    | Ok item => dispatched current info raw owner token prekey item s s'
    | Err _ => s' = s
    end) s.
Proof.
  unfold dispatch_commit, required. apply wp_transaction. do 4 wp_step; [|done].
  match goal with H : of_option _ _ = Ok ?kd |- _ => apply of_option_ok in H; destruct kd as [key d];
    apply head_select_where in H as (Hd & Hheld & Hlease) end.
  do 2 wp_step; [done|]. bool_prop. wp_step.
  eapply wp_mono; [apply bind_dispatch_prekey_run|]. intros [[]|e] s1; [|done]. intros [Hbound Hs1].
  wp_step. eapply wp_mono; [apply insert_packet_run|]. intros [[]|e] s2; [|done]. intros [Hnew Hs2].
  unfold update_dispatches. do 3 wp_step. wp_step. apply wp_modify. wp_step. do 2 wp_step; [done|]. bool_prop.
  assert (a2a_gateway_dispatches s2 = a2a_gateway_dispatches s) as E by (rewrite Hs2, Hs1; done).
  pose proof (λ k v, λ (_ : a2a_gateway_dispatches s2 !! k = Some v)
    (HP : k = key ∧ held_dispatch owner token k v), proj1 HP) as Hkey.
  set (s3 := set_a2a_gateway_dispatches _ _).
  assert (a2a_gateway_dispatches s3 = <[key := settled_dispatch current (packet_id info) d]>
    (a2a_gateway_dispatches s)) as Hs3.
  { unfold s3. simpl. rewrite (update_where_key _ _ _ Hkey), E, Hd. by rewrite decide_True. }
  assert (∀ s4, peer_prekeys s4 = peer_prekeys s3 → packets s4 = packets s3 →
    a2a_gateway_dispatches s4 = a2a_gateway_dispatches s3 →
    (A2ADispatches.kind d ≠ "agent.task.cancel" → a2a_gateway_tasks s4 = a2a_gateway_tasks s3) →
    dispatched current info raw owner token prekey
      (A2ADispatchItem key.1 key.2 (settled_dispatch current (packet_id info) d)) s s4) as Hfinal.
  { intros s4 E1 E2 E3 E4. exists d. destruct key as [p m]. simpl. split_and!; try done; try lia.
    - unfold prekey_bound in *. rewrite E1. unfold s3. simpl. rewrite Hs2. simpl. exact Hbound.
    - by rewrite Hs1 in Hnew.
    - rewrite E2. unfold s3. simpl. by rewrite Hs2, Hs1.
    - by rewrite E3.
    - intros Hk. rewrite (E4 Hk). unfold s3. simpl. by rewrite Hs2, Hs1. }
  wp_step. wp_step.
  - match goal with |- wp ?m ?Q s3 => change (wp m Q s3) end.
    eapply wp_mono; [apply finish_cancellation_keeps|]. intros [[]|e] s4 Hk; [|done].
    injection Hk as K1 K2 K3.
    change (a2a_gateway_dispatches s4 = a2a_gateway_dispatches s3) in K3. do 4 wp_step; [|done].
    match goal with H : of_option _ _ = Ok _ |- _ => apply of_option_ok in H; rewrite K3, Hs3, lookup_insert_eq in H end.
    simplify_eq. wp_step. apply Hfinal; try done. bool_prop. by intros Hk.
  - wp_step. do 4 wp_step; [|done].
    match goal with H : of_option _ _ = Ok _ |- _ => apply of_option_ok in H; rewrite Hs3, lookup_insert_eq in H end.
    simplify_eq. wp_step. by apply Hfinal.
Qed.

(** *** Reading a log *)

Definition event_at (E : gmap (string * string * Z) A2AEvents.row) (key : string * string) (n : Z)
    : A2AEvents.row := default (A2AEvents.Row "" "" "" 0) (E !! (key, n)).
(** The [n] rows of the log of [key] after sequence [after] *)
Definition log_rows (s : db) (key : string * string) (after n : Z)
    : list (string * string * Z * A2AEvents.row) :=
  (λ i, (key, i, event_at (a2a_gateway_events s) key i)) <$> seqZ (after + 1) n.
Lemma seqZ_sorted m n : StronglySorted Z.le (seqZ m n).
Proof.
  destruct (decide (0 ≤ n)) as [Hn|]; [|rewrite seqZ_nil by lia; constructor].
  revert m. pattern n. apply natlike_ind; [|clear n Hn; intros n Hn IH m|done].
  { intros m. constructor. }
  rewrite seqZ_cons, Z.pred_succ by lia. constructor; [apply IH|]. apply Forall_seqZ. lia.
Qed.
Lemma take_seqZ k m n : take k (seqZ m n) = seqZ m (Z.min (Z.of_nat k) n).
Proof.
  destruct (decide (0 ≤ n)) as [Hn|]; [|by rewrite !seqZ_nil, take_nil by lia].
  destruct (decide (Z.of_nat k ≤ n)).
  - rewrite Z.min_l by done. replace n with (Z.of_nat k + (n - Z.of_nat k)) by lia.
    rewrite seqZ_app, take_app_le by (rewrite ?length_seqZ; lia). apply take_ge. rewrite length_seqZ. lia.
  - rewrite Z.min_r, take_ge by (rewrite ?length_seqZ; lia). done.
Qed.
Lemma elem_of_log_rows s key after last x :
  gateway_ok s → 0 ≤ after →
  (∃ t, a2a_gateway_tasks s !! key = Some t ∧ A2ATasks.last_sequence t = last) →
  x ∈ log_rows s key after (last - after) ↔
    a2a_gateway_events s !! x.1 = Some x.2 ∧ x.1.1 = key ∧ after < x.1.2.
Proof.
  intros Hok Hafter (t & Ht & <-). unfold log_rows. rewrite list_elem_of_fmap.
  setoid_rewrite elem_of_seqZ. split.
  - intros (i & -> & Hi). simpl. split_and!; [|done|lia]. unfold event_at.
    destruct (proj2 (ga_log s Hok key i)) as [e ->]; [|done]. exists t. split; [done|lia].
  - destruct x as [[k i] e]. simpl. intros (He & -> & Hi). exists i. unfold event_at. rewrite He. simpl.
    split; [done|]. destruct (proj1 (ga_log s Hok key i)) as (t' & Ht' & Hn); [by exists e|].
    simplify_eq. lia.
Qed.
Lemma page_rows_exact s key t after limit :
  gateway_ok s → a2a_gateway_tasks s !! key = Some t → 0 ≤ after → 0 ≤ limit →
  page_rows s key after limit =
    log_rows s key after (Z.min limit (A2ATasks.last_sequence t - after)).
Proof.
  intros Hok Ht Hafter Hlimit. unfold page_rows.
  assert (order_by (λ kv : string * string * Z * A2AEvents.row, [kv.1.2])
    (select_where (λ k _, k.1 = key ∧ after < k.2) (a2a_gateway_events s)) =
    log_rows s key after (A2ATasks.last_sequence t - after)) as ->.
  { assert (∀ x, x ∈ select_where (λ k (_ : A2AEvents.row), k.1 = key ∧ after < k.2)
      (a2a_gateway_events s) ↔ x ∈ log_rows s key after (A2ATasks.last_sequence t - after)) as Hin.
    { intros [k e]. rewrite elem_of_select_where, elem_of_log_rows; naive_solver. }
    apply (StronglySorted_unique_strong (key_le (λ kv, [kv.1.2]))).
    - intros x y Hx Hy Hxy Hyx. rewrite elem_of_order_by, Hin, elem_of_log_rows in Hx by eauto.
      rewrite elem_of_log_rows in Hy by eauto. destruct x as [[k i] e], y as [[k' j] e']. simpl in *.
      assert ([i] = [j]) as [= ->] by (by apply zlex_antisymm).
      destruct Hx as (Hx & Ek & _), Hy as (Hy & Ek' & _). subst. rewrite Hx in Hy. by injection Hy as ->.
    - apply order_by_sorted.
    - unfold log_rows. eapply StronglySorted_fmap; [|apply seqZ_sorted].
      intros i j Hij. unfold key_le. simpl. rewrite andb_true_r, orb_true_iff, Z.ltb_lt, Z.eqb_eq. lia.
    - rewrite order_by_Permutation. apply NoDup_Permutation; [| |done].
      + eapply NoDup_fmap_1, NoDup_select_where.
      + unfold log_rows. apply NoDup_fmap_2_strong; [by intros ???? [=]|apply NoDup_seqZ]. }
  unfold log_rows. rewrite <- fmap_take, take_seqZ. by rewrite Z2Nat.id.
Qed.

(** A client that follows [next_sequence] until a page says it is caught up; [None]: out of
    fuel *)
Fixpoint read_pages (fuel : nat) (principal a2a_task sender : string) (after limit : Z) (s : db)
    : option (res (list a2a_event_item)) :=
  match fuel with
  | O => None
  | S fuel =>
      match (read_a2a_task_events principal a2a_task sender after limit s).1 with
      | Err e => Some (Err e)
      | Ok page =>
          if pg_caught_up page then Some (Ok (pg_events page)) else
          (λ rest : res (list a2a_event_item), items ← rest; mret (pg_events page ++ items)) <$>
            read_pages fuel principal a2a_task sender (pg_next_sequence page) limit s
      end
  end.

Lemma map_res_app {A B} (f : A → res B) l1 l2 :
  map_res f (l1 ++ l2) = (r1 ← map_res f l1; r2 ← map_res f l2; mret (r1 ++ r2)).
Proof.
  induction l1 as [|x l1 IH]; simpl; [by destruct (map_res f l2)|].
  destruct (f x); [|done]. cbn in *. rewrite IH. destruct (map_res f l1), (map_res f l2); done.
Qed.
Lemma log_rows_app s key after n m : 0 ≤ n → 0 ≤ m →
  log_rows s key after (n + m) = log_rows s key after n ++ log_rows s key (after + n) m.
Proof.
  intros. unfold log_rows. rewrite seqZ_app, fmap_app by done. do 3 f_equal. lia.
Qed.
Lemma item_sequence x i : _a2a_event_item x = Ok i → ei_sequence i = x.1.2.
Proof. unfold _a2a_event_item. intros H. res_inv. by subst i. Qed.
(** The cursor after a page *)
Lemma page_cursor s key after n items : 0 ≤ n →
  map_res _a2a_event_item (log_rows s key after n) = Ok items →
  match last items with Some i => ei_sequence i | None => after end = after + n.
Proof.
  intros Hn H%map_res_Forall2. destruct (decide (n = 0)) as [->|].
  { unfold log_rows in H. rewrite seqZ_nil in H by lia. inversion H. simpl. lia. }
  replace n with (n - 1 + 1) in H by lia. rewrite log_rows_app in H by lia.
  apply Forall2_app_inv_l in H as (l1 & l2 & _ & H & ->). unfold log_rows in H.
  rewrite seqZ_cons, seqZ_nil in H by lia. inversion H as [|x i l l' Hi Hl]; subst. inversion Hl; subst.
  rewrite last_snoc, (item_sequence _ _ Hi). simpl. lia.
Qed.
Lemma read_page_exact s p sender t after limit row :
  gateway_ok s → task_join s p t = Some (A2ATaskItem p sender t row) →
  _consumer_id p "A2A principal ID" = Ok p →
  _a2a_node_id sender "authenticated A2A sender Node ID" = Ok sender →
  _a2a_external_id t "A2A task ID" = Ok t →
  0 ≤ after ≤ A2ATasks.last_sequence row → A2ATasks.last_sequence row < 2 ^ 63 → 1 ≤ limit ≤ 1000 →
  let n := Z.min limit (A2ATasks.last_sequence row - after) in
  (read_a2a_task_events p t sender after limit s).1 =
    (items ← map_res _a2a_event_item (log_rows s (p, t) after n);
     mret (EventPage (A2ATasks.state row) after (after + n) (A2ATasks.last_sequence row)
       (A2ATasks.last_sequence row <=? after + n) items)).
Proof.
  intros Hok Htask Hp Hsender Ht Hafter Hlast Hlimit n.
  assert (a2a_gateway_tasks s !! (p, t) = Some row) as Hrow
    by (apply task_join_Some in Htask as (r & q & ? & _ & [= _ ->]); done).
  unfold read_a2a_task_events. rewrite Hp, Hsender, Ht. cbv [mbind ST_bind lift gets].
  rewrite (proj2 (Z.ltb_ge after 0)) by lia. rewrite (proj2 (Z.leb_le 1 limit)), (proj2 (Z.leb_le limit 1000)) by lia.
  cbn [andb negb raise_if]. rewrite Htask. cbn [of_option ti_sender_node_id ti_row].
  rewrite String.eqb_refl, (proj2 (Z.leb_gt (2 ^ 63) after)) by lia. cbn [negb raise_if].
  rewrite (page_rows_exact s (p, t) row) by (done || lia). fold n.
  destruct (map_res _a2a_event_item (log_rows s (p, t) after n)) as [items|e] eqn:Hitems; [|done].
  by rewrite (λ H, page_cursor _ _ _ n items H Hitems) by (unfold n; lia).
Qed.
(** C34: reading page by page terminates and is reading the log: whatever the page size,
    a client that starts at sequence 0 and follows the cursor until a page is caught up
    gets, after at most one call per event and one more, each event of the task once and
    in the order 1, 2, …, [last_sequence] (or the error of the first event whose bytes do
    not unpack). *)
Theorem read_pages_complete {AG : ApprovalGrants} s p sender t limit row fuel :
  rtc store_step empty_db s → task_join s p t = Some (A2ATaskItem p sender t row) →
  _consumer_id p "A2A principal ID" = Ok p →
  _a2a_node_id sender "authenticated A2A sender Node ID" = Ok sender →
  _a2a_external_id t "A2A task ID" = Ok t →
  A2ATasks.last_sequence row < 2 ^ 63 → 1 ≤ limit ≤ 1000 →
  A2ATasks.last_sequence row < Z.of_nat fuel →
  read_pages fuel p t sender 0 limit s =
    Some (map_res _a2a_event_item (log_rows s (p, t) 0 (A2ATasks.last_sequence row))).
Proof.
  intros Hrun Htask Hp Hsender Ht Hlast Hlimit Hfuel.
  pose proof (reachable_gateway_ok s Hrun) as Hok.
  assert (0 ≤ A2ATasks.last_sequence row) as Hpos.
  { pose proof Htask as (r & q & Hr & _ & [= _ ->])%task_join_Some. by destruct (ga_task s Hok _ _ Hr) as (_ & _ & ? & _). }
  rewrite <- (Z.sub_0_r (A2ATasks.last_sequence row)).
  assert (∀ after, 0 ≤ after ≤ A2ATasks.last_sequence row →
    A2ATasks.last_sequence row - after < Z.of_nat fuel →
    read_pages fuel p t sender after limit s = Some (map_res _a2a_event_item
      (log_rows s (p, t) after (A2ATasks.last_sequence row - after)))) as Hread.
  2: { apply Hread; lia. }
  clear Hfuel. induction fuel as [|fuel IH]; [lia|]. intros after Hafter Hfuel.
  cbn [read_pages]. rewrite (read_page_exact s p sender t after limit row) by done.
  cbv zeta. set (n := Z.min limit (A2ATasks.last_sequence row - after)).
  assert (0 ≤ n ≤ A2ATasks.last_sequence row - after ∧ (1 ≤ n ∨ after = A2ATasks.last_sequence row))
    as [Hn Hn1] by (unfold n; lia). clearbody n.
  replace (A2ATasks.last_sequence row - after) with (n + (A2ATasks.last_sequence row - (after + n))) by lia.
  rewrite log_rows_app, map_res_app by lia.
  destruct (map_res _a2a_event_item (log_rows s (p, t) after n)) as [items|e]; [|done].
  cbn [mbind res_bind mret res_ret pg_caught_up pg_events pg_next_sequence].
  destruct (A2ATasks.last_sequence row <=? after + n) eqn:Hcaught; bool_prop.
  - replace (A2ATasks.last_sequence row - (after + n)) with 0 by lia.
    unfold log_rows at 1. rewrite seqZ_nil by lia. cbn. by rewrite app_nil_r.
  - rewrite IH by lia. done.
Qed.

(** *** Appending again *)

Lemma known_hash_progress E E' key h :
  table_progress eq E E' → known_hash E key h → known_hash E' key h.
Proof. intros Hprog (n & e & He & Hh). destruct (Hprog _ _ He) as (? & ? & <-). by exists n, e. Qed.
Lemma source_bound_progress p t source s s' :
  table_progress eq (a2a_gateway_messages s) (a2a_gateway_messages s') →
  source_bound p t source s → source_bound p t source s'.
Proof.
  unfold source_bound. intros Hprog (k & m & Hm & HP)%count_where_pos Hzero.
  destruct (Hprog _ _ Hm) as (m' & Hm' & <-). rewrite count_where_zero in Hzero. by apply (Hzero k m).
Qed.
Lemma task_join_progress s s' p sender t row :
  gateway_progress s s' → task_join s p t = Some (A2ATaskItem p sender t row) →
  ∃ row', task_join s' p t = Some (A2ATaskItem p sender t row') ∧ task_advance row row'.
Proof.
  intros [Hprin Htasks _ _ _] (r & q & Hr & Hq & [= -> ->])%task_join_Some.
  destruct (Htasks _ _ Hr) as (r' & Hr' & Hadv), (Hprin _ _ Hq) as (q' & Hq' & Hsender & _).
  exists r'. split; [|done]. apply task_join_Some. exists r', q'. by rewrite Hsender.
Qed.
(** The events of a commit that returned are known for ever. *)
Lemma append_commit_later current current' p sender t source events x s s1 s2 :
  append_commit current p sender t source events s = (Ok x, s1) → gateway_progress s1 s2 →
  ∃ row, task_join s2 p t = Some (A2ATaskItem p sender t row) ∧
    append_commit current' p sender t source events s2 =
      (Ok (AppendedEvents (A2ATasks.state row) (A2ATasks.last_sequence row) 0 (Z.of_nat (length events))), s2).
Proof.
  intros Hrun Hprog. pose proof (append_commit_run current p sender t source events s) as Hpost.
  unfold wp in Hpost. rewrite Hrun in Hpost. simpl in Hpost.
  destruct Hpost as (row & normalized & log & Htask & Hbound & Hnorm & Hres & Hs1).
  destruct (normalize_events_ok _ _ _ _ _ _ Hnorm) as [_ Hlen].
  pose proof (task_join_appended current p sender t row log x s Htask) as Htask1. rewrite <- Hs1 in Htask1.
  assert (a2a_gateway_messages s1 = a2a_gateway_messages s) as Hmessages by (rewrite Hs1; by destruct log).
  assert (a2a_gateway_events s1 = insert_log (p, t) (A2ATasks.last_sequence row) log (a2a_gateway_events s))
    as Hevents by (rewrite Hs1; by destruct log).
  destruct (task_join_progress _ _ _ _ _ _ Hprog Htask1) as (row' & Htask2 & Hctx & _).
  exists row'. split; [done|].
  assert (source_bound p t source s2) as Hbound2.
  { apply (source_bound_progress _ _ _ s1); [apply Hprog|]. unfold source_bound. by rewrite Hmessages. }
  assert (A2ATasks.context_id row' = A2ATasks.context_id row) as Ectx by (rewrite Hctx; by destruct log).
  unfold append_commit, transaction. cbv [mbind ST_bind gets lift].
  rewrite Htask2. cbn [of_option ti_sender_node_id ti_row]. rewrite String.eqb_refl. cbn [negb raise_if].
  unfold source_bound in Hbound2. apply Z.eqb_neq in Hbound2. rewrite Hbound2.
  rewrite Ectx, Hnorm, append_events_known.
  - cbn. by rewrite Hlen.
  - eapply Forall_impl; [apply Hres|]. intros e He. eapply known_hash_progress; [apply Hprog|]. by rewrite Hevents.
Qed.

(** ** Properties *)

Context {AG : ApprovalGrants}.

Lemma st_check_ok {A B} (r : res A) (f : A → M B) (s : db) b s' :
  (lift r ≫= f) s = (Ok b, s') → ∃ a, r = Ok a ∧ f a s = (Ok b, s').
Proof. cbv [mbind ST_bind lift]. destruct r as [a|e]; [|done]. intros H. by exists a. Qed.

(** C35: the gateway tables stay consistent over any sequence of store calls, whether they
    return or raise: a task has a bound principal, a known state, as many messages as it
    counts, and a cancellation that agrees with its state; its events are numbered
    1, 2, …, [last_sequence] without a gap and no two carry the same hash; each message
    has its task and the dispatch that carries it; exactly the leased dispatches have a
    claim token, and no two share one. *)
Theorem gateway_consistent s : rtc store_step empty_db s → gateway_ok s.
Proof. apply reachable_gateway_ok. Qed.

(** C31: no later call rewrites the gateway's history: a principal keeps its Node ID; a
    message and an event are never changed or removed; a task keeps its context, peer,
    skill, tenant and version, moves along the state table, and is frozen once its state is
    terminal; a dispatch keeps its destination and body, and never changes after the
    packet of it was queued. *)
Theorem gateway_history_permanent s s' :
  rtc store_step empty_db s → rtc store_step s s' → gateway_progress s s'.
Proof. intros H1 H2. apply (store_run_gateway _ _ H2), reachable_gateway_ok, H1. Qed.

(** An append that returned has happened once for all: whatever calls follow, the same
    batch sent again is accepted, finds every event known, appends nothing, and answers
    with the state and the sequence that the task has by then. *)
Theorem append_a2a_task_events_idempotent current current' p sender t source events x s s1 s2 :
  rtc store_step empty_db s →
  append_a2a_task_events current p sender t source events s = (Ok x, s1) →
  rtc store_step s1 s2 →
  ∃ p' t' row, _consumer_id p "A2A principal ID" = Ok p' ∧ _a2a_external_id t "A2A task ID" = Ok t' ∧
    ti_row <$> task_join s2 p' t' = Some row ∧
    append_a2a_task_events current' p sender t source events s2 =
      (Ok (AppendedEvents (A2ATasks.state row) (A2ATasks.last_sequence row) 0 (Z.of_nat (length events))), s2).
Proof.
  intros Hs Hrun Hlater. unfold append_a2a_task_events in *.
  apply st_check_ok in Hrun as (p' & Hp & Hrun). apply st_check_ok in Hrun as (sender' & Hsender & Hrun).
  apply st_check_ok in Hrun as (t' & Ht & Hrun). apply st_check_ok in Hrun as (source' & Hsource & Hrun).
  apply st_check_ok in Hrun as ([] & Hlen & Hrun).
  assert (rtc store_step empty_db s1) as Hs1.
  { etrans; [exact Hs|]. apply rtc_once.
    exists _, (append_a2a_task_events current p sender t source events). split; [constructor|].
    unfold append_a2a_task_events. rewrite Hp, Hsender, Ht, Hsource. cbv [mbind ST_bind lift].
    rewrite Hlen. by rewrite Hrun. }
  destruct (append_commit_later _ current' _ _ _ _ _ _ _ _ _ Hrun
    (proj2 (store_run_gateway _ _ Hlater (reachable_gateway_ok _ Hs1)))) as (row & Htask & Hagain).
  exists p', t', row. split_and!; try done; [by rewrite Htask|].
  rewrite Hp, Hsender, Ht, Hsource. cbv [mbind ST_bind lift]. by rewrite Hlen.
Qed.

(** What an append adds: only the principal's own sender can append, from the Anet task
    of one of the task's messages; the events whose hash the log does not hold, in the
    order sent, get the next sequence numbers; there are none of them unless the source is
    the task's latest Anet task and the task is not finished; the state moves along the
    table; and an error changes nothing. *)
Theorem append_a2a_task_events_exact current p sender t source events s r s' :
  append_a2a_task_events current p sender t source events s = (r, s') →
  match r with
  | Err _ => s' = s
  | Ok x => ∃ p' sender' t' source' row normalized log,
      _consumer_id p "A2A principal ID" = Ok p' ∧
      _a2a_node_id sender "authenticated A2A sender Node ID" = Ok sender' ∧
      _a2a_external_id t "A2A task ID" = Ok t' ∧
      _a2a_external_id source "source Anet task ID" = Ok source' ∧
      task_join s p' t' = Some (A2ATaskItem p' sender' t' row) ∧
      source_bound p' t' source' s ∧
      normalize_events source' t' (A2ATasks.context_id row) 0 events = Ok normalized ∧
      append_result current (p', t') source' row normalized log x s ∧
      s' = appended current (p', t') row log x s
  end.
Proof.
  intros Hrun. pattern r, s'. eapply wp_run; [|exact Hrun].
  unfold append_a2a_task_events. do 10 (wp_step; try done).
  eapply wp_mono; [apply append_commit_run|]. intros [x|e] s1; [|done].
  intros (row & normalized & log & Happended). eexists _, _, _, _, row, normalized, log. do 4 (split; [eassumption|]). exact Happended.
Qed.

(** A dispatch is settled once, by the holder of its live lease: the commit queues the
    very packet that was inspected, under its own id and for the peer the intent names,
    spends the prekey reserved for it, marks the dispatch dispatched in the same
    transaction, and no later call changes that row; an error changes nothing. *)
Theorem commit_a2a_dispatch_packet_fenced c c' current owner token raw prekey_id reservation s r s' :
  rtc store_step empty_db s →
  commit_a2a_dispatch_packet c c' current owner token raw prekey_id reservation s = (r, s') →
  match r with
  | Err _ => s' = s
  | Ok item => ∃ owner' token' info prekey,
      _consumer_id owner "A2A dispatch owner" = Ok owner' ∧ _claim_token token = Ok token' ∧
      inspect_packet c c' raw false = Ok info ∧
      dispatch_prekey info prekey_id reservation = Ok prekey ∧
      dispatched current info raw owner' token' prekey item s s' ∧
      ∀ s'', rtc store_step s' s'' →
        a2a_gateway_dispatches s'' !! (di_principal_id item, di_message_id item) = Some (di_row item)
  end.
Proof.
  intros Hs Hrun. assert (rtc store_step empty_db s') as Hs'.
  { etrans; [exact Hs|]. apply rtc_once. eexists _, _. split; [apply call_commit_a2a_dispatch_packet|].
    by rewrite Hrun. }
  revert Hs'. pattern r, s'. eapply wp_run; [|exact Hrun].
  unfold commit_a2a_dispatch_packet. do 8 (wp_step; try done).
  eapply wp_mono; [apply dispatch_commit_run|]. intros [item|e] s1; [|done]. intros Hdone Hs1.
  eexists _, _, _, _. split_and!; try done. intros s2 Hlater.
  destruct Hdone as (d & _ & _ & _ & _ & _ & _ & _ & Hrow & Hdispatches & _).
  destruct (store_run_gateway _ _ Hlater (reachable_gateway_ok _ Hs1)) as [_ Hprog].
  destruct (gp_dispatches _ _ Hprog (di_principal_id item, di_message_id item) (di_row item))
    as (d' & Hd' & _ & _ & _ & _ & _ & _ & _ & _ & Hfinal).
  { by rewrite Hdispatches, lookup_insert_eq. }
  rewrite Hd', Hfinal; [done|]. by rewrite Hrow.
Qed.
End gateway_lemmas.

(** *** A concrete gateway *)

Definition static_outer : dict :=
  [(VStr "v", VInt 3); (VStr "id", VStr "00112233445566778899aabbccddeeff");
   (VStr "dst", VStr "an1aaaaaaaaaaaaaaaaaaaa"); (VStr "ts", VInt 1000);
   (VStr "exp", VInt 60000); (VStr "hops", VInt 8); (VStr "epk", VBytes (zeros 32));
   (VStr "nonce", VBytes (zeros 12)); (VStr "qos", VStr "control"); (VStr "km", VStr "static");
   (VStr "kid", VStr ""); (VStr "ct", VBytes (zeros 40))].
Definition the_inbound : A2AInboundTask :=
  match sample_inbound with
  | Ok t => t
  | Err _ => {| in_a2a_task_id := ""; in_context_id := ""; in_message_id := ""; in_task_id := "";
                in_skill_id := ""; in_body := []; in_message := [] |}
  end.
Definition gateway_task_id : string := in_a2a_task_id the_inbound.
Definition working_update : dict :=
  [field "statusUpdate" (VMap [field "taskId" (VStr gateway_task_id);
     field "contextId" (VStr (in_context_id the_inbound));
     field "status" (VMap [field "state" (VStr "TASK_STATE_WORKING")])])].
Definition gateway_platform : Platform :=
  let p := a2a_platform in
  {| platform_float := @platform_float p; platform_hashing := @platform_hashing p;
     platform_msgpack := @platform_msgpack (sample_platform
       [("raw", VMap static_outer); (@py_repr sample_float (VMap (in_body the_inbound)), VMap (in_body the_inbound));
        (@py_repr sample_float (VMap working_update), VMap working_update)]) |}.
Definition bound_gateway : db :=
  (bind_a2a_principal 1000 "gw" sample_sender [sample_sender] empty_db).2.
Definition registered_gateway : db :=
  (@register_a2a_message gateway_platform 1100 sample_token "" "gw" sample_sender gateway_task_id
    (in_context_id the_inbound) "m1" "an1aaaaaaaaaaaaaaaaaaaa" "research.web" "t1" "1.0"
    (VMap (in_body the_inbound)) bound_gateway).2.
Definition claimed_gateway : db :=
  (@claim_a2a_dispatches gateway_platform 1200 (λ _, sample_token) "w1" 1 30 registered_gateway).2.
Definition send_gateway (s : db) : res a2a_dispatch_item * db :=
  @commit_a2a_dispatch_packet gateway_platform 1300 1300 1300 "w1" sample_token "raw" "" "" s.
Definition sent_gateway : db := (send_gateway claimed_gateway).2.
Definition append_working (current : Z) (s : db) : res appended_events * db :=
  @append_a2a_task_events gateway_platform current "gw" sample_sender gateway_task_id gateway_task_id
    [VMap working_update] s.
Definition working_gateway : db := (append_working 1400 sent_gateway).2.

Lemma gateway_run {A} (m : M A) s s' : rtc (@store_step gateway_platform sample_grants) s s' →
  @store_call gateway_platform sample_grants A m →
  rtc (@store_step gateway_platform sample_grants) s (m s').2.
Proof. intros Hs Hm. etrans; [exact Hs|]. apply rtc_once. by exists A, m. Qed.
Lemma claimed_gateway_reachable :
  rtc (@store_step gateway_platform sample_grants) empty_db claimed_gateway.
Proof.
  unfold claimed_gateway, registered_gateway, bound_gateway.
  apply gateway_run; [|by apply call_claim_a2a_dispatches].
  apply gateway_run; [|apply call_register_a2a_message].
  apply gateway_run; [done|apply call_bind_a2a_principal].
Qed.
Lemma sent_gateway_reachable s : rtc (@store_step gateway_platform sample_grants) s claimed_gateway →
  rtc (@store_step gateway_platform sample_grants) s sent_gateway.
Proof.
  intros Hs. unfold sent_gateway, send_gateway. apply gateway_run; [done|apply call_commit_a2a_dispatch_packet].
Qed.
Lemma working_gateway_reachable s : rtc (@store_step gateway_platform sample_grants) s sent_gateway →
  rtc (@store_step gateway_platform sample_grants) s working_gateway.
Proof.
  intros Hs. unfold working_gateway, append_working. apply gateway_run; [done|apply call_append_a2a_task_events].
Qed.

Lemma gateway_consistent_witness :
  size (a2a_gateway_events working_gateway) = 1%nat ∧ gateway_ok working_gateway.
Proof.
  split; [vm_compute; reflexivity|].
  apply (@gateway_consistent gateway_platform sample_grants).
  apply working_gateway_reachable, sent_gateway_reachable, claimed_gateway_reachable.
Defined.
Lemma gateway_history_permanent_witness :
  size (a2a_gateway_events sent_gateway) = O ∧ size (a2a_gateway_events working_gateway) = 1%nat ∧
  gateway_progress sent_gateway working_gateway.
Proof.
  split; [vm_compute; reflexivity|]. split; [vm_compute; reflexivity|].
  apply (@gateway_history_permanent gateway_platform sample_grants).
  - apply sent_gateway_reachable, claimed_gateway_reachable.
  - by apply working_gateway_reachable.
Defined.
Lemma append_a2a_task_events_idempotent_witness :
  (append_working 1500 working_gateway).1 = Ok (AppendedEvents "working" 1 0 1) ∧
  ∃ row, (append_working 1500 working_gateway).1 =
    Ok (AppendedEvents (A2ATasks.state row) (A2ATasks.last_sequence row) 0 1).
Proof.
  split; [vm_compute; reflexivity|].
  assert (match (append_working 1400 sent_gateway).1 with Ok _ => True | Err _ => False end)
    as Hok by (vm_compute; exact I).
  assert (rtc (@store_step gateway_platform sample_grants) empty_db sent_gateway) as Hs
    by apply sent_gateway_reachable, claimed_gateway_reachable.
  unfold working_gateway. revert Hok Hs. generalize sent_gateway. intros s Hok Hs.
  destruct (append_working 1400 s) as [[x|e] s1] eqn:E; [|destruct Hok]. unfold append_working in *.
  destruct (@append_a2a_task_events_idempotent gateway_platform sample_grants 1400 1500
    "gw" sample_sender gateway_task_id gateway_task_id [VMap working_update] x s s1 s1
    Hs E (rtc_refl _ _)) as (p & t & row & _ & _ & _ & H).
  exists row. change (snd (Ok x, s1)) with s1. rewrite H. reflexivity.
Defined.
Lemma append_a2a_task_events_exact_witness :
  (append_working 1400 sent_gateway).1 = Ok (AppendedEvents "working" 1 1 0) ∧
  ∃ x row normalized log s', (append_working 1400 sent_gateway) = (Ok x, s') ∧
    append_result 1400 ("gw", gateway_task_id) gateway_task_id row normalized log x sent_gateway.
Proof.
  split; [vm_compute; reflexivity|].
  assert (match (append_working 1400 sent_gateway).1 with Ok _ => True | Err _ => False end)
    as Hok by (vm_compute; exact I).
  revert Hok. generalize sent_gateway. intros s Hok.
  destruct (append_working 1400 s) as [[x|e] s1] eqn:E; [|destruct Hok].
  unfold append_working in E.
  pose proof (@append_a2a_task_events_exact gateway_platform 1400 "gw" sample_sender gateway_task_id
      gateway_task_id [VMap working_update] s (Ok x) s1 E)
    as (p & n & t & source & row & normalized & log & Hp & _ & Ht & Hsource & _ & _ & _ & H & _).
  assert (p = "gw") as -> by (vm_compute in Hp; by injection Hp as <-).
  assert (t = gateway_task_id) as -> by (vm_compute in Ht; by injection Ht as <-).
  assert (source = gateway_task_id) as -> by (vm_compute in Hsource; by injection Hsource as <-).
  exists x, row, normalized, log, s1. split; [reflexivity|exact H].
Defined.
Lemma commit_a2a_dispatch_packet_fenced_witness :
  ∃ item d, (send_gateway claimed_gateway).1 = Ok item ∧ A2ADispatches.state (di_row item) = A2ADispatches.Dispatched ∧
    a2a_gateway_dispatches claimed_gateway !! (di_principal_id item, di_message_id item) = Some d ∧
    A2ADispatches.destination_peer_id d = "an1aaaaaaaaaaaaaaaaaaaa".
Proof.
  assert (match (send_gateway claimed_gateway).1 with Ok _ => True | Err _ => False end)
    as Hok by (vm_compute; exact I).
  pose proof claimed_gateway_reachable as Hs. revert Hok Hs. generalize claimed_gateway. intros s Hok Hs.
  destruct (send_gateway s) as [[item|e] s1] eqn:E; [|destruct Hok]. unfold send_gateway in E.
  destruct (@commit_a2a_dispatch_packet_fenced gateway_platform sample_grants 1300 1300 1300
      "w1" sample_token "raw" "" "" s (Ok item) s1 Hs E)
    as (owner & token & info & prekey & _ & _ & Hinfo & _ & (d & Hd & _ & _ & Hdest & _ & _ & _ & Hrow & _) & _).
  exists item, d. split; [reflexivity|]. split; [by rewrite Hrow|]. split; [exact Hd|].
  vm_compute in Hinfo. injection Hinfo as <-. exact Hdest.
Defined.
Lemma read_pages_complete_witness :
  ∃ row, task_join working_gateway "gw" gateway_task_id =
      Some (A2ATaskItem "gw" sample_sender gateway_task_id row) ∧
    @read_pages gateway_platform 2 "gw" gateway_task_id sample_sender 0 1 working_gateway =
      Some (map_res (@_a2a_event_item gateway_platform)
        (log_rows working_gateway ("gw", gateway_task_id) 0 1)).
Proof.
  assert (match task_join working_gateway "gw" gateway_task_id with
    | Some i => ti_principal_id i = "gw" ∧ ti_sender_node_id i = sample_sender ∧
        ti_a2a_task_id i = gateway_task_id ∧ A2ATasks.last_sequence (ti_row i) = 1
    | None => False end) as Htask by (vm_compute; by split_and!).
  assert (rtc (@store_step gateway_platform sample_grants) empty_db working_gateway) as Hs
    by apply working_gateway_reachable, sent_gateway_reachable, claimed_gateway_reachable.
  revert Htask Hs. generalize working_gateway. intros s Htask Hs.
  destruct (task_join s "gw" gateway_task_id) as [[p n t row]|] eqn:E; [|destruct Htask].
  simpl in Htask. destruct Htask as (-> & -> & -> & Hlast). exists row. split; [reflexivity|].
  rewrite <- Hlast.
  apply (@read_pages_complete gateway_platform sample_grants _ _ _ _ _ row); try (rewrite ?Hlast; lia); try done.
Defined.
